(* ===== verification/_CoqProject ===== *)
-Q . S2P
Prelude.v
Float64.v
Rounding.v
FloatRange.v
Decimal.v
GoStrings.v
GoFormat.v
Json.v
Sha256.v
JsonDecode.v
Strconv.v
Durations.v
JsonFloat.v
JsonMaps.v
JsonTime.v
SortSlice.v
Errors.v
Breaker.v
Budget.v
Failover.v
Inflight.v
InflightGauge.v
Holder.v
Health.v
HeartbeatWriter.v
Routing.v
SnapshotWire.v
Metrics.v
HealthService.v
WorkerRegistry.v
Config.v
Rendezvous.v
Candidates.v
CacheRegistry.v
CacheEvents.v
Scorers.v
Chain.v
GatewaySelect.v
SchedulerMetrics.v
GatewayAuth.v
GatewayDispatch.v
GatewayHandler.v
GatewayWire.v
GatewayMetrics.v
FleetScaling.v
FleetManager.v
Planner.v
PolicyWire.v
PolicyFlow.v
ProviderRegistry.v
CatalogStore.v
CatalogProgram.v
FleetLifecycle.v
LocalProvisioner.v
RunPod.v
ProvisionedFleet.v
WorkerProgram.v
WorkerAdapters.v
WorkerLoad.v
GatewayOpen.v
Relay.v
OllamaWire.v
ControlPlane.v
RankingBounds.v
Services.v
Startup.v
WorkerMain.v
Wiring.v
EndToEnd.v
