(* ===== verification/Prelude.v ===== *)
(** * Forge: a verification library for the Forge inference control plane

    Forge routes OpenAI-style completion requests to a fleet of inference
    workers.  Workers register and send heartbeats through Redis; the control
    plane derives a health snapshot, publishes routing snapshots, and its
    gateway authenticates a request, resolves the model in a catalog, ranks
    the workers, admits the request, and dispatches it with failover, reading
    the answer from the worker's stream.  Beside the request path a planner
    publishes routing policies and a fleet manager scales the workers, through
    provisioners that start local processes or RunPod pods.  This library
    models these parts, and the three programs that put them together, as
    executable definitions translated from the Go sources (paths below are
    relative to src/) and proves what makes them correct.

    ** Conventions

    Go functions are Rocq functions; mutable state is passed explicitly; a
    fallible function returns [result], a pair with an [option error], or [go]
    where it can panic.  Clocks, the answers of databases, Redis, HTTP and
    workers, randomness and Go's order of iteration over maps are arguments,
    so a theorem quantifies over them.  Code that must hold under concurrency
    (the in-flight tracker, the snapshot holders, the per-client limiter, the
    event listener, the gauges of the health service, the heartbeat writer, the
    local provisioner, the in-flight gauge, the control planes that share cache
    events, snapshots and policies) is a transition function or relation on
    atomic steps, run by arbitrary schedules.  Two steps are coarser than the
    code: a beat of the heartbeat writer (its loads and its SET), and the part
    of a local [Provision] from the start of the process to its record.  Machine integers are [Z] with explicit wrap-around where
    overflow can be reached; sizes of Go maps and slices are plain [Z].
    [float64] is IEEE 754 binary64 computed by the standard library's
    SpecFloat.  Third-party behaviour the code relies on is a type class with
    laws and at least one instance: [GrpcStatus] (status.FromError),
    [UnicodeTables] and [TrimTables] (case mapping and trimming beyond ASCII),
    [GoMath] (math.Exp), [Hash64] (xxhash), [CatalogTables], [ProviderTables]
    and [WorkerTables] (the queries of the three groups of tables), [RedisTTL]
    (keys that expire), [PodJSON] and [PodService] (the documents and the
    behaviour of the RunPod service), [Prometheus] and [Registrar] (metric
    vectors and their registry), [Koanf] (the configuration store), [Dig] (the
    dependency container),
    [UnicodeFields] and [QuoteTables] (strings.Fields and strconv.Quote beyond
    ASCII), and the contract of sort.Slice in SortSlice.v.  [Provisioner] is
    the program's own interface between manager and provisioners.

    ** Files

    Shared: Prelude (integers, time, results, tactics), Float64, Rounding and
    FloatRange (the operations of [float64], their exact meaning as rounded
    integers, and ranges and monotonicity that survive rounding), GoStrings
    (the strings package), GoFormat (numbers as text, ReplaceAll), SortSlice,
    Errors (error values, errors.Is, gRPC codes).  Of the standard library the
    program's results depend on, written out: Decimal and Strconv (ParseFloat,
    FormatFloat and the verb %.nf: what is written is read back as the same
    float), Durations (time.ParseDuration), Sha256 (the digest and its
    hexadecimal text).

    JSON (encoding/json): Json (strings as sequences of bytes that may not be
    UTF-8, documents, the printer and the parser), JsonDecode (Unmarshal into
    values that already hold something, by field name and folded case),
    JsonFloat (numbers as the shortest decimals that read back), JsonMaps and JsonTime
    (objects with sorted keys, RFC 3339).  A document that is printed is parsed
    to itself with its strings repaired to UTF-8, so the messages between the
    programs are modelled as the bytes they are, and what a reader gets is a
    theorem about the two sets of field tags.

    Reliability (services/gateway/reliability): Breaker (breaker.go), Budget
    (budget.go), Failover (failover.go, classify.go).  A map of breakers
    refines one breaker per worker, which follows the closed, open, half-open
    protocol with counters that never wrap; the budget stays in range; [Do]
    calls workers in order, goes on only after retryable errors, and reports
    success only for a call that succeeded or when it called nobody.

    State shared between goroutines (services/routing/inflight.go, holder.go):
    Inflight proves that in every interleaving the counters equal the requests
    that hold a worker and that [TryTrack] never over-admits; Holder that
    versions never go back and that [StoreIfNewer] is wait-free.

    Health and routing: Health (services/health) proves that a reconciliation
    yields exactly the heartbeats of Redis and that the event listener
    converges to them; HeartbeatWriter (worker/heartbeat.go) that what a worker
    reports is what that snapshot shows, until its key expires;
    WorkerRegistry (services/registry) that a registration is what the
    publisher lists; Routing (services/routing publisher.go, subscriber.go,
    capabilities.go, policy.go) that snapshots show workers as the heartbeats
    do and that the publisher keeps the last one built.  SnapshotWire has the
    JSON of snapshots and the control planes that publish and subscribe, in
    any interleaving: what a plane holds was published, and it is the last one
    published once a plane that was subscribed has handled its messages.
    HealthService (deriver.go) is the running service, whose two goroutines
    publish its gauges call by call: they never panic while keys are UTF-8,
    and publications that do not overlap leave the gauges of the snapshot.

    Scheduler (services/scheduler): Rendezvous (affinity.go), Candidates
    (from_snapshot.go and the filters), Scorers (the scorers, ewma.go,
    latency_store.go) and Chain (chain.go): exactly the eligible workers are
    ranked, by descending score with ties by id, independently of the order of
    the input; affinity is minimally disruptive.  RankingBounds proves for the
    chain as the control plane builds it, on the candidates of a snapshot in
    range, that scores are bounded and never NaN.  CacheRegistry (services/cacheregistry) models block keys and
    the index of cached blocks, which tracks the events it is given;
    CacheEvents (its service.go, and the HTTP handler of cache events) the
    control planes that exchange them: they hold only what was posted and
    agree when nothing is removed or lost.

    Gateway (services/gateway): GatewaySelect (snapshot_select.go,
    translate.go, errors.go and services/catalog/snapshot.go), GatewayAuth
    (apikey.go, middleware.go), GatewayDispatch (dispatch.go and the streaming
    half of handler.go), GatewayHandler (handler.go), which assembles the
    others, and GatewayOpen (openGenerate, provider_dial.go, activator.go): a
    completion that is answered, collected or streamed, comes from a worker
    that was eligible, streaming and collecting agree on every stream,
    providers are dispatched like workers, and waiting for capacity ends.
    GatewayWire (types.go, sse.go, errors.go) has the request and response
    bodies and the event streams as bytes; Relay reads them with the provider
    backend and the vLLM adapter, so that a gateway can stand behind another.

    Metrics: Metrics (the metrics.go files) has the collectors of every package
    and their registration, which never panics; the gauge of the breakers
    shows their states.  InflightGauge, SchedulerMetrics (chain.go, the
    filters, snapshot_select.go) and GatewayMetrics (handler.go, audit.go) have
    the calls that update them: requests and decisions are accounted for in
    every order of their observations.

    Fleet (services/fleet): FleetScaling (policy.go, hysteresis.go),
    FleetManager (loop.go) and FleetLifecycle (lifecycle.go): bounded steps,
    convergence to the demand, draining, and registration of ready workers.
    LocalProvisioner (local_process.go) and RunPod (runpod_client.go,
    runpod_provisioner.go) start and stop workers; ProvisionedFleet states
    what the manager needs of a provisioner as a class, shows that both
    provide it, and proves over any instance that no worker escapes the
    manager, and over local processes that the fleet meets its demand when
    the workers it starts become ready, however late.
    CatalogStore (services/catalog/repository.go) has the tables of the
    catalog and connects what is written with what the gateway resolves.
    Planner (services/planner): the shares of workers and the versions of
    policies; PolicyWire (planner/policy.go, routing/policy.go): their JSON,
    and that what subscribers hold was written, and is the latest once the key
    is read again; PolicyFlow puts the two together, with the insert, the SET
    and the PUBLISH of a policy failing one by one: what the ticks write
    survives the way through Redis, and every gateway comes to hold the policy
    the planner holds, or a newer one whose tick failed after writing it.  ProviderRegistry (services/provider/registry.go): external
    providers as virtual workers.  WorkerAdapters (worker/adapters,
    worker/grpc, services/provider/openai.go): the streams of the runtimes,
    and that the gateway collects what a worker generates.  OllamaWire
    (ollama.go): request and answer of Ollama as bytes.  WorkerLoad: the
    readiness and capabilities of the runtimes and the scraped load of vLLM.

    Programs: Config (internal/config), WorkerProgram (cmd/forge-worker): the
    environment a local worker is started with makes it register and beat so
    that the manager finds it ready; CatalogProgram (cmd/forge-catalog): the
    commands on the tables; ControlPlane (cmd/forge-controlplane): the
    components built from the configuration and the routes of the server;
    Services: the loops that carry the tables into the snapshots, after which
    a provider registered by command is picked for its models; Startup: the
    loops, the tracer, and the start of the control plane as one function,
    after which the first request finds the registered workers.  WorkerMain:
    the worker process from its start, with each of its exits, to the three
    goroutines that share its heartbeat, and what the control plane sees of
    it, the configured cost included.  Wiring: the constructors of the control
    plane's container, which resolve without a cycle, each built once.
    EndToEnd puts everything together: with a worker process up and its
    runtime answering, a chat request to the control plane is answered with
    the text the runtime wrote.

    Each file has the definitions first, then lemmas, then the properties,
    then witnesses that apply them to concrete inputs.  Some theorems record
    behaviour that looks unintended; their comments say so.

    ** Bounds and fuel

    The loops of the program are structural recursions on their data (workers
    left to try, lines of a stream, ports, attempts,
    schedules).  Loops with fuel are the SCAN of Health.v, [wait_loop] of
    GatewayOpen.v and [wait_ready] of FleetLifecycle.v, whose theorems show
    that the number of pages and the number of pauses in the timeout are
    enough; [duration_parts] of Durations.v (the length of the text, proved to
    be enough), [shortest] of Decimal.v (sixteen digits after the
    first, proved to be enough for the text to be read back) and the blocks of Sha256.v (the length of the message); the chunking of CacheRegistry.v (the
    length of its input) and [hex] of CacheEvents.v (sixteen digits of a
    64-bit hash), and [value] of Json.v, the parser, whose fuel is twice the
    length of the text and two: it is proved to be enough for every document
    that is printed.  Bounds in hypotheses (fewer than 2^32 breaker
    operations, 2^63 goroutines, 2^64 publications, 2^50 workers) are those
    below which the program's counters cannot wrap.

    ** Not modelled

    The spans and middleware of the tracing library, the gorm connection and
    the schema loader, the listeners of the programs and the texts they log:
    code that only calls third-party libraries and decides nothing.  Of encoding/json,
    what the program's types do not use (embedded structs, custom marshalers)
    and, of reading times, the texts beyond RFC 3339 that time.Parse takes. *)

From Stdlib Require Export ZArith Lia.
From stdpp Require Export base gmap strings list sorting numbers.

#[export] Set Default Goal Selector "!".
Global Open Scope string_scope.
Global Open Scope Z_scope.

(** ** Machine integers

    Go's [int], [int64], [uint32] and [uint64] are [Z] kept in range by the
    explicit wrap-around functions below. *)

Definition two32 : Z := 2 ^ 32.
Definition two63 : Z := 2 ^ 63.
Definition two64 : Z := 2 ^ 64.

Definition wrap_u32 (z : Z) : Z := z mod two32.
Definition wrap_u64 (z : Z) : Z := z mod two64.
Definition wrap_i64 (z : Z) : Z := (z + two63) mod two64 - two63.

Definition in_u32 (z : Z) : Prop := 0 <= z < two32.
Definition in_u64 (z : Z) : Prop := 0 <= z < two64.
Definition in_i64 (z : Z) : Prop := - two63 <= z < two63.

(** ** Time

    A [time.Time] is its distance in nanoseconds from Go's zero instant, so
    the zero value of the type is [0]; a [time.Duration] is a signed 64-bit
    number of nanoseconds and [Time.Sub] saturates. *)

Definition sat_i64 (z : Z) : Z := Z.max (- two63) (Z.min (two63 - 1) z).
Definition time_sub (a b : Z) : Z := sat_i64 (a - b).
Definition time_is_zero (t : Z) : bool := t =? 0.
Definition nanosecond : Z := 1.
Definition millisecond : Z := 1000000.
Definition second : Z := 1000000000.

(** ** Results of fallible Go functions *)

Inductive result (E A : Type) : Type :=
| Ok (a : A)
| Err (e : E).
Arguments Ok {E A} a.
Arguments Err {E A} e.

Definition is_ok {E A} (r : result E A) : bool :=
  match r with Ok _ => true | Err _ => false end.

(** A Go call either returns or panics. *)
Inductive go (A : Type) : Type :=
| Returns (a : A)
| Panics.
Arguments Returns {A} a.
Arguments Panics {A}.

Declare Scope forge_scope.
Delimit Scope forge_scope with forge.
Notation "'let?' x := c1 'in' c2" :=
  (match c1 with Ok x => c2 | Err e => Err e end)
  (at level 10, x pattern, c2 at level 200) : forge_scope.
Notation "'let!' x := c1 'in' c2" :=
  (match c1 with Returns x => c2 | Panics => Panics end)
  (at level 10, x pattern, c2 at level 200) : forge_scope.
Global Open Scope forge_scope.

(** ** Proof automation *)

(** [zbool] turns boolean comparisons on [Z] and the boolean connectives into
    propositions, in the hypotheses and in the goal. *)
Ltac zbool :=
  repeat match goal with
  | H : (_ && _)%bool = true |- _ => apply andb_true_iff in H; destruct H
  | H : (_ || _)%bool = false |- _ => apply orb_false_iff in H; destruct H
  | H : negb _ = true |- _ => apply negb_true_iff in H
  | H : negb _ = false |- _ => apply negb_false_iff in H
  | H : (_ <? _) = true |- _ => apply Z.ltb_lt in H
  | H : (_ <? _) = false |- _ => apply Z.ltb_ge in H
  | H : (_ <=? _) = true |- _ => apply Z.leb_le in H
  | H : (_ <=? _) = false |- _ => apply Z.leb_gt in H
  | H : (_ =? _) = true |- _ => apply Z.eqb_eq in H
  | H : (_ =? _) = false |- _ => apply Z.eqb_neq in H
  | H : (_ =? _)%string = true |- _ => apply String.eqb_eq in H
  | H : (_ =? _)%string = false |- _ => apply String.eqb_neq in H
  end.

(** [case_if] splits on the condition of a conditional of the goal. *)
Ltac case_if :=
  match goal with
  | |- context [if ?b then _ else _] =>
      lazymatch type of b with
      | bool => destruct b eqn:?
      | _ => case_decide
      end
  end.

(** [case_ifs] does so exhaustively and reads the outcome. *)
Ltac case_ifs := repeat (case_if; zbool); try done.

Create HintDb forge.
Create Rewrite HintDb forge.
Create HintDb forge_bounds.

Lemma wrap_u32_range z : in_u32 (wrap_u32 z).
Proof. apply Z.mod_pos_bound. reflexivity. Qed.

Lemma wrap_u32_id z : in_u32 z -> wrap_u32 z = z.
Proof. apply Z.mod_small. Qed.

Lemma wrap_u64_range z : in_u64 (wrap_u64 z).
Proof. apply Z.mod_pos_bound. reflexivity. Qed.

Lemma wrap_u64_id z : in_u64 z -> wrap_u64 z = z.
Proof. apply Z.mod_small. Qed.

Lemma wrap_i64_range z : in_i64 (wrap_i64 z).
Proof.
  unfold in_i64, wrap_i64.
  pose proof (Z.mod_pos_bound (z + two63) two64 eq_refl).
  assert (two64 = 2 * two63) by reflexivity. lia.
Qed.

Lemma wrap_i64_id z : in_i64 z -> wrap_i64 z = z.
Proof.
  unfold in_i64, wrap_i64. intros.
  assert (two64 = 2 * two63) by reflexivity.
  rewrite Z.mod_small; lia.
Qed.

Lemma time_sub_small a b : in_i64 (a - b) -> time_sub a b = a - b.
Proof. unfold in_i64, time_sub, sat_i64. lia. Qed.

(** Saturation does not disturb a comparison with a duration in range. *)
Lemma time_sub_ge a b d : - two63 < d < two63 -> (d <= time_sub a b <-> d <= a - b).
Proof. unfold time_sub, sat_i64. lia. Qed.

#[export] Hint Resolve wrap_u32_range wrap_u64_range wrap_i64_range : forge_bounds.
#[export] Hint Rewrite wrap_u32_id wrap_u64_id wrap_i64_id using lia : forge.

(** ** Generic list lemmas *)

Lemma filter_all {A} (P : A -> Prop) `{!∀ x, Decision (P x)} l :
  Forall P l -> filter P l = l.
Proof.
  induction 1; [done|]. rewrite filter_cons_True by done. by f_equal.
Qed.

(** How many elements pass a test. *)
Definition count {A} (f : A -> bool) (l : list A) : Z := Z.of_nat (length (List.filter f l)).

Definition b2z (b : bool) : Z := if b then 1 else 0.

Lemma count_cons {A} (f : A -> bool) x l : count f (x :: l) = b2z (f x) + count f l.
Proof. unfold count. cbn. destruct (f x); cbn [length b2z]; lia. Qed.

Lemma count_app {A} (f : A -> bool) l l' : count f (l ++ l') = count f l + count f l'.
Proof. unfold count. rewrite List.filter_app, length_app. lia. Qed.

Lemma count_snoc {A} (f : A -> bool) l x : count f (l ++ [x]) = count f l + b2z (f x).
Proof. rewrite count_app, count_cons. change (count f []) with 0. lia. Qed.

Lemma count_nonneg {A} (f : A -> bool) l : 0 <= count f l.
Proof. unfold count. lia. Qed.

Lemma count_le_length {A} (f : A -> bool) l : count f l <= Z.of_nat (length l).
Proof. induction l as [|x l IH]; [done|]. rewrite count_cons. cbn. destruct (f x); cbn; lia. Qed.

Lemma count_insert {A} (f : A -> bool) l i x y :
  l !! i = Some x -> count f (<[i := y]> l) = count f l - b2z (f x) + b2z (f y).
Proof.
  revert i. induction l as [|z l IH]; intros [|i] E; [done|done| |].
  - injection E as ->. change (<[0%nat:=y]> (x :: l)) with (y :: l). rewrite !count_cons. lia.
  - change (<[S i:=y]> (z :: l)) with (z :: <[i:=y]> l). rewrite !count_cons, (IH i E). lia.
Qed.

Lemma count_pos {A} (f : A -> bool) l i x : l !! i = Some x -> f x = true -> 1 <= count f l.
Proof.
  revert i. induction l as [|z l IH]; intros [|i] E Hf; [done|done| |]; rewrite count_cons; cbn in E.
  - simplify_eq. rewrite Hf. pose proof (count_nonneg f l). cbn. lia.
  - pose proof (IH i E Hf). destruct (f z); cbn; lia.
Qed.

(** ** Sums of counts *)

Definition sum_Z (l : list Z) : Z := foldr Z.add 0 l.

Lemma sum_Z_cons x l : sum_Z (x :: l) = x + sum_Z l.
Proof. done. Qed.

Lemma count_perm {A} (f : A -> bool) l l' : l ≡ₚ l' -> count f l = count f l'.
Proof. induction 1 as [|x l l' _ IH|x y l|]; rewrite ?count_cons; [done|by rewrite IH|lia|congruence]. Qed.

Lemma count_concat {A} (f : A -> bool) ls : count f (concat ls) = sum_Z (count f <$> ls).
Proof. induction ls as [|l ls IH]; [done|]. cbn [concat]. by rewrite fmap_cons, sum_Z_cons, count_app, IH. Qed.

Lemma count_ext {A} (f g : A -> bool) l : (forall x, x ∈ l -> f x = g x) -> count f l = count g l.
Proof.
  induction l as [|x l IH]; intros Hfg; [done|]. rewrite !count_cons, (Hfg x) by (by left). f_equal.
  apply IH. intros y Hy. apply Hfg. by right.
Qed.

(** Counting by key, over a list of distinct keys. *)
Lemma count_by_key {A B} `{EqDecision B} (key : A -> option B) (ks : list B) (l : list A) : NoDup ks ->
  sum_Z ((fun k => count (fun x => bool_decide (key x = Some k)) l) <$> ks) =
    count (fun x => match key x with Some k => bool_decide (k ∈ ks) | None => false end) l.
Proof.
  intros Hks. induction l as [|x l IH].
  - clear Hks. induction ks as [|k ks IHk]; [done|]. exact IHk.
  - rewrite count_cons, <- IH. clear IH.
    assert (forall f g, sum_Z ((fun k => b2z (f k) + g k) <$> ks) = sum_Z ((fun k => b2z (f k)) <$> ks) + sum_Z (g <$> ks)) as Hsplit.
    { intros f g. clear Hks. induction ks as [|k ks IHk]; [done|]. rewrite !fmap_cons, !sum_Z_cons. lia. }
    transitivity (sum_Z ((fun k => b2z (bool_decide (key x = Some k)) + count (fun x => bool_decide (key x = Some k)) l) <$> ks)).
    { f_equal. apply list_fmap_ext. intros. by rewrite count_cons. }
    rewrite Hsplit. f_equal. clear Hsplit. destruct (key x) as [k0|].
    + induction Hks as [|k ks Hk Hks IHk]; [done|]. rewrite fmap_cons, sum_Z_cons, IHk.
      destruct (decide (k0 = k)) as [->|Hne].
      * rewrite (bool_decide_eq_true_2 (Some k = Some k)) by done.
        rewrite (bool_decide_eq_true_2 (k ∈ k :: ks)) by (by left). rewrite (bool_decide_eq_false_2 (k ∈ ks)) by done. done.
      * rewrite (bool_decide_eq_false_2 (Some k0 = Some k)) by congruence. cbn [b2z]. rewrite Z.add_0_l. f_equal.
        apply bool_decide_ext. rewrite elem_of_cons. naive_solver.
    + clear. induction ks as [|k ks IHk]; [done|]. exact IHk.
Qed.

Lemma sum_ones {A} (f g : A -> Z) l : (forall x, f x = g x) -> sum_Z (f <$> l) = sum_Z (g <$> l).
Proof. intros E. f_equal. apply list_fmap_ext. intros. apply E. Qed.

Lemma sum_count {A} (f : A -> bool) l : sum_Z ((fun x => b2z (f x)) <$> l) = count f l.
Proof. induction l as [|x l IH]; [done|]. by rewrite fmap_cons, sum_Z_cons, count_cons, IH. Qed.

Lemma sum_add {A} (f g : A -> Z) l : sum_Z (f <$> l) + sum_Z (g <$> l) = sum_Z ((fun x => f x + g x) <$> l).
Proof. induction l as [|x l IH]; [done|]. rewrite !fmap_cons, !sum_Z_cons. lia. Qed.
