(* ===== verification/Float64.v ===== *)
(** * Go's [float64]

    The arithmetic is IEEE 754 binary64 with round-to-nearest-even, executed
    by the standard library's [SpecFloat] at precision 53 and maximal exponent
    1024; no operation is fused.  The first part of the file defines the
    operators the program uses, the second the order laws of the comparison
    operators, which hold for every pair of values that are not NaN. *)

From Stdlib Require Export SpecFloat.
From S2P Require Import Prelude.

Abbreviation float64 := spec_float.

Definition fprec : Z := 53.
Definition femax : Z := 1024.

Definition fadd (x y : float64) : float64 := SFadd fprec femax x y.
Definition fsub (x y : float64) : float64 := SFsub fprec femax x y.
Definition fmul (x y : float64) : float64 := SFmul fprec femax x y.
Definition fdiv (x y : float64) : float64 := SFdiv fprec femax x y.
Definition fltb (x y : float64) : bool := SFltb x y.
Definition fleb (x y : float64) : bool := SFleb x y.
Definition feqb (x y : float64) : bool := SFeqb x y.

(** Conversion of an integer, [float64(n)]. *)
Definition f_of_Z (z : Z) : float64 := binary_normalize fprec femax z 0 false.

(** [float64(x)] of a [float32], which is exact *)
Definition widen (x : spec_float) : float64 :=
  match x with S754_finite s m e => binary_normalize fprec femax (if s then Z.neg m else Z.pos m) e s | _ => x end.

Definition f_zero : float64 := S754_zero false.
Definition f_one : float64 := f_of_Z 1.

(** The decimal constant [n/d] of the source, rounded once. *)
Definition flit (n d : Z) : float64 := fdiv (f_of_Z n) (f_of_Z d).

Definition is_nan (x : float64) : bool :=
  match x with S754_nan => true | _ => false end.

Declare Scope float_scope.
Delimit Scope float_scope with F.
Bind Scope float_scope with spec_float.
Infix "+" := fadd : float_scope.
Infix "-" := fsub : float_scope.
Infix "*" := fmul : float_scope.
Infix "/" := fdiv : float_scope.
Infix "<?" := fltb : float_scope.
Infix "<=?" := fleb : float_scope.
Infix "=?" := feqb : float_scope.
Notation "x >? y" := (fltb y x) (only parsing) : float_scope.
Notation "x >=? y" := (fleb y x) (only parsing) : float_scope.

#[export] Instance comparison_eq_dec : EqDecision comparison.
Proof. solve_decision. Defined.
#[export] Instance float64_eq_dec : EqDecision spec_float.
Proof. solve_decision. Defined.

(** ** The order of floats

    [fkey] places a non-NaN float in a lexicographic order of integer triples:
    its class (infinities, negative, zero, positive), its signed exponent and
    its signed mantissa. *)

Definition fkey (x : float64) : Z * Z * Z :=
  match x with
  | S754_infinity true => (-2, 0, 0)
  | S754_finite true m e => (-1, - e, - Z.pos m)
  | S754_zero _ => (0, 0, 0)
  | S754_finite false m e => (1, e, Z.pos m)
  | S754_infinity false => (2, 0, 0)
  | S754_nan => (3, 0, 0)
  end.

Definition key_lt (a b : Z * Z * Z) : Prop :=
  let '(c1, e1, m1) := a in
  let '(c2, e2, m2) := b in
  c1 < c2 \/ (c1 = c2 /\ (e1 < e2 \/ (e1 = e2 /\ m1 < m2))).

Lemma SFcompare_key x y :
  is_nan x = false -> is_nan y = false ->
  match SFcompare x y with
  | Some Lt => key_lt (fkey x) (fkey y)
  | Some Eq => fkey x = fkey y
  | Some Gt => key_lt (fkey y) (fkey x)
  | None => False
  end.
Proof.
  destruct x as [[]|[]| |[] m1 e1], y as [[]|[]| |[] m2 e2];
    try discriminate; intros _ _; cbn; try lia; try reflexivity.
  all: destruct (Z.compare_spec e1 e2); try lia; subst.
  all: change (Pos.compare_cont Eq m1 m2) with (Pos.compare m1 m2);
    destruct (Pos.compare_spec m1 m2); cbn; subst; try lia; try reflexivity.
Qed.

Lemma SFcompare_nan x y :
  is_nan x = true \/ is_nan y = true -> SFcompare x y = None.
Proof. by destruct x, y; intros []. Qed.

(** The three comparison operators read through the key. *)
Ltac float_key x y :=
  let Hx := fresh "Nx" in let Hy := fresh "Ny" in
  destruct (is_nan x) eqn:Hx;
    [rewrite (SFcompare_nan x y) by auto|
     destruct (is_nan y) eqn:Hy;
       [rewrite (SFcompare_nan x y) by auto|
        pose proof (SFcompare_key x y Hx Hy);
        destruct (SFcompare x y) as [[]|]]].

Lemma fltb_spec x y :
  fltb x y = true <-> is_nan x = false /\ is_nan y = false /\ key_lt (fkey x) (fkey y).
Proof.
  unfold fltb, SFltb, key_lt. float_key x y; unfold key_lt in *;
    try (split; [done|intros (?&?&?); done]);
    destruct (fkey x) as [[? ?] ?], (fkey y) as [[? ?] ?];
    try (split; [discriminate|intros (?&?&?); simplify_eq; lia]);
    (split; [intros _; auto|done]).
Qed.

Lemma fleb_spec x y :
  fleb x y = true <->
  is_nan x = false /\ is_nan y = false /\ ~ key_lt (fkey y) (fkey x).
Proof.
  unfold fleb, SFleb, key_lt. float_key x y; unfold key_lt in *;
    try (split; [done|intros (?&?&?); done]);
    destruct (fkey x) as [[? ?] ?], (fkey y) as [[? ?] ?]; simplify_eq;
    try (split; [discriminate|intros (?&?&?); simplify_eq; lia]);
    (split; [intros _; repeat split; auto; lia|done]).
Qed.

Lemma feqb_spec x y :
  feqb x y = true <-> is_nan x = false /\ is_nan y = false /\ fkey x = fkey y.
Proof.
  unfold feqb, SFeqb. float_key x y; unfold key_lt in *;
    try (split; [done|intros (?&?&?); done]);
    destruct (fkey x) as [[? ?] ?], (fkey y) as [[? ?] ?]; simplify_eq;
    try (split; [discriminate|intros (?&?&?); simplify_eq; lia]);
    (split; [intros _; repeat split; auto; lia|done]).
Qed.

(** [float_order] decides goals about [fltb], [fleb] and [feqb] over values
    known not to be NaN. *)
Ltac float_order :=
  repeat match goal with
  | H : fltb _ _ = false |- _ =>
      let H' := fresh in
      assert (H' : ~ (fltb _ _ = true)) by (rewrite H; discriminate);
      clear H; rewrite fltb_spec in H'
  | H : fleb _ _ = false |- _ =>
      let H' := fresh in
      assert (H' : ~ (fleb _ _ = true)) by (rewrite H; discriminate);
      clear H; rewrite fleb_spec in H'
  | H : feqb _ _ = false |- _ =>
      let H' := fresh in
      assert (H' : ~ (feqb _ _ = true)) by (rewrite H; discriminate);
      clear H; rewrite feqb_spec in H'
  end;
  rewrite ?fltb_spec, ?fleb_spec, ?feqb_spec in *;
  unfold key_lt in *;
  repeat match goal with
  | |- context [fkey ?x] => destruct (fkey x) as [[? ?] ?] eqn:?
  | H : context [fkey ?x] |- _ => destruct (fkey x) as [[? ?] ?] eqn:?
  end;
  intuition (try congruence; try lia).

Lemma fltb_irrefl x : fltb x x = false.
Proof.
  destruct (fltb x x) eqn:E; [|done]. apply fltb_spec in E as (?&?&E).
  unfold key_lt in E. destruct (fkey x) as [[? ?] ?]. lia.
Qed.

(** The integer part of a finite number. *)
Definition trunc (x : float64) : Z :=
  match x with
  | S754_finite s m e =>
      let v := if 0 <=? e then Z.pos m * 2 ^ e else Z.pos m / 2 ^ (- e) in
      if s then - v else v
  | _ => 0
  end.

(** [Duration.Seconds] *)
Definition Seconds (d : Z) : float64 :=
  fadd (f_of_Z (Z.quot d second)) (fdiv (f_of_Z (Z.rem d second)) (f_of_Z 1000000000)).
