(* ===== verification/Rounding.v ===== *)
(** * Correct rounding of [float64]

    Every finite binary64 value is an integer multiple of 2^-1074, so a float
    is read as an integer by scaling with 2^1074.  The file proves that the
    arithmetic of [Float64] computes the exact result and rounds it once to
    nearest-even ([rnd]), that rounding is monotone and keeps the values that
    are already floats, and that the comparison operators order floats as
    their scaled integers.  The components use only the laws of the last
    section. *)

From S2P Require Import Prelude Float64.

(** ** Rounding a quotient to the nearest integer, ties to even *)

Definition rne (a b : Z) : Z :=
  let q := a / b in
  match Z.compare (2 * (a mod b)) b with
  | Lt => q
  | Gt => q + 1
  | Eq => if Z.even q then q else q + 1
  end.

Lemma rne_bounds a b :
  0 < b -> 2 * a - b <= 2 * (b * rne a b) <= 2 * a + b /\
  (2 * (b * rne a b) = 2 * a + b \/ 2 * (b * rne a b) = 2 * a - b -> Z.Even (rne a b)).
Proof.
  intros Hb. unfold rne.
  pose proof (Z.div_mod a b ltac:(lia)). pose proof (Z.mod_pos_bound a b Hb).
  set (q := a / b) in *. set (r := a mod b) in *.
  destruct (Z.compare_spec (2 * r) b).
  - destruct (Z.even q) eqn:E.
    + apply Z.even_spec in E. split; [nia|auto].
    + split; [nia|]. intros _. apply Z.even_spec.
      rewrite Z.even_add, E. done.
  - split; [nia|]. intros [|]; nia.
  - split; [nia|]. intros [|]; nia.
Qed.

Lemma rne_mono a b c d :
  0 < b -> 0 < d -> a * d <= c * b -> rne a b <= rne c d.
Proof.
  intros Hb Hd Hle.
  destruct (rne_bounds a b Hb) as [[H1 H2] H3].
  destruct (rne_bounds c d Hd) as [[H4 H5] H6].
  set (x := rne a b) in *. set (y := rne c d) in *.
  destruct (Z.le_gt_cases x y) as [|Hgt]; [done|exfalso].
  (* 2 b d x <= 2 a d + b d <= 2 c b + b d <= 2 b d y + 2 b d *)
  assert (2 * (b * x) * d <= (2 * a + b) * d) as A1 by (apply Z.mul_le_mono_nonneg_r; lia).
  assert ((2 * c - d) * b <= 2 * (d * y) * b) as A2 by (apply Z.mul_le_mono_nonneg_r; lia).
  assert (0 < b * d) as A3 by (apply Z.mul_pos_pos; lia).
  assert (b * d * (y + 1) <= b * d * x) as A4 by (apply Z.mul_le_mono_nonneg_l; lia).
  assert (x = y + 1) as Ex.
  { assert (b * d * x <= b * d * (y + 1)) as A5 by lia.
    apply Z.mul_le_mono_pos_l in A5; lia. }
  assert (2 * (b * x) * d = (2 * a + b) * d) as B1 by lia.
  assert (2 * (d * y) * b = (2 * c - d) * b) as B2 by lia.
  apply Z.mul_cancel_r in B1; [|lia]. apply Z.mul_cancel_r in B2; [|lia].
  destruct (H3 (or_introl B1)) as [u Hu]. destruct (H6 (or_intror B2)) as [v Hv]. lia.
Qed.

Lemma rne_scale a b c : 0 < b -> 0 < c -> rne (a * c) (b * c) = rne a b.
Proof. intros. apply Z.le_antisymm; apply rne_mono; nia. Qed.

Lemma rne_exact m b : 0 < b -> rne (m * b) b = m.
Proof.
  intros Hb. unfold rne. rewrite Z.mod_mul, Z.div_mul by lia.
  destruct (Z.compare_spec (2 * 0) b); lia.
Qed.

Lemma rne_lower a b m : 0 < b -> m * b <= a -> m <= rne a b.
Proof.
  intros Hb H. rewrite <- (rne_exact m b Hb). apply rne_mono; [lia..|]. nia.
Qed.

Lemma rne_upper a b m : 0 < b -> a <= m * b -> rne a b <= m.
Proof.
  intros Hb H. rewrite <- (rne_exact m b Hb). apply rne_mono; [lia..|]. nia.
Qed.

(** ** Number of binary digits *)

Definition ndig (z : Z) : Z := if z <=? 0 then 0 else Z.log2 z + 1.

Lemma digits2_pos_log2 p : Z.pos (digits2_pos p) = Z.log2 (Z.pos p) + 1.
Proof.
  induction p as [p IH|p IH|]; cbn [digits2_pos]; [| |reflexivity];
    rewrite Pos2Z.inj_succ, IH.
  - rewrite Pos2Z.inj_xI, Z.log2_succ_double by lia. lia.
  - rewrite Pos2Z.inj_xO, Z.log2_double by lia. lia.
Qed.

Lemma Zdigits2_ndig z : 0 <= z -> Zdigits2 z = ndig z.
Proof.
  intros. unfold ndig. destruct z as [|p|]; [done| |lia].
  cbn [Zdigits2]. rewrite digits2_pos_log2. by destruct (Z.leb_spec (Z.pos p) 0).
Qed.

Lemma ndig_nonneg z : 0 <= ndig z.
Proof. unfold ndig. pose proof (Z.log2_nonneg z). case_ifs; lia. Qed.

Lemma ndig_pos z : 0 < z -> 1 <= ndig z.
Proof.
  intros. unfold ndig. pose proof (Z.log2_nonneg z). destruct (Z.leb_spec z 0); lia.
Qed.

Lemma ndig_bounds z : 0 < z -> 2 ^ (ndig z - 1) <= z < 2 ^ ndig z.
Proof.
  intros. unfold ndig. destruct (Z.leb_spec z 0); [lia|].
  pose proof (Z.log2_spec z ltac:(lia)). replace (Z.log2 z + 1 - 1) with (Z.log2 z) by lia.
  by rewrite <- Z.add_1_r in *.
Qed.

Lemma ndig_upper z : z < 2 ^ ndig z.
Proof.
  destruct (Z.le_gt_cases z 0).
  - pose proof (Z.pow_pos_nonneg 2 (ndig z) ltac:(lia) (ndig_nonneg z)). lia.
  - by apply ndig_bounds.
Qed.

Lemma ndig_mono a b : a <= b -> ndig a <= ndig b.
Proof.
  intros. unfold ndig. destruct (Z.leb_spec a 0), (Z.leb_spec b 0); try lia.
  - pose proof (Z.log2_nonneg b). lia.
  - pose proof (Z.log2_le_mono a b). lia.
Qed.

Lemma ndig_unique z k : 0 < k -> 2 ^ (k - 1) <= z < 2 ^ k -> ndig z = k.
Proof.
  intros Hk Hz. assert (0 < 2 ^ (k - 1)) by (apply Z.pow_pos_nonneg; lia).
  unfold ndig. destruct (Z.leb_spec z 0); [lia|].
  rewrite (Z.log2_unique z (k - 1)); [lia|lia|].
  replace (Z.succ (k - 1)) with k by lia. done.
Qed.

Lemma ndig_le z k : 0 <= k -> z < 2 ^ k -> ndig z <= k.
Proof.
  intros Hk Hz. unfold ndig. destruct (Z.leb_spec z 0); [lia|].
  assert (Z.log2 z < k) by (apply Z.log2_lt_pow2; lia). lia.
Qed.

(** ** Rounding a nonnegative rational to 53 significant bits *)

Definition quantum (q : Z) : Z := Z.max 0 (ndig q - 53).

Definition rnd (n d : Z) : Z :=
  let k := quantum (n / d) in
  rne n (d * 2 ^ k) * 2 ^ k.

Lemma quantum_nonneg q : 0 <= quantum q.
Proof. unfold quantum. lia. Qed.

Lemma pow2_pos k : 0 <= k -> 0 < 2 ^ k.
Proof. intros. by apply Z.pow_pos_nonneg. Qed.

Lemma quantum_pow_pos q : 0 < 2 ^ quantum q.
Proof. apply pow2_pos, quantum_nonneg. Qed.

#[local] Hint Resolve quantum_nonneg quantum_pow_pos : core.

(** The rounded significand has at most 53 bits (or is 2^53), and at least
    53 when something was shifted out. *)
Lemma rnd_signif_upper n d : 0 <= n -> 0 < d -> rne n (d * 2 ^ quantum (n / d)) <= 2 ^ 53.
Proof.
  intros Hn Hd. pose proof (quantum_pow_pos (n / d)).
  apply rne_upper; [nia|].
  assert (n / d < 2 ^ (53 + quantum (n / d))) as Hlt.
  { eapply Z.lt_le_trans; [apply ndig_upper|].
    apply Z.pow_le_mono_r; [lia|]. unfold quantum. lia. }
  rewrite Z.pow_add_r in Hlt by (auto; lia).
  pose proof (Z.mul_succ_div_gt n d Hd). nia.
Qed.

Lemma rnd_signif_lower n d :
  0 <= n -> 0 < d -> 0 < quantum (n / d) -> 2 ^ 52 <= rne n (d * 2 ^ quantum (n / d)).
Proof.
  intros Hn Hd Hk. pose proof (quantum_pow_pos (n / d)).
  apply rne_lower; [nia|].
  assert (0 < n / d) as Hq.
  { destruct (Z.le_gt_cases (n / d) 0); [|done]. unfold quantum, ndig in Hk.
    destruct (Z.leb_spec (n / d) 0); lia. }
  pose proof (ndig_bounds _ Hq) as [Hlo _].
  assert (ndig (n / d) - 1 = 52 + quantum (n / d)) as E by (unfold quantum in *; lia).
  rewrite E, Z.pow_add_r in Hlo by (auto; lia).
  pose proof (Z.mul_div_le n d Hd). nia.
Qed.

Lemma rnd_mono n1 d1 n2 d2 :
  0 <= n1 -> 0 < d1 -> 0 <= n2 -> 0 < d2 -> n1 * d2 <= n2 * d1 ->
  rnd n1 d1 <= rnd n2 d2.
Proof.
  intros Hn1 Hd1 Hn2 Hd2 Hle. unfold rnd.
  assert (n1 / d1 <= n2 / d2) as Hq.
  { apply Z.div_le_lower_bound; [lia|].
    pose proof (Z.mul_div_le n1 d1 Hd1).
    assert (d2 * (n1 / d1) * d1 <= n2 * d1) by nia. nia. }
  assert (quantum (n1 / d1) <= quantum (n2 / d2)) as Hk.
  { unfold quantum. pose proof (ndig_mono _ _ Hq). lia. }
  pose proof (rnd_signif_upper n1 d1 Hn1 Hd1) as Hup.
  pose proof (rnd_signif_lower n2 d2 Hn2 Hd2) as Hlo.
  pose proof (quantum_pow_pos (n1 / d1)). pose proof (quantum_pow_pos (n2 / d2)).
  pose proof (quantum_nonneg (n1 / d1)).
  set (k1 := quantum (n1 / d1)) in *. set (k2 := quantum (n2 / d2)) in *.
  destruct (Z.le_gt_cases k2 k1).
  - assert (k1 = k2) as <- by lia. apply Z.mul_le_mono_nonneg_r; [lia|].
    apply rne_mono; nia.
  - specialize (Hlo ltac:(lia)).
    apply Z.le_trans with (2 ^ 53 * 2 ^ k1); [apply Z.mul_le_mono_nonneg_r; lia|].
    apply Z.le_trans with (2 ^ 52 * 2 ^ k2); [|apply Z.mul_le_mono_nonneg_r; lia].
    rewrite <- !Z.pow_add_r by lia. apply Z.pow_le_mono_r; lia.
Qed.

Lemma rnd_nonneg n d : 0 <= n -> 0 < d -> 0 <= rnd n d.
Proof.
  intros. unfold rnd. pose proof (quantum_pow_pos (n / d)).
  apply Z.mul_nonneg_nonneg; [|lia]. apply rne_lower; nia.
Qed.

(** A value that already has at most 53 significant bits stays. *)
Lemma rnd_exact m k : 0 <= m < 2 ^ 53 -> 0 <= k -> rnd (m * 2 ^ k) 1 = m * 2 ^ k.
Proof.
  intros Hm Hk. unfold rnd. rewrite Z.div_1_r, Z.mul_1_l.
  assert (quantum (m * 2 ^ k) <= k) as Hq.
  { unfold quantum. pose proof (ndig_le (m * 2 ^ k) (53 + k)). rewrite Z.pow_add_r in * by lia.
    pose proof (pow2_pos k Hk). nia. }
  set (q := quantum (m * 2 ^ k)) in *. assert (0 <= q) by apply quantum_nonneg.
  replace (m * 2 ^ k) with (m * 2 ^ (k - q) * 2 ^ q) at 1.
  2: { rewrite <- Z.mul_assoc, <- Z.pow_add_r by lia. do 2 f_equal. lia. }
  rewrite rne_exact by (apply pow2_pos; lia).
  rewrite <- Z.mul_assoc, <- Z.pow_add_r by lia. do 2 f_equal. lia.
Qed.

Lemma rnd_scale n d c : 0 < d -> 0 < c -> rnd (n * c) (d * c) = rnd n d.
Proof.
  intros Hd Hc. unfold rnd. rewrite Z.div_mul_cancel_r by lia.
  pose proof (quantum_pow_pos (n / d)).
  replace (d * c * 2 ^ quantum (n / d)) with (d * 2 ^ quantum (n / d) * c) by ring.
  by rewrite rne_scale by nia.
Qed.

(** ** The shifting machinery of [SpecFloat] *)

(** The position of [a/b] above its floor. *)
Definition loc_of (r b : Z) : location :=
  if r =? 0 then loc_Exact else loc_Inexact (2 * r ?= b).

(** [mrs] holds the floor of [a/b], whether the rest reaches one half, and
    whether it is neither nothing nor one half. *)
Definition shr_ok (a b : Z) (mrs : shr_record) : Prop :=
  shr_m mrs = a / b /\
  shr_r mrs = (b <=? 2 * (a mod b)) /\
  shr_s mrs = negb ((a mod b =? 0) || (2 * (a mod b) =? b)).

Lemma shr_ok_of_loc a b : 0 < b -> shr_ok a b (shr_record_of_loc (a / b) (loc_of (a mod b) b)).
Proof.
  intros Hb. unfold shr_ok, loc_of. pose proof (Z.mod_pos_bound a b Hb).
  set (r := a mod b) in *.
  destruct (Z.eqb_spec r 0); cbn.
  { repeat split. destruct (Z.leb_spec b (2 * r)); lia || done. }
  destruct (Z.compare_spec (2 * r) b); cbn; (split; [done|]);
    destruct (Z.leb_spec b (2 * r)), (Z.eqb_spec (2 * r) b); try lia; done.
Qed.

Lemma shr_ok_rne a b mrs :
  0 < b -> shr_ok a b mrs ->
  round_nearest_even (shr_m mrs) (loc_of_shr_record mrs) = rne a b.
Proof.
  intros Hb (Hm & Hr & Hs). unfold rne. pose proof (Z.mod_pos_bound a b Hb).
  destruct mrs as [m r s]. cbn in *. subst m. set (x := a mod b) in *.
  clearbody x. destruct (Z.compare_spec (2 * x) b), (Z.leb_spec b (2 * x)), (Z.eqb_spec x 0),
    (Z.eqb_spec (2 * x) b); try lia; cbn in *; subst r s; done.
Qed.

Lemma shr_1_ok a b mrs : 0 <= a -> 0 < b -> shr_ok a b mrs -> shr_ok a (2 * b) (shr_1 mrs).
Proof.
  intros Ha Hb (Hm & Hr & Hs). pose proof (Z.mod_pos_bound a b Hb).
  pose proof (Z.div_mod a b ltac:(lia)) as Hdm.
  assert (0 <= a / b) as Hq by (apply Z.div_pos; lia).
  set (q := a / b) in *. set (x := a mod b) in *.
  assert (a / (2 * b) = q / 2) as Hq2.
  { unfold q. rewrite Z.mul_comm, Z.div_div by lia. done. }
  assert (a mod (2 * b) = b * (q mod 2) + x) as Hx2.
  { rewrite Z.mod_eq by lia. rewrite Hq2. pose proof (Z.div_mod q 2 ltac:(lia)). nia. }
  destruct mrs as [m r s]. cbn in Hm, Hr, Hs. subst m.
  assert (shr_1 (Build_shr_record q r s) =
          Build_shr_record (q / 2) (q mod 2 =? 1) (r || s)) as ->.
  { destruct q as [|[p|p|]|p] eqn:E; try lia; cbn [shr_1]; try reflexivity.
    - rewrite Pos2Z.inj_xI. f_equal.
      + Z.to_euclidean_division_equations; lia.
      + symmetry. apply Z.eqb_eq. Z.to_euclidean_division_equations; lia.
    - rewrite Pos2Z.inj_xO. f_equal.
      + Z.to_euclidean_division_equations; lia.
      + symmetry. apply Z.eqb_neq. Z.to_euclidean_division_equations; lia. }
  unfold shr_ok. cbn [shr_m shr_r shr_s]. rewrite Hq2, Hx2. split; [done|].
  assert (q mod 2 = 0 \/ q mod 2 = 1) as Hbit by (Z.to_euclidean_division_equations; lia).
  destruct Hbit as [-> | ->]; subst r s.
  - split.
    + destruct (Z.leb_spec (2 * b) (2 * (b * 0 + x))); [lia|done].
    + destruct (Z.leb_spec b (2 * x)), (Z.eqb_spec x 0), (Z.eqb_spec (2 * x) b),
        (Z.eqb_spec (b * 0 + x) 0), (Z.eqb_spec (2 * (b * 0 + x)) (2 * b)); lia || done.
  - split.
    + destruct (Z.leb_spec (2 * b) (2 * (b * 1 + x))); [done|lia].
    + destruct (Z.leb_spec b (2 * x)), (Z.eqb_spec x 0), (Z.eqb_spec (2 * x) b),
        (Z.eqb_spec (b * 1 + x) 0), (Z.eqb_spec (2 * (b * 1 + x)) (2 * b)); lia || done.
Qed.

Lemma iter_shr_ok p : forall a b mrs,
  0 <= a -> 0 < b -> shr_ok a b mrs -> shr_ok a (b * 2 ^ Z.pos p) (iter_pos shr_1 p mrs).
Proof.
  induction p as [p IH|p IH|]; intros a b mrs Ha Hb H; cbn [iter_pos].
  - replace (b * 2 ^ Z.pos p~1) with (2 * b * 2 ^ Z.pos p * 2 ^ Z.pos p).
    2: { replace (Z.pos p~1) with (1 + Z.pos p + Z.pos p) by lia.
         rewrite !Z.pow_add_r by lia. ring. }
    pose proof (pow2_pos (Z.pos p) ltac:(lia)).
    apply IH; [done|nia|]. apply IH; [done|lia|]. by apply shr_1_ok.
  - replace (b * 2 ^ Z.pos p~0) with (b * 2 ^ Z.pos p * 2 ^ Z.pos p).
    2: { replace (Z.pos p~0) with (Z.pos p + Z.pos p) by lia.
         rewrite Z.pow_add_r by lia. ring. }
    pose proof (pow2_pos (Z.pos p) ltac:(lia)).
    apply IH; [done|nia|]. by apply IH.
  - replace (b * 2 ^ 1) with (2 * b) by lia. by apply shr_1_ok.
Qed.

Lemma shr_spec a b mrs e n :
  0 <= a -> 0 < b -> 0 <= n -> shr_ok a b mrs ->
  exists mrs', shr mrs e n = (mrs', e + n) /\ shr_ok a (b * 2 ^ n) mrs'.
Proof.
  intros Ha Hb Hn H. destruct n as [|p|p]; [| |lia]; cbn [shr].
  - exists mrs. rewrite Z.add_0_r, Z.mul_1_r. done.
  - eexists. split; [done|]. by apply iter_shr_ok.
Qed.

(** ** Floats as scaled integers *)

Definition sg (s : bool) (v : Z) : Z := if s then - v else v.

(** The scaled value of the infinities is the first power of two out of range. *)
Definition inf_val : Z := 2 ^ 2098.

Definition fval (x : float64) : Z :=
  match x with
  | S754_zero _ | S754_nan => 0
  | S754_finite s m e => sg s (Z.pos m * 2 ^ (e + 1074))
  | S754_infinity s => sg s inf_val
  end.

Definition valid (x : float64) : Prop := valid_binary fprec femax x = true.

Definition rcap (n d : Z) : Z := Z.min (rnd n d) inf_val.

Lemma fexp_eq e : fexp fprec femax e = Z.max (e - 53) (-1074).
Proof. reflexivity. Qed.

Lemma valid_finite s m e :
  valid (S754_finite s m e) <->
  Z.max (ndig (Z.pos m) + e - 53) (-1074) = e /\ e <= 971.
Proof.
  unfold valid, valid_binary, bounded, canonical_mantissa.
  rewrite fexp_eq, digits2_pos_log2, andb_true_iff, Z.eqb_eq, Z.leb_le.
  unfold ndig. destruct (Z.leb_spec (Z.pos m) 0); [lia|]. done.
Qed.

Lemma valid_finite_bounds s m e :
  valid (S754_finite s m e) ->
  0 < Z.pos m < 2 ^ 53 /\ -1074 <= e <= 971 /\ (-1074 < e -> 2 ^ 52 <= Z.pos m).
Proof.
  rewrite valid_finite. intros [H1 H2]. pose proof (ndig_bounds (Z.pos m) ltac:(lia)) as [L U].
  pose proof (ndig_nonneg (Z.pos m)). split; [|split; [lia|]].
  - split; [lia|]. eapply Z.lt_le_trans; [exact U|]. apply Z.pow_le_mono_r; lia.
  - intros. replace (ndig (Z.pos m) - 1) with 52 in L by lia. done.
Qed.

(** The exponent the machinery chooses is the quantum of the scaled value. *)
Lemma quantum_scaled a b N D p q :
  0 <= a -> 0 < b -> 0 <= N -> 0 < D -> 0 <= p -> 0 <= q ->
  N * b * 2 ^ p = a * D * 2 ^ q ->
  (a / b = 0 -> q <= p) ->
  quantum (N / D) = Z.max 0 (ndig (a / b) + (q - p) - 53).
Proof.
  intros Ha Hb HN HD Hp Hq Heq Hz.
  pose proof (Z.mul_div_le a b Hb) as Hlo. pose proof (Z.mul_succ_div_gt a b Hb) as Hhi.
  assert (0 <= a / b) by (apply Z.div_pos; lia).
  set (m := a / b) in *.
  pose proof (pow2_pos p Hp). pose proof (pow2_pos q Hq). pose proof (ndig_nonneg m).
  assert (0 < b * 2 ^ p) by nia.
  assert (m + 1 <= 2 ^ ndig m) as Hm by (pose proof (ndig_upper m); lia).
  set (g := ndig m + (q - p)) in *.
  assert (forall u v, 0 <= u -> 0 <= v -> u + p = v + q -> 2 ^ u * 2 ^ p = 2 ^ v * 2 ^ q) as Hpow.
  { intros u v ? ? E. rewrite <- !Z.pow_add_r by lia. by rewrite E. }
  assert (0 < D * 2 ^ q) as HDq by nia.
  assert (N * (b * 2 ^ p) < b * 2 ^ ndig m * (D * 2 ^ q)) as Hup.
  { replace (N * (b * 2 ^ p)) with (a * (D * 2 ^ q)) by lia.
    apply Z.mul_lt_mono_pos_r; [done|].
    apply Z.lt_le_trans with (b * Z.succ m); [done|]. apply Z.mul_le_mono_nonneg_l; lia. }
  destruct (Z.le_gt_cases g 0) as [Hg|Hg].
  - assert (N < D) as HND.
    { assert (2 ^ ndig m * 2 ^ q <= 2 ^ p).
      { rewrite <- Z.pow_add_r by lia. apply Z.pow_le_mono_r; lia. }
      apply Z.mul_lt_mono_pos_r with (b * 2 ^ p); [done|].
      eapply Z.lt_le_trans; [exact Hup|].
      replace (b * 2 ^ ndig m * (D * 2 ^ q)) with (D * b * (2 ^ ndig m * 2 ^ q)) by ring.
      rewrite (Z.mul_assoc D b). apply Z.mul_le_mono_nonneg_l; nia. }
    rewrite Z.div_small by lia. unfold quantum, ndig at 1. cbn [Z.leb Z.compare]. lia.
  - assert (0 < m) as Hm0.
    { destruct (Z.eq_dec m 0) as [E|]; [|lia]. specialize (Hz E).
      unfold g in Hg. rewrite E in Hg. change (ndig 0) with 0 in Hg. lia. }
    pose proof (ndig_bounds m Hm0) as [Hd _].
    pose proof (ndig_pos m Hm0).
    assert (2 ^ (g - 1) * D <= N) as L1.
    { apply Z.mul_le_mono_pos_r with (b * 2 ^ p); [done|].
      pose proof (Hpow (g - 1) (ndig m - 1) ltac:(lia) ltac:(lia) ltac:(lia)) as E.
      replace (2 ^ (g - 1) * D * (b * 2 ^ p)) with (2 ^ (ndig m - 1) * b * (D * 2 ^ q))
        by (transitivity (2 ^ (ndig m - 1) * 2 ^ q * b * D); [ring|rewrite <- E; ring]).
      replace (N * (b * 2 ^ p)) with (a * (D * 2 ^ q)) by lia.
      apply Z.mul_le_mono_nonneg_r; [lia|]. nia. }
    assert (N < 2 ^ g * D) as L2.
    { apply Z.mul_lt_mono_pos_r with (b * 2 ^ p); [done|].
      pose proof (Hpow g (ndig m) ltac:(lia) ltac:(lia) ltac:(lia)) as E.
      replace (2 ^ g * D * (b * 2 ^ p)) with (b * 2 ^ ndig m * (D * 2 ^ q)); [done|].
      transitivity (2 ^ ndig m * 2 ^ q * b * D); [ring|rewrite <- E; ring]. }
    unfold quantum. rewrite (ndig_unique (N / D) g); [lia|lia|].
    split; [apply Z.div_le_lower_bound; lia|apply Z.div_lt_upper_bound; lia].
Qed.

(** The second shift of [binary_round_aux] absorbs a significand that rounded
    up to 2^53, and nothing else. *)
Definition finish_round (s : bool) (m e : Z) : float64 :=
  let '(mrs, e2) := shr_fexp fprec femax m e loc_Exact in
  match shr_m mrs with
  | Z0 => S754_zero s
  | Zpos p => if e2 <=? femax - fprec then S754_finite s p e2 else S754_infinity s
  | Zneg _ => S754_nan
  end.

(** A significand and exponent as they come out of rounding. *)
Definition rounded (m e : Z) : Prop :=
  0 <= m <= 2 ^ 53 /\ -1074 <= e /\ (-1074 < e -> 2 ^ 52 <= m).

Lemma finish_round_small s m e :
  rounded m e -> m < 2 ^ 53 ->
  finish_round s m e =
    match m with
    | Z0 => S754_zero s
    | Zpos p => if e <=? 971 then S754_finite s p e else S754_infinity s
    | Zneg _ => S754_nan
    end.
Proof.
  intros (Hm & He & Hn) Hlt. unfold finish_round, shr_fexp.
  rewrite Zdigits2_ndig, fexp_eq by lia.
  pose proof (ndig_le m 53 ltac:(lia) Hlt).
  destruct (Z.max (ndig m + e - 53) (-1074) - e) as [|p|p] eqn:E; [done|lia|done].
Qed.

Lemma finish_round_carry s e :
  -1074 <= e ->
  finish_round s (2 ^ 53) e =
    if e + 1 <=? 971 then S754_finite s (2 ^ 52) (e + 1) else S754_infinity s.
Proof.
  intros He. unfold finish_round, shr_fexp. rewrite fexp_eq.
  change (Zdigits2 (2 ^ 53)) with 54.
  replace (Z.max (54 + e - 53) (-1074) - e) with 1 by lia. reflexivity.
Qed.

Lemma pow53_split K : 0 <= K -> 2 ^ 53 * 2 ^ K = 2 ^ 52 * 2 ^ (K + 1).
Proof. intros. rewrite <- !Z.pow_add_r by lia. f_equal. lia. Qed.

Lemma inf_val_split j : 0 <= j <= 2098 -> inf_val = 2 ^ j * 2 ^ (2098 - j).
Proof. intros. unfold inf_val. rewrite <- Z.pow_add_r by lia. f_equal. lia. Qed.

Lemma finish_round_spec s m e :
  rounded m e ->
  fval (finish_round s m e) = sg s (Z.min (m * 2 ^ (e + 1074)) inf_val) /\
  valid (finish_round s m e) /\ is_nan (finish_round s m e) = false.
Proof.
  intros (Hm & He & Hn).
  assert (0 < 2 ^ (e + 1074)) as Hp by (apply pow2_pos; lia).
  destruct (Z.eq_dec m (2 ^ 53)) as [->|Hne].
  - rewrite finish_round_carry by lia. rewrite pow53_split by lia.
    replace (e + 1074 + 1) with (e + 1 + 1074) by lia.
    destruct (Z.leb_spec (e + 1) 971) as [Hle|Hgt]; (split; [|split; [|done]]).
    + cbn [fval]. change (Z.pos (2 ^ 52)) with (2 ^ 52). rewrite Z.min_l; [done|].
      rewrite (inf_val_split 52), <- Z.pow_add_r by lia. rewrite <- Z.pow_add_r by lia.
      apply Z.pow_le_mono_r; lia.
    + apply valid_finite. change (ndig (Z.pos (2 ^ 52))) with 53. lia.
    + cbn [fval]. rewrite Z.min_r; [done|].
      rewrite (inf_val_split 52) by lia. apply Z.mul_le_mono_nonneg_l; [lia|].
      apply Z.pow_le_mono_r; lia.
    + done.
  - rewrite finish_round_small by (done || lia).
    destruct m as [|p|p]; [|destruct (Z.leb_spec e 971) as [Hle|Hgt]|lia]; (split; [|split; [|done]]).
    + cbn [fval]. rewrite Z.min_l; [by destruct s|]. unfold inf_val. lia.
    + done.
    + cbn [fval]. rewrite Z.min_l; [done|]. rewrite (inf_val_split 53) by lia.
      apply Z.mul_le_mono_nonneg; [lia|lia|lia|]. apply Z.pow_le_mono_r; lia.
    + apply valid_finite. split; [|done].
      pose proof (ndig_le (Z.pos p) 53 ltac:(lia) ltac:(lia)).
      destruct (Z.eq_dec e (-1074)); [lia|].
      rewrite (ndig_unique (Z.pos p) 53); lia.
    + cbn [fval]. rewrite Z.min_r; [done|]. rewrite (inf_val_split 52) by lia.
      apply Z.mul_le_mono_nonneg; [lia|lia|lia|]. apply Z.pow_le_mono_r; lia.
    + done.
Qed.

(** [binary_round_aux] rounds the exact value [a/b * 2^ex] once. *)
Lemma round_aux_spec s a b ex N D p q :
  0 <= a -> 0 < b -> 0 <= N -> 0 < D -> 0 <= p -> 0 <= q ->
  q - p = ex + 1074 -> N * b * 2 ^ p = a * D * 2 ^ q ->
  ex <= Z.max (ndig (a / b) + ex - 53) (-1074) ->
  let x := binary_round_aux fprec femax s (a / b) ex (loc_of (a mod b) b) in
  fval x = sg s (rcap N D) /\ valid x /\ is_nan x = false.
Proof.
  intros Ha Hb HN HD Hp Hq Hpq Heq Hex x.
  assert (0 <= a / b) as Hm by (apply Z.div_pos; lia).
  set (k := Z.max (ndig (a / b) + ex - 53) (-1074) - ex).
  destruct (shr_spec a b _ ex k Ha Hb ltac:(lia) (shr_ok_of_loc a b Hb)) as (mrs & Es & Hok).
  assert (x = finish_round s (rne a (b * 2 ^ k)) (ex + k)) as ->.
  { subst x. unfold binary_round_aux, shr_fexp at 1.
    rewrite Zdigits2_ndig, fexp_eq by done. fold k. rewrite Es.
    rewrite (shr_ok_rne a (b * 2 ^ k)); [done| |done].
    pose proof (pow2_pos k ltac:(lia)). nia. }
  assert (quantum (N / D) = ex + k + 1074) as Hqu.
  { rewrite (quantum_scaled a b N D p q); auto; [lia|].
    intros E. rewrite E in Hex. change (ndig 0) with 0 in Hex. lia. }
  pose proof (pow2_pos k ltac:(lia)). pose proof (pow2_pos p Hp). pose proof (pow2_pos q Hq).
  pose proof (pow2_pos (ex + k + 1074) ltac:(lia)).
  assert (rne N (D * 2 ^ quantum (N / D)) = rne a (b * 2 ^ k)) as Hrne.
  { assert (N * (b * 2 ^ k) = a * (D * 2 ^ quantum (N / D))) as E.
    { apply Z.mul_cancel_r with (2 ^ p); [lia|].
      transitivity (N * b * 2 ^ p * 2 ^ k); [ring|]. rewrite Heq, Hqu.
      transitivity (a * D * (2 ^ q * 2 ^ k)); [ring|].
      transitivity (a * D * (2 ^ (ex + k + 1074) * 2 ^ p)); [|ring].
      rewrite <- !Z.pow_add_r by lia. do 2 f_equal. lia. }
    rewrite Hqu in *. apply Z.le_antisymm; apply rne_mono; try nia; lia. }
  unfold rcap, rnd. rewrite Hrne, Hqu. apply finish_round_spec.
  rewrite <- Hrne. split; [|split; [lia|]].
  - split; [apply rne_lower; [rewrite Hqu; nia|lia]|by apply rnd_signif_upper].
  - intros. apply rnd_signif_lower; lia.
Qed.

(** ** The operations *)

(** Signed rounding of an integer (an exactly scaled value). *)
Definition rndZ (n : Z) : Z := if n <? 0 then - rcap (- n) 1 else rcap n 1.

Lemma iter_xO m d : Z.pos (Pos.iter xO m d) = Z.pos m * 2 ^ Z.pos d.
Proof.
  induction d as [|d IH] using Pos.peano_ind; [cbn; lia|].
  rewrite Pos.iter_succ, Pos2Z.inj_xO, IH, Pos2Z.inj_succ, Z.pow_succ_r by lia. ring.
Qed.

Lemma shl_align_spec m e e' :
  exists m2 e2, shl_align m e e' = (m2, e2) /\ e2 = Z.min e e' /\
    Z.pos m2 = Z.pos m * 2 ^ (e - e2).
Proof.
  unfold shl_align. destruct (e' - e) as [|p|p] eqn:E.
  - exists m, e. repeat split; [lia|]. rewrite Z.sub_diag, Z.mul_1_r. done.
  - exists m, e. repeat split; [lia|]. rewrite Z.sub_diag, Z.mul_1_r. done.
  - exists (Pos.iter xO m p), e'. split; [done|]. split; [lia|].
    rewrite iter_xO. replace (e - e') with (Z.pos p) by lia. done.
Qed.

Lemma ndig_shift m k : 0 < m -> 0 <= k -> ndig (m * 2 ^ k) = ndig m + k.
Proof.
  intros. unfold ndig. pose proof (pow2_pos k ltac:(lia)).
  destruct (Z.leb_spec (m * 2 ^ k) 0), (Z.leb_spec m 0); try nia.
  rewrite Z.log2_mul_pow2 by lia. lia.
Qed.

Lemma binary_round_spec s m e :
  -1074 <= e ->
  let x := binary_round fprec femax s m e in
  fval x = sg s (rcap (Z.pos m * 2 ^ (e + 1074)) 1) /\ valid x /\ is_nan x = false.
Proof.
  intros He x. subst x. unfold binary_round.
  rewrite digits2_pos_log2.
  replace (Z.log2 (Z.pos m) + 1) with (ndig (Z.pos m)) by (unfold ndig; done).
  destruct (shl_align_spec m e (fexp fprec femax (ndig (Z.pos m) + e)))
    as (m2 & e2 & -> & He2 & Hm2).
  rewrite fexp_eq in He2.
  assert (ndig (Z.pos m2) = ndig (Z.pos m) + (e - e2)) as Hnd.
  { rewrite Hm2, ndig_shift by lia. done. }
  pose proof (round_aux_spec s (Z.pos m2) 1 e2 (Z.pos m * 2 ^ (e + 1074)) 1 0 (e2 + 1074)) as H.
  rewrite Z.div_1_r, Z.mod_1_r in H. change (loc_of 0 1) with loc_Exact in H.
  apply H; try lia.
  rewrite Z.pow_0_r, !Z.mul_1_r, Hm2.
  rewrite <- Z.mul_assoc, <- Z.pow_add_r by lia. do 2 f_equal. lia.
Qed.

Lemma normalize_spec m e :
  -1074 <= e ->
  let x := binary_normalize fprec femax m e false in
  fval x = rndZ (m * 2 ^ (e + 1074)) /\ valid x /\ is_nan x = false.
Proof.
  intros He x. subst x. unfold rndZ.
  pose proof (pow2_pos (e + 1074) ltac:(lia)).
  destruct m as [|m|m]; cbn [binary_normalize].
  - rewrite Z.mul_0_l. cbn [Z.ltb Z.compare]. repeat split.
  - destruct (Z.ltb_spec (Z.pos m * 2 ^ (e + 1074)) 0); [nia|].
    by apply (binary_round_spec false).
  - destruct (Z.ltb_spec (Z.neg m * 2 ^ (e + 1074)) 0); [|nia].
    replace (- (Z.neg m * 2 ^ (e + 1074))) with (Z.pos m * 2 ^ (e + 1074)) by lia.
    by apply (binary_round_spec true).
Qed.

Definition finite (x : float64) : Prop :=
  match x with S754_zero _ | S754_finite _ _ _ => True | _ => False end.

#[export] Instance finite_dec x : Decision (finite x).
Proof. destruct x; cbn; apply _. Defined.

Lemma cond_Zopp_sg s v : cond_Zopp s v = sg s v.
Proof. done. Qed.

(** Integer conversion rounds the integer. *)
Lemma f_of_Z_spec z :
  fval (f_of_Z z) = rndZ (z * 2 ^ 1074) /\ valid (f_of_Z z) /\ is_nan (f_of_Z z) = false.
Proof. apply (normalize_spec z 0). lia. Qed.

Lemma sg_mul s a b : sg s a * b = sg s (a * b).
Proof. destruct s; cbn; ring. Qed.

(** The scaled value of an aligned significand. *)
Lemma aligned_val m e ez : -1074 <= ez -> ez <= e ->
  Z.pos (shl_align m e ez).1 * 2 ^ (ez + 1074) = Z.pos m * 2 ^ (e + 1074).
Proof.
  intros Hz Hle. destruct (shl_align_spec m e ez) as (m2 & e2 & -> & -> & Hm). cbn [fst].
  rewrite Z.min_r in Hm by lia. rewrite Hm, <- Z.mul_assoc, <- Z.pow_add_r by lia.
  do 2 f_equal. lia.
Qed.

Lemma rcap_exact m k :
  0 <= m < 2 ^ 53 -> 0 <= k <= 2045 -> rcap (m * 2 ^ k) 1 = m * 2 ^ k.
Proof.
  intros Hm Hk. unfold rcap. rewrite rnd_exact by lia. apply Z.min_l.
  rewrite (inf_val_split 53) by lia. pose proof (pow2_pos k ltac:(lia)).
  apply Z.mul_le_mono_nonneg; [lia|lia|lia|]. apply Z.pow_le_mono_r; lia.
Qed.

Lemma rndZ_opp n : rndZ (- n) = - rndZ n.
Proof.
  unfold rndZ. destruct (Z.ltb_spec n 0), (Z.ltb_spec (- n) 0); try lia.
  - rewrite Z.opp_involutive. lia.
  - assert (n = 0) as -> by lia. done.
Qed.

Lemma rndZ_sg s n : rndZ (sg s n) = sg s (rndZ n).
Proof. destruct s; cbn [sg]; [apply rndZ_opp|done]. Qed.

(** A float is its own rounding. *)
Lemma rndZ_fval x : valid x -> finite x -> rndZ (fval x) = fval x.
Proof.
  destruct x as [s|s| |s m e]; cbn [finite]; try done. intros Hv _.
  destruct (valid_finite_bounds _ _ _ Hv) as (Hm & He & _). cbn [fval].
  rewrite rndZ_sg. f_equal. unfold rndZ.
  pose proof (pow2_pos (e + 1074) ltac:(lia)).
  destruct (Z.ltb_spec (Z.pos m * 2 ^ (e + 1074)) 0); [nia|]. apply rcap_exact; lia.
Qed.

Lemma fadd_spec x y :
  valid x -> valid y -> finite x -> finite y ->
  fval (fadd x y) = rndZ (fval x + fval y) /\ valid (fadd x y) /\ is_nan (fadd x y) = false.
Proof.
  intros Hx Hy Fx Fy. pose proof (rndZ_fval x Hx Fx). pose proof (rndZ_fval y Hy Fy).
  destruct x as [sx|sx| |sx mx ex], y as [sy|sy| |sy my ey]; cbn [finite] in *; try done.
  - destruct sx, sy; done.
  - rewrite Z.add_0_r. done.
  - destruct (valid_finite_bounds _ _ _ Hx) as (_ & Hex & _).
    destruct (valid_finite_bounds _ _ _ Hy) as (_ & Hey & _).
    unfold fadd, SFadd. rewrite !cond_Zopp_sg.
    replace (fval (S754_finite sx mx ex) + fval (S754_finite sy my ey)) with
      ((sg sx (Z.pos (shl_align mx ex (Z.min ex ey)).1) +
        sg sy (Z.pos (shl_align my ey (Z.min ex ey)).1)) * 2 ^ (Z.min ex ey + 1074)).
    2: { rewrite Z.mul_add_distr_r, !sg_mul, !aligned_val by lia. done. }
    apply normalize_spec. lia.
Qed.

Lemma fsub_spec x y :
  valid x -> valid y -> finite x -> finite y ->
  fval (fsub x y) = rndZ (fval x - fval y) /\ valid (fsub x y) /\ is_nan (fsub x y) = false.
Proof.
  intros Hx Hy Fx Fy. pose proof (rndZ_fval x Hx Fx). pose proof (rndZ_fval y Hy Fy) as Ry.
  destruct x as [sx|sx| |sx mx ex], y as [sy|sy| |sy my ey]; cbn [finite] in *; try done.
  - destruct sx, sy; done.
  - change (fval (S754_zero sx)) with 0. rewrite Z.sub_0_l, rndZ_opp, Ry.
    split; [by destruct sy; cbn; lia|]. done.
  - rewrite Z.sub_0_r. done.
  - destruct (valid_finite_bounds _ _ _ Hx) as (_ & Hex & _).
    destruct (valid_finite_bounds _ _ _ Hy) as (_ & Hey & _).
    unfold fsub, SFsub. rewrite !cond_Zopp_sg.
    replace (fval (S754_finite sx mx ex) - fval (S754_finite sy my ey)) with
      ((sg sx (Z.pos (shl_align mx ex (Z.min ex ey)).1) -
        sg sy (Z.pos (shl_align my ey (Z.min ex ey)).1)) * 2 ^ (Z.min ex ey + 1074)).
    2: { rewrite Z.mul_sub_distr_r, !sg_mul, !aligned_val by lia. done. }
    apply normalize_spec. lia.
Qed.

(** Multiplication and division, for the signs the program uses: factors of
    any sign, a positive divisor. *)
Definition rndQ (n d : Z) : Z := if n <? 0 then - rcap (- n) d else rcap n d.

Lemma rndQ_0 d : 0 < d -> rndQ 0 d = 0.
Proof.
  intros Hd. unfold rndQ, rcap, rnd. cbn [Z.ltb Z.compare]. rewrite Z.div_0_l by lia.
  change (quantum 0) with 0. rewrite Z.pow_0_r, !Z.mul_1_r.
  pose proof (rne_exact 0 d Hd) as E. rewrite Z.mul_0_l in E. by rewrite E.
Qed.

Lemma rndQ_sg s n d : 0 <= n -> 0 < d -> rndQ (sg s n) d = sg s (rcap n d).
Proof.
  intros Hn Hd. unfold rndQ. destruct s; cbn [sg].
  - destruct (Z.ltb_spec (- n) 0); [by rewrite Z.opp_involutive|].
    assert (n = 0) as -> by lia. change (- 0) with 0. pose proof (rndQ_0 d Hd) as E.
    unfold rndQ in E. cbn [Z.ltb Z.compare] in E. by rewrite E.
  - destruct (Z.ltb_spec n 0); [lia|done].
Qed.

Lemma fmul_spec x y :
  valid x -> valid y -> finite x -> finite y ->
  fval (fmul x y) = rndQ (fval x * fval y) (2 ^ 1074) /\
  valid (fmul x y) /\ is_nan (fmul x y) = false.
Proof.
  intros Hx Hy Fx Fy.
  pose proof (rndQ_0 (2 ^ 1074) ltac:(lia)) as R0.
  destruct x as [sx|sx| |sx mx ex], y as [sy|sy| |sy my ey]; cbn [finite] in *; try done.
  - split; [|done]. cbn [fval]. rewrite Z.mul_0_r. symmetry. exact R0.
  - destruct (valid_finite_bounds _ _ _ Hx) as (Bx & Hex & Nx).
    destruct (valid_finite_bounds _ _ _ Hy) as (By & Hey & Ny).
    pose proof (pow2_pos (ex + 1074) ltac:(lia)). pose proof (pow2_pos (ey + 1074) ltac:(lia)).
    replace (fval (S754_finite sx mx ex) * fval (S754_finite sy my ey)) with
      (sg (xorb sx sy) (Z.pos (mx * my) * 2 ^ (ex + ey + 2148))).
    2: { cbn [fval]. replace (ex + ey + 2148) with ((ex + 1074) + (ey + 1074)) by lia.
         rewrite Z.pow_add_r, Pos2Z.inj_mul by lia.
         destruct sx, sy; cbn [sg xorb]; ring. }
    pose proof (pow2_pos (ex + ey + 2148) ltac:(lia)).
    rewrite rndQ_sg by (apply Z.mul_nonneg_nonneg || apply pow2_pos; lia).
    pose proof (round_aux_spec (xorb sx sy) (Z.pos (mx * my)) 1 (ex + ey)
                  (Z.pos (mx * my) * 2 ^ (ex + ey + 2148)) (2 ^ 1074) 1074 (ex + ey + 2148)) as HR.
    rewrite Z.div_1_r, Z.mod_1_r in HR. change (loc_of 0 1) with loc_Exact in HR.
    apply HR; try lia.
    destruct (Z.eq_dec ex (-1074)), (Z.eq_dec ey (-1074)); [lia| | |].
    all: assert (53 <= ndig (Z.pos (mx * my))); [|lia].
    all: rewrite <- (ndig_unique (2 ^ 52) 53) by lia; apply ndig_mono;
      rewrite Pos2Z.inj_mul; nia.
Qed.

Lemma new_location_loc_of r b : 0 <= r < b -> new_location b r = loc_of r b.
Proof.
  intros Hr. unfold new_location, new_location_even, new_location_odd, loc_of.
  destruct (Z.even b) eqn:Eb; destruct (Z.eqb_spec r 0) as [->|Hne]; try done.
  assert (Z.odd b = true) as Ho by (rewrite <- Z.negb_even, Eb; done).
  apply Z.odd_spec in Ho as [k Hk].
  f_equal. destruct (Z.compare_spec (2 * r + 1) b), (Z.compare_spec (2 * r) b);
    lia || done.
Qed.

Lemma fdiv_spec x y :
  valid x -> valid y -> finite x -> finite y -> 0 < fval y ->
  fval (fdiv x y) = rndQ (fval x * 2 ^ 1074) (fval y) /\
  valid (fdiv x y) /\ is_nan (fdiv x y) = false.
Proof.
  intros Hx Hy Fx Fy Py.
  destruct y as [sy|sy| |sy my ey]; cbn [finite fval] in *; try done.
  destruct (valid_finite_bounds _ _ _ Hy) as (By & Hey & Ny).
  pose proof (pow2_pos (ey + 1074) ltac:(lia)) as P1.
  destruct sy; cbn [sg] in *; [lia|].
  destruct x as [sx|sx| |sx mx ex]; cbn [finite fval] in *; try done.
  { split; [|done]. by rewrite Z.mul_0_l, rndQ_0. }
  destruct (valid_finite_bounds _ _ _ Hx) as (Bx & Hex & Nx).
  pose proof (pow2_pos (ex + 1074) ltac:(lia)) as P2.
  unfold fdiv, SFdiv, SFdiv_core_binary.
  rewrite !Zdigits2_ndig, fexp_eq by lia.
  set (e' := Z.min (Z.max (ndig (Z.pos mx) + ex - (ndig (Z.pos my) + ey) - 53) (-1074)) (ex - ey)).
  set (s := ex - ey - e'). assert (0 <= s) as Hs by lia.
  pose proof (pow2_pos s Hs) as P3.
  assert (match s with Z0 => Z.pos mx | Z.pos _ => Z.shiftl (Z.pos mx) s | Z.neg _ => 0 end
          = Z.pos mx * 2 ^ s) as ->.
  { rewrite <- Z.shiftl_mul_pow2 by lia. destruct s; done || lia. }
  set (a := Z.pos mx * 2 ^ s). assert (0 < a) as Ha by (unfold a; nia).
  replace (Z.div_eucl a (Z.pos my)) with (a / Z.pos my, a mod Z.pos my)
    by (unfold Z.div, Z.modulo; by destruct (Z.div_eucl a (Z.pos my))).
  rewrite new_location_loc_of by (apply Z.mod_pos_bound; lia).
  assert (0 <= Z.pos mx * 2 ^ (ex + 1074) * 2 ^ 1074) as HN by nia.
  rewrite xorb_false_r, sg_mul, rndQ_sg by lia.
  set (p := Z.max 0 (- (e' + 1074))).
  pose proof (pow2_pos p ltac:(lia)) as P4.
  apply (round_aux_spec sx a (Z.pos my) e' _ _ p (e' + 1074 + p)); try lia.
  - (* the exact quotient *)
    unfold a. rewrite <- !Z.mul_assoc.
    rewrite !(Z.mul_comm (Z.pos my)), !Z.mul_assoc. f_equal.
    rewrite <- !(Z.mul_assoc (Z.pos mx)), <- !Z.pow_add_r by lia.
    do 2 f_equal. lia.
  - (* enough digits *)
    assert (ndig (Z.pos mx) + s - ndig (Z.pos my) <= ndig (a / Z.pos my)) as Hd; [|lia].
    pose proof (ndig_nonneg (a / Z.pos my)).
    destruct (Z.le_gt_cases (ndig (Z.pos mx) + s - ndig (Z.pos my)) 0); [lia|].
    set (g := ndig (Z.pos mx) + s - ndig (Z.pos my)) in *.
    rewrite <- (ndig_unique (2 ^ (g - 1)) g); [|lia|].
    2: { split; [lia|]. apply Z.pow_lt_mono_r; lia. }
    apply ndig_mono, Z.div_le_lower_bound; [lia|].
    pose proof (ndig_bounds (Z.pos my) ltac:(lia)) as [_ U].
    pose proof (ndig_bounds (Z.pos mx) ltac:(lia)) as [L _].
    pose proof (ndig_nonneg (Z.pos my)). pose proof (pow2_pos (g - 1) ltac:(lia)).
    apply Z.le_trans with (2 ^ ndig (Z.pos my) * 2 ^ (g - 1)); [nia|].
    unfold a. rewrite <- Z.pow_add_r by lia.
    replace (ndig (Z.pos my) + (g - 1)) with (ndig (Z.pos mx) - 1 + s) by lia.
    pose proof (ndig_pos (Z.pos mx) ltac:(lia)).
    rewrite Z.pow_add_r by lia. nia.
Qed.

(** ** Order *)

(** A value the arithmetic can produce that is not NaN. *)
Definition good (x : float64) : Prop := valid x /\ is_nan x = false.

#[export] Instance good_dec x : Decision (good x).
Proof. unfold good, valid. apply _. Defined.

Lemma finite_pos_bounds s m e :
  valid (S754_finite s m e) -> 0 < Z.pos m * 2 ^ (e + 1074) < inf_val.
Proof.
  intros Hv. destruct (valid_finite_bounds _ _ _ Hv) as (Hm & He & _).
  pose proof (pow2_pos (e + 1074) ltac:(lia)). split; [nia|].
  rewrite (inf_val_split 53) by lia.
  apply Z.lt_le_trans with (2 ^ 53 * 2 ^ (e + 1074)); [nia|].
  apply Z.mul_le_mono_nonneg_l; [lia|]. apply Z.pow_le_mono_r; lia.
Qed.

Lemma finite_exp_lt s1 m1 e1 s2 m2 e2 :
  valid (S754_finite s1 m1 e1) -> valid (S754_finite s2 m2 e2) -> e1 < e2 ->
  Z.pos m1 * 2 ^ (e1 + 1074) < Z.pos m2 * 2 ^ (e2 + 1074).
Proof.
  intros H1 H2 Hlt.
  destruct (valid_finite_bounds _ _ _ H1) as (B1 & E1 & _).
  destruct (valid_finite_bounds _ _ _ H2) as (_ & E2 & N2). specialize (N2 ltac:(lia)).
  pose proof (pow2_pos (e1 + 1074) ltac:(lia)). pose proof (pow2_pos (e2 + 1074) ltac:(lia)).
  apply Z.lt_le_trans with (2 ^ 53 * 2 ^ (e1 + 1074)); [nia|].
  apply Z.le_trans with (2 ^ 52 * 2 ^ (e2 + 1074)); [|nia].
  rewrite <- !Z.pow_add_r by lia. apply Z.pow_le_mono_r; lia.
Qed.

(** The lexicographic order of the keys is the order of the values. *)
Lemma finite_key_lt s m1 e1 m2 e2 :
  valid (S754_finite s m1 e1) -> valid (S754_finite s m2 e2) ->
  (e1 < e2 \/ (e1 = e2 /\ Z.pos m1 < Z.pos m2) <->
   Z.pos m1 * 2 ^ (e1 + 1074) < Z.pos m2 * 2 ^ (e2 + 1074)).
Proof.
  intros H1 H2.
  destruct (valid_finite_bounds _ _ _ H1) as (_ & E1 & _).
  pose proof (pow2_pos (e1 + 1074) ltac:(lia)).
  pose proof (finite_exp_lt _ _ _ _ _ _ H1 H2). pose proof (finite_exp_lt _ _ _ _ _ _ H2 H1).
  destruct (Z.lt_trichotomy e1 e2) as [?|[<-|?]].
  - split; intros; [auto|left; lia].
  - split; [intros [?|[_ ?]]; [lia|nia]|]. intros. right. split; [done|]. nia.
  - split; intros; [lia|]. specialize (H3 ltac:(lia)). lia.
Qed.

Lemma key_lt_fval x y :
  good x -> good y -> (key_lt (fkey x) (fkey y) <-> fval x < fval y).
Proof.
  intros [Vx Nx] [Vy Ny].
  assert (0 < inf_val) by (unfold inf_val; lia).
  destruct x as [sx|sx| |sx mx ex], y as [sy|sy| |sy my ey]; try discriminate;
    try (pose proof (finite_pos_bounds _ _ _ Vx)); try (pose proof (finite_pos_bounds _ _ _ Vy));
    try (destruct sx); try (destruct sy); cbn [fkey fval sg key_lt];
    try (pose proof (finite_key_lt _ _ _ _ _ Vx Vy)); try (pose proof (finite_key_lt _ _ _ _ _ Vy Vx));
    lia.
Qed.

Lemma fltb_fval x y : good x -> good y -> (fltb x y = true <-> fval x < fval y).
Proof.
  intros Gx Gy. rewrite fltb_spec, key_lt_fval by done. unfold good in *. tauto.
Qed.

Lemma fleb_fval x y : good x -> good y -> (fleb x y = true <-> fval x <= fval y).
Proof.
  intros Gx Gy. rewrite fleb_spec, key_lt_fval by done.
  unfold good in *. rewrite Z.nlt_ge. tauto.
Qed.

(** Comparisons as decisions on the scaled values. *)
Lemma fltb_val x y : good x -> good y -> fltb x y = (fval x <? fval y).
Proof.
  intros. apply eq_true_iff_eq. by rewrite fltb_fval, Z.ltb_lt.
Qed.

Lemma fleb_val x y : good x -> good y -> fleb x y = (fval x <=? fval y).
Proof.
  intros. apply eq_true_iff_eq. by rewrite fleb_fval, Z.leb_le.
Qed.

(** ** Laws *)

Lemma rcap_mono n1 d1 n2 d2 :
  0 <= n1 -> 0 < d1 -> 0 <= n2 -> 0 < d2 -> n1 * d2 <= n2 * d1 ->
  rcap n1 d1 <= rcap n2 d2.
Proof. intros. unfold rcap. pose proof (rnd_mono n1 d1 n2 d2). lia. Qed.

Lemma rcap_nonneg n d : 0 <= n -> 0 < d -> 0 <= rcap n d.
Proof. intros. unfold rcap, inf_val. pose proof (rnd_nonneg n d). lia. Qed.

Lemma rndZ_mono a b : a <= b -> rndZ a <= rndZ b.
Proof.
  intros. unfold rndZ. destruct (Z.ltb_spec a 0), (Z.ltb_spec b 0); try lia.
  - pose proof (rcap_mono (- b) 1 (- a) 1). lia.
  - pose proof (rcap_nonneg (- a) 1). pose proof (rcap_nonneg b 1). lia.
  - apply rcap_mono; lia.
Qed.

Lemma rndQ_mono a b d : 0 < d -> a <= b -> rndQ a d <= rndQ b d.
Proof.
  intros. unfold rndQ. destruct (Z.ltb_spec a 0), (Z.ltb_spec b 0); try lia.
  - pose proof (rcap_mono (- b) d (- a) d). nia.
  - pose proof (rcap_nonneg (- a) d). pose proof (rcap_nonneg b d). lia.
  - apply rcap_mono; nia.
Qed.

Lemma finite_good x : valid x -> finite x -> good x.
Proof. by destruct x. Qed.

Lemma finite_range x : valid x -> finite x -> - inf_val < fval x < inf_val.
Proof.
  destruct x as [s|s| |s m e]; cbn [finite]; try done; intros Hv _; cbn [fval].
  pose proof (finite_pos_bounds _ _ _ Hv). destruct s; cbn [sg]; lia.
Qed.

(** A good value strictly inside the range is finite. *)
Lemma good_finite x : good x -> - inf_val < fval x < inf_val -> finite x.
Proof. destruct x as [|[]| |]; cbn; intros []; try done; lia. Qed.

(** The scaled value of 1. *)
Definition one_val : Z := 2 ^ 1074.

Lemma one_val_pos : 0 < one_val.
Proof. apply pow2_pos. lia. Qed.

Lemma one_val_double : one_val = 2 * 2 ^ 1073.
Proof. reflexivity. Qed.

Lemma one_val_inf : 2 ^ 53 * one_val <= inf_val.
Proof.
  rewrite (inf_val_split 53) by lia. apply Z.mul_le_mono_nonneg_l; [lia|].
  apply Z.pow_le_mono_r; lia.
Qed.

Lemma f_of_Z_exact z : Z.abs z < 2 ^ 53 -> fval (f_of_Z z) = z * one_val.
Proof.
  unfold one_val. intros Hz. rewrite (proj1 (f_of_Z_spec z)). unfold rndZ.
  pose proof (pow2_pos 1074 ltac:(lia)).
  destruct (Z.ltb_spec (z * 2 ^ 1074) 0).
  - replace (- (z * 2 ^ 1074)) with (- z * 2 ^ 1074) by ring. rewrite rcap_exact; nia.
  - rewrite rcap_exact; nia.
Qed.

Lemma f_of_Z_good z : good (f_of_Z z).
Proof. destruct (f_of_Z_spec z) as (_ & ? & ?). by split. Qed.

Lemma f_of_Z_finite z : Z.abs z < 2 ^ 53 -> finite (f_of_Z z).
Proof.
  intros Hz. apply good_finite; [apply f_of_Z_good|]. rewrite f_of_Z_exact by done.
  pose proof one_val_inf. pose proof one_val_pos. nia.
Qed.

Lemma rcap_int n : 0 <= n < 2 ^ 53 -> rcap (n * one_val) 1 = n * one_val.
Proof. intros. unfold one_val. apply rcap_exact; lia. Qed.

#[export] Hint Resolve f_of_Z_good : forge.
