(* ===== verification/FloatRange.v ===== *)
(** * Ranges of float64 expressions

    Closure of the floats between zero and a small integer under the
    arithmetic of the scorers and planners, and the monotonicity of that
    arithmetic, rounding included. *)

From S2P Require Import Prelude Float64 Rounding.

Lemma f_zero_good : good f_zero.
Proof. done. Qed.

Lemma fval_one : fval f_one = one_val.
Proof. unfold f_one. rewrite f_of_Z_exact by lia. apply Z.mul_1_l. Qed.

Lemma one_finite : valid f_one /\ finite f_one.
Proof. split; [apply f_of_Z_good|by apply f_of_Z_finite]. Qed.

(** Integers are not rounded. *)
Lemma rndZ_int n : 0 <= n < 2 ^ 53 -> rndZ (n * one_val) = n * one_val.
Proof.
  intros Hn. unfold rndZ. pose proof one_val_pos.
  destruct (Z.ltb_spec (n * one_val) 0); [nia|]. by apply rcap_int.
Qed.

Lemma rndQ_int n d : 0 <= n < 2 ^ 53 -> 0 < d -> rndQ (n * one_val * d) d = n * one_val.
Proof.
  intros Hn Hd. unfold rndQ. pose proof one_val_pos.
  destruct (Z.ltb_spec (n * one_val * d) 0); [nia|].
  unfold rcap. rewrite <- (Z.mul_1_l d) at 2. rewrite rnd_scale by lia. by apply rcap_int.
Qed.

Lemma rndZ_nonneg n : 0 <= n -> 0 <= rndZ n.
Proof.
  intros Hn. unfold rndZ. destruct (Z.ltb_spec n 0); [lia|]. apply rcap_nonneg; lia.
Qed.

Lemma rndQ_nonneg n d : 0 <= n -> 0 < d -> 0 <= rndQ n d.
Proof.
  intros Hn Hd. unfold rndQ. destruct (Z.ltb_spec n 0); [lia|]. by apply rcap_nonneg.
Qed.

(** A number between zero and [n]. *)
Definition frange (n : Z) (x : float64) : Prop :=
  valid x /\ finite x /\ 0 <= fval x <= n * one_val.

#[export] Instance frange_dec n x : Decision (frange n x).
Proof. unfold frange, valid. apply _. Defined.

Lemma frange_good n x : frange n x -> good x.
Proof. intros (V & F & _). by apply finite_good. Qed.

Lemma frange_weaken n m x : n <= m -> frange n x -> frange m x.
Proof. intros Hnm (V & F & H). split; [done|]. split; [done|]. pose proof one_val_pos. nia. Qed.

(** Staying below a small integer keeps a result finite. *)
Lemma frange_intro n x :
  0 <= n < 2 ^ 53 -> valid x -> is_nan x = false -> 0 <= fval x <= n * one_val -> frange n x.
Proof.
  intros Hn V N H. split; [done|]. split; [|done]. apply good_finite; [by split|].
  pose proof one_val_inf. pose proof one_val_pos. nia.
Qed.

Lemma frange_zero n : 0 <= n -> frange n f_zero.
Proof. intros. split; [done|]. split; [done|]. cbn. pose proof one_val_pos. nia. Qed.

Lemma frange_of_Z n z : 0 <= z <= n -> n < 2 ^ 53 -> frange n (f_of_Z z).
Proof.
  intros Hz Hn. split; [apply f_of_Z_good|]. split; [apply f_of_Z_finite; lia|].
  rewrite f_of_Z_exact by lia. pose proof one_val_pos. nia.
Qed.

Lemma frange_one : frange 1 f_one.
Proof. apply (frange_of_Z 1 1); lia. Qed.

Lemma frange_add n m x y :
  0 <= n -> 0 <= m -> n + m < 2 ^ 53 -> frange n x -> frange m y -> frange (n + m) (fadd x y).
Proof.
  intros Hn Hm Hs (Vx & Fx & Hx) (Vy & Fy & Hy).
  destruct (fadd_spec x y Vx Vy Fx Fy) as (E & V & N). apply frange_intro; [lia|done|done|]. rewrite E.
  split; [apply rndZ_nonneg; lia|]. rewrite <- (rndZ_int (n + m)) by lia. apply rndZ_mono. lia.
Qed.

Lemma frange_mul n m x y :
  0 <= n -> 0 <= m -> n * m < 2 ^ 53 -> frange n x -> frange m y -> frange (n * m) (fmul x y).
Proof.
  intros Hn Hm Hs (Vx & Fx & Hx) (Vy & Fy & Hy). pose proof one_val_pos as Hp.
  destruct (fmul_spec x y Vx Vy Fx Fy) as (E & V & N). change (2 ^ 1074) with one_val in E.
  apply frange_intro; [nia|done|done|]. rewrite E.
  split; [apply rndQ_nonneg; nia|]. rewrite <- (rndQ_int (n * m) one_val) by nia.
  apply rndQ_mono; [done|]. nia.
Qed.

Lemma frange_div k n x y :
  0 <= k < 2 ^ 53 -> frange n x -> valid y -> finite y -> 0 < fval y -> fval x <= k * fval y ->
  frange k (fdiv x y).
Proof.
  intros Hk (Vx & Fx & Hx) Vy Fy Hy Hle. pose proof one_val_pos as Hp.
  destruct (fdiv_spec x y Vx Vy Fx Fy Hy) as (E & V & N). change (2 ^ 1074) with one_val in E.
  apply frange_intro; [lia|done|done|]. rewrite E. split; [apply rndQ_nonneg; nia|].
  rewrite <- (rndQ_int k (fval y)) by done. apply rndQ_mono; [done|]. nia.
Qed.

(** [1 - r] for [r] between zero and one. *)
Lemma frange_one_minus r : frange 1 r -> frange 1 (fsub f_one r).
Proof.
  intros (Vr & Fr & Hr). destruct one_finite as [V1 F1]. pose proof one_val_pos.
  destruct (fsub_spec f_one r V1 Vr F1 Fr) as (E & V & N).
  apply frange_intro; [lia|done|done|]. rewrite E, fval_one.
  split; [apply rndZ_nonneg; lia|]. rewrite <- (rndZ_int 1) by lia. apply rndZ_mono. lia.
Qed.

(** ** Monotonicity *)

Definition num (x : float64) : Prop := valid x /\ finite x.

Lemma fadd_mono x x' y y' :
  num x -> num x' -> num y -> num y' -> fval x <= fval x' -> fval y <= fval y' ->
  fval (fadd x y) <= fval (fadd x' y').
Proof.
  intros [] [] [] [] Hx Hy. rewrite (proj1 (fadd_spec x y ltac:(done) ltac:(done) ltac:(done) ltac:(done))).
  rewrite (proj1 (fadd_spec x' y' ltac:(done) ltac:(done) ltac:(done) ltac:(done))). apply rndZ_mono. lia.
Qed.

Lemma fmul_mono w x x' :
  num w -> num x -> num x' -> 0 <= fval w -> fval x <= fval x' -> fval (fmul w x) <= fval (fmul w x').
Proof.
  intros [] [] [] Hw Hx. rewrite (proj1 (fmul_spec w x ltac:(done) ltac:(done) ltac:(done) ltac:(done))).
  rewrite (proj1 (fmul_spec w x' ltac:(done) ltac:(done) ltac:(done) ltac:(done))).
  apply rndQ_mono; [exact one_val_pos|]. nia.
Qed.

(** A positive numerator over a larger denominator. *)
Lemma fdiv_anti x y y' :
  num x -> num y -> num y' -> 0 <= fval x -> 0 < fval y -> fval y <= fval y' ->
  fval (fdiv x y') <= fval (fdiv x y).
Proof.
  intros [Vx Fx] [Vy Fy] [Vy' Fy'] Hx Hy Hle. pose proof one_val_pos as Hp.
  rewrite (proj1 (fdiv_spec x y Vx Vy Fx Fy Hy)).
  rewrite (proj1 (fdiv_spec x y' Vx Vy' Fx Fy' ltac:(lia))). change (2 ^ 1074) with one_val.
  unfold rndQ. destruct (Z.ltb_spec (fval x * one_val) 0); [nia|]. apply rcap_mono; nia.
Qed.

Lemma fdiv_mono x x' y :
  num x -> num x' -> num y -> 0 < fval y -> fval x <= fval x' -> fval (fdiv x y) <= fval (fdiv x' y).
Proof.
  intros [Vx Fx] [Vx' Fx'] [Vy Fy] Hy Hle. pose proof one_val_pos as Hp.
  rewrite (proj1 (fdiv_spec x y Vx Vy Fx Fy Hy)), (proj1 (fdiv_spec x' y Vx' Vy Fx' Fy Hy)).
  apply rndQ_mono; [done|]. change (2 ^ 1074) with one_val. nia.
Qed.

Lemma frange_num n x : frange n x -> num x.
Proof. intros (V & F & _). by split. Qed.

#[export] Hint Resolve frange_good frange_num frange_one : forge.
