(* ===== verification/Decimal.v ===== *)
(** * Decimal numbers and [float64] (package strconv, the arithmetic)

    A decimal [n * 10^e] is rounded once, to nearest with ties to even; the
    shortest decimal of a float is the one with the fewest digits that is
    rounded back to it, the nearer of the two neighbours where both are.
    Seventeen digits are always enough, which is proved here on integers:
    values are compared as fractions over the least positive float. *)

From S2P Require Import Prelude Float64 Rounding FloatRange.

(** ** Reading *)

Definition round_decimal (prec emax : Z) (neg : bool) (n e : Z) : spec_float :=
  if n =? 0 then S754_zero neg
  else if 0 <=? e then binary_normalize prec emax (sg neg (n * 10 ^ e)) 0 neg
  else
    let d := 10 ^ (- e) in
    let k := Z.max 0 (Z.log2 d - Z.log2 n + prec + 3) in
    binary_round_aux prec emax neg (n * 2 ^ k / d) (- k) (loc_of (n * 2 ^ k mod d) d).

(** ** Writing *)

(** [10^z] and [2^z] as fractions *)
Definition over (b z : Z) : Z := b ^ Z.max z 0.
Definition under (b z : Z) : Z := b ^ Z.max (- z) 0.

(** The least [k], from the given one on, with n/d < 10^k. *)
Fixpoint decimal_point (fuel : nat) (k n d : Z) : Z :=
  match fuel with
  | O => k
  | S fuel => if n * under 10 k <? d * over 10 k then k else decimal_point fuel (k + 1) n d
  end.

(** A power of ten below 2^l. *)
Definition low_point (l : Z) : Z := if 0 <=? l then l / 4 else l / 3.

Definition reads_back (prec emax : Z) (m : positive) (e c q : Z) : bool :=
  match round_decimal prec emax false c q with
  | S754_finite false m' e' => Pos.eqb m' m && (e' =? e)
  | _ => false
  end.

(** The neighbours of a/b: the one to take, if one reads back. *)
Definition pick (prec emax : Z) (m : positive) (e q a b : Z) : option Z :=
  let c := a / b in
  let nearer := rne a b in
  match reads_back prec emax m e c q, reads_back prec emax m e (c + 1) q with
  | true, true => Some nearer
  | true, false => Some c
  | false, true => Some (c + 1)
  | false, false => None
  end.

Fixpoint shortest_from (fuel : nat) (prec emax : Z) (m : positive) (e q n d : Z) : Z * Z :=
  let a := n * under 10 q in
  let b := d * over 10 q in
  match pick prec emax m e q a b, fuel with
  | Some c, _ => (c, q)
  | None, S fuel => shortest_from fuel prec emax m e (q - 1) n d
  | None, O => (rne a b, q)
  end.

(** Without the zeros at the end. *)
Fixpoint strip (fuel : nat) (c q : Z) : Z * Z :=
  match fuel with
  | O => (c, q)
  | S fuel => if c mod 10 =? 0 then strip fuel (c / 10) (q + 1) else (c, q)
  end.

(** The shortest decimal [c * 10^q] of m * 2^e. *)
Definition shortest (prec emax : Z) (m : positive) (e : Z) : Z * Z :=
  let n := Z.pos m * over 2 e in
  let d := under 2 e in
  let k := decimal_point 64 (low_point (Z.log2 (Z.pos m) + e) + 1) n d in
  let '(c, q) := shortest_from 16 prec emax m e (k - 1) n d in
  strip 17 c q.

(** ** Lemmas *)

Lemma pow10_pos k : 0 <= k -> 0 < 10 ^ k.
Proof. intros. by apply Z.pow_pos_nonneg. Qed.

Lemma over_pos b z : 0 < b -> 0 < over b z.
Proof. intros. unfold over. apply Z.pow_pos_nonneg; lia. Qed.

Lemma under_pos b z : 0 < b -> 0 < under b z.
Proof. intros. unfold under. apply Z.pow_pos_nonneg; lia. Qed.

#[local] Hint Resolve over_pos under_pos pow10_pos pow2_pos : core.

(** Powers multiply. *)
Lemma over_add b z k : 0 < b -> 0 <= k -> over b (z + k) * under b z = over b z * b ^ k * under b (z + k).
Proof.
  intros Hb Hk. unfold over, under. rewrite <- Z.mul_assoc, <- !Z.pow_add_r by lia. f_equal. lia.
Qed.

Lemma rne_interior a b m : 0 < b -> (2 * m - 1) * b < 2 * a < (2 * m + 1) * b -> rne a b = m.
Proof. intros Hb [H1 H2]. destruct (rne_bounds a b Hb) as [Hr _]. nia. Qed.

(** Fractions with the same value are rounded alike. *)
Lemma rnd_ratio n1 d1 n2 d2 : 0 <= n1 -> 0 < d1 -> 0 <= n2 -> 0 < d2 -> n1 * d2 = n2 * d1 -> rnd n1 d1 = rnd n2 d2.
Proof. intros. apply Z.le_antisymm; apply rnd_mono; lia. Qed.

(** What lies within half a unit of a float, or a quarter below a power of
    two, is rounded to it. *)
Lemma rnd_near m K n d : 0 < m < 2 ^ 53 -> 0 <= K -> (0 < K -> 2 ^ 52 <= m) -> 0 < d -> 0 <= n ->
  (2 * m - 1) * (2 ^ K * d) < 2 * n < (2 * m + 1) * (2 ^ K * d) ->
  (m = 2 ^ 52 -> (4 * m - 1) * (2 ^ K * d) < 4 * n) ->
  rnd n d = m * 2 ^ K.
Proof.
  intros Hm HK Hnorm Hd Hn Hi Hq. pose proof (pow2_pos K HK) as HpK.
  assert (n / d < 2 ^ (53 + K)) as Hup.
  { apply Z.div_lt_upper_bound; [lia|]. rewrite Z.pow_add_r by lia. nia. }
  assert (quantum (n / d) <= K) as HQ by (unfold quantum; pose proof (ndig_le (n / d) (53 + K) ltac:(lia) Hup); lia).
  unfold rnd. destruct (Z.eq_dec (quantum (n / d)) K) as [->|Hne].
  { f_equal. apply rne_interior; nia. }
  assert (0 < K) as HK0 by (pose proof (quantum_nonneg (n / d)); lia). specialize (Hnorm HK0).
  assert (n / d < 2 ^ (52 + K)) as Hlow.
  { destruct (Z.lt_ge_cases (n / d) (2 ^ (52 + K))) as [|Hge]; [done|]. exfalso. apply Hne. unfold quantum.
    rewrite (ndig_unique (n / d) (53 + K)); [lia|lia|]. replace (53 + K - 1) with (52 + K) by lia. lia. }
  assert (n < 2 ^ (52 + K) * d) as Hlt.
  { pose proof (Z.div_mod n d ltac:(lia)). pose proof (Z.mod_pos_bound n d Hd). nia. }
  rewrite Z.pow_add_r in Hlt, Hlow by lia.
  assert (m = 2 ^ 52) as Em by nia. specialize (Hq Em).
  assert (2 ^ K = 2 * 2 ^ (K - 1)) as EK by (rewrite <- Z.pow_succ_r by lia; f_equal; lia).
  pose proof (pow2_pos (K - 1) ltac:(lia)) as HpK1.
  assert (quantum (n / d) = K - 1) as ->.
  { unfold quantum. rewrite (ndig_unique (n / d) (52 + K)); [lia|lia|]. split; [|rewrite Z.pow_add_r by lia; lia].
    apply Z.div_le_lower_bound; [lia|]. replace (52 + K - 1) with (52 + (K - 1)) by lia. rewrite Z.pow_add_r by lia. nia. }
  assert (rne n (d * 2 ^ (K - 1)) = 2 ^ 53) as ->.
  { apply rne_interior; [nia|]. split; [nia|]. nia. }
  rewrite Em, EK. change (2 ^ 53) with (2 ^ 52 * 2). lia.
Qed.

(** *** Reading is one rounding *)

Definition scaled (n e : Z) : Z := n * over 10 e * 2 ^ 1074.

Lemma round_decimal_spec s n e : 0 < n ->
  let x := round_decimal fprec femax s n e in
  fval x = sg s (rcap (scaled n e) (under 10 e)) /\ valid x /\ is_nan x = false.
Proof.
  intros Hn x. subst x. unfold round_decimal, scaled, over, under. destruct (Z.eqb_spec n 0); [lia|].
  destruct (Z.leb_spec 0 e) as [He|He].
  - rewrite Z.max_l, (Z.max_r (- e)) by lia. rewrite Z.pow_0_r. pose proof (pow10_pos e He).
    pose proof (normalize_spec (sg s (n * 10 ^ e)) 0 ltac:(lia)) as Hspec. cbn zeta in Hspec.
    assert (forall szero, binary_normalize fprec femax (sg s (n * 10 ^ e)) 0 szero = binary_normalize fprec femax (sg s (n * 10 ^ e)) 0 false) as ->.
    { intros szero. destruct (sg s (n * 10 ^ e)) eqn:E; [|done|done]. destruct s; cbn [sg] in E; nia. }
    destruct Hspec as (E & V). split; [|done]. rewrite E. cbn [Z.add]. clear E V. unfold rndZ.
    pose proof (pow2_pos 1074 ltac:(lia)). destruct s; cbn [sg].
    + rewrite (proj2 (Z.ltb_lt _ _)) by nia. by rewrite Z.mul_opp_l, Z.opp_involutive.
    + rewrite (proj2 (Z.ltb_ge _ _)) by nia. done.
  - rewrite (Z.max_r e), (Z.max_l (- e)) by lia. rewrite Z.pow_0_r, Z.mul_1_r.
    set (d := 10 ^ (- e)). assert (0 < d) as Hd by (subst d; auto with lia).
    change (fprec + 3) with 56. replace (Z.log2 d - Z.log2 n + fprec + 3) with (Z.log2 d - Z.log2 n + 56) by (unfold fprec; lia).
    set (k := Z.max 0 (Z.log2 d - Z.log2 n + 56)). pose proof (pow2_pos k ltac:(lia)) as Hk.
    apply (round_aux_spec s (n * 2 ^ k) d (- k) (n * 2 ^ 1074) d (Z.max 0 (k - 1074)) (Z.max 0 (1074 - k))); try nia; try lia.
    + rewrite <- !Z.mul_assoc, (Z.mul_comm d), (Z.mul_comm d). rewrite !Z.mul_assoc. f_equal.
      rewrite <- !Z.mul_assoc, <- !Z.pow_add_r by lia. do 2 f_equal. lia.
    + assert (56 <= ndig (n * 2 ^ k / d)); [|lia].
      assert (2 ^ 55 <= n * 2 ^ k / d) as Hb.
      { apply Z.div_le_lower_bound; [lia|]. pose proof (Z.log2_spec d Hd) as [_ Hl]. pose proof (Z.log2_spec n Hn) as [Hl' _].
        pose proof (Z.log2_nonneg d). pose proof (Z.log2_nonneg n).
        transitivity (2 ^ (Z.log2 n + k)); [|rewrite Z.pow_add_r by lia; nia].
        transitivity (2 ^ (Z.succ (Z.log2 d) + 55)); [rewrite Z.pow_add_r by lia; nia|]. apply Z.pow_le_mono_r; lia. }
      pose proof (ndig_mono _ _ Hb). by change (ndig (2 ^ 55)) with 56 in *.
Qed.

Lemma fval_inj x y : good x -> good y -> fval x = fval y -> fval x <> 0 -> x = y.
Proof.
  intros Gx Gy E Hne.
  assert (~ key_lt (fkey x) (fkey y) /\ ~ key_lt (fkey y) (fkey x)) as [H1 H2].
  { rewrite !key_lt_fval by done. lia. }
  destruct Gx as [Vx Nx], Gy as [Vy Ny].
  destruct x as [sx|[]| |[] mx ex], y as [sy|[]| |[] my ey]; cbn [fval sg] in *; try done; cbn [fkey key_lt] in *; try lia;
    try (exfalso; revert H1 H2; cbn; lia).
  all: try (pose proof (finite_pos_bounds _ _ _ Vx)); try (pose proof (finite_pos_bounds _ _ _ Vy)); unfold inf_val in *; try lia.
  all: assert (ex = ey) by lia; assert (mx = my) by lia; by subst.
Qed.

(** A decimal whose value is rounded to that of a float is read as it. *)
Lemma round_decimal_to s m e n q :
  valid (S754_finite s m e) -> 0 < n -> rnd (scaled n q) (under 10 q) = Z.pos m * 2 ^ (e + 1074) ->
  round_decimal 53 1024 s n q = S754_finite s m e.
Proof.
  intros V Hn E. destruct (round_decimal_spec s n q Hn) as (Ev & Vx & Nx). change (round_decimal fprec femax) with (round_decimal 53 1024) in *.
  pose proof (finite_pos_bounds _ _ _ V) as Hb.
  assert (fval (round_decimal 53 1024 s n q) = fval (S754_finite s m e)) as Ef.
  { rewrite Ev. unfold rcap. rewrite E, Z.min_l by lia. done. }
  apply fval_inj; [by split|by split|exact Ef|]. rewrite Ef. cbn [fval]. destruct s; cbn [sg]; lia.
Qed.

Lemma round_decimal_rnd s m e n q :
  valid (S754_finite false m e) -> 0 < n -> round_decimal 53 1024 s n q = S754_finite s m e ->
  rnd (scaled n q) (under 10 q) = Z.pos m * 2 ^ (e + 1074).
Proof.
  intros V Hn E. destruct (round_decimal_spec s n q Hn) as (Ev & _). change (round_decimal fprec femax) with (round_decimal 53 1024) in *.
  rewrite E in Ev. pose proof (finite_pos_bounds _ _ _ V) as Hb. cbn [fval] in Ev.
  assert (Z.pos m * 2 ^ (e + 1074) = rcap (scaled n q) (under 10 q)) as Er by (destruct s; cbn [sg] in Ev; lia).
  unfold rcap in Er. lia.
Qed.

Lemma scaled_ratio n q j : 0 <= j -> scaled (n * 10 ^ j) q * under 10 (q + j) = scaled n (q + j) * under 10 q.
Proof.
  intros Hj. unfold scaled. pose proof (over_add 10 q j ltac:(lia) Hj) as E.
  transitivity (n * 2 ^ 1074 * (over 10 q * 10 ^ j * under 10 (q + j))); [ring|]. rewrite <- E. ring.
Qed.

Lemma scaled_nonneg n q : 0 <= n -> 0 <= scaled n q.
Proof. intros. unfold scaled. pose proof (over_pos 10 q ltac:(lia)). pose proof (pow2_pos 1074 ltac:(lia)). nia. Qed.

(** Zeros at the end of the digits do not matter. *)
Lemma rnd_zeros n q j : 0 <= n -> 0 <= j ->
  rnd (scaled (n * 10 ^ j) q) (under 10 q) = rnd (scaled n (q + j)) (under 10 (q + j)).
Proof.
  intros Hn Hj. pose proof (pow10_pos j Hj). apply rnd_ratio; [apply scaled_nonneg; nia|by apply under_pos|by apply scaled_nonneg|by apply under_pos|by apply scaled_ratio].
Qed.

(** *** Writing is read back *)

Lemma reads_back_spec m e c q : reads_back 53 1024 m e c q = true <-> round_decimal 53 1024 false c q = S754_finite false m e.
Proof.
  unfold reads_back. destruct (round_decimal 53 1024 false c q) as [?|?| |[] m' e']; try (split; [done|congruence]).
  rewrite andb_true_iff, Pos.eqb_eq, Z.eqb_eq. split; [by intros [-> ->]|by intros [= -> ->]].
Qed.

Lemma rne_floor a b : 0 < b -> rne a b = a / b \/ rne a b = a / b + 1.
Proof. intros Hb. unfold rne. destruct (_ ?= _); [destruct (Z.even _)| |]; lia. Qed.

Lemma pick_reads m e q a b c : 0 < b -> pick 53 1024 m e q a b = Some c -> reads_back 53 1024 m e c q = true.
Proof.
  intros Hb. unfold pick. destruct (reads_back 53 1024 m e (a / b) q) eqn:E1, (reads_back 53 1024 m e (a / b + 1) q) eqn:E2; intros [= <-]; try done.
  by destruct (rne_floor a b Hb) as [-> | ->].
Qed.

Lemma pick_nonneg m e q a b c : 0 < b -> 0 <= a / b -> pick 53 1024 m e q a b = Some c -> 0 <= c.
Proof.
  intros Hb Hf. unfold pick. pose proof (rne_floor a b Hb).
  destruct (reads_back 53 1024 m e (a / b) q), (reads_back 53 1024 m e (a / b + 1) q); intros [= <-]; lia.
Qed.

Lemma decimal_point_low fuel k n d : 0 < n -> 0 < d -> d * over 10 (k - 1) <= n * under 10 (k - 1) ->
  let k' := decimal_point fuel k n d in d * over 10 (k' - 1) <= n * under 10 (k' - 1).
Proof.
  intros Hn Hd. revert k. induction fuel as [|fuel IH]; intros k Hk; cbn [decimal_point]; [done|].
  destruct (Z.ltb_spec (n * under 10 k) (d * over 10 k)); [done|]. apply IH. by replace (k + 1 - 1) with k by lia.
Qed.

Lemma low_point_low l : over 10 (low_point l) * under 2 l <= over 2 l * under 10 (low_point l).
Proof.
  unfold low_point, over, under. destruct (Z.leb_spec 0 l) as [Hl|Hl].
  - pose proof (Z.div_pos l 4 Hl ltac:(lia)). rewrite (Z.max_l l), (Z.max_r (- l)), (Z.max_l (l / 4)), (Z.max_r (- (l / 4))) by lia.
    rewrite !Z.pow_0_r, !Z.mul_1_r. transitivity (16 ^ (l / 4)); [apply Z.pow_le_mono_l; lia|].
    change 16 with (2 ^ 4). rewrite <- Z.pow_mul_r by lia. apply Z.pow_le_mono_r; [lia|]. apply Z.mul_div_le. lia.
  - assert (l / 3 < 0) by (apply Z.div_lt_upper_bound; lia).
    rewrite (Z.max_r l), (Z.max_l (- l)), (Z.max_r (l / 3)), (Z.max_l (- (l / 3))) by lia.
    rewrite !Z.pow_0_r, !Z.mul_1_l. transitivity (8 ^ (- (l / 3))); [|apply Z.pow_le_mono_l; lia].
    change 8 with (2 ^ 3). rewrite <- Z.pow_mul_r by lia. apply Z.pow_le_mono_r; [lia|].
    pose proof (Z.mul_div_le l 3 ltac:(lia)). lia.
Qed.

(** The value of m * 2^e as a fraction. *)
Lemma fraction_value m e : -1074 <= e -> Z.pos m * over 2 e * 2 ^ 1074 = Z.pos m * 2 ^ (e + 1074) * under 2 e.
Proof.
  intros He. unfold over, under. rewrite <- !Z.mul_assoc, <- !Z.pow_add_r by lia. do 2 f_equal. lia.
Qed.

(** The nearest decimal with seventeen digits. *)
Lemma near_reads m e q : valid (S754_finite false m e) ->
  let a := Z.pos m * over 2 e * under 10 q in
  let b := under 2 e * over 10 q in
  b * 10 ^ 16 <= a -> reads_back 53 1024 m e (rne a b) q = true.
Proof.
  intros V a b Hab. destruct (valid_finite_bounds _ _ _ V) as (Hm & He & Hnorm).
  pose proof (under_pos 2 e ltac:(lia)) as Hd. pose proof (over_pos 10 q ltac:(lia)) as Ho. pose proof (under_pos 10 q ltac:(lia)) as Hu.
  assert (0 < b) as Hb by (subst b; nia). set (c := rne a b). destruct (rne_bounds a b Hb) as [Hr _]. fold c in Hr.
  change (10 ^ 16) with 10000000000000000 in Hab. change (2 ^ 53) with 9007199254740992 in *. change (2 ^ 52) with 4503599627370496 in *.
  assert (0 < c) as Hc by nia.
  apply reads_back_spec, round_decimal_to; [done|done|].
  pose proof (fraction_value m e ltac:(lia)) as Ev. set (K := e + 1074) in *. pose proof (pow2_pos K ltac:(lia)) as HK. pose proof (pow2_pos 1074 ltac:(lia)) as Hp.
  (* everything over the denominator of the float *)
  set (T := 2 ^ K * under 2 e * under 10 q). assert (0 < T) as HT by (subst T; nia).
  assert (a * 2 ^ 1074 = Z.pos m * T) as Ea.
  { subst a T. transitivity (Z.pos m * over 2 e * 2 ^ 1074 * under 10 q); [ring|]. rewrite Ev. ring. }
  assert (b * 2 ^ 1074 * 10000000000000000 <= Z.pos m * T) as Hsmall by (rewrite <- Ea; nia).
  assert (scaled c q * under 2 e = c * b * 2 ^ 1074) as Es by (subst b; unfold scaled; ring).
  set (B := b * 2 ^ 1074) in *. assert (2 * (c * B) <= 2 * (Z.pos m * T) + B /\ 2 * (Z.pos m * T) - B <= 2 * (c * B)) as [H1 H2].
  { subst B. rewrite <- Ea. split; nia. }
  apply rnd_near; [lia|lia| | | |split|].
  - intros. apply Hnorm. lia.
  - done.
  - apply scaled_nonneg. lia.
  - apply (Zmult_lt_reg_r _ _ (under 2 e)); [done|].
    replace (2 * scaled c q * under 2 e) with (2 * (c * B)) by (subst B; lia).
    replace ((2 * Z.pos m - 1) * (2 ^ K * under 10 q) * under 2 e) with ((2 * Z.pos m - 1) * T) by (subst T; ring). nia.
  - apply (Zmult_lt_reg_r _ _ (under 2 e)); [done|].
    replace (2 * scaled c q * under 2 e) with (2 * (c * B)) by (subst B; lia).
    replace ((2 * Z.pos m + 1) * (2 ^ K * under 10 q) * under 2 e) with ((2 * Z.pos m + 1) * T) by (subst T; ring). nia.
  - intros Em. apply (Zmult_lt_reg_r _ _ (under 2 e)); [done|].
    replace (4 * scaled c q * under 2 e) with (4 * (c * B)) by (subst B; lia).
    replace ((4 * Z.pos m - 1) * (2 ^ K * under 10 q) * under 2 e) with ((4 * Z.pos m - 1) * T) by (subst T; ring).
    rewrite Em in *. change (2 ^ 52) with 4503599627370496 in *. nia.
Qed.

Lemma shortest_from_reads fuel m e q : valid (S754_finite false m e) ->
  under 2 e * over 10 (q - Z.of_nat fuel + 16) <= Z.pos m * over 2 e * under 10 (q - Z.of_nat fuel + 16) ->
  let '(c, q') := shortest_from fuel 53 1024 m e q (Z.pos m * over 2 e) (under 2 e) in
  0 < c /\ round_decimal 53 1024 false c q' = S754_finite false m e.
Proof.
  intros V. pose proof (over_pos 2 e ltac:(lia)) as Hn. pose proof (under_pos 2 e ltac:(lia)) as Hd.
  assert (forall q c, 0 <= c -> reads_back 53 1024 m e c q = true -> 0 < c /\ round_decimal 53 1024 false c q = S754_finite false m e) as Hok.
  { intros q' c Hc E. apply reads_back_spec in E. split; [|done]. destruct (Z.eq_dec c 0) as [->|]; [|lia]. by cbn in E. }
  revert q. induction fuel as [|fuel IH]; intros q Hq; cbn [shortest_from];
    set (a := Z.pos m * over 2 e * under 10 q); set (b := under 2 e * over 10 q);
    pose proof (over_pos 10 q ltac:(lia)) as Ho; pose proof (under_pos 10 q ltac:(lia)) as Hu;
    assert (0 < b) as Hb by (subst b; nia); assert (0 <= a / b) as Hfl by (apply Z.div_pos; [subst a; nia|done]);
    destruct (pick 53 1024 m e q a b) as [c|] eqn:Ep;
    try (apply Hok; [by eapply pick_nonneg|by eapply pick_reads]).
  - apply Hok; [destruct (rne_floor a b Hb); lia|]. apply near_reads; [done|]. cbn [Z.of_nat] in Hq. rewrite Z.sub_0_r in Hq.
    pose proof (over_add 10 q 16 ltac:(lia) ltac:(lia)) as E. pose proof (under_pos 10 (q + 16) ltac:(lia)) as H16.
    apply (Zmult_le_reg_r _ _ (under 10 (q + 16))); [lia|].
    replace (under 2 e * over 10 q * 10 ^ 16 * under 10 (q + 16)) with (under 2 e * (over 10 q * 10 ^ 16 * under 10 (q + 16))) by ring.
    rewrite <- E. nia.
  - apply IH. replace (q - 1 - Z.of_nat fuel + 16) with (q - Z.of_nat (S fuel) + 16) by lia. done.
Qed.

Lemma strip_reads fuel s m e c q : valid (S754_finite s m e) -> 0 < c -> round_decimal 53 1024 s c q = S754_finite s m e ->
  let '(c', q') := strip fuel c q in 0 < c' /\ round_decimal 53 1024 s c' q' = S754_finite s m e.
Proof.
  intros V. assert (valid (S754_finite false m e)) as V' by done. revert c q. induction fuel as [|fuel IH]; intros c q Hc E; cbn [strip]; [done|].
  destruct (Z.eqb_spec (c mod 10) 0) as [Hm|]; [|done].
  assert (c = c / 10 * 10 ^ 1) as Ec by (pose proof (Z.div_mod c 10 ltac:(lia)); lia).
  assert (0 < c / 10) as Hc' by lia. apply IH; [done|]. apply round_decimal_to; [done|done|].
  rewrite <- (rnd_zeros (c / 10) q 1) by lia. rewrite <- Ec. by eapply round_decimal_rnd.
Qed.

(** The sign goes along. *)
Lemma round_decimal_sign s m e c q : valid (S754_finite false m e) -> 0 < c ->
  round_decimal 53 1024 false c q = S754_finite false m e -> round_decimal 53 1024 s c q = S754_finite s m e.
Proof. intros V Hc E. apply round_decimal_to; [done|done|]. by eapply round_decimal_rnd. Qed.

(** ** The shortest decimal is read back *)
Theorem shortest_reads s m e : valid (S754_finite s m e) ->
  let '(c, q) := shortest 53 1024 m e in 0 < c /\ round_decimal 53 1024 s c q = S754_finite s m e.
Proof.
  intros V. assert (valid (S754_finite false m e)) as V' by done. unfold shortest.
  set (l := Z.log2 (Z.pos m) + e). set (k := decimal_point _ _ _ _).
  pose proof (over_pos 2 e ltac:(lia)) as Hn. pose proof (under_pos 2 e ltac:(lia)) as Hd.
  assert (under 2 e * over 10 (k - 1) <= Z.pos m * over 2 e * under 10 (k - 1)) as Hk.
  { apply decimal_point_low; [nia|done|]. replace (low_point l + 1 - 1) with (low_point l) by lia.
    pose proof (low_point_low l) as Hl. pose proof (under_pos 10 (low_point l) ltac:(lia)) as Hu. pose proof (under_pos 2 l ltac:(lia)) as Hul.
    assert (over 2 l * under 2 e <= Z.pos m * over 2 e * under 2 l) as Hval.
    { destruct (Z.log2_spec (Z.pos m) ltac:(lia)) as [Hlog _]. pose proof (over_add 2 e (Z.log2 (Z.pos m)) ltac:(lia) (Z.log2_nonneg _)) as E.
      replace (e + Z.log2 (Z.pos m)) with l in E by lia. rewrite E.
      rewrite (Z.mul_comm (over 2 e)). apply Z.mul_le_mono_nonneg_r; [lia|]. apply Z.mul_le_mono_nonneg_r; lia. }
    apply (Zmult_le_reg_r _ _ (under 2 l)); [lia|].
    transitivity (over 2 l * under 10 (low_point l) * under 2 e); [|nia].
    transitivity (over 10 (low_point l) * under 2 l * under 2 e); [lia|]. apply Z.mul_le_mono_nonneg_r; lia. }
  clearbody k. pose proof (shortest_from_reads 16 m e (k - 1) V') as H. replace (k - 1 - Z.of_nat 16 + 16) with (k - 1) in H by lia.
  specialize (H Hk). destruct (shortest_from _ _ _ _ _ _ _ _) as [c q]. destruct H as [Hc Er].
  pose proof (strip_reads 17 s m e c q V Hc (round_decimal_sign s m e c q V' Hc Er)) as Hst. by destruct (strip 17 c q).
Qed.

(** *** Sizes *)

Lemma decimal_point_range fuel k n d : k <= decimal_point fuel k n d <= k + Z.of_nat fuel.
Proof.
  revert k. induction fuel as [|fuel IH]; intros k; cbn [decimal_point]; [lia|].
  case_ifs; [lia|]. specialize (IH (k + 1)). lia.
Qed.

Lemma shortest_from_range fuel prec emax m e q n d : 0 <= n -> 0 < d ->
  let '(c, q') := shortest_from fuel prec emax m e q n d in q - Z.of_nat fuel <= q' <= q /\ 0 <= c <= n * under 10 q' + 1.
Proof.
  intros Hn Hd. revert q. induction fuel as [|fuel IH]; intros q; cbn [shortest_from];
    set (a := n * under 10 q); set (b := d * over 10 q);
    pose proof (over_pos 10 q ltac:(lia)) as Ho; pose proof (under_pos 10 q ltac:(lia)) as Hu;
    assert (0 < b) as Hb by (subst b; nia);
    assert (0 <= a / b <= a) as Hab by (split; [apply Z.div_pos|apply Z.div_le_upper_bound]; subst a; nia); pose proof (rne_floor a b Hb) as Hr;
    assert (forall c, pick prec emax m e q a b = Some c -> 0 <= c <= a + 1) as Hp
      by (intros c; unfold pick; destruct (reads_back prec emax m e (a / b) q), (reads_back prec emax m e (a / b + 1) q); intros [= <-]; lia);
    destruct (pick prec emax m e q a b) as [c|] eqn:Ep; try (split; [lia|]; by apply Hp).
  - split; [lia|]. fold a. lia.
  - specialize (IH (q - 1)). destruct (shortest_from _ _ _ _ _ _ _ _) as [c q']. split; [lia|tauto].
Qed.

Lemma strip_range fuel c q : 0 <= c -> let '(c', q') := strip fuel c q in c' <= c /\ q <= q' <= q + Z.of_nat fuel.
Proof.
  revert c q. induction fuel as [|fuel IH]; intros c q Hc; cbn [strip]; [lia|]. case_ifs; [|lia].
  specialize (IH (c / 10) (q + 1) ltac:(apply Z.div_pos; lia)). destruct (strip _ _ _) as [c' q'].
  pose proof (Z.div_le_upper_bound c 10 c ltac:(lia) ltac:(lia)). lia.
Qed.

(** Crude bounds on the shortest decimal. *)
Lemma shortest_range s m e : valid (S754_finite s m e) ->
  let '(c, q) := shortest 53 1024 m e in -600 <= q <= 600 /\ c < 10 ^ 1000.
Proof.
  intros V. destruct (valid_finite_bounds _ _ _ V) as (Hm & He & _). unfold shortest.
  set (l := Z.log2 (Z.pos m) + e). set (n := Z.pos m * over 2 e). set (k := decimal_point _ _ _ _).
  assert (-1074 <= l <= 1024) as Hl.
  { pose proof (Z.log2_nonneg (Z.pos m)). assert (Z.log2 (Z.pos m) < 53) by (apply Z.log2_lt_pow2; lia). lia. }
  assert (-358 <= low_point l <= 256) as Hlow.
  { unfold low_point. case_ifs; zbool; split; first [apply Z.div_le_lower_bound; lia|apply Z.div_le_upper_bound; lia]. }
  pose proof (decimal_point_range 64 (low_point l + 1) n (under 2 e)) as Hk. fold k in Hk. clearbody k.
  pose proof (over_pos 2 e ltac:(lia)) as Ho. pose proof (under_pos 2 e ltac:(lia)) as Hu.
  assert (n <= 2 ^ 1024) as Hn.
  { subst n. unfold over. assert (2 ^ Z.max e 0 <= 2 ^ 971) by (apply Z.pow_le_mono_r; lia).
    change (2 ^ 1024) with (2 ^ 53 * 2 ^ 971). apply Z.mul_le_mono_nonneg; lia. }
  pose proof (shortest_from_range 16 53 1024 m e (k - 1) n (under 2 e) ltac:(subst n; nia) Hu) as Hf.
  destruct (shortest_from _ _ _ _ _ _ _ _) as [c q]. destruct Hf as [Hq Hc].
  pose proof (strip_range 17 c q ltac:(lia)) as Hst. destruct (strip 17 c q) as [c' q']. split; [lia|].
  assert (under 10 q <= 10 ^ 600) by (unfold under; apply Z.pow_le_mono_r; lia). pose proof (under_pos 10 q ltac:(lia)).
  assert (n * under 10 q <= 2 ^ 1024 * 10 ^ 600) by (apply Z.mul_le_mono_nonneg; subst n; nia).
  assert (2 ^ 1024 * 10 ^ 600 + 1 < 10 ^ 1000) by reflexivity. lia.
Qed.

Example shortest_tenth : shortest 53 1024 7205759403792794 (-56) = (1, -1).
Proof. vm_compute. reflexivity. Qed.

(** 10^23 is not a float; the float it is read as is written like it. *)
Example shortest_1e23 : round_decimal 53 1024 false 1 23 = S754_finite false 5960464477539062 24 /\
  shortest 53 1024 5960464477539062 24 = (1, 23).
Proof. vm_compute. by split. Qed.
