(* ===== verification/GoStrings.v ===== *)
(** * Go strings and sort.Slice

    A Go [string] is a sequence of bytes, here [string]; comparison is
    bytewise and indices count bytes.  The file defines the operations of
    package strings the program uses, and [sort.Slice] as insertion sort with
    the lemmas that make its result independent of the algorithm. *)

From Stdlib Require Import Ascii.
From S2P Require Import Prelude.


Arguments String.append !_ _ : simpl nomatch.

(** ** Order *)

Abbreviation str_ltb := String.ltb (only parsing).

Lemma ascii_compare_refl a : Ascii.compare a a = Eq.
Proof. unfold Ascii.compare. apply N.compare_refl. Qed.

Lemma ascii_compare_trans a b c :
  Ascii.compare a b = Lt -> Ascii.compare b c = Lt -> Ascii.compare a c = Lt.
Proof. unfold Ascii.compare. rewrite !N.compare_lt_iff. apply N.lt_trans. Qed.

Lemma str_compare_refl s : String.compare s s = Eq.
Proof. induction s; [done|]. cbn [String.compare]. by rewrite ascii_compare_refl. Qed.

Lemma str_compare_trans s1 s2 s3 :
  String.compare s1 s2 = Lt -> String.compare s2 s3 = Lt -> String.compare s1 s3 = Lt.
Proof.
  revert s2 s3. induction s1 as [|a s1 IH]; intros [|b s2] [|c s3]; cbn [String.compare]; try done.
  destruct (Ascii.compare a b) eqn:E1; try done; destruct (Ascii.compare b c) eqn:E2; try done;
    repeat match goal with H : Ascii.compare _ _ = Eq |- _ => apply Ascii.compare_eq_iff in H end;
    subst; rewrite ?ascii_compare_refl, ?E1, ?E2; try done; [by apply IH|].
  by rewrite (ascii_compare_trans a b c).
Qed.

Lemma str_ltb_lt s1 s2 : str_ltb s1 s2 = true <-> String.compare s1 s2 = Lt.
Proof. unfold String.ltb. by destruct (String.compare s1 s2). Qed.

Lemma str_ltb_irrefl s : str_ltb s s = false.
Proof. unfold String.ltb. by rewrite str_compare_refl. Qed.

Lemma str_ltb_trans s1 s2 s3 :
  str_ltb s1 s2 = true -> str_ltb s2 s3 = true -> str_ltb s1 s3 = true.
Proof. rewrite !str_ltb_lt. apply str_compare_trans. Qed.

Lemma str_ltb_total s1 s2 : s1 <> s2 -> str_ltb s1 s2 = true \/ str_ltb s2 s1 = true.
Proof.
  intros H. rewrite !str_ltb_lt, (String.compare_antisym s2 s1).
  destruct (String.compare s1 s2) eqn:E; cbn; [|by left|by right].
  by apply String.compare_eq_iff in E.
Qed.

(** ** Slicing and searching *)

Definition str_len (s : string) : Z := Z.of_nat (String.length s).

(** [s[:n]] and [s[n:]], for [n] within the string. *)
Fixpoint str_take (n : nat) (s : string) : string :=
  match n, s with
  | S n', String a s' => String a (str_take n' s')
  | _, _ => ""
  end.

Fixpoint str_drop (n : nat) (s : string) : string :=
  match n, s with
  | S n', String _ s' => str_drop n' s'
  | _, _ => s
  end.

Fixpoint HasPrefix (s prefix : string) : bool :=
  match prefix, s with
  | "", _ => true
  | String a p', String b s' => Ascii.eqb a b && HasPrefix s' p'
  | _, "" => false
  end.

Definition HasSuffix (s suffix : string) : bool :=
  (String.length suffix <=? String.length s)%nat &&
  String.eqb (str_drop (String.length s - String.length suffix) s) suffix.

Definition TrimPrefix (s prefix : string) : string :=
  if HasPrefix s prefix then str_drop (String.length prefix) s else s.

(** [strings.Index], as the position or [None] for -1. *)
Fixpoint Index (s sub : string) : option nat :=
  if HasPrefix s sub then Some O
  else match s with
       | "" => None
       | String _ s' => option_map S (Index s' sub)
       end.

Definition Contains (s sub : string) : bool :=
  match Index s sub with Some _ => true | None => false end.

Definition IndexByte (s : string) (c : ascii) : option nat := Index s (String c "").

(** [strings.TrimRight s (String c "")]: the trailing occurrences of [c]. *)
Fixpoint TrimRight (s : string) (c : ascii) : string :=
  match s with
  | "" => ""
  | String a s' =>
      match TrimRight s' c with
      | "" => if Ascii.eqb a c then "" else String a ""
      | t => String a t
      end
  end.

Fixpoint concat_str (l : list string) : string :=
  match l with [] => "" | s :: rest => s ++ concat_str rest end.

Fixpoint str_forall (f : ascii -> bool) (s : string) : bool :=
  match s with "" => true | String a s' => f a && str_forall f s' end.

Fixpoint str_map (f : ascii -> ascii) (s : string) : string :=
  match s with "" => "" | String a s' => String (f a) (str_map f s') end.

(** ** Case mapping and white space

    [ToLower], [ToUpper] and [TrimSpace] treat ASCII strings bytewise; strings
    with other bytes go through the Unicode tables, a parameter. *)

Class UnicodeTables := {
  unicode_lower : string -> string;
  unicode_upper : string -> string;
  unicode_trim : string -> string
}.

Definition is_ascii (a : ascii) : bool := N.ltb (N_of_ascii a) 128.

Definition lower_byte (a : ascii) : ascii :=
  let n := N_of_ascii a in
  if (N.leb 65 n && N.leb n 90)%bool then ascii_of_N (n + 32) else a.

Definition upper_byte (a : ascii) : ascii :=
  let n := N_of_ascii a in
  if (N.leb 97 n && N.leb n 122)%bool then ascii_of_N (n - 32) else a.

Definition ToLower `{UnicodeTables} (s : string) : string :=
  if str_forall is_ascii s then str_map lower_byte s else unicode_lower s.

Definition ToUpper `{UnicodeTables} (s : string) : string :=
  if str_forall is_ascii s then str_map upper_byte s else unicode_upper s.

Definition is_space (a : ascii) : bool :=
  let n := N_of_ascii a in (N.leb 9 n && N.leb n 13) || N.eqb n 32.

Fixpoint trim_left (s : string) : string :=
  match s with
  | "" => ""
  | String a s' => if is_space a then trim_left s' else s
  end.

Fixpoint trim_right (s : string) : string :=
  match s with
  | "" => ""
  | String a s' =>
      match trim_right s' with
      | "" => if is_space a then "" else String a ""
      | t => String a t
      end
  end.

Definition TrimSpace `{UnicodeTables} (s : string) : string :=
  if str_forall is_ascii s then trim_right (trim_left s) else unicode_trim s.

(** The tables of a program whose strings are all ASCII. *)
Definition ascii_tables : UnicodeTables :=
  {| unicode_lower s := s; unicode_upper s := s; unicode_trim s := s |}.

(** ** Lemmas on strings *)

Lemma str_app_assoc s1 s2 s3 : (s1 ++ s2) ++ s3 = s1 ++ (s2 ++ s3).
Proof. induction s1; cbn [String.append String.length]; [done|]. by rewrite IHs1. Qed.

Lemma str_app_nil_r s : s ++ "" = s.
Proof. induction s; cbn [String.append]; [done|]. by rewrite IHs. Qed.

Lemma concat_str_app l l' : concat_str (l ++ l')%list = concat_str l ++ concat_str l'.
Proof. induction l as [|x l IH]; [done|]. cbn. by rewrite IH, str_app_assoc. Qed.

Lemma str_length_app s1 s2 : String.length (s1 ++ s2) = (String.length s1 + String.length s2)%nat.
Proof. induction s1; cbn [String.append String.length]; [done|]. by rewrite IHs1. Qed.

Lemma str_forall_app f s t : str_forall f (s ++ t) = str_forall f s && str_forall f t.
Proof. induction s as [|a s IH]; [done|]. cbn. by rewrite IH, andb_assoc. Qed.

Lemma str_forall_impl (f g : ascii -> bool) s :
  (forall a, f a = true -> g a = true) -> str_forall f s = true -> str_forall g s = true.
Proof.
  intros Hfg. induction s as [|a s IH]; [done|]. cbn. rewrite !andb_true_iff. intros [? ?]. auto.
Qed.

Lemma str_take_drop n s : str_take n s ++ str_drop n s = s.
Proof. revert s. induction n; intros [|a s]; cbn [str_take str_drop String.append]; try done. by rewrite IHn. Qed.

Lemma str_take_app s1 s2 : str_take (String.length s1) (s1 ++ s2) = s1.
Proof. induction s1; cbn [String.append String.length str_take]; [by destruct s2|]. by rewrite IHs1. Qed.

Lemma str_take_app_le n s1 s2 : (n <= String.length s1)%nat -> str_take n (s1 ++ s2) = str_take n s1.
Proof.
  revert s1. induction n; intros s1 H; [done|]. destruct s1 as [|a s1]; cbn in *; [lia|].
  rewrite IHn by lia. done.
Qed.

Lemma str_drop_app s1 s2 : str_drop (String.length s1) (s1 ++ s2) = s2.
Proof. induction s1; cbn; [by destruct s2|done]. Qed.

Lemma str_take_length n s : (n <= String.length s)%nat -> String.length (str_take n s) = n.
Proof. revert s. induction n; intros [|a s] H; cbn in *; try lia. rewrite IHn; lia. Qed.

Lemma HasPrefix_spec s p : HasPrefix s p = true <-> exists t, s = p ++ t.
Proof.
  revert s. induction p as [|a p IH]; intros s; cbn [HasPrefix].
  - split; [intros _; by exists s|by destruct s].
  - destruct s as [|b s]; [split; [done|by intros [t ?]]|].
    cbn [HasPrefix]. rewrite andb_true_iff, Ascii.eqb_eq, IH. split.
    + intros [-> [t ->]]. by exists t.
    + intros [t Ht]. injection Ht as -> ->. split; [done|by exists t].
Qed.

Lemma HasPrefix_app p t : HasPrefix (p ++ t) p = true.
Proof. apply HasPrefix_spec. by exists t. Qed.

Lemma TrimPrefix_app p t : TrimPrefix (p ++ t) p = t.
Proof. unfold TrimPrefix. by rewrite HasPrefix_app, str_drop_app. Qed.

(** No occurrence of a byte. *)
Definition no_byte (c : ascii) (s : string) : Prop := str_forall (fun a => negb (Ascii.eqb a c)) s = true.

#[export] Instance no_byte_dec c s : Decision (no_byte c s).
Proof. unfold no_byte. apply _. Defined.

Lemma no_byte_cons c a s : no_byte c (String a s) <-> a <> c /\ no_byte c s.
Proof.
  unfold no_byte. cbn. rewrite andb_true_iff, negb_true_iff, Ascii.eqb_neq. done.
Qed.

Lemma HasPrefix_byte a s c : HasPrefix (String a s) (String c "") = Ascii.eqb c a.
Proof. cbn. destruct s; cbn; by rewrite andb_true_r. Qed.

Lemma IndexByte_app s c t : no_byte c s -> IndexByte (s ++ String c t) c = Some (String.length s).
Proof.
  unfold IndexByte. induction s as [|a s IH]; intros H.
  - cbn [String.append]. destruct t; cbn; by rewrite Ascii.eqb_refl.
  - apply no_byte_cons in H as [Ha Hs]. cbn [String.append Index].
    rewrite HasPrefix_byte. destruct (Ascii.eqb_spec c a) as [->|_]; [done|].
    by rewrite (IH Hs).
Qed.

Lemma IndexByte_None s c : no_byte c s -> IndexByte s c = None.
Proof.
  unfold IndexByte. induction s as [|a s IH]; intros H; [done|].
  apply no_byte_cons in H as [Ha Hs]. cbn [Index]. rewrite HasPrefix_byte.
  destruct (Ascii.eqb_spec c a) as [->|_]; [done|]. by rewrite (IH Hs).
Qed.

Lemma IndexByte_Some s c n :
  IndexByte s c = Some n ->
  no_byte c (str_take n s) /\ s = str_take n s ++ String c (str_drop (S n) s).
Proof.
  unfold IndexByte. revert n. induction s as [|a s IH]; intros n; [done|].
  cbn [Index]. rewrite HasPrefix_byte. destruct (Ascii.eqb_spec c a) as [->|Hne].
  - intros [= <-]. split; [done|]. cbn. by destruct s.
  - destruct (Index s (String c "")) as [k|]; [|done]. cbn. intros [= <-].
    destruct (IH k eq_refl) as [Hn Hs]. split; [by apply no_byte_cons|].
    rewrite Hs at 1. done.
Qed.

Lemma IndexByte_None_inv s c : IndexByte s c = None -> no_byte c s.
Proof.
  unfold IndexByte. induction s as [|a s IH]; [done|]. cbn [Index]. rewrite HasPrefix_byte.
  destruct (Ascii.eqb_spec c a) as [->|Hne]; [done|].
  destruct (Index s (String c "")) as [k|]; [done|]. intros _.
  apply no_byte_cons. split; [congruence|by apply IH].
Qed.

(** Splitting at the first occurrence of a byte is unique. *)
Lemma split_at_byte c s1 t1 s2 t2 :
  no_byte c s1 -> no_byte c s2 -> s1 ++ String c t1 = s2 ++ String c t2 -> s1 = s2 /\ t1 = t2.
Proof.
  intros H1 H2 E. pose proof (IndexByte_app s1 c t1 H1) as I1. rewrite E in I1.
  rewrite (IndexByte_app s2 c t2 H2) in I1. injection I1 as Hl.
  pose proof (str_take_app s1 (String c t1)) as T1. rewrite E, <- Hl, str_take_app in T1. subst.
  pose proof (str_drop_app s1 (String c t1)) as D1. rewrite E, str_drop_app in D1.
  by injection D1.
Qed.
