(* ===== verification/GoFormat.v ===== *)
(** * Printing and rewriting of strings

    [strconv.Itoa] and the verb %d, [strings.ReplaceAll] on single bytes, and
    what the identifiers the program builds rely on: a printed number
    determines the number, contains no separator, and can be split off the end
    of a string. *)

From Stdlib Require Import Ascii.
From stdpp Require Import pretty.
From S2P Require Import Prelude GoStrings.

(** [strconv.Itoa(n)] and [fmt.Sprintf("%d", n)] *)
Definition Itoa (n : Z) : string := pretty n.

(** [strings.ReplaceAll(s, old, new)] for one-byte [old] and [new] *)
Definition ReplaceAll (s : string) (old new : ascii) : string :=
  str_map (fun a => if Ascii.eqb a old then new else a) s.

(** ** Lemmas *)

Lemma Itoa_inj n m : Itoa n = Itoa m -> n = m.
Proof. apply pretty_Z_inj. Qed.

Lemma pretty_digit_not_minus x : pretty_N_char x <> "-"%char.
Proof.
  unfold pretty_N_char. repeat case_match; discriminate.
Qed.

Lemma pretty_go_no_minus x s : no_byte "-" s -> no_byte "-" (pretty_N_go x s).
Proof.
  revert s. induction (N.lt_wf_0 x) as [x _ IH]; intros s Hs.
  destruct (decide (x = 0%N)) as [->|Hx]; [by rewrite pretty_N_go_0|].
  rewrite pretty_N_go_step by lia. apply IH; [apply N.div_lt; lia|].
  apply no_byte_cons. split; [apply pretty_digit_not_minus|done].
Qed.

Lemma Itoa_no_minus n : 0 <= n -> no_byte "-" (Itoa n).
Proof.
  intros Hn. unfold Itoa. destruct n as [|p|p]; [reflexivity| |lia].
  change (pretty (Z.pos p)) with (pretty (N.pos p)). unfold pretty, pretty_N.
  case_decide; [done|]. by apply pretty_go_no_minus.
Qed.

Lemma no_byte_app c s t : no_byte c (s ++ t) <-> no_byte c s /\ no_byte c t.
Proof.
  induction s as [|a s IH]; cbn [String.append].
  - split; [intros H; split; [reflexivity|exact H]|by intros [_ ?]].
  - rewrite !no_byte_cons, IH. tauto.
Qed.

(** Splitting at the last occurrence of a byte is unique. *)
Lemma split_at_last_byte c s1 t1 s2 t2 :
  no_byte c t1 -> no_byte c t2 -> s1 ++ String c t1 = s2 ++ String c t2 -> s1 = s2 /\ t1 = t2.
Proof.
  intros H1 H2. revert s2. induction s1 as [|a s1 IH]; intros [|b s2]; cbn [String.append].
  - by intros [= ->].
  - intros [= <- E]. subst t1. apply no_byte_app in H1 as [_ [? _]%no_byte_cons]. done.
  - intros [= -> E]. subst t2. apply no_byte_app in H2 as [_ [? _]%no_byte_cons]. done.
  - intros [= -> E]. destruct (IH s2 E) as [-> ->]. done.
Qed.

Lemma HasPrefix_false_app p q t : HasPrefix p q = false -> (String.length q <= String.length p)%nat ->
  HasPrefix (p ++ t) q = false.
Proof.
  revert p. induction q as [|a q IH]; intros p H Hl; [by destruct p|].
  destruct p as [|b p]; cbn in *; [lia|]. destruct (Ascii.eqb a b); [|done]. cbn in *. apply IH; [done|lia].
Qed.

Lemma ReplaceAll_no_byte s c d : c <> d -> no_byte c (ReplaceAll s c d).
Proof.
  intros Hne. induction s as [|a s IH]; [reflexivity|]. cbn [ReplaceAll str_map].
  apply no_byte_cons. split; [|exact IH]. destruct (Ascii.eqb_spec a c); congruence.
Qed.

Lemma ReplaceAll_keeps s c d e : e <> d -> no_byte e s -> no_byte e (ReplaceAll s c d).
Proof.
  intros Hne. induction s as [|a s IH]; [done|]. intros [Ha Hs]%no_byte_cons. cbn [ReplaceAll str_map].
  apply no_byte_cons. split; [|by apply IH]. destruct (Ascii.eqb_spec a c); congruence.
Qed.

Lemma ReplaceAll_length s c d : String.length (ReplaceAll s c d) = String.length s.
Proof. induction s as [|a s IH]; [done|]. cbn. by rewrite <- IH. Qed.

Lemma str_take_no_byte n c s : no_byte c s -> no_byte c (str_take n s).
Proof.
  revert s. induction n; intros [|a s]; try done. intros [? ?]%no_byte_cons. cbn [str_take].
  apply no_byte_cons. split; [done|by apply IHn].
Qed.

Lemma str_app_inv_r s1 s2 t : s1 ++ t = s2 ++ t -> s1 = s2.
Proof.
  revert s2. induction s1 as [|a s1 IH]; intros [|b s2] E; [done| | |].
  - apply (f_equal String.length) in E. cbn in E. rewrite str_length_app in E. lia.
  - apply (f_equal String.length) in E. cbn in E. rewrite str_length_app in E. lia.
  - cbn [String.append] in E. injection E as -> E. by rewrite (IH s2 E).
Qed.

(** ** An encoding of everything countable

    A positive as a string of digits, and back: the codec of the examples. *)
Fixpoint pos_string (p : positive) : string :=
  match p with xH => "1" | xO p => String "0" (pos_string p) | xI p => String "2" (pos_string p) end.

Fixpoint string_pos (s : string) : option positive :=
  match s with
  | "" => None
  | String a s' =>
      if Ascii.eqb a "1" then Some xH
      else if Ascii.eqb a "0" then option_map xO (string_pos s')
      else option_map xI (string_pos s')
  end.

Lemma string_pos_string p : string_pos (pos_string p) = Some p.
Proof. induction p as [p IH|p IH|]; cbn; [by rewrite IH|by rewrite IH|done]. Qed.
