(* ===== verification/Json.v ===== *)
(** * JSON as package encoding/json writes and reads it

    A Go string is a sequence of bytes that is UTF-8 by convention only: the
    encoder escapes what JSON and HTML need and replaces every byte that is
    not part of a valid encoding, and the decoder does the same with what it
    reads.  The file models both directions on bytes: the division of a string
    into runes, [Marshal] on the documents the program builds (strings,
    numbers given by their literal, arrays, objects), and [Unmarshal] up to
    the document, with whitespace, escapes, surrogate pairs and the limit on
    nesting.  It proves that what is written is read back, up to that
    replacement. *)

From Stdlib Require Import Ascii.
From stdpp Require Import pretty.
From S2P Require Import Prelude GoStrings GoFormat.

Definition byte (a : ascii) : Z := Z.of_N (N_of_ascii a).
Definition of_byte (z : Z) : ascii := ascii_of_N (Z.to_N z).

Definition between (lo hi : Z) (a : ascii) : bool := (lo <=? byte a) && (byte a <=? hi).

(** ** Runes (package unicode/utf8) *)

(** A maximal step of [utf8.DecodeRune]: a valid encoding of one to four bytes,
    or one byte that starts none. *)
Inductive rune : Type :=
| U1 (a : ascii)
| U2 (a b : ascii)
| U3 (a b c : ascii)
| U4 (a b c d : ascii)
| UBad (a : ascii).

Definition is_cont (a : ascii) : bool := between 0x80 0xBF a.

Definition two_ok (a b : ascii) : bool := between 0xC2 0xDF a && is_cont b.

Definition three_ok (a b c : ascii) : bool :=
  (between 0xE0 0xE0 a && between 0xA0 0xBF b || between 0xE1 0xEC a && is_cont b ||
   between 0xED 0xED a && between 0x80 0x9F b || between 0xEE 0xEF a && is_cont b) && is_cont c.

Definition four_ok (a b c d : ascii) : bool :=
  (between 0xF0 0xF0 a && between 0x90 0xBF b || between 0xF1 0xF3 a && is_cont b ||
   between 0xF4 0xF4 a && between 0x80 0x8F b) && is_cont c && is_cont d.

Fixpoint runes (s : string) : list rune :=
  match s with
  | "" => []
  | String a s1 =>
      if byte a <? 0x80 then U1 a :: runes s1
      else match s1 with
      | "" => [UBad a]
      | String b s2 =>
          if two_ok a b then U2 a b :: runes s2
          else match s2 with
          | "" => UBad a :: runes s1
          | String c s3 =>
              if three_ok a b c then U3 a b c :: runes s3
              else match s3 with
              | "" => UBad a :: runes s1
              | String d s4 => if four_ok a b c d then U4 a b c d :: runes s4 else UBad a :: runes s1
              end
          end
      end
  end.

Definition rune_ok (u : rune) : bool :=
  match u with
  | U1 a => byte a <? 0x80
  | U2 a b => (0x80 <=? byte a) && two_ok a b
  | U3 a b c => (0x80 <=? byte a) && negb (two_ok a b) && three_ok a b c
  | U4 a b c d => (0x80 <=? byte a) && negb (two_ok a b) && negb (three_ok a b c) && four_ok a b c d
  | UBad _ => false
  end.

(** The bytes of a rune; an invalid byte is itself. *)
Definition raw (u : rune) : string :=
  match u with
  | U1 a | UBad a => String a ""
  | U2 a b => String a (String b "")
  | U3 a b c => String a (String b (String c ""))
  | U4 a b c d => String a (String b (String c (String d "")))
  end.

(** U+FFFD, [utf8.RuneError] *)
Definition rune_error : rune := U3 (of_byte 0xEF) (of_byte 0xBF) (of_byte 0xBD).

Definition repair (u : rune) : rune := match u with UBad _ => rune_error | _ => u end.

(** [strings.ToValidUTF8], byte by byte: what a decoded string is made of. *)
Definition sanitize (s : string) : string := concat_str ((fun u => raw (repair u)) <$> runes s).

Definition valid_utf8 (s : string) : Prop := Forall (fun u => rune_ok u = true) (runes s).

#[export] Instance valid_utf8_dec s : Decision (valid_utf8 s).
Proof. unfold valid_utf8. apply _. Defined.

(** [utf8.AppendRune] *)
Definition encode_rune (r : Z) : string :=
  let tail k := of_byte (Z.lor 0x80 (Z.land (Z.shiftr r k) 0x3F)) in
  if (0 <=? r) && (r <=? 0x7F) then String (of_byte r) ""
  else if (0 <=? r) && (r <=? 0x7FF) then raw (U2 (of_byte (Z.lor 0xC0 (Z.shiftr r 6))) (tail 0))
  else if (r <? 0) || (0x10FFFF <? r) || ((0xD800 <=? r) && (r <=? 0xDFFF)) then raw rune_error
  else if r <=? 0xFFFF then raw (U3 (of_byte (Z.lor 0xE0 (Z.shiftr r 12))) (tail 6) (tail 0))
  else raw (U4 (of_byte (Z.lor 0xF0 (Z.shiftr r 18))) (tail 12) (tail 6) (tail 0)).

(** ** Writing *)

Definition dquote : ascii := "034".
Definition backslash : ascii := "092".

Definition hex_digit (z : Z) : ascii := of_byte (if z <? 10 then 48 + z else 87 + z).

Definition escaped (c : ascii) : string := String backslash (String c "").

Definition u_escape (z : Z) : string :=
  escaped "u" ++ String (hex_digit (Z.land (Z.shiftr z 12) 15)) (String (hex_digit (Z.land (Z.shiftr z 8) 15))
    (String (hex_digit (Z.land (Z.shiftr z 4) 15)) (String (hex_digit (Z.land z 15)) ""))).

(** A byte below 0x80, with the HTML characters escaped. *)
Definition quote_ascii (a : ascii) : string :=
  if Ascii.eqb a dquote || Ascii.eqb a backslash then escaped a
  else if byte a =? 8 then escaped "b"
  else if byte a =? 12 then escaped "f"
  else if byte a =? 10 then escaped "n"
  else if byte a =? 13 then escaped "r"
  else if byte a =? 9 then escaped "t"
  else if (byte a <? 0x20) || Ascii.eqb a "<" || Ascii.eqb a ">" || Ascii.eqb a "&" then u_escape (byte a)
  else String a "".

(** U+2028 and U+2029 are escaped too. *)
Definition quote_rune (u : rune) : string :=
  match u with
  | U1 a => quote_ascii a
  | UBad _ => u_escape 0xFFFD
  | U3 a b c =>
      if (byte a =? 0xE2) && (byte b =? 0x80) && (byte c =? 0xA8) then u_escape 0x2028
      else if (byte a =? 0xE2) && (byte b =? 0x80) && (byte c =? 0xA9) then u_escape 0x2029
      else raw u
  | _ => raw u
  end.

Definition quoted_bytes (s : string) : string := concat_str (quote_rune <$> runes s).

Definition quote (s : string) : string := String dquote (quoted_bytes s ++ String dquote "").

(** A document; a number is its literal. *)
#[local] Unset Elimination Schemes.
Inductive doc : Type :=
| DNull
| DBool (b : bool)
| DNum (literal : string)
| DStr (s : string)
| DArr (elements : list doc)
| DObj (members : list (string * doc)).
#[local] Set Elimination Schemes.

Definition DInt (z : Z) : doc := DNum (Itoa z).

Fixpoint comma_separated (parts : list string) : string :=
  match parts with
  | [] => ""
  | [p] => p
  | p :: rest => p ++ String "," (comma_separated rest)
  end.

Fixpoint print (d : doc) : string :=
  match d with
  | DNull => "null"
  | DBool b => if b then "true" else "false"
  | DNum lit => lit
  | DStr s => quote s
  | DArr l => String "[" (comma_separated (List.map print l) ++ "]")
  | DObj l => String "{" (comma_separated (List.map (fun kv => quote kv.1 ++ String ":" (print kv.2)) l) ++ "}")
  end.

(** ** Reading *)

Definition is_ws (a : ascii) : bool :=
  (byte a =? 32) || (byte a =? 9) || (byte a =? 13) || (byte a =? 10).

Fixpoint skip_ws (s : string) : string :=
  match s with
  | String a s' => if is_ws a then skip_ws s' else s
  | "" => ""
  end.

Definition hex_val (a : ascii) : option Z :=
  if between 48 57 a then Some (byte a - 48)
  else if between 97 102 a then Some (byte a - 87)
  else if between 65 70 a then Some (byte a - 55)
  else None.

Definition hex4 (s : string) : option (Z * string) :=
  match s with
  | String a (String b (String c (String d rest))) =>
      match hex_val a, hex_val b, hex_val c, hex_val d with
      | Some w, Some x, Some y, Some z => Some (((w * 16 + x) * 16 + y) * 16 + z, rest)
      | _, _, _, _ => None
      end
  | _ => None
  end.

Definition simple_escape (a : ascii) : option ascii :=
  if Ascii.eqb a dquote || Ascii.eqb a backslash || Ascii.eqb a "/" then Some a
  else if Ascii.eqb a "b" then Some (of_byte 8)
  else if Ascii.eqb a "f" then Some (of_byte 12)
  else if Ascii.eqb a "n" then Some (of_byte 10)
  else if Ascii.eqb a "r" then Some (of_byte 13)
  else if Ascii.eqb a "t" then Some (of_byte 9)
  else None.

Definition is_surrogate (z : Z) : bool := (0xD800 <=? z) && (z <=? 0xDFFF).

(** [utf16.DecodeRune] *)
Definition surrogate_pair (r1 r2 : Z) : option Z :=
  if (0xD800 <=? r1) && (r1 <? 0xDC00) && (0xDC00 <=? r2) && (r2 <=? 0xDFFF)
  then Some (Z.lor (Z.shiftl (r1 - 0xD800) 10) (r2 - 0xDC00) + 0x10000) else None.

(** What follows the backslash. *)
Definition escape (s : string) : option (string * string) :=
  match s with
  | "" => None
  | String e r =>
      match simple_escape e with
      | Some c => Some (String c "", r)
      | None =>
          if Ascii.eqb e "u" then
            match hex4 r with
            | None => None
            | Some (u, r') =>
                if is_surrogate u then
                  match (if HasPrefix r' (escaped "u") then hex4 (str_drop 2 r') else None) with
                  | Some (u2, r'') =>
                      match surrogate_pair u u2 with
                      | Some v => Some (encode_rune v, r'')
                      | None => Some (raw rune_error, r')
                      end
                  | None => Some (raw rune_error, r')
                  end
                else Some (encode_rune u, r')
            end
          else None
      end
  end.

(** The next piece of a string and what follows it; no piece at the closing
    quote. *)
Definition next_piece (s : string) : option (option string * string) :=
  match s with
  | "" => None
  | String a rest =>
      if Ascii.eqb a dquote then Some (None, rest)
      else if byte a <? 0x20 then None
      else if Ascii.eqb a backslash then
        match escape rest with Some (piece, r) => Some (Some piece, r) | None => None end
      else Some (Some (String a ""), rest)
  end.

Fixpoint pieces (n : nat) (s : string) : option (string * string) :=
  match n with
  | O => None
  | S n =>
      match next_piece s with
      | None => None
      | Some (None, rest) => Some ("", rest)
      | Some (Some piece, rest) =>
          match pieces n rest with Some (t, r) => Some (piece ++ t, r) | None => None end
      end
  end.

(** The rest of a string literal after its opening quote. *)
Definition string_tail (s : string) : option (string * string) :=
  match pieces (S (String.length s)) s with Some (t, rest) => Some (sanitize t, rest) | None => None end.

Definition is_digit (a : ascii) : bool := between 48 57 a.

Fixpoint digits (s : string) : string * string :=
  match s with
  | String a s' => if is_digit a then let '(d, r) := digits s' in (String a d, r) else ("", s)
  | "" => ("", "")
  end.

(** A sign, if one of [signs] is next. *)
Definition sign (signs : string) (s : string) : string * string :=
  match s with
  | String a r => if Contains signs (String a "") then (String a "", r) else ("", s)
  | "" => ("", "")
  end.

Definition integer_part (s : string) : option (string * string) :=
  match s with
  | "" => None
  | String a r =>
      if Ascii.eqb a "0" then Some ("0", r)
      else let '(d, r) := digits s in if String.eqb d "" then None else Some (d, r)
  end.

Definition fraction (s : string) : option (string * string) :=
  match s with
  | String a r =>
      if Ascii.eqb a "." then
        let '(d, r) := digits r in if String.eqb d "" then None else Some (String a d, r)
      else Some ("", s)
  | "" => Some ("", "")
  end.

Definition exponent (s : string) : option (string * string) :=
  match s with
  | String a r =>
      if Ascii.eqb a "e" || Ascii.eqb a "E" then
        let '(sg, r) := sign "+-" r in
        let '(d, r) := digits r in if String.eqb d "" then None else Some (String a (sg ++ d), r)
      else Some ("", s)
  | "" => Some ("", "")
  end.

Definition number (s : string) : option (string * string) :=
  let '(sg, r) := sign "-" s in
  match integer_part r with
  | None => None
  | Some (i, r) =>
      match fraction r with
      | None => None
      | Some (f, r) => match exponent r with None => None | Some (e, r) => Some (sg ++ i ++ f ++ e, r) end
      end
  end.

Definition literal (word : string) (d : doc) (s : string) : option (doc * string) :=
  if HasPrefix s word then Some (d, str_drop (String.length word) s) else None.

(** A value, the elements of a non-empty array and the members of a non-empty
    object, with the number of levels that may still be opened. *)
Fixpoint value (n : nat) (depth : Z) (s : string) : option (doc * string) :=
  match n with
  | O => None
  | S n =>
      match skip_ws s with
      | "" => None
      | String a r as s =>
          if Ascii.eqb a "{" then
            if depth <=? 0 then None
            else match skip_ws r with
            | String c r' => if Ascii.eqb c "}" then Some (DObj [], r') else
                match members n (depth - 1) r with Some (ms, r) => Some (DObj ms, r) | None => None end
            | "" => None
            end
          else if Ascii.eqb a "[" then
            if depth <=? 0 then None
            else match skip_ws r with
            | String c r' => if Ascii.eqb c "]" then Some (DArr [], r') else
                match elements n (depth - 1) r with Some (vs, r) => Some (DArr vs, r) | None => None end
            | "" => None
            end
          else if Ascii.eqb a dquote then
            match string_tail r with Some (t, r) => Some (DStr t, r) | None => None end
          else if Ascii.eqb a "t" then literal "true" (DBool true) s
          else if Ascii.eqb a "f" then literal "false" (DBool false) s
          else if Ascii.eqb a "n" then literal "null" DNull s
          else match number s with Some (lit, r) => Some (DNum lit, r) | None => None end
      end
  end
with elements (n : nat) (depth : Z) (s : string) : option (list doc * string) :=
  match n with
  | O => None
  | S n =>
      match value n depth s with
      | None => None
      | Some (v, r) =>
          match skip_ws r with
          | "" => None
          | String c r' =>
              if Ascii.eqb c "," then
                match elements n depth r' with Some (vs, r) => Some (v :: vs, r) | None => None end
              else if Ascii.eqb c "]" then Some ([v], r') else None
          end
      end
  end
with members (n : nat) (depth : Z) (s : string) : option (list (string * doc) * string) :=
  match n with
  | O => None
  | S n =>
      match skip_ws s with
      | String q r =>
          if negb (Ascii.eqb q dquote) then None
          else match string_tail r with
          | None => None
          | Some (key, r) =>
              match skip_ws r with
              | String col r =>
                  if negb (Ascii.eqb col ":") then None
                  else match value n depth r with
                  | None => None
                  | Some (v, r) =>
                      match skip_ws r with
                      | "" => None
                      | String c r' =>
                          if Ascii.eqb c "," then
                            match members n depth r' with
                            | Some (ms, r) => Some ((key, v) :: ms, r)
                            | None => None
                            end
                          else if Ascii.eqb c "}" then Some ([(key, v)], r') else None
                      end
                  end
              | "" => None
              end
          end
      | "" => None
      end
  end.

Definition max_nesting : Z := 10000.

(** A whole document: nothing but whitespace may follow it. *)
Definition parse (s : string) : option doc :=
  match value (2 * String.length s + 2) max_nesting s with
  | Some (d, rest) => if String.eqb (skip_ws rest) "" then Some d else None
  | None => None
  end.

(** ** Lemmas: runes *)

Lemma byte_range a : 0 <= byte a < 256.
Proof. unfold byte. pose proof (N_ascii_bounded a). lia. Qed.

Lemma byte_of_byte z : 0 <= z < 256 -> byte (of_byte z) = z.
Proof. intros Hz. unfold byte, of_byte. rewrite N_ascii_embedding by lia. lia. Qed.

Lemma byte_inv a z : byte a = z -> a = of_byte z.
Proof. intros <-. unfold of_byte, byte. by rewrite N2Z.id, ascii_N_embedding. Qed.

Lemma between_spec lo hi a : between lo hi a = true <-> lo <= byte a <= hi.
Proof. unfold between. rewrite andb_true_iff, !Z.leb_le. done. Qed.

Lemma runes_raw u s : rune_ok u = true -> runes (raw u ++ s) = u :: runes s.
Proof.
  destruct u as [a|a b|a b c|a b c d|a]; cbn [rune_ok raw String.append runes]; intros Hu; zbool.
  - by rewrite (proj2 (Z.ltb_lt _ _)).
  - rewrite (proj2 (Z.ltb_ge _ _)) by done. by rewrite H0.
  - rewrite (proj2 (Z.ltb_ge _ _)) by done. by rewrite H1, H0.
  - rewrite (proj2 (Z.ltb_ge _ _)) by done. by rewrite H2, H1, H0.
  - done.
Qed.

Lemma runes_concat l : Forall (fun u => rune_ok u = true) l -> runes (concat_str (raw <$> l)) = l.
Proof.
  induction 1 as [|u l Hu _ IH]; [done|]. cbn [fmap list_fmap concat_str]. by rewrite runes_raw, IH.
Qed.

(** Induction along the runes of a string. *)
Lemma runes_ind (P : string -> Prop) :
  P "" -> (forall u s, rune_ok u = true -> P s -> P (raw u ++ s)) ->
  (forall a s, 0x80 <= byte a -> runes (String a s) = UBad a :: runes s -> P s -> P (String a s)) ->
  forall s, P s.
Proof.
  intros H0 Hok Hbad s. induction s as [s IH] using (induction_ltof1 _ String.length). unfold ltof in IH.
  destruct s as [|a s1]; [done|].
  destruct (Z.ltb_spec (byte a) 0x80) as [Ha|Ha].
  { apply (Hok (U1 a)); [by apply Z.ltb_lt|]. apply IH. cbn. lia. }
  assert (runes (String a s1) = UBad a :: runes s1 -> P (String a s1)) as Hb.
  { intros E. apply Hbad; [done|done|]. apply IH. cbn. lia. }
  assert ((byte a <? 0x80) = false) as Ea by (by apply Z.ltb_ge).
  assert ((0x80 <=? byte a) = true) as La by (by apply Z.leb_le).
  cbn [runes] in Hb. rewrite Ea in Hb.
  destruct s1 as [|b s2]; [by apply Hb|].
  destruct (two_ok a b) eqn:E2.
  { apply (Hok (U2 a b)); [cbn; by rewrite La, E2|]. apply IH. cbn. lia. }
  destruct s2 as [|c s3]; [by apply Hb|].
  destruct (three_ok a b c) eqn:E3.
  { apply (Hok (U3 a b c)); [cbn; by rewrite La, E2, E3|]. apply IH. cbn. lia. }
  destruct s3 as [|d s4]; [by apply Hb|].
  destruct (four_ok a b c d) eqn:E4; [|by apply Hb].
  apply (Hok (U4 a b c d)); [cbn; by rewrite La, E2, E3, E4|]. apply IH. cbn. lia.
Qed.

Lemma concat_raw_runes s : concat_str (raw <$> runes s) = s.
Proof.
  induction s as [|u s Hu IH|a s _ E IH] using runes_ind; [done| |].
  - rewrite runes_raw by done. cbn [fmap list_fmap concat_str]. by rewrite IH.
  - rewrite E. cbn [fmap list_fmap concat_str raw String.append]. by rewrite IH.
Qed.

Lemma runes_shape s : Forall (fun u => rune_ok u = true \/ exists a, u = UBad a) (runes s).
Proof.
  induction s as [|u s Hu IH|a s _ E IH] using runes_ind; [constructor| |].
  - rewrite runes_raw by done. constructor; auto.
  - rewrite E. constructor; eauto.
Qed.

Lemma repaired_ok s : Forall (fun u => rune_ok u = true) (repair <$> runes s).
Proof.
  rewrite list.Forall_fmap. eapply list.Forall_impl; [apply runes_shape|].
  intros u [Hu|[a ->]]; [|done]. by destruct u.
Qed.

Lemma runes_sanitize s : runes (sanitize s) = repair <$> runes s.
Proof.
  unfold sanitize. rewrite (list_fmap_compose repair raw). apply runes_concat, repaired_ok.
Qed.

Lemma sanitize_valid s : valid_utf8 (sanitize s).
Proof. unfold valid_utf8. rewrite runes_sanitize. apply repaired_ok. Qed.

(** A valid string is kept. *)
Lemma sanitize_id s : valid_utf8 s -> sanitize s = s.
Proof.
  intros Hs. rewrite <- (concat_raw_runes s) at 2. unfold sanitize. f_equal.
  apply list_fmap_ext. intros i u Hu.
  pose proof (list.Forall_lookup_1 _ _ _ _ Hs Hu). by destruct u.
Qed.

Lemma sanitize_idem s : sanitize (sanitize s) = sanitize s.
Proof. apply sanitize_id, sanitize_valid. Qed.

Lemma rune_ok_high u : rune_ok u = true -> match u with U1 _ => True | _ => str_forall (fun a => 0x80 <=? byte a) (raw u) = true end.
Proof.
  assert (forall lo a, 0x80 <= lo -> forall hi, between lo hi a = true -> (0x80 <=? byte a) = true) as Hb.
  { intros lo a Hlo hi Hb. apply between_spec in Hb. apply Z.leb_le. lia. }
  destruct u as [a|a b|a b c|a b c d|a]; cbn [rune_ok raw str_forall]; [done| | | |done];
    unfold two_ok, three_ok, four_ok, is_cont; intros Hu; zbool;
    repeat match goal with H : _ || _ = true |- _ => apply orb_true_iff in H as [?|?] end; zbool;
    rewrite (proj2 (Z.leb_le 0x80 (byte a))) by done;
    repeat match goal with H : between ?lo _ ?x = true |- context [(0x80 <=? byte ?x)] =>
      rewrite (Hb lo x ltac:(lia) _ H) end; done.
Qed.

(** ** Lemmas: strings *)

Lemma next_piece_ascii a rest : byte a < 0x80 -> next_piece (quote_ascii a ++ rest) = Some (Some (String a ""), rest).
Proof.
  destruct a as [[] [] [] [] [] [] [] []]; intros H; first [reflexivity|exfalso; vm_compute in H; discriminate].
Qed.

Lemma next_piece_high a rest : 0x80 <= byte a -> next_piece (String a rest) = Some (Some (String a ""), rest).
Proof.
  intros Ha. unfold next_piece.
  destruct (Ascii.eqb_spec a dquote) as [->|_]; [vm_compute in Ha; done|].
  rewrite (proj2 (Z.ltb_ge (byte a) 0x20)) by lia.
  destruct (Ascii.eqb_spec a backslash) as [->|_]; [vm_compute in Ha; done|]. done.
Qed.

Lemma pieces_step n s piece rest t r :
  next_piece s = Some (Some piece, rest) -> pieces n rest = Some (t, r) -> pieces (S n) s = Some (piece ++ t, r).
Proof. intros E1 E2. cbn [pieces]. by rewrite E1, E2. Qed.

Lemma pieces_high h n rest t r :
  str_forall (fun a => 0x80 <=? byte a) h = true -> pieces n rest = Some (t, r) ->
  pieces (String.length h + n) (h ++ rest) = Some (h ++ t, r).
Proof.
  intros Hh Hn. induction h as [|a h IH]; [done|]. cbn [str_forall] in Hh. zbool.
  cbn [String.length String.append Nat.add]. change (String a (h ++ t)) with (String a "" ++ (h ++ t)).
  eapply pieces_step; [by apply next_piece_high|]. by apply IH.
Qed.

Lemma pieces_more n m s t r : pieces n s = Some (t, r) -> (n <= m)%nat -> pieces m s = Some (t, r).
Proof.
  revert m s t r. induction n as [|n IH]; intros m s t r E Hm; [done|]. destruct m as [|m]; [lia|].
  cbn [pieces] in *. destruct (next_piece s) as [[[p|] rest]|]; [|done..].
  destruct (pieces n rest) as [[t' r']|] eqn:E'; [|done]. by rewrite (IH m rest t' r' E' ltac:(lia)).
Qed.

Lemma quote_ascii_nonempty a : (1 <= String.length (quote_ascii a))%nat.
Proof. unfold quote_ascii. case_ifs; cbn; lia. Qed.

Lemma pieces_rune u n rest t r :
  rune_ok u = true \/ (exists a, u = UBad a) -> pieces n rest = Some (t, r) ->
  pieces (String.length (quote_rune u) + n) (quote_rune u ++ rest) = Some (raw (repair u) ++ t, r).
Proof.
  intros Hu Hn.
  assert (forall piece, next_piece (quote_rune u ++ rest) = Some (Some piece, rest) -> (1 <= String.length (quote_rune u))%nat ->
    pieces (String.length (quote_rune u) + n) (quote_rune u ++ rest) = Some (piece ++ t, r)) as Hone.
  { intros piece E Hl. eapply pieces_more; [by eapply pieces_step|]. lia. }
  destruct Hu as [Hu|[a ->]]; [|by apply Hone; [|cbn; lia]].
  pose proof (rune_ok_high u Hu) as Hh. destruct u as [a|a b|a b c|a b c d|a]; [| | | |done].
  - apply Hone; [by apply next_piece_ascii, Z.ltb_lt|apply quote_ascii_nonempty].
  - by apply pieces_high.
  - cbn [repair]. cbn [quote_rune] in *.
    destruct ((byte a =? 0xE2) && (byte b =? 0x80) && (byte c =? 0xA8)) eqn:E1.
    { zbool. apply Hone; [|cbn; lia]. by rewrite (byte_inv a 0xE2), (byte_inv b 0x80), (byte_inv c 0xA8). }
    destruct ((byte a =? 0xE2) && (byte b =? 0x80) && (byte c =? 0xA9)) eqn:E2; [|by apply pieces_high].
    zbool. apply Hone; [|cbn; lia]. by rewrite (byte_inv a 0xE2), (byte_inv b 0x80), (byte_inv c 0xA9).
  - by apply pieces_high.
Qed.

(** What is quoted is read back, repaired. *)
Lemma string_tail_quoted s rest : string_tail (quoted_bytes s ++ String dquote rest) = Some (sanitize s, rest).
Proof.
  assert (pieces (String.length (quoted_bytes s) + 1) (quoted_bytes s ++ String dquote rest) = Some (sanitize s, rest)) as E.
  { unfold quoted_bytes, sanitize. pose proof (runes_shape s) as Hs. induction Hs as [|u l Hu _ IH]; [done|].
    cbn [fmap list_fmap concat_str]. rewrite str_length_app, !str_app_assoc, <- Nat.add_assoc. by apply pieces_rune. }
  unfold string_tail. rewrite (pieces_more _ _ _ _ _ E) by (rewrite str_length_app; cbn; lia).
  by rewrite sanitize_idem.
Qed.

(** ** Lemmas: numbers *)

(** What may follow a number without being read as part of it. *)
Definition ends_number (rest : string) : bool :=
  match rest with
  | "" => true
  | String a _ => negb (is_digit a || Ascii.eqb a "." || Ascii.eqb a "e" || Ascii.eqb a "E")
  end.

(** A literal that is read as itself. *)
Definition num_ok (lit : string) : Prop :=
  match lit with String a _ => is_digit a || Ascii.eqb a "-" = true | "" => False end /\
  str_forall (fun a => 0x20 <=? byte a) lit = true /\
  forall rest, ends_number rest = true -> number (lit ++ rest) = Some (lit, rest).

Lemma digits_app ds rest : str_forall is_digit ds = true -> ends_number rest = true -> digits (ds ++ rest) = (ds, rest).
Proof.
  intros Hd Hr. induction ds as [|a ds IH]; cbn [String.append digits str_forall] in *.
  - destruct rest as [|a rest]; [done|]. cbn in *. destruct (is_digit a); [done|done].
  - zbool. rewrite H. by rewrite IH.
Qed.

Lemma tail_number rest : ends_number rest = true -> fraction rest = Some ("", rest) /\ exponent rest = Some ("", rest).
Proof.
  destruct rest as [|a rest]; [done|]. unfold ends_number, fraction, exponent.
  rewrite negb_true_iff, !orb_false_iff. intros [[[_ ->] ->] ->]. done.
Qed.

Lemma digit_char_ok x : (x < 10)%N ->
  is_digit (pretty_N_char x) = true /\ ((0 < x)%N -> pretty_N_char x <> "0"%char).
Proof.
  intros Hx. assert (x = 0 \/ x = 1 \/ x = 2 \/ x = 3 \/ x = 4 \/ x = 5 \/ x = 6 \/ x = 7 \/ x = 8 \/ x = 9)%N as H by lia.
  repeat destruct H as [->|H]; [..|subst]; (split; [reflexivity|]); intros; try done; lia.
Qed.

Lemma pretty_N_go_digits x s : (0 < x)%N ->
  exists c ds, pretty_N_go x s = String c (ds ++ s) /\ is_digit c = true /\ c <> "0"%char /\ str_forall is_digit ds = true.
Proof.
  revert s. induction (N.lt_wf_0 x) as [x _ IH]; intros s Hx. rewrite pretty_N_go_step by done.
  pose proof (N.mod_lt x 10 ltac:(done)) as Hm. destruct (digit_char_ok (x `mod` 10) Hm) as [Hd Hz].
  destruct (N.lt_ge_cases x 10) as [Hs|Hb].
  - rewrite N.div_small by done. rewrite pretty_N_go_0. exists (pretty_N_char (x `mod` 10)%N), "". rewrite N.mod_small in * by done.
    split_and!; [done|done|by apply Hz|done].
  - destruct (IH (x `div` 10)%N ltac:(apply N.div_lt; lia) (String (pretty_N_char (x `mod` 10)%N) s)) as (c & ds & E & Hc & Hc0 & Hds).
    { apply N.div_str_pos. lia. }
    exists c, (ds ++ String (pretty_N_char (x `mod` 10)%N) ""). rewrite E. split_and!; [by rewrite str_app_assoc|done|done|].
    clear -Hds Hd. induction ds as [|a ds IH]; cbn in *; [by rewrite Hd|]. zbool. rewrite H. by apply IH.
Qed.

Lemma natural_ok p rest : ends_number rest = true ->
  exists c ds, pretty (N.pos p) = String c ds /\ is_digit c = true /\
    integer_part (pretty (N.pos p) ++ rest) = Some (pretty (N.pos p), rest).
Proof.
  intros Hr. unfold pretty, pretty_N. case_decide; [done|].
  destruct (pretty_N_go_digits (N.pos p) "" ltac:(lia)) as (c & ds & E & Hc & Hc0 & Hds). rewrite str_app_nil_r in E.
  exists c, ds. rewrite E. split_and!; [done|done|]. cbn [String.append integer_part].
  destruct (Ascii.eqb_spec c "0"); [done|]. change (String c (ds ++ rest)) with (String c ds ++ rest).
  rewrite digits_app; [done| |done]. cbn. by rewrite Hc.
Qed.

Lemma natural_digits p : str_forall is_digit (pretty (N.pos p)) = true.
Proof.
  unfold pretty, pretty_N. case_decide; [done|].
  destruct (pretty_N_go_digits (N.pos p) "" ltac:(lia)) as (c & ds & -> & Hc & _ & Hds).
  rewrite str_app_nil_r. cbn. by rewrite Hc.
Qed.

Lemma is_digit_not_minus c : is_digit c = true -> Contains "-" (String c "") = false.
Proof.
  intros [? ?]%between_spec. unfold Contains. cbn [Index HasPrefix].
  destruct (Ascii.eqb_spec c "-") as [->|]; [by vm_compute in H|done].
Qed.

Lemma ascii_utf8 s : str_forall (fun a => byte a <? 0x80) s = true -> valid_utf8 s.
Proof.
  unfold valid_utf8. induction s as [|a s IH]; intros Hs; [constructor|]. cbn [str_forall] in Hs. apply andb_true_iff in Hs as [Ha Hs].
  cbn [runes]. rewrite Ha. constructor; [exact Ha|by apply IH].
Qed.

Lemma Itoa_ascii z : str_forall (fun a => byte a <? 0x80) (Itoa z) = true.
Proof.
  assert (forall p, str_forall (fun a => byte a <? 0x80) (pretty (N.pos p)) = true) as Hp.
  { intros p. eapply str_forall_impl; [|apply natural_digits]. intros a. unfold is_digit, between. rewrite andb_true_iff, Z.ltb_lt, !Z.leb_le. lia. }
  destruct z as [|p|p]; [reflexivity|apply (Hp p)|exact (Hp p)].
Qed.

Lemma Itoa_utf8 z : valid_utf8 (Itoa z).
Proof. apply ascii_utf8, Itoa_ascii. Qed.

Lemma Itoa_num_ok z : num_ok (Itoa z).
Proof.
  assert (forall sg i rest, ends_number rest = true -> integer_part (i ++ rest) = Some (i, rest) ->
    sign "-" (sg ++ i ++ rest) = (sg, i ++ rest) -> number ((sg ++ i) ++ rest) = Some (sg ++ i, rest)) as Hn.
  { intros sg i rest Hr Hi Hs. unfold number. rewrite str_app_assoc, Hs, Hi.
    destruct (tail_number rest Hr) as [-> ->]. by rewrite str_app_nil_r. }
  assert (forall p, str_forall (fun a => 0x20 <=? byte a) (pretty (N.pos p)) = true) as Hp.
  { intros p. apply (str_forall_impl is_digit); [|apply natural_digits].
    intros a Ha. apply between_spec in Ha. apply Z.leb_le. lia. }
  unfold Itoa, num_ok. destruct z as [|p|p].
  - split_and!; [done..|]. intros rest Hr. by apply (Hn "" "0" rest).
  - change (pretty (Z.pos p)) with (pretty (N.pos p)).
    split_and!; [destruct (natural_ok p "" eq_refl) as (c & ds & -> & -> & _); done|done|].
    intros rest Hr. destruct (natural_ok p rest Hr) as (c & ds & E & Hc & Hi). refine (Hn "" (pretty (N.pos p)) rest Hr Hi _).
    rewrite E. cbn [String.append sign]. by rewrite is_digit_not_minus.
  - change (pretty (Z.neg p)) with ("-" ++ pretty (N.pos p)). split_and!; [done|exact (Hp p)|].
    intros rest Hr. destruct (natural_ok p rest Hr) as (c & ds & E & Hc & Hi). by apply (Hn "-" (pretty (N.pos p)) rest).
Qed.

(** ** Lemmas: documents *)

Lemma doc_ind (P : doc -> Prop) :
  P DNull -> (forall b, P (DBool b)) -> (forall lit, P (DNum lit)) -> (forall s, P (DStr s)) ->
  (forall l, Forall P l -> P (DArr l)) -> (forall l, Forall (fun kv => P kv.2) l -> P (DObj l)) -> forall d, P d.
Proof.
  intros Hn Hb Hl Hs Ha Ho. fix IH 1. intros [| | | |l|l]; [done..| |].
  - apply Ha. induction l as [|d l IHl]; constructor; [apply IH|apply IHl].
  - apply Ho. induction l as [|[k d] l IHl]; constructor; [apply IH|apply IHl].
Qed.

(** The document with every string repaired: what comes back. *)
Fixpoint repaired (d : doc) : doc :=
  match d with
  | DStr s => DStr (sanitize s)
  | DArr l => DArr (List.map repaired l)
  | DObj l => DObj (List.map (fun kv => (sanitize kv.1, repaired kv.2)) l)
  | _ => d
  end.

Fixpoint nesting (d : doc) : Z :=
  match d with
  | DArr l => 1 + foldr Z.max 0 (List.map nesting l)
  | DObj l => 1 + foldr Z.max 0 (List.map (fun kv => nesting kv.2) l)
  | _ => 0
  end.

Fixpoint numbers_ok (d : doc) : Prop :=
  match d with
  | DNum lit => num_ok lit
  | DArr l => foldr (fun x acc => numbers_ok x /\ acc) True l
  | DObj l => foldr (fun kv acc => numbers_ok kv.2 /\ acc) True l
  | _ => True
  end.

Definition is_delim (a : ascii) : bool := Ascii.eqb a "," || Ascii.eqb a "]" || Ascii.eqb a "}".

(** What may follow a value of a printed document. *)
Definition follows (rest : string) : bool :=
  match rest with "" => true | String a _ => is_delim a end.

Lemma follows_ends rest : follows rest = true -> ends_number rest = true.
Proof.
  destruct rest as [|a rest]; [done|]. cbn. unfold is_delim. rewrite !orb_true_iff, !Ascii.eqb_eq.
  by intros [[-> | ->]| ->].
Qed.

Lemma skip_ws_other a s : is_ws a = false -> skip_ws (String a s) = String a s.
Proof. cbn. by intros ->. Qed.

Lemma delim_not_ws a : is_delim a = true -> is_ws a = false.
Proof. unfold is_delim. rewrite !orb_true_iff, !Ascii.eqb_eq. by intros [[-> | ->]| ->]. Qed.

(** A printed value starts with a byte that is neither whitespace nor the
    end of an array. *)
Lemma print_start d : numbers_ok d ->
  exists a s, print d = String a s /\ is_ws a = false /\ a <> "]"%char.
Proof.
  destruct d as [|[]|[|a lit]|s|l|l]; cbn; intros Hok; try (eexists _, _; split; [reflexivity|done]); [by destruct Hok|].
  destruct Hok as (Ha & _). exists a, lit. split; [done|].
  destruct a as [[] [] [] [] [] [] [] []]; first [discriminate|done].
Qed.

Lemma max_nonneg {A} (f : A -> Z) l : 0 <= foldr Z.max 0 (List.map f l).
Proof. induction l; cbn; lia. Qed.

(** A number is recognised by its first byte. *)
Lemma value_number n depth a s : is_digit a || Ascii.eqb a "-" = true ->
  value (S n) depth (String a s) = match number (String a s) with Some (lit, r) => Some (DNum lit, r) | None => None end.
Proof.
  intros Ha. destruct a as [[] [] [] [] [] [] [] []]; first [reflexivity|discriminate].
Qed.

Lemma value_string n depth s rest :
  value (S n) depth (quote s ++ rest) = Some (DStr (sanitize s), rest).
Proof.
  unfold quote. cbn [String.append]. rewrite str_app_assoc. cbn [value skip_ws].
  change (is_ws dquote) with false. cbn [String.append].
  change (Ascii.eqb dquote "{") with false. change (Ascii.eqb dquote "[") with false.
  change (Ascii.eqb dquote dquote) with true. cbn iota. by rewrite string_tail_quoted.
Qed.

Lemma comma_cons p q rest : comma_separated (p :: q :: rest) = p ++ String "," (comma_separated (q :: rest)).
Proof. done. Qed.

Section RoundTrip.
(** How [value] treats a printed document, as the induction needs it. *)
Let reads (d : doc) : Prop := forall n depth rest,
  numbers_ok d -> nesting d <= depth -> follows rest = true -> (2 * String.length (print d) + 1 <= n)%nat ->
  value n depth (print d ++ rest) = Some (repaired d, rest).

Lemma elements_print l : l <> [] -> Forall reads l -> forall n depth rest,
  numbers_ok (DArr l) -> nesting (DArr l) <= depth + 1 ->
  (2 * String.length (comma_separated (List.map print l)) + 2 <= n)%nat ->
  elements n depth (comma_separated (List.map print l) ++ String "]" rest) = Some (List.map repaired l, rest).
Proof.
  intros Hne Hl. induction Hl as [|d l Hd Hl IH]; [done|]. intros n depth rest Hok Hn Hf. cbn in Hok, Hn. destruct Hok as [Hok1 Hok2].
  destruct n as [|n]; [lia|]. destruct l as [|d' l].
  - cbn [List.map comma_separated] in *. cbn [elements].
    rewrite (Hd n depth) by (done || lia). done.
  - cbn [List.map] in *. rewrite comma_cons in *. rewrite str_length_app in Hf. cbn [String.length] in Hf.
    rewrite str_app_assoc. cbn [elements String.append].
    rewrite (Hd n depth) by (done || lia). cbn [skip_ws]. change (is_ws ",") with false.
    change (Ascii.eqb "," ",") with true. cbn iota. rewrite (IH ltac:(done) n depth rest); [done|done| |lia]. cbn. cbn in Hn. lia.
Qed.

Definition member (kv : string * doc) : string := quote kv.1 ++ String ":" (print kv.2).

Lemma members_print l : l <> [] -> Forall (fun kv => reads kv.2) l -> forall n depth rest,
  numbers_ok (DObj l) -> nesting (DObj l) <= depth + 1 ->
  (2 * String.length (comma_separated (List.map member l)) + 2 <= n)%nat ->
  members n depth (comma_separated (List.map member l) ++ String "}" rest) =
    Some (List.map (fun kv => (sanitize kv.1, repaired kv.2)) l, rest).
Proof.
  intros Hne Hl. induction Hl as [|[k d] l Hd Hl IH]; [done|]. intros n depth rest Hok Hn Hf. cbn in Hok, Hn, Hd. destruct Hok as [Hok1 Hok2].
  destruct n as [|n]; [lia|].
  assert (forall r, follows r = true -> (2 * String.length (member (k, d)) + 2 <= S n)%nat ->
    members (S n) depth (member (k, d) ++ r) =
      match r with
      | "" => None
      | String c r' =>
          if Ascii.eqb c "," then
            match members n depth r' with Some (ms, r) => Some ((sanitize k, repaired d) :: ms, r) | None => None end
          else if Ascii.eqb c "}" then Some ([(sanitize k, repaired d)], r') else None
      end) as Hone.
  { intros r Hr Hlen. unfold member, quote in *. cbn [String.append String.length fst snd] in *. rewrite !str_length_app in Hlen. cbn [String.length] in Hlen.
    rewrite !str_app_assoc. cbn [members skip_ws String.append]. change (is_ws dquote) with false.
    change (Ascii.eqb dquote dquote) with true. cbn [negb]. rewrite string_tail_quoted. cbn [skip_ws String.append].
    change (is_ws ":") with false. change (Ascii.eqb ":" ":") with true. cbn [negb].
    rewrite (Hd n depth r) by (done || lia). destruct r as [|c r']; [done|]. cbn in Hr.
    rewrite skip_ws_other; [done|]. by apply delim_not_ws. }
  destruct l as [|[k' d'] l].
  - cbn [List.map comma_separated] in *. rewrite Hone by (done || lia). done.
  - cbn [List.map] in *. rewrite comma_cons in *. rewrite str_length_app in Hf. cbn [String.length] in Hf.
    rewrite str_app_assoc. cbn [String.append]. rewrite Hone by (done || lia).
    change (Ascii.eqb "," ",") with true. cbn iota. rewrite (IH ltac:(done) n depth rest); [done|done| |lia]. cbn. cbn in Hn. lia.
Qed.

Lemma value_print d : reads d.
Proof.
  induction d as [|b|lit|s|l IH|l IH] using doc_ind; intros n depth rest Hok Hn Hr Hf; cbn in Hok; (destruct n as [|n]; [lia|]).
  - by destruct rest.
  - by destruct b, rest.
  - destruct Hok as (Ha & _ & Hnum). destruct lit as [|a lit]; [done|]. cbn [print String.append] in *.
    rewrite value_number by done. specialize (Hnum rest (follows_ends rest Hr)).
    cbn [String.append] in Hnum. by rewrite Hnum.
  - apply value_string.
  - pose proof (max_nonneg nesting l) as Hp. cbn [nesting] in Hn.
    cbn [print String.append String.length] in *. rewrite str_length_app in Hf. cbn [String.length] in Hf.
    rewrite str_app_assoc. cbn [value skip_ws String.append]. change (is_ws "[") with false. cbn iota.
    change (Ascii.eqb "[" "{") with false. change (Ascii.eqb "[" "[") with true. cbn iota.
    rewrite (proj2 (Z.leb_gt depth 0)) by lia.
    destruct l as [|d l]; [done|].
    assert (exists a s, comma_separated (List.map print (d :: l)) = String a s /\ is_ws a = false /\ a <> "]"%char)
      as (a & s & E & Hw & Hb).
    { destruct Hok as [Hd _]. destruct (print_start d Hd) as (a & s & E & ?). cbn [List.map comma_separated].
      destruct (List.map print l); rewrite E; by eexists _, _. }
    pose proof (elements_print (d :: l) ltac:(done) IH n (depth - 1) rest Hok ltac:(cbn [nesting]; lia) ltac:(lia)) as He.
    rewrite E in *. cbn [String.append] in *. rewrite skip_ws_other by done. destruct (Ascii.eqb_spec a "]"); [done|]. by rewrite He.
  - pose proof (max_nonneg (fun kv : string * doc => nesting kv.2) l) as Hp. cbn [nesting] in Hn.
    cbn [print String.append String.length] in *. rewrite str_length_app in Hf. cbn [String.length] in Hf.
    rewrite str_app_assoc. cbn [value skip_ws String.append]. change (is_ws "{") with false. cbn iota.
    change (Ascii.eqb "{" "{") with true. cbn iota. rewrite (proj2 (Z.leb_gt depth 0)) by lia.
    destruct l as [|[k d] l]; [done|].
    pose proof (members_print ((k, d) :: l) ltac:(done) IH n (depth - 1) rest Hok ltac:(cbn [nesting]; lia)) as He.
    change (List.map (fun kv => quote kv.1 ++ String ":" (print kv.2)) ((k, d) :: l)) with (List.map member ((k, d) :: l)) in *.
    assert (exists s, comma_separated (List.map member ((k, d) :: l)) = String dquote s) as [s E].
    { destruct l; eexists; reflexivity. }
    specialize (He ltac:(lia)). rewrite E in *. cbn [String.append] in *. rewrite skip_ws_other by done.
    change (Ascii.eqb dquote "}") with false. cbn iota. by rewrite He.
Qed.
End RoundTrip.

(** [Unmarshal] after [Marshal]: every document is read back with its strings
    repaired, so a document of valid strings is read back as it was. *)
Theorem parse_print d : numbers_ok d -> nesting d <= max_nesting -> parse (print d) = Some (repaired d).
Proof.
  intros Hok Hn. unfold parse.
  rewrite <- (str_app_nil_r (print d)) at 2. rewrite (value_print d) by (done || lia). done.
Qed.

(** A printed document holds no control byte, so it fits on one line. *)
Definition printable (s : string) : bool := str_forall (fun a => 0x20 <=? byte a) s.

Lemma quote_ascii_printable a : printable (quote_ascii a) = true.
Proof. destruct a as [[] [] [] [] [] [] [] []]; reflexivity. Qed.

Lemma quote_printable s : printable (quote s) = true.
Proof.
  unfold quote, printable. cbn [str_forall]. rewrite str_forall_app. cbn [str_forall].
  change (0x20 <=? byte dquote) with true. rewrite andb_true_r, andb_true_l. unfold quoted_bytes. pose proof (runes_shape s) as Hs. induction Hs as [|u l Hu _ IH]; [done|].
  cbn [fmap list_fmap concat_str]. rewrite str_forall_app, IH, andb_true_r. destruct Hu as [Hu|[a ->]]; [|done].
  pose proof (rune_ok_high u Hu) as Hh.
  assert (forall t, str_forall (fun a => 0x80 <=? byte a) t = true -> str_forall (fun a => 0x20 <=? byte a) t = true) as Hi.
  { intros t. apply str_forall_impl. intros a. rewrite !Z.leb_le. lia. }
  destruct u as [a|a b|a b c|a b c d|a]; cbn [quote_rune]; [apply quote_ascii_printable|auto| |auto|done].
  repeat case_if; [done|done|auto].
Qed.

Lemma comma_printable l : Forall (fun p => printable p = true) l -> printable (comma_separated l) = true.
Proof.
  induction 1 as [|p l Hp Hl IH]; [done|]. destruct l as [|q l]; [done|]. rewrite comma_cons. unfold printable in *.
  rewrite str_forall_app, Hp. cbn. exact IH.
Qed.

Lemma print_printable d : numbers_ok d -> printable (print d) = true.
Proof.
  induction d as [|b|lit|s|l IH|l IH] using doc_ind; intros Hok; cbn [print].
  - done.
  - by destruct b.
  - by destruct Hok as (_ & ? & _).
  - apply quote_printable.
  - unfold printable. cbn [str_forall]. rewrite str_forall_app. cbn. rewrite andb_true_r.
    apply comma_printable. cbn in Hok. induction IH as [|d l Hd _ IHl]; constructor; destruct Hok; [auto|by apply IHl].
  - unfold printable. cbn [str_forall]. rewrite str_forall_app. cbn. rewrite andb_true_r.
    apply comma_printable. cbn in Hok. induction IH as [|[k d] l Hd _ IHl]; constructor; destruct Hok; [|by apply IHl].
    change (printable (quote k ++ String ":" (print d)) = true). unfold printable.
    rewrite str_forall_app. fold (printable (quote k)). rewrite quote_printable. by apply Hd.
Qed.
