(* ===== verification/Sha256.v ===== *)
(** * SHA-256 and hexadecimal text (crypto/sha256, encoding/hex)

    The digest behind API keys (services/gateway/apikey.go) and the hash of an
    objective (services/planner/policy.go), written out on 32-bit words kept
    as integers.  The constants are what the standard defines them as: the
    first 32 bits of the fractional parts of roots of the first primes. *)

From Stdlib Require Import Ascii.
From S2P Require Import Prelude GoStrings Json.

(** ** Constants *)

Definition is_prime (n : Z) : bool :=
  (1 <? n) && forallb (fun d => negb (n mod Z.of_nat d =? 0)) (seq 2 (Z.to_nat (Z.sqrt n) - 1)).

Definition first_primes : list Z := Eval vm_compute in List.filter is_prime (Z.of_nat <$> seq 2 310).

(** The largest integer whose cube is at most [n], bit by bit from [b] down. *)
Fixpoint cube_root (bits : nat) (acc n : Z) : Z :=
  match bits with
  | O => acc
  | S b => let next := acc + 2 ^ Z.of_nat b in cube_root b (if next ^ 3 <=? n then next else acc) n
  end.

(** floor (root p * 2^32), without the integer part *)
Definition round_words : list Z := Eval vm_compute in (fun p => wrap_u32 (cube_root 40 0 (p * 2 ^ 96))) <$> first_primes.
Definition initial_words : list Z := Eval vm_compute in (fun p => wrap_u32 (Z.sqrt (p * 2 ^ 64))) <$> take 8 first_primes.

(** ** Words *)

Definition rotr (n x : Z) : Z := Z.lor (Z.shiftr x n) (wrap_u32 (Z.shiftl x (32 - n))).

Definition xor3 (x y z : Z) : Z := Z.lxor x (Z.lxor y z).
Definition big_sigma0 (x : Z) : Z := xor3 (rotr 2 x) (rotr 13 x) (rotr 22 x).
Definition big_sigma1 (x : Z) : Z := xor3 (rotr 6 x) (rotr 11 x) (rotr 25 x).
Definition small_sigma0 (x : Z) : Z := xor3 (rotr 7 x) (rotr 18 x) (Z.shiftr x 3).
Definition small_sigma1 (x : Z) : Z := xor3 (rotr 17 x) (rotr 19 x) (Z.shiftr x 10).
Definition sha_choose (x y z : Z) : Z := Z.lxor (Z.land x y) (Z.land (two32 - 1 - x) z).
Definition majority (x y z : Z) : Z := xor3 (Z.land x y) (Z.land x z) (Z.land y z).

Fixpoint big_endian (n : nat) (z : Z) : list Z :=
  match n with O => [] | S n' => z / 256 ^ Z.of_nat n' mod 256 :: big_endian n' z end.

Fixpoint be_words (bytes : list Z) : list Z :=
  match bytes with
  | a :: b :: c :: d :: rest => (((a * 256 + b) * 256 + c) * 256 + d) :: be_words rest
  | _ => []
  end.

(** ** The digest *)

Definition padded (msg : list Z) : list Z :=
  let n := Z.of_nat (length msg) in
  (msg ++ 128 :: replicate (Z.to_nat ((55 - n) mod 64)) 0 ++ big_endian 8 (wrap_u64 (8 * n)))%list.

(** The words of a block so far, the newest first. *)
Definition next_word (ws : list Z) : Z :=
  wrap_u32 (small_sigma1 (nth 1 ws 0) + nth 6 ws 0 + small_sigma0 (nth 14 ws 0) + nth 15 ws 0).

Fixpoint sha_schedule (n : nat) (ws : list Z) : list Z :=
  match n with O => rev ws | S n' => sha_schedule n' (next_word ws :: ws) end.

Record working := mkWorking { wa : Z; wb : Z; wc : Z; wd : Z; we : Z; wf : Z; wg : Z; wh : Z }.

Definition sha_round (s : working) (kw : Z * Z) : working :=
  let t1 := wh s + big_sigma1 (we s) + sha_choose (we s) (wf s) (wg s) + kw.1 + kw.2 in
  let t2 := big_sigma0 (wa s) + majority (wa s) (wb s) (wc s) in
  mkWorking (wrap_u32 (t1 + t2)) (wa s) (wb s) (wc s) (wrap_u32 (wd s + t1)) (we s) (wf s) (wg s).

Definition state_words (s : working) : list Z := [wa s; wb s; wc s; wd s; we s; wf s; wg s; wh s].

Definition working_of (h : list Z) : working :=
  mkWorking (nth 0 h 0) (nth 1 h 0) (nth 2 h 0) (nth 3 h 0) (nth 4 h 0) (nth 5 h 0) (nth 6 h 0) (nth 7 h 0).

Definition sha_block (h ws : list Z) : list Z :=
  let s := foldl sha_round (working_of h) (zip round_words (sha_schedule 48 (rev ws))) in
  zip_with (fun x y => wrap_u32 (x + y)) h (state_words s).

(** Sixteen words at a time; [fuel] is the number of blocks. *)
Fixpoint sha_blocks (fuel : nat) (h ws : list Z) : list Z :=
  match fuel, ws with S fuel', _ :: _ => sha_blocks fuel' (sha_block h (take 16 ws)) (drop 16 ws) | _, _ => h end.

Fixpoint bytes_of (s : string) : list Z := match s with "" => [] | String a s' => byte a :: bytes_of s' end.

Definition Sum256 (msg : string) : list Z :=
  let ws := be_words (padded (bytes_of msg)) in
  h ← sha_blocks (length ws) initial_words ws; big_endian 4 h.

(** [hex.EncodeToString] *)
Definition hex_byte (z : Z) : string := String (hex_digit (Z.shiftr z 4)) (String (hex_digit (Z.land z 15)) "").
Definition EncodeToString (bytes : list Z) : string := concat_str (hex_byte <$> bytes).

(** ** Lemmas *)

Lemma big_endian_length n z : length (big_endian n z) = n.
Proof. induction n; cbn; congruence. Qed.

Lemma big_endian_bytes n z : Forall (fun b => 0 <= b < 256) (big_endian n z).
Proof. induction n as [|n IH]; constructor; [|exact IH]. apply Z.mod_pos_bound. lia. Qed.

Lemma block_length h ws : length h = 8%nat -> length (sha_block h ws) = 8%nat.
Proof. intros Hh. unfold sha_block. rewrite length_zip_with, Hh. reflexivity. Qed.

Lemma blocks_length fuel h ws : length h = 8%nat -> length (sha_blocks fuel h ws) = 8%nat.
Proof.
  revert h ws. induction fuel as [|fuel IH]; intros h [|w ws] Hh; try done. cbn [sha_blocks]. by apply IH, block_length.
Qed.

(** A digest is 32 bytes. *)
Lemma Sum256_bytes msg : length (Sum256 msg) = 32%nat /\ Forall (fun b => 0 <= b < 256) (Sum256 msg).
Proof.
  unfold Sum256. set (h := sha_blocks _ _ _). assert (length h = 8%nat) as Hh by by apply blocks_length.
  split.
  - assert (forall l, length (l ≫= big_endian 4) = 4 * length l)%nat as H; [|by rewrite H, Hh].
    induction l as [|x l IH]; [done|]. cbn [mbind list_bind]. rewrite length_app, big_endian_length, IH. cbn. lia.
  - apply list.Forall_forall. intros b (x & Hb & _)%list_elem_of_bind.
    exact (proj1 (list.Forall_forall _ _) (big_endian_bytes 4 x) b Hb).
Qed.

Lemma EncodeToString_length bs : String.length (EncodeToString bs) = (2 * length bs)%nat.
Proof. induction bs as [|b bs IH]; [done|]. unfold EncodeToString in *. cbn [fmap list_fmap concat_str]. rewrite str_length_app, IH. cbn. lia. Qed.

(** The examples of FIPS 180: no block boundary, the empty message, and a
    message whose padding needs a second block. *)
Example sha256_abc : EncodeToString (Sum256 "abc") = "ba7816bf8f01cfea414140de5dae2223b00361a396177a9cb410ff61f20015ad".
Proof. vm_compute. reflexivity. Qed.

Example sha256_empty : EncodeToString (Sum256 "") = "e3b0c44298fc1c149afbf4c8996fb92427ae41e4649b934ca495991b7852b855".
Proof. vm_compute. reflexivity. Qed.

Example sha256_two_blocks :
  EncodeToString (Sum256 "abcdbcdecdefdefgefghfghighijhijkijkljklmklmnlmnomnopnopq") =
    "248d6a61d20638b8e5c026930c3e6039a33ce45964ff2167f6ecedd419db06c1".
Proof. vm_compute. reflexivity. Qed.
