(* ===== verification/JsonDecode.v ===== *)
(** * Decoding documents into Go values (encoding/json)

    [Unmarshal] walks a document and stores into a value that may already hold
    something: null leaves scalars alone and clears pointers and slices, an
    object stores the members whose key names a field, exactly or up to case,
    one after the other, and a slice reuses the elements it has.  A decoder is
    a function from the old value and the document to the new value; [None]
    is an error, after which no caller of the program looks at the value. *)

From Stdlib Require Import Ascii.
From stdpp Require Import pretty.
From S2P Require Import Prelude GoStrings GoFormat Json.

Abbreviation decoder A := (A -> doc -> option A).

(** ** Numbers *)

Fixpoint decimal (acc : Z) (s : string) : Z :=
  match s with "" => acc | String a s' => decimal (10 * acc + (byte a - 48)) s' end.

(** [strconv.ParseInt(lit, 10, 64)] on the literal of a JSON number, before
    the range check. *)
Definition int_literal (lit : string) : option Z :=
  let '(sg, r) := sign "-" lit in
  let '(d, rest) := digits r in
  if String.eqb d "" || negb (String.eqb rest "") then None
  else Some (if String.eqb sg "" then decimal 0 d else - decimal 0 d).

Definition dec_int (lo hi : Z) : decoder Z := fun old d =>
  match d with
  | DNull => Some old
  | DNum lit =>
      match int_literal lit with
      | Some z => if (lo <=? z) && (z <=? hi) then Some z else None
      | None => None
      end
  | _ => None
  end.

Definition dec_int32 : decoder Z := dec_int (- 2 ^ 31) (2 ^ 31 - 1).
Definition dec_int64 : decoder Z := dec_int (- two63) (two63 - 1).

(** [ParseUint] refuses a sign. *)
Definition dec_uint (hi : Z) : decoder Z := fun old d =>
  match d with
  | DNum (String "-" _) => None
  | _ => dec_int 0 hi old d
  end.

Definition dec_uint32 : decoder Z := dec_uint (two32 - 1).
Definition dec_uint64 : decoder Z := dec_uint (two64 - 1).

(** ** Strings, booleans, pointers *)

Definition dec_string : decoder string := fun old d =>
  match d with DNull => Some old | DStr s => Some s | _ => None end.

Definition dec_bool : decoder bool := fun old d =>
  match d with DNull => Some old | DBool b => Some b | _ => None end.

Definition dec_ptr {A} (zero : A) (dec : decoder A) : decoder (option A) := fun old d =>
  match d with
  | DNull => Some None
  | _ => match dec (default zero old) d with Some a => Some (Some a) | None => None end
  end.

(** ** Slices

    A slice with its backing array: the elements beyond the length keep what
    they held. *)
Record slice (A : Type) := mkSlice { backing : list A; len : nat }.
Arguments mkSlice {A} _ _.
Arguments backing {A} _.
Arguments len {A} _.

Definition contents {A} (s : slice A) : list A := take (len s) (backing s).

Definition nil_slice {A} : slice A := mkSlice [] 0.

Fixpoint dec_elements {A} (zero : A) (dec : decoder A) (old : list A) (l : list doc) : option (list A) :=
  match l with
  | [] => Some old
  | d :: l' =>
      match dec (default zero (head old)) d with
      | None => None
      | Some a => match dec_elements zero dec (tail old) l' with Some r => Some (a :: r) | None => None end
      end
  end.

Definition dec_slice {A} (zero : A) (dec : decoder A) : decoder (slice A) := fun old d =>
  match d with
  | DNull | DArr [] => Some nil_slice
  | DArr l => match dec_elements zero dec (backing old) l with Some r => Some (mkSlice r (length l)) | None => None end
  | _ => None
  end.

(** ** Structs *)

(** [foldName] as far as it can meet the ASCII names of fields: letters by
    case, the long s and the Kelvin sign. *)
Definition fold_rune (u : rune) : string :=
  match u with
  | U1 a => String (upper_byte a) ""
  | U2 a b => if (byte a =? 0xC5) && (byte b =? 0xBF) then "S" else raw u
  | U3 a b c => if (byte a =? 0xE2) && (byte b =? 0x84) && (byte c =? 0xAA) then "K" else raw u
  | _ => raw u
  end.

Definition fold_name (s : string) : string := concat_str (fold_rune <$> runes s).

Definition field_is (name key : string) : bool := String.eqb key name || String.eqb (fold_name key) (fold_name name).

(** The fields of a struct: names and how a member is stored. *)
Abbreviation fields A := (list (string * decoder A)).

Fixpoint find_field {A} (fs : fields A) (key : string) : option (decoder A) :=
  match fs with
  | [] => None
  | (name, dec) :: fs' => if field_is name key then Some dec else find_field fs' key
  end.

(** Members that name no field are skipped. *)
Definition dec_member {A} (fs : fields A) (old : A) (kv : string * doc) : option A :=
  match find_field fs kv.1 with Some dec => dec old kv.2 | None => Some old end.

Fixpoint dec_members {A} (fs : fields A) (old : A) (ms : list (string * doc)) : option A :=
  match ms with
  | [] => Some old
  | kv :: ms' => match dec_member fs old kv with Some a => dec_members fs a ms' | None => None end
  end.

Definition dec_struct {A} (fs : fields A) : decoder A := fun old d =>
  match d with DNull => Some old | DObj ms => dec_members fs old ms | _ => None end.

(** A member with omitempty. *)
Definition omit (empty : bool) (k : string) (d : doc) : list (string * doc) := if empty then [] else [(k, d)].

(** [json.Unmarshal] into a fresh value. *)
Definition unmarshal_into {A} (zero : A) (dec : decoder A) (s : string) : option A :=
  match parse s with Some d => dec zero d | None => None end.

(** gin's ShouldBindJSON, a [json.Decoder]: the first value of the body; what follows is not read. *)
Definition first_value (body : string) : option doc :=
  option_map fst (value (2 * String.length body + 2) max_nesting body).

(** A [map[string]string] keeps the members it does not read. *)
Fixpoint dec_entries (m : gmap string string) (ms : list (string * doc)) : option (gmap string string) :=
  match ms with
  | [] => Some m
  | (k, d) :: ms' => match dec_string "" d with Some v => dec_entries (<[k := v]> m) ms' | None => None end
  end.

Definition dec_map : decoder (option (gmap string string)) := fun old d =>
  match d with
  | DNull => Some None
  | DObj ms => match dec_entries (default ∅ old) ms with Some m => Some (Some m) | None => None end
  | _ => None
  end.

(** ** Lemmas *)

Lemma decimal_app acc s t : decimal acc (s ++ t) = decimal (decimal acc s) t.
Proof. revert acc. induction s as [|a s IH]; intros acc; [done|]. cbn. apply IH. Qed.

Lemma digit_value x : (x < 10)%N -> byte (pretty_N_char x) - 48 = Z.of_N x.
Proof.
  intros Hx. assert (x = 0 \/ x = 1 \/ x = 2 \/ x = 3 \/ x = 4 \/ x = 5 \/ x = 6 \/ x = 7 \/ x = 8 \/ x = 9)%N as H by lia.
  repeat destruct H as [->|H]; [..|subst]; reflexivity.
Qed.

Lemma decimal_pretty_go x s : decimal 0 (pretty_N_go x s) = decimal (Z.of_N x) s.
Proof.
  revert s. induction (N.lt_wf_0 x) as [x _ IH]; intros s. destruct (decide (x = 0%N)) as [->|Hx]; [by rewrite pretty_N_go_0|].
  rewrite pretty_N_go_step by lia. rewrite IH by (apply N.div_lt; lia). cbn [decimal].
  rewrite digit_value by (apply N.mod_lt; done). f_equal. pose proof (N.div_mod x 10 ltac:(done)). lia.
Qed.

Lemma int_literal_natural sg p : (sg = "" \/ sg = "-") ->
  int_literal (sg ++ pretty (N.pos p)) = Some (if String.eqb sg "" then Z.pos p else Z.neg p).
Proof.
  intros Hs. destruct (natural_ok p "" eq_refl) as (c & ds & E & Hc & _).
  assert (sign "-" (sg ++ pretty (N.pos p)) = (sg, pretty (N.pos p))) as Hsign.
  { destruct Hs as [-> | ->]; [|done]. rewrite E. cbn [String.append sign]. by rewrite is_digit_not_minus. }
  unfold int_literal. rewrite Hsign.
  assert (digits (pretty (N.pos p)) = (pretty (N.pos p), "")) as ->.
  { rewrite <- (str_app_nil_r (pretty (N.pos p))) at 1. apply digits_app; [apply natural_digits|done]. }
  assert (decimal 0 (pretty (N.pos p)) = Z.pos p) as ->.
  { unfold pretty, pretty_N. case_decide; [done|]. by rewrite decimal_pretty_go. }
  rewrite E. by destruct Hs as [-> | ->].
Qed.

Lemma int_literal_Itoa z : int_literal (Itoa z) = Some z.
Proof.
  unfold Itoa. destruct z as [|p|p]; [done| |].
  - exact (int_literal_natural "" p (or_introl eq_refl)).
  - exact (int_literal_natural "-" p (or_intror eq_refl)).
Qed.

Lemma dec_int_DInt lo hi old z : lo <= z <= hi -> dec_int lo hi old (DInt z) = Some z.
Proof.
  intros Hz. cbn. rewrite int_literal_Itoa.
  by rewrite (proj2 (Z.leb_le lo z)), (proj2 (Z.leb_le z hi)) by lia.
Qed.

Lemma dec_int64_DInt old z : in_i64 z -> dec_int64 old (DInt z) = Some z.
Proof. unfold in_i64. intros Hz. apply dec_int_DInt. lia. Qed.

Lemma dec_uint_DInt hi old z : 0 <= z <= hi -> dec_uint hi old (DInt z) = Some z.
Proof.
  intros Hz. rewrite <- (dec_int_DInt 0 hi old z) by lia. unfold dec_uint, DInt.
  pose proof (Itoa_no_minus z ltac:(lia)) as Hm. destruct (Itoa z) as [|a s] eqn:E; [done|].
  apply no_byte_cons in Hm as [Hm _]. destruct a as [[] [] [] [] [] [] [] []]; try reflexivity. by destruct Hm.
Qed.

Lemma dec_uint64_DInt old z : in_u64 z -> dec_uint64 old (DInt z) = Some z.
Proof. unfold in_u64. intros Hz. apply dec_uint_DInt. lia. Qed.

Lemma dec_uint32_DInt old z : 0 <= z < two32 -> dec_uint32 old (DInt z) = Some z.
Proof. intros Hz. apply dec_uint_DInt. lia. Qed.

(** Elements that are each read as [f] of them, into fresh elements. *)
Lemma dec_elements_fresh {A B} (zero : A) (dec : decoder A) (enc : B -> doc) (f : B -> A) l :
  (forall b, b ∈ l -> dec zero (enc b) = Some (f b)) ->
  dec_elements zero dec [] (enc <$> l) = Some (f <$> l).
Proof.
  induction l as [|b l IH]; intros H; [done|]. cbn. rewrite (H b) by set_solver.
  rewrite IH by set_solver. done.
Qed.

Lemma dec_slice_fresh {A B} (zero : A) (dec : decoder A) (enc : B -> doc) (f : B -> A) l :
  (forall b, b ∈ l -> dec zero (enc b) = Some (f b)) ->
  exists s, dec_slice zero dec nil_slice (DArr (enc <$> l)) = Some s /\ contents s = f <$> l.
Proof.
  intros H. destruct l as [|b l]; [by exists nil_slice|].
  pose proof (dec_elements_fresh zero dec enc f (b :: l) H) as E. cbn [dec_slice nil_slice backing].
  cbn [fmap list_fmap] in *. rewrite E. eexists. split; [reflexivity|]. unfold contents. cbn [backing len].
  apply take_ge. cbn. by rewrite !length_fmap.
Qed.

(** Reading members one at a time. *)
Lemma dec_members_skip {A} (fs : fields A) old k d ms :
  find_field fs k = None -> dec_members fs old ((k, d) :: ms) = dec_members fs old ms.
Proof. intros E. cbn [dec_members]. unfold dec_member. cbn [fst snd]. by rewrite E. Qed.

Lemma dec_members_field {A} (fs : fields A) old k d ms dec a :
  find_field fs k = Some dec -> dec old d = Some a -> dec_members fs old ((k, d) :: ms) = dec_members fs a ms.
Proof. intros E Ea. cbn [dec_members]. unfold dec_member. cbn [fst snd]. by rewrite E, Ea. Qed.

(** A member that may have been left out. *)
Lemma dec_members_omit {A} (fs : fields A) old (empty : bool) k d ms dec a :
  find_field fs k = Some dec -> (if empty then a = old else dec old d = Some a) ->
  dec_members fs old (omit empty k d ++ ms)%list = dec_members fs a ms.
Proof. intros E Ha. destruct empty; cbn [omit app]; [by subst|]. by eapply dec_members_field. Qed.

(** The fields of the struct one after the other. *)
Ltac read_member fs := erewrite (dec_members_field fs); [|reflexivity|].

Lemma first_value_print d : numbers_ok d -> nesting d <= max_nesting -> first_value (print d) = Some (repaired d).
Proof.
  intros Hok Hn. unfold first_value. rewrite <- (str_app_nil_r (print d)) at 2.
  by rewrite (value_print d) by (done || lia).
Qed.

(** *** What is read is valid *)

Fixpoint valid_doc (d : doc) : Prop :=
  match d with
  | DStr s => valid_utf8 s
  | DArr l => foldr (fun x acc => valid_doc x /\ acc) True l
  | DObj l => foldr (fun kv acc => (valid_utf8 kv.1 /\ valid_doc kv.2) /\ acc) True l
  | _ => True
  end.

Lemma string_tail_valid s t r : string_tail s = Some (t, r) -> valid_utf8 t.
Proof.
  unfold string_tail. destruct (pieces _ s) as [[p rest]|]; [|done]. intros [= <- _]. apply sanitize_valid.
Qed.

Lemma literal_inv word d s d' r : literal word d s = Some (d', r) -> d' = d.
Proof. unfold literal. case_if; [by intros [= <- _]|done]. Qed.

Lemma read_valid n :
  (forall depth s d r, value n depth s = Some (d, r) -> valid_doc d) /\
  (forall depth s l r, elements n depth s = Some (l, r) -> valid_doc (DArr l)) /\
  (forall depth s l r, members n depth s = Some (l, r) -> valid_doc (DObj l)).
Proof.
  induction n as [|n (IHv & IHe & IHm)]; [done|]. split_and!.
  - intros depth s d r. cbn [value]. destruct (skip_ws s) as [|a r0]; [done|].
    destruct (Ascii.eqb a "{"); [|destruct (Ascii.eqb a "["); [|destruct (Ascii.eqb a dquote); [|destruct (Ascii.eqb a "t");
      [|destruct (Ascii.eqb a "f"); [|destruct (Ascii.eqb a "n")]]]]].
    + destruct (depth <=? 0); [done|]. destruct (skip_ws r0) as [|c r']; [done|].
      destruct (Ascii.eqb c "}"); [by intros [= <- _]|].
      destruct (members n (depth - 1) r0) as [[ms r1]|] eqn:E; [|done]. intros [= <- _]. by eapply IHm.
    + destruct (depth <=? 0); [done|]. destruct (skip_ws r0) as [|c r']; [done|].
      destruct (Ascii.eqb c "]"); [by intros [= <- _]|].
      destruct (elements n (depth - 1) r0) as [[vs r1]|] eqn:E; [|done]. intros [= <- _]. by eapply IHe.
    + destruct (string_tail r0) as [[t r1]|] eqn:E; [|done]. intros [= <- _]. by eapply string_tail_valid.
    + by intros ->%literal_inv.
    + by intros ->%literal_inv.
    + by intros ->%literal_inv.
    + destruct (number _) as [[lit r1]|]; [|done]. by intros [= <- _].
  - intros depth s l r. cbn [elements]. destruct (value n depth s) as [[v r1]|] eqn:Ev; [|done]. apply IHv in Ev.
    destruct (skip_ws r1) as [|c r']; [done|]. case_if.
    + destruct (elements n depth r') as [[vs r2]|] eqn:E; [|done]. intros [= <- _]. split; [done|]. by eapply (IHe depth r' vs r2).
    + case_if; [|done]. by intros [= <- _].
  - intros depth s l r. cbn [members]. destruct (skip_ws s) as [|q r0]; [done|]. case_if; [done|].
    destruct (string_tail r0) as [[key r1]|] eqn:Ek; [|done]. apply string_tail_valid in Ek.
    destruct (skip_ws r1) as [|col r2]; [done|]. case_if; [done|].
    destruct (value n depth r2) as [[v r3]|] eqn:Ev; [|done]. apply IHv in Ev.
    destruct (skip_ws r3) as [|c r']; [done|]. case_if.
    + destruct (members n depth r') as [[ms r4]|] eqn:E; [|done]. intros [= <- _]. split; [done|]. by eapply (IHm depth r' ms r4).
    + case_if; [|done]. by intros [= <- _].
Qed.

Lemma first_value_valid body d : first_value body = Some d -> valid_doc d.
Proof.
  unfold first_value. destruct (value _ _ body) as [[d' r]|] eqn:E; [|done]. intros [= <-]. by eapply (proj1 (read_valid _)).
Qed.

Lemma parse_valid s d : parse s = Some d -> valid_doc d.
Proof.
  unfold parse. destruct (value _ _ s) as [[d' r]|] eqn:E; [|done]. case_if; [|done]. intros [= <-].
  by eapply (proj1 (read_valid _)).
Qed.

(** An invariant of a struct that every field keeps holds of what is read. *)
Lemma dec_members_inv {A} (I : A -> Prop) (fs : fields A) :
  (forall name dec old d a, (name, dec) ∈ fs -> I old -> valid_doc d -> dec old d = Some a -> I a) ->
  forall ms old a, I old -> valid_doc (DObj ms) -> dec_members fs old ms = Some a -> I a.
Proof.
  intros Hf. induction ms as [|[k d] ms IH]; intros old a Ho Hv; [by intros [= <-]|].
  destruct Hv as [[_ Hd] Hv]. cbn [dec_members]. destruct (dec_member fs old (k, d)) as [a'|] eqn:E; [|done].
  apply IH; [|done]. unfold dec_member in E. cbn [fst snd] in E. destruct (find_field fs k) as [dec|] eqn:Ef; [|by simplify_eq].
  assert (exists name, (name, dec) ∈ fs) as [name Hin].
  { clear -Ef. induction fs as [|[name dec'] fs IH]; [done|]. cbn [find_field] in Ef. destruct (field_is name k).
    - exists name. simplify_eq. set_solver.
    - destruct IH as [name' Hin]; [done|]. exists name'. set_solver. }
  by eapply Hf.
Qed.

Lemma dec_struct_inv {A} (I : A -> Prop) (fs : fields A) zero d a :
  (forall name dec old d a, (name, dec) ∈ fs -> I old -> valid_doc d -> dec old d = Some a -> I a) ->
  I zero -> valid_doc d -> dec_struct fs zero d = Some a -> I a.
Proof.
  intros Hf H0 Hd. destruct d; try done; [by intros [= <-]|]. cbn [dec_struct]. by apply (dec_members_inv I).
Qed.

Lemma dec_string_valid old d s : valid_utf8 old -> valid_doc d -> dec_string old d = Some s -> valid_utf8 s.
Proof. intros Ho Hd. destruct d; cbn; try done; by intros [= <-]. Qed.
