(* ===== verification/Strconv.v ===== *)
(** * Floats as text (strconv.ParseFloat, strconv.FormatFloat, the verb %.nf)

    [ParseFloat] takes decimal and hexadecimal literals, underscores between
    digits, infinities and NaN; [FormatFloat] writes the shortest decimal that
    reads back, or a given number of decimals.  The theorems show that what is
    written is read back as the same float, and how far a number of decimals
    is from the value. *)

From Stdlib Require Import Ascii.
From stdpp Require Import pretty.
From S2P Require Import Prelude Float64 Rounding FloatRange Decimal GoStrings GoFormat Json JsonDecode.

(** ** Reading *)

(** [c | 0x20], compared with a letter *)
Definition is_letter (l : ascii) (c : ascii) : bool := Z.lor (byte c) 0x20 =? byte l.

Definition digit_of (hex : bool) (c : ascii) : option Z :=
  if is_digit c then Some (byte c - 48)
  else
    let l := Z.lor (byte c) 0x20 in
    if hex && (97 <=? l) && (l <=? 102) then Some (l - 87) else None.

(** What [readFloat] has read of the mantissa: the point, whether a digit and
    an underscore were seen, the digits as a number, how many after the point. *)
Record mantissa := mkMantissa { mn_dot : bool; mn_digits : bool; mn_under : bool; mn_value : Z; mn_frac : Z }.

Fixpoint read_mantissa (hex : bool) (st : mantissa) (s : string) : mantissa * string :=
  match s with
  | "" => (st, "")
  | String c r =>
      if Ascii.eqb c "_" then read_mantissa hex (mkMantissa (mn_dot st) (mn_digits st) true (mn_value st) (mn_frac st)) r
      else if Ascii.eqb c "." then
        if mn_dot st then (st, s)
        else read_mantissa hex (mkMantissa true (mn_digits st) (mn_under st) (mn_value st) (mn_frac st)) r
      else
        match digit_of hex c with
        | Some d => read_mantissa hex (mkMantissa (mn_dot st) true (mn_under st) ((if hex then 16 else 10) * mn_value st + d)
                                         (if mn_dot st then mn_frac st + 1 else mn_frac st)) r
        | None => (st, s)
        end
  end.

(** Exponents stop growing at five digits. *)
Fixpoint read_exponent (e : Z) (under : bool) (s : string) : Z * bool * string :=
  match s with
  | "" => (e, under, "")
  | String c r =>
      if Ascii.eqb c "_" then read_exponent e true r
      else if is_digit c then read_exponent (if e <? 10000 then 10 * e + (byte c - 48) else e) under r
      else (e, under, s)
  end.

Inductive saw : Type := SawStart | SawDigit | SawUnderscore | SawOther.

Fixpoint underscores (hex : bool) (w : saw) (s : string) : bool :=
  match s with
  | "" => match w with SawUnderscore => false | _ => true end
  | String c r =>
      if bool_decide (is_Some (digit_of hex c)) then underscores hex SawDigit r
      else if Ascii.eqb c "_" then match w with SawDigit => underscores hex SawUnderscore r | _ => false end
      else match w with SawUnderscore => false | _ => underscores hex SawOther r end
  end.

Definition underscoreOK (s : string) : bool :=
  let '(_, s) := sign "+-" s in
  match s with
  | String "0" (String x r) =>
      if is_letter "x" x then underscores true SawDigit r
      else if is_letter "b" x || is_letter "o" x then underscores false SawDigit r
      else underscores false SawStart s
  | _ => underscores false SawStart s
  end.

(** [readFloat] on the whole string: the sign, whether the number is
    hexadecimal, its digits and its exponent (of ten or of two). *)
Definition hex_prefix (s : string) : bool * string :=
  match s with
  | String "0" (String x (String a r)) => if is_letter "x" x then (true, String a r) else (false, s)
  | _ => (false, s)
  end.

Definition read_float (s : string) : option (bool * bool * Z * Z) :=
  let '(sg, r) := sign "+-" s in
  let '(hex, r) := hex_prefix r in
  let '(st, r) := read_mantissa hex (mkMantissa false false false 0 0) r in
  if mn_digits st then
    let frac := if hex then 4 * mn_frac st else mn_frac st in
    let whole e under r :=
      if String.eqb r "" && (negb (mn_under st || under) || underscoreOK s)
      then Some (String.eqb sg "-", hex, mn_value st, e - frac) else None in
    match r with
    | String c r' =>
        if is_letter (if hex then "p" else "e")%char c then
          let '(esg, r') := sign "+-" r' in
          match r' with
          | String d _ => if is_digit d then
                            let '(e, under, r') := read_exponent 0 false r' in
                            whole (if String.eqb esg "-" then - e else e) under r'
                          else None
          | "" => None
          end
        else None
    | "" => if hex then None else whole 0 false ""
    end
  else None.

(** [special]: infinities with a sign or without, NaN without. *)
Definition special (s : string) : option spec_float :=
  let '(sg, r) := sign "+-" s in
  let r := str_map lower_byte r in
  if String.eqb r "inf" || String.eqb r "infinity" then Some (S754_infinity (String.eqb sg "-"))
  else if String.eqb sg "" && String.eqb r "nan" then Some S754_nan
  else None.

(** The value, when there is no error: a number out of range is one. *)
Definition parse_float (prec emax : Z) (s : string) : option spec_float :=
  match special s with
  | Some f => Some f
  | None =>
      match read_float s with
      | Some (neg, hex, n, e) =>
          match (if hex then binary_normalize prec emax (sg neg n) e neg else round_decimal prec emax neg n e) with
          | S754_infinity _ | S754_nan => None
          | f => Some f
          end
      | None => None
      end
  end.

Definition ParseFloat (s : string) : option float64 := parse_float 53 1024 s.

(** ** Writing *)

(** [n] in [w] digits. *)
Fixpoint pad (w : nat) (n : Z) : string :=
  match w with
  | O => ""
  | S w' => String (of_byte (48 + n / 10 ^ Z.of_nat w' mod 10)) (pad w' n)
  end.

Definition sign_text (s : bool) : string := if s then "-" else "".

(** A literal: sign, digits, decimals if there are any, and an exponent. *)
Definition exponent_text (e : option (bool * string)) : string :=
  match e with None => "" | Some (neg, ds) => String "e" ((if neg then "-" else "+") ++ ds) end.

Definition numeral (s : bool) (i f : string) (e : option (bool * string)) : string :=
  sign_text s ++ i ++ (if String.eqb f "" then "" else String "." f) ++ exponent_text e.

(** c * 10^-p with [p] decimals *)
Definition decimals (s : bool) (c : Z) (p : nat) : string := numeral s (Itoa (c / 10 ^ Z.of_nat p)) (pad p c) None.

Definition plain (s : bool) (c q : Z) : string :=
  if 0 <=? q then decimals s (c * 10 ^ q) 0 else decimals s c (Z.to_nat (- q)).

Definition scientific (s : bool) (c q : Z) : string :=
  match Itoa c with
  | String d rest => let e := q + str_len rest in numeral s (String d "") rest (Some (e <? 0, Itoa (Z.abs e)))
  | "" => ""
  end.

Definition not_finite (x : spec_float) : string :=
  match x with S754_infinity true => "-Inf" | S754_infinity false => "+Inf" | _ => "NaN" end.

(** [strconv.FormatFloat(x, 'f', -1, 64)] *)
Definition FormatFloat (x : float64) : string :=
  match x with
  | S754_zero s => sign_text s ++ "0"
  | S754_finite s m e => let '(c, q) := shortest 53 1024 m e in plain s c q
  | _ => not_finite x
  end.

(** [fmt.Sprintf("%.nf", x)]: the units of the last decimal, rounded half to
    even. *)
Definition fixed_units (p : nat) (m : positive) (e : Z) : Z := rne (Z.pos m * over 2 e * 10 ^ Z.of_nat p) (under 2 e).

Definition Sprintf_f (p : nat) (x : float64) : string :=
  match x with
  | S754_zero s => decimals s 0 p
  | S754_finite s m e => decimals s (fixed_units p m e) p
  | _ => not_finite x
  end.

(** A float as encoding/json writes it, of either width. *)
Definition json_text (prec emax : Z) (x : spec_float) : string :=
  match x with
  | S754_finite s m e =>
      let abs := S754_finite false m e in
      let '(c, q) := shortest prec emax m e in
      if SFltb abs (round_decimal prec emax false 1 (-6)) || SFleb (round_decimal prec emax false 1 21) abs
      then scientific s c q else plain s c q
  | S754_zero s => sign_text s ++ "0"
  | _ => ""
  end.

Example format_examples :
  FormatFloat (flit 1 10) = "0.1" /\ Sprintf_f 4 (flit 125 100) = "1.2500" /\ Sprintf_f 0 (flit 5 2) = "2" /\ Sprintf_f 2 (flit (-1) 1000) = "-0.00" /\
  json_text 53 1024 (round_decimal 53 1024 false 1 23) = "1e+23" /\ json_text 53 1024 (S754_finite true 1 (-1074)) = "-5e-324" /\
  json_text 53 1024 (flit 25 10) = "2.5" /\ json_text 24 128 (round_decimal 24 128 false 7 (-1)) = "0.7".
Proof. vm_compute. by repeat split. Qed.

Example parse_examples :
  ParseFloat "1_000.5" = Some (flit 2001 2) /\ ParseFloat "0x1p-2" = Some (flit 1 4) /\ ParseFloat "-Inf" = Some (S754_infinity true) /\
  ParseFloat ".5" = Some (flit 1 2) /\ ParseFloat "1__0" = None /\ ParseFloat "1e999" = None /\ ParseFloat "" = None /\ ParseFloat "5e" = None /\ ParseFloat "0x1" = None.
Proof. vm_compute. by repeat split. Qed.

(** ** Lemmas *)

(** *** Digits *)

Ltac by_bytes c := destruct c as [[] [] [] [] [] [] [] []]; first [reflexivity | discriminate | done].

Lemma digit_plain c : is_digit c = true ->
  Ascii.eqb c "_" = false /\ Ascii.eqb c "." = false /\ digit_of false c = Some (byte c - 48) /\ Contains "+-" (String c "") = false /\ lower_byte c = c.
Proof. intros Hc. unfold digit_of. rewrite Hc. split_and!; try done; revert Hc; by_bytes c. Qed.

Lemma read_mantissa_digits st ds rest : str_forall is_digit ds = true ->
  read_mantissa false st (ds ++ rest) =
    read_mantissa false (mkMantissa (mn_dot st) (mn_digits st || negb (String.eqb ds "")) (mn_under st) (decimal (mn_value st) ds)
      (if mn_dot st then mn_frac st + str_len ds else mn_frac st)) rest.
Proof.
  revert st. induction ds as [|c ds IH]; intros st Hd; cbn [String.append].
  - destruct st as [dot dg un v fr]. cbn. rewrite orb_false_r. by destruct dot; rewrite ?Z.add_0_r.
  - cbn [str_forall] in Hd. apply andb_true_iff in Hd as [Hc Hd]. destruct (digit_plain c Hc) as (E1 & E2 & E3 & _).
    cbn [read_mantissa]. rewrite E1, E2, E3, IH by done. f_equal. cbn [mn_dot mn_digits mn_under mn_value mn_frac decimal str_len String.length].
    rewrite orb_true_r. f_equal. unfold str_len. cbn [String.length]. destruct (mn_dot st); lia.
Qed.

Lemma decimal_grows acc ds : 0 <= acc -> str_forall is_digit ds = true -> acc <= decimal acc ds.
Proof.
  revert acc. induction ds as [|c ds IH]; intros acc Ha Hd; cbn [decimal str_forall] in *; [lia|]. apply andb_true_iff in Hd as [Hc Hd].
  apply between_spec in Hc. specialize (IH (10 * acc + (byte c - 48)) ltac:(lia) Hd). lia.
Qed.

Lemma read_exponent_digits e under ds : 0 <= e -> str_forall is_digit ds = true -> decimal e ds < 100000 ->
  read_exponent e under ds = (decimal e ds, under, "").
Proof.
  revert e. induction ds as [|c ds IH]; intros e He Hd Hlt; cbn [read_exponent decimal str_forall] in *; [done|].
  apply andb_true_iff in Hd as [Hc Hd]. destruct (digit_plain c Hc) as (-> & _). rewrite Hc. apply between_spec in Hc.
  pose proof (decimal_grows (10 * e + (byte c - 48)) ds ltac:(lia) Hd). rewrite (proj2 (Z.ltb_lt e 10000)) by lia. apply IH; lia || done.
Qed.

(** *** Literals *)

Definition exponent_ok (e : option (bool * string)) : Prop :=
  match e with None => True | Some (_, ds) => ds <> "" /\ str_forall is_digit ds = true /\ decimal 0 ds < 100000 end.

Definition exponent_value (e : option (bool * string)) : Z :=
  match e with None => 0 | Some (neg, ds) => if neg : bool then - decimal 0 ds else decimal 0 ds end.

Lemma sign_digits signs (s : bool) c rest : is_digit c = true -> (forall a, is_digit a = true -> Contains signs (String a "") = false) -> Contains signs "-" = true ->
  sign signs (sign_text s ++ String c rest) = (sign_text s, String c rest).
Proof. intros Hc Hs Hm. destruct s; cbn [sign_text String.append sign]; [by rewrite Hm|by rewrite Hs]. Qed.

Lemma digit_no_sign c : is_digit c = true -> Contains "+-" (String c "") = false.
Proof. by_bytes c. Qed.

(** What can follow the first digit of a literal. *)
Definition after_digit (t : string) : bool :=
  match t with String a _ => is_digit a || Ascii.eqb a "." || Ascii.eqb a "e" | "" => true end.

Lemma hex_prefix_none c t : is_digit c = true -> after_digit t = true -> hex_prefix (String c t) = (false, String c t).
Proof.
  intros Hc Ht. destruct t as [|x [|a r]]; try (revert Hc; by_bytes c).
  assert (is_letter "x" x = false) as Ex by (revert Ht; cbn [after_digit]; by_bytes x).
  destruct c as [[] [] [] [] [] [] [] []]; cbn [hex_prefix]; try reflexivity. by rewrite Ex.
Qed.

Lemma special_digit s c rest : is_digit c = true -> special (sign_text s ++ String c rest) = None.
Proof.
  intros Hc. unfold special. rewrite sign_digits by (done || apply digit_no_sign || reflexivity).
  cbn [str_map]. destruct (digit_plain c Hc) as (_ & _ & _ & _ & ->).
  destruct s; cbn [sign_text String.eqb andb]; destruct c as [[] [] [] [] [] [] [] []]; first [reflexivity|discriminate].
Qed.

Definition digits_ok (ds : string) : Prop := ds <> "" /\ str_forall is_digit ds = true.

Lemma read_float_numeral s i f e : digits_ok i -> str_forall is_digit f = true -> exponent_ok e ->
  read_float (numeral s i f e) = Some (s, false, decimal 0 (i ++ f), exponent_value e - str_len f).
Proof.
  intros [Hi0 Hi] Hf He. destruct i as [|c i]; [done|]. pose proof Hi as Hci. cbn [str_forall] in Hci. apply andb_true_iff in Hci as [Hc _].
  set (tail := (if String.eqb f "" then "" else String "." f) ++ exponent_text e).
  assert (numeral s (String c i) f e = sign_text s ++ String c (i ++ tail)) as En by done.
  unfold read_float. rewrite En at 1. rewrite sign_digits by (done || apply digit_no_sign || reflexivity).
  assert (after_digit (i ++ tail) = true) as Ha.
  { destruct i as [|a i]; cbn [String.append after_digit].
    - subst tail. destruct f as [|a f]; [|done]. cbn [String.eqb String.append]. by destruct e as [[[] ds]|].
    - cbn [str_forall] in Hi. apply andb_true_iff in Hi as [_ Hi]. apply andb_true_iff in Hi as [-> _]. done. }
  rewrite hex_prefix_none by done. change (String c (i ++ tail)) with (String c i ++ tail).
  rewrite read_mantissa_digits by done. cbn [mn_dot mn_digits mn_under mn_value mn_frac orb negb String.eqb].
  assert (exists st, read_mantissa false (mkMantissa false true false (decimal 0 (String c i)) 0) tail = (st, exponent_text e) /\
    mn_digits st = true /\ mn_under st = false /\ mn_value st = decimal 0 (String c i ++ f) /\ mn_frac st = str_len f) as (st & -> & Hd & Hu & Hv & Hfr).
  { subst tail. destruct f as [|a f].
    - cbn [String.eqb String.append]. rewrite str_app_nil_r. eexists. split; [by destruct e as [[[] ds]|]|]. done.
    - cbn [String.eqb]. change (String "." (String a f) ++ exponent_text e) with (String "." (String a f ++ exponent_text e)).
      cbn [read_mantissa]. change (Ascii.eqb "." "_") with false. change (Ascii.eqb "." ".") with true. cbn iota. cbn [mn_dot mn_digits mn_under mn_value mn_frac].
      rewrite read_mantissa_digits by done. eexists. split; [by destruct e as [[[] ds]|]|].
      cbn [mn_dot mn_digits mn_under mn_value mn_frac]. rewrite decimal_app. split_and!; try done. }
  rewrite Hd, Hu, Hv, Hfr. cbn [orb].
  assert (String.eqb (sign_text s) "-" = s) as -> by by destruct s.
  destruct e as [[neg ds]|]; [|done]. destruct He as (Hne & Hds & Hlt). destruct ds as [|a ds]; [done|].
  pose proof Hds as Had. cbn [str_forall] in Had. apply andb_true_iff in Had as [Had _].
  cbn [exponent_text String.append]. change (is_letter "e" "e") with true. cbn iota.
  assert (sign "+-" ((if neg then "-" else "+") ++ String a ds) = ((if neg then "-" else "+"), String a ds)) as -> by by destruct neg.
  rewrite Had, read_exponent_digits by done. cbn [orb negb String.eqb andb exponent_value]. by destruct neg.
Qed.

Lemma parse_numeral prec emax s i f e : digits_ok i -> str_forall is_digit f = true -> exponent_ok e ->
  parse_float prec emax (numeral s i f e) =
    match round_decimal prec emax s (decimal 0 (i ++ f)) (exponent_value e - str_len f) with
    | S754_infinity _ | S754_nan => None
    | x => Some x
    end.
Proof.
  intros Hi Hf He. unfold parse_float. rewrite read_float_numeral by done.
  destruct Hi as [Hi0 Hi]. destruct i as [|c i]; [done|]. cbn [str_forall] in Hi. apply andb_true_iff in Hi as [Hc _].
  unfold numeral. change (String c i ++ ?t) with (String c (i ++ t)). by rewrite special_digit.
Qed.

(** *** Numbers in decimal *)

Lemma digit_at n k : byte (of_byte (48 + n / k mod 10)) = 48 + n / k mod 10 /\ is_digit (of_byte (48 + n / k mod 10)) = true.
Proof.
  assert (0 <= n / k mod 10 < 10) as Hr by (apply Z.mod_pos_bound; lia). assert (byte (of_byte (48 + n / k mod 10)) = 48 + n / k mod 10) as E
    by (apply byte_of_byte; lia).
  split; [done|]. unfold is_digit. rewrite between_spec, E. lia.
Qed.

Lemma pad_step w n : 10 ^ Z.of_nat w * (n / 10 ^ Z.of_nat w mod 10) + n mod 10 ^ Z.of_nat w = n mod 10 ^ Z.of_nat (S w).
Proof. rewrite Nat2Z.inj_succ, Z.pow_succ_r by lia. rewrite (Z.mul_comm 10), Z.rem_mul_r by lia. lia. Qed.

Lemma decimal_pad_mod w acc n : decimal acc (pad w n) = 10 ^ Z.of_nat w * acc + n mod 10 ^ Z.of_nat w.
Proof.
  revert acc. induction w as [|w IH]; intros acc; cbn [pad decimal]; [cbn; rewrite Z.mod_1_r; lia|].
  destruct (digit_at n (10 ^ Z.of_nat w)) as [-> _]. rewrite IH, <- pad_step, Nat2Z.inj_succ, Z.pow_succ_r by lia. lia.
Qed.

Lemma pad_digits w n : str_forall is_digit (pad w n) = true /\ String.length (pad w n) = w.
Proof.
  induction w as [|w [IH1 IH2]]; [done|]. cbn [pad str_forall String.length]. destruct (digit_at n (10 ^ Z.of_nat w)) as [_ ->]. by rewrite IH1, IH2.
Qed.

(** A natural number as text: no zero in front, and the number again. *)
Lemma natural_text p : exists c ds, Itoa (Z.pos p) = String c ds /\ is_digit c = true /\ c <> "0"%char /\
  str_forall is_digit (String c ds) = true /\ decimal 0 (String c ds) = Z.pos p.
Proof.
  change (Itoa (Z.pos p)) with (pretty (N.pos p)).
  assert (decimal 0 (pretty (N.pos p)) = Z.pos p) as E.
  { unfold pretty, pretty_N. case_decide; [done|]. by rewrite decimal_pretty_go. }
  unfold pretty, pretty_N in *. case_decide; [done|].
  destruct (pretty_N_go_digits (N.pos p) "" ltac:(lia)) as (c & ds & Eg & Hc & Hc0 & Hds). rewrite str_app_nil_r in Eg.
  rewrite Eg in *. exists c, ds. split_and!; try done. cbn. by rewrite Hc.
Qed.

Lemma Itoa_digits n : 0 <= n -> digits_ok (Itoa n) /\ decimal 0 (Itoa n) = n.
Proof.
  intros Hn. destruct n as [|p|p]; [done| |lia]. destruct (natural_text p) as (c & ds & -> & _ & _ & Hd & Hv). done.
Qed.

Lemma decimals_value c p : 0 <= c ->
  digits_ok (Itoa (c / 10 ^ Z.of_nat p)) /\ str_forall is_digit (pad p c) = true /\ str_len (pad p c) = Z.of_nat p /\
  decimal 0 (Itoa (c / 10 ^ Z.of_nat p) ++ pad p c) = c.
Proof.
  intros Hc. pose proof (pow10_pos (Z.of_nat p) ltac:(lia)) as Hp. destruct (Itoa_digits (c / 10 ^ Z.of_nat p)) as [Hi Hv]; [by apply Z.div_pos|].
  destruct (pad_digits p c) as [Hd Hl]. split_and!; [done|done|unfold str_len; by rewrite Hl|].
  rewrite decimal_app, Hv, decimal_pad_mod. symmetry. apply Z.div_mod. lia.
Qed.

Lemma parse_decimals prec emax s c p : 0 <= c ->
  parse_float prec emax (decimals s c p) = match round_decimal prec emax s c (- Z.of_nat p) with S754_infinity _ | S754_nan => None | x => Some x end.
Proof.
  intros Hc. destruct (decimals_value c p Hc) as (Hi & Hf & Hl & Hv). unfold decimals.
  rewrite parse_numeral by done. rewrite Hv, Hl. cbn [exponent_value]. by rewrite Z.sub_0_l.
Qed.

Lemma parse_plain s m e c q : valid (S754_finite s m e) -> 0 < c -> round_decimal 53 1024 s c q = S754_finite s m e ->
  parse_float 53 1024 (plain s c q) = Some (S754_finite s m e).
Proof.
  intros V Hc E. unfold plain. destruct (Z.leb_spec 0 q) as [Hq|Hq].
  - pose proof (pow10_pos q Hq). rewrite parse_decimals by nia. change (- Z.of_nat 0) with 0.
    rewrite (round_decimal_to s m e (c * 10 ^ q) 0); [done|done|nia|].
    rewrite rnd_zeros by lia. by eapply round_decimal_rnd.
  - rewrite parse_decimals by lia. rewrite Z2Nat.id by lia. by rewrite Z.opp_involutive, E.
Qed.

(** ** A float that is written is read back *)

(** The shortest decimals of [FormatFloat] are read as the float they were
    written for, whatever it is. *)
Theorem ParseFloat_FormatFloat x : valid x -> ParseFloat (FormatFloat x) = Some x.
Proof.
  intros V. destruct x as [[]|[]| |s m e]; [vm_compute; reflexivity..|]. unfold FormatFloat, ParseFloat.
  pose proof (shortest_reads s m e V) as H. destruct (shortest 53 1024 m e) as [c q]. destruct H as [Hc E]. by apply parse_plain.
Qed.

(** How far the verb %.nf is from the value: half a unit of the last decimal. *)
Lemma fixed_units_near p m e :
  let a := Z.pos m * over 2 e * 10 ^ Z.of_nat p in
  2 * a - under 2 e <= 2 * (under 2 e * fixed_units p m e) <= 2 * a + under 2 e.
Proof. apply rne_bounds, under_pos. lia. Qed.

(** ** JSON numbers *)

Lemma decimal_size acc ds : 0 <= acc -> str_forall is_digit ds = true -> acc * 10 ^ str_len ds <= decimal acc ds.
Proof.
  revert acc. induction ds as [|c ds IH]; intros acc Ha Hd; cbn [decimal str_forall] in *; [unfold str_len; cbn; lia|].
  apply andb_true_iff in Hd as [Hc Hd]. apply between_spec in Hc. specialize (IH (10 * acc + (byte c - 48)) ltac:(lia) Hd).
  replace (str_len (String c ds)) with (Z.succ (str_len ds)) by (unfold str_len; cbn [String.length]; lia).
  rewrite Z.pow_succ_r by (unfold str_len; lia). pose proof (pow10_pos (str_len ds) ltac:(unfold str_len; lia)). nia.
Qed.

Lemma scientific_numeral s c q : 0 < c -> c < 10 ^ 1000 -> -600 <= q <= 600 ->
  exists d rest e, scientific s c q = numeral s (String d "") rest (Some (e <? 0, Itoa (Z.abs e))) /\ is_digit d = true /\ d <> "0"%char /\
    str_forall is_digit rest = true /\ decimal 0 (String d "" ++ rest) = c /\ e = q + str_len rest /\ exponent_ok (Some (e <? 0, Itoa (Z.abs e))) /\
    exponent_value (Some (e <? 0, Itoa (Z.abs e))) = e.
Proof.
  intros Hc Hb Hq. destruct c as [|p|]; [lia| |lia]. destruct (natural_text p) as (d & rest & E & Hd & Hd0 & Hds & Hv).
  unfold scientific. rewrite E. set (e := q + str_len rest). cbn [str_forall] in Hds. apply andb_true_iff in Hds as [_ Hds].
  assert (str_len rest < 1000) as Hl.
  { destruct (Z.lt_ge_cases (str_len rest) 1000) as [|Hge]; [done|]. exfalso. cbn [decimal] in Hv.
    assert (1 <= byte d - 48) as Hb1 by (revert Hd0 Hd; by_bytes d).
    pose proof (decimal_size (10 * 0 + (byte d - 48)) rest ltac:(lia) Hds) as Hsz. rewrite Hv in Hsz.
    assert (10 ^ 1000 <= 10 ^ str_len rest) by (apply Z.pow_le_mono_r; lia). nia. }
  assert (0 <= str_len rest) by (unfold str_len; lia).
  destruct (Itoa_digits (Z.abs e) ltac:(lia)) as [[Hi0 Hi] Hiv].
  exists d, rest, e. split_and!; try done.
  - split_and!; [done|done|]. rewrite Hiv. lia.
  - cbn [exponent_value]. rewrite Hiv. destruct (Z.ltb_spec e 0); lia.
Qed.

Lemma parse_scientific s m e c q : 0 < c -> c < 10 ^ 1000 -> -600 <= q <= 600 -> round_decimal 53 1024 s c q = S754_finite s m e ->
  parse_float 53 1024 (scientific s c q) = Some (S754_finite s m e).
Proof.
  intros Hc Hb Hq E. destruct (scientific_numeral s c q Hc Hb Hq) as (d & rest & ex & -> & Hd & _ & Hr & Hv & Hex & Hok & Hev).
  rewrite parse_numeral; [|split; [done|cbn; by rewrite Hd]|done|done]. rewrite Hv, Hev, Hex.
  replace (q + str_len rest - str_len rest) with q by lia. by rewrite E.
Qed.

Theorem parse_json_text x : num x -> parse_float 53 1024 (json_text 53 1024 x) = Some x.
Proof.
  intros [V F]. destruct x as [[]|s| |s m e]; [vm_compute; reflexivity|vm_compute; reflexivity|destruct F|destruct F|]. unfold json_text.
  pose proof (shortest_reads s m e V) as H. pose proof (shortest_range s m e V) as Hr. destruct (shortest 53 1024 m e) as [c q].
  destruct H as [Hc E], Hr as [Hq Hb].
  destruct (SFltb _ _ || SFleb _ _); [exact (parse_scientific s m e c q Hc Hb Hq E)|exact (parse_plain s m e c q V Hc E)].
Qed.

(** What the grammar of JSON asks of the digits before the point. *)
Definition no_leading_zero (i : string) : Prop := i = "0" \/ match i with String c _ => c <> "0"%char | "" => False end.

Definition not_digit_next (rest : string) : bool := match rest with String a _ => negb (is_digit a) | "" => true end.

Lemma digits_stop ds rest : str_forall is_digit ds = true -> not_digit_next rest = true -> digits (ds ++ rest) = (ds, rest).
Proof.
  intros Hd Hr. induction ds as [|a ds IH]; cbn [String.append digits str_forall] in *.
  - destruct rest as [|a rest]; [done|]. cbn in *. by destruct (is_digit a).
  - zbool. rewrite H. by rewrite IH.
Qed.

Lemma ends_not_digit rest : ends_number rest = true -> not_digit_next rest = true.
Proof. destruct rest as [|a rest]; [done|]. cbn. rewrite !negb_true_iff, !orb_false_iff. tauto. Qed.

Lemma exponent_read e rest : exponent_ok e -> ends_number rest = true -> exponent (exponent_text e ++ rest) = Some (exponent_text e, rest).
Proof.
  intros He Hr. destruct e as [[neg ds]|]; [|by apply tail_number]. destruct He as (Hne & Hds & _).
  assert (sign "+-" ((if neg then "-" else "+") ++ ds ++ rest) = ((if neg then "-" else "+"), ds ++ rest)) as Es by by destruct neg.
  cbn [exponent_text]. change (String "e" ((if neg then "-" else "+") ++ ds) ++ rest) with (String "e" (((if neg then "-" else "+") ++ ds) ++ rest)).
  rewrite str_app_assoc. cbn [exponent]. change (Ascii.eqb "e" "e" || Ascii.eqb "e" "E") with true. cbn iota. rewrite Es.
  rewrite digits_stop by auto using ends_not_digit. by rewrite (proj2 (String.eqb_neq ds "") Hne).
Qed.

Lemma numeral_num_ok s i f e : digits_ok i -> no_leading_zero i -> str_forall is_digit f = true -> exponent_ok e -> num_ok (numeral s i f e).
Proof.
  intros [Hi0 Hi] Hz Hf He. unfold numeral. set (fr := if String.eqb f "" then "" else String "." f).
  assert (forall t, str_forall is_digit t = true -> str_forall (fun a => 0x20 <=? byte a) t = true) as Hprint.
  { intros t. apply str_forall_impl. intros a Ha. apply between_spec in Ha. apply Z.leb_le. lia. }
  split_and!.
  - destruct s; [done|]. destruct i as [|c i]; [done|]. cbn in Hi |- *. apply andb_true_iff in Hi as [-> _]. done.
  - rewrite !str_forall_app, (Hprint i Hi). assert (str_forall (fun a => 0x20 <=? byte a) fr = true) as ->.
    { subst fr. destruct f as [|a f]; [done|]. cbn [String.eqb str_forall]. specialize (Hprint _ Hf). cbn [str_forall] in Hprint. by rewrite Hprint. }
    assert (str_forall (fun a => 0x20 <=? byte a) (exponent_text e) = true) as ->; [|by destruct s].
    destruct e as [[neg ds]|]; [|done]. destruct He as (_ & Hds & _). cbn [exponent_text str_forall]. rewrite str_forall_app, (Hprint ds Hds). by destruct neg.
  - intros rest Hr. unfold number. rewrite !str_app_assoc.
    destruct i as [|c i]; [done|]. pose proof Hi as Hci. cbn [str_forall] in Hci. apply andb_true_iff in Hci as [Hc _].
    change (String c i ++ ?t) with (String c (i ++ t)) at 1. rewrite sign_digits by (done || apply is_digit_not_minus || reflexivity).
    set (tail := fr ++ exponent_text e ++ rest).
    assert (not_digit_next tail = true) as Ht.
    { subst tail fr. destruct f; [|done]. cbn [String.eqb String.append]. destruct e as [[[] ds]|]; [done..|]. cbn. by apply ends_not_digit. }
    assert (integer_part (String c (i ++ tail)) = Some (String c i, tail)) as ->.
    { cbn [integer_part]. destruct (Ascii.eqb_spec c "0") as [->|Hne].
      - destruct Hz as [[= ->]|Hz]; [done|]. by destruct Hz.
      - change (String c (i ++ tail)) with (String c i ++ tail). by rewrite digits_stop. }
    assert (fraction tail = Some (fr, exponent_text e ++ rest)) as ->; [|by rewrite exponent_read].
    subst tail fr. destruct f as [|a f]; cbn [String.eqb].
    + cbn [String.append]. destruct e as [[neg ds]|]; [done|]. by apply tail_number.
    + change (String "." (String a f) ++ exponent_text e ++ rest) with (String "." (String a f ++ (exponent_text e ++ rest))). cbn [fraction].
      change (Ascii.eqb "." ".") with true. cbn iota. rewrite digits_stop; [done|done|]. destruct e as [[[] ds]|]; [done..|]. by apply ends_not_digit.
Qed.

Lemma Itoa_no_zero n : 0 <= n -> no_leading_zero (Itoa n).
Proof.
  intros Hn. destruct n as [|p|]; [by left| |lia]. destruct (natural_text p) as (c & ds & -> & _ & Hc & _). by right.
Qed.

Lemma decimals_num_ok s c p : 0 <= c -> num_ok (decimals s c p).
Proof.
  intros Hc. destruct (decimals_value c p Hc) as (Hi & Hf & _). apply numeral_num_ok; try done.
  apply Itoa_no_zero, Z.div_pos; [done|]. apply pow10_pos. lia.
Qed.

Theorem json_text_num_ok x : num x -> num_ok (json_text 53 1024 x).
Proof.
  intros [V F]. destruct x as [[]|s| |s m e]; [apply (decimals_num_ok true 0 0); lia|apply (decimals_num_ok false 0 0); lia|destruct F|destruct F|].
  unfold json_text. pose proof (shortest_reads s m e V) as H. pose proof (shortest_range s m e V) as Hr.
  destruct (shortest 53 1024 m e) as [c q]. destruct H as [Hc E], Hr as [Hq Hb]. destruct (SFltb _ _ || SFleb _ _).
  - destruct (scientific_numeral s c q Hc Hb Hq) as (d & rest & ex & -> & Hd & Hd0 & Hr & _ & _ & Hok & _).
    apply numeral_num_ok; [split; [done|cbn; by rewrite Hd]|by right|done|done].
  - unfold plain. destruct (Z.leb_spec 0 q); apply decimals_num_ok; [|lia]. pose proof (pow10_pos q ltac:(lia)). nia.
Qed.
