(* ===== verification/Durations.v ===== *)
(** * Durations as text (time.ParseDuration)

    A duration is a sign and a sequence of decimal numbers, each with a unit;
    the sums are those of unsigned 64-bit integers, with the checks the
    library makes.  The configuration reads all its durations so. *)

From Stdlib Require Import Ascii.
From S2P Require Import Prelude Float64 GoStrings GoFormat Json JsonDecode Strconv.

(** [leadingInt] on the digits in front; [None] if the number passes 1<<63. *)
Fixpoint leadingInt (x : Z) (ds : string) : option Z :=
  match ds with
  | "" => Some x
  | String c ds =>
      if two63 / 10 <? x then None
      else let y := x * 10 + (byte c - 48) in if two63 <? y then None else leadingInt y ds
  end.

(** [leadingFraction] on the digits after the point: what fits of them, and
    its scale. *)
Fixpoint leadingFraction (x : Z) (scale : float64) (ds : string) : Z * float64 :=
  match ds with
  | "" => (x, scale)
  | String c ds =>
      let y := x * 10 + (byte c - 48) in
      if ((two63 - 1) / 10 <? x) || (two63 <? y) then (x, scale)
      else leadingFraction y (fmul scale (f_of_Z 10)) ds
  end.

(** The bytes up to the next digit or point. *)
Fixpoint unit_text (s : string) : string * string :=
  match s with
  | String c s' =>
      if Ascii.eqb c "." || is_digit c then ("", s)
      else let '(u, rest) := unit_text s' in (String c u, rest)
  | "" => ("", "")
  end.

(** U+00B5 and U+03BC, each followed by an s *)
Definition micro_sign : string := String "194" (String "181" "s").
Definition greek_mu : string := String "206" (String "188" "s").

Definition unitMap (u : string) : option Z :=
  if String.eqb u "ns" then Some nanosecond
  else if String.eqb u "us" || String.eqb u micro_sign || String.eqb u greek_mu then Some 1000
  else if String.eqb u "ms" then Some millisecond
  else if String.eqb u "s" then Some second
  else if String.eqb u "m" then Some (60 * second)
  else if String.eqb u "h" then Some (3600 * second)
  else None.

(** One number with its unit: its nanoseconds and the rest of the text. *)
Definition duration_part (s : string) : option (Z * string) :=
  let '(ds, r) := digits s in
  let '(fs, point, r) :=
    match r with
    | String "." r' => let '(fs, r') := digits r' in (fs, true, r')
    | _ => ("", false, r)
    end in
  if String.eqb ds "" && (negb point || String.eqb fs "") then None
  else
    match leadingInt 0 ds with
    | None => None
    | Some v =>
        let '(f, scale) := leadingFraction 0 f_one fs in
        let '(u, r) := unit_text r in
        if String.eqb u "" then None
        else
          match unitMap u with
          | None => None
          | Some unit =>
              if two63 / unit <? v then None
              else
                let v := v * unit in
                let v := if 0 <? f then v + trunc (fmul (f_of_Z f) (fdiv (f_of_Z unit) scale)) else v in
                if two63 <? v then None else Some (v, r)
          end
    end.

(** The loop over the parts; [n] is at least the length of the text. *)
Fixpoint duration_parts (n : nat) (d : Z) (s : string) : option Z :=
  match s, n with
  | "", _ => Some d
  | _, O => None
  | _, S n =>
      match duration_part s with
      | None => None
      | Some (v, r) =>
          let d := wrap_u64 (d + v) in
          if two63 <? d then None else duration_parts n d r
      end
  end.

Definition ParseDuration (s : string) : option Z :=
  let '(sg, s) := sign "-+" s in
  if String.eqb s "0" then Some 0
  else if String.eqb s "" then None
  else
    match duration_parts (String.length s) 0 s with
    | None => None
    | Some d =>
        if String.eqb sg "-" then Some (wrap_i64 (- d))
        else if two63 - 1 <? d then None else Some d
    end.

Example durations_read :
  ParseDuration "3s" = Some (3 * second) /\ ParseDuration "500ms" = Some (500 * millisecond) /\
  ParseDuration "1h15m30.918s" = Some (4530918 * millisecond) /\ ParseDuration "-1.5h" = Some (-5400 * second) /\
  ParseDuration "+.5s" = Some (500 * millisecond) /\ ParseDuration "0" = Some 0 /\ ParseDuration "" = None /\
  ParseDuration "3" = None /\ ParseDuration ".s" = None /\ ParseDuration "9223372036854775807ns" = Some (two63 - 1) /\
  ParseDuration "9223372036854775808ns" = None /\ ParseDuration "-9223372036854775808ns" = Some (- two63).
Proof. vm_compute. by split_and!. Qed.

(** ** Lemmas *)

Lemma digits_shorter s : (String.length (digits s).2 <= String.length s)%nat.
Proof.
  induction s as [|a s IH]; [done|]. cbn [digits]. destruct (is_digit a); [|done]. destruct (digits s). cbn in *. lia.
Qed.

Lemma unit_text_split s : (unit_text s).1 ++ (unit_text s).2 = s.
Proof.
  induction s as [|c s IH]; [done|]. cbn [unit_text]. destruct (Ascii.eqb c "." || is_digit c); [done|].
  destruct (unit_text s) as [u r]. cbn in *. by rewrite IH.
Qed.

(** A part takes at least its unit off the text. *)
Lemma duration_part_shorter s v r : duration_part s = Some (v, r) -> (String.length r < String.length s)%nat.
Proof.
  unfold duration_part. pose proof (digits_shorter s) as Hd. destruct (digits s) as [ds t]. cbn [snd] in Hd.
  set (p := match t with String "." r' => _ | _ => _ end).
  assert (String.length p.2 <= String.length t)%nat as Hp.
  { subst p. destruct t as [|c t]; [done|]. pose proof (digits_shorter t) as Hf. destruct (digits t) as [fs t'].
    destruct c as [[] [] [] [] [] [] [] []]; cbn in *; lia. }
  destruct p as [[fs point] q]. cbn [snd] in Hp. destruct (String.eqb ds "" && _); [done|]. destruct (leadingInt 0 ds) as [x|]; [|done].
  destruct (leadingFraction _ _ _) as [f scale]. pose proof (unit_text_split q) as Hu. destruct (unit_text q) as [u q']. cbn [fst snd] in Hu.
  destruct (String.eqb_spec u "") as [|Hne]; [done|]. destruct (unitMap u) as [unit|]; [|done].
  destruct (two63 / unit <? x); [done|]. destruct (two63 <? _); [done|]. intros [= _ <-].
  assert (String.length u <> 0)%nat by (by destruct u). subst q. rewrite str_length_app in Hp. lia.
Qed.

(** More fuel than the length of the text changes nothing. *)
Lemma duration_parts_fuel n m d s : (String.length s <= n)%nat -> (String.length s <= m)%nat ->
  duration_parts n d s = duration_parts m d s.
Proof.
  revert m d s. induction n as [|n IH]; intros m d [|c s] Hn Hm; [by destruct m|cbn in Hn; lia|by destruct m|].
  destruct m as [|m]; [cbn in Hm; lia|]. cbn [duration_parts]. destruct (duration_part (String c s)) as [[v r]|] eqn:E; [|done].
  apply duration_part_shorter in E. cbn [String.length] in *. destruct (two63 <? _); [done|]. apply IH; lia.
Qed.

Lemma duration_parts_range n d s x : 0 <= d <= two63 -> duration_parts n d s = Some x -> 0 <= x <= two63.
Proof.
  revert d s. induction n as [|n IH]; intros d [|c s] Hd; cbn [duration_parts]; [by intros [= <-]|done|by intros [= <-]|].
  destruct (duration_part (String c s)) as [[v r]|]; [|done]. destruct (Z.ltb_spec two63 (wrap_u64 (d + v))) as [|Hle]; [done|].
  apply IH. pose proof (wrap_u64_range (d + v)) as [? _]. lia.
Qed.

(** What is read fits a [time.Duration]. *)
Lemma ParseDuration_range s d : ParseDuration s = Some d -> in_i64 d.
Proof.
  unfold ParseDuration. destruct (sign "-+" s) as [sg t]. destruct (String.eqb t "0"); [by intros [= <-]|].
  destruct (String.eqb t ""); [done|]. destruct (duration_parts _ 0 t) as [x|] eqn:E; [|done].
  apply duration_parts_range in E; [|by vm_compute]. destruct (String.eqb sg "-"); [intros [= <-]; apply wrap_i64_range|].
  destruct (Z.ltb_spec (two63 - 1) x); [done|]. intros [= <-]. unfold in_i64. lia.
Qed.

Lemma leadingInt_decimal x ds : 0 <= x -> str_forall is_digit ds = true -> decimal x ds <= two63 -> leadingInt x ds = Some (decimal x ds).
Proof.
  revert x. induction ds as [|c ds IH]; intros x Hx Hd Hle; [done|]. cbn [str_forall] in Hd. apply andb_true_iff in Hd as [Hc Hd].
  unfold is_digit, between in Hc. apply andb_true_iff in Hc as [H1%Z.leb_le H2%Z.leb_le]. cbn [decimal leadingInt] in *.
  pose proof (decimal_grows (10 * x + (byte c - 48)) ds ltac:(lia) Hd) as Hg. rewrite (Z.mul_comm x 10).
  destruct (Z.ltb_spec (two63 / 10) x) as [Hlt|_]; [exfalso; change (two63 / 10) with 922337203685477580 in Hlt; unfold two63 in Hle; lia|].
  destruct (Z.ltb_spec two63 (10 * x + (byte c - 48))); [lia|]. apply IH; [lia|done|lia].
Qed.

Lemma unit_text_plain u : str_forall (fun c => negb (Ascii.eqb c "." || is_digit c)) u = true -> unit_text u = (u, "").
Proof.
  induction u as [|c u IH]; [done|]. cbn [str_forall unit_text]. intros [Hc Hu]%andb_true_iff.
  destruct (Ascii.eqb c "." || is_digit c); [done|]. by rewrite (IH Hu).
Qed.

(** The units, none of which has a digit or a point. *)
Lemma unitMap_plain u unit : unitMap u = Some unit ->
  u <> "" /\ str_forall (fun c => negb (Ascii.eqb c "." || is_digit c)) u = true /\ 0 < unit.
Proof.
  unfold unitMap.
  repeat match goal with |- context [String.eqb u ?t] => destruct (String.eqb_spec u t) as [->|] end;
    intros E; try discriminate E; injection E as <-; done.
Qed.

Lemma digits_then_unit n u unit : 0 <= n -> unitMap u = Some unit -> digits (Itoa n ++ u) = (Itoa n, u).
Proof.
  intros Hn Hu. destruct (unitMap_plain u unit Hu) as (_ & Hp & _). destruct (Itoa_digits n Hn) as [[_ Hd] _].
  apply digits_stop; [done|]. destruct u as [|c u]; [done|]. cbn [str_forall] in Hp. apply andb_true_iff in Hp as [Hc _]. cbn.
  destruct (Ascii.eqb c "."), (is_digit c); done.
Qed.

Lemma duration_part_whole n u unit : 0 <= n -> unitMap u = Some unit -> n * unit < two63 ->
  duration_part (Itoa n ++ u) = Some (n * unit, "").
Proof.
  intros Hn Hu Hlt. destruct (unitMap_plain u unit Hu) as (Hne & Hp & Hpos). destruct (Itoa_digits n Hn) as [[Hd0 Hd] Hv].
  unfold duration_part. rewrite (digits_then_unit n u unit Hn Hu). replace (match u with String "." r' => _ | _ => _ end) with ("", false, u).
  2:{ destruct u as [|c u]; [done|]. cbn [str_forall] in Hp. apply andb_true_iff in Hp as [Hc _].
      destruct c as [[] [] [] [] [] [] [] []]; try reflexivity; discriminate Hc. }
  destruct (String.eqb_spec (Itoa n) "") as [|_]; [done|]. cbn [andb].
  rewrite leadingInt_decimal by (done || (rewrite Hv; nia)). rewrite Hv. cbn [leadingFraction].
  rewrite unit_text_plain by done. destruct (String.eqb_spec u ""); [done|]. rewrite Hu.
  assert (n <= two63 / unit) by (apply Z.div_le_lower_bound; lia). destruct (Z.ltb_spec (two63 / unit) n); [lia|].
  change (0 <? 0) with false. cbv iota. destruct (Z.ltb_spec two63 (n * unit)); [lia|done].
Qed.

(** A whole number of one unit, as the configuration has it. *)
Theorem ParseDuration_whole n u unit : 0 <= n -> unitMap u = Some unit -> n * unit < two63 ->
  ParseDuration (Itoa n ++ u) = Some (n * unit).
Proof.
  intros Hn Hu Hlt. destruct (unitMap_plain u unit Hu) as (Hne & Hp & Hpos). destruct (Itoa_digits n Hn) as [[Hd0 Hd] _].
  pose proof (digits_then_unit n u unit Hn Hu) as Eds. pose proof (duration_part_whole n u unit Hn Hu Hlt) as Ep.
  destruct (Itoa n) as [|c ds]; [done|]. unfold ParseDuration.
  assert (sign "-+" (String c ds ++ u) = ("", String c ds ++ u)) as ->.
  { cbn [String.append sign]. cbn [str_forall] in Hd. apply andb_true_iff in Hd as [Hc _].
    destruct c as [[] [] [] [] [] [] [] []]; try discriminate Hc; reflexivity. }
  destruct (String.eqb_spec (String c ds ++ u) "0") as [E0|_]; [rewrite E0 in Eds; by injection Eds as _ <-|].
  change (String.eqb (String c ds ++ u) "") with false. cbv iota.
  assert (duration_parts (String.length (String c ds ++ u)) 0 (String c ds ++ u) = Some (n * unit)) as ->.
  { cbn [String.append String.length duration_parts] in *. rewrite Ep, Z.add_0_l, wrap_u64_id by (unfold in_u64, two63, two64 in *; nia).
    destruct (Z.ltb_spec two63 (n * unit)); [lia|]. by destruct (String.length _). }
  change (String.eqb "" "-") with false. cbv iota. destruct (Z.ltb_spec (two63 - 1) (n * unit)); [lia|done].
Qed.
