(* ===== verification/JsonFloat.v ===== *)
(** * Floats as JSON numbers (encoding/json over strconv)

    A number is read with [ParseFloat] and written as the shortest decimal,
    with an exponent for values far from one.  What is written is a JSON number
    and is read back as the float. *)

From S2P Require Import Prelude Float64 Rounding FloatRange Decimal GoStrings GoFormat Json JsonDecode Strconv.

Definition dec_float32 : decoder spec_float := fun old d =>
  match d with DNull => Some old | DNum lit => parse_float 24 128 lit | _ => None end.

Definition dec_float64 : decoder float64 := fun old d =>
  match d with DNull => Some old | DNum lit => parse_float 53 1024 lit | _ => None end.

Definition float_text (x : float64) : string := json_text 53 1024 x.
Definition float32_text (x : spec_float) : string := json_text 24 128 x.

(** A JSON document has no infinities and no NaN. *)
Definition json_number (x : float64) : bool :=
  match x with S754_nan | S754_infinity _ => false | _ => true end.

Definition number_doc (x : float64) : doc := DNum (float_text x).

(** ** Lemmas *)

Lemma float_text_number x : num x -> num_ok (float_text x).
Proof. apply json_text_num_ok. Qed.

Lemma float_text_read x : num x -> parse_float 53 1024 (float_text x) = Some x.
Proof. apply parse_json_text. Qed.

Lemma num_json x : num x -> json_number x = true.
Proof. intros [_ Hf]. by destruct x. Qed.

Lemma dec_number old x : num x -> dec_float64 old (number_doc x) = Some x.
Proof. intros Hx. cbn [dec_float64 number_doc]. by apply float_text_read. Qed.
