(* ===== verification/JsonMaps.v ===== *)
(** * Maps in JSON (encoding/json)

    A Go map with string keys is written as an object with the keys in order,
    and read member by member into the map in place, every value into a fresh
    zero of its type.  The file has the round trip of both, for maps of
    anything that has one. *)

From stdpp Require Import sorting.
From S2P Require Import Prelude GoStrings GoFormat Json JsonDecode.

Create HintDb json.

Definition key_le {A} (x y : string * A) : Prop := String.leb x.1 y.1 = true.

#[export] Instance key_le_dec {A} (x y : string * A) : Decision (key_le x y).
Proof. unfold key_le. apply _. Defined.

(** The members of a map, by key. *)
Definition map_members {A} (enc : A -> doc) (m : gmap string A) : list (string * doc) :=
  (fun kv => (kv.1, enc kv.2)) <$> merge_sort key_le (map_to_list m).

Fixpoint dec_map_entries {A} (zero : A) (dec : decoder A) (m : gmap string A) (ms : list (string * doc)) : option (gmap string A) :=
  match ms with
  | [] => Some m
  | (k, d) :: ms' => match dec zero d with Some v => dec_map_entries zero dec (<[k := v]> m) ms' | None => None end
  end.

Definition dec_map_of {A} (zero : A) (dec : decoder A) : decoder (gmap string A) := fun old d =>
  match d with DNull => Some ∅ | DObj ms => dec_map_entries zero dec old ms | _ => None end.

(** ** Lemmas *)

(** Reading a map of [A] into one of [B]. *)
Section ReadMap.
Context {A B : Type} (enc : A -> doc) (view : A -> B) (zero : B) (dec : decoder B).

Lemma entries_inserted (l : list (string * A)) m :
  (forall kv, kv ∈ l -> dec zero (enc kv.2) = Some (view kv.2)) ->
  dec_map_entries zero dec m ((fun kv => (kv.1, enc kv.2)) <$> l) = Some (foldl (fun m kv => <[kv.1 := view kv.2]> m) m l).
Proof.
  revert m. induction l as [|[k v] l IH]; intros m Hd; [done|]. rewrite fmap_cons. cbn [dec_map_entries fst snd].
  pose proof (Hd (k, v) ltac:(by left)) as E. cbn [snd] in E. rewrite E. cbn [foldl fst snd]. apply IH. intros kv Hkv. apply Hd. by right.
Qed.

Lemma inserted_all (l : list (string * A)) :
  foldl (fun m kv => <[kv.1 := view kv.2]> m) ∅ l = view <$> list_to_map (M := gmap string A) (reverse l).
Proof.
  induction l as [|[k v] l IH] using rev_ind; [cbn; by rewrite fmap_empty|]. rewrite foldl_app, IH, reverse_snoc. cbn. by rewrite fmap_insert.
Qed.

Lemma dec_map_members m : (forall k v, m !! k = Some v -> dec zero (enc v) = Some (view v)) ->
  dec_map_of zero dec ∅ (DObj (map_members enc m)) = Some (view <$> m).
Proof.
  intros Hd. cbn [dec_map_of]. unfold map_members. pose proof (merge_sort_Permutation key_le (map_to_list m)) as Hp.
  rewrite entries_inserted.
  - rewrite inserted_all. do 2 f_equal. rewrite <- (list_to_map_to_list m) at 2. symmetry. apply list_to_map_proper.
    + apply NoDup_fst_map_to_list.
    + etrans; [symmetry; exact Hp|]. symmetry. apply reverse_Permutation.
  - intros [k v] Hkv. rewrite Hp in Hkv. apply elem_of_map_to_list in Hkv. by eapply Hd.
Qed.
End ReadMap.

Section Maps.
Context {A : Type} (enc : A -> doc).

Lemma map_members_elem m k d : (k, d) ∈ map_members enc m -> exists v, m !! k = Some v /\ d = enc v.
Proof.
  unfold map_members. intros ([k' v] & [= -> ->] & Hin)%list_elem_of_fmap. cbn.
  rewrite (merge_sort_Permutation key_le (map_to_list m)) in Hin. apply elem_of_map_to_list in Hin. by exists v.
Qed.

Lemma members_repaired ms : (forall k d, (k, d) ∈ ms -> valid_utf8 k /\ repaired d = d) -> repaired (DObj ms) = DObj ms.
Proof.
  intros Hm. cbn [repaired]. f_equal. induction ms as [|[k d] ms IH]; [done|]. cbn [List.map fst snd].
  destruct (Hm k d ltac:(by left)) as [Hk Hd]. rewrite (sanitize_id k Hk), Hd. f_equal. apply IH. intros k' d' Hin. apply Hm. by right.
Qed.

Lemma members_numbers ms : (forall k d, (k, d) ∈ ms -> numbers_ok d) -> numbers_ok (DObj ms).
Proof.
  intros Hm. cbn [numbers_ok]. induction ms as [|[k d] ms IH]; [done|]. cbn [foldr snd]. split; [apply (Hm k); by left|].
  apply IH. intros k' d' Hin. apply (Hm k'). by right.
Qed.

Lemma members_nesting n ms : 0 <= n -> (forall k d, (k, d) ∈ ms -> nesting d <= n) -> nesting (DObj ms) <= n + 1.
Proof.
  intros Hn Hm. cbn [nesting]. assert (foldr Z.max 0 (List.map (fun kv => nesting kv.2) ms) <= n); [|lia].
  induction ms as [|[k d] ms IH]; [done|]. cbn [List.map foldr snd]. apply Z.max_lub; [apply (Hm k); by left|].
  apply IH. intros k' d' Hin. apply (Hm k'). by right.
Qed.

(** The object of a map keeps what its values have. *)
Lemma map_repaired m : (forall k v, m !! k = Some v -> valid_utf8 k /\ repaired (enc v) = enc v) ->
  repaired (DObj (map_members enc m)) = DObj (map_members enc m).
Proof. intros Hm. apply members_repaired. intros k d (v & Hv & ->)%map_members_elem. by apply Hm. Qed.

Lemma map_numbers m : (forall k v, m !! k = Some v -> numbers_ok (enc v)) -> numbers_ok (DObj (map_members enc m)).
Proof. intros Hm. apply members_numbers. intros k d (v & Hv & ->)%map_members_elem. by eapply Hm. Qed.

Lemma map_nesting n m : 0 <= n -> (forall k v, m !! k = Some v -> nesting (enc v) <= n) -> nesting (DObj (map_members enc m)) <= n + 1.
Proof. intros Hn Hm. apply members_nesting; [done|]. intros k d (v & Hv & ->)%map_members_elem. by eapply Hm. Qed.
End Maps.

(** ** Documents that are read as they were written

    [plain n d]: the strings of [d] are UTF-8, its numbers are numbers, and it
    is nested no deeper than [n]. *)
Definition plain (n : Z) (d : doc) : Prop := repaired d = d /\ numbers_ok d /\ nesting d <= n.

Lemma plain_parse d : plain max_nesting d -> parse (print d) = Some d.
Proof. intros (R & N & D). by rewrite parse_print, R. Qed.

Lemma plain_mono n m d : plain n d -> n <= m -> plain m d.
Proof. intros (R & N & D) Hn. split_and!; [done|done|lia]. Qed.

Lemma plain_str s : valid_utf8 s -> plain 0 (DStr s).
Proof. intros Hs. split_and!; [cbn; by rewrite sanitize_id|done|done]. Qed.

Lemma plain_int z : plain 0 (DInt z).
Proof. split_and!; [done|apply Itoa_num_ok|done]. Qed.

Lemma plain_bool b : plain 0 (DBool b).
Proof. by split_and!. Qed.

Lemma plain_obj n ms : 0 <= n -> Forall (fun kv => valid_utf8 kv.1 /\ plain n kv.2) ms -> plain (n + 1) (DObj ms).
Proof.
  intros Hn Hm. rewrite list.Forall_forall in Hm. split_and!.
  - apply members_repaired. intros k d Hin. by destruct (Hm _ Hin) as [? [? _]].
  - apply members_numbers. intros k d Hin. by destruct (Hm _ Hin) as [_ (_ & ? & _)].
  - apply members_nesting; [done|]. intros k d Hin. by destruct (Hm _ Hin) as [_ (_ & _ & ?)].
Qed.

Lemma plain_map {A} (enc : A -> doc) n m : 0 <= n -> (forall k v, m !! k = Some v -> valid_utf8 k /\ plain n (enc v)) ->
  plain (n + 1) (DObj (map_members enc m)).
Proof.
  intros Hn Hm. apply plain_obj; [done|]. apply list.Forall_forall. intros [k d] (v & Hv & ->)%map_members_elem. by apply Hm.
Qed.

Lemma plain_arr n l : 0 <= n -> Forall (plain n) l -> plain (n + 1) (DArr l).
Proof.
  intros Hn Hl. split_and!.
  - cbn [repaired]. f_equal. induction Hl as [|d l (R & _) _ IH]; [done|]. cbn. by rewrite R, IH.
  - induction Hl as [|d l (_ & N & _) _ IH]; [done|]. by split.
  - cbn [nesting]. assert (foldr Z.max 0 (List.map nesting l) <= n); [|lia].
    induction Hl as [|d l (_ & _ & D) _ IH]; [done|]. cbn [List.map foldr]. lia.
Qed.

Lemma plain_omit n empty k d : (empty = false -> valid_utf8 k /\ plain n d) ->
  Forall (fun kv => valid_utf8 kv.1 /\ plain n kv.2) (omit empty k d).
Proof. intros Hd. destruct empty; [done|]. apply Forall_singleton. by apply Hd. Qed.

#[export] Hint Resolve plain_str plain_int plain_bool : json.
