(* ===== verification/JsonTime.v ===== *)
(** * Times in JSON (time.Time)

    A time is the number of nanoseconds since the beginning of the year 1 in
    UTC, the zero of Go.  It is written as RFC 3339 with the fraction of the second as far as it has one, for the
    years 0 to 9999, and read back with any offset from UTC; what time.Parse
    also takes of texts that are not RFC 3339 (an hour of one digit, a comma
    before the fraction) is left out.  Dates are those of the Gregorian
    calendar, counted in years that begin in March. *)

From Stdlib Require Import Ascii.
From S2P Require Import Prelude GoStrings GoFormat Json JsonDecode Strconv.

(** ** The calendar *)

(** 1 March of the year 0, in days before 1 January of the year 1. *)
Definition march_0 : Z := 306.

Definition days_400 : Z := 146097.

(** Days since 1 March of a year that is a multiple of 400, as the year of
    the 400 and the day of the year: centuries but the last have 36524 days,
    four years but the last of a century 1461. *)
Definition year_and_day (doe : Z) : Z * Z :=
  let c := Z.min 3 (doe / 36524) in
  let r := doe - 36524 * c in
  let q := r / 1461 in
  let r := r mod 1461 in
  let y := Z.min 3 (r / 365) in
  (100 * c + 4 * q + y, r - 365 * y).

(** The date of a day: year, month and day. *)
Definition date_of (days : Z) : Z * Z * Z :=
  let z := days + march_0 in
  let '(yoe, doy) := year_and_day (z mod days_400) in
  let mp := (5 * doy + 2) / 153 in
  let m := if mp <? 10 then mp + 3 else mp - 9 in
  (400 * (z / days_400) + yoe + (if m <=? 2 then 1 else 0), m, doy - (153 * mp + 2) / 5 + 1).

Definition days_of (y m d : Z) : Z :=
  let y := if m <=? 2 then y - 1 else y in
  let yoe := y mod 400 in
  let mp := if 2 <? m then m - 3 else m + 9 in
  days_400 * (y / 400) + 365 * yoe + yoe / 4 - yoe / 100 + (153 * mp + 2) / 5 + d - 1 - march_0.

Definition is_leap (y : Z) : bool := (y mod 4 =? 0) && (negb (y mod 100 =? 0) || (y mod 400 =? 0)).

Definition days_in (m y : Z) : Z :=
  if m =? 2 then (if is_leap y then 29 else 28)
  else if (m =? 4) || (m =? 6) || (m =? 9) || (m =? 11) then 30 else 31.

(** ** Text *)

(** The fraction without the zeros it ends in. *)
Fixpoint fraction_text (w : nat) (n : Z) : string :=
  match w with
  | O => ""
  | S w' => if n mod 10 =? 0 then fraction_text w' (n / 10) else "." ++ pad w n
  end.

Definition year_of (t : Z) : Z := (date_of (t / second / 86400)).1.1.

(** [MarshalJSON] refuses the other years. *)
Definition time_writable (t : Z) : bool := (0 <=? year_of t) && (year_of t <? 10000).

Definition time_text (t : Z) : string :=
  let secs := t / second in
  let '(y, m, d) := date_of (secs / 86400) in
  let s := secs mod 86400 in
  pad 4 y ++ "-" ++ pad 2 m ++ "-" ++ pad 2 d ++ "T" ++ pad 2 (s / 3600) ++ ":" ++ pad 2 (s / 60 mod 60) ++ ":" ++ pad 2 (s mod 60) ++
  fraction_text 9 (t mod second) ++ "Z".

(** [w] digits at the front of the text. *)
Fixpoint fixed (w : nat) (acc : Z) (s : string) : option (Z * string) :=
  match w, s with
  | O, _ => Some (acc, s)
  | S w', String a s' => if is_digit a then fixed w' (10 * acc + (byte a - 48)) s' else None
  | S _, "" => None
  end.

(** One given character. *)
Definition expect (sep : ascii) (s : string) : option string :=
  match s with String a r => if Ascii.eqb a sep then Some r else None | "" => None end.

(** Nine digits of the fraction count, the rest is dropped. *)
Definition fraction_read (s : string) : option (Z * string) :=
  match s with
  | String "." r =>
      let '(ds, rest) := digits r in
      if String.eqb ds "" then None
      else let ds := str_take 9 ds in Some (decimal 0 ds * 10 ^ (9 - Z.of_nat (String.length ds)), rest)
  | _ => Some (0, s)
  end.

(** The zone, in seconds east of UTC. *)
Definition zone_read (s : string) : option Z :=
  if String.eqb s "Z" then Some 0
  else match s with
       | String sg r =>
           if Ascii.eqb sg "+" || Ascii.eqb sg "-" then
             h ← fixed 2 0 r; r ← expect ":" h.2; m ← fixed 2 0 r;
             if String.eqb m.2 "" && (h.1 <? 24) && (m.1 <? 60)
             then Some ((if Ascii.eqb sg "-" then -1 else 1) * (3600 * h.1 + 60 * m.1)) else None
           else None
       | "" => None
       end.

Definition parse_time (s : string) : option Z :=
  y ← fixed 4 0 s; r ← expect "-" y.2; m ← fixed 2 0 r; r ← expect "-" m.2; d ← fixed 2 0 r; r ← expect "T" d.2;
  hh ← fixed 2 0 r; r ← expect ":" hh.2; mm ← fixed 2 0 r; r ← expect ":" mm.2; ss ← fixed 2 0 r;
  f ← fraction_read ss.2; zone ← zone_read f.2;
  let date_ok := (1 <=? m.1) && (m.1 <=? 12) && (1 <=? d.1) && (d.1 <=? days_in m.1 y.1) in
  let time_ok := (hh.1 <? 24) && (mm.1 <? 60) && (ss.1 <? 60) in
  if date_ok && time_ok
  then Some ((86400 * days_of y.1 m.1 d.1 + 3600 * hh.1 + 60 * mm.1 + ss.1 - zone) * second + f.1) else None.

Definition dec_time : decoder Z := fun old d =>
  match d with DNull => Some old | DStr s => parse_time s | _ => None end.

Definition time_doc (t : Z) : doc := DStr (time_text t).

(** ** Lemmas *)

(** Linear arithmetic with division and remainder by constants. *)
Ltac dlia := Z.to_euclidean_division_equations; lia.

Lemma year_and_day_spec doe : 0 <= doe < days_400 ->
  let '(yoe, doy) := year_and_day doe in
  0 <= yoe < 400 /\ 0 <= doy <= 365 /\ doe = 365 * yoe + yoe / 4 - yoe / 100 + doy /\
  (doy = 365 -> is_leap (yoe + 1) = true).
Proof.
  unfold days_400, year_and_day, is_leap. intros Hd. set (c := Z.min 3 (doe / 36524)). set (r := doe - 36524 * c).
  assert (0 <= c <= 3 /\ 0 <= r <= 36524 /\ (c < 3 -> r < 36524)) as (Hc & Hr & Hr') by (unfold c, r; dlia).
  set (q := r / 1461). set (r2 := r mod 1461). assert (r = 1461 * q + r2 /\ 0 <= r2 < 1461 /\ 0 <= q <= 24) as (Er & Hr2 & Hq) by (unfold q, r2; dlia).
  set (y := Z.min 3 (r2 / 365)). assert (0 <= y <= 3 /\ 0 <= r2 - 365 * y <= 365 /\ (r2 - 365 * y = 365 -> y = 3 /\ r2 = 1460)) as (Hy & Hdoy & Hleap) by (unfold y; dlia).
  clearbody c y q r2. subst r. assert ((100 * c + 4 * q + y) / 4 = 25 * c + q /\ (100 * c + 4 * q + y) / 100 = c) as [-> ->] by dlia.
  split_and!; dlia.
Qed.

Lemma is_leap_400 y e : is_leap (y + 400 * e) = is_leap y.
Proof. unfold is_leap. by assert ((y + 400 * e) mod 4 = y mod 4 /\ (y + 400 * e) mod 100 = y mod 100 /\ (y + 400 * e) mod 400 = y mod 400) as (-> & -> & ->) by dlia. Qed.

(** A date names its day, and is one of the calendar. *)
Lemma date_of_spec days :
  let '(y, m, d) := date_of days in
  days_of y m d = days /\ 1 <= m <= 12 /\ 1 <= d <= days_in m y.
Proof.
  unfold date_of. set (z := days + march_0). pose proof (year_and_day_spec (z mod days_400)) as H.
  destruct (year_and_day (z mod days_400)) as [yoe doy]. destruct H as (Hy & Hd & Ez & Hl); [unfold days_400; dlia|].
  set (mp := (5 * doy + 2) / 153). assert (0 <= mp <= 11 /\ (153 * mp + 2) / 5 <= doy) as [Hmp Hlow] by (unfold mp; dlia).
  assert (z = days_400 * (z / days_400) + z mod days_400) as Ez' by (apply Z.div_mod; done). set (era := z / days_400) in *.
  split_and!.
  - unfold days_of. assert ((if mp <? 10 then mp + 3 else mp - 9) <=? 2 = negb (mp <? 10)) as -> by (destruct (Z.ltb_spec mp 10); dlia).
    assert (2 <? (if mp <? 10 then mp + 3 else mp - 9) = (mp <? 10)) as -> by (destruct (Z.ltb_spec mp 10); dlia).
    destruct (Z.ltb_spec mp 10); cbn [negb].
    + replace (400 * era + yoe + 0) with (yoe + era * 400) by dlia. rewrite Z_mod_plus_full, Z.div_add, Z.mod_small, (Z.div_small yoe 400) by dlia. unfold z in *. dlia.
    + replace (400 * era + yoe + 1 - 1) with (yoe + era * 400) by dlia. rewrite Z_mod_plus_full, Z.div_add, Z.mod_small, (Z.div_small yoe 400) by dlia. unfold z in *. dlia.
  - case_if; zbool; dlia.
  - case_if; zbool; dlia.
  - dlia.
  - assert (153 * mp <= 5 * doy + 2 < 153 * (mp + 1)) as Hb by (unfold mp; dlia).
    assert (is_leap (400 * era + yoe + 1) = is_leap (yoe + 1)) as El by (replace (400 * era + yoe + 1) with (yoe + 1 + 400 * era) by lia; apply is_leap_400).
    clearbody mp. destruct (Z.eq_dec mp 11) as [->|].
    + change (doy - 337 + 1 <= if is_leap (400 * era + yoe + 1) then 29 else 28). rewrite El. destruct (Z.eq_dec doy 365) as [->|]; [by rewrite Hl|]. destruct (is_leap _); dlia.
    + clear Hl El. unfold days_in. set (m := if mp <? 10 then _ else _). assert (m = if mp <? 10 then mp + 3 else mp - 9) as Em by done. clearbody m.
      destruct (Z.ltb_spec mp 10), (Z.eqb_spec m 2); try lia; destruct ((m =? 4) || (m =? 6) || (m =? 9) || (m =? 11)) eqn:E; dlia.
Qed.

(** *** Digits *)

Lemma fixed_pad_mod w acc n rest : fixed w acc (pad w n ++ rest) = Some (10 ^ Z.of_nat w * acc + n mod 10 ^ Z.of_nat w, rest).
Proof.
  revert acc. induction w as [|w IH]; intros acc; cbn [pad fixed String.append]; [cbn; rewrite Z.mod_1_r; do 2 f_equal; lia|].
  destruct (digit_at n (10 ^ Z.of_nat w)) as [-> ->]. rewrite IH. rewrite <- pad_step, Nat2Z.inj_succ, Z.pow_succ_r by lia. do 2 f_equal. lia.
Qed.

Lemma fixed_pad w n rest : 0 <= n < 10 ^ Z.of_nat w -> fixed w 0 (pad w n ++ rest) = Some (n, rest).
Proof. intros Hn. rewrite fixed_pad_mod, Z.mod_small by done. do 2 f_equal. lia. Qed.

Lemma str_take_ge n s : (String.length s <= n)%nat -> str_take n s = s.
Proof. revert n. induction s as [|a s IH]; intros [|n] Hn; cbn in *; try done; [lia|]. rewrite IH; [done|lia]. Qed.

Lemma fraction_read_text w n : (w <= 9)%nat -> 0 <= n < 10 ^ Z.of_nat w ->
  fraction_read (fraction_text w n ++ "Z") = Some (n * 10 ^ (9 - Z.of_nat w), "Z").
Proof.
  revert n. induction w as [|w IH]; intros n Hw Hn; cbn [fraction_text].
  - cbn in Hn. assert (n = 0) as -> by lia. done.
  - assert (10 ^ (9 - Z.of_nat w) = 10 * 10 ^ (9 - Z.of_nat (S w))) as Ep.
    { replace (9 - Z.of_nat w) with (Z.succ (9 - Z.of_nat (S w))) by lia. apply Z.pow_succ_r. lia. }
    rewrite Nat2Z.inj_succ, Z.pow_succ_r in Hn by lia. destruct (Z.eqb_spec (n mod 10) 0) as [E|E].
    + rewrite IH by (try lia; set (p := 10 ^ Z.of_nat w) in *; dlia). rewrite Ep, Z.mul_assoc. do 3 f_equal. dlia.
    + destruct (pad_digits (S w) n) as [Hd Hl]. rewrite str_app_assoc. cbn [String.append fraction_read].
      rewrite digits_app by done. rewrite str_take_ge, Hl by (rewrite Hl; lia).
      destruct (String.eqb_spec (pad (S w) n) "") as [E0|_]; [by rewrite E0 in Hl|]. rewrite decimal_pad_mod, Z.mod_small.
      * by rewrite Z.mul_0_r, Z.add_0_l.
      * rewrite Nat2Z.inj_succ, Z.pow_succ_r; lia.
Qed.

(** The next number of the text. *)
Ltac read_digits := rewrite fixed_pad by (change (10 ^ Z.of_nat 4) with 10000; change (10 ^ Z.of_nat 2) with 100; lia);
  cbn [mbind option_bind fst snd expect String.append Ascii.eqb Bool.eqb].

(** What is written is read back. *)
Lemma time_text_read t : time_writable t = true -> parse_time (time_text t) = Some t.
Proof.
  unfold time_writable, year_of, time_text, parse_time. intros Hw. pose proof (date_of_spec (t / second / 86400)) as Hd.
  destruct (date_of (t / second / 86400)) as [[y m] d]. cbn [fst] in Hw. destruct Hd as (Ed & Hm & Hdd).
  assert (0 <= y < 10 ^ Z.of_nat 4) as Hy by (change (10 ^ Z.of_nat 4) with 10000; lia).
  assert (d <= 31).
  { unfold days_in in Hdd. destruct (m =? 2); [destruct (is_leap y)|destruct (_ || _)]; lia. }
  set (s := t / second mod 86400). assert (0 <= s < 86400) as Hs by (unfold s; dlia).
  assert (0 <= s / 3600 < 24 /\ 0 <= s / 60 mod 60 < 60 /\ 0 <= s mod 60 < 60 /\ s = 3600 * (s / 3600) + 60 * (s / 60 mod 60) + s mod 60) as (H1 & H2 & H3 & Es) by dlia.
  change (10 ^ Z.of_nat 4) with 10000 in Hy.
  do 6 read_digits. rewrite fraction_read_text by (try lia; unfold second; dlia).
  cbn [mbind option_bind fst snd zone_read String.eqb]. change (zone_read "Z") with (Some 0). cbn [mbind option_bind].
  rewrite Ed. assert ((1 <=? m) && (m <=? 12) && (1 <=? d) && (d <=? days_in m y) && ((s / 3600 <? 24) && (s / 60 mod 60 <? 60) && (s mod 60 <? 60)) = true) as ->.
  { rewrite !andb_true_iff, !Z.leb_le, !Z.ltb_lt. lia. }
  f_equal. change (10 ^ (9 - Z.of_nat 9)) with 1. unfold s, second in *. dlia.
Qed.

Lemma time_text_ascii t : str_forall (fun a => byte a <? 0x80) (time_text t) = true.
Proof.
  assert (forall w n, str_forall (fun a => byte a <? 0x80) (pad w n) = true) as Hp.
  { intros w n. eapply str_forall_impl; [|apply pad_digits]. intros a. unfold is_digit. rewrite between_spec, Z.ltb_lt. lia. }
  assert (forall w n, str_forall (fun a => byte a <? 0x80) (fraction_text w n) = true) as Hf.
  { induction w as [|w IH]; intros n; cbn [fraction_text]; [done|]. destruct (n mod 10 =? 0); [apply IH|]. rewrite str_forall_app. by rewrite Hp. }
  unfold time_text. destruct (date_of _) as [[y m] d]. by rewrite !str_forall_app, !Hp, Hf.
Qed.

Lemma time_text_utf8 t : valid_utf8 (time_text t).
Proof. apply ascii_utf8, time_text_ascii. Qed.

Definition noon_2026 : Z := (62135596800 + 1767268800) * second.

Example noon : time_text (noon_2026 + 250000000) = "2026-01-01T12:00:00.25Z".
Proof. reflexivity. Qed.

Example offset_read : parse_time "2026-01-01T13:30:00+01:30" = Some noon_2026.
Proof. reflexivity. Qed.
