(* ===== verification/SortSlice.v ===== *)
(** * sort.Slice

    [sort.Slice(s, less)] as a stable insertion sort (which is what the
    library runs on short slices), and the lemmas that make the outcome
    independent of the algorithm: the result is an ordered permutation, and
    where [less] separates the elements there is only one. *)

From S2P Require Import Prelude.

Section Sort.
Context {A : Type} (less : A -> A -> bool).

Fixpoint insert_by (x : A) (l : list A) : list A :=
  match l with
  | [] => [x]
  | y :: l' => if less y x then y :: insert_by x l' else x :: l
  end.

Fixpoint sort_slice (l : list A) : list A :=
  match l with [] => [] | x :: l' => insert_by x (sort_slice l') end.

Lemma insert_by_perm x l : insert_by x l ≡ₚ x :: l.
Proof. induction l as [|y l IH]; cbn; [done|]. case_if; [|done]. rewrite IH. apply Permutation_swap. Qed.

Lemma sort_slice_perm l : sort_slice l ≡ₚ l.
Proof. induction l as [|x l IH]; cbn; [done|]. by rewrite insert_by_perm, IH. Qed.

(** [x] may stand before [y]. *)
Definition ordered (x y : A) : Prop := less y x = false.

Section Order.
Context (P : A -> Prop).
Hypothesis ordered_trans : forall x y z,
  P x -> P y -> P z -> ordered x y -> ordered y z -> ordered x z.
Hypothesis less_asym : forall x y, P x -> P y -> less x y = true -> ordered x y.

Lemma insert_by_sorted x l :
  P x -> Forall P l -> StronglySorted ordered l -> StronglySorted ordered (insert_by x l).
Proof.
  induction l as [|y l IH]; intros Px Hl Hs; [repeat constructor|].
  inversion Hl as [|? ? Py Hl']; subst. inversion Hs as [|? ? Hs' Hy]; subst.
  cbn. destruct (less y x) eqn:E; constructor.
  - by apply IH.
  - rewrite insert_by_perm. constructor; [by apply less_asym|done].
  - done.
  - constructor; [done|]. rewrite Forall_lookup in Hy, Hl' |- *. intros i z Hz.
    eapply (ordered_trans x y z); eauto.
Qed.

Lemma sort_slice_sorted l : Forall P l -> StronglySorted ordered (sort_slice l).
Proof.
  induction 1 as [|x l Px Hl IH]; cbn; [constructor|]. apply insert_by_sorted; [done| |done].
  by rewrite sort_slice_perm.
Qed.
End Order.

(** Two ordered permutations of elements that [less] separates are equal. *)
Lemma ordered_perm_unique l1 l2 :
  (forall x y, x ∈ l1 -> y ∈ l2 -> ordered x y -> ordered y x -> x = y) ->
  StronglySorted ordered l1 -> StronglySorted ordered l2 -> l1 ≡ₚ l2 -> l1 = l2.
Proof. apply StronglySorted_unique_strong. Qed.
End Sort.
