(* ===== verification/Errors.v ===== *)
(** * Error values

    The Go [error] values the components exchange, [errors.Is], and the one
    promise the components rely on from google.golang.org/grpc/status. *)

From S2P Require Import Prelude.

(** The canonical gRPC codes. *)
Inductive Code : Type :=
| OK | Canceled | Unknown | InvalidArgument | DeadlineExceeded | NotFound
| AlreadyExists | PermissionDenied | ResourceExhausted | FailedPrecondition
| Aborted | OutOfRange | Unimplemented | Internal | Unavailable | DataLoss
| Unauthenticated.

#[export] Instance Code_eq_dec : EqDecision Code.
Proof. solve_decision. Defined.

(** Sentinels are the package-level [errors.New] values, compared by identity;
    [ENew] is any other [errors.New]/[fmt.Errorf] value, [EWrap] one made with
    the %w verb, [EStatus] a gRPC status error, [EForeign] an error built by a
    dependency of the program. *)
Inductive error : Type :=
| ErrOpen
| ErrNoCapacity
| ErrAdmissionRejected
| ErrNoSnapshot
| ErrModelNotFound
| ErrNoLiveAssignee
| ErrEOF
| ErrUnexpectedEOF
| ErrCtxCanceled
| ErrCtxDeadlineExceeded
| ENew (msg : string)
| EWrap (inner : error) (msg : string)
| EStatus (c : Code) (msg : string)
| EModelNotFoundError (model : string)
| EForeign (tag : nat).

#[export] Instance error_eq_dec : EqDecision error.
Proof. solve_decision. Defined.

(** [errors.Is(err, target)]: walk the [Unwrap] chain. *)
Fixpoint errors_Is (e target : error) : bool :=
  bool_decide (e = target) ||
  match e with EWrap inner _ => errors_Is inner target | _ => false end.

(** No gRPC status anywhere in the chain, and nothing of unknown origin. *)
Fixpoint statusless (e : error) : bool :=
  match e with
  | EStatus _ _ | EForeign _ => false
  | EWrap inner _ => statusless inner
  | _ => true
  end.

(** [status.FromError], as documented: it reports the status carried by the
    error or by an error it wraps, and [ok = false] (here [None]) for an error
    that carries none. *)
Class GrpcStatus := {
  FromError : error -> option Code;
  FromError_status : forall c msg, FromError (EStatus c msg) = Some c;
  FromError_wrap : forall e msg, FromError (EWrap e msg) = FromError e;
  FromError_none : forall e, statusless e = true -> FromError e = None
}.

(** The interface is inhabited: foreign errors carry no status. *)
Fixpoint plain_FromError (e : error) : option Code :=
  match e with
  | EStatus c _ => Some c
  | EWrap inner _ => plain_FromError inner
  | _ => None
  end.

Program Definition plain_grpc : GrpcStatus :=
  {| FromError := plain_FromError |}.
Next Obligation. done. Qed.
Next Obligation. done. Qed.
Next Obligation. intros e; induction e; naive_solver. Qed.

Lemma errors_Is_refl e : errors_Is e e = true.
Proof. destruct e; cbn; by rewrite bool_decide_true. Qed.

Lemma errors_Is_wrap e t msg : errors_Is e t = true -> errors_Is (EWrap e msg) t = true.
Proof. intros H. cbn [errors_Is]. rewrite H. by rewrite orb_true_r. Qed.

#[export] Hint Resolve errors_Is_refl errors_Is_wrap : forge.
