(* ===== verification/Breaker.v ===== *)
(** * Circuit breakers (services/gateway/reliability/breaker.go)

    The map of per-worker breakers, its four operations and the protocol they
    follow.  [time.Now()] is an argument; the optional state callback is a log
    of the notifications it received. *)

From S2P Require Import Prelude Float64 Rounding Errors.

Inductive State : Type := StateClosed | StateHalfOpen | StateOpen.

#[export] Instance State_eq_dec : EqDecision State.
Proof. solve_decision. Defined.

Record BreakerConfig := mkBreakerConfig {
  MinRequests : Z;
  FailureRatio : float64;
  Timeout : Z;
  MaxHalfOpen : Z
}.

Definition DefaultBreakerConfig : BreakerConfig :=
  {| MinRequests := 10; FailureRatio := flit 5 10;
     Timeout := 5 * second; MaxHalfOpen := 2 |}.

Record workerBreaker := mkBreaker {
  state : State;
  requests : Z;
  failures : Z;
  successes : Z;
  halfOpenLeft : Z;
  openedAt : Z
}.

Record BreakerMap := mkBreakerMap {
  breakers : gmap string workerBreaker;
  cfg : BreakerConfig;
  onState : option (list (string * State))
}.

Definition NewBreakerMap (c : BreakerConfig) (callback : bool) : BreakerMap :=
  {| breakers := ∅;
     cfg := {| MinRequests := if MinRequests c =? 0 then 10 else MinRequests c;
               FailureRatio := if fleb (FailureRatio c) f_zero then flit 5 10
                               else FailureRatio c;
               Timeout := if Timeout c <=? 0 then 5 * second else Timeout c;
               MaxHalfOpen := if MaxHalfOpen c =? 0 then 2 else MaxHalfOpen c |};
     onState := if callback then Some [] else None |}.

Definition newBreaker : workerBreaker := mkBreaker StateClosed 0 0 0 0 0.

(** [get] inserts a closed breaker for a worker it has not seen. *)
Definition get (b : BreakerMap) (workerID : string) : workerBreaker * BreakerMap :=
  match breakers b !! workerID with
  | Some wb => (wb, b)
  | None =>
      (newBreaker,
       mkBreakerMap (<[workerID := newBreaker]> (breakers b)) (cfg b) (onState b))
  end.

(** The write through the pointer [get] returned. *)
Definition put (b : BreakerMap) (workerID : string) (wb : workerBreaker) : BreakerMap :=
  mkBreakerMap (<[workerID := wb]> (breakers b)) (cfg b) (onState b).

Definition set_state_field (wb : workerBreaker) (to : State) : workerBreaker :=
  mkBreaker to (requests wb) (failures wb) (successes wb) (halfOpenLeft wb) (openedAt wb).

Definition setState (b : BreakerMap) (workerID : string) (wb : workerBreaker) (to : State)
  : workerBreaker * BreakerMap :=
  if bool_decide (state wb = to) then (wb, b)
  else (set_state_field wb to,
        mkBreakerMap (breakers b) (cfg b)
          ((fun log => (log ++ [(workerID, to)])%list) <$> onState b)).

Definition Allow (b : BreakerMap) (workerID : string) (now : Z)
  : option error * BreakerMap :=
  let '(wb, b) := get b workerID in
  match state wb with
  | StateOpen =>
      if Timeout (cfg b) <=? time_sub now (openedAt wb) then
        let '(wb, b) := setState b workerID wb StateHalfOpen in
        let wb := mkBreaker (state wb) (requests wb) (failures wb) (successes wb)
                            (MaxHalfOpen (cfg b)) (openedAt wb) in
        (None, put b workerID wb)
      else (Some ErrOpen, b)
  | StateHalfOpen =>
      if halfOpenLeft wb =? 0 then (Some ErrOpen, b)
      else
        let wb := mkBreaker (state wb) (requests wb) (failures wb) (successes wb)
                            (wrap_u32 (halfOpenLeft wb - 1)) (openedAt wb) in
        (None, put b workerID wb)
  | StateClosed => (None, b)
  end.

Definition Success (b : BreakerMap) (workerID : string) : BreakerMap :=
  let '(wb, b) := get b workerID in
  let wb := mkBreaker (state wb) (wrap_u32 (requests wb + 1)) (failures wb)
                      (wrap_u32 (successes wb + 1)) (halfOpenLeft wb) (openedAt wb) in
  match state wb with
  | StateHalfOpen =>
      let '(wb, b) := setState b workerID wb StateClosed in
      put b workerID (mkBreaker (state wb) 0 0 0 (halfOpenLeft wb) (openedAt wb))
  | StateClosed =>
      if wrap_u32 (MinRequests (cfg b) * 2) <=? requests wb then
        put b workerID (mkBreaker (state wb) (requests wb / 2) (failures wb / 2)
                                  (successes wb / 2) (halfOpenLeft wb) (openedAt wb))
      else put b workerID wb
  | StateOpen => put b workerID wb
  end.

(** The transition to open shared by both failing branches. *)
Definition open_now (b : BreakerMap) (workerID : string) (wb : workerBreaker) (now : Z)
  : BreakerMap :=
  let '(wb, b) := setState b workerID wb StateOpen in
  put b workerID (mkBreaker (state wb) (requests wb) (failures wb) (successes wb)
                            (halfOpenLeft wb) now).

Definition failure_ratio (f r : Z) : float64 := fdiv (f_of_Z f) (f_of_Z r).

Definition Failure (b : BreakerMap) (workerID : string) (now : Z) : BreakerMap :=
  let '(wb, b) := get b workerID in
  let wb := mkBreaker (state wb) (wrap_u32 (requests wb + 1))
                      (wrap_u32 (failures wb + 1)) (successes wb)
                      (halfOpenLeft wb) (openedAt wb) in
  if bool_decide (state wb = StateHalfOpen) then open_now b workerID wb now
  else if MinRequests (cfg b) <=? requests wb then
    if fleb (FailureRatio (cfg b)) (failure_ratio (failures wb) (requests wb))
    then open_now b workerID wb now
    else put b workerID wb
  else put b workerID wb.

(** [State] also creates the breaker it is asked about. *)
Definition StateOf (b : BreakerMap) (workerID : string) : State * BreakerMap :=
  let '(wb, b) := get b workerID in (state wb, b).

(** ** One breaker at a time

    [peek] is a worker's breaker as any operation would find it; [step] is
    what an operation does to that breaker alone.  The map operations refine
    it, and leave every other worker's breaker as it was. *)

Definition peek (b : BreakerMap) (w : string) : workerBreaker :=
  default newBreaker (breakers b !! w).

Inductive op : Type :=
| OpAllow (now : Z)
| OpSuccess
| OpFailure (now : Z)
| OpState.

Definition run_op (b : BreakerMap) (w : string) (o : op) : BreakerMap :=
  match o with
  | OpAllow now => (Allow b w now).2
  | OpSuccess => Success b w
  | OpFailure now => Failure b w now
  | OpState => (StateOf b w).2
  end.

(** The specification of an operation on one breaker, by cases on its state. *)
Definition trips (c : BreakerConfig) (wb : workerBreaker) : bool :=
  let r := wrap_u32 (requests wb + 1) in
  let f := wrap_u32 (failures wb + 1) in
  (MinRequests c <=? r) && fleb (FailureRatio c) (failure_ratio f r).

Definition step (c : BreakerConfig) (wb : workerBreaker) (o : op) : workerBreaker :=
  let 'mkBreaker st r f s hol at_ := wb in
  match o, st with
  | OpState, _ | OpAllow _, StateClosed => wb
  | OpAllow now, StateOpen =>
      if Timeout c <=? time_sub now at_
      then mkBreaker StateHalfOpen r f s (MaxHalfOpen c) at_ else wb
  | OpAllow _, StateHalfOpen =>
      if hol =? 0 then wb
      else mkBreaker StateHalfOpen r f s (wrap_u32 (hol - 1)) at_
  | OpSuccess, StateHalfOpen => mkBreaker StateClosed 0 0 0 hol at_
  | OpSuccess, StateOpen =>
      mkBreaker StateOpen (wrap_u32 (r + 1)) f (wrap_u32 (s + 1)) hol at_
  | OpSuccess, StateClosed =>
      if wrap_u32 (MinRequests c * 2) <=? wrap_u32 (r + 1)
      then mkBreaker StateClosed (wrap_u32 (r + 1) / 2) (f / 2) (wrap_u32 (s + 1) / 2) hol at_
      else mkBreaker StateClosed (wrap_u32 (r + 1)) f (wrap_u32 (s + 1)) hol at_
  | OpFailure now, StateHalfOpen =>
      mkBreaker StateOpen (wrap_u32 (r + 1)) (wrap_u32 (f + 1)) s hol now
  | OpFailure now, _ =>
      if trips c wb
      then mkBreaker StateOpen (wrap_u32 (r + 1)) (wrap_u32 (f + 1)) s hol now
      else mkBreaker st (wrap_u32 (r + 1)) (wrap_u32 (f + 1)) s hol at_
  end.

(** Whether [Allow] lets the request through. *)
Definition admits (c : BreakerConfig) (wb : workerBreaker) (now : Z) : bool :=
  match state wb with
  | StateClosed => true
  | StateOpen => Timeout c <=? time_sub now (openedAt wb)
  | StateHalfOpen => negb (halfOpenLeft wb =? 0)
  end.

Lemma get_spec b w :
  exists b', get b w = (peek b w, b') /\ cfg b' = cfg b /\ onState b' = onState b /\
    (forall w', peek b' w' = peek b w').
Proof.
  unfold get, peek. destruct (breakers b !! w) as [wb|] eqn:E; cbn.
  - exists b. auto.
  - eexists. split; [reflexivity|]. cbn. split; [done|]. split; [done|].
    intros w'. destruct (decide (w = w')) as [<-|].
    + by rewrite lookup_insert_eq, E.
    + by rewrite lookup_insert_ne.
Qed.

Lemma peek_put b w wb w' :
  peek (put b w wb) w' = if decide (w = w') then wb else peek b w'.
Proof.
  unfold peek, put. cbn. rewrite lookup_insert. by case_decide.
Qed.

Lemma setState_spec b w wb to :
  exists log, setState b w wb to =
    (set_state_field wb to, mkBreakerMap (breakers b) (cfg b) log).
Proof.
  unfold setState. case_bool_decide.
  - exists (onState b). destruct wb, b; cbn in *. by subst.
  - eauto.
Qed.

(** [open_breaker b w] names the pieces of [get] and leaves the breaker's
    fields as variables. *)
Ltac open_breaker b w :=
  let b' := fresh "b'" in let Hc := fresh "Hcfg" in let Hp := fresh "Hpeek" in
  destruct (get_spec b w) as (b' & -> & Hc & _ & Hp);
  destruct (peek b w) as [? ? ? ? ? ?] eqn:?; cbn -[fleb fdiv f_of_Z time_sub];
  rewrite ?Hc.

Ltac name_setState :=
  repeat match goal with
  | |- context [setState ?b ?w ?wb ?to] =>
      let log := fresh "log" in
      destruct (setState_spec b w wb to) as [log ->];
      cbn -[fleb fdiv f_of_Z time_sub]
  end.

Lemma run_op_peek b w o w' :
  cfg (run_op b w o) = cfg b /\
  peek (run_op b w o) w' =
    if decide (w = w') then step (cfg b) (peek b w) o else peek b w'.
Proof.
  destruct o; cbn [run_op]; unfold Allow, Success, Failure, StateOf, open_now;
    open_breaker b w; destruct state0; cbn -[fleb fdiv f_of_Z time_sub];
    unfold trips; cbn -[fleb fdiv f_of_Z time_sub];
    repeat first [progress name_setState | case_if]; cbn -[fleb fdiv f_of_Z time_sub] in *;
    (split; [done|]); rewrite ?peek_put; try case_decide; subst; rewrite ?Hpeek;
    unfold peek in *; cbn -[fleb fdiv f_of_Z time_sub] in *; try congruence.
Qed.

Lemma Allow_result b w now :
  (Allow b w now).1 = if admits (cfg b) (peek b w) now then None else Some ErrOpen.
Proof.
  unfold Allow, admits. open_breaker b w.
  destruct state0; cbn -[time_sub]; repeat first [progress name_setState | case_if];
    try done; zbool; congruence.
Qed.

(** Two maps are equivalent when no operation can tell them apart: a breaker
    that was never created and a fresh closed one are the same. *)
#[export] Instance BreakerMap_equiv : Equiv BreakerMap :=
  fun b b' => cfg b = cfg b' /\ forall w, peek b w = peek b' w.

#[export] Instance BreakerMap_equivalence : Equivalence (≡@{BreakerMap}).
Proof.
  split.
  - by intros b.
  - intros b b' [H1 H2]. split; auto.
  - intros b1 b2 b3 [H1 H2] [H3 H4]. split; [congruence|]. intros. by rewrite H2.
Qed.

#[export] Instance run_op_proper :
  Proper ((≡) ==> (=) ==> (=) ==> (≡)) run_op.
Proof.
  intros b b' [Hc Hp] w ? <- o ? <-. split.
  - by rewrite (proj1 (run_op_peek b w o w)), (proj1 (run_op_peek b' w o w)).
  - intros w'. rewrite (proj2 (run_op_peek b w o w')), (proj2 (run_op_peek b' w o w')).
    by rewrite Hc, !Hp.
Qed.

(** Asking for the state, or being refused, changes nothing. *)
Lemma StateOf_spec b w : (StateOf b w).1 = state (peek b w) /\ (StateOf b w).2 ≡ b.
Proof.
  unfold StateOf. destruct (get_spec b w) as (b' & -> & Hc & _ & Hp). by split.
Qed.

Lemma Allow_refused b w now :
  admits (cfg b) (peek b w) now = false ->
  (Allow b w now).1 = Some ErrOpen /\ (Allow b w now).2 ≡ b.
Proof.
  intros Ha. split; [by rewrite Allow_result, Ha|].
  assert (step (cfg b) (peek b w) (OpAllow now) = peek b w) as Hs.
  { unfold admits in Ha. destruct (peek b w) as [[] r f s hol at_];
      cbn [state halfOpenLeft openedAt step] in *; [done| |].
    - apply negb_false_iff in Ha. by rewrite Ha.
    - by rewrite Ha. }
  split; [exact (proj1 (run_op_peek b w (OpAllow now) w))|].
  intros w'. change (Allow b w now).2 with (run_op b w (OpAllow now)).
  rewrite (proj2 (run_op_peek b w (OpAllow now) w')), Hs. case_decide; congruence.
Qed.

(** ** Runs of operations *)

Fixpoint allow_all (b : BreakerMap) (w : string) (nows : list Z)
  : list (option error) * BreakerMap :=
  match nows with
  | [] => ([], b)
  | now :: rest =>
      let '(e, b) := Allow b w now in
      let '(es, b) := allow_all b w rest in
      (e :: es, b)
  end.

Definition admitted (es : list (option error)) : Z :=
  Z.of_nat (length (filter (fun e => e = None) es)).

Definition run_ops (b : BreakerMap) (os : list (string * op)) : BreakerMap :=
  foldl (fun b '(w, o) => run_op b w o) b os.

Lemma admitted_cons e es :
  admitted (e :: es) = (if decide (e = None) then 1 else 0) + admitted es.
Proof. unfold admitted. rewrite filter_cons. case_decide; cbn; lia. Qed.

Lemma allow_all_cons b w now nows :
  (allow_all b w (now :: nows)).1 =
    (Allow b w now).1 :: (allow_all (Allow b w now).2 w nows).1.
Proof.
  cbn. destruct (Allow b w now) as [e b1]. cbn.
  by destruct (allow_all b1 w nows).
Qed.

Lemma Allow_peek b w now :
  cfg (Allow b w now).2 = cfg b /\
  peek (Allow b w now).2 w = step (cfg b) (peek b w) (OpAllow now).
Proof.
  destruct (run_op_peek b w (OpAllow now) w) as [H1 H2]. cbn [run_op] in *.
  rewrite decide_True in H2 by done. done.
Qed.

(** Probes left to a half-open breaker are handed out one per call, whatever
    the clock says, until they are gone. *)
Lemma half_open_admits b w nows :
  state (peek b w) = StateHalfOpen -> in_u32 (halfOpenLeft (peek b w)) ->
  admitted (allow_all b w nows).1 =
    Z.min (Z.of_nat (length nows)) (halfOpenLeft (peek b w)).
Proof.
  revert b. induction nows as [|now nows IH]; intros b Hst Hleft.
  { cbn. unfold in_u32 in *. unfold admitted. cbn. lia. }
  rewrite allow_all_cons, admitted_cons, Allow_result.
  destruct (Allow_peek b w now) as [Hc Hp].
  unfold admits. destruct (peek b w) as [st r f s hol at_] eqn:E.
  cbn [state halfOpenLeft step] in *. subst st. unfold in_u32 in *.
  destruct (hol =? 0) eqn:E0; zbool; cbn [negb];
    [rewrite decide_False by done|rewrite decide_True by done].
  - rewrite IH; rewrite Hp; cbn [state halfOpenLeft length]; lia || done.
  - assert (wrap_u32 (hol - 1) = hol - 1) as Hw by (apply wrap_u32_id; unfold in_u32; lia).
    rewrite Hw in Hp.
    rewrite IH; rewrite Hp; cbn [state halfOpenLeft length]; lia || done.
Qed.

(** ** Invariant of the counters *)

(** After [n] operations: every counter is a [uint32] that has not wrapped,
    the recorded outcomes are among the requests, and no breaker holds more
    probes than the configuration grants. *)
Record breaker_ok (c : BreakerConfig) (n : Z) (wb : workerBreaker) : Prop := {
  ok_requests : 0 <= requests wb <= n;
  ok_failures : 0 <= failures wb;
  ok_successes : 0 <= successes wb;
  ok_outcomes : failures wb + successes wb <= requests wb;
  ok_probes : 0 <= halfOpenLeft wb <= MaxHalfOpen c
}.

Lemma half_sum f s r : f + s <= r -> f / 2 + s / 2 <= r / 2.
Proof. intros. Z.to_euclidean_division_equations. lia. Qed.

Lemma step_ok c n wb o :
  0 <= MaxHalfOpen c -> n < two32 - 1 ->
  breaker_ok c n wb -> breaker_ok c (n + 1) (step c wb o).
Proof.
  intros Hm Hn [Hr Hf Hs Ho Hp]. destruct wb as [st r f s hol at_]. cbn in *.
  assert (wrap_u32 (r + 1) = r + 1) as E1 by (apply wrap_u32_id; unfold in_u32; lia).
  assert (wrap_u32 (f + 1) = f + 1) as E2 by (apply wrap_u32_id; unfold in_u32; lia).
  assert (wrap_u32 (s + 1) = s + 1) as E3 by (apply wrap_u32_id; unfold in_u32; lia).
  pose proof (half_sum f (s + 1) (r + 1)).
  assert (0 <> hol -> wrap_u32 (hol - 1) < hol /\ 0 <= wrap_u32 (hol - 1)) as E4.
  { intros. pose proof (wrap_u32_range (hol - 1)). split; [|unfold in_u32 in *; lia].
    unfold wrap_u32. assert (0 < two32) by done.
    pose proof (Z.mod_le (hol - 1) two32). lia. }
  destruct o, st; cbn [step]; rewrite ?E1, ?E2, ?E3; case_ifs;
    constructor; cbn [requests failures successes halfOpenLeft] in *;
    try lia; Z.to_euclidean_division_equations; lia.
Qed.

Lemma run_ops_ok c b os n :
  0 <= MaxHalfOpen c -> 0 <= n -> n + Z.of_nat (length os) < two32 ->
  cfg b = c -> (forall w, breaker_ok c n (peek b w)) ->
  forall w, breaker_ok c (n + Z.of_nat (length os)) (peek (run_ops b os) w).
Proof.
  intros Hm. revert b n. induction os as [|[w' o] os IH]; intros b n Hn0 Hn Hc Hb w.
  { cbn. by rewrite Z.add_0_r. }
  cbn [run_ops foldl length] in *.
  replace (n + Z.of_nat (S (length os))) with (n + 1 + Z.of_nat (length os)) by lia.
  destruct (run_op_peek b w' o w') as [Hc' _].
  apply IH; [lia|lia|congruence|]. intros w2.
  destruct (run_op_peek b w' o w2) as [_ ->]. rewrite Hc. case_decide.
  - apply step_ok; auto; lia.
  - destruct (Hb w2). constructor; lia.
Qed.

(** ** The failure ratio

    The threshold one half is compared with the rounded quotient of the two
    counters; on [uint32] counters the rounding never changes the answer. *)

Lemma half_val : fval (flit 5 10) = 2 ^ 1073 /\ good (flit 5 10).
Proof. split; [vm_compute; exact eq_refl|]. split; vm_compute; exact eq_refl. Qed.

Lemma ratio_val f r :
  0 <= f <= r -> 0 < r < two32 ->
  good (failure_ratio f r) /\ fval (failure_ratio f r) = rcap (f * one_val) r.
Proof.
  intros Hf Hr. assert (two32 < 2 ^ 53) by (unfold two32; lia).
  pose proof (f_of_Z_exact f ltac:(lia)) as Ef. pose proof (f_of_Z_exact r ltac:(lia)) as Er.
  pose proof one_val_pos.
  destruct (fdiv_spec (f_of_Z f) (f_of_Z r)) as (Ed & Vd & Nd);
    [apply f_of_Z_good|apply f_of_Z_good|apply f_of_Z_finite; lia|apply f_of_Z_finite; lia|nia|].
  split; [by split|]. unfold failure_ratio. rewrite Ed, Ef, Er.
  change (2 ^ 1074) with one_val. unfold rndQ.
  destruct (Z.ltb_spec (f * one_val * one_val) 0); [nia|].
  unfold rcap. by rewrite rnd_scale by lia.
Qed.

Lemma half_ratio f r :
  0 <= f <= r -> 0 < r < two32 ->
  fleb (flit 5 10) (failure_ratio f r) = (r <=? 2 * f).
Proof.
  intros Hf Hr. destruct half_val as [Eh Gh]. destruct (ratio_val f r Hf Hr) as [Gr Er].
  rewrite (fleb_val _ _ Gh Gr), Eh, Er. pose proof one_val_pos.
  pose proof one_val_double as Ed. pose proof (pow2_pos 1073 ltac:(lia)) as P.
  destruct (Z.leb_spec r (2 * f)) as [Hle|Hlt].
  - apply Z.leb_le. rewrite <- (Z.mul_1_l (2 ^ 1073)) at 1.
    rewrite <- (rcap_exact 1 1073) by lia. apply rcap_mono; [lia|lia|nia|lia|]. nia.
  - apply Z.leb_gt.
    apply Z.le_lt_trans with ((2 ^ 53 - 1) * 2 ^ 1020).
    + rewrite <- (rcap_exact (2 ^ 53 - 1) 1020) by lia.
      pose proof (pow2_pos 1020 ltac:(lia)) as P2.
      assert (2 ^ 1073 = 2 ^ 53 * 2 ^ 1020) as E2 by reflexivity.
      apply rcap_mono; [nia|lia|nia|lia|].
      rewrite Ed, E2. unfold two32 in *. set (u := 2 ^ 1020) in *. clearbody u. nia.
    + assert (2 ^ 1073 = 2 ^ 53 * 2 ^ 1020) as -> by reflexivity.
      apply Z.mul_lt_mono_pos_r; [apply pow2_pos; lia|lia].
Qed.

(** ** Properties *)

(** C13: every operation on the breaker map acts on the named worker's breaker
    exactly as the single-breaker specification [step] says, leaves every other
    worker's breaker and the configuration untouched, and [Allow] answers nil
    exactly when that breaker admits. *)
Theorem breaker_map_refines_single b w o w' now :
  cfg (run_op b w o) = cfg b /\
  peek (run_op b w o) w' =
    (if decide (w = w') then step (cfg b) (peek b w) o else peek b w') /\
  (Allow b w now).1 =
    (if admits (cfg b) (peek b w) now then None else Some ErrOpen).
Proof.
  destruct (run_op_peek b w o w') as [? ?]. auto using Allow_result.
Qed.

(** The edges of the breaker's state machine. *)
Inductive edge (c : BreakerConfig) (wb : workerBreaker) : op -> State -> Prop :=
| edge_trip now :
    state wb = StateClosed -> trips c wb = true ->
    edge c wb (OpFailure now) StateOpen
| edge_probe now :
    state wb = StateOpen -> Timeout c <= time_sub now (openedAt wb) ->
    edge c wb (OpAllow now) StateHalfOpen
| edge_recover :
    state wb = StateHalfOpen -> edge c wb OpSuccess StateClosed
| edge_reopen now :
    state wb = StateHalfOpen -> edge c wb (OpFailure now) StateOpen.

(** A worker's breaker changes state only along the four edges of the
    protocol (a closed one trips on a failure over the threshold, an open one
    becomes half-open by an [Allow] after the timeout, a half-open one closes
    on success and reopens on failure), and only by an operation on that
    worker. *)
Theorem breaker_protocol b w o w' :
  state (peek (run_op b w o) w') = state (peek b w') \/
  (w = w' /\ edge (cfg b) (peek b w) o (state (peek (run_op b w o) w'))).
Proof.
  destruct (run_op_peek b w o w') as [_ ->]. case_decide; [|auto]. subst w'.
  destruct (peek b w) as [st r f s hol at_] eqn:E.
  destruct o, st; cbn [step]; try (left; reflexivity); case_ifs;
    try (left; reflexivity); right; (split; [done|]); by constructor.
Qed.

(** An open breaker refuses every request until the timeout has elapsed,
    and refusing leaves it as it is. *)
Theorem open_refuses_until_timeout b w nows :
  state (peek b w) = StateOpen ->
  Forall (fun now => time_sub now (openedAt (peek b w)) < Timeout (cfg b)) nows ->
  Forall (fun e => e = Some ErrOpen) (allow_all b w nows).1 /\
  peek (allow_all b w nows).2 w = peek b w.
Proof.
  revert b. induction nows as [|now nows IH]; intros b Hst Hall; [by split; [constructor|]|].
  apply Forall_cons_1 in Hall as [Hnow Hall].
  assert (admits (cfg b) (peek b w) now = false) as Ha.
  { unfold admits. rewrite Hst. by apply Z.leb_gt. }
  assert (step (cfg b) (peek b w) (OpAllow now) = peek b w) as Hs.
  { destruct (peek b w). cbn in *. subst. apply Z.leb_gt in Hnow. by rewrite Hnow. }
  destruct (Allow_peek b w now) as [Hc Hp]. rewrite Hs in Hp.
  rewrite allow_all_cons, Allow_result, Ha.
  destruct (IH (Allow b w now).2) as [H1 H2]; [by rewrite Hp|by rewrite Hp, Hc|].
  split; [by constructor|]. cbn. destruct (Allow b w now) as [e b1]. cbn in *.
  destruct (allow_all b1 w nows) as [es b2]. cbn in *. congruence.
Qed.

Definition demo_open : BreakerMap :=
  put (NewBreakerMap DefaultBreakerConfig false) "w1"
    (mkBreaker StateOpen 10 5 5 0 (100 * second)).

Lemma open_refuses_witness :
  Forall (fun e => e = Some ErrOpen)
    (allow_all demo_open "w1" [101 * second; 104 * second]).1 /\
  peek (allow_all demo_open "w1" [101 * second; 104 * second]).2 "w1" = peek demo_open "w1".
Proof.
  apply open_refuses_until_timeout; [reflexivity|].
  repeat constructor.
Defined.

(** Once the timeout has elapsed, the calls to [Allow] that precede the
    first recorded outcome admit [MaxHalfOpen + 1] requests and no more, at
    whatever time they come: the call that turns the breaker half-open is not
    counted against the quota it sets, and a spent quota is never renewed. *)
Theorem half_open_quota b w now nows :
  state (peek b w) = StateOpen ->
  Timeout (cfg b) <= time_sub now (openedAt (peek b w)) ->
  in_u32 (MaxHalfOpen (cfg b)) ->
  admitted (allow_all b w (now :: nows)).1 =
    Z.min (1 + Z.of_nat (length nows)) (1 + MaxHalfOpen (cfg b)).
Proof.
  intros Hst Hnow Hmax. rewrite allow_all_cons, admitted_cons, Allow_result.
  destruct (Allow_peek b w now) as [Hc Hp].
  apply Z.leb_le in Hnow. unfold admits. rewrite Hst, Hnow.
  rewrite decide_True by done.
  destruct (peek b w) as [st r f s hol at_]. cbn [state step openedAt] in *. subst st.
  rewrite Hnow in Hp.
  rewrite half_open_admits; rewrite Hp; cbn [state halfOpenLeft]; lia || done.
Qed.

Lemma half_open_quota_witness :
  admitted (allow_all demo_open "w1" (105 * second :: replicate 10 (900 * second))).1 = 3.
Proof.
  rewrite half_open_quota; [reflexivity|reflexivity|vm_compute; discriminate|].
  vm_compute. split; [discriminate|reflexivity].
Defined.

(** C14: from a fresh map, after any sequence of fewer than 2^32 operations on
    any workers, no counter has wrapped, failures and successes are among the
    requests, and no breaker holds more half-open probes than configured. *)
Theorem breaker_counters_invariant c callback os w :
  0 <= MaxHalfOpen c ->
  Z.of_nat (length os) < two32 ->
  breaker_ok (cfg (NewBreakerMap c callback)) (Z.of_nat (length os))
    (peek (run_ops (NewBreakerMap c callback) os) w).
Proof.
  intros Hm Hn.
  assert (0 <= MaxHalfOpen (cfg (NewBreakerMap c callback))) as Hm'.
  { cbn. case_if; lia. }
  replace (Z.of_nat (length os)) with (0 + Z.of_nat (length os)) by lia.
  apply run_ops_ok; [done|lia|lia|done|]. intros w'.
  unfold peek, NewBreakerMap. cbn [breakers]. rewrite lookup_empty. cbn [default].
  constructor; cbn [newBreaker requests failures successes halfOpenLeft]; try lia.
  split; [lia|done].
Qed.

Lemma breaker_counters_invariant_witness :
  breaker_ok (cfg (NewBreakerMap DefaultBreakerConfig true)) 3
    (peek (run_ops (NewBreakerMap DefaultBreakerConfig true)
             [("a", OpFailure 1); ("a", OpSuccess); ("b", OpAllow 7)]) "a").
Proof.
  apply (breaker_counters_invariant DefaultBreakerConfig true
           [("a", OpFailure 1); ("a", OpSuccess); ("b", OpAllow 7)]);
    vm_compute; [discriminate|reflexivity].
Defined.

(** At the default threshold of one half, a failure trips a closed breaker
    exactly when the minimum number of requests is reached and failures are at
    least half of them: the rounded float quotient decides as the integers do. *)
Theorem default_trip_rule b w now :
  let wb := peek b w in
  FailureRatio (cfg b) = flit 5 10 ->
  state wb = StateClosed ->
  0 <= failures wb <= requests wb -> requests wb < two32 - 1 ->
  (state (peek (Failure b w now) w) = StateOpen <->
   MinRequests (cfg b) <= requests wb + 1 /\ requests wb + 1 <= 2 * (failures wb + 1)).
Proof.
  intros wb Hratio Hst Hf Hr.
  destruct (run_op_peek b w (OpFailure now) w) as [_ Hp]. cbn [run_op] in Hp.
  rewrite decide_True in Hp by done. rewrite Hp. fold wb.
  assert (trips (cfg b) wb = true <->
    MinRequests (cfg b) <= requests wb + 1 /\ requests wb + 1 <= 2 * (failures wb + 1)) as Ht.
  { unfold trips. rewrite !wrap_u32_id by (unfold in_u32; lia).
    rewrite Hratio, half_ratio by lia. by rewrite andb_true_iff, !Z.leb_le. }
  rewrite <- Ht. destruct wb as [st r f s hol at_]. cbn [state] in Hst. subst st.
  cbn [step]. by destruct (trips _ _).
Qed.

Lemma default_trip_rule_witness :
  let b := put (NewBreakerMap DefaultBreakerConfig false) "w1"
             (mkBreaker StateClosed 9 4 5 0 0) in
  state (peek (Failure b "w1" 7) "w1") = StateOpen.
Proof.
  apply (default_trip_rule
           (put (NewBreakerMap DefaultBreakerConfig false) "w1"
              (mkBreaker StateClosed 9 4 5 0 0)) "w1" 7);
    vm_compute; repeat split; discriminate || reflexivity.
Defined.
