(* ===== verification/Budget.v ===== *)
(** * Retry budget (services/gateway/reliability/budget.go)

    The token bucket that limits retries, over [float64], and its invariant:
    the balance stays between zero and the maximum through every rounding. *)

From S2P Require Import Prelude Float64 Rounding FloatRange.

Record RetryBudget := mkBudget {
  tokens : float64;
  maxTokens : float64;
  tokenRatio : float64
}.

Definition NewRetryBudget (maxT ratio : float64) : RetryBudget :=
  let maxT := if fleb maxT f_zero then f_of_Z 100 else maxT in
  let ratio := if fleb ratio f_zero then flit 1 10 else ratio in
  {| tokens := maxT; maxTokens := maxT; tokenRatio := ratio |}.

Definition BudgetAllow (b : RetryBudget) : bool :=
  fltb (fdiv (maxTokens b) (f_of_Z 2)) (tokens b).

Definition OnFailure (b : RetryBudget) : RetryBudget :=
  let t := fsub (tokens b) f_one in
  mkBudget (if fltb t f_zero then f_zero else t) (maxTokens b) (tokenRatio b).

Definition OnSuccess (b : RetryBudget) : RetryBudget :=
  let t := fadd (tokens b) (tokenRatio b) in
  mkBudget (if fltb (maxTokens b) t then maxTokens b else t) (maxTokens b) (tokenRatio b).

(** ** Runs *)

Inductive outcome : Type := Failed | Succeeded.

Definition record (b : RetryBudget) (o : outcome) : RetryBudget :=
  match o with Failed => OnFailure b | Succeeded => OnSuccess b end.

Definition record_all (b : RetryBudget) (os : list outcome) : RetryBudget := foldl record b os.

(** The balance is a float between zero and the (positive) maximum. *)
Record budget_ok (b : RetryBudget) : Prop := {
  bk_max : valid (maxTokens b) /\ finite (maxTokens b);
  bk_ratio : valid (tokenRatio b) /\ finite (tokenRatio b) /\ 0 < fval (tokenRatio b);
  bk_tokens : valid (tokens b) /\ finite (tokens b);
  bk_range : 0 <= fval (tokens b) <= fval (maxTokens b);
  bk_pos : 0 < fval (maxTokens b)
}.

Lemma OnFailure_ok b : budget_ok b -> budget_ok (OnFailure b).
Proof.
  intros [[Vm Fm] Hr [Vt Ft] Hrg Hpos]. destruct one_finite as [V1 F1].
  destruct (fsub_spec (tokens b) f_one Vt V1 Ft F1) as (Es & Vs & Ns).
  assert (good (fsub (tokens b) f_one)) as Gs by by split.
  assert (fval (fsub (tokens b) f_one) <= fval (tokens b)) as Hle.
  { rewrite Es. rewrite <- (rndZ_fval (tokens b)) at 2 by done. apply rndZ_mono.
    rewrite fval_one. pose proof one_val_pos. lia. }
  pose proof (finite_range (maxTokens b) Vm Fm) as Hinf.
  unfold OnFailure. rewrite (fltb_val _ _ Gs f_zero_good). change (fval f_zero) with 0.
  case_if; zbool; constructor; cbn [tokens maxTokens tokenRatio]; auto; try done;
    try (change (fval f_zero) with 0; lia); try lia.
  split; [done|]. apply good_finite; [done|lia].
Qed.

Lemma OnSuccess_ok b : budget_ok b -> budget_ok (OnSuccess b).
Proof.
  intros [[Vm Fm] (Vr & Fr & Pr) [Vt Ft] Hrg Hpos].
  destruct (fadd_spec (tokens b) (tokenRatio b) Vt Vr Ft Fr) as (Es & Vs & Ns).
  assert (good (fadd (tokens b) (tokenRatio b))) as Gs by by split.
  assert (fval (tokens b) <= fval (fadd (tokens b) (tokenRatio b))) as Hle.
  { rewrite Es. rewrite <- (rndZ_fval (tokens b)) at 1 by done. apply rndZ_mono. lia. }
  pose proof (finite_range (maxTokens b) Vm Fm) as Hinf.
  unfold OnSuccess. rewrite (fltb_val _ _ (finite_good _ Vm Fm) Gs).
  case_if; zbool; constructor; cbn [tokens maxTokens tokenRatio]; auto; try lia.
  split; [done|]. apply good_finite; [done|lia].
Qed.

Lemma record_all_ok b os : budget_ok b -> budget_ok (record_all b os).
Proof.
  revert b. induction os as [|o os IH]; intros b Hb; [done|].
  apply IH. destruct o; [by apply OnFailure_ok|by apply OnSuccess_ok].
Qed.

(** The replacement of a parameter that is not positive. *)
Lemma positive_or_default x dflt :
  valid x -> finite x -> valid dflt -> finite dflt -> 0 < fval dflt ->
  let y := if fleb x f_zero then dflt else x in
  valid y /\ finite y /\ 0 < fval y.
Proof.
  intros Vx Fx Vd Fd Pd. cbn zeta.
  rewrite (fleb_val _ _ (finite_good x Vx Fx) f_zero_good). change (fval f_zero) with 0.
  destruct (Z.leb_spec (fval x) 0); [by split|]. split; [exact Vx|]. split; [exact Fx|lia].
Qed.

Lemma NewRetryBudget_ok maxT ratio :
  valid maxT -> finite maxT -> valid ratio -> finite ratio ->
  budget_ok (NewRetryBudget maxT ratio).
Proof.
  intros Vm Fm Vr Fr.
  destruct (positive_or_default maxT (f_of_Z 100)) as (V1 & F1 & P1); [exact Vm|exact Fm|..].
  1,2,3: vm_compute; exact eq_refl || exact I.
  destruct (positive_or_default ratio (flit 1 10)) as (V2 & F2 & P2); [exact Vr|exact Fr|..].
  1,2,3: vm_compute; exact eq_refl || exact I.
  unfold NewRetryBudget. cbn zeta.
  constructor; cbn [tokens maxTokens tokenRatio]; [by split| |by split|lia|lia].
  split; [exact V2|]. by split.
Qed.

(** Counting down in whole tokens is exact. *)
Record counts (M n : Z) (b : RetryBudget) : Prop := {
  ct_max : maxTokens b = f_of_Z M;
  ct_good : valid (tokens b) /\ finite (tokens b);
  ct_val : fval (tokens b) = n * one_val
}.

Lemma OnFailure_counts M n b :
  M < 2 ^ 53 -> 0 < n <= M -> counts M n b -> counts M (n - 1) (OnFailure b).
Proof.
  intros HM Hn [Hmax [Vt Ft] Hval]. destruct one_finite as [V1 F1].
  destruct (fsub_spec (tokens b) f_one Vt V1 Ft F1) as (Es & Vs & Ns).
  assert (good (fsub (tokens b) f_one)) as Gs by by split.
  pose proof one_val_pos as P.
  assert (fval (fsub (tokens b) f_one) = (n - 1) * one_val) as E.
  { rewrite Es, Hval, fval_one. unfold rndZ.
    replace (n * one_val - one_val) with ((n - 1) * one_val) by ring.
    destruct (Z.ltb_spec ((n - 1) * one_val) 0); [nia|]. apply rcap_int; lia. }
  unfold OnFailure. rewrite (fltb_val _ _ Gs f_zero_good), E. change (fval f_zero) with 0.
  destruct (Z.ltb_spec ((n - 1) * one_val) 0); [nia|].
  constructor; cbn [tokens maxTokens]; [done| |done].
  split; [done|]. apply good_finite; [done|]. rewrite E.
  pose proof one_val_inf. nia.
Qed.

Lemma failures_counts M k :
  0 < M < 2 ^ 53 -> Z.of_nat k <= M -> forall ratio,
  counts M (M - Z.of_nat k) (record_all (NewRetryBudget (f_of_Z M) ratio) (replicate k Failed)).
Proof.
  intros HM Hk ratio.
  assert (forall n b, n <= M -> Z.of_nat k <= n -> counts M n b ->
    counts M (n - Z.of_nat k) (record_all b (replicate k Failed))) as Hgen.
  { clear Hk. induction k as [|k IH]; intros n b Hn Hkn Hc.
    - cbn. by rewrite Z.sub_0_r.
    - cbn [replicate record_all foldl record].
      replace (n - Z.of_nat (S k)) with (n - 1 - Z.of_nat k) by lia.
      apply IH; [lia|lia|]. apply OnFailure_counts; [lia|lia|done]. }
  pose proof (f_of_Z_exact M ltac:(lia)) as EM. pose proof one_val_pos.
  assert (maxTokens (NewRetryBudget (f_of_Z M) ratio) = f_of_Z M /\
          tokens (NewRetryBudget (f_of_Z M) ratio) = f_of_Z M) as [E1 E2].
  { unfold NewRetryBudget. cbn [maxTokens tokens].
    rewrite (fleb_val _ _ (f_of_Z_good M) f_zero_good), EM. change (fval f_zero) with 0.
    destruct (Z.leb_spec (M * one_val) 0); [nia|]. by split. }
  apply Hgen; [lia|lia|]. constructor; [done| |].
  - rewrite E2. split; [apply f_of_Z_good|apply f_of_Z_finite; lia].
  - rewrite E2. exact EM.
Qed.

(** ** Properties *)

(** Whatever the sequence of recorded outcomes, a retry budget created
    from finite parameters keeps a balance that is a number between zero and
    its positive maximum; the rounding of each addition and subtraction
    included. *)
Theorem retry_budget_in_range maxT ratio os :
  valid maxT -> finite maxT -> valid ratio -> finite ratio ->
  budget_ok (record_all (NewRetryBudget maxT ratio) os).
Proof. intros. by apply record_all_ok, NewRetryBudget_ok. Qed.

Lemma retry_budget_in_range_witness :
  budget_ok (record_all (NewRetryBudget (f_of_Z 100) (flit 1 10))
               [Failed; Succeeded; Failed; Failed]).
Proof. apply retry_budget_in_range; vm_compute; done. Defined.

(** Starting full with a whole number [M] of tokens, after [k] failures
    in a row the budget still allows a retry exactly when more than half of
    the tokens are left. *)
Theorem retry_budget_half_spent M k ratio :
  0 < M < 2 ^ 53 -> Z.of_nat k <= M ->
  BudgetAllow (record_all (NewRetryBudget (f_of_Z M) ratio) (replicate k Failed)) =
    (M <? 2 * (M - Z.of_nat k)).
Proof.
  intros HM Hk. destruct (failures_counts M k HM Hk ratio) as [Hmax [Vt Ft] Hval].
  unfold BudgetAllow. rewrite Hmax.
  assert (valid (f_of_Z 2) /\ finite (f_of_Z 2)) as [V2 F2] by (vm_compute; done).
  pose proof (f_of_Z_exact 2 ltac:(lia)) as E2. pose proof (f_of_Z_exact M ltac:(lia)) as EM.
  pose proof one_val_pos. assert (0 < fval (f_of_Z 2)) as P2 by (rewrite E2; lia).
  destruct (fdiv_spec (f_of_Z M) (f_of_Z 2) (proj1 (f_of_Z_good M)) V2
              (f_of_Z_finite M ltac:(lia)) F2 P2) as (Ed & Vd & Nd).
  assert (fval (f_of_Z M / f_of_Z 2)%F = M * 2 ^ 1073) as Ed'.
  { rewrite Ed, EM, E2. change (2 ^ 1074) with one_val. unfold rndQ.
    destruct (Z.ltb_spec (M * one_val * one_val) 0); [nia|].
    unfold rcap. replace (M * one_val * one_val) with (M * 2 ^ 1073 * (2 * one_val)).
    2: { rewrite one_val_double at 2. ring. }
    rewrite <- (Z.mul_1_l (2 * one_val)) at 2. rewrite rnd_scale by lia.
    apply rcap_exact; lia. }
  rewrite fltb_val by (split; done || by apply finite_good).
  rewrite Ed', Hval. apply eq_true_iff_eq. rewrite !Z.ltb_lt.
  rewrite one_val_double. pose proof (pow2_pos 1073 ltac:(lia)) as P3.
  set (h := 2 ^ 1073) in *. clearbody h. nia.
Qed.

Lemma retry_budget_half_spent_witness :
  BudgetAllow (record_all (NewRetryBudget (f_of_Z 100) (flit 1 10)) (replicate 49 Failed)) = true /\
  BudgetAllow (record_all (NewRetryBudget (f_of_Z 100) (flit 1 10)) (replicate 50 Failed)) = false.
Proof. rewrite !retry_budget_half_spent by lia. done. Defined.
