(* ===== verification/Failover.v ===== *)
(** * Failover across ranked workers
    (services/gateway/reliability/classify.go and failover.go)

    [Do] is run against a [world] holding the breakers, the retry budget, the
    failover metric and the calls made so far.  The n-th reading of
    [time.Now()] is [clock n]; the answer of the n-th call is [call n]. *)

From S2P Require Import Prelude Float64 Errors Breaker Budget.

Section Classify.
Context `{GrpcStatus}.

Definition Retryable (err : option error) : bool :=
  match err with
  | None => false
  | Some e =>
      match FromError e with
      | None => true
      | Some (Unavailable | ResourceExhausted | Internal | Unknown) => true
      | Some (Canceled | DeadlineExceeded | InvalidArgument | NotFound | PermissionDenied) => false
      | Some _ => false
      end
  end.

Definition IsExcluded (e : error) : bool :=
  match FromError e with
  | None => false
  | Some c => bool_decide (c = Canceled) || bool_decide (c = DeadlineExceeded)
  end.
End Classify.

Definition IsBreakerOpen (e : error) : bool := errors_Is e ErrOpen.

Definition statusReason (err : option error) : string :=
  match err with
  | None => "unknown"
  | Some e => if IsBreakerOpen e then "breaker_open" else "unavailable"
  end.

Record Worker := mkWorker { ID : string; Endpoint : string }.

#[export] Instance Worker_eq_dec : EqDecision Worker.
Proof. solve_decision. Defined.

Definition no_worker : Worker := mkWorker "" "".

(** [failover_log] is the failover counter; [None] where the program holds a
    nil pointer. *)
Record world := mkWorld {
  breaker : option BreakerMap;
  budget : option RetryBudget;
  failover_log : option (list (string * string * string));
  ticks : nat;
  calls : list Worker
}.

Section Do.
Context `{GrpcStatus}.
Variable clock : nat -> Z.
Variable call : nat -> Worker -> option error.
Variable Max : Z.

(** [NewFailover] *)
Definition NewFailover_Max (maxAttempts : Z) : Z :=
  if maxAttempts <=? 0 then 3 else maxAttempts.

Definition set_breaker (w : world) (b : BreakerMap) (t : nat) : world :=
  mkWorld (Some b) (budget w) (failover_log w) t (calls w).

Definition breaker_state (w : world) (id : string) : option State * world :=
  match breaker w with
  | None => (None, w)
  | Some b => let '(st, b) := StateOf b id in (Some st, set_breaker w b (ticks w))
  end.

Definition breaker_allow (w : world) (id : string) : option error * world :=
  match breaker w with
  | None => (None, w)
  | Some b => let '(e, b) := Allow b id (clock (ticks w)) in
              (e, set_breaker w b (S (ticks w)))
  end.

Definition breaker_success (w : world) (id : string) : world :=
  match breaker w with
  | None => w
  | Some b => set_breaker w (Success b id) (ticks w)
  end.

Definition breaker_failure (w : world) (id : string) : world :=
  match breaker w with
  | None => w
  | Some b => set_breaker w (Failure b id (clock (ticks w))) (S (ticks w))
  end.

Definition budget_allow (w : world) : bool :=
  match budget w with None => true | Some b => BudgetAllow b end.

Definition on_budget (f : RetryBudget -> RetryBudget) (w : world) : world :=
  mkWorld (breaker w) (f <$> budget w) (failover_log w) (ticks w) (calls w).

Definition inc_failover (w : world) (from to reason : string) : world :=
  mkWorld (breaker w) (budget w) ((fun l => (l ++ [(from, to, reason)])%list) <$> failover_log w)
          (ticks w) (calls w).

Definition do_call (w : world) (wk : Worker) : option error * world :=
  (call (length (calls w)) wk,
   mkWorld (breaker w) (budget w) (failover_log w) (ticks w) (calls w ++ [wk])).

(** The first loop of [Do]: workers behind an open breaker are set aside
    unless their breaker lets a probe through. *)
Fixpoint split_open (ws : list Worker) (w : world)
  : list Worker * list Worker * world :=
  match ws with
  | [] => ([], [], w)
  | wk :: rest =>
      let '(st, w) := breaker_state w (ID wk) in
      if bool_decide (st = Some StateOpen) then
        let '(e, w) := breaker_allow w (ID wk) in
        let '(ordered, opened, w) := split_open rest w in
        match e with
        | Some _ => (ordered, wk :: opened, w)
        | None => (wk :: ordered, opened, w)
        end
      else
        let '(ordered, opened, w) := split_open rest w in
        (wk :: ordered, opened, w)
  end.

Definition finish (last : option error) (w : world) : Worker * option error * world :=
  (no_worker, Some (default (ENew "no healthy worker") last), w).

(** The second loop, at index [i] of [n] ordered workers. *)
Fixpoint attempt (n : nat) (i : nat) (ws : list Worker) (attempts : Z)
    (last : option error) (w : world) : Worker * option error * world :=
  match ws with
  | [] => finish last w
  | wk :: rest =>
      if Max <=? attempts then finish last w
      else if (0 <? Z.of_nat i) && negb (budget_allow w) then (no_worker, last, w)
      else
        let '(e, w) := breaker_allow w (ID wk) in
        if bool_decide (e <> None) && (1 <? Z.of_nat n) then
          attempt n (S i) rest attempts last w
        else
          let '(err, w) := do_call w wk in
          match err with
          | None =>
              let w := on_budget OnSuccess w in
              (wk, None, breaker_success w (ID wk))
          | Some e =>
              if IsExcluded e then (wk, Some e, w)
              else
                let w := breaker_failure w (ID wk) in
                if negb (Retryable (Some e)) then (wk, Some e, w)
                else
                  let w := on_budget OnFailure w in
                  let w := match rest with
                           | [] => w
                           | next :: _ => inc_failover w (ID wk) (ID next) (statusReason (Some e))
                           end in
                  attempt n (S i) rest (attempts + 1) (Some e) w
          end
  end.

Definition Do (workers : list Worker) (w : world) : Worker * option error * world :=
  match workers with
  | [] => (no_worker, Some (ENew "no workers"), w)
  | _ =>
      let '(ordered, opened, w) := split_open workers w in
      let ordered := match ordered with [] => opened | _ => ordered end in
      attempt (length ordered) 0 ordered 0 None w
  end.

(** ** What the helpers leave alone *)

Lemma breaker_state_frame w id :
  calls (breaker_state w id).2 = calls w /\ budget (breaker_state w id).2 = budget w /\
  ticks (breaker_state w id).2 = ticks w.
Proof.
  unfold breaker_state. destruct (breaker w); [|done]. by destruct (StateOf _ _).
Qed.

Lemma breaker_allow_frame w id :
  calls (breaker_allow w id).2 = calls w /\ budget (breaker_allow w id).2 = budget w.
Proof.
  unfold breaker_allow. destruct (breaker w); [|done]. by destruct (Allow _ _ _).
Qed.

Lemma breaker_failure_calls w id : calls (breaker_failure w id) = calls w.
Proof. unfold breaker_failure. by destruct (breaker w). Qed.

Lemma breaker_success_calls w id : calls (breaker_success w id) = calls w.
Proof. unfold breaker_success. by destruct (breaker w). Qed.

Lemma split_open_spec ws w ordered opened w' :
  split_open ws w = (ordered, opened, w') ->
  ordered `sublist_of` ws /\ opened `sublist_of` ws /\
  calls w' = calls w /\ budget w' = budget w.
Proof.
  revert w ordered opened w'. induction ws as [|wk ws IH]; intros w ordered opened w' E.
  { cbn in E. simplify_eq. auto. }
  cbn [split_open] in E.
  pose proof (breaker_state_frame w (ID wk)) as (Hc1 & Hb1 & _).
  destruct (breaker_state w (ID wk)) as [st w1]. cbn in Hc1, Hb1.
  pose proof (breaker_allow_frame w1 (ID wk)) as (Hc2 & Hb2).
  case_bool_decide.
  - destruct (breaker_allow w1 (ID wk)) as [e w2]. cbn in Hc2, Hb2.
    destruct (split_open ws w2) as [[o p] w3] eqn:E2.
    destruct (IH _ _ _ _ E2) as (?&?&?&?).
    destruct e; simplify_eq; repeat split; try congruence;
      by constructor.
  - destruct (split_open ws w1) as [[o p] w3] eqn:E2.
    destruct (IH _ _ _ _ E2) as (?&?&?&?).
    simplify_eq; repeat split; try congruence; by constructor.
Qed.

(** ** The attempt loop *)

(** What one run of the loop did: the workers it called, in the order of the
    list and at most as many as attempts remain; every call but the last
    failed with a retryable error; and a nil error is either the answer of the
    last call or the exhausted budget met before any call. *)
Record attempt_outcome (ws : list Worker) (room : Z) (last : option error) (w : world)
    (u : Worker) (err : option error) (tried : list Worker) : Prop := {
  ao_sublist : tried `sublist_of` ws;
  ao_bound : Z.of_nat (length tried) <= Z.max 0 room;
  ao_retryable : forall k wk, tried !! k = Some wk -> (S k < length tried)%nat ->
    exists e, call (length (calls w) + k) wk = Some e /\
      Retryable (Some e) = true /\ IsExcluded e = false;
  ao_nil : err = None ->
    (exists pre, tried = (pre ++ [u])%list /\
       call (length (calls w) + length pre) u = None) \/
    (tried = [] /\ last = None /\ u = no_worker /\ budget_allow w = false)
}.

Lemma outcome_stop ws room last w u err :
  (err = None -> last = None /\ u = no_worker /\ budget_allow w = false) ->
  attempt_outcome ws room last w u err [].
Proof.
  intros Hn. constructor; [apply sublist_nil_l|cbn; lia|cbn; intros; lia|].
  intros Herr. right. by destruct (Hn Herr) as (? & ? & ?).
Qed.

Lemma outcome_skip wk ws room last w w2 u err tried :
  calls w2 = calls w -> budget_allow w2 = budget_allow w ->
  attempt_outcome ws room last w2 u err tried ->
  attempt_outcome (wk :: ws) room last w u err tried.
Proof.
  intros Hc Hb [H1 H2 H3 H4]. rewrite Hc in *. rewrite Hb in *.
  constructor; auto. by constructor.
Qed.

(** The last call of the loop. *)
Lemma outcome_last wk ws room last w err :
  0 < room -> call (length (calls w)) wk = err ->
  attempt_outcome (wk :: ws) room last w wk err [wk].
Proof.
  intros Hr Hc. constructor; [apply sublist_skip, sublist_nil_l|cbn; lia|cbn; intros; lia|].
  intros ->. left. exists []. split; [done|]. cbn. by rewrite Nat.add_0_r.
Qed.

(** A call that failed and is followed by the rest of the loop. *)
Lemma outcome_retry wk ws room last w w2 e u err tried :
  0 < room -> call (length (calls w)) wk = Some e ->
  Retryable (Some e) = true -> IsExcluded e = false ->
  calls w2 = (calls w ++ [wk])%list ->
  attempt_outcome ws (room - 1) (Some e) w2 u err tried ->
  attempt_outcome (wk :: ws) room last w u err (wk :: tried).
Proof.
  intros Hr Hc Hre Hex Hw [H1 H2 H3 H4].
  assert (length (calls w2) = S (length (calls w))) as Hl.
  { rewrite Hw, length_app. cbn. lia. }
  rewrite Hl in *. constructor.
  - by constructor.
  - cbn [length]. lia.
  - intros [|k] wk' Hk Hlt; cbn in *.
    + simplify_eq. exists e. by rewrite Nat.add_0_r.
    + destruct (H3 k wk' Hk) as (e' & He' & ?); [lia|]. exists e'.
      by rewrite Nat.add_succ_r.
  - intros ->. left. destruct H4 as [(pre & -> & Hp)|(_ & ? & _)]; [done| |done].
    exists (wk :: pre). split; [done|]. cbn. by rewrite Nat.add_succ_r.
Qed.

Lemma attempt_spec n i ws a last w u err w' :
  attempt n i ws a last w = (u, err, w') ->
  exists tried, calls w' = (calls w ++ tried)%list /\
    attempt_outcome ws (Max - a) last w u err tried.
Proof.
  revert i a last w u err w'.
  induction ws as [|wk ws IH]; intros i a last w u err w' E; cbn [attempt] in E.
  { unfold finish in E. simplify_eq. exists []. rewrite app_nil_r.
    by split; [|apply outcome_stop]. }
  destruct (Max <=? a) eqn:Ea; zbool.
  { unfold finish in E. simplify_eq. exists []. rewrite app_nil_r.
    by split; [|apply outcome_stop]. }
  destruct ((0 <? Z.of_nat i) && negb (budget_allow w))%bool eqn:Eb; zbool.
  { simplify_eq. exists []. rewrite app_nil_r. by split; [|apply outcome_stop]. }
  pose proof (breaker_allow_frame w (ID wk)) as [Hc1 Hb1].
  destruct (breaker_allow w (ID wk)) as [e w1]. cbn in Hc1, Hb1.
  destruct (bool_decide (e <> None) && (1 <? Z.of_nat n))%bool eqn:Es.
  { destruct (IH _ _ _ _ _ _ _ E) as (tried & Ht & Ho). exists tried.
    split; [congruence|]. eapply outcome_skip; eauto.
    unfold budget_allow. by rewrite Hb1. }
  unfold do_call in E. rewrite Hc1 in E.
  destruct (call (length (calls w)) wk) as [e'|] eqn:Ecall.
  2: { injection E as <- <- <-. exists [wk]. rewrite breaker_success_calls.
       split; [done|]. apply outcome_last; [lia|done]. }
  destruct (IsExcluded e') eqn:Eex.
  { injection E as <- <- <-. exists [wk]. split; [done|]. apply outcome_last; [lia|done]. }
  destruct (negb (Retryable (Some e'))) eqn:Ere.
  { injection E as <- <- <-. exists [wk]. rewrite breaker_failure_calls.
    split; [done|]. apply outcome_last; [lia|done]. }
  zbool. destruct (IH _ _ _ _ _ _ _ E) as (tried & Ht & Ho).
  exists (wk :: tried). split.
  - rewrite Ht. destruct ws; cbn [inc_failover on_budget calls];
      rewrite breaker_failure_calls; cbn [calls]; by rewrite <- app_assoc.
  - eapply outcome_retry; eauto; [lia| |].
    2: { replace (Max - a - 1) with (Max - (a + 1)) by lia. exact Ho. }
    destruct ws; cbn [inc_failover on_budget calls];
      by rewrite breaker_failure_calls.
Qed.

(** ** Breakers that do not move

    [frozen b w]: the breakers of the world are those of [b], up to the
    closed breakers that reading them creates. *)
Definition frozen (b : BreakerMap) (w : world) : Prop :=
  exists b', breaker w = Some b' /\ b' ≡ b.

Lemma breaker_state_frozen b w id :
  frozen b w ->
  (breaker_state w id).1 = Some (state (peek b id)) /\ frozen b (breaker_state w id).2.
Proof.
  intros (b' & Hb & Heq). unfold breaker_state. rewrite Hb.
  destruct (StateOf_spec b' id) as [H1 H2]. destruct (StateOf b' id) as [st b'']. cbn in *.
  subst st. split; [by rewrite (proj2 Heq)|]. exists b''. split; [done|]. by rewrite H2.
Qed.

Lemma breaker_allow_refused b w id :
  frozen b w -> admits (cfg b) (peek b id) (clock (ticks w)) = false ->
  (breaker_allow w id).1 = Some ErrOpen /\ frozen b (breaker_allow w id).2.
Proof.
  intros (b' & Hb & Heq) Ha. unfold breaker_allow. rewrite Hb.
  destruct (Allow_refused b' id (clock (ticks w))) as [H1 H2].
  { by rewrite (proj1 Heq), (proj2 Heq). }
  destruct (Allow b' id (clock (ticks w))) as [e b'']. cbn in *.
  split; [done|]. exists b''. split; [done|]. by rewrite H2.
Qed.

(** Behind an open breaker that no reading of the clock finds expired. *)
Definition shut (b : BreakerMap) (wk : Worker) : Prop :=
  state (peek b (ID wk)) = StateOpen /\
  forall t, time_sub (clock t) (openedAt (peek b (ID wk))) < Timeout (cfg b).

Lemma shut_refused b wk t : shut b wk -> admits (cfg b) (peek b (ID wk)) (clock t) = false.
Proof. intros [Hs Ht]. unfold admits. rewrite Hs. apply Z.leb_gt, Ht. Qed.

Lemma split_open_shut b ws w :
  frozen b w -> Forall (shut b) ws ->
  exists w', split_open ws w = ([], ws, w') /\ frozen b w' /\ calls w' = calls w.
Proof.
  intros Hf Hs. revert w Hf. induction Hs as [|wk ws Hwk Hs IH]; intros w Hf; [by exists w|].
  cbn [split_open].
  destruct (breaker_state_frozen b w (ID wk) Hf) as [E1 F1].
  pose proof (breaker_state_frame w (ID wk)) as (C1 & _ & _).
  destruct (breaker_state w (ID wk)) as [st w1]. cbn [fst snd] in *. subst st.
  rewrite bool_decide_true by (f_equal; apply Hwk).
  destruct (breaker_allow_refused b w1 (ID wk) F1) as [E2 F2]; [by apply shut_refused|].
  pose proof (breaker_allow_frame w1 (ID wk)) as [C2 _].
  destruct (breaker_allow w1 (ID wk)) as [e w2]. cbn [fst snd] in *. subst e.
  destruct (IH w2 F2) as (w3 & -> & F3 & C3). exists w3. repeat split; auto. congruence.
Qed.

Lemma attempt_shut b n i ws a w :
  frozen b w -> Forall (shut b) ws -> (1 < n)%nat -> budget w = None \/ budget_allow w = true ->
  exists w', attempt n i ws a None w = (no_worker, Some (ENew "no healthy worker"), w') /\
    calls w' = calls w.
Proof.
  intros Hf Hs Hn. revert i w Hf.
  induction Hs as [|wk ws Hwk Hs IH]; intros i w Hf Hb; cbn [attempt]; [by exists w|].
  destruct (Max <=? a); [by exists w|].
  assert (budget_allow w = true) as Hba.
  { destruct Hb as [Hb|?]; [unfold budget_allow; by rewrite Hb|done]. }
  rewrite Hba, andb_false_r.
  destruct (breaker_allow_refused b w (ID wk) Hf) as [E2 F2]; [by apply shut_refused|].
  pose proof (breaker_allow_frame w (ID wk)) as [C2 B2].
  destruct (breaker_allow w (ID wk)) as [e w2]. cbn [fst snd] in *. subst e.
  rewrite bool_decide_true by done.
  replace (1 <? Z.of_nat n) with true by (symmetry; apply Z.ltb_lt; lia). cbn [andb].
  destruct (IH (S i) w2 F2) as (w3 & -> & C3).
  { right. unfold budget_allow in *. by rewrite B2. }
  exists w3. split; [done|congruence].
Qed.

(** Workers whose breaker is not open are all tried in the given order. *)
Lemma split_open_none b ws w :
  frozen b w -> Forall (fun wk => state (peek b (ID wk)) <> StateOpen) ws ->
  exists w', split_open ws w = (ws, [], w') /\ frozen b w' /\
    calls w' = calls w /\ budget w' = budget w.
Proof.
  intros Hf Hs. revert w Hf. induction Hs as [|wk ws Hwk Hs IH]; intros w Hf; [by exists w|].
  cbn [split_open].
  destruct (breaker_state_frozen b w (ID wk) Hf) as [E1 F1].
  pose proof (breaker_state_frame w (ID wk)) as (C1 & B1 & _).
  destruct (breaker_state w (ID wk)) as [st w1]. cbn [fst snd] in *. subst st.
  rewrite bool_decide_false by congruence.
  destruct (IH w1 F1) as (w2 & -> & F2 & C2 & B2). exists w2.
  repeat split; auto; congruence.
Qed.
End Do.

(** ** Properties *)

Section Properties.
Context `{GrpcStatus}.
Variable clock : nat -> Z.
Variable call : nat -> Worker -> option error.
Variable Max : Z.

Lemma Do_spec workers w u err w' :
  Do clock call Max workers w = (u, err, w') ->
  exists tried, calls w' = (calls w ++ tried)%list /\
    attempt_outcome call workers Max None w u err tried.
Proof.
  unfold Do. destruct workers as [|wk0 rest] eqn:Ews.
  { intros E. simplify_eq. exists []. rewrite app_nil_r. split; [done|].
    by apply outcome_stop. }
  rewrite <- Ews. destruct (split_open clock workers w) as [[ordered opened] w1] eqn:Es.
  intros E. destruct (split_open_spec _ _ _ _ _ _ Es) as (So & Sp & Hc & Hb).
  destruct (attempt_spec _ _ _ _ _ _ _ _ _ _ _ _ E) as (tried & Ht & [H1 H2 H3 H4]).
  exists tried. split; [congruence|]. rewrite Hc in *. unfold budget_allow in *. rewrite Hb in *.
  constructor; auto; [|lia]. etrans; [exact H1|]. by destruct ordered.
Qed.

(** While no breaker is open, the first worker is called, and if it answers
    nobody else is. *)
Lemma Do_first b wk rest w :
  frozen b w -> Forall (fun wk => state (peek b (ID wk)) = StateClosed) (wk :: rest) -> 0 < Max -> call (length (calls w)) wk = None ->
  exists w', Do clock call Max (wk :: rest) w = (wk, None, w') /\ calls w' = (calls w ++ [wk])%list.
Proof.
  intros Hf Hall HM Hcall. unfold Do.
  destruct (split_open_none clock b (wk :: rest) w Hf) as (w1 & -> & (b1 & Hb1 & Heq) & C1 & _).
  { eapply list.Forall_impl; [exact Hall|]. intros x Hx. cbn in Hx. by rewrite Hx. }
  apply list.Forall_cons in Hall as [Hc _]. cbn [length attempt]. replace (Max <=? 0) with false by (symmetry; apply Z.leb_gt; lia).
  cbn [andb Z.of_nat Z.ltb Z.compare]. pose proof (breaker_allow_frame clock w1 (ID wk)) as [C2 _].
  assert ((breaker_allow clock w1 (ID wk)).1 = None) as Ea.
  { unfold breaker_allow. rewrite Hb1. pose proof (Allow_result b1 (ID wk) (clock (ticks w1))) as Hr.
    unfold admits in Hr. rewrite (proj2 Heq), Hc in Hr. by destruct (Allow b1 (ID wk) (clock (ticks w1))). }
  destruct (breaker_allow clock w1 (ID wk)) as [e w2]. cbn [fst snd] in *. subst e. cbn [andb]. rewrite bool_decide_false by (by intros []).
  cbn [andb]. unfold do_call. rewrite C2, C1, Hcall. eexists. split; [reflexivity|]. rewrite breaker_success_calls. done.
Qed.

(** C16: whatever the workers answer, [Do] calls a subsequence of the given
    workers in their order, at most [Max] of them, and goes on to another
    worker only after an error that is retryable and is neither a
    cancellation nor a deadline. *)
Theorem failover_calls_in_order workers w u err w' :
  Do clock call Max workers w = (u, err, w') ->
  exists tried, calls w' = (calls w ++ tried)%list /\
    tried `sublist_of` workers /\
    Z.of_nat (length tried) <= Z.max 0 Max /\
    forall k wk, tried !! k = Some wk -> (S k < length tried)%nat ->
      exists e, call (length (calls w) + k) wk = Some e /\
        Retryable (Some e) = true /\ IsExcluded e = false.
Proof.
  intros E. destruct (Do_spec _ _ _ _ _ E) as (tried & Hc & [? ? ? ?]). eauto 10.
Qed.

(** A nil error from [Do] comes from a call that succeeded on the worker
    it returns, or else [Do] called nobody at all and the retry budget was
    exhausted. *)
Theorem failover_nil_error workers w u w' :
  Do clock call Max workers w = (u, None, w') ->
  (exists pre, calls w' = (calls w ++ pre ++ [u])%list /\ u ∈ workers /\
     call (length (calls w) + length pre) u = None) \/
  (calls w' = calls w /\ u = no_worker /\ budget_allow w = false).
Proof.
  intros E. destruct (Do_spec _ _ _ _ _ E) as (tried & Hc & [Hs _ _ Hn]).
  destruct (Hn eq_refl) as [(pre & -> & Hp)|(-> & _ & -> & Hb)].
  - left. exists pre. split; [done|]. split; [|done].
    eapply elem_of_sublist; [|exact Hs]. set_solver.
  - right. rewrite app_nil_r in Hc. auto.
Qed.

(** With two or more workers all behind open breakers whose timeout no
    reading of the clock finds elapsed, [Do] calls none of them and reports
    that no worker is healthy; the all-open list it falls back to is refused
    again, one worker at a time. *)
Theorem failover_all_open_calls_nobody b workers w :
  frozen b w -> Forall (shut clock b) workers -> (2 <= length workers)%nat ->
  budget_allow w = true ->
  exists w', Do clock call Max workers w =
      (no_worker, Some (ENew "no healthy worker"), w') /\ calls w' = calls w.
Proof.
  intros Hf Hs Hlen Hb. unfold Do.
  destruct (split_open_shut clock b workers w Hf Hs) as (w1 & E1 & F1 & C1).
  destruct (split_open_spec _ _ _ _ _ _ E1) as (_ & _ & _ & B1).
  destruct workers as [|wk rest] eqn:Ews; [cbn in Hlen; lia|]. rewrite E1. cbn [length].
  destruct (attempt_shut clock call Max b (S (length rest)) 0 (wk :: rest) 0 w1) as (w2 & E2 & C2);
    auto.
  { right. unfold budget_allow in *. by rewrite B1. }
  exists w2. rewrite E2. split; [done|congruence].
Qed.

(** A worker alone is called even behind an open breaker: whatever its
    breaker says, [Do] makes exactly one call. *)
Theorem failover_single_worker_called wk w :
  0 < Max ->
  exists u err w', Do clock call Max [wk] w = (u, err, w') /\
    calls w' = (calls w ++ [wk])%list.
Proof.
  intros HM. unfold Do.
  destruct (split_open clock [wk] w) as [[ordered opened] w1] eqn:Es.
  destruct (split_open_spec _ _ _ _ _ _ Es) as (_ & _ & C1 & _).
  assert ((match ordered with [] => opened | _ => ordered end) = [wk]) as ->.
  { cbn in Es. destruct (breaker_state w (ID wk)) as [st w0]. case_bool_decide.
    - destruct (breaker_allow clock w0 (ID wk)) as [[e|] w2]; simplify_eq; done.
    - simplify_eq. done. }
  cbn [length attempt]. replace (Max <=? 0) with false by (symmetry; apply Z.leb_gt; lia).
  cbn [andb Z.of_nat Z.ltb Z.compare].
  destruct (breaker_allow_frame clock w1 (ID wk)) as [C2 _].
  destruct (breaker_allow clock w1 (ID wk)) as [e w2]. cbn [fst snd] in *.
  rewrite andb_false_r. unfold do_call.
  destruct (call (length (calls w2)) wk) as [er|].
  - destruct (IsExcluded er); [|destruct (negb (Retryable (Some er)))];
      do 3 eexists; (split; [reflexivity|]); unfold finish;
      rewrite ?breaker_failure_calls; cbn [on_budget calls];
      rewrite ?breaker_failure_calls; cbn [calls]; congruence.
  - do 3 eexists. split; [reflexivity|]. rewrite breaker_success_calls.
    cbn [on_budget calls]. congruence.
Qed.

(** When no breaker is open, the first worker's breaker is half-open with
    its probes spent and the retry budget is exhausted, [Do] returns a nil
    error with the zero worker although it called nobody. *)
Theorem failover_empty_success b wk wk2 rest w :
  frozen b w -> 0 < Max -> budget_allow w = false ->
  Forall (fun wk => state (peek b (ID wk)) <> StateOpen) (wk :: wk2 :: rest) ->
  state (peek b (ID wk)) = StateHalfOpen -> halfOpenLeft (peek b (ID wk)) = 0 ->
  exists w', Do clock call Max (wk :: wk2 :: rest) w = (no_worker, None, w') /\
    calls w' = calls w.
Proof.
  intros Hf HM Hb Hall Hst Hleft. unfold Do.
  destruct (split_open_none clock b _ w Hf Hall) as (w1 & -> & F1 & C1 & B1).
  cbn [length attempt]. replace (Max <=? 0) with false by (symmetry; apply Z.leb_gt; lia).
  destruct (breaker_allow_refused clock b w1 (ID wk) F1) as [E2 F2].
  { unfold admits. by rewrite Hst, Hleft. }
  pose proof (breaker_allow_frame clock w1 (ID wk)) as [C2 B2].
  destruct (breaker_allow clock w1 (ID wk)) as [e w2]. cbn [fst snd] in *. subst e.
  rewrite bool_decide_true by done.
  replace (1 <? Z.of_nat (S (S (length rest)))) with true
    by (symmetry; apply Z.ltb_lt; lia). cbn [andb].
  assert (budget_allow w2 = false) as Hb2.
  { unfold budget_allow in *. by rewrite B2, B1. }
  exists w2. rewrite Hb2. split; [reflexivity|congruence].
Qed.
End Properties.

(** ** The properties at concrete inputs *)

Definition wA : Worker := mkWorker "a" "10.0.0.1:50051".
Definition wB : Worker := mkWorker "b" "10.0.0.2:50051".

(** Both breakers opened at 100 s, with the default 5 s timeout. *)
Definition both_open : BreakerMap :=
  let opened := mkBreaker StateOpen 10 5 5 0 (100 * second) in
  put (put (NewBreakerMap DefaultBreakerConfig false) "a" opened) "b" opened.

(** Worker [a] is half-open with its probes spent. *)
Definition a_spent : BreakerMap :=
  put (NewBreakerMap DefaultBreakerConfig false) "a" (mkBreaker StateHalfOpen 10 5 5 0 (100 * second)).

Definition full_budget : RetryBudget := NewRetryBudget (f_of_Z 100) (flit 1 10).
Definition drained_budget : RetryBudget :=
  mkBudget (f_of_Z 50) (f_of_Z 100) (flit 1 10).

Definition world_of (b : BreakerMap) (bu : RetryBudget) : world :=
  mkWorld (Some b) (Some bu) (Some []) 0 [].

(** The first call is refused by the transport, the second answers. *)
Definition flaky (n : nat) (_ : Worker) : option error :=
  match n with O => Some (EStatus Unavailable "connection refused") | _ => None end.

Definition at_101s (_ : nat) : Z := 101 * second.

Definition fresh_world : world :=
  world_of (NewBreakerMap DefaultBreakerConfig false) full_budget.

Definition flaky_run := @Do plain_grpc at_101s flaky 3 [wA; wB] fresh_world.

Lemma failover_calls_in_order_witness :
  exists tried, calls flaky_run.2 = tried /\ tried `sublist_of` [wA; wB] /\
    Z.of_nat (length tried) <= 3.
Proof.
  destruct (@failover_calls_in_order plain_grpc at_101s flaky 3 [wA; wB] fresh_world
              flaky_run.1.1 flaky_run.1.2 flaky_run.2) as (tried & H1 & H2 & H3 & _).
  - vm_compute. reflexivity.
  - exists tried. auto.
Defined.

Lemma failover_nil_error_witness :
  (exists pre, calls flaky_run.2 = (pre ++ [wB])%list /\ wB ∈ [wA; wB] /\
     flaky (length pre) wB = None) \/
  (calls flaky_run.2 = [] /\ wB = no_worker /\ budget_allow fresh_world = false).
Proof.
  apply (@failover_nil_error plain_grpc at_101s flaky 3 [wA; wB] fresh_world wB flaky_run.2).
  vm_compute. reflexivity.
Defined.

Lemma failover_all_open_witness :
  exists w', @Do plain_grpc at_101s flaky 3 [wA; wB] (world_of both_open full_budget) =
      (no_worker, Some (ENew "no healthy worker"), w') /\ calls w' = [].
Proof.
  apply (@failover_all_open_calls_nobody plain_grpc at_101s flaky 3 both_open [wA; wB]).
  - exists both_open. by split.
  - repeat constructor.
  - cbn. lia.
  - vm_compute. reflexivity.
Defined.

Lemma failover_single_worker_witness :
  exists u err w', @Do plain_grpc at_101s flaky 3 [wA] (world_of both_open full_budget) =
      (u, err, w') /\ calls w' = [wA].
Proof.
  apply (@failover_single_worker_called plain_grpc at_101s flaky 3 wA). lia.
Defined.

Lemma failover_empty_success_witness :
  exists w', @Do plain_grpc at_101s flaky 3 [wA; wB] (world_of a_spent drained_budget) =
      (no_worker, None, w') /\ calls w' = [].
Proof.
  apply (@failover_empty_success plain_grpc at_101s flaky 3 a_spent wA wB []).
  - exists a_spent. by split.
  - lia.
  - vm_compute. reflexivity.
  - repeat constructor; vm_compute; discriminate.
  - reflexivity.
  - reflexivity.
Defined.
