(* ===== verification/Inflight.v ===== *)
(** * In-flight tracking under concurrency (services/routing/inflight.go)

    The tracker keeps one atomic counter per worker.  The operations are
    modelled at the grain of their atomic accesses: a goroutine is a program
    counter inside [TryTrack], [Track] or the returned [done] closure, and an
    interleaving is a sequence of (goroutine, action) pairs.  Loads, stores,
    additions and compare-and-swaps are the atomic steps. *)

From S2P Require Import Prelude.

(** ** The sequential operations *)

Abbreviation counters := (gmap string Z).

(** [counter]: the counter of a worker, created at zero on first use. *)
Definition counter (t : counters) (workerID : string) : Z * counters :=
  match t !! workerID with
  | Some c => (c, t)
  | None => (0, <[workerID := 0]> t)
  end.

Definition Inc (t : counters) (workerID : string) : counters :=
  let '(c, t) := counter t workerID in <[workerID := wrap_i64 (c + 1)]> t.

Definition Dec (t : counters) (workerID : string) : counters :=
  let '(c, t) := counter t workerID in
  if c <=? 0 then <[workerID := 0]> t else <[workerID := c - 1]> t.

Definition Get (t : counters) (workerID : string) : Z :=
  match t !! workerID with Some c => c | None => 0 end.

(** ** Goroutines

    [TryLoad]/[TryCAS] are the loop of [TryTrack]; [Held] holds the [done]
    closure of a successful [Track] or [TryTrack]; [DecLoad], [DecCAS] and
    [DecZero] are the loop of [Dec], entered once per closure by its
    [sync.Once]; [Released] has run it. *)
Inductive pc : Type :=
| Idle
| TryLoad (w : string) (limit : Z)
| TryCAS (w : string) (limit cur : Z)
| Rejected (w : string)
| Held (w : string)
| DecLoad (w : string)
| DecCAS (w : string) (cur : Z)
| DecZero (w : string)
| Released (w : string).

(** What a goroutine may do next: call [TryTrack] or [Track], or go on. *)
Inductive action : Type :=
| CallTryTrack (w : string) (limit : Z)
| CallTrack (w : string)
| Go.

Definition set (t : counters) (w : string) (v : Z) : counters := <[w := v]> t.

(** One atomic step of one goroutine; [None] when the action is not possible
    there. *)
Definition act (t : counters) (a : action) (p : pc) : option (counters * pc) :=
  match a, p with
  | CallTryTrack w limit, Idle =>
      if limit <=? 0 then Some (Inc t w, Held w)
      else Some ((counter t w).2, TryLoad w limit)
  | CallTrack w, Idle => Some (Inc t w, Held w)
  | Go, TryLoad w limit =>
      let cur := Get t w in
      if limit <=? cur then Some (t, Rejected w) else Some (t, TryCAS w limit cur)
  | Go, TryCAS w limit cur =>
      if Get t w =? cur then Some (set t w (cur + 1), Held w)
      else Some (t, TryLoad w limit)
  | Go, Held w => Some ((counter t w).2, DecLoad w)
  | Go, DecLoad w =>
      let cur := Get t w in
      if cur <=? 0 then Some (t, DecZero w) else Some (t, DecCAS w cur)
  | Go, DecCAS w cur =>
      if Get t w =? cur then Some (set t w (cur - 1), Released w)
      else Some (t, DecLoad w)
  | Go, DecZero w => Some (set t w 0, Released w)
  | Go, Released w => Some (t, Released w)
  | _, _ => None
  end.

Record config := mkConfig { ctr : counters; threads : list pc }.

(** One step of goroutine [i]. *)
Definition step (c : config) (ia : nat * action) : option config :=
  let '(i, a) := ia in
  match threads c !! i with
  | None => None
  | Some p =>
      match act (ctr c) a p with
      | None => None
      | Some (t, p') => Some (mkConfig t (<[i := p']> (threads c)))
      end
  end.

Fixpoint run (c : config) (sched : list (nat * action)) : option config :=
  match sched with
  | [] => Some c
  | s :: rest => match step c s with None => None | Some c' => run c' rest end
  end.

(** [NewInflightTracker], with [n] goroutines about to use it. *)
Definition NewInflightTracker (n : nat) : config := mkConfig ∅ (replicate n Idle).

(** ** Counting the closures not yet run *)

Definition holds (w : string) (p : pc) : bool :=
  match p with
  | Held v | DecLoad v | DecCAS v _ | DecZero v => String.eqb v w
  | _ => false
  end.

Definition holders (w : string) (ts : list pc) : Z := count (holds w) ts.

Lemma Get_insert t w v w' : Get (<[w := v]> t) w' = if decide (w = w') then v else Get t w'.
Proof. unfold Get. rewrite lookup_insert. by case_decide. Qed.

Lemma Get_counter t w w' : Get (counter t w).2 w' = Get t w'.
Proof.
  unfold counter. destruct (t !! w) eqn:E; [done|]. cbn [snd]. rewrite Get_insert.
  case_decide; [|done]. subst. unfold Get. by rewrite E.
Qed.

Lemma counter_fst t w : (counter t w).1 = Get t w.
Proof. unfold counter, Get. by destruct (t !! w). Qed.

Lemma Get_Inc t w w' : Get (Inc t w) w' = if decide (w = w') then wrap_i64 (Get t w + 1) else Get t w'.
Proof.
  unfold Inc. pose proof (counter_fst t w) as H1. pose proof (Get_counter t w w') as H2.
  destruct (counter t w) as [c t']. cbn in *. subst c. rewrite Get_insert.
  by case_decide.
Qed.

(** ** The invariant of the interleavings *)

(** What a goroutine's local variables promise: the value [TryTrack] is about
    to swap in was read below the limit, and [Dec] never takes its reset to
    zero. *)
Definition pc_ok (p : pc) : Prop :=
  match p with
  | TryCAS _ limit cur => cur < limit
  | DecZero _ => False
  | _ => True
  end.

Definition inv (c : config) : Prop :=
  (forall w, Get (ctr c) w = holders w (threads c)) /\ Forall pc_ok (threads c).

Lemma holders_idle w n : holders w (replicate n Idle) = 0.
Proof. induction n; [done|]. cbn [replicate]. unfold holders in *. rewrite count_cons, IHn. done. Qed.

Lemma inv_init n : inv (NewInflightTracker n).
Proof.
  split; cbn.
  - intros w. by rewrite holders_idle.
  - apply Forall_replicate. exact I.
Qed.

(** Every atomic step moves the counter exactly as it moves the closures. *)
Lemma act_effect t a p t' p' :
  act t a p = Some (t', p') -> pc_ok p ->
  (forall w, holds w p = true -> 0 < Get t w) ->
  (forall w, 0 <= Get t w < two63 - 1) ->
  pc_ok p' /\ forall w, Get t' w = Get t w - b2z (holds w p) + b2z (holds w p').
Proof.
  intros Ha Hp Hpos Hr.
  assert (Hw : forall w, wrap_i64 (Get t w + 1) = Get t w + 1).
  { intros w. apply wrap_i64_id. specialize (Hr w). unfold in_i64, two63 in *. lia. }
  destruct a, p; cbn [act] in Ha; try discriminate;
    repeat match type of Ha with context [if ?b then _ else _] => destruct b eqn:?; zbool end;
    simplify_eq; cbn [pc_ok holds] in *; try done; (split; [try done|intros v]);
    unfold set; rewrite ?Get_Inc, ?Get_counter, ?Get_insert, ?Hw; try lia;
    try (case_decide; subst; rewrite ?String.eqb_refl; cbn [b2z]; try lia;
         match goal with H : ?x <> ?y |- context [String.eqb ?x ?y] =>
           rewrite (proj2 (String.eqb_neq x y) H) end; cbn; lia).
  all: match goal with w : string |- _ => specialize (Hpos w); rewrite String.eqb_refl in Hpos; specialize (Hpos eq_refl) end; lia.
Qed.

Lemma step_length c ia c' : step c ia = Some c' -> length (threads c') = length (threads c).
Proof.
  destruct ia as [i a]. unfold step. intros H. repeat case_match; simplify_eq.
  apply length_insert.
Qed.

Lemma inv_range c w : inv c -> Z.of_nat (length (threads c)) < two63 - 1 -> 0 <= Get (ctr c) w < two63 - 1.
Proof.
  intros [Hc _] Hn. rewrite Hc. unfold holders. pose proof (count_nonneg (holds w) (threads c)).
  pose proof (count_le_length (holds w) (threads c)). lia.
Qed.

Lemma step_inv c ia c' :
  inv c -> Z.of_nat (length (threads c)) < two63 - 1 -> step c ia = Some c' -> inv c'.
Proof.
  destruct ia as [i a]. intros Hi Hn H. pose proof (fun w => inv_range c w Hi Hn) as Hr.
  destruct Hi as [Hc Hf]. cbn in H. destruct (threads c !! i) as [p|] eqn:Ep; [|done].
  destruct (act (ctr c) a p) as [[t p']|] eqn:Ea; [|done]. injection H as <-.
  destruct (act_effect _ _ _ _ _ Ea) as [Hp' Hg].
  - by eapply Forall_lookup_1.
  - intros w Hw. rewrite Hc. unfold holders. pose proof (count_pos (holds w) _ _ _ Ep Hw). lia.
  - exact Hr.
  - split; cbn.
    + intros w. unfold holders. rewrite Hg, (count_insert _ _ i p) by done. rewrite Hc. unfold holders. lia.
    + by apply Forall_insert.
Qed.

(** The executions of the tracker. *)
Lemma run_inv c sched c' :
  inv c -> Z.of_nat (length (threads c)) < two63 - 1 -> run c sched = Some c' ->
  inv c' /\ length (threads c') = length (threads c).
Proof.
  revert c. induction sched as [|s rest IH]; cbn; intros c Hi Hn H; [by simplify_eq|].
  destruct (step c s) as [c1|] eqn:E; [|done]. pose proof (step_length _ _ _ E) as Hl.
  destruct (IH c1) as [? Hl']; [by eapply step_inv|lia|done|]. split; [done|lia].
Qed.

(** The callers of worker [w] respect the limit [L]. *)
Definition within (w : string) (L : Z) (a : action) : Prop :=
  match a with
  | CallTryTrack v limit => v = w -> 0 < limit <= L
  | CallTrack v => v <> w
  | Go => True
  end.

Definition pc_within (w : string) (L : Z) (p : pc) : Prop :=
  match p with
  | TryLoad v limit | TryCAS v limit _ => v = w -> limit <= L
  | _ => True
  end.

Lemma act_within w L t a p t' p' :
  act t a p = Some (t', p') -> within w L a -> pc_within w L p -> pc_ok p ->
  pc_within w L p' /\ (holds w p = false -> holds w p' = true -> Get t w < L).
Proof.
  intros Ha Hw Hp Hk.
  destruct a, p; cbn [act] in Ha; try discriminate;
    repeat match type of Ha with context [if ?b then _ else _] => destruct b eqn:?; zbool end;
    simplify_eq; cbn [pc_within within holds pc_ok] in *; try done; split; try done; try tauto;
    intros; zbool; subst; try congruence;
    repeat match goal with H : ?x = ?x -> _ |- _ => specialize (H eq_refl) end; try lia; congruence.
Qed.

Lemma run_within w L c sched c' :
  inv c -> Z.of_nat (length (threads c)) < two63 - 1 ->
  Forall (pc_within w L) (threads c) -> holders w (threads c) <= L ->
  Forall (fun ia => within w L ia.2) sched -> run c sched = Some c' ->
  holders w (threads c') <= L.
Proof.
  revert c. induction sched as [|[i a] rest IH]; intros c Hi Hn Hf Hh Hs H; [by simplify_eq/=|].
  cbn [run] in H. destruct (step c (i, a)) as [c1|] eqn:E; [|done].
  pose proof (step_inv _ _ _ Hi Hn E) as Hi1. pose proof (step_length _ _ _ E) as Hl.
  pose proof Hi as [Hc Hok]. inversion Hs as [|? ? Hw Hs']; subst. cbn [snd] in Hw.
  cbn in E. destruct (threads c !! i) as [p|] eqn:Ep; [|done].
  destruct (act (ctr c) a p) as [[t p']|] eqn:Ea; [|done]. injection E as <-.
  destruct (act_within w L _ _ _ _ _ Ea Hw) as [Hp' Hlt].
  { by eapply Forall_lookup_1. }
  { by eapply Forall_lookup_1. }
  apply (IH (mkConfig t (<[i:=p']> (threads c)))); try done; cbn in *.
  - lia.
  - by apply Forall_insert.
  - rewrite Hc in Hlt. unfold holders in *. rewrite (count_insert _ _ i p) by done.
    destruct (holds w p), (holds w p'); cbn; lia.
Qed.

(** ** Properties *)

(** C17: in every interleaving of at most 2^63-2 goroutines, the counter of a
    worker equals the number of requests that hold it (their [done] closure
    not yet run), no goroutine ever reaches the reset-to-zero fallback of
    [Dec], and [TryTrack] is refused at its load only when at least [limit]
    requests hold the worker at that moment. *)
Theorem inflight_counts_holders n sched c :
  Z.of_nat n < two63 - 1 -> run (NewInflightTracker n) sched = Some c ->
  forall w, Get (ctr c) w = holders w (threads c) /\
    (forall i, threads c !! i <> Some (DecZero w)) /\
    (forall i limit c', threads c !! i = Some (TryLoad w limit) ->
       step c (i, Go) = Some c' -> threads c' !! i = Some (Rejected w) ->
       limit <= holders w (threads c)).
Proof.
  intros Hn H w. assert (Hi : inv c).
  { eapply run_inv; [apply inv_init| |exact H]. cbn. by rewrite length_replicate. }
  destruct Hi as [Hc Hf]. split_and!; [done| |].
  - intros i Ei. exact (Forall_lookup_1 _ _ _ _ Hf Ei).
  - intros i limit c' Ei Hs Hr. unfold step in Hs. rewrite Ei in Hs. cbn in Hs. rewrite <- Hc.
    destruct (limit <=? Get (ctr c) w) eqn:El; zbool; [done|]. injection Hs as <-. cbn in Hr.
    rewrite list_lookup_insert_eq in Hr by (by eapply lookup_lt_Some). done.
Qed.

Definition demo_sched : list (nat * action) :=
  [(0, CallTryTrack "a" 1); (1, CallTryTrack "a" 1); (0, Go); (1, Go); (1, Go); (0, Go)]%nat.

Definition demo_config : config :=
  mkConfig {["a" := 1]} [TryLoad "a" 1; Held "a"].

Lemma inflight_counts_holders_witness :
  Get (ctr demo_config) "a" = holders "a" (threads demo_config).
Proof.
  apply (inflight_counts_holders 2 demo_sched demo_config); vm_compute; reflexivity.
Defined.

(** C18: when every caller for worker [w] goes through [TryTrack] with a
    positive limit of at most [L], no interleaving ever has more than [L]
    requests holding [w]: the load-then-swap loop never over-admits. *)
Theorem inflight_limit_respected n w L sched c :
  Z.of_nat n < two63 - 1 -> 0 <= L ->
  Forall (fun ia => within w L ia.2) sched ->
  run (NewInflightTracker n) sched = Some c -> holders w (threads c) <= L.
Proof.
  intros Hn HL Hs H. eapply run_within; [apply (inv_init n)| | | |exact Hs|exact H]; cbn.
  - by rewrite length_replicate.
  - apply Forall_replicate. exact I.
  - by rewrite holders_idle.
Qed.

Lemma inflight_limit_respected_witness : holders "a" (threads demo_config) <= 1.
Proof.
  apply (inflight_limit_respected 2 "a" 1 demo_sched); [done|done| |vm_compute; reflexivity].
  repeat constructor; cbn; intros; lia.
Defined.

(** The goroutine's call has returned. *)
Definition returned (p : pc) : bool :=
  match p with Rejected _ | Held _ | Released _ => true | _ => false end.

Fixpoint solo (c : config) (i : nat) (k : nat) : option config :=
  match k with
  | O => Some c
  | S k' =>
      match threads c !! i with
      | Some p => if returned p then Some c
                  else match step c (i, Go) with None => None | Some c' => solo c' i k' end
      | None => None
      end
  end.

Definition in_loop (p : pc) : bool :=
  match p with TryLoad _ _ | TryCAS _ _ _ | DecLoad _ | DecCAS _ _ | DecZero _ => true | _ => false end.

(** Goroutine [i], at [p] and alone from [c] on, returns within [k] steps. *)
Definition finishes (c : config) (i k : nat) : Prop :=
  exists c' q, solo c i k = Some c' /\ threads c' !! i = Some q /\ returned q = true.

Lemma finishes_done c i p k : threads c !! i = Some p -> returned p = true -> finishes c i k.
Proof. intros E R. exists c, p. split; [|done]. destruct k; cbn; [done|]. by rewrite E, R. Qed.

Lemma finishes_step c i p t p' k :
  threads c !! i = Some p -> returned p = false -> act (ctr c) Go p = Some (t, p') ->
  (threads (mkConfig t (<[i := p']> (threads c))) !! i = Some p' ->
   finishes (mkConfig t (<[i := p']> (threads c))) i k) ->
  finishes c i (S k).
Proof.
  intros E R A H. destruct H as (c' & q & Hs & Hq).
  { cbn. apply list_lookup_insert_eq. by eapply lookup_lt_Some. }
  exists c', q. split; [|done]. cbn [solo]. rewrite E, R. unfold step. by rewrite E, A.
Qed.

Lemma try_load_finishes c i w limit k :
  threads c !! i = Some (TryLoad w limit) -> finishes c i (S (S k)).
Proof.
  intros E. destruct (limit <=? Get (ctr c) w) eqn:El.
  - eapply finishes_step; [done|done|cbn; by rewrite El|]. intros E'. by eapply finishes_done.
  - eapply finishes_step; [done|done|cbn; by rewrite El|]. intros E'.
    eapply finishes_step; [done|done|cbn; by rewrite Z.eqb_refl|]. intros E2. by eapply finishes_done.
Qed.

Lemma dec_load_finishes c i w k :
  threads c !! i = Some (DecLoad w) -> finishes c i (S (S k)).
Proof.
  intros E. destruct (Get (ctr c) w <=? 0) eqn:El.
  - eapply finishes_step; [done|done|cbn; by rewrite El|]. intros E'.
    eapply finishes_step; [done|done|done|]. intros E2. by eapply finishes_done.
  - eapply finishes_step; [done|done|cbn; by rewrite El|]. intros E'.
    eapply finishes_step; [done|done|cbn; by rewrite Z.eqb_refl|]. intros E2. by eapply finishes_done.
Qed.

(** The compare-and-swap loops are obstruction-free: whatever state the
    others left the tracker in, a goroutine inside [TryTrack] or [Dec] that
    runs alone returns within three steps. *)
Theorem inflight_solo_returns c i p :
  threads c !! i = Some p -> in_loop p = true ->
  finishes c i 3.
Proof.
  intros E Hl. destruct p as [ |w limit|w limit cur| | |w|w cur|w| ]; try discriminate.
  - by eapply try_load_finishes.
  - destruct (Get (ctr c) w =? cur) eqn:Ec;
      (eapply finishes_step; [done|done|cbn; by rewrite Ec|]; intros E').
    + by eapply finishes_done.
    + by eapply try_load_finishes.
  - by eapply dec_load_finishes.
  - destruct (Get (ctr c) w =? cur) eqn:Ec;
      (eapply finishes_step; [done|done|cbn; by rewrite Ec|]; intros E').
    + by eapply finishes_done.
    + by eapply dec_load_finishes.
  - eapply finishes_step; [done|done|done|]. intros E'. by eapply finishes_done.
Qed.

Lemma inflight_solo_returns_witness : finishes demo_config 0 3.
Proof. apply (inflight_solo_returns demo_config 0 (TryLoad "a" 1)); reflexivity. Defined.
