(* ===== verification/InflightGauge.v ===== *)
(** * The in-flight gauge (services/gateway/handler.go: tryAdmit)

    [tryAdmit] and the closure it returns write the tracker's counter to the
    gauge forge_worker_inflight after they have changed it.  The read and the
    write are two steps, taken by every goroutine on its own: the file extends
    the interleavings of the tracker with them. *)

From S2P Require Import Prelude Inflight.

(** What a goroutine still has to do for the gauge. *)
Inductive note : Type :=
| Quiet
| MustRead (w : string)
| MustSet (w : string) (n : Z).

(** A goroutine: where it is in the tracker, and its note. *)
Record gauge_thread := mkThread { g_pc : pc; g_note : note }.

Record gauge_config := mkGauge {
  g_ctr : counters;
  g_gauge : gmap string Z;
  g_threads : list gauge_thread
}.

(** The gauge is written after the slot was taken, and after it was released. *)
Definition noted_after (before after : pc) : note :=
  match before, after with
  | Held _, _ => Quiet
  | Released _, _ => Quiet
  | _, Held w => MustRead w
  | _, Released w => MustRead w
  | _, _ => Quiet
  end.

(** One atomic step of goroutine [i]: of the tracker, when it owes the gauge
    nothing. *)
Definition gauge_step (c : gauge_config) (ia : nat * action) : option gauge_config :=
  let '(i, a) := ia in
  match g_threads c !! i with
  | None => None
  | Some (mkThread p nt) =>
      match nt, a with
      | Quiet, _ =>
          match act (g_ctr c) a p with
          | None => None
          | Some (t, p') => Some (mkGauge t (g_gauge c) (<[i := mkThread p' (noted_after p p')]> (g_threads c)))
          end
      | MustRead w, Go => Some (mkGauge (g_ctr c) (g_gauge c) (<[i := mkThread p (MustSet w (Get (g_ctr c) w))]> (g_threads c)))
      | MustSet w n, Go => Some (mkGauge (g_ctr c) (<[w := n]> (g_gauge c)) (<[i := mkThread p Quiet]> (g_threads c)))
      | _, _ => None
      end
  end.

Fixpoint gauge_run (c : gauge_config) (sched : list (nat * action)) : option gauge_config :=
  match sched with
  | [] => Some c
  | s :: rest => match gauge_step c s with None => None | Some c' => gauge_run c' rest end
  end.

Definition gauge_init (n : nat) : gauge_config := mkGauge ∅ ∅ (replicate n (mkThread Idle Quiet)).

(** ** The tracker underneath *)

Definition tracker (c : gauge_config) : config := mkConfig (g_ctr c) (g_pc <$> g_threads c).

(** A step of the gauge's goroutine is one of the tracker, or none. *)
Lemma gauge_step_tracker c i a c' :
  gauge_step c (i, a) = Some c' -> step (tracker c) (i, a) = Some (tracker c') \/ tracker c' = tracker c.
Proof.
  unfold gauge_step, step, tracker. cbn. intros E. rewrite list_lookup_fmap.
  destruct (g_threads c !! i) as [[p nt]|] eqn:Ei; [|done]. cbn [option_fmap option_map fmap g_pc].
  assert (forall nt', <[i := p]> (g_pc <$> g_threads c) = g_pc <$> g_threads c /\
    g_pc <$> (<[i := mkThread p nt']> (g_threads c)) = <[i := p]> (g_pc <$> g_threads c)) as Hset.
  { intros nt'. split; [|by rewrite list_fmap_insert]. apply list_insert_id. by rewrite list_lookup_fmap, Ei. }
  destruct nt as [|w|w n].
  - destruct (act (g_ctr c) a p) as [[t p']|]; [|done]. injection E as <-. left. cbn. by rewrite list_fmap_insert.
  - destruct a; try done. injection E as <-. right. cbn. destruct (Hset (MustSet w (Get (g_ctr c) w))) as [E1 E2]. by rewrite E2, E1.
  - destruct a; try done. injection E as <-. right. cbn. destruct (Hset Quiet) as [E1 E2]. by rewrite E2, E1.
Qed.

(** Every value on its way to the gauge, or on it, is one the counter had. *)
Definition note_within (w : string) (L : Z) (th : gauge_thread) : Prop :=
  match g_note th with MustSet v n => v = w -> 0 <= n <= L | _ => True end.

Record gauge_ok (w : string) (L : Z) (c : gauge_config) : Prop := {
  go_inv : inv (tracker c);
  go_pcs : Forall (pc_within w L) (threads (tracker c));
  go_holders : holders w (threads (tracker c)) <= L;
  go_notes : Forall (note_within w L) (g_threads c);
  go_gauge : forall n, g_gauge c !! w = Some n -> 0 <= n <= L
}.

Lemma gauge_step_ok w L c i a c' :
  gauge_ok w L c -> Z.of_nat (length (g_threads c)) < two63 - 1 -> within w L a ->
  gauge_step c (i, a) = Some c' -> gauge_ok w L c' /\ length (g_threads c') = length (g_threads c).
Proof.
  intros [Hinv Hpcs Hh Hn Hg] Hlen Hw E. assert (0 <= Get (g_ctr c) w <= L) as Hr.
  { destruct Hinv as [Hc _]. cbn in Hc. rewrite Hc. split; [apply count_nonneg|exact Hh]. }
  assert (length (threads (tracker c)) = length (g_threads c)) as Hlt by apply length_fmap.
  assert (inv (tracker c') /\ Forall (pc_within w L) (threads (tracker c')) /\ holders w (threads (tracker c')) <= L) as (Hi' & Hp' & Hh').
  { destruct (gauge_step_tracker _ _ _ _ E) as [Hs| ->]; [|done].
    assert (inv (tracker c')) as Hi' by (eapply step_inv; [exact Hinv|by rewrite Hlt|exact Hs]). split; [done|]. split.
    - unfold step in Hs. destruct (threads (tracker c) !! i) as [p|] eqn:Ei; [|done].
      destruct (act (ctr (tracker c)) a p) as [[t p']|] eqn:Ea; [|done].
      assert (threads (tracker c') = <[i := p']> (threads (tracker c))) as -> by (injection Hs as Hs1 Hs2; exact (eq_sym Hs2)). apply Forall_insert; [done|]. destruct Hinv as [_ Hok].
      eapply act_within; [exact Ea|exact Hw|by eapply Forall_lookup_1|by eapply Forall_lookup_1].
    - apply (run_within w L (tracker c) [(i, a)]); [done|by rewrite Hlt|done|done|by constructor|]. cbn [run]. by rewrite Hs. }
  unfold gauge_step in E. destruct (g_threads c !! i) as [[p nt]|] eqn:Ei; [|done].
  pose proof (Forall_lookup_1 _ _ _ _ Hn Ei) as Hnt. unfold note_within in Hnt. cbn [g_note] in Hnt.
  destruct nt as [|v|v n].
  - destruct (act (g_ctr c) a p) as [[t p']|]; [|done]. injection E as <-. split; [|apply length_insert]. split; try done. cbn.
    apply Forall_insert; [done|]. unfold note_within. cbn. by destruct p, p'.
  - destruct a; try done. injection E as <-. split; [|apply length_insert]. split; try done. cbn. apply Forall_insert; [done|].
    unfold note_within. cbn. by intros ->.
  - destruct a; try done. injection E as <-. split; [|apply length_insert]. split; try done; cbn.
    + by apply Forall_insert.
    + intros n'. rewrite lookup_insert. case_decide as Ev; [|apply Hg]. intros [= <-]. by apply Hnt.
Qed.

(** In every interleaving the gauge of a worker shows a number of requests
    that held it at some moment: never a negative one, never more than the
    admission limit. *)
Theorem inflight_gauge_bounded n w L sched c v :
  Z.of_nat n < two63 - 1 -> 0 <= L -> Forall (fun ia => within w L ia.2) sched ->
  gauge_run (gauge_init n) sched = Some c -> g_gauge c !! w = Some v -> 0 <= v <= L.
Proof.
  intros Hn HL Hs Hrun.
  assert (forall c0, gauge_ok w L c0 -> Z.of_nat (length (g_threads c0)) < two63 - 1 -> gauge_run c0 sched = Some c -> gauge_ok w L c) as Hall.
  { clear Hrun. induction sched as [|[i a] rest IH]; intros c0 H0 Hl; cbn [gauge_run]; [by intros [= <-]|].
    apply list.Forall_cons in Hs as [Ha Hs]. destruct (gauge_step c0 (i, a)) as [c1|] eqn:E; [|done].
    destruct (gauge_step_ok w L c0 i a c1 H0 Hl Ha E) as [H1 Hl1]. apply IH; [done|done|by rewrite Hl1]. }
  intros Hv. apply (go_gauge w L c); [|done]. apply (Hall (gauge_init n)); [|cbn; by rewrite length_replicate|exact Hrun].
  assert (tracker (gauge_init n) = NewInflightTracker n) as Et by (unfold tracker, gauge_init; cbn; by rewrite fmap_replicate).
  split; rewrite ?Et.
  - apply inv_init.
  - apply Forall_replicate. exact I.
  - cbn. by rewrite holders_idle.
  - apply Forall_replicate. exact I.
  - done.
Qed.

(** Two requests to one worker: the first to release it reads the counter
    before the second releases it too, and writes after the second has
    written. *)
Definition late_write : list (nat * action) :=
  [(0, CallTryTrack "a" 4); (0, Go); (0, Go); (0, Go); (0, Go);
   (1, CallTryTrack "a" 4); (1, Go); (1, Go); (1, Go); (1, Go);
   (0, Go); (0, Go); (0, Go); (0, Go);
   (1, Go); (1, Go); (1, Go); (1, Go); (1, Go);
   (0, Go)]%nat.

(** The gauge can be left wrong for good: a schedule of two requests at the
    end of which both have returned, the counter is zero and the gauge says
    that one is in flight. *)
Theorem inflight_gauge_left_stale :
  exists c, gauge_run (gauge_init 2) late_write = Some c /\
    g_threads c = replicate 2 (mkThread (Released "a") Quiet) /\ Get (g_ctr c) "a" = 0 /\ g_gauge c !! "a" = Some 1.
Proof. eexists. split; [vm_compute; reflexivity|]. repeat split; reflexivity. Qed.

Lemma inflight_gauge_bounded_witness : 0 <= 1 <= 4.
Proof.
  apply (inflight_gauge_bounded 2 "a" 4 late_write (mkGauge {["a" := 0]} {["a" := 1]} (replicate 2 (mkThread (Released "a") Quiet)))).
  - done.
  - done.
  - unfold late_write. repeat (apply list.Forall_cons; split; [cbn; intros; done || lia|]). by apply list.Forall_nil.
  - vm_compute. reflexivity.
  - reflexivity.
Defined.
