(* ===== verification/Holder.v ===== *)
(** * Versioned holders (routing/holder.go, routing/policy.go, the holder of cacheregistry)

    [SnapshotHolder] and [PolicyHolder] publish a value through an atomic
    pointer; [StoreIfNewer] is a load / compare-and-swap loop that refuses a
    value whose version is not above the one in place.  The loop is modelled
    at the grain of its atomic accesses and for any number of goroutines; a
    pointer is the index of the goroutine that offers the value, so that
    compare-and-swap compares pointers and not contents. *)

From S2P Require Import Prelude.

Section Holder.
Context {A : Type} (version : A -> Z).

(** The pointer in place, [None] for nil. *)
Abbreviation cell := (option (nat * A)).

Definition Load (h : cell) : option A := snd <$> h.

(** [Store]: an unconditional store of a non-nil pointer. *)
Definition Store (h : cell) (s : option (nat * A)) : cell :=
  match s with None => h | Some p => Some p end.

(** [cur != nil && s.Version <= cur.Version] *)
Definition not_newer (s : A) (cur : cell) : bool :=
  match cur with None => false | Some (_, c) => version s <=? version c end.

(** [StoreIfNewer] run without interference. *)
Definition StoreIfNewer (h : cell) (i : nat) (s : option A) : bool * cell :=
  match s with
  | None => (false, h)
  | Some s => if not_newer s h then (false, h) else (true, Some (i, s))
  end.

(** *** The loop of a goroutine that offers [s] *)
Inductive hpc : Type :=
| Loading (s : A)
| Swapping (s : A) (cur : cell)
| Returned (s : A) (stored : bool).

Definition ptr_eqb (p q : cell) : bool :=
  match p, q with
  | None, None => true
  | Some (i, _), Some (j, _) => Nat.eqb i j
  | _, _ => false
  end.

Definition hact (h : cell) (i : nat) (p : hpc) : cell * hpc :=
  match p with
  | Loading s => if not_newer s h then (h, Returned s false) else (h, Swapping s h)
  | Swapping s cur => if ptr_eqb h cur then (Some (i, s), Returned s true) else (h, Loading s)
  | Returned s b => (h, Returned s b)
  end.

Record hconfig := mkH { hcell : cell; hthreads : list hpc }.

Definition hstep (c : hconfig) (i : nat) : hconfig :=
  match hthreads c !! i with
  | None => c
  | Some p => let '(h, p') := hact (hcell c) i p in mkH h (<[i := p']> (hthreads c))
  end.

Definition hrun (c : hconfig) (sched : list nat) : hconfig := foldl hstep c sched.

(** Goroutine [i] offers the [i]-th value, to a holder not yet set. *)
Definition hinit (vals : list A) : hconfig := mkH None (Loading <$> vals).

Definition offered (p : hpc) : A :=
  match p with Loading s | Swapping s _ | Returned s _ => s end.

(** [v] is no version above what the holder has. *)
Definition covers (h : cell) (v : Z) : Prop :=
  match h with None => False | Some (_, c) => v <= version c end.

(** The goroutines keep their value, the holder has a value somebody
    offered, a goroutine about to swap read an older one, and whoever
    returned has its version covered. *)
Record hinv (vals : list A) (c : hconfig) : Prop := {
  hi_offered i p : hthreads c !! i = Some p -> vals !! i = Some (offered p);
  hi_cell j v : hcell c = Some (j, v) -> vals !! j = Some v;
  hi_swap i s cur : hthreads c !! i = Some (Swapping s cur) ->
    not_newer s cur = false /\ forall j v, cur = Some (j, v) -> vals !! j = Some v;
  hi_ret i s b : hthreads c !! i = Some (Returned s b) -> covers (hcell c) (version s)
}.

Lemma hinit_inv vals : hinv vals (hinit vals).
Proof.
  constructor; cbn; try done; intros i; intros *; rewrite list_lookup_fmap;
    destruct (vals !! i); cbn; try done; intros [= <-]; done.
Qed.

(** A swap replaces the very value the goroutine read. *)
Lemma swap_same (vals : list A) (h cur : cell) :
  ptr_eqb h cur = true -> (forall j v, h = Some (j, v) -> vals !! j = Some v) ->
  (forall j v, cur = Some (j, v) -> vals !! j = Some v) -> h = cur.
Proof.
  destruct h as [[i a]|], cur as [[j b]|]; cbn; try done. intros E%Nat.eqb_eq Ha Hb. subst.
  specialize (Ha _ _ eq_refl). specialize (Hb _ _ eq_refl). congruence.
Qed.

(** One access: the versions covered stay covered, and the goroutine's own
    is covered when it returns. *)
Lemma hact_effect vals c i p :
  hinv vals c -> hthreads c !! i = Some p ->
  (forall v, covers (hcell c) v -> covers (hact (hcell c) i p).1 v) /\
  (forall s b, (hact (hcell c) i p).2 = Returned s b -> covers (hact (hcell c) i p).1 (version s)).
Proof.
  intros Hi Hp. destruct p as [s|s cur|s b]; cbn [hact].
  - destruct (not_newer s (hcell c)) eqn:En; cbn; (split; [done|]); intros s' b [= <- <-].
    destruct (hcell c) as [[j v]|]; cbn in *; [by zbool|done].
  - destruct (ptr_eqb (hcell c) cur) eqn:Ep; cbn; [|done].
    destruct (hi_swap _ _ Hi _ _ _ Hp) as [Hn Hc].
    pose proof (swap_same vals _ _ Ep (hi_cell _ _ Hi) Hc) as Heq. rewrite Heq.
    split; [|by intros s' b [= <- <-]].
    destruct cur as [[j v]|]; cbn in *; [|done]. zbool. lia.
  - cbn. split; [done|]. intros s' b' [= <- <-]. by eapply hi_ret.
Qed.

Lemma hstep_inv vals c i : hinv vals c -> hinv vals (hstep c i).
Proof.
  intros Hi. unfold hstep. destruct (hthreads c !! i) as [p|] eqn:Ep; [|done].
  destruct (hact_effect vals c i p Hi Ep) as [Hm Hr].
  assert (offered (hact (hcell c) i p).2 = offered p) as Ho by (destruct p; cbn; by case_ifs).
  assert (forall s cur, (hact (hcell c) i p).2 = Swapping s cur -> cur = hcell c /\ not_newer s cur = false) as Hs.
  { destruct p; cbn; case_ifs; cbn; intros; by simplify_eq. }
  assert (forall j v, (hact (hcell c) i p).1 = Some (j, v) -> hcell c = Some (j, v) \/ j = i /\ v = offered p) as Hc.
  { destruct p; cbn; case_ifs; cbn; intros; simplify_eq; auto. }
  destruct (hact (hcell c) i p) as [h p'] eqn:Ea. cbn [fst snd] in *.
  constructor; cbn; intros j; intros *.
  - rewrite list_lookup_insert. case_decide as D; [|by apply hi_offered].
    intros [= <-]. rewrite Ho. destruct D as [<- _]. by eapply hi_offered.
  - intros E. destruct (Hc _ _ E) as [Hc'|[-> ->]]; [by eapply hi_cell|by eapply hi_offered].
  - rewrite list_lookup_insert. case_decide as D; [|by apply hi_swap].
    intros [= ->]. destruct (Hs _ _ eq_refl) as [-> Hn]. split; [done|]. by apply hi_cell.
  - rewrite list_lookup_insert. case_decide as D; [intros [= ->]; by eapply Hr|].
    intros E. apply Hm. by eapply hi_ret.
Qed.

Lemma hrun_inv vals c sched : hinv vals c -> hinv vals (hrun c sched).
Proof. revert c. induction sched as [|i sched IH]; intros c Hi; [done|]. by apply IH, hstep_inv. Qed.

Lemma hstep_covers vals c i v : hinv vals c -> covers (hcell c) v -> covers (hcell (hstep c i)) v.
Proof.
  intros Hi Hv. unfold hstep. destruct (hthreads c !! i) as [p|] eqn:Ep; [|done].
  destruct (hact_effect vals c i p Hi Ep) as [Hm _]. specialize (Hm v Hv).
  by destruct (hact (hcell c) i p).
Qed.

Lemma hrun_covers vals c sched v : hinv vals c -> covers (hcell c) v -> covers (hcell (hrun c sched)) v.
Proof.
  revert c. induction sched as [|i sched IH]; intros c Hi Hv; [done|].
  apply IH; [by apply hstep_inv|by eapply hstep_covers].
Qed.

(** *** Progress

    How far goroutine [i] is from returning: two accesses per goroutine
    that may still change the holder under it, and its own position. *)
Definition unreturned (p : hpc) : bool := match p with Returned _ _ => false | _ => true end.

Definition distance (c : hconfig) (i : nat) : Z :=
  match hthreads c !! i with
  | Some (Loading _) => 2 * count unreturned (hthreads c)
  | Some (Swapping _ cur) =>
      2 * count unreturned (hthreads c) + (if ptr_eqb (hcell c) cur then -1 else 1)
  | _ => 0
  end.

Lemma ptr_eqb_refl (h : cell) : ptr_eqb h h = true.
Proof. destruct h as [[j v]|]; cbn; [apply Nat.eqb_refl|done]. Qed.

Lemma distance_unreturned c i p :
  hthreads c !! i = Some p -> unreturned p = true -> 0 < distance c i.
Proof.
  intros Ep Hu. pose proof (count_pos unreturned _ _ _ Ep Hu). unfold distance. rewrite Ep.
  destruct p; [lia| |done]. case_if; lia.
Qed.

(** A goroutine's own access brings it closer. *)
Lemma distance_own c i p :
  hthreads c !! i = Some p -> unreturned p = true -> distance (hstep c i) i < distance c i.
Proof.
  intros Ep Hu. pose proof (distance_unreturned c i p Ep Hu) as Hpos.
  pose proof (lookup_lt_Some _ _ _ Ep) as Hlt.
  unfold hstep. rewrite Ep.
  destruct p as [s|s cur|]; cbn [hact] in *; [| |done].
  - destruct (not_newer s (hcell c)); unfold distance at 1; cbn [hthreads hcell];
      rewrite list_lookup_insert_eq by done; [lia|].
    rewrite (count_insert _ _ _ _ _ Ep), ptr_eqb_refl. unfold distance. rewrite Ep. cbn. lia.
  - destruct (ptr_eqb (hcell c) cur) eqn:E; unfold distance at 1; cbn [hthreads hcell];
      rewrite list_lookup_insert_eq by done; [lia|].
    rewrite (count_insert _ _ _ _ _ Ep). unfold distance. rewrite Ep, E. cbn. lia.
Qed.

(** Nobody else's access takes it further away. *)
Lemma distance_other c i j : i <> j -> distance (hstep c j) i <= distance c i.
Proof.
  intros Hij. unfold hstep. destruct (hthreads c !! j) as [q|] eqn:Eq; [|lia].
  destruct (hact (hcell c) j q) as [h q'] eqn:Ea.
  assert (b2z (unreturned q') <= b2z (unreturned q) /\
          (h = hcell c \/ b2z (unreturned q') = b2z (unreturned q) - 1)) as [Hle Hch].
  { revert Ea. destruct q; cbn [hact]; repeat case_if; intros [= <- <-]; cbn [unreturned b2z]; (split; [lia|]); (by left) || (by right). }
  unfold distance. cbn [hthreads hcell]. rewrite list_lookup_insert_ne by done.
  rewrite (count_insert _ _ _ _ _ Eq).
  destruct (hthreads c !! i) as [[s|s cur|s b]|]; try lia.
  destruct Hch as [->|Hch]; [lia|]. destruct (ptr_eqb h cur), (ptr_eqb (hcell c) cur); lia.
Qed.

Definition turns (i : nat) (sched : list nat) : Z := count (Nat.eqb i) sched.

Lemma hstep_returned c i j s b :
  hthreads c !! i = Some (Returned s b) -> hthreads (hstep c j) !! i = Some (Returned s b).
Proof.
  intros E. unfold hstep. destruct (hthreads c !! j) as [q|] eqn:Eq; [|done].
  destruct (decide (i = j)) as [->|Hij].
  - rewrite E in Eq. injection Eq as <-. cbn. by rewrite list_insert_id.
  - destruct (hact (hcell c) j q). cbn. by rewrite list_lookup_insert_ne.
Qed.

Lemma hrun_returned c i sched s b :
  hthreads c !! i = Some (Returned s b) -> hthreads (hrun c sched) !! i = Some (Returned s b).
Proof.
  revert c. induction sched as [|j sched IH]; intros c E; [done|]. by apply IH, hstep_returned.
Qed.

Lemma hstep_length c i : length (hthreads (hstep c i)) = length (hthreads c).
Proof.
  unfold hstep. destruct (hthreads c !! i); [|done]. destruct (hact _ _ _). apply length_insert.
Qed.

Lemma hrun_finishes c i sched :
  (i < length (hthreads c))%nat -> distance c i <= turns i sched ->
  exists s b, hthreads (hrun c sched) !! i = Some (Returned s b).
Proof.
  revert c. induction sched as [|j sched IH]; intros c Hlt Hd.
  - destruct (lookup_lt_is_Some_2 _ _ Hlt) as [p Ep]. destruct (unreturned p) eqn:Hu.
    + pose proof (distance_unreturned c i p Ep Hu). unfold turns, count in Hd. cbn in Hd. lia.
    + destruct p; try done. by eexists _, _.
  - unfold turns in *. rewrite count_cons in Hd.
    destruct (Nat.eqb_spec i j) as [<-|Hij]; cbn [b2z] in Hd.
    + destruct (lookup_lt_is_Some_2 _ _ Hlt) as [p Ep]. destruct (unreturned p) eqn:Hu.
      * apply IH; [by rewrite hstep_length|]. pose proof (distance_own c i p Ep Hu). lia.
      * destruct p as [| |s b]; try done. exists s, b. by apply hrun_returned.
    + apply IH; [by rewrite hstep_length|]. pose proof (distance_other c i j Hij). lia.
Qed.

(** ** Properties *)

(** Under any interleaving of goroutines offering values through
    [StoreIfNewer], the version held never goes down, the value held is one
    that was offered, and a call that has returned, stored or refused,
    leaves a version at least its own in the holder from then on. *)
Theorem store_if_newer_monotone vals sched1 sched2 :
  let c1 := hrun (hinit vals) sched1 in
  let c2 := hrun (hinit vals) (sched1 ++ sched2)%list in
  (forall v, covers (hcell c1) v -> covers (hcell c2) v) /\
  (forall j v, hcell c2 = Some (j, v) -> vals !! j = Some v) /\
  (forall i s b, hthreads c1 !! i = Some (Returned s b) -> covers (hcell c2) (version s)).
Proof.
  cbn zeta. unfold hrun. rewrite foldl_app. fold (hrun (hinit vals) sched1).
  fold (hrun (hrun (hinit vals) sched1) sched2).
  pose proof (hrun_inv vals _ sched1 (hinit_inv vals)) as Hi. split_and!.
  - intros v. by apply (hrun_covers vals).
  - intros j v. by apply hi_cell, hrun_inv.
  - intros i s b E. apply (hrun_covers vals); [done|]. by eapply hi_ret.
Qed.

(** C25: [StoreIfNewer] is wait-free among [n] goroutines offering one value
    each: a goroutine that gets [2n] accesses, at whatever moments, has
    returned; so once every goroutine has had as many, the holder has a
    value of the highest version offered. *)
Theorem store_if_newer_wait_free vals sched :
  let c := hrun (hinit vals) sched in
  (forall i, (i < length vals)%nat -> 2 * Z.of_nat (length vals) <= turns i sched ->
     exists s b, hthreads c !! i = Some (Returned s b)) /\
  ((forall i, (i < length vals)%nat -> 2 * Z.of_nat (length vals) <= turns i sched) ->
     forall v, v ∈ vals -> covers (hcell c) (version v)).
Proof.
  cbn zeta.
  assert (forall i, (i < length vals)%nat -> 2 * Z.of_nat (length vals) <= turns i sched ->
     exists s b, hthreads (hrun (hinit vals) sched) !! i = Some (Returned s b)) as Hfin.
  { intros i Hi Ht. apply hrun_finishes; [by cbn; rewrite length_fmap|].
    pose proof (count_le_length unreturned (Loading <$> vals)) as Hc. rewrite length_fmap in Hc.
    unfold distance. cbn. rewrite list_lookup_fmap. destruct (vals !! i); cbn; lia. }
  split; [done|]. intros Hall v [i Ei]%list_elem_of_lookup.
  pose proof (lookup_lt_Some _ _ _ Ei) as Hlt. destruct (Hfin i Hlt (Hall i Hlt)) as (s & b & Es).
  pose proof (hrun_inv vals _ sched (hinit_inv vals)) as Hi.
  pose proof (hi_offered _ _ Hi _ _ Es) as Eo. cbn in Eo. rewrite Ei in Eo. injection Eo as ->.
  by eapply hi_ret.
Qed.
End Holder.

Lemma store_if_newer_wait_free_witness :
  exists s b, hthreads (hrun (fun v : Z => v) (hinit [5; 7; 6]) [0; 1; 2; 1; 0; 2; 0; 2; 0; 2; 0; 2; 0; 2]%nat) !! 0%nat
    = Some (Returned s b).
Proof.
  apply (store_if_newer_wait_free (fun v : Z => v) [5; 7; 6]); [cbn; lia|vm_compute; discriminate].
Defined.
