(* ===== verification/Health.v ===== *)
(** * Worker health (services/health/heartbeat.go, services/health/deriver.go)

    Workers write heartbeats to Redis under [Key id]; the service keeps an
    in-memory [Snapshot] of them, maintained by keyspace events and rebuilt by
    a periodic reconciliation.  Redis (the replies of SCAN and GET) and the
    JSON decoder are inputs.  The file has the round trip of the key syntax,
    the exactness of a reconciliation and the convergence of the snapshot
    under any interleaving of writes, expiries and event deliveries. *)

From S2P Require Import Prelude Float64 GoStrings Errors.

(** ** Keys *)

Definition keyPrefix : string := "worker:".
Definition keySuffix : string := ":heartbeat".

Definition Key (workerID : string) : string := keyPrefix ++ workerID ++ keySuffix.
Arguments Key : simpl never.

(** [key[len(keyPrefix) : len(key)-len(keySuffix)]]: the slice expression
    panics when its bounds cross. *)
Definition WorkerIDFromKey (key : string) : go (option string) :=
  if negb (HasPrefix key keyPrefix) || negb (HasSuffix key keySuffix) then Returns None
  else
    let lo := String.length keyPrefix in
    let hi := (String.length key - String.length keySuffix)%nat in
    if (hi <? lo)%nat then Panics
    else
      let id := str_drop lo (str_take hi key) in
      if String.eqb id "" then Returns None else Returns (Some id).

(** ** The snapshot *)

Record Heartbeat := mkHeartbeat {
  ID : string;
  BaseModel : string;
  Adapter : option string;
  Runtime : string;
  Addr : string;
  Ready : bool;
  Inflight : Z;
  QueueDepth : Z;
  KVCacheUsage : float64;
  GPUCacheUsage : float64;
  TS : Z
}.

Definition set_ID (hb : Heartbeat) (id : string) : Heartbeat :=
  mkHeartbeat id (BaseModel hb) (Adapter hb) (Runtime hb) (Addr hb) (Ready hb)
    (Inflight hb) (QueueDepth hb) (KVCacheUsage hb) (GPUCacheUsage hb) (TS hb).

Abbreviation Snapshot := (gmap string Heartbeat).

Definition NewSnapshot : Snapshot := ∅.
Definition Replace (s live : Snapshot) : Snapshot := live.
Definition Upsert (s : Snapshot) (hb : Heartbeat) : Snapshot := <[ID hb := hb]> s.
Definition Remove (s : Snapshot) (id : string) : Snapshot := delete id s.
Definition Get (s : Snapshot) (id : string) : option Heartbeat := s !! id.

(** [All] and [Routable] range over the map; the order is unspecified, here
    that of [map_to_list]. *)
Definition All (s : Snapshot) : list Heartbeat := (map_to_list s).*2.
Definition Routable (s : Snapshot) : list Heartbeat := List.filter Ready (All s).

(** ** Redis

    GET answers a value, the absence of the key, or an error; SCAN answers a
    page of keys and the next cursor, or an error. *)
Inductive reply : Type := Value (v : string) | RedisNil | RedisErr (e : error).

Section Service.
(** [json.Unmarshal] into a [Heartbeat]. *)
Context (unmarshal : string -> option Heartbeat).
Context (scan : Z -> result error (list string * Z)).
Context (rget : string -> reply).

(** One key of the reconciliation's inner loop: the [live] map, unless an
    error or a panic ends it. *)
Definition reconcileKey (live : Snapshot) (k : string) : go (result error Snapshot) :=
  match rget k with
  | RedisNil => Returns (Ok live)
  | RedisErr e => Returns (Err e)
  | Value val =>
      match unmarshal val with
      | None => Returns (Ok live)
      | Some hb =>
          if String.eqb (ID hb) "" then
            match WorkerIDFromKey k with
            | Panics => Panics
            | Returns (Some id) => let hb := set_ID hb id in Returns (Ok (<[ID hb := hb]> live))
            | Returns None => Returns (Ok live)
            end
          else Returns (Ok (<[ID hb := hb]> live))
      end
  end.

Fixpoint reconcileKeys (live : Snapshot) (keys : list string) : go (result error Snapshot) :=
  match keys with
  | [] => Returns (Ok live)
  | k :: rest =>
      match reconcileKey live k with
      | Returns (Ok live) => reconcileKeys live rest
      | r => r
      end
  end.

(** The cursor loop; [fuel] bounds the number of pages ([None]: exceeded). *)
Fixpoint reconcileScan (fuel : nat) (cursor : Z) (live : Snapshot) :
    option (go (result error Snapshot)) :=
  match fuel with
  | O => None
  | S fuel =>
      match scan cursor with
      | Err e => Some (Returns (Err e))
      | Ok (keys, next) =>
          match reconcileKeys live keys with
          | Returns (Ok live) =>
              if next =? 0 then Some (Returns (Ok live)) else reconcileScan fuel next live
          | r => Some r
          end
      end
  end.

(** [reconcileOnce]: the new snapshot and the error. *)
Definition reconcileOnce (fuel : nat) (s : Snapshot) : option (go (result error Snapshot)) :=
  match reconcileScan fuel 0 ∅ with
  | Some (Returns (Ok live)) => Some (Returns (Ok (Replace s live)))
  | r => r
  end.

(** [applySet]: the snapshot after a set event of worker [id]. *)
Definition applySet (s : Snapshot) (id : string) : Snapshot :=
  match rget (Key id) with
  | RedisNil => Remove s id
  | RedisErr _ => s
  | Value val =>
      match unmarshal val with
      | None => s
      | Some hb =>
          let hb := if String.eqb (ID hb) "" then set_ID hb id else hb in
          Upsert s hb
      end
  end.

(** The body of [listenKeyevents] for one message (channel, payload). *)
Definition handleEvent (s : Snapshot) (channel payload : string) : go Snapshot :=
  match WorkerIDFromKey payload with
  | Panics => Panics
  | Returns None => Returns s
  | Returns (Some id) =>
      if HasSuffix channel ":expired" || HasSuffix channel ":del" then Returns (Remove s id)
      else if HasSuffix channel ":set" then Returns (applySet s id)
      else Returns s
  end.
End Service.

(** ** Lemmas on keys *)

Lemma HasSuffix_app t suf : HasSuffix (t ++ suf) suf = true.
Proof.
  unfold HasSuffix. rewrite str_length_app.
  replace (String.length t + String.length suf - String.length suf)%nat with (String.length t) by lia.
  rewrite str_drop_app, String.eqb_refl, andb_true_r. apply Nat.leb_le. lia.
Qed.

Lemma HasSuffix_inv s suf :
  HasSuffix s suf = true -> exists t, s = t ++ suf.
Proof.
  unfold HasSuffix. intros H. apply andb_true_iff in H as [_ H]. apply String.eqb_eq in H.
  exists (str_take (String.length s - String.length suf) s).
  rewrite <- H at 2. by rewrite str_take_drop.
Qed.

Lemma WorkerIDFromKey_Key id :
  WorkerIDFromKey (Key id) = if String.eqb id "" then Returns None else Returns (Some id).
Proof.
  unfold WorkerIDFromKey, Key. rewrite HasPrefix_app, <- str_app_assoc, HasSuffix_app.
  cbn [negb orb]. rewrite !str_length_app.
  replace (_ + _ - _)%nat with (String.length (keyPrefix ++ id)) by (rewrite str_length_app; lia).
  rewrite str_take_app, str_length_app.
  destruct (Nat.ltb_spec (String.length keyPrefix + String.length id) (String.length keyPrefix)); [lia|].
  by rewrite str_drop_app.
Qed.

Lemma WorkerIDFromKey_inv key id :
  WorkerIDFromKey key = Returns (Some id) -> key = Key id /\ id <> "".
Proof.
  unfold WorkerIDFromKey. destruct (HasPrefix key keyPrefix) eqn:Ep; [|done].
  destruct (HasSuffix key keySuffix) eqn:Es; [|done]. cbn [negb orb].
  apply HasPrefix_spec in Ep as [t ->]. apply HasSuffix_inv in Es as [u Eu].
  rewrite Eu, str_length_app.
  replace (String.length u + String.length keySuffix - String.length keySuffix)%nat
    with (String.length u) by lia.
  rewrite str_take_app. destruct (Nat.ltb_spec (String.length u) (String.length keyPrefix)) as [|Hl]; [done|].
  destruct (String.eqb_spec (str_drop (String.length keyPrefix) u) "") as [|Hne]; [done|].
  intros [= <-]. split; [|done]. unfold Key.
  assert (str_take (String.length keyPrefix) u = keyPrefix) as Et.
  { clear Hne. change (String.length keyPrefix) with 7%nat in *. unfold keyPrefix in Eu |- *.
    do 7 (destruct u as [|? u]; [cbn in Hl; lia|]). cbn in Eu. by injection Eu as <- <- <- <- <- <- <- _. }
  rewrite <- str_app_assoc. f_equal. rewrite <- (str_take_drop (String.length keyPrefix) u) at 1. by rewrite Et.
Qed.

Lemma WorkerIDFromKey_panics key :
  WorkerIDFromKey key = Panics <-> key = "worker:heartbeat".
Proof.
  split; [|by intros ->]. unfold WorkerIDFromKey.
  destruct (HasPrefix key keyPrefix) eqn:Ep; [|done].
  destruct (HasSuffix key keySuffix) eqn:Es; [|done]. cbn [negb orb].
  apply HasSuffix_inv in Es as [u ->]. rewrite str_length_app.
  replace (String.length u + String.length keySuffix - String.length keySuffix)%nat
    with (String.length u) by lia.
  destruct (Nat.ltb_spec (String.length u) (String.length keyPrefix)) as [Hl|]; [|by case_if].
  intros _. change (String.length keyPrefix) with 7%nat in Hl.
  apply HasPrefix_spec in Ep as [t Et]. unfold keyPrefix, keySuffix in *.
  do 7 (destruct u as [|? u]; [cbn in Et; try discriminate; injection Et; intros; subst; done|]).
  cbn in Hl. lia.
Qed.

(** ** The snapshot a Redis state calls for *)

Section Converge.
Context (unmarshal : string -> option Heartbeat).

(** The heartbeat of worker [id] in a Redis state. *)
Definition view (db : gmap string string) (id : string) : option Heartbeat :=
  match db !! Key id with
  | None => None
  | Some v =>
      match unmarshal v with
      | None => None
      | Some hb => Some (if String.eqb (ID hb) "" then set_ID hb id else hb)
      end
  end.

(** A worker writes decodable heartbeats under its own name. *)
Definition own_heartbeat (k v : string) : Prop :=
  forall id, k = Key id -> exists hb, unmarshal v = Some hb /\ (ID hb = "" \/ ID hb = id).

Definition db_ok (db : gmap string string) : Prop :=
  map_Forall (fun k v => own_heartbeat k v) db.

(** GET against a Redis state. *)
Definition db_get (db : gmap string string) (k : string) : reply :=
  match db !! k with Some v => Value v | None => RedisNil end.

Lemma Key_inj id id' : Key id = Key id' -> id = id'.
Proof.
  intros E. pose proof (WorkerIDFromKey_Key id) as H. rewrite E, WorkerIDFromKey_Key in H.
  destruct (String.eqb_spec id ""), (String.eqb_spec id' ""); simplify_eq; congruence.
Qed.

Lemma applySet_lookup db s id id' :
  db_ok db -> id <> "" ->
  applySet unmarshal (db_get db) s id !! id' = if decide (id = id') then view db id' else s !! id'.
Proof.
  intros Hdb Hid. unfold applySet, db_get, view.
  destruct (db !! Key id) as [v|] eqn:Ev.
  - destruct (Hdb _ _ Ev id eq_refl) as (hb & Eh & Hhb). rewrite Eh. unfold Upsert.
    assert (ID (if String.eqb (ID hb) "" then set_ID hb id else hb) = id) as ->.
    { case_if; zbool; [done|]. by destruct Hhb. }
    rewrite lookup_insert. case_decide; [subst; by rewrite Ev, Eh|done].
  - unfold Remove. rewrite lookup_delete. case_decide; [subst; by rewrite Ev|done].
Qed.

(** *** Reconciliation *)

(** [scan], from [cursor], serves the pages [ps] and then stops. *)
Fixpoint serves (scan : Z -> result error (list string * Z)) (cursor : Z) (ps : list (list string)) : Prop :=
  match ps with
  | [] => False
  | [ks] => scan cursor = Ok (ks, 0)
  | ks :: rest => exists next, next <> 0 /\ scan cursor = Ok (ks, next) /\ serves scan next rest
  end.

(** What [keys] contribute on top of [live]. *)
Definition merged (db : gmap string string) (live live' : Snapshot) (keys : list string) : Prop :=
  forall id, live' !! id =
    if decide (Key id ∈ keys /\ id <> "" /\ is_Some (db !! Key id)) then view db id else live !! id.

Lemma merged_skip db live id :
  (id = "" \/ db !! Key id = None) -> merged db live live [Key id].
Proof.
  intros H id'. case_decide as D; [|done]. destruct D as (D & Hne & [x Hx]).
  apply list_elem_of_singleton, Key_inj in D. destruct H; congruence.
Qed.

Lemma merged_insert db live id hb :
  id <> "" -> ID hb = id -> is_Some (db !! Key id) -> view db id = Some hb ->
  merged db live (<[ID hb := hb]> live) [Key id].
Proof.
  intros Hid Hi Hs Hv id'. rewrite lookup_insert, Hi. case_decide as D1; case_decide as D2; subst; try done.
  - contradict D2. split; [by apply list_elem_of_singleton|done].
  - destruct D2 as (D2 & _). apply list_elem_of_singleton, Key_inj in D2. by subst.
Qed.

Lemma merged_app db live live1 live2 ks1 ks2 :
  merged db live live1 ks1 -> merged db live1 live2 ks2 -> merged db live live2 (ks1 ++ ks2)%list.
Proof.
  intros M1 M2 id. rewrite M2, M1. pose proof (elem_of_app ks1 ks2 (Key id)).
  repeat case_decide; tauto.
Qed.

Lemma reconcileKey_ok db live id :
  db_ok db -> exists live', reconcileKey unmarshal (db_get db) live (Key id) = Returns (Ok live') /\
    merged db live live' [Key id].
Proof.
  intros Hdb. unfold reconcileKey, db_get.
  destruct (db !! Key id) as [v|] eqn:Ev; [|by eauto using merged_skip].
  destruct (Hdb _ _ Ev id eq_refl) as (hb & Eh & Hhb). rewrite Eh.
  assert (view db id = Some (if String.eqb (ID hb) "" then set_ID hb id else hb)) as Hv
    by (unfold view; by rewrite Ev, Eh).
  destruct (String.eqb_spec (ID hb) "") as [E0|E0].
  - rewrite WorkerIDFromKey_Key. destruct (String.eqb_spec id "") as [->|Hid]; [by eauto using merged_skip|].
    eexists. split; [done|]. by apply merged_insert.
  - destruct Hhb as [Hn|Hn]; [done|]. eexists. split; [done|]. apply merged_insert; congruence || done.
Qed.

Lemma reconcileKeys_ok db live keys :
  db_ok db -> Forall (fun k => exists id, k = Key id) keys ->
  exists live', reconcileKeys unmarshal (db_get db) live keys = Returns (Ok live') /\ merged db live live' keys.
Proof.
  intros Hdb Hk. revert live. induction Hk as [|k keys [id ->] Hk IH]; intros live.
  - exists live. split; [done|]. intros id. case_decide as H; [|done].
    destruct H as [H _]. by apply elem_of_nil in H.
  - destruct (reconcileKey_ok db live id Hdb) as (live1 & E1 & M1).
    destruct (IH live1) as (live' & E & M). exists live'. cbn [reconcileKeys]. rewrite E1.
    split; [done|]. by apply (merged_app db live live1 live' [Key id]).
Qed.

Lemma reconcileScan_ok db scan ps cursor live fuel :
  db_ok db -> serves scan cursor ps ->
  Forall (fun k => exists id, k = Key id) (concat ps) -> (length ps <= fuel)%nat ->
  exists live', reconcileScan unmarshal scan (db_get db) fuel cursor live = Some (Returns (Ok live')) /\
    merged db live live' (concat ps).
Proof.
  intros Hdb. revert cursor live fuel.
  induction ps as [|ks ps IH]; intros cursor live fuel Hs Hk Hf; [done|].
  cbn [concat] in Hk. apply Forall_app in Hk as [Hk1 Hk2]. cbn [length] in Hf.
  destruct fuel as [|fuel]; [lia|]. destruct (reconcileKeys_ok db live ks Hdb Hk1) as (live1 & E1 & M1).
  cbn [reconcileScan]. destruct ps as [|ks' ps'].
  - cbn in Hs. rewrite Hs, E1. exists live1. split; [done|]. cbn. by rewrite app_nil_r.
  - destruct Hs as (next & Hn & Es & Hs). rewrite Es, E1.
    rewrite (proj2 (Z.eqb_neq _ _) Hn). destruct (IH next live1 fuel) as (live' & E & M); [done..|lia|].
    exists live'. split; [done|]. by apply (merged_app db live live1 live' ks).
Qed.

(** *** Keyspace events *)

(** Redis, the events not yet delivered and the snapshot. *)
Record sys := mkSys { db : gmap string string; queue : list (string * string); snap : Snapshot }.

Inductive rop : Type :=
| SetKey (k v : string)
| DelKey (k : string)
| ExpireKey (k : string)
| Deliver.

Definition chan_set : string := "__keyevent@0__:set".
Definition chan_del : string := "__keyevent@0__:del".
Definition chan_expired : string := "__keyevent@0__:expired".

(** Redis announces the writes of the keyspace in order; [Deliver] lets the
    listener handle the oldest announcement against the present contents. *)
Definition sys_step (y : sys) (o : rop) : go sys :=
  match o with
  | SetKey k v => Returns (mkSys (<[k := v]> (db y)) (queue y ++ [(chan_set, k)])%list (snap y))
  | DelKey k =>
      Returns (if decide (is_Some (db y !! k))
               then mkSys (delete k (db y)) (queue y ++ [(chan_del, k)])%list (snap y) else y)
  | ExpireKey k =>
      Returns (if decide (is_Some (db y !! k))
               then mkSys (delete k (db y)) (queue y ++ [(chan_expired, k)])%list (snap y) else y)
  | Deliver =>
      match queue y with
      | [] => Returns y
      | (ch, k) :: rest =>
          match handleEvent unmarshal (db_get (db y)) (snap y) ch k with
          | Panics => Panics
          | Returns s => Returns (mkSys (db y) rest s)
          end
      end
  end.

Fixpoint sys_run (y : sys) (os : list rop) : go sys :=
  match os with
  | [] => Returns y
  | o :: rest => match sys_step y o with Panics => Panics | Returns y' => sys_run y' rest end
  end.

(** Writers respect the key syntax and write their own heartbeats. *)
Definition rop_ok (o : rop) : Prop :=
  match o with
  | SetKey k v => k <> "worker:heartbeat" /\ own_heartbeat k v
  | DelKey k | ExpireKey k => k <> "worker:heartbeat"
  | Deliver => True
  end.

(** The channel of the last undelivered event of a key. *)
Fixpoint pending (k : string) (q : list (string * string)) : option string :=
  match q with
  | [] => None
  | (ch, k') :: rest =>
      match pending k rest with
      | Some c => Some c
      | None => if decide (k' = k) then Some ch else None
      end
  end.

Definition event_ok (e : string * string) : Prop :=
  (e.1 = chan_set \/ e.1 = chan_del \/ e.1 = chan_expired) /\ e.2 <> "worker:heartbeat".

(** A worker is as Redis has it, or an event is under way; and if that event
    is a removal, Redis no longer has the key. *)
Definition tracks (y : sys) (id : string) : Prop :=
  match pending (Key id) (queue y) with
  | None => snap y !! id = view (db y) id
  | Some ch => ch <> chan_set -> db y !! Key id = None
  end.

Definition sys_inv (y : sys) : Prop :=
  db_ok (db y) /\ Forall event_ok (queue y) /\ forall id, id <> "" -> tracks y id.

Lemma pending_snoc k q ch k' :
  pending k (q ++ [(ch, k')])%list = if decide (k' = k) then Some ch else pending k q.
Proof.
  induction q as [|[c k1] q IH]; cbn; [by case_decide|]. rewrite IH. by destruct (decide (k' = k)).
Qed.

Lemma view_frame db db' id : db' !! Key id = db !! Key id -> view db' id = view db id.
Proof. intros E. unfold view. by rewrite E. Qed.

(** A write of Redis announced at the end of the queue. *)
Lemma write_inv y db' ch k :
  sys_inv y -> db_ok db' -> event_ok (ch, k) ->
  (forall k', k' <> k -> db' !! k' = db y !! k') ->
  (ch <> chan_set -> db' !! k = None) ->
  sys_inv (mkSys db' (queue y ++ [(ch, k)])%list (snap y)).
Proof.
  intros (Hdb & Hq & Ht) Hdb' He Hf Hd. split; [done|]. split; [by apply Forall_app; auto|].
  intros id Hid. specialize (Ht id Hid). unfold tracks in *. cbn. rewrite pending_snoc.
  case_decide as D; [by rewrite <- D|].
  rewrite Hf by congruence. revert Ht. destruct (pending (Key id) (queue y)); [by auto|]. intros ->.
  by rewrite (view_frame (db y) db' id) by (apply Hf; congruence).
Qed.

Lemma handleEvent_spec db s ch k :
  db_ok db -> event_ok (ch, k) ->
  exists s', handleEvent unmarshal (db_get db) s ch k = Returns s' /\
    forall id, id <> "" -> s' !! id =
      if decide (k = Key id) then (if decide (ch = chan_set) then view db id else None) else s !! id.
Proof.
  intros Hdb [Hch Hk]. cbn in Hch, Hk. unfold handleEvent.
  destruct (WorkerIDFromKey k) as [[id|]|] eqn:E.
  - apply WorkerIDFromKey_inv in E as [-> Hid].
    destruct Hch as [->|[->| ->]]; cbn; eexists; (split; [reflexivity|]); intros id' Hid'.
    + rewrite applySet_lookup by done. case_decide; subst; repeat case_decide; try done.
      exfalso. by apply Key_inj in H0.
    + unfold Remove. rewrite lookup_delete. repeat case_decide; subst; try done. exfalso. by apply Key_inj in H0.
    + unfold Remove. rewrite lookup_delete. repeat case_decide; subst; try done. exfalso. by apply Key_inj in H0.
  - exists s. split; [done|]. intros id Hid. case_decide; [|done]. subst.
    rewrite WorkerIDFromKey_Key in E. by destruct (String.eqb_spec id "").
  - by apply WorkerIDFromKey_panics in E.
Qed.

Lemma sys_step_inv y o :
  sys_inv y -> rop_ok o -> exists y', sys_step y o = Returns y' /\ sys_inv y'.
Proof.
  intros Hi Ho. pose proof Hi as (Hdb & Hq & Ht). destruct o as [k v|k|k| ]; cbn in *.
  - destruct Ho as [Hk Hv]. eexists. split; [done|]. apply write_inv; [done| | |by intros; rewrite lookup_insert_ne|done].
    + apply map_Forall_insert_2; done.
    + split; [by left|done].
  - eexists. split; [done|]. case_decide; [|done]. apply write_inv; [done| | |by intros; rewrite lookup_delete_ne|by rewrite lookup_delete_eq].
    + by apply map_Forall_delete.
    + split; [by right; left|done].
  - eexists. split; [done|]. case_decide; [|done]. apply write_inv; [done| | |by intros; rewrite lookup_delete_ne|by rewrite lookup_delete_eq].
    + by apply map_Forall_delete.
    + split; [by right; right|done].
  - destruct (queue y) as [|[ch k] rest] eqn:Eq; [by exists y|].
    inversion Hq as [|? ? He Hq']; subst.
    destruct (handleEvent_spec (db y) (snap y) ch k Hdb He) as (s' & Es & Hs). rewrite Es.
    eexists. split; [done|]. split; [done|]. split; [done|]. intros id Hid.
    specialize (Ht id Hid). unfold tracks in *. rewrite Eq in Ht. cbn in *.
    revert Ht. destruct (pending (Key id) rest); [by auto|]. intros Ht. rewrite Hs by done.
    case_decide as D; [|done]. case_decide as D'; [done|]. specialize (Ht D'). unfold view. by rewrite Ht.
Qed.

Lemma sys_run_inv y os :
  sys_inv y -> Forall rop_ok os -> exists y', sys_run y os = Returns y' /\ sys_inv y'.
Proof.
  intros Hi Ho. revert y Hi. induction Ho as [|o os Ho Hos IH]; intros y Hi; [by exists y|].
  destruct (sys_step_inv y o Hi Ho) as (y1 & E1 & Hi1). cbn. rewrite E1. by apply IH.
Qed.

Lemma deliver_all y :
  sys_inv y -> exists y', sys_run y (replicate (length (queue y)) Deliver) = Returns y' /\
    queue y' = [] /\ db y' = db y /\ sys_inv y'.
Proof.
  remember (length (queue y)) as n eqn:En. revert y En.
  induction n as [|n IH]; intros y En Hi; [exists y; by destruct (queue y)|].
  destruct (sys_step_inv y Deliver Hi I) as (y1 & E1 & Hi1). cbn [replicate sys_run]. rewrite E1.
  cbn in E1. destruct (queue y) as [|[ch k] rest]; [done|].
  destruct (handleEvent unmarshal (db_get (db y)) (snap y) ch k); [|done]. injection E1 as <-.
  injection En as En. destruct (IH (mkSys (db y) rest a) En Hi1) as (y' & E & Hq & Hd & Hi'). by exists y'.
Qed.
End Converge.

(** ** Properties *)

(** The heartbeat key syntax round trips and is recognised exactly: a key
    yields a worker id only if it is that worker's key, the key of every
    non-empty id yields it back, and the only key on which the slice
    expression panics is the string worker:heartbeat, in which prefix and
    suffix overlap. *)
Theorem heartbeat_key_roundtrip key id :
  (WorkerIDFromKey key = Returns (Some id) <-> key = Key id /\ id <> "") /\
  (WorkerIDFromKey key = Panics <-> key = "worker:heartbeat").
Proof.
  split; [|apply WorkerIDFromKey_panics]. split; [apply WorkerIDFromKey_inv|].
  intros [-> Hid]. rewrite WorkerIDFromKey_Key. by destruct (String.eqb_spec id "").
Qed.

(** A reconciliation whose SCAN serves, in finitely many pages and with
    possible repetitions, the heartbeat keys of a Redis state terminates and
    replaces the snapshot, whatever it was, by exactly the heartbeats of that
    state. *)
Theorem reconcile_exact unmarshal db scan ps fuel s :
  db_ok unmarshal db -> serves scan 0 ps -> (length ps <= fuel)%nat ->
  Forall (fun k => exists id, k = Key id) (concat ps) ->
  (forall id, is_Some (db !! Key id) -> Key id ∈ concat ps) ->
  exists s', reconcileOnce unmarshal scan (db_get db) fuel s = Some (Returns (Ok s')) /\
    forall id, id <> "" -> s' !! id = view unmarshal db id.
Proof.
  intros Hdb Hs Hf Hk Hc.
  destruct (reconcileScan_ok unmarshal db scan ps 0 ∅ fuel Hdb Hs Hk Hf) as (live & E & M).
  exists live. unfold reconcileOnce. rewrite E. split; [done|]. intros id Hid. rewrite M.
  case_decide as D; [done|]. rewrite lookup_empty. unfold view.
  destruct (db !! Key id) eqn:Ed; [|done]. contradict D. split; [by apply Hc|done].
Qed.

(** C19: from a snapshot that agrees with Redis, whatever heartbeats are set,
    deleted or expired and however the deliveries of their keyspace events
    are interleaved with the writes, the listener does not panic, and once
    the pending events are delivered the snapshot holds exactly the
    heartbeats Redis holds. *)
Theorem keyevents_converge unmarshal db0 s0 os :
  db_ok unmarshal db0 -> (forall id, id <> "" -> s0 !! id = view unmarshal db0 id) ->
  Forall (rop_ok unmarshal) os ->
  exists y y', sys_run unmarshal (mkSys db0 [] s0) os = Returns y /\
    sys_run unmarshal y (replicate (length (queue y)) Deliver) = Returns y' /\
    forall id, id <> "" -> snap y' !! id = view unmarshal (db y) id.
Proof.
  intros Hdb Hs Ho. destruct (sys_run_inv unmarshal (mkSys db0 [] s0) os) as (y & E & Hi); [|done|].
  - by split.
  - destruct (deliver_all unmarshal y Hi) as (y' & E' & Hq & Hd & Hi').
    exists y, y'. split; [done|]. split; [done|]. intros id Hid.
    destruct Hi' as (_ & _ & Ht). specialize (Ht id Hid). unfold tracks in Ht. rewrite Hq, Hd in Ht. done.
Qed.

(** A decoder for the witnesses: the payload is the address. *)
Definition demo_unmarshal (v : string) : option Heartbeat :=
  Some (mkHeartbeat "" "m" None "vllm" v true 0 0 f_zero f_zero 0).

Lemma demo_own k v : own_heartbeat demo_unmarshal k v.
Proof. intros id _. eexists. split; [reflexivity|]. by left. Qed.

Definition demo_db : gmap string string := {[ Key "w1" := "h1"; Key "w2" := "h2" ]}.

Definition demo_scan (cursor : Z) : result error (list string * Z) :=
  if cursor =? 0 then Ok ([Key "w1"], 7) else Ok ([Key "w2"; Key "w1"], 0).

Lemma demo_db_keys id : is_Some (demo_db !! Key id) -> id = "w1" \/ id = "w2".
Proof.
  unfold demo_db. rewrite lookup_insert. case_decide as D.
  - intros _. left. by apply Key_inj in D.
  - rewrite lookup_singleton. case_decide as D2; [|by intros []].
    intros _. right. by apply Key_inj in D2.
Qed.

Lemma reconcile_exact_witness :
  exists s', reconcileOnce demo_unmarshal demo_scan (db_get demo_db) 2 ∅ = Some (Returns (Ok s')) /\
    forall id, id <> "" -> s' !! id = view demo_unmarshal demo_db id.
Proof.
  apply (reconcile_exact demo_unmarshal demo_db demo_scan [[Key "w1"]; [Key "w2"; Key "w1"]] 2 ∅).
  - intros k v _. apply demo_own.
  - exists 7. done.
  - cbn. lia.
  - repeat constructor; eexists; reflexivity.
  - intros id Hid. destruct (demo_db_keys id Hid) as [-> | ->]; set_solver.
Defined.

Lemma keyevents_converge_witness :
  exists y y', sys_run demo_unmarshal (mkSys ∅ [] ∅)
      [SetKey (Key "w1") "h1"; DelKey (Key "w1"); Deliver; SetKey (Key "w1") "h2"] = Returns y /\
    sys_run demo_unmarshal y (replicate (length (queue y)) Deliver) = Returns y' /\
    forall id, id <> "" -> snap y' !! id = view demo_unmarshal (db y) id.
Proof.
  apply (keyevents_converge demo_unmarshal ∅ ∅).
  - apply map_Forall_empty.
  - intros id _. unfold view. by rewrite !lookup_empty.
  - repeat constructor; try (intros H; discriminate H); apply demo_own.
Defined.
