(* ===== verification/HeartbeatWriter.v ===== *)
(** * The heartbeat writer of a worker (worker/heartbeat.go)

    A worker writes its state to Redis under the key of Health.v, with a time
    to live, as a JSON document.  Redis is the class [RedisTTL] (SET with an
    expiry, DEL, and the keys that are live at a time); the document is the one
    encoding/json writes.  The fields of the writer are atomics: each setter is
    one or two atomic stores, so a schedule may interleave them with beats.  A
    beat is one step: a store that falls between its loads counts as before or
    after the beat, so a heartbeat that mixes the fields of two moments is not
    represented. *)

From Stdlib Require Import Floats.SpecFloat.
From S2P Require Import Prelude Float64 Rounding FloatRange GoStrings GoFormat Json JsonDecode Strconv JsonFloat Errors Health.

(** ** Conversions *)

(** [uint64(x)]: the language leaves the result open when the integer part
    does not fit, here [oob]. *)
Definition to_uint64 (oob : float64 -> Z) (x : float64) : Z :=
  match x with
  | S754_zero _ => 0
  | S754_finite _ _ _ => if (0 <=? trunc x) && (trunc x <? two64) then trunc x else wrap_u64 (oob x)
  | _ => wrap_u64 (oob x)
  end.

Definition million : float64 := f_of_Z 1000000.

(** ** State *)

Record HeartbeatWriterConfig := mkWriterConfig {
  hc_ID : string;
  hc_BaseModel : string;
  hc_Adapter : option string;
  hc_Runtime : string;
  hc_Addr : string;
  hc_TTL : Z;
  hc_Interval : Z;
  hc_Ready : bool
}.

Record HeartbeatWriter := mkWriter {
  hw_id : string;
  hw_baseModel : string;
  hw_adapter : option string;
  hw_runtime : string;
  hw_addr : string;
  hw_ttl : Z;
  hw_interval : Z;
  hw_ready : bool;
  hw_inflight : Z;
  hw_queue : Z;
  hw_kvUsage : Z;
  hw_gpuUsage : Z
}.

Definition NewHeartbeatWriter (cfg : HeartbeatWriterConfig) : HeartbeatWriter :=
  mkWriter (hc_ID cfg) (hc_BaseModel cfg) (hc_Adapter cfg) (hc_Runtime cfg) (hc_Addr cfg)
    (if hc_TTL cfg <=? 0 then 6 * second else hc_TTL cfg)
    (if hc_Interval cfg <=? 0 then 2 * second else hc_Interval cfg)
    (hc_Ready cfg) 0 0 0 0.

Definition SetReady (w : HeartbeatWriter) (ready : bool) : HeartbeatWriter :=
  mkWriter (hw_id w) (hw_baseModel w) (hw_adapter w) (hw_runtime w) (hw_addr w) (hw_ttl w) (hw_interval w)
    ready (hw_inflight w) (hw_queue w) (hw_kvUsage w) (hw_gpuUsage w).

Definition store_inflight (w : HeartbeatWriter) (n : Z) : HeartbeatWriter :=
  mkWriter (hw_id w) (hw_baseModel w) (hw_adapter w) (hw_runtime w) (hw_addr w) (hw_ttl w) (hw_interval w)
    (hw_ready w) n (hw_queue w) (hw_kvUsage w) (hw_gpuUsage w).

Definition store_queue (w : HeartbeatWriter) (n : Z) : HeartbeatWriter :=
  mkWriter (hw_id w) (hw_baseModel w) (hw_adapter w) (hw_runtime w) (hw_addr w) (hw_ttl w) (hw_interval w)
    (hw_ready w) (hw_inflight w) n (hw_kvUsage w) (hw_gpuUsage w).

Definition store_kv (w : HeartbeatWriter) (n : Z) : HeartbeatWriter :=
  mkWriter (hw_id w) (hw_baseModel w) (hw_adapter w) (hw_runtime w) (hw_addr w) (hw_ttl w) (hw_interval w)
    (hw_ready w) (hw_inflight w) (hw_queue w) n (hw_gpuUsage w).

Definition store_gpu (w : HeartbeatWriter) (n : Z) : HeartbeatWriter :=
  mkWriter (hw_id w) (hw_baseModel w) (hw_adapter w) (hw_runtime w) (hw_addr w) (hw_ttl w) (hw_interval w)
    (hw_ready w) (hw_inflight w) (hw_queue w) (hw_kvUsage w) n.

Definition SetLoad (w : HeartbeatWriter) (inflight queueDepth : Z) : HeartbeatWriter :=
  store_queue (store_inflight w inflight) queueDepth.

Definition floatBits (oob : float64 -> Z) (f : float64) : Z := to_uint64 oob (fmul f million).
Definition bitsFloat (u : Z) : float64 := fdiv (f_of_Z u) million.

Definition SetCacheUsage (oob : float64 -> Z) (w : HeartbeatWriter) (kv gpu : float64) : HeartbeatWriter :=
  store_gpu (store_kv w (floatBits oob kv)) (floatBits oob gpu).

(** [time.Now().UnixMilli()] at an instant *)
Definition unix_epoch : Z := 62135596800 * second.
Definition UnixMilli (t : Z) : Z := (t - unix_epoch) / millisecond.

Definition snapshot (w : HeartbeatWriter) (now : Z) : Heartbeat :=
  mkHeartbeat (hw_id w) (hw_baseModel w) (hw_adapter w) (hw_runtime w) (hw_addr w) (hw_ready w)
    (hw_inflight w) (hw_queue w) (bitsFloat (hw_kvUsage w)) (bitsFloat (hw_gpuUsage w)) (UnixMilli now).

(** ** Redis and JSON *)

(** Redis counts a time to live in milliseconds. *)
Class RedisTTL (R : Type) := {
  keys_at : R -> Z -> gmap string string;
  redis_Set : R -> Z -> string -> string -> Z -> option error * R;
  redis_Del : R -> Z -> string -> option error * R;
  Set_ok : forall r t k v ttl r', redis_Set r t k v ttl = (None, r') -> 0 < ttl -> (millisecond | ttl) ->
    forall t', t <= t' -> keys_at r' t' = if t' <? t + ttl then <[k := v]> (keys_at r t') else delete k (keys_at r t');
  Del_ok : forall r t k r', redis_Del r t k = (None, r') -> forall t', t <= t' -> keys_at r' t' = delete k (keys_at r t')
}.

(** *** The document of a heartbeat *)

Definition omit_zero (k : string) (x : float64) : list (string * doc) :=
  if feqb x f_zero then [] else [(k, DNum (float_text x))].

Definition heartbeat_doc (hb : Heartbeat) : doc :=
  DObj ([("id", DStr (ID hb)); ("base_model", DStr (BaseModel hb));
         ("adapter", match Adapter hb with Some a => DStr a | None => DNull end);
         ("runtime", DStr (Runtime hb)); ("addr", DStr (Addr hb)); ("ready", DBool (Ready hb));
         ("inflight", DInt (Inflight hb)); ("queue_depth", DInt (QueueDepth hb))] ++
        omit_zero "kv_cache_usage" (KVCacheUsage hb) ++ omit_zero "gpu_cache_usage" (GPUCacheUsage hb) ++
        [("ts", DInt (TS hb))]).

(** A number that is not finite is an error. *)
Definition marshal (hb : Heartbeat) : result error string :=
  if bool_decide (finite (KVCacheUsage hb)) && bool_decide (finite (GPUCacheUsage hb)) then Ok (print (heartbeat_doc hb))
  else Err (ENew "json: unsupported value").

Definition zero_heartbeat : Heartbeat := mkHeartbeat "" "" None "" "" false 0 0 f_zero f_zero 0.

Definition heartbeat_fields : fields Heartbeat :=
  [("id", fun h d => option_map (fun x => mkHeartbeat x (BaseModel h) (Adapter h) (Runtime h) (Addr h) (Ready h) (Inflight h)
      (QueueDepth h) (KVCacheUsage h) (GPUCacheUsage h) (TS h)) (dec_string (ID h) d));
   ("base_model", fun h d => option_map (fun x => mkHeartbeat (ID h) x (Adapter h) (Runtime h) (Addr h) (Ready h) (Inflight h)
      (QueueDepth h) (KVCacheUsage h) (GPUCacheUsage h) (TS h)) (dec_string (BaseModel h) d));
   ("adapter", fun h d => option_map (fun x => mkHeartbeat (ID h) (BaseModel h) x (Runtime h) (Addr h) (Ready h) (Inflight h)
      (QueueDepth h) (KVCacheUsage h) (GPUCacheUsage h) (TS h)) (dec_ptr "" dec_string (Adapter h) d));
   ("runtime", fun h d => option_map (fun x => mkHeartbeat (ID h) (BaseModel h) (Adapter h) x (Addr h) (Ready h) (Inflight h)
      (QueueDepth h) (KVCacheUsage h) (GPUCacheUsage h) (TS h)) (dec_string (Runtime h) d));
   ("addr", fun h d => option_map (fun x => mkHeartbeat (ID h) (BaseModel h) (Adapter h) (Runtime h) x (Ready h) (Inflight h)
      (QueueDepth h) (KVCacheUsage h) (GPUCacheUsage h) (TS h)) (dec_string (Addr h) d));
   ("ready", fun h d => option_map (fun x => mkHeartbeat (ID h) (BaseModel h) (Adapter h) (Runtime h) (Addr h) x (Inflight h)
      (QueueDepth h) (KVCacheUsage h) (GPUCacheUsage h) (TS h)) (dec_bool (Ready h) d));
   ("inflight", fun h d => option_map (fun x => mkHeartbeat (ID h) (BaseModel h) (Adapter h) (Runtime h) (Addr h) (Ready h) x
      (QueueDepth h) (KVCacheUsage h) (GPUCacheUsage h) (TS h)) (dec_int64 (Inflight h) d));
   ("queue_depth", fun h d => option_map (fun x => mkHeartbeat (ID h) (BaseModel h) (Adapter h) (Runtime h) (Addr h) (Ready h)
      (Inflight h) x (KVCacheUsage h) (GPUCacheUsage h) (TS h)) (dec_int64 (QueueDepth h) d));
   ("kv_cache_usage", fun h d => option_map (fun x => mkHeartbeat (ID h) (BaseModel h) (Adapter h) (Runtime h) (Addr h) (Ready h)
      (Inflight h) (QueueDepth h) x (GPUCacheUsage h) (TS h)) (dec_float64 (KVCacheUsage h) d));
   ("gpu_cache_usage", fun h d => option_map (fun x => mkHeartbeat (ID h) (BaseModel h) (Adapter h) (Runtime h) (Addr h) (Ready h)
      (Inflight h) (QueueDepth h) (KVCacheUsage h) x (TS h)) (dec_float64 (GPUCacheUsage h) d));
   ("ts", fun h d => option_map (mkHeartbeat (ID h) (BaseModel h) (Adapter h) (Runtime h) (Addr h) (Ready h) (Inflight h)
      (QueueDepth h) (KVCacheUsage h) (GPUCacheUsage h)) (dec_int64 (TS h) d))].

Definition unmarshal (s : string) : option Heartbeat := unmarshal_into zero_heartbeat (dec_struct heartbeat_fields) s.

Section Writer.
Context {R : Type} `{RedisTTL R}.

(** [BeatOnce]: the loads of [snapshot], the encoding and the SET, taken as one
    step of the writer; [now] is the clock of all of it. *)
Definition BeatOnce (w : HeartbeatWriter) (r : R) (now : Z) : option error * R :=
  match marshal (snapshot w now) with
  | Err e => (Some e, r)
  | Ok payload => redis_Set r now (Key (hw_id w)) payload (hw_ttl w)
  end.

Definition Delete (w : HeartbeatWriter) (r : R) (now : Z) : option error * R := redis_Del r now (Key (hw_id w)).

(** What happens to a running writer: the ticks of [Run] and the stores of the
    other goroutines. *)
Inductive wevent : Type :=
| WReady (ready : bool)
| WInflight (n : Z)
| WQueue (n : Z)
| WKV (n : Z)
| WGPU (n : Z)
| WBeat (t : Z).

(** The errors of beats are logged. *)
Definition wact (st : HeartbeatWriter * R) (e : wevent) : HeartbeatWriter * R :=
  let '(w, r) := st in
  match e with
  | WReady b => (SetReady w b, r)
  | WInflight n => (store_inflight w n, r)
  | WQueue n => (store_queue w n, r)
  | WKV n => (store_kv w n, r)
  | WGPU n => (store_gpu w n, r)
  | WBeat t => (w, (BeatOnce w r t).2)
  end.

Definition Run (st : HeartbeatWriter * R) (es : list wevent) : HeartbeatWriter * R := foldl wact st es.
End Writer.

(** ** Lemmas *)

Lemma trunc_fval n x : frange n x -> trunc x = fval x / one_val.
Proof.
  intros (V & F & Hr). pose proof one_val_pos as Hp. destruct x as [s| | |s m e]; try done.
  cbn [fval] in Hr. destruct (valid_finite_bounds _ _ _ V) as (_ & He & _).
  pose proof (pow2_pos (e + 1074) ltac:(lia)). destruct s; cbn [sg] in Hr; [nia|].
  cbn [fval trunc sg]. unfold one_val. destruct (Z.leb_spec 0 e).
  - rewrite Z.pow_add_r, Z.mul_assoc, Z.div_mul by lia. done.
  - assert (2 ^ 1074 = 2 ^ (- e) * 2 ^ (e + 1074)) as -> by (rewrite <- Z.pow_add_r by lia; f_equal; lia).
    rewrite Z.div_mul_cancel_r; lia.
Qed.

Lemma million_range : frange 1000000 million.
Proof. apply frange_of_Z; lia. Qed.

Lemma million_fval : fval million = 1000000 * one_val.
Proof. by apply f_of_Z_exact. Qed.

Lemma trunc_range n x : 0 <= n -> frange n x -> 0 <= trunc x <= n.
Proof.
  intros Hn Hx. rewrite (trunc_fval n x Hx). destruct Hx as (_ & _ & H0 & H1). pose proof one_val_pos as Hp. split.
  - apply Z.div_pos; lia.
  - apply Z.div_le_upper_bound; lia.
Qed.

(** A usage between zero and one is stored as its millionths. *)
Lemma floatBits_unit oob x : frange 1 x -> floatBits oob x = fval (fmul x million) / one_val /\ 0 <= floatBits oob x <= 1000000.
Proof.
  intros Hx. pose proof (frange_mul 1 1000000 x million ltac:(lia) ltac:(lia) ltac:(lia) Hx million_range) as Hm.
  change (1 * 1000000) with 1000000 in Hm. pose proof (trunc_range 1000000 _ ltac:(lia) Hm) as Ht.
  assert (floatBits oob x = trunc (fmul x million)) as ->; [|split; [by eapply trunc_fval|done]].
  unfold floatBits, to_uint64. set (y := fmul x million) in *. clearbody y. destruct Hm as (_ & F & _).
  destruct y as [s| | |s m e]; try done. rewrite (proj2 (Z.leb_le _ _)) by lia.
  by rewrite (proj2 (Z.ltb_lt _ _)) by (unfold two64; lia).
Qed.

Lemma bitsFloat_range k u : 0 <= u <= k * 1000000 -> 0 <= k < 2 ^ 33 -> frange k (bitsFloat u).
Proof.
  intros Hu Hk. unfold bitsFloat. eapply frange_div; [lia|apply (frange_of_Z (k * 1000000)); lia|apply million_range..| |].
  - rewrite million_fval. pose proof one_val_pos. lia.
  - rewrite million_fval, f_of_Z_exact by lia. pose proof one_val_pos. nia.
Qed.

(** Any stored word is reported as a number. *)
Lemma f_of_u64_range u : in_u64 u -> frange two64 (f_of_Z u).
Proof.
  intros Hu. pose proof one_val_pos as Hp. pose proof (f_of_Z_good u) as G.
  assert (0 <= fval (f_of_Z u) <= two64 * one_val) as Hr.
  { rewrite (proj1 (f_of_Z_spec u)). change (2 ^ 1074) with one_val. unfold in_u64 in Hu. split; [apply rndZ_nonneg; nia|].
    assert (rndZ (two64 * one_val) = two64 * one_val) as <-; [|apply rndZ_mono; nia].
    unfold rndZ. destruct (Z.ltb_spec (two64 * one_val) 0); [nia|].
    replace (two64 * one_val) with (1 * 2 ^ 1138) by reflexivity. apply rcap_exact; lia. }
  split; [apply G|]. split; [|done]. apply good_finite; [done|].
  assert (two64 * one_val < inf_val) by reflexivity. lia.
Qed.

Lemma bitsFloat_num u : in_u64 u -> num (bitsFloat u).
Proof.
  intros Hu. apply (frange_num (2 ^ 45)). unfold bitsFloat. pose proof (f_of_u64_range u Hu) as Hf.
  eapply frange_div; [lia|exact Hf|apply million_range..| |]; rewrite million_fval; pose proof one_val_pos; [lia|].
  destruct Hf as (_ & _ & Hf). unfold two64 in Hf. nia.
Qed.

(** *** Reading a heartbeat back *)

Definition utf8_heartbeat (hb : Heartbeat) : Prop :=
  Forall valid_utf8 [ID hb; BaseModel hb; Runtime hb; Addr hb] /\ match Adapter hb with Some a => valid_utf8 a | None => True end.

#[export] Instance utf8_heartbeat_dec hb : Decision (utf8_heartbeat hb).
Proof. unfold utf8_heartbeat. destruct (Adapter hb); apply _. Defined.

(** A float that is zero only as positive zero. *)
Definition no_minus_zero (x : float64) : Prop := num x /\ x <> S754_zero true.

Lemma omit_zero_nonzero x : no_minus_zero x -> feqb x f_zero = true -> x = f_zero.
Proof. intros [_ Hx]. destruct x as [[]|[]| |[] m e]; try done. Qed.

(** Rounding keeps the sign. *)
Lemma round_aux_not_minus_zero mx ex lx : binary_round_aux fprec femax false mx ex lx <> S754_zero true.
Proof. unfold binary_round_aux. repeat case_match; try discriminate. Qed.

Lemma bitsFloat_plain u : in_u64 u -> no_minus_zero (bitsFloat u).
Proof.
  intros Hu. split; [by apply bitsFloat_num|]. unfold bitsFloat.
  assert (exists m e, million = S754_finite false m e) as (m & e & ->) by (eexists _, _; vm_compute; reflexivity).
  assert (forall s, f_of_Z u = S754_zero s -> s = false) as Hz.
  { intros [] E; [|done]. exfalso. unfold f_of_Z, in_u64 in *. destruct u as [|p|p]; [done| |lia]. cbn [binary_normalize] in E.
    unfold binary_round in E. destruct (shl_align p 0 _) as [m' e']. by apply round_aux_not_minus_zero in E. }
  assert (0 <= fval (f_of_Z u)) as Hp by apply (f_of_u64_range u Hu).
  pose proof (f_of_Z_good u) as [V _]. unfold fdiv.
  destruct (f_of_Z u) as [s|[]| |[] m' e']; [by rewrite (Hz s eq_refl)|done..| |]; cbn [SFdiv].
  { pose proof (finite_pos_bounds _ _ _ V). cbn [fval sg] in Hp. lia. }
  destruct (SFdiv_core_binary fprec femax (Z.pos m') e' (Z.pos m) e) as [[mz ez] lz]. apply round_aux_not_minus_zero.
Qed.

Section HeartbeatDocument.

Lemma read_kv h x ms : KVCacheUsage h = f_zero -> no_minus_zero x ->
  dec_members heartbeat_fields h (omit_zero "kv_cache_usage" x ++ ms)%list =
    dec_members heartbeat_fields (mkHeartbeat (ID h) (BaseModel h) (Adapter h) (Runtime h) (Addr h) (Ready h)
      (Inflight h) (QueueDepth h) x (GPUCacheUsage h) (TS h)) ms.
Proof.
  intros Hz Hx. unfold omit_zero. destruct (feqb x f_zero) eqn:E; cbn [app].
  - rewrite (omit_zero_nonzero x Hx E). destruct h. cbn in *. by subst.
  - erewrite dec_members_field; [reflexivity|reflexivity|]. cbn beta. cbn [dec_float64]. destruct Hx as [Hx _].
    by rewrite float_text_read.
Qed.

Lemma read_gpu h x ms : GPUCacheUsage h = f_zero -> no_minus_zero x ->
  dec_members heartbeat_fields h (omit_zero "gpu_cache_usage" x ++ ms)%list =
    dec_members heartbeat_fields (mkHeartbeat (ID h) (BaseModel h) (Adapter h) (Runtime h) (Addr h) (Ready h)
      (Inflight h) (QueueDepth h) (KVCacheUsage h) x (TS h)) ms.
Proof.
  intros Hz Hx. unfold omit_zero. destruct (feqb x f_zero) eqn:E; cbn [app].
  - rewrite (omit_zero_nonzero x Hx E). destruct h. cbn in *. by subst.
  - erewrite dec_members_field; [reflexivity|reflexivity|]. cbn beta. cbn [dec_float64]. destruct Hx as [Hx _].
    by rewrite float_text_read.
Qed.

Lemma heartbeat_numbers hb : num (KVCacheUsage hb) -> num (GPUCacheUsage hb) -> numbers_ok (heartbeat_doc hb).
Proof.
  intros Hk Hg. destruct hb as [id base [a|] runtime addr ready infl queue kv gpu ts]; cbn [KVCacheUsage GPUCacheUsage] in *;
    unfold heartbeat_doc, omit_zero; cbn [KVCacheUsage GPUCacheUsage]; destruct (feqb kv f_zero), (feqb gpu f_zero);
    cbn -[Itoa]; split_and!; try done; first [apply Itoa_num_ok|by apply float_text_number].
Qed.

Lemma heartbeat_unchanged hb : utf8_heartbeat hb -> repaired (heartbeat_doc hb) = heartbeat_doc hb.
Proof.
  destruct hb as [id base adapter runtime addr ready infl queue kv gpu ts]. intros [Hu Ha]. cbn in Hu, Ha.
  rewrite !list.Forall_cons in Hu. destruct Hu as (U1 & U2 & U3 & U4 & _).
  unfold heartbeat_doc, omit_zero.
  cbn [ID BaseModel Adapter Runtime Addr Ready Inflight QueueDepth KVCacheUsage GPUCacheUsage TS].
  assert (repaired (match adapter with Some a => DStr a | None => DNull end) = match adapter with Some a => DStr a | None => DNull end) as Ea
    by (destruct adapter; [cbn [repaired]; by rewrite sanitize_id|done]).
  destruct (feqb kv f_zero), (feqb gpu f_zero); cbn [app repaired List.map fst snd]; rewrite Ea; cbn [repaired];
    rewrite (sanitize_id id), (sanitize_id base), (sanitize_id runtime), (sanitize_id addr) by done; reflexivity.
Qed.

(** The struct after a field, with the other fields as they were. *)
Ltac settle := cbn [ID BaseModel Adapter Runtime Addr Ready Inflight QueueDepth KVCacheUsage GPUCacheUsage TS zero_heartbeat].

Lemma marshal_ok hb :
  utf8_heartbeat hb -> no_minus_zero (KVCacheUsage hb) -> no_minus_zero (GPUCacheUsage hb) ->
  in_i64 (Inflight hb) -> in_i64 (QueueDepth hb) -> in_i64 (TS hb) ->
  exists s, marshal hb = Ok s /\ unmarshal s = Some hb.
Proof.
  intros Hu Hk Hg Hi Hq Ht. unfold marshal. pose proof Hk as [[_ Fk] _]. pose proof Hg as [[_ Fg] _].
  rewrite !bool_decide_eq_true_2 by done. eexists. split; [reflexivity|].
  unfold unmarshal, unmarshal_into. rewrite parse_print; [|apply heartbeat_numbers; [apply Hk|apply Hg]|].
  - rewrite heartbeat_unchanged by done.
    destruct hb as [id base adapter runtime addr ready infl queue kv gpu ts]. cbn in Hk, Hg, Hi, Hq, Ht.
    unfold heartbeat_doc. cbn [dec_struct app ID BaseModel Adapter Runtime Addr Ready Inflight QueueDepth KVCacheUsage GPUCacheUsage TS].
    do 2 (erewrite (dec_members_field heartbeat_fields); [|reflexivity|reflexivity]; settle).
    erewrite (dec_members_field heartbeat_fields _ _ _ _ _ (mkHeartbeat id base adapter "" "" false 0 0 f_zero f_zero 0));
      [|reflexivity|by destruct adapter].
    do 3 (erewrite (dec_members_field heartbeat_fields); [|reflexivity|reflexivity]; settle).
    do 2 (erewrite (dec_members_field heartbeat_fields); [|reflexivity|cbn beta; rewrite dec_int64_DInt by assumption; reflexivity]; settle).
    match goal with |- dec_members _ ?h _ = _ => set (h1 := h) end.
    assert (KVCacheUsage h1 = f_zero) as Ek by reflexivity.
    rewrite (read_kv h1 kv _ Ek Hk). subst h1.
    cbn [ID BaseModel Adapter Runtime Addr Ready Inflight QueueDepth KVCacheUsage GPUCacheUsage TS zero_heartbeat].
    match goal with |- dec_members _ ?h _ = _ => set (h0 := h) end.
    assert (GPUCacheUsage h0 = f_zero) as Eg by reflexivity.
    rewrite (read_gpu h0 gpu _ Eg Hg). subst h0.
    cbn [ID BaseModel Adapter Runtime Addr Ready Inflight QueueDepth KVCacheUsage GPUCacheUsage TS].
    erewrite (dec_members_field heartbeat_fields); [|reflexivity|cbn beta; rewrite dec_int64_DInt by assumption; reflexivity].
    reflexivity.
  - unfold heartbeat_doc, omit_zero. destruct hb as [? ? [] ? ? ? ? ? kv gpu ?]; cbn [KVCacheUsage GPUCacheUsage];
      destruct (feqb kv f_zero), (feqb gpu f_zero); done.
Qed.
End HeartbeatDocument.

Section Visible.
Context {R : Type} `{RedisTTL R}.

Definition stores (e : wevent) : Prop :=
  match e with WKV n | WGPU n => in_u64 n | WInflight n | WQueue n => in_i64 n | WBeat _ => False | WReady _ => True end.

#[export] Instance in_i64_dec z : Decision (in_i64 z).
Proof. unfold in_i64. apply _. Defined.
#[export] Instance in_u64_dec z : Decision (in_u64 z).
Proof. unfold in_u64. apply _. Defined.
#[export] Instance stores_dec e : Decision (stores e).
Proof. destruct e; cbn; apply _. Defined.

Definition stores_or_beats (e : wevent) : Prop := match e with WBeat _ => True | _ => stores e end.

#[export] Instance stores_or_beats_dec e : Decision (stores_or_beats e).
Proof. destruct e; cbn; apply _. Defined.

(** The readiness last stored. *)
Definition last_ready (b : bool) (es : list wevent) : bool :=
  foldl (fun b e => match e with WReady x => x | _ => b end) b es.

(** The words a writer stores are machine words. *)
Definition words_ok (w : HeartbeatWriter) : Prop :=
  in_u64 (hw_kvUsage w) /\ in_u64 (hw_gpuUsage w) /\ in_i64 (hw_inflight w) /\ in_i64 (hw_queue w).

#[export] Instance words_ok_dec w : Decision (words_ok w).
Proof. unfold words_ok. apply _. Defined.

(** What a writer never changes, and the words it stores. *)
Record same_worker (w w' : HeartbeatWriter) : Prop := {
  sw_id : hw_id w' = hw_id w;
  sw_base : hw_baseModel w' = hw_baseModel w;
  sw_adapter : hw_adapter w' = hw_adapter w;
  sw_runtime : hw_runtime w' = hw_runtime w;
  sw_addr : hw_addr w' = hw_addr w;
  sw_ttl : hw_ttl w' = hw_ttl w;
  sw_words : words_ok w'
}.

Lemma Run_same w r es :
  Forall stores_or_beats es -> words_ok w ->
  same_worker w (Run (w, r) es).1 /\ hw_ready (Run (w, r) es).1 = last_ready (hw_ready w) es.
Proof.
  intros Hes Hw. induction es as [|e es IH] using rev_ind; [split; [by split|done]|].
  apply Forall_app in Hes as [Hes He]. apply list.Forall_cons in He as [He _]. destruct (IH Hes) as [[? ? ? ? ? ? (? & ? & ? & ?)] Hr].
  unfold Run, last_ready in *. rewrite !foldl_app. destruct (foldl wact (w, r) es) as [w1 r1]. cbn [foldl fst] in *.
  destruct e; cbn; (split; [split; done|done]).
Qed.

Lemma Run_quiet st es : Forall stores es -> (Run st es).2 = st.2.
Proof.
  intros Hes. revert st. induction Hes as [|e es He _ IH]; intros [w r]; [done|].
  unfold Run in *. cbn [foldl]. rewrite IH. by destruct e.
Qed.

Lemma applySet_after_beat w r t r' t' s :
  hw_id w <> "" -> utf8_heartbeat (snapshot w t) -> words_ok w -> in_i64 (UnixMilli t) ->
  0 < hw_ttl w -> (millisecond | hw_ttl w) -> BeatOnce w r t = (None, r') -> t <= t' ->
  applySet unmarshal (db_get (keys_at r' t')) s (hw_id w) !! hw_id w =
    if t' <? t + hw_ttl w then Some (snapshot w t) else None.
Proof.
  intros Hid Ha (Hk & Hg & Hi & Hq) Hts Ht Hd E Hle. unfold BeatOnce in E.
  destruct (marshal_ok (snapshot w t) Ha (bitsFloat_plain _ Hk) (bitsFloat_plain _ Hg) Hi Hq Hts) as (doc & Em & Eu). rewrite Em in E.
  unfold applySet, db_get. rewrite (Set_ok _ _ _ _ _ _ E Ht Hd t' Hle). destruct (t' <? t + hw_ttl w).
  - rewrite lookup_insert_eq, Eu. cbn [snapshot ID]. destruct (String.eqb_spec (hw_id w) ""); [done|].
    unfold Upsert. cbn [snapshot ID]. apply lookup_insert_eq.
  - rewrite lookup_delete_eq. unfold Remove. apply lookup_delete_eq.
Qed.
End Visible.

(** ** Properties *)

(** The usage a worker reports of its caches, which goes through an
    integer of millionths, is faithful: a fraction between zero and one is
    reported as one, idle as zero and full as one, and a higher usage is never
    reported as a lower one. *)
Theorem cache_usage_reported oob x y :
  frange 1 x -> frange 1 y ->
  let reported z := bitsFloat (floatBits oob z) in
  frange 1 (reported x) /\ reported f_zero = f_zero /\ reported f_one = f_one /\
  (fleb x y = true -> fleb (reported x) (reported y) = true).
Proof.
  cbn zeta. intros Hx Hy. destruct (floatBits_unit oob x Hx) as [Ex Bx]. destruct (floatBits_unit oob y Hy) as [Ey By].
  pose proof (bitsFloat_range 1 (floatBits oob x) ltac:(lia) ltac:(lia)) as Rx.
  pose proof (bitsFloat_range 1 (floatBits oob y) ltac:(lia) ltac:(lia)) as Ry.
  split; [done|]. split; [vm_compute; reflexivity|]. split; [vm_compute; reflexivity|].
  rewrite !fleb_fval by eauto with forge. intros Hle. unfold bitsFloat.
  assert (floatBits oob x <= floatBits oob y) as Hm.
  { rewrite Ex, Ey. apply Z.div_le_mono; [apply one_val_pos|]. destruct Hx as (Vx & Fx & Hx), Hy as (Vy & Fy & Hy).
    destruct million_range as (Vm & Fm & Hmr).
    rewrite (proj1 (fmul_spec x million Vx Vm Fx Fm)), (proj1 (fmul_spec y million Vy Vm Fy Fm)).
    apply rndQ_mono; [exact one_val_pos|]. nia. }
  apply fdiv_mono.
  - split; [apply f_of_Z_good|apply f_of_Z_finite; lia].
  - split; [apply f_of_Z_good|apply f_of_Z_finite; lia].
  - eapply frange_num, million_range.
  - rewrite million_fval. pose proof one_val_pos. lia.
  - rewrite !f_of_Z_exact by lia. pose proof one_val_pos. nia.
Qed.

(** The control plane sees a worker as it is while it beats, and stops
    seeing it when it does not: whatever a running writer has stored and
    written before, once a beat succeeds the health snapshot that reads the key
    has exactly the state the writer had at that beat, with the readiness last
    stored, until the time to live has passed; then, or after the worker has
    deleted its key, the snapshot drops it. *)
Theorem heartbeat_visible {R : Type} `{RedisTTL R} w r es t es' t' s :
  let st := Run (w, r) es in let st' := Run st (WBeat t :: es') in
  hw_id w <> "" -> utf8_heartbeat (snapshot w t) -> words_ok w -> in_i64 (UnixMilli t) ->
  0 < hw_ttl w -> (millisecond | hw_ttl w) ->
  Forall stores_or_beats es -> Forall stores es' -> (BeatOnce st.1 st.2 t).1 = None -> t <= t' ->
  let seen := applySet unmarshal (db_get (keys_at st'.2 t')) s (hw_id w) !! hw_id w in
  (if t' <? t + hw_ttl w then seen = Some (snapshot st.1 t) /\ Health.Ready (snapshot st.1 t) = last_ready (hw_ready w) es
   else seen = None) /\
  (forall r'' t'', Delete w st'.2 t' = (None, r'') -> t' <= t'' ->
     applySet unmarshal (db_get (keys_at r'' t'')) s (hw_id w) !! hw_id w = None).
Proof.
  cbn zeta. intros Hid Ha Hw Hts Ht Hd Hes Hes' Hb Hle.
  destruct (Run_same w r es Hes Hw) as [[Ei Eb Ead Er Eaddr Ettl Hw'] Hready].
  change (Run (Run (w, r) es) (WBeat t :: es')) with (Run (wact (Run (w, r) es) (WBeat t)) es').
  rewrite Run_quiet by done. destruct (Run (w, r) es) as [w1 r1]. cbn [fst snd wact] in *.
  destruct (BeatOnce w1 r1 t) as [e r2] eqn:E. cbn [fst snd] in *. subst e. split.
  - rewrite <- Ei, <- Ettl. rewrite (applySet_after_beat w1 r1 t r2 t' s); try done; try congruence.
    + destruct (t' <? _); done.
    + unfold utf8_heartbeat in *. cbn in *. by rewrite Ei, Eb, Ead, Er, Eaddr.
  - intros r'' t'' Ed Hle'. unfold Delete in Ed. unfold applySet, db_get. rewrite (Del_ok _ _ _ _ Ed t'' Hle'), lookup_delete_eq.
    unfold Remove. apply lookup_delete_eq.
Qed.

(** The end of the worker's main: on a signal the key is deleted, while the
    goroutine of [Run] may have a beat under way ([late], with its time), which
    Redis gets after the deletion. *)
Definition shutdown {R : Type} `{RedisTTL R} (w : HeartbeatWriter) (r : R) (t : Z) (late : option Z) : R :=
  let r := (Delete w r t).2 in
  match late with Some t' => (BeatOnce w r t').2 | None => r end.

(** Main does not wait for that goroutine: a beat under way brings the key of a
    worker that has shut down back, and the control plane shows it as it was
    until the time to live has passed. *)
Theorem late_beat_outlives_shutdown {R : Type} `{RedisTTL R} w r t late t' s :
  hw_id w <> "" -> utf8_heartbeat (snapshot w late) -> words_ok w -> in_i64 (UnixMilli late) -> 0 < hw_ttl w -> (millisecond | hw_ttl w) ->
  (Delete w r t).1 = None -> (BeatOnce w (Delete w r t).2 late).1 = None -> late <= t' < late + hw_ttl w -> t <= t' ->
  applySet unmarshal (db_get (keys_at (shutdown w r t (Some late)) t')) s (hw_id w) !! hw_id w = Some (snapshot w late) /\
  applySet unmarshal (db_get (keys_at (shutdown w r t None) t')) s (hw_id w) !! hw_id w = None.
Proof.
  intros Hid Hu Hw Hts Ht Hd Ed Eb Hl Hle. unfold shutdown. destruct (Delete w r t) as [e r1] eqn:E1. cbn [fst snd] in *. subst e.
  destruct (BeatOnce w r1 late) as [e r2] eqn:E2. cbn [fst snd] in *. subst e. split.
  - rewrite (applySet_after_beat w r1 late r2 t' s) by (done || lia). by rewrite (proj2 (Z.ltb_lt _ _)) by lia.
  - unfold Delete in E1. unfold applySet, db_get. rewrite (Del_ok _ _ _ _ E1 t' Hle), lookup_delete_eq. unfold Remove. apply lookup_delete_eq.
Qed.

(** *** Witnesses *)

(** Redis as a map from keys to values and the time they expire. *)
Abbreviation timed := (gmap string (string * Z)).

Definition live_keys (r : timed) (t : Z) : gmap string string :=
  omap (fun ve => if t <? ve.2 then Some ve.1 else None) r.

#[export] Instance timed_redis : RedisTTL timed.
Proof.
  refine {| keys_at := live_keys; redis_Set r t k v ttl := (None, <[k := (v, t + ttl)]> r);
            redis_Del r t k := (None, delete k r) |}.
  - intros r t k v ttl r' [= <-] Ht _ t' Hle. unfold live_keys. destruct (t' <? t + ttl) eqn:E.
    + apply omap_insert_Some. cbn. by rewrite E.
    + rewrite omap_insert_None by (cbn; by rewrite E). done.
  - intros r t k r' [= <-] t' Hle. unfold live_keys. apply omap_delete.
Defined.

Definition beating : HeartbeatWriter :=
  NewHeartbeatWriter (mkWriterConfig "local-qwen-1" "qwen" None "ollama" "127.0.0.1:50101" 0 0 false).

Definition day : list wevent := [WBeat 0; WReady true; WInflight 3; WQueue 1].

Lemma heartbeat_visible_witness :
  exists hb, applySet unmarshal
    (db_get (keys_at (@Run timed timed_redis (@Run timed timed_redis (beating, ∅) day)
      [WBeat (2 * second); WReady false]).2 (7 * second))) ∅ "local-qwen-1" !! "local-qwen-1" = Some hb /\
    Ready hb = true /\ Inflight hb = 3.
Proof.
  destruct (@heartbeat_visible timed timed_redis beating ∅ day (2 * second) [WReady false] (7 * second) ∅)
    as [[Hs Hr] _].
  - discriminate.
  - apply (bool_decide_unpack _). vm_compute. exact I.
  - apply (bool_decide_unpack _). vm_compute. exact I.
  - apply (bool_decide_unpack _). vm_compute. exact I.
  - reflexivity.
  - exists 6000. reflexivity.
  - apply (bool_decide_unpack _). vm_compute. exact I.
  - apply (bool_decide_unpack _). vm_compute. exact I.
  - vm_compute. reflexivity.
  - vm_compute. discriminate.
  - eexists. split; [exact Hs|]. split; [exact Hr|reflexivity].
Defined.

Lemma late_beat_outlives_shutdown_witness :
  applySet unmarshal (db_get (keys_at (@shutdown timed timed_redis beating ∅ second (Some second)) (2 * second))) ∅ (hw_id beating)
    !! hw_id beating = Some (snapshot beating second).
Proof.
  destruct (@late_beat_outlives_shutdown timed timed_redis beating ∅ second second (2 * second) ∅) as [Hs _].
  - discriminate.
  - apply (bool_decide_unpack _). vm_compute. exact I.
  - apply (bool_decide_unpack _). vm_compute. exact I.
  - apply (bool_decide_unpack _). vm_compute. exact I.
  - reflexivity.
  - exists 6000. reflexivity.
  - reflexivity.
  - vm_compute. reflexivity.
  - vm_compute. split; [discriminate|reflexivity].
  - vm_compute. discriminate.
  - exact Hs.
Defined.

Lemma cache_usage_reported_witness :
  fleb (bitsFloat (floatBits (fun _ => 0) (flit 1 3))) (bitsFloat (floatBits (fun _ => 0) (flit 1 2))) = true.
Proof.
  apply (cache_usage_reported (fun _ => 0) (flit 1 3) (flit 1 2)).
  - apply (bool_decide_unpack _). vm_compute. exact I.
  - apply (bool_decide_unpack _). vm_compute. exact I.
  - vm_compute. reflexivity.
Defined.
