(* ===== verification/Routing.v ===== *)
(** * Routing snapshots (services/routing)

    The routing snapshot (snapshot.go), the reading of worker capabilities
    (capabilities.go), the publisher that joins the registry with the health
    snapshot (publisher.go), the subscriber (subscriber.go) and the routing
    policy (policy.go).  The atomic holders are those of Holder.v; the clock and the
    replies of Redis are inputs. *)

From Stdlib Require Import Ascii.
From S2P Require Import Prelude Float64 GoStrings Json JsonDecode Strconv JsonMaps Errors Holder Health.

(** ** Snapshots *)

Record WorkerView := mkView {
  v_ID : string;
  v_Endpoint : string;
  v_BaseModel : string;
  v_Adapter : string;
  v_Healthy : bool;
  v_Ready : bool;
  v_QueueDepth : Z;
  v_InFlight : Z;
  v_MaxContext : Z;
  v_CostPerHour : float64;
  v_CostClass : string;
  v_Runtime : string;
  v_VRAMGB : float64;
  v_GPU : string;
  v_Capabilities : gmap string string
}.

Record RoutingSnapshot := mkSnap {
  BuiltAt : Z;
  Epoch : Z;
  Workers : list WorkerView
}.

(** [base#adapter], or the base alone. *)
Definition ModelID (w : WorkerView) : string :=
  if String.eqb (v_Adapter w) "" then v_BaseModel w
  else v_BaseModel w ++ "#" ++ v_Adapter w.

(** ** Capabilities *)

(** [strconv.ParseUint(s, 10, 32)], with [None] for an error. *)
Fixpoint parse_digits (acc : Z) (s : string) : option Z :=
  match s with
  | "" => Some acc
  | String a s' =>
      let d := Z.of_N (N_of_ascii a) - 48 in
      if (0 <=? d) && (d <=? 9) then parse_digits (10 * acc + d) s' else None
  end.

Definition ParseUint32 (s : string) : option Z :=
  if String.eqb s "" then None
  else match parse_digits 0 s with
       | Some n => if n <? two32 then Some n else None
       | None => None
       end.

Record CostHint := mkCost { PerHourUSD : float64; Class_ : string }.

Record CapabilityView := mkCaps {
  c_Runtime : string;
  c_MaxContext : Z;
  c_VRAMGB : float64;
  c_GPU : string;
  c_Cost : CostHint;
  c_Raw : gmap string string
}.

(** [json.Unmarshal] into a fresh [map[string]string]. *)
Definition unmarshal_map (s : string) : option (gmap string string) :=
  unmarshal_into ∅ (dec_map_of "" dec_string) s.

(** [m[k]] on a map of strings. *)
Definition at_key (m : gmap string string) (k : string) : string := default "" (m !! k).

Section Capabilities.
Context `{UnicodeTables}.

Definition normalizeRuntime (kind : string) : string :=
  let k := ToUpper kind in
  if Contains k "VLLM" then "vllm"
  else if Contains k "OLLAMA" then "ollama"
  else if Contains k "MLX" then "mlx"
  else if Contains k "LLAMACPP" then "llamacpp"
  else if Contains k "FORGE" then "forge"
  else ToLower kind.

(** [if v != "" { if f, err := ParseFloat(v); err == nil { out = f } }] *)
Definition float_at (m : gmap string string) (k : string) : float64 :=
  let v := at_key m k in
  if String.eqb v "" then f_zero else default f_zero (ParseFloat v).

Definition ParseCapabilities (raw runtimeKind : string) : CapabilityView :=
  let out := mkCaps (normalizeRuntime runtimeKind) 0 f_zero "" (mkCost f_zero "") ∅ in
  if String.eqb raw "" then out
  else match unmarshal_map raw with
       | None => out
       | Some m =>
           let runtime := at_key m "runtime" in
           let maxlen := at_key m "max_model_len" in
           let cost := float_at m "cost_per_hour" in
           let class := at_key m "cost_class" in
           mkCaps
             (if String.eqb runtime "" then c_Runtime out else ToLower runtime)
             (if String.eqb maxlen "" then 0 else default 0 (ParseUint32 maxlen))
             (float_at m "vram_gb")
             (at_key m "gpu")
             (mkCost cost
                (if negb (String.eqb class "") then ToLower class
                 else if fleb cost f_zero then "free" else "paid"))
             m
       end.

(** ** The publisher *)

Record ServableModel := mkModel { m_BaseModel : string; m_Adapter : string; m_MaxContext : Z }.

(** A row of the registry with its models. *)
Record RegWorker := mkReg {
  r_ID : string;
  r_Endpoint : string;
  r_RuntimeKind : string;
  r_Capabilities : string;
  r_Models : list ServableModel
}.

(** [hbByID], filled by ranging over [Snapshot().All()]. *)
Definition heartbeats (all : list Heartbeat) : gmap string Heartbeat :=
  foldl (fun m hb => <[ID hb := hb]> m) ∅ all.

(** The views of one worker. *)
Definition worker_views (hbByID : gmap string Heartbeat) (w : RegWorker) : list WorkerView :=
  let hb := hbByID !! r_ID w in
  let live := match hb with Some _ => true | None => false end in
  let queue := match hb with Some h => QueueDepth h | None => 0 end in
  let inflight := match hb with Some h => Inflight h | None => 0 end in
  let ready := match hb with Some h => Ready h | None => false end in
  let endpoint :=
    match hb with
    | Some h => if negb (String.eqb (Addr h) "") then Addr h else r_Endpoint w
    | None => r_Endpoint w
    end in
  let caps := ParseCapabilities (r_Capabilities w) (r_RuntimeKind w) in
  let mk base adapter ctx :=
    mkView (r_ID w) endpoint base adapter live ready queue inflight ctx
      (PerHourUSD (c_Cost caps)) (Class_ (c_Cost caps)) (c_Runtime caps)
      (c_VRAMGB caps) (c_GPU caps) (c_Raw caps) in
  match r_Models w with
  | [] => [mk "" "" (c_MaxContext caps)]
  | ms =>
      (fun m => mk (m_BaseModel m) (m_Adapter m)
                  (if m_MaxContext m =? 0 then c_MaxContext caps else m_MaxContext m)) <$> ms
  end.

(** [buildSnapshot]: [workers] is the answer of [repo.List], [all] that of the
    health snapshot (empty without a health service), [virtual] the views of
    the virtual source; the epoch counter is the publisher's own state. *)
Definition buildSnapshot (epoch now : Z) (workers : result error (list RegWorker))
    (all : list Heartbeat) (virtual : list WorkerView) : result error RoutingSnapshot * Z :=
  match workers with
  | Err e => (Err e, epoch)
  | Ok ws =>
      let hbByID := heartbeats all in
      let views := (concat (worker_views hbByID <$> ws) ++ virtual)%list in
      let epoch := wrap_u64 (epoch + 1) in
      (Ok (mkSnap now epoch views), epoch)
  end.
End Capabilities.

(** [tick]: publish, then store.  [publish] is the first error of
    json.Marshal and of Redis (SnapshotWire.v has the two apart); nothing is
    stored when there is one.  The holder keeps the pointers apart by the
    index [i] of the tick. *)
Definition tick (holder : option (nat * RoutingSnapshot)) (i : nat)
    (built : result error RoutingSnapshot) (publish : option error)
    : option error * option (nat * RoutingSnapshot) :=
  match built with
  | Err e => (Some e, holder)
  | Ok snap =>
      match publish with
      | Some e => (Some e, holder)
      | None => (None, (StoreIfNewer Epoch holder i (Some snap)).2)
      end
  end.

(** One message of [RunSubscriber]: [snap] is the decoded payload. *)
Definition onMessage (holder : option (nat * RoutingSnapshot)) (i : nat)
    (snap : option RoutingSnapshot) : option (nat * RoutingSnapshot) :=
  match snap with
  | None => holder
  | Some s => (StoreIfNewer Epoch holder i (Some s)).2
  end.

(** ** The routing policy *)

Record RoutingPolicy := mkPolicy {
  p_Version : Z;
  p_WeightLoad : float64;
  p_WeightLatency : float64;
  p_WeightCost : float64;
  p_WeightAffinity : float64;
  p_WorkerWeights : gmap string (gmap string float64)
}.

(** The document [parsePolicyJSON] decodes into. *)
Record policy_wire := mkWire {
  wire_version : Z;
  wire_load : float64;
  wire_latency : float64;
  wire_cost : float64;
  wire_affinity : float64;
  wire_models : gmap string (gmap string float64)
}.

Definition parsePolicyJSON (wire : option policy_wire) : option RoutingPolicy :=
  match wire with
  | None => None
  | Some w =>
      Some (mkPolicy (wire_version w) (wire_load w) (wire_latency w) (wire_cost w)
              (wire_affinity w) (wire_models w))
  end.

(** One round of [RunPolicySubscriber]: the reply to GET of the policy key,
    decoded; errors leave the holder alone. *)
Definition reloadPolicy (holder : option (nat * RoutingPolicy)) (i : nat)
    (reply : result error (option policy_wire)) : option (nat * RoutingPolicy) :=
  match reply with
  | Err _ => holder
  | Ok raw =>
      match parsePolicyJSON raw with
      | None => holder
      | Some p => (StoreIfNewer p_Version holder i (Some p)).2
      end
  end.

(** ** Lemmas *)

(** Heartbeats are filed under their own id, as every update of the health
    snapshot does. *)
Definition keyed (s : Snapshot) : Prop := map_Forall (fun id hb => ID hb = id) s.

Lemma keyed_insert s hb : keyed s -> keyed (<[ID hb := hb]> s).
Proof. intros. by apply map_Forall_insert_2. Qed.

Lemma keyed_reconcileKeys unmarshal rget live keys live' :
  keyed live -> reconcileKeys unmarshal rget live keys = Returns (Ok live') -> keyed live'.
Proof.
  revert live. induction keys as [|k keys IH]; intros live Hl; cbn; [by intros [= <-]|].
  destruct (reconcileKey unmarshal rget live k) as [[live1|]|] eqn:E; [|done|done].
  apply IH. revert E. unfold reconcileKey. destruct (rget k); [|by intros [= <-]|done].
  destruct (unmarshal v) as [hb|]; [|by intros [= <-]].
  destruct (String.eqb (ID hb) "").
  - destruct (WorkerIDFromKey k) as [[id|]|]; [|by intros [= <-]|done].
    intros [= <-]. by apply (keyed_insert live (set_ID hb id)).
  - intros [= <-]. by apply keyed_insert.
Qed.

Lemma keyed_reconcileScan unmarshal scan rget fuel cursor live live' :
  keyed live -> reconcileScan unmarshal scan rget fuel cursor live = Some (Returns (Ok live')) -> keyed live'.
Proof.
  revert cursor live. induction fuel as [|fuel IH]; intros cursor live Hl; cbn; [done|].
  destruct (scan cursor) as [[keys next]|]; [|done].
  destruct (reconcileKeys unmarshal rget live keys) as [[live1|]|] eqn:E; [|done|done].
  pose proof (keyed_reconcileKeys _ _ _ _ _ Hl E). case_if; [by intros [= <-]|by apply IH].
Qed.

Lemma keyed_handleEvent unmarshal rget s ch k s' :
  keyed s -> handleEvent unmarshal rget s ch k = Returns s' -> keyed s'.
Proof.
  intros Hs. unfold handleEvent, applySet. destruct (WorkerIDFromKey k) as [[id|]|]; [|by intros [= <-]|done].
  destruct (HasSuffix ch ":expired" || HasSuffix ch ":del"); [intros [= <-]; by apply map_Forall_delete|].
  destruct (HasSuffix ch ":set"); intros [= <-]; [|done].
  destruct (rget (Key id)); [|by apply map_Forall_delete|done].
  destruct (unmarshal v) as [hb|]; [|done]. by apply keyed_insert.
Qed.

Lemma heartbeats_lookup l (m0 : Snapshot) id :
  NoDup (ID <$> l) ->
  foldl (fun m hb => <[ID hb := hb]> m) m0 l !! id =
    match list_find (fun hb => ID hb = id) l with Some (_, hb) => Some hb | None => m0 !! id end.
Proof.
  revert m0. induction l as [|hb l IH]; intros m0 Hd; [done|]. cbn [fmap list_fmap] in Hd.
  inversion Hd as [|? ? Hn Hd']; subst. cbn [foldl list_find]. rewrite IH by done.
  case_decide as D.
  - assert (list_find (fun hb => ID hb = id) l = None) as ->.
    { apply list_find_None, Forall_forall. intros x Hx%list_elem_of_In Ex. apply Hn.
      apply list_elem_of_fmap. exists x. split; [congruence|done]. }
    subst. by rewrite lookup_insert_eq.
  - rewrite lookup_insert_ne by done. destruct (list_find _ l) as [[? ?]|]; done.
Qed.

(** Ranging over the snapshot in any order rebuilds it. *)
Lemma heartbeats_spec s l : keyed s -> l ≡ₚ All s -> heartbeats l = s.
Proof.
  intros Hs Hl. assert (NoDup (ID <$> l)) as Hd.
  { rewrite Hl. unfold All. rewrite <- list_fmap_compose.
    rewrite (list_fmap_ext (ID ∘ snd) fst (map_to_list s)); [apply NoDup_fst_map_to_list|].
    intros i [id hb] E. cbn. apply Hs. apply elem_of_map_to_list. by eapply list_elem_of_lookup_2. }
  apply map_eq. intros id. unfold heartbeats. rewrite heartbeats_lookup by done.
  assert (forall hb, hb ∈ l <-> s !! ID hb = Some hb) as Hin.
  { intros hb. rewrite Hl. unfold All. rewrite list_elem_of_fmap. split.
    - intros ([id' hb'] & -> & E%elem_of_map_to_list). cbn. pose proof (Hs _ _ E) as <-. done.
    - intros E. exists (ID hb, hb). split; [done|]. by apply elem_of_map_to_list. }
  destruct (list_find (fun hb => ID hb = id) l) as [[i hb]|] eqn:E.
  - apply list_find_Some in E as (E & <- & _). symmetry. apply Hin. by eapply list_elem_of_lookup_2.
  - rewrite lookup_empty. symmetry. destruct (s !! id) as [hb|] eqn:Es; [|done].
    pose proof (Hs _ _ Es) as Hid. cbn in Hid. exfalso.
    apply list_find_None in E. rewrite Forall_lookup in E.
    assert (hb ∈ l) as [i Hi]%list_elem_of_lookup by (apply Hin; congruence).
    exact (E i hb Hi Hid).
Qed.

(** A worker is live, and ready, in a health snapshot. *)
Definition live_in (s : Snapshot) (id : string) : bool :=
  match s !! id with Some _ => true | None => false end.

Definition ready_in (s : Snapshot) (id : string) : bool :=
  match s !! id with Some hb => Ready hb | None => false end.

Lemma worker_views_spec `{UnicodeTables} s w v :
  v ∈ worker_views s w ->
  v_ID v = r_ID w /\ v_Healthy v = live_in s (r_ID w) /\ v_Ready v = ready_in s (r_ID w).
Proof.
  unfold worker_views, live_in, ready_in. destruct (r_Models w) as [|m ms].
  - intros ->%list_elem_of_singleton. done.
  - intros (m' & -> & _)%list_elem_of_fmap. done.
Qed.

Lemma worker_views_models `{UnicodeTables} s w :
  r_Models w <> [] ->
  (fun v => (v_BaseModel v, v_Adapter v)) <$> worker_views s w =
  (fun m => (m_BaseModel m, m_Adapter m)) <$> r_Models w.
Proof.
  intros Hm. unfold worker_views. destruct (r_Models w) as [|m ms]; [done|].
  by rewrite <- list_fmap_compose.
Qed.

(** The publisher alone with its holder: the state after a series of ticks,
    each with the answers of the registry, the health snapshot, the virtual
    source and Redis. *)
Record tick_input := mkTick {
  ti_now : Z;
  ti_workers : result error (list RegWorker);
  ti_all : list Heartbeat;
  ti_virtual : list WorkerView;
  ti_publish : option error
}.

Section Publisher.
Context `{UnicodeTables}.

Definition pub_state : Type := Z * nat * option (nat * RoutingSnapshot).

Definition pub_tick (st : pub_state) (t : tick_input) : pub_state :=
  let '(epoch, i, h) := st in
  let '(built, epoch) := buildSnapshot epoch (ti_now t) (ti_workers t) (ti_all t) (ti_virtual t) in
  (epoch, S i, (tick h i built (ti_publish t)).2).

Definition pub_run (ts : list tick_input) : pub_state := foldl pub_tick (0, 0%nat, None) ts.

Definition tick_ok (t : tick_input) : bool :=
  match ti_workers t, ti_publish t with Ok _, None => true | _, _ => false end.

(** The views a successful tick publishes. *)
Definition tick_views (t : tick_input) : list WorkerView :=
  match ti_workers t with
  | Ok ws => (concat (worker_views (heartbeats (ti_all t)) <$> ws) ++ ti_virtual t)%list
  | Err _ => []
  end.

Lemma pub_tick_ok epoch i h t :
  0 <= epoch < two64 - 1 -> match h with None => True | Some (_, s) => Epoch s <= epoch end ->
  exists epoch' h', pub_tick (epoch, i, h) t = (epoch', S i, h') /\ epoch <= epoch' <= epoch + 1 /\
    match h' with None => True | Some (_, s) => Epoch s <= epoch' end /\
    (if tick_ok t then exists s, h' = Some (i, s) /\ Workers s = tick_views t else h' = h).
Proof.
  intros He Hh. unfold pub_tick, buildSnapshot, tick_ok, tick_views.
  destruct (ti_workers t) as [ws|e]; [|eexists _, _; split; [done|]; split; [lia|]; by split].
  rewrite wrap_u64_id by (unfold in_u64; lia).
  destruct (ti_publish t) as [e|]; cbn.
  - eexists _, _; split; [done|]. split; [lia|]. split; [|done]. destruct h as [[]|]; [lia|done].
  - destruct h as [[j s0]|]; cbn.
    + destruct (Z.leb_spec (epoch + 1) (Epoch s0)); [lia|]. cbn.
      eexists _, _; split; [done|]. split; [lia|]. split; [cbn; lia|]. eexists. by split.
    + eexists _, _; split; [done|]. split; [lia|]. split; [cbn; lia|]. eexists. by split.
Qed.

Lemma pub_run_snoc ts t : pub_run (ts ++ [t])%list = pub_tick (pub_run ts) t.
Proof. unfold pub_run. by rewrite foldl_app. Qed.

Lemma pub_run_inv ts :
  Z.of_nat (length ts) < two64 ->
  exists epoch h, pub_run ts = (epoch, length ts, h) /\ 0 <= epoch <= Z.of_nat (length ts) /\
    match h with None => True | Some (_, s) => Epoch s <= epoch end /\
    match list.last (List.filter tick_ok ts) with
    | None => h = None
    | Some t => exists i s, h = Some (i, s) /\ Workers s = tick_views t
    end.
Proof.
  induction ts as [|t ts IH] using rev_ind; intros Hl.
  - exists 0, None. by split_and!.
  - rewrite length_app in *. cbn [length] in *. destruct IH as (epoch & h & E & He & Hh & Hlast); [lia|].
    rewrite pub_run_snoc, E.
    destruct (pub_tick_ok epoch (length ts) h t) as (e' & h' & E' & He' & Hh' & Ho); [lia|done|].
    exists e', h'. rewrite E'. split; [f_equal; f_equal; lia|]. split; [lia|]. split; [done|].
    rewrite List.filter_app. cbn [List.filter]. destruct (tick_ok t).
    + rewrite last_snoc. destruct Ho as (s & -> & Hs). eauto.
    + rewrite app_nil_r. by subst.
Qed.
End Publisher.

(** ** Properties *)

(** A built snapshot shows every registered worker as the health snapshot
    has it, whatever order the map is ranged over in: its views are marked
    healthy exactly when a heartbeat is live and ready exactly when that
    heartbeat says so, hence never ready without being healthy; there is one
    view per model of the worker, and one without a model when it has none. *)
Theorem snapshot_reflects_health `{UnicodeTables} s all epoch now ws snap epoch' :
  keyed s -> all ≡ₚ All s ->
  buildSnapshot epoch now (Ok ws) all [] = (Ok snap, epoch') ->
  (forall v, v ∈ Workers snap -> exists w, w ∈ ws /\ v_ID v = r_ID w /\
     v_Healthy v = live_in s (r_ID w) /\ v_Ready v = ready_in s (r_ID w) /\
     (v_Ready v = true -> v_Healthy v = true)) /\
  (forall w, w ∈ ws -> exists vs, vs `sublist_of` Workers snap /\
     Forall (fun v => v_ID v = r_ID w) vs /\
     (r_Models w <> [] -> (fun v => (v_BaseModel v, v_Adapter v)) <$> vs =
                          (fun m => (m_BaseModel m, m_Adapter m)) <$> r_Models w) /\
     (r_Models w = [] -> length vs = 1%nat)).
Proof.
  intros Hs Hp. unfold buildSnapshot. rewrite (heartbeats_spec s all Hs Hp), app_nil_r.
  intros [= <- _]. cbn [Workers]. split.
  - intros v (w & Hw & Hv)%list_elem_of_In%in_concat. apply list_elem_of_In in Hw, Hv.
    apply list_elem_of_fmap in Hw as (w0 & -> & Hw0). exists w0.
    destruct (worker_views_spec s w0 v Hv) as (-> & -> & ->). split_and!; try done.
    unfold ready_in, live_in. by destruct (s !! r_ID w0).
  - intros w Hw. exists (worker_views s w). split_and!.
    + apply list_elem_of_split in Hw as (l1 & l2 & ->). rewrite fmap_app, concat_app. cbn.
      apply sublist_inserts_l, sublist_inserts_r. done.
    + apply Forall_forall. intros v Hv%list_elem_of_In. by destruct (worker_views_spec s w v Hv).
    + apply worker_views_models.
    + intros E. unfold worker_views. by rewrite E.
Qed.

Definition demo_reg : RegWorker := mkReg "w1" "10.0.0.1:1" "RUNTIME_KIND_VLLM" "" [mkModel "m" "" 0; mkModel "m" "a" 0].

Definition demo_hb : Heartbeat := mkHeartbeat "w1" "m" None "vllm" "10.0.0.2:1" true 0 2 f_zero f_zero 0.

Definition demo_view : WorkerView :=
  mkView "w1" "10.0.0.2:1" "m" "" true true 2 0 0 f_zero "" "vllm" f_zero "" ∅.

Definition demo_snapshot : RoutingSnapshot :=
  mkSnap 0 1
    [demo_view; mkView "w1" "10.0.0.2:1" "m" "a" true true 2 0 0 f_zero "" "vllm" f_zero "" ∅].

Lemma snapshot_reflects_health_witness :
  exists w, w ∈ [demo_reg] /\ v_ID demo_view = r_ID w /\
     v_Healthy demo_view = live_in {["w1" := demo_hb]} (r_ID w) /\
     v_Ready demo_view = ready_in {["w1" := demo_hb]} (r_ID w) /\
     (v_Ready demo_view = true -> v_Healthy demo_view = true).
Proof.
  apply (@snapshot_reflects_health ascii_tables {["w1" := demo_hb]} [demo_hb]
           0 0 [demo_reg] demo_snapshot 1).
  - by apply map_Forall_singleton.
  - by unfold All; rewrite map_to_list_singleton.
  - vm_compute. reflexivity.
  - by apply elem_of_cons; left.
Defined.

(** A publisher that starts with an empty holder of its own and ticks
    fewer than 2^64 times keeps in the holder exactly the views of its last
    successful tick: failed ticks (registry or Redis errors) leave the
    previous snapshot in place and no successful one is refused. *)
Theorem publisher_holds_last_success `{UnicodeTables} ts :
  Z.of_nat (length ts) < two64 ->
  Workers <$> Load (pub_run ts).2 = tick_views <$> list.last (List.filter tick_ok ts).
Proof.
  intros Hl. destruct (pub_run_inv ts Hl) as (epoch & h & -> & _ & _ & Hlast). cbn [snd].
  destruct (list.last (List.filter tick_ok ts)); [|by subst].
  destruct Hlast as (i & s & -> & Hs). cbn. by rewrite Hs.
Qed.

Lemma publisher_holds_last_success_witness :
  let ts := [mkTick 0 (Ok [demo_reg]) [demo_hb] [] None; mkTick 1 (Err ErrEOF) [] [] None] in
  Workers <$> Load (@pub_run ascii_tables ts).2 = Some (Workers demo_snapshot).
Proof.
  intros ts. rewrite (@publisher_holds_last_success ascii_tables ts) by reflexivity.
  vm_compute. reflexivity.
Defined.

(** A holder that has the snapshot of epoch [E] of one publisher ignores
    every message of a publisher that counts from the start again (a
    restarted control plane, or a second replica) until that publisher has
    sent more than [E]: after its first [k <= E] snapshots the holder still
    serves the old one. *)
Theorem restarted_publisher_ignored (old : RoutingSnapshot) (i0 : nat) (fresh : list RoutingSnapshot) :
  (forall k s, fresh !! k = Some s -> Epoch s = Z.of_nat k + 1) ->
  Z.of_nat (length fresh) <= Epoch old ->
  foldl (fun h s => onMessage h 0 (Some s)) (Some (i0, old)) fresh = Some (i0, old).
Proof.
  intros He Hl. assert (Forall (fun s => Epoch s <= Epoch old) fresh) as Hall.
  { apply Forall_lookup. intros k s E. rewrite (He k s E). apply lookup_lt_Some in E. lia. }
  clear He Hl. induction Hall as [|s l Hs Hl IH]; [done|]. cbn.
  destruct (Z.leb_spec (Epoch s) (Epoch old)); [exact IH|lia].
Qed.

Lemma restarted_publisher_ignored_witness :
  foldl (fun h s => onMessage h 0 (Some s)) (Some (3%nat, mkSnap 0 2 []))
    [mkSnap 5 1 [mkView "w1" "a" "m" "" true true 0 0 0 f_zero "" "" f_zero "" ∅]; mkSnap 6 2 []]
  = Some (3%nat, mkSnap 0 2 []).
Proof.
  apply restarted_publisher_ignored; [|done].
  intros [|[|k]] s E; cbn in E; by simplify_eq.
Defined.
