(* ===== verification/SnapshotWire.v ===== *)
(** * Snapshots between control planes (routing: publisher.go, subscriber.go)

    A tick of the publisher marshals the snapshot it built, publishes it on a
    Redis channel and offers it to the holder of its own process; the
    subscriber of every process decodes what the channel delivers and offers
    that.  The file has the JSON of a snapshot and the system of the control
    planes, whose steps interleave freely: publishing and storing are two
    steps, a subscription starts at some time and may lose messages. *)

From S2P Require Import Prelude Float64 Rounding FloatRange GoStrings GoFormat Json JsonDecode Strconv JsonFloat JsonMaps JsonTime Errors Holder Health Routing.

Definition Channel : string := "forge:routing:snapshot".

(** ** The document *)

Section Documents.

Definition view_doc (v : WorkerView) : doc :=
  DObj ([("ID", DStr (v_ID v)); ("Endpoint", DStr (v_Endpoint v)); ("BaseModel", DStr (v_BaseModel v));
         ("Adapter", DStr (v_Adapter v)); ("Healthy", DBool (v_Healthy v)); ("Ready", DBool (v_Ready v));
         ("QueueDepth", DInt (v_QueueDepth v)); ("InFlight", DInt (v_InFlight v))] ++
        omit (v_MaxContext v =? 0) "MaxContext" (DInt (v_MaxContext v)) ++
        omit (feqb (v_CostPerHour v) f_zero) "CostPerHour" (number_doc (v_CostPerHour v)) ++
        omit (String.eqb (v_CostClass v) "") "CostClass" (DStr (v_CostClass v)) ++
        omit (String.eqb (v_Runtime v) "") "Runtime" (DStr (v_Runtime v)) ++
        omit (feqb (v_VRAMGB v) f_zero) "VRAMGB" (number_doc (v_VRAMGB v)) ++
        omit (String.eqb (v_GPU v) "") "GPU" (DStr (v_GPU v)) ++
        omit (bool_decide (v_Capabilities v = ∅)) "Capabilities" (DObj (map_members DStr (v_Capabilities v))) ++ []).

Definition snapshot_doc (s : RoutingSnapshot) : doc :=
  DObj [("BuiltAt", time_doc (BuiltAt s)); ("Epoch", DInt (Epoch s)); ("Workers", DArr (view_doc <$> Workers s))].

Definition view_marshals (v : WorkerView) : bool := json_number (v_CostPerHour v) && json_number (v_VRAMGB v).

(** [json.Marshal]: a number that is not finite, or a year JSON cannot write,
    is an error. *)
Definition marshal_snapshot (s : RoutingSnapshot) : result error string :=
  if time_writable (BuiltAt s) && forallb view_marshals (Workers s) then Ok (print (snapshot_doc s))
  else Err (ENew "json: unsupported value").
End Documents.

Definition zero_view : WorkerView := mkView "" "" "" "" false false 0 0 0 f_zero "" "" f_zero "" ∅.

Definition view_fields : fields WorkerView :=
  [("ID", fun v d => x ← dec_string (v_ID v) d; Some (mkView x (v_Endpoint v) (v_BaseModel v) (v_Adapter v) (v_Healthy v) (v_Ready v)
      (v_QueueDepth v) (v_InFlight v) (v_MaxContext v) (v_CostPerHour v) (v_CostClass v) (v_Runtime v) (v_VRAMGB v) (v_GPU v) (v_Capabilities v)));
   ("Endpoint", fun v d => x ← dec_string (v_Endpoint v) d; Some (mkView (v_ID v) x (v_BaseModel v) (v_Adapter v) (v_Healthy v) (v_Ready v)
      (v_QueueDepth v) (v_InFlight v) (v_MaxContext v) (v_CostPerHour v) (v_CostClass v) (v_Runtime v) (v_VRAMGB v) (v_GPU v) (v_Capabilities v)));
   ("BaseModel", fun v d => x ← dec_string (v_BaseModel v) d; Some (mkView (v_ID v) (v_Endpoint v) x (v_Adapter v) (v_Healthy v) (v_Ready v)
      (v_QueueDepth v) (v_InFlight v) (v_MaxContext v) (v_CostPerHour v) (v_CostClass v) (v_Runtime v) (v_VRAMGB v) (v_GPU v) (v_Capabilities v)));
   ("Adapter", fun v d => x ← dec_string (v_Adapter v) d; Some (mkView (v_ID v) (v_Endpoint v) (v_BaseModel v) x (v_Healthy v) (v_Ready v)
      (v_QueueDepth v) (v_InFlight v) (v_MaxContext v) (v_CostPerHour v) (v_CostClass v) (v_Runtime v) (v_VRAMGB v) (v_GPU v) (v_Capabilities v)));
   ("Healthy", fun v d => x ← dec_bool (v_Healthy v) d; Some (mkView (v_ID v) (v_Endpoint v) (v_BaseModel v) (v_Adapter v) x (v_Ready v)
      (v_QueueDepth v) (v_InFlight v) (v_MaxContext v) (v_CostPerHour v) (v_CostClass v) (v_Runtime v) (v_VRAMGB v) (v_GPU v) (v_Capabilities v)));
   ("Ready", fun v d => x ← dec_bool (v_Ready v) d; Some (mkView (v_ID v) (v_Endpoint v) (v_BaseModel v) (v_Adapter v) (v_Healthy v) x
      (v_QueueDepth v) (v_InFlight v) (v_MaxContext v) (v_CostPerHour v) (v_CostClass v) (v_Runtime v) (v_VRAMGB v) (v_GPU v) (v_Capabilities v)));
   ("QueueDepth", fun v d => x ← dec_int64 (v_QueueDepth v) d; Some (mkView (v_ID v) (v_Endpoint v) (v_BaseModel v) (v_Adapter v) (v_Healthy v) (v_Ready v)
      x (v_InFlight v) (v_MaxContext v) (v_CostPerHour v) (v_CostClass v) (v_Runtime v) (v_VRAMGB v) (v_GPU v) (v_Capabilities v)));
   ("InFlight", fun v d => x ← dec_int64 (v_InFlight v) d; Some (mkView (v_ID v) (v_Endpoint v) (v_BaseModel v) (v_Adapter v) (v_Healthy v) (v_Ready v)
      (v_QueueDepth v) x (v_MaxContext v) (v_CostPerHour v) (v_CostClass v) (v_Runtime v) (v_VRAMGB v) (v_GPU v) (v_Capabilities v)));
   ("MaxContext", fun v d => x ← dec_uint32 (v_MaxContext v) d; Some (mkView (v_ID v) (v_Endpoint v) (v_BaseModel v) (v_Adapter v) (v_Healthy v) (v_Ready v)
      (v_QueueDepth v) (v_InFlight v) x (v_CostPerHour v) (v_CostClass v) (v_Runtime v) (v_VRAMGB v) (v_GPU v) (v_Capabilities v)));
   ("CostPerHour", fun v d => x ← dec_float64 (v_CostPerHour v) d; Some (mkView (v_ID v) (v_Endpoint v) (v_BaseModel v) (v_Adapter v) (v_Healthy v) (v_Ready v)
      (v_QueueDepth v) (v_InFlight v) (v_MaxContext v) x (v_CostClass v) (v_Runtime v) (v_VRAMGB v) (v_GPU v) (v_Capabilities v)));
   ("CostClass", fun v d => x ← dec_string (v_CostClass v) d; Some (mkView (v_ID v) (v_Endpoint v) (v_BaseModel v) (v_Adapter v) (v_Healthy v) (v_Ready v)
      (v_QueueDepth v) (v_InFlight v) (v_MaxContext v) (v_CostPerHour v) x (v_Runtime v) (v_VRAMGB v) (v_GPU v) (v_Capabilities v)));
   ("Runtime", fun v d => x ← dec_string (v_Runtime v) d; Some (mkView (v_ID v) (v_Endpoint v) (v_BaseModel v) (v_Adapter v) (v_Healthy v) (v_Ready v)
      (v_QueueDepth v) (v_InFlight v) (v_MaxContext v) (v_CostPerHour v) (v_CostClass v) x (v_VRAMGB v) (v_GPU v) (v_Capabilities v)));
   ("VRAMGB", fun v d => x ← dec_float64 (v_VRAMGB v) d; Some (mkView (v_ID v) (v_Endpoint v) (v_BaseModel v) (v_Adapter v) (v_Healthy v) (v_Ready v)
      (v_QueueDepth v) (v_InFlight v) (v_MaxContext v) (v_CostPerHour v) (v_CostClass v) (v_Runtime v) x (v_GPU v) (v_Capabilities v)));
   ("GPU", fun v d => x ← dec_string (v_GPU v) d; Some (mkView (v_ID v) (v_Endpoint v) (v_BaseModel v) (v_Adapter v) (v_Healthy v) (v_Ready v)
      (v_QueueDepth v) (v_InFlight v) (v_MaxContext v) (v_CostPerHour v) (v_CostClass v) (v_Runtime v) (v_VRAMGB v) x (v_Capabilities v)));
   ("Capabilities", fun v d => x ← dec_map_of "" dec_string (v_Capabilities v) d; Some (mkView (v_ID v) (v_Endpoint v) (v_BaseModel v) (v_Adapter v) (v_Healthy v) (v_Ready v)
      (v_QueueDepth v) (v_InFlight v) (v_MaxContext v) (v_CostPerHour v) (v_CostClass v) (v_Runtime v) (v_VRAMGB v) (v_GPU v) x))].

(** The struct while it is read: the slice keeps its backing array. *)
Record snapshot_state := mkSnapState { st_BuiltAt : Z; st_Epoch : Z; st_Workers : slice WorkerView }.

Definition snapshot_fields : fields snapshot_state :=
  [("BuiltAt", fun s d => x ← dec_time (st_BuiltAt s) d; Some (mkSnapState x (st_Epoch s) (st_Workers s)));
   ("Epoch", fun s d => x ← dec_uint64 (st_Epoch s) d; Some (mkSnapState (st_BuiltAt s) x (st_Workers s)));
   ("Workers", fun s d => x ← dec_slice zero_view (dec_struct view_fields) (st_Workers s) d; Some (mkSnapState (st_BuiltAt s) (st_Epoch s) x))].

Definition unmarshal_snapshot (payload : string) : option RoutingSnapshot :=
  s ← unmarshal_into (mkSnapState 0 0 nil_slice) (dec_struct snapshot_fields) payload;
  Some (mkSnap (st_BuiltAt s) (st_Epoch s) (contents (st_Workers s))).

(** ** The control planes *)

Section Planes.
Context `{UnicodeTables}.

(** [tick] up to the answer of Redis: the snapshot, its payload, and the epoch
    counter, which counts the snapshots that could not be sent too. *)
Definition send (epoch : Z) (t : tick_input) : result error (RoutingSnapshot * string) * Z :=
  let '(built, epoch) := buildSnapshot epoch (ti_now t) (ti_workers t) (ti_all t) (ti_virtual t) in
  (let? snap := built in
   let? payload := marshal_snapshot snap in
   match ti_publish t with Some e => Err e | None => Ok (snap, payload) end, epoch).

Record plane := mkPlane {
  pl_epoch : Z;
  (** published, and not yet offered to the holder *)
  pl_storing : option RoutingSnapshot;
  pl_holder : option (nat * RoutingSnapshot);
  pl_subscribed : bool;
  pl_inbox : list string
}.

Inductive plane_act : Type :=
| SendTick (i : nat) (t : tick_input)
| KeepOwn (i : nat)
| Join (i : nat)
| Receive (i : nat)
| Drop (i : nat).

(** The planes, and the snapshots published so far, oldest first. *)
Record net := mkNet { planes : list plane; sent : list RoutingSnapshot }.

Definition announce (payload : string) (p : plane) : plane :=
  if pl_subscribed p then mkPlane (pl_epoch p) (pl_storing p) (pl_holder p) true (pl_inbox p ++ [payload])%list else p.

Definition net_step (st : net) (k : nat) (a : plane_act) : net :=
  let upd i f := match planes st !! i with Some p => mkNet (<[i := f p]> (planes st)) (sent st) | None => st end in
  match a with
  | SendTick i t =>
      match planes st !! i with
      | Some (mkPlane epoch None h sub inbox) =>
          match send epoch t with
          | (Err _, epoch) => upd i (fun _ => mkPlane epoch None h sub inbox)
          | (Ok (snap, payload), epoch) =>
              mkNet (announce payload <$> <[i := mkPlane epoch (Some snap) h sub inbox]> (planes st)) (sent st ++ [snap])%list
          end
      | _ => st
      end
  | KeepOwn i => upd i (fun p =>
      mkPlane (pl_epoch p) None (StoreIfNewer Epoch (pl_holder p) k (pl_storing p)).2 (pl_subscribed p) (pl_inbox p))
  | Join i => upd i (fun p => mkPlane (pl_epoch p) (pl_storing p) (pl_holder p) true (pl_inbox p))
  | Receive i => upd i (fun p =>
      match pl_inbox p with
      | [] => p
      | m :: rest => mkPlane (pl_epoch p) (pl_storing p) (onMessage (pl_holder p) k (unmarshal_snapshot m)) (pl_subscribed p) rest
      end)
  | Drop i => upd i (fun p => mkPlane (pl_epoch p) (pl_storing p) (pl_holder p) (pl_subscribed p) (tail (pl_inbox p)))
  end.

(** A step carries its number, which names the pointer it may store. *)
Definition net_run (st : net) (k : nat) (acts : list plane_act) : net :=
  (foldl (fun '(st, k) a => (net_step st k a, S k)) (st, k) acts).1.

Definition fresh_planes (n : nat) : net := mkNet (replicate n (mkPlane 0 None None false [])) [].
End Planes.

(** ** Lemmas *)

(** The sign of a zero is lost with the member. *)
Definition plus_zero (x : float64) : float64 := if feqb x f_zero then f_zero else x.

Definition wire_view (v : WorkerView) : WorkerView :=
  mkView (v_ID v) (v_Endpoint v) (v_BaseModel v) (v_Adapter v) (v_Healthy v) (v_Ready v) (v_QueueDepth v) (v_InFlight v)
    (v_MaxContext v) (plus_zero (v_CostPerHour v)) (v_CostClass v) (v_Runtime v) (plus_zero (v_VRAMGB v)) (v_GPU v) (v_Capabilities v).

Definition wire_snapshot (s : RoutingSnapshot) : RoutingSnapshot := mkSnap (BuiltAt s) (Epoch s) (wire_view <$> Workers s).

(** What the fields of a view can hold: UTF-8 text and integers of their
    widths. *)
Record view_ok (v : WorkerView) : Prop := {
  vo_text : Forall valid_utf8 [v_ID v; v_Endpoint v; v_BaseModel v; v_Adapter v; v_CostClass v; v_Runtime v; v_GPU v];
  vo_load : in_i64 (v_QueueDepth v) /\ in_i64 (v_InFlight v);
  vo_context : 0 <= v_MaxContext v < two32;
  vo_floats : valid (v_CostPerHour v) /\ valid (v_VRAMGB v);
  vo_caps : map_Forall (fun k x => valid_utf8 k /\ valid_utf8 x) (v_Capabilities v)
}.

Section RoundTrip.

Lemma plain_number x : num x -> plain 0 (number_doc x).
Proof. intros Hx. split_and!; [done|by apply float_text_number|done]. Qed.

Lemma marshals_num v : view_ok v -> view_marshals v = true -> num (v_CostPerHour v) /\ num (v_VRAMGB v).
Proof.
  intros [_ _ _ [Vc Vv] _]. unfold view_marshals. rewrite andb_true_iff. intros [Hc Hv].
  split; (split; [done|]); [by destruct (v_CostPerHour v)|by destruct (v_VRAMGB v)].
Qed.

Lemma plain_view v : view_ok v -> view_marshals v = true -> plain 2 (view_doc v).
Proof.
  intros Hok Hm. destruct (marshals_num v Hok Hm) as [Hc Hv]. destruct Hok as [Ht _ _ _ Hcaps].
  rewrite !list.Forall_cons in Ht. destruct Ht as (T1 & T2 & T3 & T4 & T5 & T6 & T7 & _).
  assert (forall k d, str_forall (fun a => byte a <? 0x80) k = true -> plain 0 d -> valid_utf8 k /\ plain 1 d) as Hp.
  { intros k d Hk Hd. split; [by apply ascii_utf8|]. by eapply plain_mono. }
  apply (plain_obj 1); [done|]. rewrite !Forall_app. split_and!.
  - repeat (apply list.Forall_cons; split; [cbn [fst snd]; apply Hp; [reflexivity|auto with json]|]). done.
  - apply plain_omit. intros _. apply Hp; [reflexivity|auto with json].
  - apply plain_omit. intros _. apply Hp; [reflexivity|by apply plain_number].
  - apply plain_omit. intros _. apply Hp; [reflexivity|auto with json].
  - apply plain_omit. intros _. apply Hp; [reflexivity|auto with json].
  - apply plain_omit. intros _. apply Hp; [reflexivity|by apply plain_number].
  - apply plain_omit. intros _. apply Hp; [reflexivity|auto with json].
  - apply plain_omit. intros _. split; [by apply ascii_utf8|]. apply (plain_map DStr 0); [done|].
    intros k x E. destruct (Hcaps k x E) as [Hk Hx]. split; [done|by apply plain_str].
  - done.
Qed.

(** The struct after a field, with the other fields as they were. *)
Ltac settle := cbn [v_ID v_Endpoint v_BaseModel v_Adapter v_Healthy v_Ready v_QueueDepth v_InFlight v_MaxContext
  v_CostPerHour v_CostClass v_Runtime v_VRAMGB v_GPU v_Capabilities zero_view mbind option_bind].

Ltac read_omitted := erewrite (dec_members_omit view_fields); [|reflexivity|].

Lemma dec_view_doc v : view_ok v -> view_marshals v = true ->
  dec_struct view_fields zero_view (view_doc v) = Some (wire_view v).
Proof.
  intros Hok Hm. destruct (marshals_num v Hok Hm) as [Hc Hv]. destruct Hok as [_ [L1 L2] Hctx _ Hcaps]. clear Hm.
  assert (dec_map_of "" dec_string ∅ (DObj (map_members DStr (v_Capabilities v))) = Some (v_Capabilities v)) as Em.
  { rewrite (dec_map_members DStr id); [by rewrite map_fmap_id|done]. }
  destruct v as [id ep base ad healthy ready qd infl ctx cost class rt vram gpu caps]. unfold view_doc, wire_view. revert L1 L2 Hctx Hc Hv Hcaps Em. settle.
  intros L1 L2 Hctx Hc Hv Hcaps Em. remember (DObj (map_members DStr caps)) as cd eqn:Ecd. clear Ecd. cbn [dec_struct app].
  do 6 (read_member view_fields; [|settle; reflexivity]; settle).
  do 2 (read_member view_fields; [|settle; rewrite dec_int64_DInt by done; reflexivity]; settle).
  erewrite (dec_members_omit view_fields _ _ _ _ _ _ (mkView id ep base ad healthy ready qd infl ctx f_zero "" "" f_zero "" ∅)); [|reflexivity|].
  2:{ destruct (Z.eqb_spec ctx 0) as [->|]; [done|]. settle. by rewrite dec_uint32_DInt. }
  erewrite (dec_members_omit view_fields _ _ _ _ _ _ (mkView id ep base ad healthy ready qd infl ctx (plus_zero cost) "" "" f_zero "" ∅)); [|reflexivity|].
  2:{ unfold plus_zero. destruct (feqb cost f_zero); [done|]. settle. by rewrite dec_number. }
  erewrite (dec_members_omit view_fields _ _ _ _ _ _ (mkView id ep base ad healthy ready qd infl ctx (plus_zero cost) class "" f_zero "" ∅)); [|reflexivity|].
  2:{ by destruct (String.eqb_spec class "") as [->|]. }
  erewrite (dec_members_omit view_fields _ _ _ _ _ _ (mkView id ep base ad healthy ready qd infl ctx (plus_zero cost) class rt f_zero "" ∅)); [|reflexivity|].
  2:{ by destruct (String.eqb_spec rt "") as [->|]. }
  erewrite (dec_members_omit view_fields _ _ _ _ _ _ (mkView id ep base ad healthy ready qd infl ctx (plus_zero cost) class rt (plus_zero vram) "" ∅)); [|reflexivity|].
  2:{ unfold plus_zero. destruct (feqb vram f_zero); [done|]. settle. by rewrite dec_number. }
  erewrite (dec_members_omit view_fields _ _ _ _ _ _ (mkView id ep base ad healthy ready qd infl ctx (plus_zero cost) class rt (plus_zero vram) gpu ∅)); [|reflexivity|].
  2:{ by destruct (String.eqb_spec gpu "") as [->|]. }
  erewrite (dec_members_omit view_fields _ _ _ _ _ _ (mkView id ep base ad healthy ready qd infl ctx (plus_zero cost) class rt (plus_zero vram) gpu caps)); [|reflexivity|].
  2:{ case_bool_decide as E; [by rewrite E|]. settle. by rewrite Em. }
  reflexivity.
Qed.

Record snapshot_ok (s : RoutingSnapshot) : Prop := { so_epoch : in_u64 (Epoch s); so_views : Forall view_ok (Workers s) }.

(** A snapshot that can be marshalled is read back as it was, but for the
    sign of a zero. *)
Lemma snapshot_roundtrip s payload : snapshot_ok s -> marshal_snapshot s = Ok payload ->
  payload = print (snapshot_doc s) /\ unmarshal_snapshot payload = Some (wire_snapshot s).
Proof.
  intros [He Hv]. unfold marshal_snapshot. destruct (time_writable (BuiltAt s)) eqn:Ht; [|done]. cbn [andb].
  destruct (forallb view_marshals (Workers s)) eqn:Em; [|done].
  intros E. assert (payload = print (snapshot_doc s)) as -> by congruence. clear E. split; [done|].
  rewrite forallb_forall in Em. rewrite list.Forall_forall in Hv.
  assert (plain max_nesting (snapshot_doc s)) as Hp.
  { eapply (plain_mono 4); [|done]. apply (plain_obj 3); [done|]. repeat (apply list.Forall_cons; split); [..|done].
    - split; [by apply ascii_utf8|]. apply (plain_mono 0); [|done]. apply plain_str, time_text_utf8.
    - split; [by apply ascii_utf8|]. apply (plain_mono 0); [|done]. apply plain_int.
    - split; [by apply ascii_utf8|]. apply (plain_arr 2); [done|]. apply Forall_fmap, list.Forall_forall. intros v Hin.
      apply plain_view; [by apply Hv|]. by apply Em, list_elem_of_In. }
  unfold unmarshal_snapshot, unmarshal_into. rewrite (plain_parse _ Hp). clear Hp. unfold snapshot_doc. cbn [dec_struct].
  destruct (dec_slice_fresh zero_view (dec_struct view_fields) view_doc wire_view (Workers s)) as (sl & Es & Ec).
  { intros v Hin. apply dec_view_doc; [by apply Hv|]. by apply Em, list_elem_of_In. }
  remember (DArr (view_doc <$> Workers s)) as wd eqn:Ewd. clear Ewd.
  read_member snapshot_fields; [|cbn beta; cbn [dec_time time_doc]; rewrite time_text_read by done; reflexivity].
  read_member snapshot_fields; [|cbn beta; rewrite dec_uint64_DInt by done; reflexivity].
  read_member snapshot_fields; [|cbn beta; cbn [st_Workers]; rewrite Es; reflexivity].
  cbn. by rewrite Ec.
Qed.
End RoundTrip.

(** ** One publisher and its subscribers *)

Section Network.
Context `{UnicodeTables}.
(** the control plane that publishes *)
Variable p : nat.

Definition act_ok (a : plane_act) : Prop :=
  match a with SendTick i t => i = p /\ Forall view_ok (tick_views t) | _ => True end.

Definition is_tick (a : plane_act) : bool := match a with SendTick _ _ => true | _ => false end.

Definition payload_of (s : RoutingSnapshot) : string := print (snapshot_doc s).

(** The publisher may hold its own snapshot, the others hold what they read. *)
Definition from_sent (i : nat) (s h : RoutingSnapshot) : Prop := h = wire_snapshot s \/ (i = p /\ h = s).

Record plane_inv (l : list RoutingSnapshot) (i : nat) (q : plane) : Prop := {
  pi_epoch : i = p -> 0 <= pl_epoch q /\ Forall (fun s => Epoch s <= pl_epoch q) l;
  pi_storing : forall s, pl_storing q = Some s -> i = p /\ list.last l = Some s;
  pi_inbox : Forall (fun m => exists s, s ∈ l /\ m = payload_of s) (pl_inbox q);
  pi_held : forall h, Load (pl_holder q) = Some h -> exists s, s ∈ l /\ from_sent i s h
}.

Record net_inv (b : Z) (st : net) : Prop := {
  ni_sorted : StronglySorted Z.lt (Epoch <$> sent st);
  ni_ok : Forall (fun s => unmarshal_snapshot (payload_of s) = Some (wire_snapshot s)) (sent st);
  ni_bound : forall q, planes st !! p = Some q -> pl_epoch q <= b;
  ni_planes : forall i q, planes st !! i = Some q -> plane_inv (sent st) i q
}.

Lemma from_sent_epoch i s h : from_sent i s h -> Epoch h = Epoch s.
Proof. by intros [->|[_ ->]]. Qed.

Lemma last_epoch (l : list RoutingSnapshot) s s0 : StronglySorted Z.lt (Epoch <$> l) -> list.last l = Some s -> s0 ∈ l ->
  Epoch s0 <= Epoch s /\ (Epoch s <= Epoch s0 -> s0 = s).
Proof.
  intros Hs [l' ->]%list.last_Some Hin. apply elem_of_app in Hin as [Hin| ->%list_elem_of_singleton]; [|done].
  rewrite fmap_app in Hs. assert (Epoch s0 < Epoch s); [|lia].
  eapply (StronglySorted_app_1_elem_of _ _ _ _ _ Hs); [by apply list_elem_of_fmap_2|by left].
Qed.

(** Offering to the holder something sent: it still holds something sent, and
    the last when the last was offered. *)
Lemma offer_held l i k (h : option (nat * RoutingSnapshot)) s x :
  StronglySorted Z.lt (Epoch <$> l) -> (forall h0, Load h = Some h0 -> exists s, s ∈ l /\ from_sent i s h0) ->
  s ∈ l -> from_sent i s x ->
  let h' := (StoreIfNewer Epoch h k (Some x)).2 in
  (forall h0, Load h' = Some h0 -> exists s, s ∈ l /\ from_sent i s h0) /\
  (list.last l = Some s -> exists h0, Load h' = Some h0 /\ from_sent i s h0).
Proof.
  intros Hs Hh Hin Hx h'. subst h'. cbn [StoreIfNewer]. destruct (not_newer Epoch x h) eqn:En; cbn [snd].
  - split; [exact Hh|]. intros Hl. destruct h as [[j h0]|]; [|done]. cbn in En. zbool. exists h0. split; [done|].
    destruct (Hh h0 eq_refl) as (s0 & Hin0 & Hf0). destruct (last_epoch l s s0 Hs Hl Hin0) as [_ Heq].
    rewrite (from_sent_epoch _ _ _ Hx), (from_sent_epoch _ _ _ Hf0) in En. by rewrite <- (Heq En).
  - split; [|intros _; by exists x]. intros h0 [= <-]. by exists s.
Qed.

Lemma send_spec epoch t : 0 <= epoch < two64 - 1 ->
  exists epoch', (send epoch t).2 = epoch' /\ epoch <= epoch' <= epoch + 1 /\
    forall snap payload, (send epoch t).1 = Ok (snap, payload) ->
      Epoch snap = epoch + 1 /\ epoch' = epoch + 1 /\ Workers snap = tick_views t /\ marshal_snapshot snap = Ok payload.
Proof.
  intros He. unfold send, buildSnapshot, tick_views. destruct (ti_workers t) as [ws|e]; [|exists epoch; split; [reflexivity|]; split; [lia|done]].
  rewrite wrap_u64_id by (unfold in_u64; lia). exists (epoch + 1). split; [reflexivity|]. split; [lia|]. cbn [fst]. intros snap payload.
  destruct (marshal_snapshot _) as [pl|] eqn:Em; [|done]. destruct (ti_publish t); [done|]. intros [= <- <-]. by split_and!.
Qed.

(** What a plane has stays sent when more is. *)
Lemma held_grows (l : list RoutingSnapshot) s i (h : option (nat * RoutingSnapshot)) :
  (forall h0, Load h = Some h0 -> exists s, s ∈ l /\ from_sent i s h0) ->
  forall h0, Load h = Some h0 -> exists s0, s0 ∈ (l ++ [s])%list /\ from_sent i s0 h0.
Proof. intros Hh h0 E. destruct (Hh h0 E) as (s0 & ? & ?). exists s0. split; [apply elem_of_app; by left|done]. Qed.

Lemma inbox_grows (l : list RoutingSnapshot) s inbox :
  Forall (fun m => exists s, s ∈ l /\ m = payload_of s) inbox -> Forall (fun m => exists s0, s0 ∈ (l ++ [s])%list /\ m = payload_of s0) inbox.
Proof. apply Forall_impl. intros m (s0 & ? & ?). exists s0. split; [apply elem_of_app; by left|done]. Qed.

Lemma plane_inv_other l s i q : i <> p -> plane_inv l i q -> plane_inv (l ++ [s]) i q.
Proof.
  intros Hi [He Hs Hin Hh]. split; [done| |by apply inbox_grows|by apply held_grows].
  intros x Hx. by destruct (Hs x Hx).
Qed.

Lemma announce_inv l i q s : s ∈ l -> plane_inv l i q -> plane_inv l i (announce (payload_of s) q).
Proof.
  intros Hin [He Hs Hb Hh]. unfold announce. destruct (pl_subscribed q); [|done]. split; cbn; try done.
  apply Forall_app. split; [done|]. apply Forall_singleton. by exists s.
Qed.

(** A step of a plane that leaves what was sent as it is. *)
Lemma net_inv_update b st i q q' :
  net_inv b st -> planes st !! i = Some q -> (i = p -> pl_epoch q' <= b) -> plane_inv (sent st) i q' ->
  net_inv b (mkNet (<[i := q']> (planes st)) (sent st)).
Proof.
  intros [Hs Hok Hb Hp] Ei Hb' Hq'. split; cbn [planes sent]; [done|done| |].
  - intros q0. rewrite list_lookup_insert. case_decide as D; [|by apply Hb]. intros [= <-]. apply Hb'. by destruct D.
  - intros j q0. rewrite list_lookup_insert. case_decide as D; [|by apply Hp]. intros [= <-]. by destruct D as [<- _].
Qed.

Lemma sorted_snoc (l : list RoutingSnapshot) s e : StronglySorted Z.lt (Epoch <$> l) -> Forall (fun s => Epoch s <= e) l -> e < Epoch s ->
  StronglySorted Z.lt (Epoch <$> (l ++ [s])%list).
Proof.
  intros Hs Hl He. rewrite fmap_app. apply StronglySorted_app_2; [|done|by repeat constructor].
  rewrite list.Forall_forall in Hl. intros x y (s0 & -> & Hin)%list_elem_of_fmap ->%list_elem_of_singleton. specialize (Hl s0 Hin). cbn in Hl. lia.
Qed.

(** A tick that publishes. *)
Lemma publish_inv b st q snap payload :
  net_inv b st -> planes st !! p = Some q -> pl_storing q = None -> in_u64 (Epoch snap) ->
  Epoch snap = pl_epoch q + 1 -> pl_epoch q < b -> Forall view_ok (Workers snap) -> marshal_snapshot snap = Ok payload ->
  net_inv b (mkNet (announce payload <$> <[p := mkPlane (pl_epoch q + 1) (Some snap) (pl_holder q) (pl_subscribed q) (pl_inbox q)]> (planes st))
    (sent st ++ [snap])%list).
Proof.
  intros [Hs Hok Hb Hp] Eq Est Hu Ee Hlt Hv Hm. destruct (snapshot_roundtrip snap payload) as [-> Hr]; [by split|done|].
  destruct (Hp p q Eq) as [He _ Hin Hh]. destruct (He eq_refl) as [Hz Hle]. fold (payload_of snap) in Hr |- *.
  split; cbn [planes sent].
  - eapply sorted_snoc; [done|exact Hle|lia].
  - apply Forall_app. split; [done|]. by apply Forall_singleton.
  - intros q0. rewrite list_lookup_fmap, list_lookup_insert_eq by (by eapply lookup_lt_Some). intros [= <-].
    unfold announce. destruct (pl_subscribed q); cbn; lia.
  - intros j q0. rewrite list_lookup_fmap. intros (q1 & E1 & ->)%fmap_Some. apply announce_inv; [apply elem_of_app; right; by left|].
    rewrite list_lookup_insert in E1. case_decide as D.
    + destruct D as [<- _]. injection E1 as <-. split; cbn [pl_epoch pl_storing pl_inbox pl_holder].
      * intros _. split; [lia|]. apply Forall_app. split; [|apply Forall_singleton; lia]. eapply Forall_impl; [|exact Hle]. cbn. lia.
      * intros x [= <-]. split; [done|]. apply list.last_snoc.
      * by apply inbox_grows.
      * by apply held_grows.
    + destruct (decide (j = p)) as [->|Hne]; [|by apply plane_inv_other, Hp]. exfalso. apply D. split; [done|]. by eapply lookup_lt_Some.
Qed.

Lemma net_step_inv b st k a : net_inv b st -> act_ok a -> 0 <= b < two64 - 1 ->
  net_inv (if is_tick a then b + 1 else b) (net_step st k a).
Proof.
  intros Hi Ha Hb. assert (forall b', b <= b' -> net_inv b' st) as Hw.
  { intros b' Hle. destruct Hi as [? ? Hbd ?]. split; try done. intros q Eq. specialize (Hbd q Eq). lia. }
  destruct a as [i t|i|i|i|i]; cbn [is_tick net_step] in *.
  - destruct Ha as [-> Hv]. destruct (planes st !! p) as [[epoch [x|] h sub inbox]|] eqn:Ep; [apply Hw; lia| |apply Hw; lia].
    pose proof (ni_bound _ _ Hi _ Ep) as Hbd. pose proof (ni_planes _ _ Hi _ _ Ep) as Hpi. cbn in Hbd.
    destruct (pi_epoch _ _ _ Hpi eq_refl) as [Hz Hle]. cbn in Hz, Hle.
    destruct (send_spec epoch t) as (e' & E2 & He' & Hsp); [lia|]. destruct (send epoch t) as [[[snap payload]|er] e0]; cbn in E2, Hsp; subst e0.
    + destruct (Hsp _ _ eq_refl) as (Es & -> & Ew & Em).
      apply (publish_inv (b + 1) st (mkPlane epoch None h sub inbox)); try done; [by apply Hw; lia|unfold in_u64; lia|cbn; lia|by rewrite Ew].
    + eapply net_inv_update; [apply Hw; lia|done|cbn; lia|]. destruct Hpi as [_ ? ? ?]. split; try done. cbn. intros _. split; [lia|].
      eapply Forall_impl; [|exact Hle]. cbn. lia.
  - destruct (planes st !! i) as [q|] eqn:Ep; [|done]. pose proof (ni_planes _ _ Hi _ _ Ep) as [He Hs Hin Hh].
    eapply net_inv_update; [done|done|intros ->; exact (ni_bound _ _ Hi q Ep)|]. split; try done. cbn [pl_holder].
    destruct (pl_storing q) as [s|] eqn:Es; [|done]. destruct (Hs s eq_refl) as [-> Hl].
    exact (proj1 (offer_held (sent st) p k (pl_holder q) s s (ni_sorted _ _ Hi) Hh (last_Some_elem_of _ _ Hl) (or_intror (conj eq_refl eq_refl)))).
  - destruct (planes st !! i) as [q|] eqn:Ep; [|done]. pose proof (ni_planes _ _ Hi _ _ Ep) as [He Hs Hin Hh].
    eapply net_inv_update; [done|done|intros ->; exact (ni_bound _ _ Hi q Ep)|]. by split.
  - destruct (planes st !! i) as [q|] eqn:Ep; [|done]. pose proof (ni_planes _ _ Hi _ _ Ep) as [He Hs Hin Hh].
    eapply net_inv_update; [done|done|intros ->; destruct (pl_inbox q); exact (ni_bound _ _ Hi q Ep)|].
    destruct (pl_inbox q) as [|m rest] eqn:Eb; [split; try done; by rewrite Eb|]. apply list.Forall_cons in Hin as [(s & Hsin & ->) Hrest].
    split; try done. cbn [pl_holder]. pose proof (ni_ok _ _ Hi) as Hok. rewrite list.Forall_forall in Hok. rewrite (Hok s Hsin).
    exact (proj1 (offer_held (sent st) i k (pl_holder q) s (wire_snapshot s) (ni_sorted _ _ Hi) Hh Hsin (or_introl eq_refl))).
  - destruct (planes st !! i) as [q|] eqn:Ep; [|done]. pose proof (ni_planes _ _ Hi _ _ Ep) as [He Hs Hin Hh].
    eapply net_inv_update; [done|done|intros ->; exact (ni_bound _ _ Hi q Ep)|]. split; try done. cbn. destruct Hin; done.
Qed.

Definition ticks (acts : list plane_act) : Z := Z.of_nat (length (List.filter is_tick acts)).

Lemma net_run_inv b st k acts : net_inv b st -> Forall act_ok acts -> 0 <= b -> b + ticks acts < two64 - 1 ->
  net_inv (b + ticks acts) (net_run st k acts).
Proof.
  revert b st k. induction acts as [|a acts IH]; intros b st k Hi Ha Hb Hn; [by replace (b + ticks []) with b by (unfold ticks; cbn [List.filter length]; lia)|].
  apply list.Forall_cons in Ha as [Ha Has]. unfold ticks in *. cbn [List.filter] in *.
  pose proof (net_step_inv b st k a Hi Ha ltac:(lia)) as Hs. change (net_run st k (a :: acts)) with (net_run (net_step st k a) (S k) acts).
  destruct (is_tick a); cbn [length] in *.
  - replace (b + Z.of_nat (S (length (List.filter is_tick acts)))) with (b + 1 + Z.of_nat (length (List.filter is_tick acts))) by lia.
    apply IH; [done|done|lia|lia].
  - by apply IH.
Qed.

(** Plane [i] is subscribed; and once more than [n] snapshots were sent, the
    last is the last message it waits for, or is held. *)
Definition attends (i n : nat) (st : net) : Prop :=
  exists q, planes st !! i = Some q /\ pl_subscribed q = true /\
    ((n < length (sent st))%nat -> exists s, list.last (sent st) = Some s /\
       match list.last (pl_inbox q) with
       | Some m => m = payload_of s
       | None => exists h, Load (pl_holder q) = Some h /\ from_sent i s h
       end).

(** A step of another plane, or of this one but for what it holds and waits for. *)
Lemma attends_update i n st j q' :
  attends i n st -> (forall q, i = j -> planes st !! i = Some q -> pl_subscribed q = true ->
     pl_subscribed q' = true /\ forall s, list.last (sent st) = Some s ->
       match list.last (pl_inbox q) with Some m => m = payload_of s | None => exists h, Load (pl_holder q) = Some h /\ from_sent i s h end ->
       match list.last (pl_inbox q') with Some m => m = payload_of s | None => exists h, Load (pl_holder q') = Some h /\ from_sent i s h end) ->
  attends i n (mkNet (<[j := q']> (planes st)) (sent st)).
Proof.
  intros (q & Eq & Hsub & Hn) Hj. destruct (decide (i = j)) as [->|Hne].
  - destruct (Hj q eq_refl Eq Hsub) as [Hsub' Hs]. exists q'. cbn [planes sent]. rewrite list_lookup_insert_eq by (by eapply lookup_lt_Some).
    split_and!; [done|done|]. intros Hl. destruct (Hn Hl) as (s & El & Hm). exists s. split; [done|]. by apply Hs.
  - exists q. cbn [planes sent]. by rewrite list_lookup_insert_ne.
Qed.

Lemma attends_step b i n st k a : net_inv b st -> act_ok a -> a <> Drop i -> 0 <= b < two64 - 1 -> attends i n st -> attends i n (net_step st k a).
Proof.
  intros Hi Ha Hd Hb Hat. destruct a as [j t|j|j|j|j]; cbn [net_step].
  - destruct Ha as [-> Hv]. destruct (planes st !! p) as [[epoch [x|] h sub inbox]|] eqn:Ep; [done| |done].
    pose proof (ni_bound _ _ Hi _ Ep) as Hbd. destruct (pi_epoch _ _ _ (ni_planes _ _ Hi _ _ Ep) eq_refl) as [Hz _]. cbn in Hbd, Hz.
    destruct (send_spec epoch t) as (e' & E2 & He' & Hsp); [lia|]. destruct (send epoch t) as [[[snap payload]|er] e0]; cbn in E2, Hsp; subst e0.
    + destruct (Hsp _ _ eq_refl) as (Es & _ & Ew & Em). destruct (snapshot_roundtrip snap payload) as [-> _]; [split; [unfold in_u64; lia|by rewrite Ew]|done|].
      destruct Hat as (q & Eq & Hsub & _). assert (exists q', <[p := mkPlane e' (Some snap) h sub inbox]> (planes st) !! i = Some q' /\ pl_subscribed q' = true) as (q' & E' & Hs').
      { rewrite list_lookup_insert. case_decide as D; [|by exists q]. destruct D as [<- _]. eexists. split; [done|]. cbn. rewrite Ep in Eq. by injection Eq as <-. }
      exists (announce (print (snapshot_doc snap)) q'). cbn [planes sent]. rewrite list_lookup_fmap, E'. split; [done|]. unfold announce. rewrite Hs'.
      split; [done|]. intros _. exists snap. cbn [pl_inbox]. by rewrite !list.last_snoc.
    + apply attends_update; [done|]. intros q -> Eq Hsub. rewrite Ep in Eq. injection Eq as <-. by split.
  - destruct (planes st !! j) as [q|] eqn:Ep; [|done]. apply attends_update; [done|]. intros q0 -> Eq Hsub. rewrite Ep in Eq. injection Eq as <-.
    split; [done|]. intros s El. cbn [pl_inbox pl_holder]. destruct (list.last (pl_inbox q)); [done|]. destruct (ni_planes _ _ Hi _ _ Ep) as [_ Hs _ Hh].
    destruct (pl_storing q) as [s0|] eqn:Es; [|done]. destruct (Hs s0 eq_refl) as [-> El0]. rewrite El in El0. injection El0 as <-. intros _.
    exact (proj2 (offer_held (sent st) p k (pl_holder q) s s (ni_sorted _ _ Hi) Hh (last_Some_elem_of _ _ El) (or_intror (conj eq_refl eq_refl))) El).
  - destruct (planes st !! j) as [q|] eqn:Ep; [|done]. apply attends_update; [done|]. intros q0 -> Eq Hsub. rewrite Ep in Eq. injection Eq as <-. by split.
  - destruct (planes st !! j) as [q|] eqn:Ep; [|done]. apply attends_update; [done|]. intros q0 -> Eq Hsub. rewrite Ep in Eq. injection Eq as <-.
    destruct (pl_inbox q) as [|m rest] eqn:Eb; [rewrite Eb; by split|]. split; [done|]. intros s El. cbn [pl_inbox pl_holder].
    destruct rest as [|m' rest]; [|rewrite last_cons_cons; destruct (list.last (m' :: rest)) eqn:E'; [done|by apply list.last_None in E']].
    cbn [list.last]. intros ->. pose proof (last_Some_elem_of _ _ El) as Hsin.
    pose proof (ni_ok _ _ Hi) as Hok. rewrite list.Forall_forall in Hok. rewrite (Hok s Hsin).
    exact (proj2 (offer_held (sent st) j k (pl_holder q) s (wire_snapshot s) (ni_sorted _ _ Hi) (pi_held _ _ _ (ni_planes _ _ Hi _ _ Ep)) Hsin (or_introl eq_refl)) El).
  - destruct (planes st !! j) as [q|] eqn:Ep; [|done]. apply attends_update; [done|]. intros q0 -> _ _. done.
Qed.

Lemma attends_run b i n st k acts : net_inv b st -> Forall act_ok acts -> Drop i ∉ acts -> 0 <= b -> b + ticks acts < two64 - 1 ->
  attends i n st -> attends i n (net_run st k acts).
Proof.
  revert b st k. induction acts as [|a acts IH]; intros b st k Hi Ha Hd Hb Hn Hat; [done|].
  apply list.Forall_cons in Ha as [Ha Has]. apply not_elem_of_cons in Hd as [Hda Hd]. unfold ticks in *. cbn [List.filter] in Hn.
  change (net_run st k (a :: acts)) with (net_run (net_step st k a) (S k) acts).
  assert (0 <= b < two64 - 1) as Hb' by lia.
  apply (IH (if is_tick a then b + 1 else b)); [by apply net_step_inv|done|done|destruct (is_tick a); lia|destruct (is_tick a); cbn [length] in Hn; lia|].
  by eapply attends_step.
Qed.
End Network.

(** A worker whose capabilities name a size of memory that is not finite. *)
Definition unbounded_memory `{UnicodeTables} (w : RegWorker) : bool :=
  negb (json_number (c_VRAMGB (ParseCapabilities (r_Capabilities w) (r_RuntimeKind w)))).

Lemma unbounded_not_sent `{UnicodeTables} epoch t :
  (forall ws, ti_workers t = Ok ws -> existsb unbounded_memory ws = true) -> exists e epoch', send epoch t = (Err e, epoch').
Proof.
  intros Hw. unfold send, buildSnapshot. destruct (ti_workers t) as [ws|e]; [|by eexists _, _]. specialize (Hw ws eq_refl).
  apply existsb_exists in Hw as (w & Hin & Hu%negb_true_iff). unfold marshal_snapshot. cbn [BuiltAt Workers].
  assert (forallb view_marshals (concat (worker_views (heartbeats (ti_all t)) <$> ws) ++ ti_virtual t)%list = false) as ->;
    [|rewrite andb_false_r; by eexists _, _].
  apply not_true_iff_false. intros Ha. rewrite forallb_forall in Ha.
  assert (exists v, v ∈ worker_views (heartbeats (ti_all t)) w /\ v_VRAMGB v = c_VRAMGB (ParseCapabilities (r_Capabilities w) (r_RuntimeKind w))) as (v & Hv & Ev).
  { unfold worker_views. destruct (r_Models w) as [|m ms]; eexists; (split; [by left|done]). }
  specialize (Ha v). unfold view_marshals in Ha. rewrite Ev, Hu, andb_false_r in Ha. discriminate Ha.
  apply List.in_or_app. left. apply in_concat. exists (worker_views (heartbeats (ti_all t)) w). split; [|by apply list_elem_of_In].
  by apply in_map.
Qed.

(** ** Properties *)

(** C24: a snapshot on its way from the control plane that publishes to the
    others, however their steps interleave: whatever any of them holds is a
    snapshot that was published, as the publisher built it or as its JSON
    reads (the same but for the sign of a zero); and a control plane that was
    subscribed before a publication and has lost no message since holds the
    last snapshot published once no message is waiting, even when messages
    were lost, ticks failed or the subscription started in between before. *)
Theorem snapshots_reach_control_planes `{UnicodeTables} p n i acts1 acts2 :
  Forall (act_ok p) (acts1 ++ acts2) -> ticks (acts1 ++ acts2) < two64 - 1 ->
  let st1 := net_run (fresh_planes n) 0 acts1 in
  let st2 := net_run st1 (length acts1) acts2 in
  (forall j q h, planes st2 !! j = Some q -> Load (pl_holder q) = Some h -> exists s, s ∈ sent st2 /\ from_sent p j s h) /\
  (forall q1 q2, planes st1 !! i = Some q1 -> pl_subscribed q1 = true -> Drop i ∉ acts2 ->
     (length (sent st1) < length (sent st2))%nat -> planes st2 !! i = Some q2 -> pl_inbox q2 = [] ->
     exists s h, list.last (sent st2) = Some s /\ Load (pl_holder q2) = Some h /\ from_sent p i s h).
Proof.
  intros Ha Hn. cbn zeta. apply Forall_app in Ha as [Ha1 Ha2]. unfold ticks in Hn. rewrite List.filter_app, length_app, Nat2Z.inj_add in Hn.
  assert (net_inv p 0 (fresh_planes n)) as Hi.
  { split; [constructor|done| |]; cbn [fresh_planes planes]; [intros q|intros j q]; intros [-> _]%lookup_replicate; [done|]. by split. }
  pose proof (net_run_inv p 0 _ 0 acts1 Hi Ha1 ltac:(lia) ltac:(unfold ticks; lia)) as H1'.
  pose proof (net_run_inv p _ _ (length acts1) acts2 H1' Ha2 ltac:(unfold ticks; lia) ltac:(unfold ticks; lia)) as H2'.
  split.
  - intros j q h Ej Eh. by eapply (pi_held p _ _ _ (ni_planes p _ _ H2' j q Ej)).
  - intros q1 q2 E1 Hsub Hd Hlt E2 Eb. destruct (attends_run p _ i (length (sent (net_run (fresh_planes n) 0 acts1))) _ (length acts1) acts2 H1' Ha2 Hd) as (q & Eq & _ & Hl).
    + unfold ticks. lia.
    + unfold ticks. lia.
    + exists q1. split_and!; [done|done|]. lia.
    + rewrite E2 in Eq. injection Eq as <-. destruct (Hl Hlt) as (s & El & Hm). rewrite Eb in Hm. destruct Hm as (h & ? & ?). by exists s, h.
Qed.

(** One worker can stop all routing: [ParseFloat] takes "inf", and JSON has no
    infinity, so while the registry lists a worker (alive or not) whose
    capabilities say vram_gb: inf, no tick of any control plane publishes or
    stores a snapshot. *)
Theorem unbounded_worker_stops_publishing `{UnicodeTables} n acts :
  (forall i t ws, SendTick i t ∈ acts -> ti_workers t = Ok ws -> existsb unbounded_memory ws = true) ->
  let st := net_run (fresh_planes n) 0 acts in
  sent st = [] /\ forall i q, planes st !! i = Some q -> pl_holder q = None.
Proof.
  intros Hw. cbn zeta. assert (forall st k, sent st = [] -> (forall i q, planes st !! i = Some q -> pl_holder q = None /\ pl_storing q = None /\ pl_inbox q = []) ->
    sent (net_run st k acts) = [] /\ (forall i q, planes (net_run st k acts) !! i = Some q -> pl_holder q = None)) as Hrun.
  { induction acts as [|a acts IH]; intros st k Hs Hp; [split; [done|]; intros i q E; by destruct (Hp i q E)|].
    change (net_run st k (a :: acts)) with (net_run (net_step st k a) (S k) acts). apply IH; [intros; eapply Hw; [by right|done]|..].
    - destruct a; cbn [net_step]; [|destruct (planes st !! i); done..]. destruct (planes st !! i) as [[e [] h sub inbox]|]; try done.
      destruct (unbounded_not_sent e t) as (er & e' & ->); [intros ws; apply (Hw i); by left|done].
    - assert (forall i q', (pl_holder q' = None /\ pl_storing q' = None /\ pl_inbox q' = []) ->
        forall j q0, <[i := q']> (planes st) !! j = Some q0 -> pl_holder q0 = None /\ pl_storing q0 = None /\ pl_inbox q0 = []) as Hu.
      { intros i q' Hq' j q0. rewrite list_lookup_insert. case_decide; [by intros [= <-]|apply Hp]. }
      destruct a as [i t|i|i|i|i]; cbn [net_step]; destruct (planes st !! i) as [q|] eqn:E; try done; destruct (Hp i q E) as (Eh & Es & Eb).
      + destruct q as [e [] h sub inbox]; [done|]. destruct (unbounded_not_sent e t) as (er & e' & ->); [intros ws; apply (Hw i); by left|]. apply Hu. by cbn in *.
      + apply Hu. cbn. by rewrite Es, Eh.
      + apply Hu. by cbn.
      + apply Hu. by rewrite Eb.
      + apply Hu. cbn. by rewrite Eb. }
  apply Hrun; [done|]. intros i q. cbn [fresh_planes planes]. by intros [-> _]%lookup_replicate.
Qed.

(** *** Witnesses *)

Definition demo_input : tick_input := mkTick 0 (Ok [demo_reg]) [demo_hb] [] None.

Definition joined_acts : list plane_act := [SendTick 0 demo_input; KeepOwn 0; Join 1; SendTick 0 demo_input; Receive 1; KeepOwn 0].

Definition joined_net : net := @net_run ascii_tables (fresh_planes 2) 0 joined_acts.

Lemma demo_view_ok v : v ∈ Workers demo_snapshot -> view_ok v.
Proof.
  cbn [demo_snapshot Workers]. rewrite !elem_of_cons, elem_of_nil. intros [->|[->|[]]];
    (split; [apply (bool_decide_unpack _); vm_compute; exact I|by vm_compute|by vm_compute|by vm_compute|apply map_Forall_empty]).
Qed.

Lemma snapshots_reach_control_planes_witness :
  exists q h, planes joined_net !! 1%nat = Some q /\ Load (pl_holder q) = Some h /\ Workers h = wire_view <$> Workers demo_snapshot.
Proof.
  assert (exists q, planes joined_net !! 1%nat = Some q /\ pl_inbox q = []) as (q & Eq & Eb) by (eexists; split; [vm_compute; reflexivity|reflexivity]).
  destruct (@snapshots_reach_control_planes ascii_tables 0 2 1 (take 3 joined_acts) (drop 3 joined_acts)) as [_ Hl].
  - assert (Forall view_ok (@tick_views ascii_tables demo_input)) as Hv.
    { change (Forall view_ok (Workers demo_snapshot)). apply list.Forall_forall. apply demo_view_ok. }
    unfold joined_acts. cbn [take drop app].
    repeat (apply list.Forall_cons; split; [first [exact I|split; [reflexivity|exact Hv]]|]). by apply list.Forall_nil.
  - reflexivity.
  - destruct (Hl (mkPlane 0 None None true []) q) as (s & h & Es & Eh & Hf).
    + vm_compute. reflexivity.
    + reflexivity.
    + unfold joined_acts. cbn [drop]. rewrite !not_elem_of_cons. split; [intros E; inversion E|]. split; [intros E; inversion E|]. split; [intros E; inversion E|]. apply not_elem_of_nil.
    + vm_compute. lia.
    + exact Eq.
    + exact Eb.
    + exists q, h. split; [exact Eq|]. split; [exact Eh|]. destruct Hf as [->|[? _]]; [|discriminate]. vm_compute in Es. injection Es as <-. vm_compute. reflexivity.
Defined.

Definition inf_reg : RegWorker := mkReg "w2" "10.0.0.3:1" "RUNTIME_KIND_VLLM" (print (DObj [("vram_gb", DStr "inf")])) [].

Definition inf_acts : list plane_act := [SendTick 0 (mkTick 0 (Ok [demo_reg; inf_reg]) [demo_hb] [] None); KeepOwn 0].

Lemma unbounded_worker_stops_publishing_witness :
  sent (@net_run ascii_tables (fresh_planes 1) 0 inf_acts) = [].
Proof.
  destruct (@unbounded_worker_stops_publishing ascii_tables 1 inf_acts) as [Hs _].
  - intros i t ws Hin. unfold inf_acts in Hin. rewrite !elem_of_cons, elem_of_nil in Hin. destruct Hin as [[= -> ->]|[|[]]]; [|done].
    intros [= <-]. vm_compute. reflexivity.
  - exact Hs.
Defined.
