(* ===== verification/Metrics.v ===== *)
(** * Metrics (the metrics.go files, internal/observability)

    The counters, gauges and histograms of the program.  The Prometheus client
    is an interface: a vector has a series per list of label values, which
    [WithLabelValues] creates, and it panics on a wrong number of labels or on
    a label that is not UTF-8; a registry panics on a name it already has.
    The file proves what the gauges of the health service and of the circuit
    breakers show, and that the registrations of the control plane do not
    collide. *)

From S2P Require Import Prelude Float64 Rounding FloatRange Decimal GoStrings GoFormat Json JsonDecode Strconv JsonFloat Errors Breaker Health HeartbeatWriter Routing.

(** ** The Prometheus client *)

Definition labels_ok (n : nat) (ls : list string) : Prop := length ls = n /\ Forall valid_utf8 ls.

#[export] Instance labels_ok_dec n ls : Decision (labels_ok n ls).
Proof. unfold labels_ok. apply _. Defined.

Class Prometheus (V : Type -> Type) := {
  vec_New : forall {A}, nat -> V A;
  vec_Labels : forall {A}, V A -> nat;
  (** the series a scrape sees *)
  vec_Get : forall {A}, V A -> list string -> option A;
  (** [WithLabelValues], and an operation on the series it answers *)
  vec_With : forall {A}, V A -> list string -> (option A -> A) -> go (V A);
  vec_Reset : forall {A}, V A -> V A;
  New_Labels : forall A n, vec_Labels (vec_New (A := A) n) = n;
  New_Get : forall A n ls, vec_Get (vec_New (A := A) n) ls = None;
  Reset_Labels : forall A (v : V A), vec_Labels (vec_Reset v) = vec_Labels v;
  Reset_Get : forall A (v : V A) ls, vec_Get (vec_Reset v) ls = None;
  With_panics : forall A (v : V A) ls f, ~ labels_ok (vec_Labels v) ls -> vec_With v ls f = Panics;
  With_returns : forall A (v : V A) ls f, labels_ok (vec_Labels v) ls ->
    exists v', vec_With v ls f = Returns v' /\ vec_Labels v' = vec_Labels v /\
      forall ls', vec_Get v' ls' = if decide (ls = ls') then Some (f (vec_Get v ls)) else vec_Get v ls'
}.

(** A registry knows the names of what was registered. *)
Class Registrar (R : Type) := {
  reg_New : R;
  reg_Names : R -> list string;
  MustRegister : R -> string -> go R;
  reg_New_Names : reg_Names reg_New = [];
  MustRegister_new : forall r n, n ∉ reg_Names r -> exists r', MustRegister r n = Returns r' /\ reg_Names r' = n :: reg_Names r;
  MustRegister_known : forall r n, n ∈ reg_Names r -> MustRegister r n = Panics
}.

Fixpoint register_all {R} `{Registrar R} (r : R) (names : list string) : go R :=
  match names with
  | [] => Returns r
  | n :: rest => let! r := MustRegister r n in register_all r rest
  end.

Section Vectors.
Context {V : Type -> Type} `{Prometheus V}.

(** The series of a counter, a gauge and a histogram: its count modulo 2^64,
    its value, and its observations. *)
Definition counter_Inc (v : V Z) (ls : list string) : go (V Z) :=
  vec_With v ls (fun n => wrap_u64 (default 0 n + 1)).

Definition gauge_Set (v : V float64) (ls : list string) (x : float64) : go (V float64) := vec_With v ls (fun _ => x).

Definition gauge_Inc (v : V float64) (ls : list string) : go (V float64) :=
  vec_With v ls (fun x => fadd (default f_zero x) f_one).

Definition hist_Observe (v : V (list float64)) (ls : list string) (x : float64) : go (V (list float64)) :=
  vec_With v ls (fun xs => (default [] xs ++ [x])%list).

(** The value of a counter's series. *)
Definition counter_at (v : V Z) (ls : list string) : Z := default 0 (vec_Get v ls).

(** A counter wraps after 2^64 increments. *)
Lemma counter_Inc_at v ls : labels_ok (vec_Labels v) ls -> 0 <= counter_at v ls < two64 - 1 ->
  exists v', counter_Inc v ls = Returns v' /\ vec_Labels v' = vec_Labels v /\
    forall ls', counter_at v' ls' = counter_at v ls' + b2z (bool_decide (ls = ls')).
Proof.
  unfold counter_at. intros Hl Hr. destruct (With_returns Z v ls (fun n => wrap_u64 (default 0 n + 1)) Hl) as (v' & E & El & Eg).
  exists v'. split; [exact E|]. split; [exact El|]. intros ls'. rewrite Eg. destruct (decide (ls = ls')) as [<-|Hne].
  - rewrite bool_decide_eq_true_2 by done. cbn [default from_option b2z]. unfold wrap_u64. rewrite Z.mod_small by lia. done.
  - rewrite bool_decide_eq_false_2 by done. cbn. lia.
Qed.
End Vectors.

(** ** The health service's gauges (services/health/metrics.go) *)

Section HealthMetrics.
Context {V : Type -> Type} `{Prometheus V}.

Record health_Metrics := mkHealthMetrics { hm_healthy : V float64; hm_age : V float64 }.

Definition health_names : list string := ["forge_workers_healthy"; "forge_worker_last_heartbeat_age_seconds"].

Definition health_NewMetrics {R} `{Registrar R} (reg : R) : go (health_Metrics * R) :=
  let! reg := register_all reg health_names in
  Returns (mkHealthMetrics (vec_New 2) (vec_New 3), reg).

(** Seconds since the worker's own timestamp, never negative. *)
Definition heartbeat_age (nowMs ts : Z) : float64 :=
  if 0 <? ts then
    let age := fdiv (f_of_Z (wrap_i64 (nowMs - ts))) (f_of_Z 1000) in
    if fltb age f_zero then f_zero else age
  else f_zero.

(** The calls [Publish] makes on the two vectors, one after another: each is
    atomic, [Publish] as a whole is not. *)
Inductive health_op : Type :=
| ResetHealthy
| ResetAge
| IncHealthy (base runtime : string)
| SetAge (id base runtime : string) (age : float64).

Definition apply_health_op (m : health_Metrics) (o : health_op) : go health_Metrics :=
  match o with
  | ResetHealthy => Returns (mkHealthMetrics (vec_Reset (hm_healthy m)) (hm_age m))
  | ResetAge => Returns (mkHealthMetrics (hm_healthy m) (vec_Reset (hm_age m)))
  | IncHealthy base runtime =>
      let! v := gauge_Inc (hm_healthy m) [base; runtime] in Returns (mkHealthMetrics v (hm_age m))
  | SetAge id base runtime age =>
      let! v := gauge_Set (hm_age m) [id; base; runtime] age in Returns (mkHealthMetrics (hm_healthy m) v)
  end.

Fixpoint apply_health_ops (m : health_Metrics) (os : list health_op) : go health_Metrics :=
  match os with
  | [] => Returns m
  | o :: rest => let! m := apply_health_op m o in apply_health_ops m rest
  end.

Definition publish_worker (nowMs : Z) (hb : Heartbeat) : list health_op :=
  [IncHealthy (BaseModel hb) (Runtime hb);
   SetAge (ID hb) (BaseModel hb) (Runtime hb) (heartbeat_age nowMs (TS hb))].

Definition publish_ops (nowMs : Z) (workers : list Heartbeat) : list health_op :=
  ResetHealthy :: ResetAge :: concat (publish_worker nowMs <$> workers).

Definition Publish (m : health_Metrics) (nowMs : Z) (workers : list Heartbeat) : go health_Metrics :=
  apply_health_ops m (publish_ops nowMs workers).

(** *** What the gauges show *)

Definition healthy_count (workers : list Heartbeat) (base runtime : string) : Z :=
  count (fun hb => String.eqb (BaseModel hb) base && String.eqb (Runtime hb) runtime) workers.

Definition labelled (hb : Heartbeat) : Prop := valid_utf8 (ID hb) /\ valid_utf8 (BaseModel hb) /\ valid_utf8 (Runtime hb).

(** The gauges after the first workers of a publication. *)
Record shows (nowMs : Z) (ws : list Heartbeat) (m : health_Metrics) : Prop := {
  sh_healthy_labels : vec_Labels (hm_healthy m) = 2%nat;
  sh_age_labels : vec_Labels (hm_age m) = 3%nat;
  sh_healthy : forall base runtime, vec_Get (hm_healthy m) [base; runtime] =
    if healthy_count ws base runtime =? 0 then None else Some (f_of_Z (healthy_count ws base runtime));
  sh_age : forall id base runtime age, vec_Get (hm_age m) [id; base; runtime] = Some age ->
    exists hb, hb ∈ ws /\ ID hb = id /\ BaseModel hb = base /\ Runtime hb = runtime /\ age = heartbeat_age nowMs (TS hb);
  sh_aged : forall hb, hb ∈ ws -> is_Some (vec_Get (hm_age m) [ID hb; BaseModel hb; Runtime hb])
}.

(** One more unit on a float that counts is exact below 2^53. *)
Lemma float_succ n : 0 <= n < 2 ^ 53 - 1 -> fadd (f_of_Z n) f_one = f_of_Z (n + 1).
Proof.
  intros Hn. destruct (f_of_Z_good n) as [Vn _]. destruct one_finite as [V1 F1].
  assert (finite (f_of_Z n)) as Fn by (apply f_of_Z_finite; lia).
  destruct (fadd_spec (f_of_Z n) f_one Vn V1 Fn F1) as (E & V' & N').
  assert (fval (fadd (f_of_Z n) f_one) = (n + 1) * one_val) as E'.
  { rewrite E, f_of_Z_exact, fval_one by lia. replace (n * one_val + one_val) with ((n + 1) * one_val) by ring.
    apply rndZ_int. lia. }
  apply fval_inj; [by split|apply f_of_Z_good|by rewrite f_of_Z_exact by lia|]. rewrite E'. pose proof one_val_pos. nia.
Qed.

Lemma healthy_count_snoc ws hb base runtime :
  healthy_count (ws ++ [hb]) base runtime =
    healthy_count ws base runtime + b2z (String.eqb (BaseModel hb) base && String.eqb (Runtime hb) runtime).
Proof. unfold healthy_count. rewrite count_app, count_cons, Z.add_assoc. apply Z.add_0_r. Qed.

Lemma published_worker nowMs ws hb m :
  Z.of_nat (length ws) < 2 ^ 53 - 1 -> labelled hb -> shows nowMs ws m ->
  exists m', apply_health_ops m (publish_worker nowMs hb) = Returns m' /\ shows nowMs (ws ++ [hb])%list m'.
Proof.
  intros Hlen (Uid & Ub & Ur) Hs. cbn [publish_worker apply_health_ops apply_health_op].
  destruct (With_returns float64 (hm_healthy m) [BaseModel hb; Runtime hb] (fun x => fadd (default f_zero x) f_one))
    as (v1 & E1 & L1 & G1).
  { rewrite (sh_healthy_labels _ _ _ Hs). split; [done|]. by repeat constructor. }
  unfold gauge_Inc. rewrite E1. cbn [hm_age hm_healthy].
  destruct (With_returns float64 (hm_age m) [ID hb; BaseModel hb; Runtime hb] (fun _ => heartbeat_age nowMs (TS hb)))
    as (v2 & E2 & L2 & G2).
  { rewrite (sh_age_labels _ _ _ Hs). split; [done|]. by repeat constructor. }
  unfold gauge_Set. rewrite E2. eexists. split; [reflexivity|]. split; cbn [hm_age hm_healthy].
  - by rewrite L1, (sh_healthy_labels _ _ _ Hs).
  - by rewrite L2, (sh_age_labels _ _ _ Hs).
  - intros base runtime. rewrite G1, healthy_count_snoc.
    pose proof (count_le_length (fun hb => String.eqb (BaseModel hb) base && String.eqb (Runtime hb) runtime) ws).
    pose proof (count_nonneg (fun hb => String.eqb (BaseModel hb) base && String.eqb (Runtime hb) runtime) ws).
    fold (healthy_count ws base runtime) in *. rewrite !(sh_healthy _ _ _ Hs).
    destruct (decide _) as [[= -> ->]|Hne].
    + rewrite !String.eqb_refl. cbn [andb b2z]. destruct (healthy_count ws base runtime =? 0) eqn:E; zbool.
      * rewrite E. reflexivity.
      * cbn [default from_option id]. rewrite float_succ by lia. by rewrite (proj2 (Z.eqb_neq _ _)) by lia.
    + destruct (String.eqb_spec (BaseModel hb) base), (String.eqb_spec (Runtime hb) runtime); cbn [andb b2z];
        try (by rewrite Z.add_0_r). by subst.
  - intros id base runtime age. rewrite G2. destruct (decide _) as [[= <- <- <-]|Hne].
    + intros [= <-]. exists hb. split; [apply elem_of_app; right; by apply list_elem_of_singleton|done].
    + intros Ha. destruct (sh_age _ _ _ Hs _ _ _ _ Ha) as (hb' & ? & Hr). exists hb'. split; [apply elem_of_app; by left|done].
  - intros hb' Hin. rewrite G2. destruct (decide _) as [|Hne]; [by eexists|].
    apply elem_of_app in Hin as [Hin| ->%list_elem_of_singleton]; [by apply (sh_aged _ _ _ Hs)|done].
Qed.

Lemma apply_health_ops_app m os os' :
  apply_health_ops m (os ++ os') = (let! m := apply_health_ops m os in apply_health_ops m os').
Proof. revert m. induction os as [|o os IH]; intros m; cbn; [done|]. by destruct (apply_health_op m o). Qed.

Lemma published_workers nowMs ws : forall done m,
  Z.of_nat (length done + length ws) < 2 ^ 53 -> Forall labelled ws -> shows nowMs done m ->
  exists m', apply_health_ops m (concat (publish_worker nowMs <$> ws)) = Returns m' /\ shows nowMs (done ++ ws)%list m'.
Proof.
  induction ws as [|hb ws IH]; intros done m Hlen Hl Hs; [exists m; by rewrite app_nil_r|].
  apply list.Forall_cons in Hl as [Hhb Hl]. cbn [length] in Hlen.
  destruct (published_worker nowMs done hb m) as (m1 & E1 & S1); [lia|done|done|].
  destruct (IH (done ++ [hb])%list m1) as (m2 & E2 & S2); [rewrite length_app; cbn; lia|done|done|].
  exists m2. rewrite <- app_assoc in S2. split; [|exact S2]. cbn [fmap list_fmap concat].
  by rewrite apply_health_ops_app, E1.
Qed.

Lemma publish_shows m nowMs ws :
  vec_Labels (hm_healthy m) = 2%nat -> vec_Labels (hm_age m) = 3%nat ->
  Z.of_nat (length ws) < 2 ^ 53 -> Forall labelled ws ->
  exists m', Publish m nowMs ws = Returns m' /\ shows nowMs ws m'.
Proof.
  intros L1 L2 Hlen Hl. unfold Publish, publish_ops. cbn [apply_health_ops apply_health_op hm_healthy hm_age].
  destruct (published_workers nowMs ws [] (mkHealthMetrics (vec_Reset (hm_healthy m)) (vec_Reset (hm_age m)))) as (m' & E & Hs);
    [cbn; lia|done| |by exists m'].
  split; cbn [hm_healthy hm_age].
  - by rewrite Reset_Labels.
  - by rewrite Reset_Labels.
  - intros. by rewrite Reset_Get.
  - intros *. by rewrite Reset_Get.
  - intros hb Hin. by apply elem_of_nil in Hin.
Qed.
End HealthMetrics.
Arguments health_Metrics V : clear implicits.

(** The labels of a heartbeat that was decoded are UTF-8. *)
Lemma unmarshal_labelled val hb : unmarshal val = Some hb -> labelled hb.
Proof.
  unfold unmarshal, unmarshal_into. destruct (parse val) as [d|] eqn:Ed; [|done]. apply parse_valid in Ed.
  apply (dec_struct_inv labelled); [|apply (bool_decide_unpack (valid_utf8 "" /\ valid_utf8 "" /\ valid_utf8 "")); vm_compute; exact I|done].
  intros name dec old d0 a Hin (H1 & H2 & H3) Hd0 Ea. unfold heartbeat_fields in Hin. rewrite !elem_of_cons in Hin.
  repeat (destruct Hin as [[= -> ->]|Hin]); [..|by apply elem_of_nil in Hin];
    match type of Ea with option_map _ ?o = _ => destruct o eqn:Ex; [|done] end; injection Ea as <-; try done;
    apply dec_string_valid in Ex; done.
Qed.

(** ** The other records of metrics

    A nil [*Metrics] is [None]; every method but those of the gateway's
    histograms and of the health and routing metrics checks for it. *)

Section Records.
Context {V : Type -> Type} `{Prometheus V}.

(** *** services/gateway/metrics.go *)

Record gateway_Metrics := mkGatewayMetrics {
  gm_duration : V (list float64);
  gm_ttft : V (list float64);
  gm_admitted : V Z;
  gm_rejected : V Z;
  gm_inflight : V float64
}.

Definition gateway_names : list string :=
  ["forge_gateway_request_duration_seconds"; "forge_gateway_ttft_seconds"; "forge_gateway_requests_admitted_total";
   "forge_gateway_requests_rejected_total"; "forge_worker_inflight"].

Definition gateway_NewMetrics {R} `{Registrar R} (reg : R) : go (gateway_Metrics * R) :=
  let! reg := register_all reg gateway_names in
  Returns (mkGatewayMetrics (vec_New 4) (vec_New 2) (vec_New 1) (vec_New 2) (vec_New 1), reg).

Definition FormatBool (b : bool) : string := if b then "true" else "false".

Definition ObserveDuration (m : option gateway_Metrics) (route model : string) (stream : bool) (status : Z) (seconds : float64)
    : go (option gateway_Metrics) :=
  match m with
  | None => Panics
  | Some m =>
      let! v := hist_Observe (gm_duration m) [route; model; FormatBool stream; Itoa status] seconds in
      Returns (Some (mkGatewayMetrics v (gm_ttft m) (gm_admitted m) (gm_rejected m) (gm_inflight m)))
  end.

Definition ObserveTTFT (m : option gateway_Metrics) (route model : string) (seconds : float64) : go (option gateway_Metrics) :=
  match m with
  | None => Panics
  | Some m =>
      let! v := hist_Observe (gm_ttft m) [route; model] seconds in
      Returns (Some (mkGatewayMetrics (gm_duration m) v (gm_admitted m) (gm_rejected m) (gm_inflight m)))
  end.

Definition IncAdmitted (m : option gateway_Metrics) (model : string) : go (option gateway_Metrics) :=
  match m with
  | None => Returns None
  | Some m =>
      let! v := counter_Inc (gm_admitted m) [model] in
      Returns (Some (mkGatewayMetrics (gm_duration m) (gm_ttft m) v (gm_rejected m) (gm_inflight m)))
  end.

Definition IncRejected (m : option gateway_Metrics) (model reason : string) : go (option gateway_Metrics) :=
  match m with
  | None => Returns None
  | Some m =>
      let! v := counter_Inc (gm_rejected m) [model; reason] in
      Returns (Some (mkGatewayMetrics (gm_duration m) (gm_ttft m) (gm_admitted m) v (gm_inflight m)))
  end.

Definition SetInflight (m : option gateway_Metrics) (workerID : string) (n : Z) : go (option gateway_Metrics) :=
  match m with
  | None => Returns None
  | Some m =>
      let! v := gauge_Set (gm_inflight m) [workerID] (f_of_Z n) in
      Returns (Some (mkGatewayMetrics (gm_duration m) (gm_ttft m) (gm_admitted m) (gm_rejected m) v))
  end.

(** *** services/gateway/reliability/metrics.go *)

Record reliability_Metrics := mkReliabilityMetrics { lm_breakerState : V float64; lm_failovers : V Z }.

Definition reliability_names : list string := ["forge_worker_circuit_breaker_state"; "forge_gateway_failover_total"].

Definition reliability_NewMetrics {R} `{Registrar R} (reg : R) : go (reliability_Metrics * R) :=
  let! reg := register_all reg reliability_names in
  Returns (mkReliabilityMetrics (vec_New 1) (vec_New 3), reg).

Definition state_number (s : State) : Z := match s with StateClosed => 0 | StateHalfOpen => 1 | StateOpen => 2 end.

Definition SetBreakerState (m : option reliability_Metrics) (workerID : string) (s : State) : go (option reliability_Metrics) :=
  match m with
  | None => Returns None
  | Some m =>
      let! v := gauge_Set (lm_breakerState m) [workerID] (f_of_Z (state_number s)) in
      Returns (Some (mkReliabilityMetrics v (lm_failovers m)))
  end.

Definition IncFailover (m : option reliability_Metrics) (from to reason : string) : go (option reliability_Metrics) :=
  match m with
  | None => Returns None
  | Some m =>
      let! v := counter_Inc (lm_failovers m) [from; to; reason] in
      Returns (Some (mkReliabilityMetrics (lm_breakerState m) v))
  end.

(** *** services/routing/metrics.go: two plain counters, and the age of the
    snapshot the holder has when it is scraped *)

Record routing_Metrics := mkRoutingMetrics { rm_decodeErrors : Z; rm_publishes : Z }.

Definition routing_names : list string :=
  ["forge_routing_snapshot_age_seconds"; "forge_routing_snapshot_decode_errors_total"; "forge_routing_snapshot_publishes_total"].

Definition routing_NewMetrics {R} `{Registrar R} (reg : R) : go (routing_Metrics * R) :=
  let! reg := register_all reg routing_names in Returns (mkRoutingMetrics 0 0, reg).

Definition IncDecodeError (m : routing_Metrics) : routing_Metrics :=
  mkRoutingMetrics (wrap_u64 (rm_decodeErrors m + 1)) (rm_publishes m).

Definition IncPublish (m : routing_Metrics) : routing_Metrics :=
  mkRoutingMetrics (rm_decodeErrors m) (wrap_u64 (rm_publishes m + 1)).

Definition snapshot_age (holder : option RoutingSnapshot) (now : Z) : float64 :=
  match holder with
  | None => S754_infinity false
  | Some s => Seconds (time_sub now (BuiltAt s))
  end.

(** *** services/scheduler/metrics.go *)

Record scheduler_Metrics := mkSchedulerMetrics {
  sm_dispatched : V Z;
  sm_filtered : V Z;
  sm_ewma : V float64;
  sm_score : V float64;
  sm_affinityHit : Z;
  sm_decisions : Z
}.

Definition scheduler_names : list string :=
  ["forge_scheduler_dispatched_total"; "forge_scheduler_filtered_total"; "forge_scheduler_worker_ewma_latency_ms";
   "forge_scheduler_score"; "forge_affinity_hits_total"; "forge_routing_decisions_total"].

Definition scheduler_NewMetrics {R} `{Registrar R} (reg : R) : go (scheduler_Metrics * R) :=
  let! reg := register_all reg scheduler_names in
  Returns (mkSchedulerMetrics (vec_New 2) (vec_New 1) (vec_New 1) (vec_New 1) 0 0, reg).

Definition IncDispatched (m : option scheduler_Metrics) (workerID model : string) : go (option scheduler_Metrics) :=
  match m with
  | None => Returns None
  | Some m =>
      let! v := counter_Inc (sm_dispatched m) [workerID; model] in
      Returns (Some (mkSchedulerMetrics v (sm_filtered m) (sm_ewma m) (sm_score m) (sm_affinityHit m) (sm_decisions m)))
  end.

Definition IncFiltered (m : option scheduler_Metrics) (reason : string) : go (option scheduler_Metrics) :=
  match m with
  | None => Returns None
  | Some m =>
      let! v := counter_Inc (sm_filtered m) [reason] in
      Returns (Some (mkSchedulerMetrics (sm_dispatched m) v (sm_ewma m) (sm_score m) (sm_affinityHit m) (sm_decisions m)))
  end.

Definition SetEWMA (m : option scheduler_Metrics) (workerID : string) (ms : float64) : go (option scheduler_Metrics) :=
  match m with
  | None => Returns None
  | Some m =>
      let! v := gauge_Set (sm_ewma m) [workerID] ms in
      Returns (Some (mkSchedulerMetrics (sm_dispatched m) (sm_filtered m) v (sm_score m) (sm_affinityHit m) (sm_decisions m)))
  end.

Definition SetScore (m : option scheduler_Metrics) (workerID : string) (score : float64) : go (option scheduler_Metrics) :=
  match m with
  | None => Returns None
  | Some m =>
      let! v := gauge_Set (sm_score m) [workerID] score in
      Returns (Some (mkSchedulerMetrics (sm_dispatched m) (sm_filtered m) (sm_ewma m) v (sm_affinityHit m) (sm_decisions m)))
  end.

Definition IncAffinityHit (m : option scheduler_Metrics) : option scheduler_Metrics :=
  (fun m => mkSchedulerMetrics (sm_dispatched m) (sm_filtered m) (sm_ewma m) (sm_score m) (wrap_u64 (sm_affinityHit m + 1)) (sm_decisions m)) <$> m.

Definition IncRoutingDecision (m : option scheduler_Metrics) : option scheduler_Metrics :=
  (fun m => mkSchedulerMetrics (sm_dispatched m) (sm_filtered m) (sm_ewma m) (sm_score m) (sm_affinityHit m) (wrap_u64 (sm_decisions m + 1))) <$> m.

(** *** services/fleet/metrics.go *)

Record fleet_Metrics := mkFleetMetrics { fm_scaleEvents : V Z; fm_desired : V float64; fm_ready : V float64 }.

Definition fleet_names : list string :=
  ["forge_fleet_scale_events_total"; "forge_fleet_desired_replicas"; "forge_fleet_ready_replicas"].

(** A nil registry registers nothing. *)
Definition fleet_NewMetrics {R} `{Registrar R} (reg : option R) : go (fleet_Metrics * option R) :=
  let m := mkFleetMetrics (vec_New 2) (vec_New 1) (vec_New 1) in
  match reg with
  | None => Returns (m, None)
  | Some reg => let! reg := register_all reg fleet_names in Returns (m, Some reg)
  end.

Definition IncScale (m : option fleet_Metrics) (model direction : string) : go (option fleet_Metrics) :=
  match m with
  | None => Returns None
  | Some m =>
      let! v := counter_Inc (fm_scaleEvents m) [model; direction] in
      Returns (Some (mkFleetMetrics v (fm_desired m) (fm_ready m)))
  end.

Definition fleet_SetDesired (m : option fleet_Metrics) (model : string) (n : Z) : go (option fleet_Metrics) :=
  match m with
  | None => Returns None
  | Some m =>
      let! v := gauge_Set (fm_desired m) [model] (f_of_Z n) in
      Returns (Some (mkFleetMetrics (fm_scaleEvents m) v (fm_ready m)))
  end.

Definition fleet_SetReady (m : option fleet_Metrics) (model : string) (n : Z) : go (option fleet_Metrics) :=
  match m with
  | None => Returns None
  | Some m =>
      let! v := gauge_Set (fm_ready m) [model] (f_of_Z n) in
      Returns (Some (mkFleetMetrics (fm_scaleEvents m) (fm_desired m) v))
  end.
End Records.
Arguments gateway_Metrics V : clear implicits.
Arguments reliability_Metrics V : clear implicits.
Arguments scheduler_Metrics V : clear implicits.
Arguments fleet_Metrics V : clear implicits.

(** ** The gauge of the circuit breakers

    The control plane gives the breakers a callback that sets the gauge; a
    breaker calls it, under the lock of the map, whenever its state changes. *)

Section BreakerGauge.
Context {V : Type -> Type} `{Prometheus V}.

(** The callback applied to the notifications in their order. *)
Fixpoint notify_all (m : option (reliability_Metrics V)) (log : list (string * State)) : go (option (reliability_Metrics V)) :=
  match log with
  | [] => Returns m
  | (w, s) :: rest => let! m := SetBreakerState m w s in notify_all m rest
  end.

(** What one operation adds to the notifications. *)
Definition notes (b : BreakerMap) (w : string) (o : Breaker.op) : list (string * State) :=
  let s' := state (Breaker.step (cfg b) (peek b w) o) in
  if bool_decide (state (peek b w) = s') then [] else [(w, s')].

Lemma run_op_log b w o : onState (run_op b w o) = (fun log => (log ++ notes b w o)%list) <$> onState b.
Proof.
  assert (forall l : option (list (string * State)), l = (fun log => (log ++ [])%list) <$> l) as Hnil
    by (intros [l|]; cbn; by rewrite ?app_nil_r).
  unfold notes. destruct (get_spec b w) as (b' & Eg & Hc & Hl & Hp).
  destruct o; cbn [run_op]; unfold Allow, Success, Failure, StateOf, open_now; rewrite Eg;
    destruct (peek b w) as [[] r f s hol at_]; cbn -[fleb fdiv f_of_Z time_sub]; unfold trips; rewrite ?Hc;
    repeat (cbn -[fleb fdiv f_of_Z time_sub]; first [rewrite <- Hl; done|case_if; cbn -[fleb fdiv f_of_Z time_sub] in *]);
    rewrite ?Hl; try done; try apply Hnil; zbool; try congruence.
Qed.

(** The last state a worker was notified with. *)
Definition last_note (log : list (string * State)) (w : string) : option State :=
  foldl (fun last '(w', s) => if String.eqb w' w then Some s else last) None log.

Lemma last_note_snoc log w' s w : last_note (log ++ [(w', s)]) w = if String.eqb w' w then Some s else last_note log w.
Proof. unfold last_note. by rewrite foldl_app. Qed.

Lemma notify_all_snoc m log w s : notify_all m (log ++ [(w, s)]) = (let! m := notify_all m log in SetBreakerState m w s).
Proof.
  revert m. induction log as [|[w' s'] log IH]; intros m; cbn; [by destruct (SetBreakerState m w s)|].
  by destruct (SetBreakerState m w' s').
Qed.

(** The gauge has the last notification of every worker. *)
Lemma notified_gauge m log :
  vec_Labels (lm_breakerState m) = 1%nat -> (forall w, vec_Get (lm_breakerState m) [w] = None) -> Forall valid_utf8 log.*1 ->
  exists m', notify_all (Some m) log = Returns (Some m') /\ vec_Labels (lm_breakerState m') = 1%nat /\
    forall w, vec_Get (lm_breakerState m') [w] = (fun s => f_of_Z (state_number s)) <$> last_note log w.
Proof.
  intros L G. induction log as [|[w s] log IH] using rev_ind; intros Hu; [by exists m|].
  rewrite fmap_app in Hu. apply Forall_app in Hu as [Hu Hw]. cbn in Hw.
  destruct (IH Hu) as (m1 & E1 & L1 & G1). rewrite notify_all_snoc, E1. cbn [SetBreakerState].
  destruct (With_returns float64 (lm_breakerState m1) [w] (fun _ => f_of_Z (state_number s))) as (v & E & Lv & Gv).
  { rewrite L1. by split. }
  unfold gauge_Set. rewrite E. eexists. split; [reflexivity|]. cbn [lm_breakerState]. split; [congruence|].
  intros w'. rewrite Gv, last_note_snoc. destruct (String.eqb_spec w w') as [<-|Hne].
  - by rewrite decide_True.
  - by rewrite decide_False by congruence.
Qed.

Record noted (b : BreakerMap) (log : list (string * State)) (ids : list string) : Prop := {
  nt_log : onState b = Some log;
  nt_state : forall w, default StateClosed (last_note log w) = state (peek b w);
  nt_ids : Forall (fun w => w ∈ ids) log.*1
}.

Lemma noted_run_op b log ids w o : noted b log ids -> w ∈ ids -> noted (run_op b w o) (log ++ notes b w o) ids.
Proof.
  intros [Hl Hs Hi] Hw. split.
  - by rewrite run_op_log, Hl.
  - intros w'. destruct (run_op_peek b w o w') as [_ ->]. unfold notes. case_bool_decide as E.
    + rewrite app_nil_r, Hs. case_decide; [by subst w'|done].
    + rewrite last_note_snoc. destruct (String.eqb_spec w w') as [<-|]; [by rewrite decide_True|by rewrite decide_False].
  - rewrite fmap_app. apply Forall_app. split; [done|]. unfold notes. case_bool_decide; [constructor|by repeat constructor].
Qed.

(** A worker without a notification has been in the closed state all along. *)
Lemma noted_run_ops c os :
  exists log, noted (run_ops (NewBreakerMap c true) os) log os.*1 /\
    forall w, last_note log w = None -> forall k, state (peek (run_ops (NewBreakerMap c true) (take k os)) w) = StateClosed.
Proof.
  induction os as [|[w o] os (log & Hn & Hc)] using rev_ind.
  - assert (noted (NewBreakerMap c true) [] []) as Hn.
    { split; [done| |constructor]. intros w. unfold peek. cbn [NewBreakerMap breakers]. by rewrite lookup_empty. }
    exists []. split; [done|]. intros w _ k. rewrite take_nil. symmetry. apply (nt_state _ _ _ Hn w).
  - exists (log ++ notes (run_ops (NewBreakerMap c true) os) w o)%list.
    assert (noted (run_ops (NewBreakerMap c true) (os ++ [(w, o)])%list) (log ++ notes (run_ops (NewBreakerMap c true) os) w o) (os ++ [(w, o)])%list.*1) as Hn'.
    { unfold run_ops at 1. rewrite foldl_app. cbn [foldl]. apply noted_run_op; [|rewrite fmap_app; set_solver].
      destruct Hn as [? ? Hi]. split; [done|done|]. eapply list.Forall_impl; [exact Hi|]. intros x Hx. rewrite fmap_app. set_solver. }
    split; [done|]. intros w' Hw k. destruct (decide (k <= length os)%nat) as [Hk|Hk].
    + rewrite take_app_le by done. apply Hc. revert Hw. unfold notes. case_bool_decide; [by rewrite app_nil_r|].
      rewrite last_note_snoc. by case_if.
    + rewrite take_ge by (rewrite length_app; cbn; lia). rewrite <- (nt_state _ _ _ Hn' w'). by rewrite Hw.
Qed.
End BreakerGauge.

(** C15: the gauge of the circuit breakers shows their states: the callback of
    the control plane, run on the notifications of any sequence of operations
    on the breakers of workers whose ids are UTF-8, does not panic, and leaves
    for every worker either a series with the number of its breaker's present
    state, or no series when its breaker has never left the closed state. *)
Theorem breaker_gauge_tracks_state {V : Type -> Type} `{Prometheus V} {R} `{Registrar R} (reg reg' : R) m c os :
  reliability_NewMetrics reg = Returns (m, reg') -> Forall valid_utf8 os.*1 ->
  exists log m', onState (run_ops (NewBreakerMap c true) os) = Some log /\
    notify_all (Some m) log = Returns (Some m') /\
    forall w, match vec_Get (lm_breakerState m') [w] with
      | Some x => x = f_of_Z (state_number (state (peek (run_ops (NewBreakerMap c true) os) w)))
      | None => forall k, state (peek (run_ops (NewBreakerMap c true) (take k os)) w) = StateClosed
      end.
Proof.
  unfold reliability_NewMetrics. intros Hm Hu. destruct (register_all reg reliability_names); [|done]. injection Hm as <- _.
  destruct (noted_run_ops c os) as (log & [Hl Hs Hi] & Hc).
  destruct (notified_gauge (mkReliabilityMetrics (vec_New 1) (vec_New 3)) log) as (m' & E & _ & G).
  - apply New_Labels.
  - intros w. apply New_Get.
  - eapply list.Forall_impl; [exact Hi|]. intros w Hw. by eapply list.Forall_forall in Hu.
  - exists log, m'. split; [done|]. split; [done|]. intros w. rewrite G. specialize (Hs w).
    destruct (last_note log w) as [s|] eqn:El; cbn in *; [by rewrite Hs|]. by apply Hc.
Qed.

(** ** Registration *)

Lemma concat_perm {A} (l l' : list (list A)) : l ≡ₚ l' -> concat l ≡ₚ concat l'.
Proof.
  induction 1 as [|x l l' _ IH|x y l|]; cbn; [done|by rewrite IH| |by etrans].
  by rewrite !app_assoc, (Permutation_app_comm x y).
Qed.

Section Registration.
Context {R : Type} `{Registrar R}.

Lemma register_all_returns names : forall r, NoDup names -> (forall n, n ∈ names -> n ∉ reg_Names r) ->
  exists r', register_all r names = Returns r' /\ reg_Names r' = (reverse names ++ reg_Names r)%list.
Proof.
  induction names as [|n names IH]; intros r Hnd Hnew; [by exists r|]. apply list.NoDup_cons in Hnd as [Hn Hnd].
  cbn [register_all]. destruct (MustRegister_new r n) as (r1 & E1 & N1); [apply Hnew; by left|]. rewrite E1.
  destruct (IH r1 Hnd) as (r2 & E2 & N2).
  - intros n' Hn'. rewrite N1, not_elem_of_cons. split; [by intros ->|]. apply Hnew. by right.
  - exists r2. split; [exact E2|]. rewrite N2, N1, reverse_cons, <- app_assoc. done.
Qed.

(** The groups of names the control plane registers, one per constructor: the
    six records above, the cache registry's and the program's own. *)
Definition controlplane_groups : list (list string) :=
  [gateway_names; reliability_names; routing_names; scheduler_names; fleet_names; health_names;
   ["forge_cache_events_total"]; ["forge_controlplane_build_info"]].
End Registration.

(** Whatever the order in which the container runs the constructors, no
    registration of the control plane panics. *)
Theorem controlplane_registers_all {R} `{Registrar R} groups :
  groups ≡ₚ controlplane_groups -> exists r, register_all reg_New (concat groups) = Returns r.
Proof.
  intros Hp. destruct (register_all_returns (concat groups) reg_New) as (r & E & _); [| |by exists r].
  - rewrite (concat_perm _ _ Hp). apply (bool_decide_unpack _). vm_compute. exact I.
  - intros n _. rewrite reg_New_Names. apply not_elem_of_nil.
Qed.

(** *** Witnesses *)

Record series (A : Type) := mkSeries { arity : nat; values : gmap (list string) A }.
Arguments mkSeries {A}. Arguments arity {A}. Arguments values {A}.

#[export] Instance map_vectors : Prometheus series.
Proof.
  refine {| vec_New _ n := mkSeries n ∅; vec_Labels _ v := arity v; vec_Get _ v ls := values v !! ls;
            vec_With _ v ls f := if decide (labels_ok (arity v) ls)
              then Returns (mkSeries (arity v) (<[ls := f (values v !! ls)]> (values v))) else Panics;
            vec_Reset _ v := mkSeries (arity v) ∅ |}; intros; cbn; try done.
  - by rewrite decide_False.
  - rewrite decide_True by done. eexists. split; [reflexivity|]. split; [done|]. intros ls'. cbn. apply lookup_insert.
Defined.

#[export] Instance list_registry : Registrar (list string).
Proof.
  refine {| reg_New := []; reg_Names r := r; MustRegister r n := if decide (n ∈ r) then Panics else Returns (n :: r) |}.
  - done.
  - intros r n Hn. rewrite decide_False by done. by eexists.
  - intros r n Hn. by rewrite decide_True.
Defined.

(** Ten failures open the breaker of a worker; another has only been asked. *)
Definition ten_failures : list (string * Breaker.op) := (replicate 10 ("w1", OpFailure 5) ++ [("w2", OpAllow 6)])%list.

Lemma breaker_gauge_tracks_state_witness :
  exists m', notify_all (Some (mkReliabilityMetrics (vec_New (V := series) 1) (vec_New 3))) [("w1", StateOpen)] = Returns (Some m') /\
    vec_Get (lm_breakerState m') ["w1"] = Some (f_of_Z 2).
Proof.
  destruct (breaker_gauge_tracks_state (V := series) (R := list string) [] (reverse reliability_names)
    (mkReliabilityMetrics (vec_New 1) (vec_New 3)) DefaultBreakerConfig ten_failures) as (log & m' & El & Em & Hw).
  - vm_compute. reflexivity.
  - apply (bool_decide_unpack _). vm_compute. exact I.
  - assert (log = [("w1", StateOpen)]) as ->. { vm_compute in El. by injection El as <-. }
    exists m'. split; [exact Em|]. vm_compute in Em. injection Em as <-. vm_compute. reflexivity.
Defined.

Lemma controlplane_registers_all_witness : exists r, register_all (R := list string) reg_New (concat controlplane_groups) = Returns r.
Proof. apply controlplane_registers_all. reflexivity. Defined.
