(* ===== verification/HealthService.v ===== *)
(** * The running health service (services/health/deriver.go)

    The service of Health.v with its gauges.  Its two goroutines, the loop of
    reconciliations and the listener of keyspace events, change the snapshot
    and then publish the gauges without a lock: a step of the model is one
    change of the snapshot, one listing of it, or one call on a gauge, of
    either goroutine, so that publications can overlap.  A key that cannot
    label a series makes a step panic. *)

From Stdlib Require Import Ascii.
From S2P Require Import Prelude Float64 Rounding FloatRange GoStrings GoFormat Json JsonDecode Strconv JsonFloat Errors Health HeartbeatWriter Routing Metrics.

(** [listenKeyevents] on one message: the snapshot, and whether the gauges are
    published. *)
Definition observe_event (rget : string -> reply) (s : Snapshot) (channel payload : string) : go (Snapshot * bool) :=
  match WorkerIDFromKey payload with
  | Panics => Panics
  | Returns None => Returns (s, false)
  | Returns (Some id) =>
      if HasSuffix channel ":expired" || HasSuffix channel ":del" then Returns (Remove s id, true)
      else if HasSuffix channel ":set" then
        match rget (Key id) with
        | RedisNil => Returns (Remove s id, true)
        | RedisErr _ => Returns (s, false)
        | Value val =>
            match unmarshal val with
            | None => Returns (s, false)
            | Some hb => Returns (Upsert s (if String.eqb (ID hb) "" then set_ID hb id else hb), true)
            end
        end
      else Returns (s, false)
  end.

Section Running.
Context {V : Type -> Type} `{Prometheus V}.

Record health_Service := mkHealthService {
  hs_snapshot : Snapshot;
  hs_metrics : health_Metrics V;
  hs_reconcile : Z
}.

Definition health_NewService (m : health_Metrics V) (reconcileInterval : Z) : health_Service :=
  mkHealthService NewSnapshot m (if reconcileInterval <=? 0 then 3 * second else reconcileInterval).

(** The service with another snapshot, published: [all] is the order in which
    the map was ranged over. *)
Definition publish_snapshot (svc : health_Service) (s : Snapshot) (nowMs : Z) (all : list Heartbeat) : go health_Service :=
  let! m := Publish (hs_metrics svc) nowMs all in Returns (mkHealthService s m (hs_reconcile svc)).

(** Redis at one moment. *)
Record redis_view := mkView { rv_scan : Z -> result error (list string * Z); rv_get : string -> reply }.

(** The keys of heartbeats are those of worker ids in UTF-8. *)
Definition utf8_key (k : string) : Prop := forall id, k = Key id -> valid_utf8 id.

Definition utf8_view (v : redis_view) : Prop :=
  forall cursor keys next, rv_scan v cursor = Ok (keys, next) -> Forall utf8_key keys.

(** Where a goroutine is: it waits for its next tick or message, it has changed
    the snapshot and is about to list it, or it is publishing and has these
    calls on the gauges left. *)
Inductive publisher : Type :=
| Waiting
| Listing
| Publishing (os : list health_op).

Inductive publishing_goroutine : Type := ReconcileLoop | KeyeventListener.

#[export] Instance publishing_goroutine_eq_dec : EqDecision publishing_goroutine.
Proof. solve_decision. Defined.

Record running := mkRunning { rn_service : health_Service; rn_at : publishing_goroutine -> publisher }.

Definition rn_snapshot (r : running) : Snapshot := hs_snapshot (rn_service r).
Definition rn_metrics (r : running) : health_Metrics V := hs_metrics (rn_service r).

(** [g] moves on, with the snapshot and the gauges it leaves. *)
Definition moved (r : running) (g : publishing_goroutine) (p : publisher) (s : Snapshot) (m : health_Metrics V) : running :=
  mkRunning (mkHealthService s m (hs_reconcile (rn_service r))) (fun g' => if decide (g' = g) then p else rn_at r g').

Definition after_call (os : list health_op) : publisher := match os with [] => Waiting | _ => Publishing os end.

(** [Start]: an error of the reconciliation is logged, the gauges are
    published all the same, and only then the two goroutines begin. *)
Inductive health_Start (svc : health_Service) (v : redis_view) : go running -> Prop :=
| started fuel s nowMs all :
    (reconcileOnce unmarshal (rv_scan v) (rv_get v) fuel (hs_snapshot svc) = Some (Returns (Ok s)) \/
     exists e, reconcileOnce unmarshal (rv_scan v) (rv_get v) fuel (hs_snapshot svc) = Some (Returns (Err e)) /\ s = hs_snapshot svc) ->
    all ≡ₚ All s ->
    health_Start svc v (let! svc' := publish_snapshot svc s nowMs all in Returns (mkRunning svc' (fun _ => Waiting)))
| start_panicked fuel :
    reconcileOnce unmarshal (rv_scan v) (rv_get v) fuel (hs_snapshot svc) = Some Panics -> health_Start svc v Panics.

(** What happens to the running service: a tick of [reconcileLoop], with Redis
    as its reconciliation reads it; a message for [listenKeyevents]; a goroutine
    lists the snapshot, in some order, and reads the clock; a goroutine makes
    its next call on a gauge. *)
Inductive health_event : Type :=
| Ticked (v : redis_view)
| Message (rget : string -> reply) (channel payload : string)
| Listed (g : publishing_goroutine) (nowMs : Z) (all : list Heartbeat)
| Called (g : publishing_goroutine).

(** A panic in a goroutine ends the process. *)
Inductive health_step (r : running) : health_event -> go running -> Prop :=
| reconciled v fuel s :
    rn_at r ReconcileLoop = Waiting ->
    reconcileOnce unmarshal (rv_scan v) (rv_get v) fuel (rn_snapshot r) = Some (Returns (Ok s)) ->
    health_step r (Ticked v) (Returns (moved r ReconcileLoop Listing s (rn_metrics r)))
| reconcile_failed v fuel e :
    rn_at r ReconcileLoop = Waiting ->
    reconcileOnce unmarshal (rv_scan v) (rv_get v) fuel (rn_snapshot r) = Some (Returns (Err e)) ->
    health_step r (Ticked v) (Returns r)
| reconcile_panicked v fuel :
    rn_at r ReconcileLoop = Waiting ->
    reconcileOnce unmarshal (rv_scan v) (rv_get v) fuel (rn_snapshot r) = Some Panics ->
    health_step r (Ticked v) Panics
| event_applied rget channel payload s (publishes : bool) :
    rn_at r KeyeventListener = Waiting ->
    observe_event rget (rn_snapshot r) channel payload = Returns (s, publishes) ->
    health_step r (Message rget channel payload)
      (Returns (moved r KeyeventListener (if publishes then Listing else Waiting) s (rn_metrics r)))
| event_panicked rget channel payload :
    rn_at r KeyeventListener = Waiting ->
    observe_event rget (rn_snapshot r) channel payload = Panics ->
    health_step r (Message rget channel payload) Panics
| snapshot_listed g nowMs all :
    rn_at r g = Listing -> all ≡ₚ All (rn_snapshot r) ->
    health_step r (Listed g nowMs all) (Returns (moved r g (Publishing (publish_ops nowMs all)) (rn_snapshot r) (rn_metrics r)))
| gauge_called g o os :
    rn_at r g = Publishing (o :: os) ->
    health_step r (Called g)
      (let! m := apply_health_op (rn_metrics r) o in Returns (moved r g (after_call os) (rn_snapshot r) m)).

(** The runs of the service whose states all satisfy [ok]. *)
Inductive health_run (ok : running -> Prop) (r : running) : list health_event -> go running -> Prop :=
| run_done : ok r -> health_run ok r [] (Returns r)
| run_next ev r1 evs out : ok r -> health_step r ev (Returns r1) -> health_run ok r1 evs out -> health_run ok r (ev :: evs) out
| run_panicked ev evs : ok r -> health_step r ev Panics -> health_run ok r (ev :: evs) Panics.

(** *** What the property is about *)

(** Not both goroutines are between a change of the snapshot and the end of
    its publication. *)
Definition apart (r : running) : Prop := rn_at r ReconcileLoop = Waiting \/ rn_at r KeyeventListener = Waiting.

Definition idle (r : running) : Prop := forall g, rn_at r g = Waiting.

(** One goroutine has just changed the snapshot, the other waits. *)
Definition just_changed (r : running) : Prop := exists g, rn_at r g = Listing /\ forall g', g' <> g -> rn_at r g' = Waiting.

(** The keys of an event label a series: an id between the prefix and the
    suffix, if there is one, is UTF-8, and the two do not run into each other. *)
Definition labelling_key (k : string) : Prop := WorkerIDFromKey k <> Panics /\ utf8_key k.

Definition labelling_view (v : redis_view) : Prop :=
  forall cursor keys next, rv_scan v cursor = Ok (keys, next) -> Forall labelling_key keys.

Definition labelling (ev : health_event) : Prop :=
  match ev with
  | Ticked v => labelling_view v
  | Message _ _ payload => labelling_key payload
  | _ => True
  end.

(** The gauges are those of the snapshot: the counts, the series of the ages,
    and no negative age. *)
Definition gauges_show (s : Snapshot) (m : health_Metrics V) : Prop :=
  (forall base runtime, vec_Get (hm_healthy m) [base; runtime] =
     if healthy_count (All s) base runtime =? 0 then None else Some (f_of_Z (healthy_count (All s) base runtime))) /\
  (forall id base runtime, is_Some (vec_Get (hm_age m) [id; base; runtime]) <->
     exists hb, hb ∈ All s /\ ID hb = id /\ BaseModel hb = base /\ Runtime hb = runtime) /\
  (forall id base runtime age, vec_Get (hm_age m) [id; base; runtime] = Some age -> fltb age f_zero = false).

(** ** Lemmas *)

Lemma observe_event_handle rget s channel payload :
  handleEvent unmarshal rget s channel payload = (let! r := observe_event rget s channel payload in Returns r.1).
Proof.
  unfold handleEvent, observe_event, applySet. destruct (WorkerIDFromKey payload) as [[id|]|]; [|done|done].
  case_if; [done|]. case_if; [|done]. destruct (rget (Key id)) as [val| |]; [|done|done]. by destruct (unmarshal val).
Qed.

Lemma ignored_unchanged rget s channel payload s' : observe_event rget s channel payload = Returns (s', false) -> s' = s.
Proof.
  unfold observe_event. destruct (WorkerIDFromKey payload) as [[id|]|]; [|by intros [= <-]|done].
  case_if; [done|]. case_if; [|by intros [= <-]]. destruct (rget (Key id)) as [val| |]; [|done|by intros [= <-]].
  destruct (unmarshal val); [done|by intros [= <-]].
Qed.

(** Every heartbeat of the snapshot can label a series. *)
Definition labelled_all (s : Snapshot) : Prop := map_Forall (fun _ => labelled) s.

Lemma labelled_decoded hb id : labelled hb -> valid_utf8 id -> labelled (if String.eqb (ID hb) "" then set_ID hb id else hb).
Proof. intros (? & ? & ?) Hid. case_if; by repeat split. Qed.

Lemma labelled_reconcileKeys rget live keys live' :
  Forall utf8_key keys -> labelled_all live -> reconcileKeys unmarshal rget live keys = Returns (Ok live') -> labelled_all live'.
Proof.
  revert live. induction keys as [|k keys IH]; intros live Hk Hl; cbn; [by intros [= <-]|].
  apply list.Forall_cons in Hk as [Hk Hks].
  destruct (reconcileKey unmarshal rget live k) as [[live1|]|] eqn:E; [|done|done]. apply IH; [done|].
  unfold reconcileKey in E. destruct (rget k) as [val| |]; [|by simplify_eq|done].
  destruct (unmarshal val) as [hb|] eqn:Eu; [|by simplify_eq]. apply unmarshal_labelled in Eu.
  destruct (String.eqb (ID hb) "") eqn:Eid.
  - destruct (WorkerIDFromKey k) as [[id|]|] eqn:Ew; [|by simplify_eq|done]. apply WorkerIDFromKey_inv in Ew as [-> _].
    simplify_eq. apply map_Forall_insert_2; [|done]. pose proof (labelled_decoded hb id Eu (Hk id eq_refl)) as Hd. by rewrite Eid in Hd.
  - simplify_eq. by apply map_Forall_insert_2.
Qed.

Lemma labelled_reconcileOnce v fuel s s' :
  utf8_view v -> reconcileOnce unmarshal (rv_scan v) (rv_get v) fuel s = Some (Returns (Ok s')) -> labelled_all s'.
Proof.
  intros Hv. unfold reconcileOnce.
  assert (forall cursor live, labelled_all live -> forall live',
    reconcileScan unmarshal (rv_scan v) (rv_get v) fuel cursor live = Some (Returns (Ok live')) -> labelled_all live') as Hs.
  { induction fuel as [|fuel IH]; intros cursor live Hl live'; cbn [reconcileScan]; [done|].
    destruct (rv_scan v cursor) as [[keys next]|] eqn:Es; [|done]. apply Hv in Es.
    destruct (reconcileKeys unmarshal (rv_get v) live keys) as [[live1|]|] eqn:E; [|done|done].
    eapply labelled_reconcileKeys in E; [|done|done]. case_if; [by intros [= <-]|by apply IH]. }
  destruct (reconcileScan _ _ _ _ _ _) as [[[live|]|]|] eqn:E; [|done|done|done]. intros [= <-].
  eapply Hs; [|exact E]. apply map_Forall_empty.
Qed.

Lemma labelled_event rget s channel payload s' b :
  utf8_key payload -> labelled_all s -> observe_event rget s channel payload = Returns (s', b) -> labelled_all s'.
Proof.
  intros Hk Hs. unfold observe_event. destruct (WorkerIDFromKey payload) as [[id|]|] eqn:Ew; [|by intros [= <- _]|done].
  apply WorkerIDFromKey_inv in Ew as [-> _].
  case_if; [intros [= <- _]; by apply map_Forall_delete|]. case_if; [|by intros [= <- _]].
  destruct (rget (Key id)) as [val| |]; [|intros [= <- _]; by apply map_Forall_delete|by intros [= <- _]].
  destruct (unmarshal val) as [hb|] eqn:Eu; [|by intros [= <- _]]. intros [= <- _]. apply unmarshal_labelled in Eu.
  apply map_Forall_insert_2; [|done]. apply labelled_decoded; [done|]. by apply Hk.
Qed.

Lemma labelled_list s all : labelled_all s -> all ≡ₚ All s -> Forall labelled all.
Proof.
  intros Hs Hp. rewrite Hp. unfold All. apply list.Forall_fmap. apply map_Forall_to_list in Hs.
  eapply list.Forall_impl; [exact Hs|]. by intros [].
Qed.

Lemma healthy_count_perm ws ws' base runtime : ws ≡ₚ ws' -> healthy_count ws base runtime = healthy_count ws' base runtime.
Proof. apply count_perm. Qed.

Lemma publish_returns svc s nowMs all :
  vec_Labels (hm_healthy (hs_metrics svc)) = 2%nat -> vec_Labels (hm_age (hs_metrics svc)) = 3%nat ->
  labelled_all s -> Z.of_nat (size s) < 2 ^ 53 -> all ≡ₚ All s ->
  exists svc', publish_snapshot svc s nowMs all = Returns svc' /\ hs_snapshot svc' = s /\ shows nowMs all (hs_metrics svc').
Proof.
  intros L1 L2 Hs Hsz Hp. destruct (publish_shows (hs_metrics svc) nowMs all L1 L2) as (m & E & Hm).
  - rewrite Hp. unfold All. by rewrite length_fmap, length_map_to_list.
  - by eapply labelled_list.
  - unfold publish_snapshot. rewrite E. by eexists.
Qed.

Lemma utf8_labelling_view v : labelling_view v -> utf8_view v.
Proof. intros Hv cursor keys next E. apply Hv in E. eapply list.Forall_impl; [exact E|]. by intros k []. Qed.

Lemma reconcileKeys_returns rget live keys :
  Forall labelling_key keys -> reconcileKeys unmarshal rget live keys <> Panics.
Proof.
  revert live. induction keys as [|k keys IH]; intros live Hk; cbn; [done|]. apply list.Forall_cons in Hk as [[Hk _] Hks].
  assert (reconcileKey unmarshal rget live k <> Panics) as Hne.
  { unfold reconcileKey. destruct (rget k) as [val| |]; [|done|done]. destruct (unmarshal val); [|done]. case_if; [|done].
    by destruct (WorkerIDFromKey k) as [[]|]. }
  destruct (reconcileKey unmarshal rget live k) as [[live1|]|]; [by apply IH|done|done].
Qed.

Lemma reconcileOnce_returns v fuel s : labelling_view v -> reconcileOnce unmarshal (rv_scan v) (rv_get v) fuel s <> Some Panics.
Proof.
  intros Hv. unfold reconcileOnce.
  assert (forall cursor live, reconcileScan unmarshal (rv_scan v) (rv_get v) fuel cursor live <> Some Panics) as Hs.
  { induction fuel as [|fuel IH]; intros cursor live; cbn [reconcileScan]; [done|].
    destruct (rv_scan v cursor) as [[keys next]|] eqn:Es; [|done]. apply Hv in Es.
    pose proof (reconcileKeys_returns (rv_get v) live keys Es) as Hk.
    destruct (reconcileKeys unmarshal (rv_get v) live keys) as [[live1|]|]; [|done|done]. by case_if. }
  specialize (Hs 0 ∅). by destruct (reconcileScan _ _ _ _ _ _) as [[[]|]|].
Qed.

Lemma observe_event_returns rget s channel payload : labelling_key payload -> observe_event rget s channel payload <> Panics.
Proof.
  intros [Hk _]. unfold observe_event. destruct (WorkerIDFromKey payload) as [[id|]|]; [|done|done].
  case_if; [done|]. case_if; [|done]. destruct (rget (Key id)) as [val| |]; [|done|done]. by destruct (unmarshal val).
Qed.

(** *** No step panics *)

Definition op_labelled (o : health_op) : Prop :=
  match o with
  | IncHealthy base runtime => valid_utf8 base /\ valid_utf8 runtime
  | SetAge id base runtime _ => valid_utf8 id /\ valid_utf8 base /\ valid_utf8 runtime
  | _ => True
  end.

Definition two_three (m : health_Metrics V) : Prop := vec_Labels (hm_healthy m) = 2%nat /\ vec_Labels (hm_age m) = 3%nat.

Lemma publish_ops_labelled nowMs all : Forall labelled all -> Forall op_labelled (publish_ops nowMs all).
Proof.
  intros Hl. unfold publish_ops. repeat (apply list.Forall_cons; split; [done|]).
  induction Hl as [|hb all (? & ? & ?) _ IH]; [constructor|]. cbn. by repeat (apply list.Forall_cons; split; [by repeat split|]).
Qed.

Lemma apply_health_op_returns m o : two_three m -> op_labelled o -> exists m', apply_health_op m o = Returns m' /\ two_three m'.
Proof.
  intros [L1 L2] Ho. destruct o as [| |base runtime|id base runtime age]; cbn in *.
  - eexists. split; [reflexivity|]. split; cbn; [by rewrite Reset_Labels|done].
  - eexists. split; [reflexivity|]. split; cbn; [done|by rewrite Reset_Labels].
  - destruct (With_returns float64 (hm_healthy m) [base; runtime] (fun x => fadd (default f_zero x) f_one)) as (w & E & L & _).
    { rewrite L1. split; [done|]. destruct Ho. by repeat constructor. }
    unfold gauge_Inc. rewrite E. eexists. split; [reflexivity|]. split; cbn; congruence.
  - destruct (With_returns float64 (hm_age m) [id; base; runtime] (fun _ => age)) as (w & E & L & _).
    { rewrite L2. split; [done|]. destruct Ho as (? & ? & ?). by repeat constructor. }
    unfold gauge_Set. rewrite E. eexists. split; [reflexivity|]. split; cbn; congruence.
Qed.

Lemma apply_health_ops_returns os : forall m,
  two_three m -> Forall op_labelled os -> exists m', apply_health_ops m os = Returns m' /\ two_three m'.
Proof.
  induction os as [|o os IH]; intros m Hm Ho; [by exists m|]. apply list.Forall_cons in Ho as [Ho Hos].
  destruct (apply_health_op_returns m o Hm Ho) as (m1 & E & Hm1). cbn. rewrite E. by apply IH.
Qed.

(** Under every interleaving. *)
Record sound (r : running) : Prop := {
  so_labelled : labelled_all (rn_snapshot r);
  so_metrics : two_three (rn_metrics r);
  so_ops : forall g os, rn_at r g = Publishing os -> Forall op_labelled os
}.

Lemma gauge_called_returns r g o os m :
  rn_at r g = Publishing (o :: os) -> apply_health_op (rn_metrics r) o = Returns m ->
  health_step r (Called g) (Returns (moved r g (after_call os) (rn_snapshot r) m)).
Proof. intros Hg E. pose proof (gauge_called r g o os Hg) as Hs. by rewrite E in Hs. Qed.

Lemma sound_moved r g p s m :
  sound r -> labelled_all s -> two_three m -> (forall os, p = Publishing os -> Forall op_labelled os) -> sound (moved r g p s m).
Proof.
  intros [_ _ Ho] Hs Hm Hp. split; [done|done|]. intros g' os. cbn. case_decide; [apply Hp|apply Ho].
Qed.

Lemma sound_step r ev out : sound r -> labelling ev -> health_step r ev out -> exists r', out = Returns r' /\ sound r'.
Proof.
  intros Hr Hev Hstep. destruct (Hr) as [Hl Hm Ho].
  destruct Hstep as [v fuel s Hw Er|v fuel e Hw Er|v fuel Hw Er|rget channel payload s b Hw Er|rget channel payload Hw Er|g nowMs all Hg Hp|g o os Hg].
  - eexists. split; [done|]. apply sound_moved; [done| |done|done]. eapply labelled_reconcileOnce; [|exact Er]. by apply utf8_labelling_view.
  - by eexists.
  - by apply reconcileOnce_returns in Er.
  - eexists. split; [done|]. apply sound_moved; [done| |done|by destruct b]. destruct Hev. by eapply labelled_event.
  - by apply observe_event_returns in Er.
  - eexists. split; [done|]. apply sound_moved; [done..|]. intros os [= <-]. apply publish_ops_labelled. by eapply labelled_list.
  - pose proof (Ho g _ Hg) as Hos. apply list.Forall_cons in Hos as [Ho1 Hos]. destruct (apply_health_op_returns _ o Hm Ho1) as (m & E & Hm').
    rewrite E. eexists. split; [done|]. apply sound_moved; [done..|]. destruct os; intros os' E'; [done|by injection E' as <-].
Qed.

Lemma sound_run ok r evs out : health_run ok r evs out -> sound r -> Forall labelling evs -> exists r', out = Returns r' /\ sound r'.
Proof.
  induction 1 as [r Hr|r ev r1 evs out Hr Hs _ IH|r ev evs Hr Hs]; intros Hsound Hev; [by exists r| |];
    apply list.Forall_cons in Hev as [Hev Hevs]; destruct (sound_step _ _ _ Hsound Hev Hs) as (r' & E & Hr'); [|done].
  injection E as <-. by apply IH.
Qed.

(** *** A publication that runs alone *)

(** The publication of the present snapshot, as far as its goroutine is. *)
Definition in_progress (r : running) (p : publisher) : Prop :=
  match p with
  | Waiting => Z.of_nat (size (rn_snapshot r)) < 2 ^ 53 -> exists nowMs all, all ≡ₚ All (rn_snapshot r) /\ shows nowMs all (rn_metrics r)
  | Listing => True
  | Publishing os => exists nowMs all before m, two_three m /\ all ≡ₚ All (rn_snapshot r) /\
      publish_ops nowMs all = (before ++ os)%list /\ apply_health_ops m before = Returns (rn_metrics r)
  end.

Definition tracks (r : running) : Prop := forall g, (forall g', g' <> g -> rn_at r g' = Waiting) -> in_progress r (rn_at r g).

Lemma publish_all_shows m s nowMs all m' :
  two_three m -> labelled_all s -> all ≡ₚ All s -> Z.of_nat (size s) < 2 ^ 53 -> Publish m nowMs all = Returns m' -> shows nowMs all m'.
Proof.
  intros [L1 L2] Hs Hp Hsz E. destruct (publish_shows m nowMs all L1 L2) as (m1 & E1 & Hm); [|by eapply labelled_list|congruence].
  rewrite Hp. unfold All. by rewrite length_fmap, length_map_to_list.
Qed.

Lemma just_changed_tracks r : just_changed r -> tracks r.
Proof.
  intros (g & Hg & _) g1 Hw. destruct (decide (g = g1)) as [<-|Hne]; [by rewrite Hg|]. apply Hw in Hne. congruence.
Qed.

(** A goroutine that is not waiting is the only one that can be alone. *)
Lemma tracks_moved r g p s m : p <> Waiting -> in_progress (moved r g p s m) p -> tracks (moved r g p s m).
Proof.
  intros Hp Hin g1 Hw. destruct (decide (g = g1)) as [<-|Hne]; [cbn; by rewrite decide_True|].
  apply Hw in Hne. cbn in Hne. by rewrite decide_True in Hne.
Qed.

(** The last call of a publication in a state where the other goroutine waits. *)
Lemma tracks_called r g o os m :
  sound r -> apart r -> tracks r -> rn_at r g = Publishing (o :: os) -> apply_health_op (rn_metrics r) o = Returns m ->
  tracks (moved r g (after_call os) (rn_snapshot r) m).
Proof.
  intros [Hl _ _] Hap Ht Hg E.
  assert (forall g', g' <> g -> rn_at r g' = Waiting) as Hothers by (intros []; destruct g, Hap; congruence).
  pose proof (Ht g Hothers) as Hin. rewrite Hg in Hin. destruct Hin as (nowMs & all & before & m0 & Hm0 & Hp & Eops & Em).
  assert (apply_health_ops m0 (before ++ [o]) = Returns m) as Em' by (rewrite apply_health_ops_app, Em; cbn; by rewrite E).
  destruct os as [|o' os].
  - assert (exists nowMs all, Z.of_nat (size (rn_snapshot r)) < 2 ^ 53 -> all ≡ₚ All (rn_snapshot r) /\ shows nowMs all m) as (t & a & Hsh).
    { exists nowMs, all. intros Hsz. split; [done|]. eapply publish_all_shows; [exact Hm0|exact Hl|done..|]. unfold Publish. by rewrite Eops. }
    intros g1 _. cbn [after_call]. assert (rn_at (moved r g Waiting (rn_snapshot r) m) g1 = Waiting) as ->; [|intros Hsz; exists t, a; by apply Hsh].
    cbn. case_decide; [done|by apply Hothers].
  - apply tracks_moved; [done|]. exists nowMs, all, (before ++ [o])%list, m0. rewrite <- app_assoc. by split_and!.
Qed.

Lemma tracks_step r ev r' : sound r -> apart r -> tracks r -> health_step r ev (Returns r') -> tracks r'.
Proof.
  intros Hs Hap Ht Hstep. inversion Hstep as [v fuel s Hw Er|v fuel e Hw Er|v fuel Hw Er|rget channel payload s b Hw Er|rget channel payload Hw Er|g nowMs all Hg Hp|g o os Hg Hc Em]; subst.
  - by apply tracks_moved.
  - done.
  - destruct b; [by apply tracks_moved|]. apply ignored_unchanged in Er as ->. intros g Hg. cbn in Hg |- *.
    assert (forall g', g' <> g -> rn_at r g' = Waiting) as Hg'.
    { intros g' Hne. specialize (Hg g' Hne). destruct (decide (g' = KeyeventListener)); [congruence|done]. }
    pose proof (Ht g Hg') as Hin. destruct (decide (g = KeyeventListener)) as [Ed|]; [|exact Hin]. subst g. by rewrite Hw in Hin.
  - apply tracks_moved; [done|]. exists nowMs, all, [], (rn_metrics r). by destruct Hs.
  - destruct (apply_health_op (rn_metrics r) o) as [m|] eqn:E; [|done]. injection Em as <-. by eapply tracks_called.
Qed.

Lemma tracks_run r evs out r' :
  health_run apart r evs out -> out = Returns r' -> sound r -> Forall labelling evs -> tracks r -> sound r' /\ tracks r'.
Proof.
  induction 1 as [r Hr|r ev r1 evs out Hr Hs _ IH|r ev evs Hr Hs]; intros E Hsound Hev Ht; [by injection E as <-| |done].
  apply list.Forall_cons in Hev as [Hev Hevs]. destruct (sound_step _ _ _ Hsound Hev Hs) as (r2 & E2 & Hr2). injection E2 as <-.
  apply IH; [done..|]. by apply (tracks_step r ev r1).
Qed.

Lemma tracks_gauges r : tracks r -> idle r -> Z.of_nat (size (rn_snapshot r)) < 2 ^ 53 -> gauges_show (rn_snapshot r) (rn_metrics r).
Proof.
  intros Ht Hi Hsz. pose proof (Ht ReconcileLoop (fun g _ => Hi g)) as Hin. rewrite (Hi ReconcileLoop) in Hin.
  destruct (Hin Hsz) as (t & all & Hp & Hs). split_and!.
  - intros base runtime. rewrite <- !(healthy_count_perm _ _ base runtime Hp). apply Hs.
  - intros id base runtime. split.
    + intros [age Ha]. destruct (sh_age _ _ _ Hs _ _ _ _ Ha) as (hb & Hhb & <- & <- & <- & _). exists hb. by rewrite <- Hp.
    + intros (hb & Hhb & <- & <- & <-). apply (sh_aged _ _ _ Hs). by rewrite Hp.
  - intros id base runtime age Ha. destruct (sh_age _ _ _ Hs _ _ _ _ Ha) as (hb & _ & _ & _ & _ & ->).
    unfold heartbeat_age. case_if; [|reflexivity]. destruct (fltb (fdiv _ _) f_zero) eqn:E; [reflexivity|exact E].
Qed.

Lemma start_tracks m interval v out :
  two_three m -> labelling_view v -> health_Start (health_NewService m interval) v out ->
  exists r, out = Returns r /\ sound r /\ tracks r.
Proof.
  intros Hm Hv [fuel s nowMs all Hr Hp|fuel Hr]; [|by apply reconcileOnce_returns in Hr].
  assert (labelled_all s) as Hl.
  { destruct Hr as [Hr|(e & _ & ->)]; [|apply map_Forall_empty]. eapply labelled_reconcileOnce; [|exact Hr]. by apply utf8_labelling_view. }
  unfold publish_snapshot. cbn [hs_metrics health_NewService].
  destruct (apply_health_ops_returns (publish_ops nowMs all) m) as (m' & E & Hm'); [done|apply publish_ops_labelled; by eapply labelled_list|].
  unfold Publish. rewrite E. eexists. split; [done|]. split; [by split|].
  intros g _ Hsz. exists nowMs, all. split; [done|]. exact (publish_all_shows m s nowMs all m' Hm Hl Hp Hsz E).
Qed.
End Running.
Arguments health_Service V : clear implicits.
Arguments running V : clear implicits.

(** ** Properties *)

(** C20: the two goroutines of the health service publish its gauges without
    a lock, and the gauges follow the snapshot as far as that allows.  As long
    as the ids in the keys of the heartbeats are UTF-8 (and no key overlaps its
    own prefix and suffix), the start and any interleaving of the steps of the
    two goroutines, overlapping publications included, never panic.  And from
    the start on, or from any moment at which one goroutine has changed the
    snapshot while the other waits, however wrong overlapping publications have
    left the gauges before, as long as no two publications overlap from then
    on, whenever both goroutines wait and the snapshot has fewer than 2^53
    heartbeats, the gauge of healthy workers has for every
    base model and runtime exactly the number of heartbeats of the snapshot
    with them, and no series where there is none; a worker has an age series if
    and only if it is in the snapshot; and no age is negative. *)
Theorem health_gauges_track_snapshot {V : Type -> Type} `{Prometheus V} {R} `{Registrar R} (reg reg' : R) m interval v out :
  health_NewMetrics reg = Returns (m, reg') ->
  labelling_view v -> health_Start (health_NewService m interval) v out ->
  exists r0, out = Returns r0 /\
  forall evs out1, Forall labelling evs -> health_run (fun _ => True) r0 evs out1 ->
  exists r1, out1 = Returns r1 /\
  (evs = [] \/ just_changed r1 ->
   forall evs' r2, Forall labelling evs' -> health_run apart r1 evs' (Returns r2) ->
   idle r2 -> Z.of_nat (size (rn_snapshot r2)) < 2 ^ 53 -> gauges_show (rn_snapshot r2) (rn_metrics r2)).
Proof.
  unfold health_NewMetrics. intros Hm Hv Hst. destruct (register_all reg health_names); [|done]. injection Hm as <- _.
  apply start_tracks in Hst as (r0 & -> & Hs0 & Ht0); [|split; apply New_Labels|done]. exists r0. split; [done|].
  intros evs out1 Hevs Hrun. destruct (sound_run _ _ _ _ Hrun Hs0 Hevs) as (r1 & -> & Hs1). exists r1. split; [done|].
  intros Hfrom evs' r2 Hevs' Hrun' Hidle Hsz.
  assert (tracks r1) as Ht1.
  { destruct Hfrom as [->|Hj]; [|by apply just_changed_tracks]. by inversion Hrun; subst. }
  destruct (tracks_run _ _ _ _ Hrun' eq_refl Hs1 Hevs' Ht1) as [_ Ht2]. by apply tracks_gauges.
Qed.

(** *** Overlapping publications *)

(** The interleavings of two sequences. *)
Inductive merge {A} : list A -> list A -> list A -> Prop :=
| merge_nil : merge [] [] []
| merge_left x l1 l2 l : merge l1 l2 l -> merge (x :: l1) l2 (x :: l)
| merge_right x l1 l2 l : merge l1 l2 l -> merge l1 (x :: l2) (x :: l).

Lemma merge_left_all {A} (l : list A) : merge l [] l.
Proof. induction l; by constructor. Qed.

Lemma merge_app {A} (l1 l2 l1' l2' l l' : list A) : merge l1 l2 l -> merge l1' l2' l' -> merge (l1 ++ l1') (l2 ++ l2') (l ++ l').
Proof. intros H H'. induction H; cbn; by try constructor. Qed.

(** The two goroutines of the service publish without excluding each other:
    when a reconciliation and an event publish the same single heartbeat at
    the same time, the gauge can say that two workers are healthy. *)
Theorem overlapping_publications_overcount {V : Type -> Type} `{Prometheus V} {R} `{Registrar R} (reg reg' : R) m hb t :
  health_NewMetrics reg = Returns (m, reg') -> labelled hb ->
  exists os m', merge (publish_ops t [hb]) (publish_ops t [hb]) os /\ apply_health_ops m os = Returns m' /\
    vec_Get (hm_healthy m') [BaseModel hb; Runtime hb] = Some (f_of_Z 2).
Proof.
  unfold health_NewMetrics. intros Hm Hl. destruct (register_all reg health_names); [|done]. injection Hm as <- _.
  exists ([ResetHealthy; ResetAge] ++ publish_ops t [hb; hb])%list.
  destruct (publish_shows (mkHealthMetrics (vec_Reset (vec_New 2)) (vec_Reset (vec_New 3))) t [hb; hb]) as (m' & E & Hs).
  { cbn. by rewrite Reset_Labels, New_Labels. } { cbn. by rewrite Reset_Labels, New_Labels. } { done. } { by apply list.Forall_cons; split; [|apply list.Forall_singleton]. }
  exists m'. split_and!.
  - change (publish_ops t [hb]) with ([ResetHealthy; ResetAge] ++ publish_worker t hb)%list at 1.
    change (publish_ops t [hb]) with ([ResetHealthy; ResetAge] ++ publish_worker t hb)%list.
    apply (merge_app _ []); [apply merge_left_all|]. cbn. repeat constructor.
  - rewrite apply_health_ops_app. exact E.
  - rewrite (sh_healthy _ _ _ Hs). unfold healthy_count. rewrite !count_cons, !String.eqb_refl. reflexivity.
Qed.

(** A heartbeat without an id takes the id of its key; when that is not UTF-8
    the publication that follows panics, in a goroutine nothing recovers. *)
Theorem bad_key_panics_publication {V : Type -> Type} `{Prometheus V} {R} `{Registrar R} (reg reg' : R) m id rget val hb t :
  health_NewMetrics reg = Returns (m, reg') ->
  id <> "" -> ~ valid_utf8 id -> rget (Key id) = Value val -> unmarshal val = Some hb -> ID hb = "" ->
  observe_event rget NewSnapshot "__keyevent@0__:set" (Key id) = Returns ({[id := set_ID hb id]}, true) /\
  Publish m t (All {[id := set_ID hb id]}) = Panics.
Proof.
  unfold health_NewMetrics. intros Hm Hne Hbad Hg Hu Hid. destruct (register_all reg health_names); [|done]. injection Hm as <- _. split.
  - unfold observe_event. rewrite WorkerIDFromKey_Key. destruct (String.eqb_spec id ""); [done|].
    cbn [HasSuffix orb]. rewrite Hg, Hu, Hid. reflexivity.
  - unfold All. rewrite map_to_list_singleton. cbn -[labels_ok]. unfold gauge_Inc.
    destruct (decide (labels_ok 2 [BaseModel hb; Runtime hb])) as [Hok|Hno].
    + destruct (With_returns (V := V) float64 (vec_Reset (vec_New 2)) [BaseModel hb; Runtime hb] (fun x => fadd (default f_zero x) f_one))
        as (v & E & _); [by rewrite Reset_Labels, New_Labels|].
      rewrite E. unfold gauge_Set. cbn [hm_age]. rewrite With_panics; [done|]. rewrite Reset_Labels, New_Labels.
      intros [_ Hf]. by apply list.Forall_cons in Hf as [? _].
    + rewrite With_panics; [done|]. by rewrite Reset_Labels, New_Labels.
Qed.

(** *** Witnesses *)

Definition fresh_gauges : health_Metrics series := mkHealthMetrics (vec_New 2) (vec_New 3).

Definition w1_heartbeat : string := Eval vm_compute in
  print (DObj [("id", DStr "w1"); ("base_model", DStr "m"); ("runtime", DStr "vllm"); ("ready", DBool true); ("ts", DInt 5)]).

(** Redis with one heartbeat, and after it has expired. *)
Definition one_key : redis_view :=
  mkView (fun _ => Ok ([Key "w1"], 0)) (fun k => if String.eqb k (Key "w1") then Value w1_heartbeat else RedisNil).

Definition w1_beat : Heartbeat := mkHeartbeat "w1" "m" None "vllm" "" true 0 0 f_zero f_zero 5.

Definition no_keys : redis_view := mkView (fun _ => Ok ([], 0)) (fun _ => RedisNil).

Lemma one_key_labelling : labelling_view one_key.
Proof.
  intros cursor keys next [= <- _]. apply list.Forall_singleton. split; [by vm_compute|]. intros id E. apply Key_inj in E as <-.
  apply (bool_decide_unpack _). vm_compute. exact I.
Qed.

(** The service after a start without heartbeats. *)
Definition empty_start : running series :=
  mkRunning (mkHealthService ∅ (mkHealthMetrics (vec_Reset (vec_New 2)) (vec_Reset (vec_New 3))) (3 * second)) (fun _ => Waiting).

Lemma started_empty : health_Start (health_NewService fresh_gauges 0) no_keys (Returns empty_start).
Proof.
  assert ((let! svc := publish_snapshot (health_NewService fresh_gauges 0) ∅ 5 [] in Returns (mkRunning svc (fun _ => Waiting))) = Returns empty_start) as <-
    by (vm_compute; reflexivity).
  apply (started _ _ 1 ∅ 5 []); [left; vm_compute; reflexivity|]. by vm_compute.
Qed.

(** The loop has read the heartbeat, and has not published it. *)
Definition read_w1 : running series := moved empty_start ReconcileLoop Listing {["w1" := w1_beat]} (rn_metrics empty_start).

(** A goroutine's calls until it waits again. *)
Fixpoint call_all (fuel : nat) (g : publishing_goroutine) (r : running series) : running series :=
  match fuel, rn_at r g with
  | S fuel, Publishing (o :: os) =>
      match apply_health_op (rn_metrics r) o with
      | Returns m => call_all fuel g (moved r g (after_call os) (rn_snapshot r) m)
      | Panics => r
      end
  | _, _ => r
  end.

Definition published_w1 : running series :=
  call_all 4 ReconcileLoop (moved read_w1 ReconcileLoop (Publishing (publish_ops 1005 [w1_beat])) {["w1" := w1_beat]} (rn_metrics read_w1)).

Lemma health_gauges_track_snapshot_witness : vec_Get (hm_healthy (rn_metrics published_w1)) ["m"; "vllm"] = Some (f_of_Z 1).
Proof.
  destruct (health_gauges_track_snapshot (V := series) (R := list string) [] (reverse health_names) fresh_gauges 0 no_keys (Returns empty_start))
    as (r0 & [= <-] & Hall).
  - vm_compute. reflexivity.
  - intros cursor keys next [= <- _]. constructor.
  - exact started_empty.
  - destruct (Hall [Ticked one_key] (Returns read_w1)) as (r1 & [= <-] & Htail).
    + apply list.Forall_singleton, one_key_labelling.
    + eapply run_next; [done| |by apply run_done]. apply (reconciled _ _ 1); vm_compute; reflexivity.
    + assert (just_changed read_w1) as Hj by (exists ReconcileLoop; split; [reflexivity|by intros []]).
      destruct (Htail (or_intror Hj)
        [Listed ReconcileLoop 1005 [w1_beat]; Called ReconcileLoop; Called ReconcileLoop; Called ReconcileLoop; Called ReconcileLoop] published_w1) as [Hc _].
      * by repeat constructor.
      * eapply run_next; [by right|apply snapshot_listed; [reflexivity|by vm_compute]|].
        do 4 (eapply run_next; [by right|eapply (gauge_called_returns _ ReconcileLoop); [reflexivity|vm_compute; reflexivity]|]). apply run_done. by right.
      * by intros [].
      * vm_compute. reflexivity.
      * rewrite Hc. vm_compute. reflexivity.
Defined.

Lemma overlapping_publications_overcount_witness :
  exists os m', merge (publish_ops 9 [w1_beat]) (publish_ops 9 [w1_beat]) os /\ apply_health_ops fresh_gauges os = Returns m' /\
    vec_Get (hm_healthy m') ["m"; "vllm"] = Some (f_of_Z 2).
Proof.
  apply (overlapping_publications_overcount (V := series) (R := list string) [] (reverse health_names) fresh_gauges w1_beat 9).
  - vm_compute. reflexivity.
  - apply (bool_decide_unpack (valid_utf8 "w1" /\ valid_utf8 "m" /\ valid_utf8 "vllm")). vm_compute. exact I.
Defined.

(** A lone byte 255. *)
Definition bad_id : string := String (ascii_of_N 255) "".

Lemma bad_key_panics_publication_witness :
  Publish fresh_gauges 9 (All {[bad_id := set_ID zero_heartbeat bad_id]}) = Panics.
Proof.
  destruct (bad_key_panics_publication (V := series) (R := list string) [] (reverse health_names) fresh_gauges bad_id
    (fun _ => Value "{}") "{}" zero_heartbeat 9) as [_ Hp].
  - vm_compute. reflexivity.
  - discriminate.
  - apply (bool_decide_unpack (~ valid_utf8 bad_id)). vm_compute. exact I.
  - reflexivity.
  - vm_compute. reflexivity.
  - reflexivity.
  - exact Hp.
Defined.
