(* ===== verification/WorkerRegistry.v ===== *)
(** * The worker registry (services/registry)

    Workers register over gRPC (impl/registry_service_impl.go); the repository
    (repository.go) keeps a table of workers and one of the models they serve,
    from which the publisher builds routing snapshots.  The database is the
    class [WorkerTables]: its laws are those of the statements the repository
    issues. *)

From Stdlib Require Import Ascii.
From S2P Require Import Prelude GoStrings GoFormat Json JsonDecode JsonMaps Errors Routing.

(** ** Messages (proto/registry/v1) *)

Inductive RuntimeKind : Type :=
| RUNTIME_KIND_UNSPECIFIED | RUNTIME_KIND_OLLAMA | RUNTIME_KIND_MLX
| RUNTIME_KIND_LLAMACPP | RUNTIME_KIND_VLLM | RUNTIME_KIND_FORGE.

#[export] Instance RuntimeKind_eq_dec : EqDecision RuntimeKind.
Proof. solve_decision. Defined.

(** [String()] *)
Definition RuntimeKind_name (k : RuntimeKind) : string :=
  match k with
  | RUNTIME_KIND_UNSPECIFIED => "RUNTIME_KIND_UNSPECIFIED"
  | RUNTIME_KIND_OLLAMA => "RUNTIME_KIND_OLLAMA"
  | RUNTIME_KIND_MLX => "RUNTIME_KIND_MLX"
  | RUNTIME_KIND_LLAMACPP => "RUNTIME_KIND_LLAMACPP"
  | RUNTIME_KIND_VLLM => "RUNTIME_KIND_VLLM"
  | RUNTIME_KIND_FORGE => "RUNTIME_KIND_FORGE"
  end.

Definition kinds : list RuntimeKind :=
  [RUNTIME_KIND_UNSPECIFIED; RUNTIME_KIND_OLLAMA; RUNTIME_KIND_MLX; RUNTIME_KIND_LLAMACPP; RUNTIME_KIND_VLLM; RUNTIME_KIND_FORGE].

(** [RuntimeKind_value[s]], zero for an unknown name. *)
Definition RuntimeKind_value (s : string) : RuntimeKind :=
  default RUNTIME_KIND_UNSPECIFIED (List.find (fun k => String.eqb (RuntimeKind_name k) s) kinds).

Record RegisterRequest := mkRegisterRequest {
  rr_WorkerId : string;
  rr_Endpoint : string;
  rr_RuntimeKind : RuntimeKind;
  rr_Models : list ServableModel;
  rr_Capabilities : gmap string string
}.

Record RegisterResponse := mkRegisterResponse { rs_WorkerId : string; rs_RegisteredAt : Z }.

(** ** Tables *)

(** A row of the workers, without the columns nothing reads. *)
Record Worker := mkWorkerRow {
  w_ID : string;
  w_Endpoint : string;
  w_RuntimeKind : string;
  w_Capabilities : string;
  w_RegisteredAt : Z
}.

#[export] Instance Worker_eq_dec : EqDecision Worker.
Proof. solve_decision. Defined.

(** The row an upsert leaves: the time of registration is not among the
    columns updated on conflict. *)
Definition merged_row (rows : list Worker) (w : Worker) : Worker :=
  match List.find (fun x => String.eqb (w_ID x) (w_ID w)) rows with
  | None => w
  | Some old => mkWorkerRow (w_ID w) (w_Endpoint w) (w_RuntimeKind w) (w_Capabilities w) (w_RegisteredAt old)
  end.

Class WorkerTables (DB : Type) := {
  worker_rows : DB -> list Worker;
  model_rows : DB -> list (string * ServableModel);
  (** INSERT ... ON CONFLICT (id) DO UPDATE SET endpoint, runtime_kind, capabilities, updated_at *)
  create_worker : DB -> Worker -> result error DB;
  (** DELETE FROM servable_models WHERE worker_id = ? *)
  delete_models : DB -> string -> result error DB;
  (** INSERT INTO servable_models *)
  create_models : DB -> list (string * ServableModel) -> result error DB;
  worker_rows_unique : forall db, NoDup (w_ID <$> worker_rows db);
  create_worker_rows : forall db w db', create_worker db w = Ok db' ->
    (forall x, x ∈ worker_rows db' <-> x = merged_row (worker_rows db) w \/ (x ∈ worker_rows db /\ w_ID x <> w_ID w)) /\
    model_rows db' = model_rows db;
  delete_models_rows : forall db wid db', delete_models db wid = Ok db' ->
    worker_rows db' = worker_rows db /\
    model_rows db' = List.filter (fun r => negb (String.eqb r.1 wid)) (model_rows db);
  create_models_rows : forall db rs db', create_models db rs = Ok db' ->
    worker_rows db' = worker_rows db /\ model_rows db' = (model_rows db ++ rs)%list
}.

(** [json.Marshal] of a map of strings, which does not fail.  A request
    without capabilities has a nil map. *)
Definition map_doc (m : gmap string string) : doc :=
  if decide (m = ∅) then DNull else DObj (map_members DStr m).

Definition marshal_map (m : gmap string string) : result error string := Ok (print (map_doc m)).

(** The strings of a protobuf message are UTF-8. *)
Definition utf8_map (m : gmap string string) : Prop := map_Forall (fun k v => valid_utf8 k /\ valid_utf8 v) m.

Section Registry.
Context {DB : Type} `{WorkerTables DB}.

(** [Upsert]: one transaction, so an error leaves the tables as they were. *)
Definition Upsert (db : DB) (w : Worker) (models : list ServableModel) : result error DB :=
  let? db := create_worker db w in
  let? db := delete_models db (w_ID w) in
  match models with
  | [] => Ok db
  | _ => create_models db ((fun m => (w_ID w, m)) <$> models)
  end.

(** [List] with the models of each worker preloaded. *)
Definition models_of (db : DB) (wid : string) : list ServableModel :=
  snd <$> List.filter (fun r => String.eqb r.1 wid) (model_rows db).

Definition with_models (db : DB) (w : Worker) : RegWorker :=
  mkReg (w_ID w) (w_Endpoint w) (w_RuntimeKind w) (w_Capabilities w) (models_of db (w_ID w)).

Definition ListWorkers (db : DB) : list RegWorker := with_models db <$> worker_rows db.

(** [Register]: the answer and the tables. *)
Definition Register (db : DB) (req : RegisterRequest) (now : Z) : result error RegisterResponse * DB :=
  if String.eqb (rr_WorkerId req) "" then (Err (EStatus InvalidArgument "worker_id is required"), db)
  else if String.eqb (rr_Endpoint req) "" then (Err (EStatus InvalidArgument "endpoint is required"), db)
  else
    match marshal_map (rr_Capabilities req) with
    | Err e => (Err (EStatus Internal "marshal capabilities"), db)
    | Ok caps =>
        let w := mkWorkerRow (rr_WorkerId req) (rr_Endpoint req) (RuntimeKind_name (rr_RuntimeKind req)) caps now in
        match Upsert db w (rr_Models req) with
        | Err e => (Err (EStatus Internal "upsert worker"), db)
        | Ok db => (Ok (mkRegisterResponse (w_ID w) now), db)
        end
    end.

(** ** Lemmas *)

Lemma RuntimeKind_name_value k : RuntimeKind_value (RuntimeKind_name k) = k.
Proof. by destruct k. Qed.

Lemma filter_neq_self {A} (f : A -> bool) l : List.filter f (List.filter (fun x => negb (f x)) l) = [].
Proof.
  induction l as [|x l IH]; [done|]. cbn. destruct (f x) eqn:E; cbn; [done|]. by rewrite E.
Qed.

Lemma models_of_written (rows : list (string * ServableModel)) wid ms x :
  List.filter (fun r => String.eqb r.1 x)
    (List.filter (fun r => negb (String.eqb r.1 wid)) rows ++ ((fun m => (wid, m)) <$> ms))%list =
  if String.eqb x wid then (fun m => (wid, m)) <$> ms else List.filter (fun r => String.eqb r.1 x) rows.
Proof.
  rewrite List.filter_app. destruct (String.eqb_spec x wid) as [->|Hne].
  - rewrite (filter_neq_self (fun r : string * ServableModel => String.eqb r.1 wid)). cbn [app].
    induction ms as [|m ms IH]; [done|]. cbn. rewrite String.eqb_refl. by f_equal.
  - assert (List.filter (fun r : string * ServableModel => String.eqb r.1 x) ((fun m => (wid, m)) <$> ms) = []) as ->.
    { induction ms as [|m ms IH]; [done|]. cbn. destruct (String.eqb_spec wid x); [by subst|done]. }
    rewrite app_nil_r. induction rows as [|r rows IH]; [done|]. cbn.
    destruct (String.eqb_spec r.1 wid) as [E|]; cbn.
    + destruct (String.eqb_spec r.1 x); [congruence|done].
    + destruct (String.eqb r.1 x); [by f_equal|done].
Qed.

(** The capabilities stored are read back by the publisher. *)
Lemma unmarshal_marshal m : utf8_map m -> unmarshal_map (print (map_doc m)) = Some m.
Proof.
  intros Hm. unfold unmarshal_map, unmarshal_into, map_doc. destruct (decide (m = ∅)) as [->|Hne]; [reflexivity|].
  rewrite parse_print.
  - rewrite (map_repaired DStr).
    + rewrite (dec_map_members DStr id); [by rewrite map_fmap_id|done].
    + intros k v Hv. destruct (Hm k v Hv) as [Hk Hs]. split; [done|]. cbn. by rewrite (sanitize_id v Hs).
  - by apply map_numbers.
  - etrans; [by apply (map_nesting DStr 0)|]. done.
Qed.

(** What one upsert does to the tables. *)
Lemma Upsert_spec db w ms db' :
  Upsert db w ms = Ok db' ->
  (forall x, x ∈ worker_rows db' <-> x = merged_row (worker_rows db) w \/ (x ∈ worker_rows db /\ w_ID x <> w_ID w)) /\
  (forall wid, models_of db' wid = if String.eqb wid (w_ID w) then ms else models_of db wid).
Proof.
  unfold Upsert. destruct (create_worker db w) as [db1|] eqn:E1; [|done].
  destruct (delete_models db1 (w_ID w)) as [db2|] eqn:E2; [|done].
  destruct (create_worker_rows _ _ _ E1) as [Hw1 Hm1]. destruct (delete_models_rows _ _ _ E2) as [Hw2 Hm2].
  intros E3. assert (worker_rows db' = worker_rows db2 /\
    model_rows db' = (model_rows db2 ++ ((fun m => (w_ID w, m)) <$> ms))%list) as [Hw3 Hm3].
  { destruct ms as [|m ms]; [|by apply create_models_rows]. injection E3 as <-. split; [done|]. cbn. by rewrite app_nil_r. }
  split.
  - intros x. by rewrite Hw3, Hw2.
  - intros wid. unfold models_of. rewrite Hm3, Hm2, Hm1, models_of_written.
    destruct (String.eqb wid (w_ID w)); [|done]. rewrite <- list_fmap_compose. apply list_fmap_id.
Qed.

Lemma merged_row_ID rows w : w_ID (merged_row rows w) = w_ID w.
Proof. unfold merged_row. by case_match. Qed.

Lemma merged_listed db w : with_models db (merged_row (worker_rows db) w) =
  mkReg (w_ID w) (w_Endpoint w) (w_RuntimeKind w) (w_Capabilities w) (models_of db (w_ID w)).
Proof. unfold merged_row. by case_match. Qed.

Lemma Register_ok db req now resp db' :
  Register db req now = (Ok resp, db') ->
  rr_WorkerId req <> "" /\ rr_Endpoint req <> "" /\ rs_WorkerId resp = rr_WorkerId req /\ rs_RegisteredAt resp = now /\
  exists caps, marshal_map (rr_Capabilities req) = Ok caps /\
    Upsert db (mkWorkerRow (rr_WorkerId req) (rr_Endpoint req) (RuntimeKind_name (rr_RuntimeKind req)) caps now) (rr_Models req) = Ok db'.
Proof.
  unfold Register. destruct (String.eqb_spec (rr_WorkerId req) ""); [done|].
  destruct (String.eqb_spec (rr_Endpoint req) ""); [done|]. cbn [marshal_map].
  destruct (Upsert db _ _) as [db1|] eqn:E; [|done]. intros [= <- <-]. split_and!; try done. by eexists.
Qed.

(** The listing after a registration. *)
Lemma Register_lists db req now resp db' :
  Register db req now = (Ok resp, db') ->
  exists caps, marshal_map (rr_Capabilities req) = Ok caps /\
    forall r, r ∈ ListWorkers db' <->
      r = mkReg (rr_WorkerId req) (rr_Endpoint req) (RuntimeKind_name (rr_RuntimeKind req)) caps (rr_Models req) \/
      (r ∈ ListWorkers db /\ r_ID r <> rr_WorkerId req).
Proof.
  intros E. destruct (Register_ok _ _ _ _ _ E) as (_ & _ & _ & _ & caps & Hc & Hu). exists caps. split; [done|].
  destruct (Upsert_spec _ _ _ _ Hu) as [Hw Hm]. set (w := mkWorkerRow _ _ _ caps now) in *. cbn [w_ID] in *.
  intros r. unfold ListWorkers. rewrite !list_elem_of_fmap. split.
  - intros (x & -> & [->|[Hx Hne]]%Hw).
    + left. unfold with_models. rewrite merged_row_ID, Hm, String.eqb_refl. unfold merged_row. by case_match.
    + right. split; [|done]. exists x. split; [|done]. unfold with_models. rewrite Hm.
      destruct (String.eqb_spec (w_ID x) (w_ID w)); [by exfalso; apply Hne|done].
  - intros [->|[(x & -> & Hx) Hne]].
    + exists (merged_row (worker_rows db) w). split; [|apply Hw; by left].
      unfold with_models. rewrite merged_row_ID, Hm, String.eqb_refl. unfold merged_row. by case_match.
    + exists x. split; [|apply Hw; by right]. unfold with_models. rewrite Hm.
      destruct (String.eqb_spec (w_ID x) (w_ID w)); [by exfalso; apply Hne|done].
Qed.

Lemma ListWorkers_nodup db : NoDup (r_ID <$> ListWorkers db).
Proof.
  unfold ListWorkers. rewrite <- list_fmap_compose. change (r_ID ∘ with_models db) with w_ID. apply worker_rows_unique.
Qed.

(** ** Properties *)

(** What a worker registers is what the publisher lists: after a
    registration that is answered, the listing has exactly one worker of that
    id, with the endpoint and runtime kind it sent, exactly the models it sent
    (those of an earlier registration are gone) and capabilities that decode to
    the map it sent, and every other worker is listed as before; registering
    the same again changes no listing.  A registration that is refused changes
    nothing. *)
Theorem registered_worker_listed db req now :
  match Register db req now with
  | (Err e, db') => db' = db /\ (rr_WorkerId req = "" \/ rr_Endpoint req = "" -> exists msg, e = EStatus InvalidArgument msg)
  | (Ok resp, db') =>
      rs_WorkerId resp = rr_WorkerId req /\ NoDup (r_ID <$> ListWorkers db') /\
      (exists r, r ∈ ListWorkers db' /\ r_ID r = rr_WorkerId req /\ r_Endpoint r = rr_Endpoint req /\
         RuntimeKind_value (r_RuntimeKind r) = rr_RuntimeKind req /\ r_Models r = rr_Models req /\
         (utf8_map (rr_Capabilities req) -> unmarshal_map (r_Capabilities r) = Some (rr_Capabilities req))) /\
      (forall r, r_ID r <> rr_WorkerId req -> (r ∈ ListWorkers db' <-> r ∈ ListWorkers db)) /\
      (forall now' resp' db'', Register db' req now' = (Ok resp', db'') ->
         forall r, r ∈ ListWorkers db'' <-> r ∈ ListWorkers db')
  end.
Proof.
  destruct (Register db req now) as [[resp|e] db'] eqn:E.
  - destruct (Register_ok _ _ _ _ _ E) as (_ & _ & Hid & _). destruct (Register_lists _ _ _ _ _ E) as (caps & Hc & Hl).
    split; [done|]. split; [apply ListWorkers_nodup|]. split; [|split].
    + eexists. split; [apply Hl; by left|]. split_and!; try done; [apply RuntimeKind_name_value|].
      intros Ha. injection Hc as <-. by apply unmarshal_marshal.
    + intros r Hne. rewrite Hl. split; [intros [->|[? _]]; done|by right].
    + intros now' resp' db'' E' r. destruct (Register_lists _ _ _ _ _ E') as (caps' & Hc' & Hl').
      rewrite Hc in Hc'. injection Hc' as <-. rewrite Hl', Hl. naive_solver.
  - revert E. unfold Register. destruct (String.eqb_spec (rr_WorkerId req) ""); [intros [= <- <-]; split; [done|by eexists]|].
    destruct (String.eqb_spec (rr_Endpoint req) ""); [intros [= <- <-]; split; [done|by eexists]|].
    cbn [marshal_map]. destruct (Upsert _ _ _); [done|]. intros [= <- <-]. split; [done|by intros [?|?]].
Qed.
End Registry.

(** *** Witnesses *)

(** Tables in memory. *)
Record mem_tables := mkMem { mem_workers : gmap string Worker; mem_models : list (string * ServableModel) }.

Definition mem_rows (db : mem_tables) : list Worker :=
  (fun kw => mkWorkerRow kw.1 (w_Endpoint kw.2) (w_RuntimeKind kw.2) (w_Capabilities kw.2) (w_RegisteredAt kw.2)) <$>
  map_to_list (mem_workers db).

Definition mem_create (db : mem_tables) (w : Worker) : result error mem_tables :=
  Ok (mkMem (<[w_ID w := merged_row (mem_rows db) w]> (mem_workers db)) (mem_models db)).

Lemma mem_rows_ids db : w_ID <$> mem_rows db = (map_to_list (mem_workers db)).*1.
Proof. unfold mem_rows. rewrite <- list_fmap_compose. by apply list_fmap_ext. Qed.

#[export] Instance mem_worker_tables : WorkerTables mem_tables.
Proof.
  refine {| worker_rows := mem_rows; model_rows := mem_models; create_worker := mem_create;
            delete_models db wid := Ok (mkMem (mem_workers db) (List.filter (fun r => negb (String.eqb r.1 wid)) (mem_models db)));
            create_models db rs := Ok (mkMem (mem_workers db) (mem_models db ++ rs)%list) |}.
  - intros db. rewrite mem_rows_ids. apply NoDup_fst_map_to_list.
  - intros db w db' [= <-]. split; [|done]. intros x. set (mw := merged_row (mem_rows db) w).
    assert (w_ID mw = w_ID w) as Hid by (unfold mw, merged_row; by case_match).
    unfold mem_rows. cbn [mem_workers]. rewrite !list_elem_of_fmap. split.
    + intros ([k v] & -> & Hkv%elem_of_map_to_list%lookup_insert_Some). cbn [fst snd].
      destruct Hkv as [[<- <-]|[Hne Hkv]]; [left; rewrite <- Hid; by destruct mw|]. right. split; [|cbn; congruence].
      exists (k, v). split; [done|]. by apply elem_of_map_to_list.
    + intros [->|[([k v] & -> & Hkv%elem_of_map_to_list) Hne]].
      * exists (w_ID w, mw). split; [cbn; rewrite <- Hid; by destruct mw|]. apply elem_of_map_to_list. apply lookup_insert_eq.
      * exists (k, v). split; [done|]. apply elem_of_map_to_list. rewrite lookup_insert_ne; [done|]. cbn in Hne. congruence.
  - by intros db wid db' [= <-].
  - by intros db rs db' [= <-].
Defined.

Definition joins : RegisterRequest :=
  mkRegisterRequest "local-qwen-1" "127.0.0.1:50101" RUNTIME_KIND_OLLAMA [mkModel "qwen" "" 32768] (<["runtime" := "ollama"]> ∅).

Definition registered : result error RegisterResponse * mem_tables :=
  @Register mem_tables mem_worker_tables (mkMem ∅ []) joins 7.

Lemma registered_worker_listed_witness :
  exists r, r ∈ ListWorkers registered.2 /\ r_ID r = "local-qwen-1" /\ r_Models r = [mkModel "qwen" "" 32768] /\
    unmarshal_map (r_Capabilities r) = Some (rr_Capabilities joins).
Proof.
  pose proof (@registered_worker_listed mem_tables mem_worker_tables (mkMem ∅ []) joins 7) as Hr.
  change (@Register mem_tables mem_worker_tables (mkMem ∅ []) joins 7) with registered in Hr.
  assert (registered = (Ok (mkRegisterResponse "local-qwen-1" 7), registered.2)) as E by (vm_compute; reflexivity).
  rewrite E in Hr. destruct Hr as (_ & _ & (r & Hin & Hid & _ & _ & Hm & Hc) & _).
  exists r. split; [exact Hin|]. split; [exact Hid|]. split; [exact Hm|]. apply Hc. apply map_Forall_singleton. by split; repeat constructor.
Defined.
