(* ===== verification/Rendezvous.v ===== *)
(** * Prefix affinity (services/scheduler/affinity.go)

    [PrefixKey] hashes a block-aligned prefix of the prompt and [HRWPick]
    chooses a worker by highest random weight (rendezvous hashing).  The hash
    (xxhash, a third-party package) is a parameter; the theorems hold for any
    hash function, ties included. *)

From Stdlib Require Import Ascii.
From S2P Require Import Prelude GoStrings.

Class Hash64 := { sum64 : string -> Z }.

(** [binary.LittleEndian.PutUint64] into eight bytes. *)
Fixpoint le_bytes (n : nat) (z : Z) : string :=
  match n with
  | O => ""
  | S n' => String (ascii_of_N (Z.to_N (z mod 256))) (le_bytes n' (z / 256))
  end.

Section Affinity.
Context `{Hash64}.

Definition PrefixKey (prompt : string) (window blockBytes : Z) : Z :=
  let blockBytes := if blockBytes <=? 0 then 64 else blockBytes in
  let window := if window <=? 0 then 1024 else window in
  let n := if str_len prompt <? window then str_len prompt else window in
  let n := n - Z.rem n blockBytes in
  if n <=? 0 then if String.eqb prompt "" then 0 else sum64 prompt
  else sum64 (str_take (Z.to_nat n) prompt).

(** The weight of worker [w] for [key]. *)
Definition weight (key : Z) (w : string) : Z := sum64 (le_bytes 8 key ++ w).

(** [s > bestScore || (s == bestScore && w < best)] *)
Definition better (s : Z) (w : string) (bestScore : Z) (best : string) : bool :=
  (bestScore <? s) || ((s =? bestScore) && str_ltb w best).

Definition hrw_step (key : Z) (st : option (Z * string)) (w : string) : option (Z * string) :=
  let s := weight key w in
  match st with
  | None => Some (s, w)
  | Some (bestScore, best) => if better s w bestScore best then Some (s, w) else st
  end.

Definition HRWPick (key : Z) (workerIDs : list string) : string :=
  match foldl (hrw_step key) None workerIDs with
  | None => ""
  | Some (_, best) => best
  end.

(** ** Lemmas *)

(** [w] is the winner among [ids]: no member beats it. *)
Definition beats (key : Z) (w v : string) : bool := better (weight key w) w (weight key v) v.

Definition winner (key : Z) (ids : list string) (w : string) : Prop :=
  w ∈ ids /\ forall v, v ∈ ids -> v <> w -> beats key w v = true.

Lemma beats_total key w v : w <> v -> beats key v w = false -> beats key w v = true.
Proof.
  unfold beats, better. intros Hne. rewrite orb_false_iff, orb_true_iff, andb_false_iff.
  intros [H1 H2]. zbool. destruct (Z.eqb_spec (weight key w) (weight key v)) as [E|E].
  - destruct H2 as [H2|H2]; zbool; [congruence|]. right. cbn.
    destruct (str_ltb_total w v Hne); [done|congruence].
  - left. apply Z.ltb_lt. lia.
Qed.

Lemma beats_asym key w v : beats key w v = true -> beats key v w = false.
Proof.
  unfold beats, better. rewrite orb_true_iff, andb_true_iff, orb_false_iff, andb_false_iff.
  intros [?|[? Hlt]]; zbool.
  - split; [apply Z.ltb_ge; lia|]. left. apply Z.eqb_neq. lia.
  - split; [apply Z.ltb_ge; lia|]. right. destruct (str_ltb v w) eqn:E; [|done].
    pose proof (str_ltb_trans _ _ _ Hlt E). by rewrite str_ltb_irrefl in *.
Qed.

Lemma beats_trans key u v w : beats key u v = true -> beats key v w = true -> beats key u w = true.
Proof.
  unfold beats, better. rewrite !orb_true_iff, !andb_true_iff.
  intros [?|[? ?]] [?|[? ?]]; zbool; try (left; apply Z.ltb_lt; lia).
  right. split; [apply Z.eqb_eq; lia|]. by eapply str_ltb_trans.
Qed.

Lemma beats_irrefl key w : beats key w w = false.
Proof. destruct (beats key w w) eqn:E; [|done]. pose proof (beats_asym _ _ _ E). congruence. Qed.

Lemma hrw_fold key ids : ids <> [] ->
  exists w, foldl (hrw_step key) None ids = Some (weight key w, w) /\ winner key ids w.
Proof.
  induction ids as [|x ids IH] using rev_ind; [done|]. intros _. rewrite foldl_app. cbn [foldl].
  destruct (decide (ids = [])) as [->|Hne].
  - exists x. split; [done|]. split; [set_solver|]. intros v Hv. set_solver.
  - destruct (IH Hne) as (w & -> & Hw & Hb). cbn [hrw_step].
    change (better (weight key x) x (weight key w) w) with (beats key x w).
    destruct (beats key x w) eqn:E.
    + exists x. split; [done|]. split; [set_solver|]. intros v Hv Hvx.
      apply elem_of_app in Hv as [Hv|Hv%list_elem_of_singleton]; [|done].
      destruct (decide (v = w)) as [->|Hvw]; [done|]. eapply beats_trans; [done|by apply Hb].
    + exists w. split; [done|]. split; [set_solver|]. intros v Hv Hvw.
      apply elem_of_app in Hv as [Hv|Hv%list_elem_of_singleton]; [by apply Hb|].
      subst. by apply beats_total.
Qed.

Lemma HRWPick_winner key ids : ids <> [] -> winner key ids (HRWPick key ids).
Proof. intros Hne. destruct (hrw_fold key ids Hne) as (w & E & Hw). unfold HRWPick. by rewrite E. Qed.

Lemma winner_unique key ids w v : winner key ids w -> winner key ids v -> w = v.
Proof.
  intros [Hw Hbw] [Hv Hbv]. destruct (decide (w = v)) as [|Hne]; [done|].
  pose proof (Hbw v Hv (not_eq_sym Hne)) as H1. pose proof (Hbv w Hw Hne) as H2.
  rewrite (beats_asym _ _ _ H1) in H2. done.
Qed.

Lemma HRWPick_eq key ids w : winner key ids w -> HRWPick key ids = w.
Proof.
  intros Hw. eapply winner_unique; [|exact Hw]. apply HRWPick_winner.
  intros ->. destruct Hw as [Hw _]. by apply elem_of_nil in Hw.
Qed.

(** The pick only depends on the set of workers. *)
Lemma HRWPick_same_members key ids ids' :
  (forall w, w ∈ ids <-> w ∈ ids') -> HRWPick key ids = HRWPick key ids'.
Proof.
  intros Hm. destruct (decide (ids' = [])) as [->|Hne].
  - destruct ids as [|x ids]; [done|]. exfalso. apply (elem_of_nil x), Hm. set_solver.
  - destruct (HRWPick_winner key ids' Hne) as [Hw Hb]. apply HRWPick_eq. split; [by apply Hm|].
    intros v Hv. apply Hb. by apply Hm.
Qed.

(** ** Properties *)

(** Rendezvous picking is a function of the set of workers alone, picks a
    member, and is minimally disruptive: removing any worker but the one
    picked keeps the pick, and adding a worker either keeps the pick or moves
    it to the worker added. *)
Theorem hrw_minimal_disruption key ids w :
  ids <> [] ->
  HRWPick key ids ∈ ids /\
  (forall ids', (forall v, v ∈ ids <-> v ∈ ids') -> HRWPick key ids' = HRWPick key ids) /\
  (w <> HRWPick key ids -> HRWPick key (filter (fun v => v <> w) ids) = HRWPick key ids) /\
  (HRWPick key (w :: ids) = HRWPick key ids \/ HRWPick key (w :: ids) = w).
Proof.
  intros Hne. destruct (HRWPick_winner key ids Hne) as [Hm Hb]. split_and!.
  - done.
  - intros ids' Hs. symmetry. by apply HRWPick_same_members.
  - intros Hw. apply HRWPick_eq. split; [apply list_elem_of_filter; split; [congruence|done]|].
    intros v [_ Hv]%list_elem_of_filter. by apply Hb.
  - destruct (HRWPick_winner key (w :: ids)) as [Hm' Hb']; [done|].
    apply elem_of_cons in Hm' as [E|Hm']; [by right|left].
    symmetry. apply HRWPick_eq. split; [done|]. intros v Hv. apply Hb'. by apply elem_of_cons; right.
Qed.

(** Prompts that agree on the window share their affinity key as soon as
    the window holds a whole block: the key only depends on the block-aligned
    part of the first [window] bytes. *)
Theorem prefix_key_shared p q1 q2 window blockBytes :
  0 < blockBytes -> 0 < window -> str_len p = window -> blockBytes <= window ->
  PrefixKey (p ++ q1) window blockBytes = PrefixKey (p ++ q2) window blockBytes /\
  PrefixKey (p ++ q1) window blockBytes =
    sum64 (str_take (Z.to_nat (blockBytes * (window / blockBytes))) p).
Proof.
  intros Hb Hw Hp Hbw.
  assert (forall q, PrefixKey (p ++ q) window blockBytes =
    sum64 (str_take (Z.to_nat (blockBytes * (window / blockBytes))) p)) as E; [|by rewrite !E].
  intros q. unfold PrefixKey.
  destruct (Z.leb_spec blockBytes 0); [lia|]. destruct (Z.leb_spec window 0); [lia|].
  unfold str_len in *. rewrite str_length_app, Nat2Z.inj_add, Hp.
  destruct (Z.ltb_spec (window + Z.of_nat (String.length q)) window); [lia|].
  rewrite Z.rem_mod_nonneg by lia.
  pose proof (Z.div_mod window blockBytes ltac:(lia)) as D.
  pose proof (Z.mod_pos_bound window blockBytes Hb).
  replace (window - window mod blockBytes) with (blockBytes * (window / blockBytes)) by lia.
  assert (1 <= window / blockBytes) by (apply Z.div_le_lower_bound; lia).
  destruct (Z.leb_spec (blockBytes * (window / blockBytes)) 0); [nia|].
  f_equal. apply str_take_app_le. lia.
Qed.
End Affinity.

Definition sum_bytes : Hash64 :=
  {| sum64 := fix go s := match s with "" => 0 | String a s' => Z.of_N (N_of_ascii a) + 3 * go s' end |}.

Lemma hrw_minimal_disruption_witness :
  @HRWPick sum_bytes 7 ["a"; "b"; "c"] ∈ ["a"; "b"; "c"].
Proof. apply (@hrw_minimal_disruption sum_bytes 7 ["a"; "b"; "c"] "a"). discriminate. Defined.

Lemma prefix_key_shared_witness :
  @PrefixKey sum_bytes ("abcde" ++ "fg") 5 2 = @PrefixKey sum_bytes ("abcde" ++ "zz") 5 2.
Proof. apply (@prefix_key_shared sum_bytes "abcde" "fg" "zz" 5 2); reflexivity || discriminate. Defined.
