(* ===== verification/Candidates.v ===== *)
(** * Candidates and filters (services/scheduler: interfaces.go, from_snapshot.go,
      filter_health.go, filter_model.go, filter_capability.go, admission.go)

    [CandidatesFromSnapshot] merges the per-model views of a routing snapshot
    into one candidate per worker; the four filters select the candidates a
    request may go to. *)

From Stdlib Require Import Ascii.
From S2P Require Import Prelude Float64 GoStrings Routing.

Record Candidate := mkCandidate {
  WorkerID : string;
  Endpoint : string;
  QueueDepth : Z;
  Healthy : bool;
  Ready : bool;
  EwmaLatencyMs : float64;
  Models : list string;
  MaxContext : Z;
  CostPerHour : float64;
  CostClass : string;
  Runtime : string;
  VRAMGB : float64;
  GPU : string;
  Capabilities : gmap string string
}.

Record Request := mkRequest {
  q_BaseModel : string;
  q_Adapter : string;
  q_Prompt : string;
  q_AffinityKey : string;
  q_PreferredWorker : string;
  q_MinContext : Z
}.

(** ** CandidatesFromSnapshot *)

Definition contains (ss : list string) (v : string) : bool := existsb (String.eqb v) ss.

(** [w.QueueDepth + w.InFlight + extra] *)
Definition depth_of (load : option (string -> Z)) (w : WorkerView) : Z :=
  let extra := match load with Some get => get (v_ID w) | None => 0 end in
  wrap_i64 (wrap_i64 (v_QueueDepth w + v_InFlight w) + extra).

(** The first view of a worker. *)
Definition new_candidate (load : option (string -> Z)) (latency : option (string -> float64))
    (w : WorkerView) : Candidate :=
  mkCandidate (v_ID w) (v_Endpoint w) (depth_of load w) (v_Healthy w) (v_Ready w)
    (match latency with Some get => get (v_ID w) | None => f_zero end)
    [] (v_MaxContext w) (v_CostPerHour w) (v_CostClass w) (v_Runtime w) (v_VRAMGB w)
    (v_GPU w) (v_Capabilities w).

(** The other views of the worker. *)
Definition merge_view (load : option (string -> Z)) (c : Candidate) (w : WorkerView) : Candidate :=
  let keep s old := if negb (String.eqb s "") then s else old in
  let depth := depth_of load w in
  mkCandidate (WorkerID c)
    (keep (v_Endpoint w) (Endpoint c))
    (if QueueDepth c <? depth then depth else QueueDepth c)
    (Healthy c || v_Healthy w) (Ready c || v_Ready w)
    (EwmaLatencyMs c) (Models c)
    (if MaxContext c <? v_MaxContext w then v_MaxContext w else MaxContext c)
    (if fltb f_zero (v_CostPerHour w) then v_CostPerHour w else CostPerHour c)
    (keep (v_CostClass w) (CostClass c))
    (keep (v_Runtime w) (Runtime c))
    (if fltb (VRAMGB c) (v_VRAMGB w) then v_VRAMGB w else VRAMGB c)
    (keep (v_GPU w) (GPU c))
    (if decide (v_Capabilities w = ∅) then Capabilities c else v_Capabilities w).

Definition set_Models (c : Candidate) (ms : list string) : Candidate :=
  mkCandidate (WorkerID c) (Endpoint c) (QueueDepth c) (Healthy c) (Ready c) (EwmaLatencyMs c)
    ms (MaxContext c) (CostPerHour c) (CostClass c) (Runtime c) (VRAMGB c) (GPU c) (Capabilities c).

Definition add_model (c : Candidate) (w : WorkerView) : Candidate :=
  if String.eqb (v_BaseModel w) "" then c
  else
    let id := if negb (String.eqb (v_Adapter w) "") then v_BaseModel w ++ "#" ++ v_Adapter w
              else v_BaseModel w in
    if contains (Models c) id then c else set_Models c (Models c ++ [id])%list.

(** [byID] and [order]. *)
Definition cand_state : Type := gmap string Candidate * list string.

Definition add_view (load : option (string -> Z)) (latency : option (string -> float64))
    (st : cand_state) (w : WorkerView) : cand_state :=
  let '(byID, order) := st in
  match byID !! v_ID w with
  | None => (<[v_ID w := add_model (new_candidate load latency w) w]> byID, (order ++ [v_ID w])%list)
  | Some c => (<[v_ID w := add_model (merge_view load c w) w]> byID, order)
  end.

Definition CandidatesFromSnapshot (snap : option RoutingSnapshot)
    (load : option (string -> Z)) (latency : option (string -> float64)) : list Candidate :=
  match snap with
  | None => []
  | Some s =>
      let '(byID, order) := foldl (add_view load latency) (∅, []) (Workers s) in
      omap (fun id => byID !! id) order
  end.

(** ** The filters *)

Definition HealthFilter (in_ : list Candidate) : list Candidate :=
  List.filter (fun c => Healthy c && Ready c) in_.

(** [splitModel]: [None] when not ok. *)
Definition splitModel (id : string) : option (string * string) :=
  if String.eqb id "" then None
  else match Index id "#" with
       | Some i => Some (str_take i id, str_drop (S i) id)
       | None => Some (id, "")
       end.

Definition serves_one (m want base adapter : string) : bool :=
  if String.eqb m want || String.eqb m base then true
  else if String.eqb adapter "" && HasPrefix m (base ++ "#") then true
  else match splitModel m with
       | None => false
       | Some (mb, ma) => String.eqb mb base && (String.eqb adapter "" || String.eqb ma adapter)
       end.

Definition servesModel (models : list string) (want base adapter : string) : bool :=
  existsb (fun m => serves_one m want base adapter) models.

(** [want]: the model id of a request. *)
Definition want_of (base adapter : string) : string :=
  if negb (String.eqb adapter "") then base ++ "#" ++ adapter else base.

Definition ModelFilter (req : option Request) (in_ : list Candidate) : list Candidate :=
  match req with
  | None => []
  | Some r =>
      if String.eqb (q_BaseModel r) "" then []
      else
        let want := want_of (q_BaseModel r) (q_Adapter r) in
        List.filter (fun c => servesModel (Models c) want (q_BaseModel r) (q_Adapter r)) in_
  end.

Definition satisfiesCapability (r : Request) (c : Candidate) : bool :=
  if (0 <? q_MinContext r) && (0 <? MaxContext c) && (MaxContext c <? q_MinContext r) then false
  else if String.eqb (q_BaseModel r) "" then true
  else match Models c with
       | [] => false
       | _ => servesModel (Models c) (want_of (q_BaseModel r) (q_Adapter r)) (q_BaseModel r) (q_Adapter r)
       end.

Definition CapabilityFilter (req : option Request) (in_ : list Candidate) : list Candidate :=
  match req with
  | None => in_
  | Some r => List.filter (satisfiesCapability r) in_
  end.

Definition AdmissionFilter (limit : Z) (in_ : list Candidate) : list Candidate :=
  if limit <=? 0 then in_ else List.filter (fun c => QueueDepth c <? limit) in_.

(** ** Lemmas: what the merge computes *)

Section Merge.
Context (load : option (string -> Z)) (latency : option (string -> float64)).

Definition merged_candidate (v : WorkerView) (vs : list WorkerView) : Candidate :=
  foldl (fun c w => add_model (merge_view load c w) w) (add_model (new_candidate load latency v) v) vs.

Definition views_of (id : string) (views : list WorkerView) : list WorkerView :=
  filter (fun v => v_ID v = id) views.

(** The two components of the loop's state, worker by worker. *)
Record cand_inv (views : list WorkerView) (st : cand_state) : Prop := {
  ci_lookup id : st.1 !! id =
    match views_of id views with [] => None | v :: vs => Some (merged_candidate v vs) end;
  ci_order id : id ∈ st.2 <-> id ∈ v_ID <$> views;
  ci_nodup : NoDup st.2
}.

Lemma views_of_snoc id views w :
  views_of id (views ++ [w])%list =
    if decide (v_ID w = id) then (views_of id views ++ [w])%list else views_of id views.
Proof.
  unfold views_of. rewrite list.filter_app, filter_cons, filter_nil. case_decide; [done|]. apply app_nil_r.
Qed.

Lemma views_of_nil id views : views_of id views = [] <-> id ∉ v_ID <$> views.
Proof.
  unfold views_of. rewrite list_elem_of_fmap. split.
  - intros E (v & -> & Hv). assert (v ∈ filter (fun x => v_ID x = v_ID v) views) as H
      by (by apply list_elem_of_filter). rewrite E in H. by apply elem_of_nil in H.
  - intros Hn. destruct (filter (fun v => v_ID v = id) views) as [|v l] eqn:E; [done|]. exfalso.
    assert (v ∈ filter (fun v => v_ID v = id) views) as [? ?]%list_elem_of_filter by (rewrite E; set_solver).
    apply Hn. by exists v.
Qed.

Lemma cand_inv_fold views : cand_inv views (foldl (add_view load latency) (∅, []) views).
Proof.
  induction views as [|w views IH] using rev_ind.
  - constructor; cbn; [done| |constructor]. intros id. split; intros H; by apply elem_of_nil in H.
  - rewrite foldl_app. cbn [foldl]. destruct (foldl (add_view load latency) (∅, []) views) as [byID order].
    destruct IH as [Hl Ho Hn]. cbn [fst snd] in *. unfold add_view.
    pose proof (Hl (v_ID w)) as Hw. pose proof (views_of_nil (v_ID w) views) as Hnil.
    destruct (byID !! v_ID w) as [c|] eqn:Ec; constructor; cbn [fst snd].
    + intros id. rewrite lookup_insert, views_of_snoc. case_decide as D; [|apply Hl]. subst id.
      destruct (views_of (v_ID w) views) as [|v vs]; [done|]. cbn. injection Hw as ->.
      unfold merged_candidate. by rewrite foldl_app.
    + intros id. rewrite fmap_app, elem_of_app, Ho. cbn. split; [by left|].
      intros [?|Hid%list_elem_of_singleton]; [done|]. subst. apply dec_stable. rewrite <- Hnil.
      by destruct (views_of (v_ID w) views).
    + done.
    + intros id. rewrite lookup_insert, views_of_snoc. case_decide as D; [|apply Hl]. subst id.
      by destruct (views_of (v_ID w) views).
    + intros id. rewrite fmap_app, !elem_of_app, Ho. done.
    + apply list.NoDup_app. split; [done|]. split; [|apply NoDup_singleton].
      intros x Hx ->%list_elem_of_singleton. apply Ho in Hx. apply Hnil; [|done].
      by destruct (views_of (v_ID w) views).
Qed.

(** Attribute by attribute, over the views of one worker. *)
Record merged_ok (views : list WorkerView) (c : Candidate) : Prop := {
  mo_id : Forall (fun v => v_ID v = WorkerID c) views;
  mo_healthy : Healthy c = existsb v_Healthy views;
  mo_ready : Ready c = existsb v_Ready views;
  mo_depth_max : Forall (fun v => depth_of load v <= QueueDepth c) views;
  mo_depth_in : QueueDepth c ∈ depth_of load <$> views;
  mo_models m : m ∈ Models c <-> exists v, v ∈ views /\ v_BaseModel v <> "" /\ m = ModelID v;
  mo_models_nodup : NoDup (Models c)
}.

Lemma contains_spec ss v : contains ss v = true <-> v ∈ ss.
Proof.
  unfold contains. rewrite existsb_exists. split.
  - intros (x & Hx%list_elem_of_In & E). zbool. by subst.
  - intros Hv. exists v. split; [by apply list_elem_of_In|]. apply String.eqb_refl.
Qed.

Lemma add_model_fields c w :
  WorkerID (add_model c w) = WorkerID c /\ Healthy (add_model c w) = Healthy c /\
  Ready (add_model c w) = Ready c /\ QueueDepth (add_model c w) = QueueDepth c.
Proof. unfold add_model. case_ifs. Qed.

Lemma add_model_models c w :
  NoDup (Models c) ->
  NoDup (Models (add_model c w)) /\
  forall m, m ∈ Models (add_model c w) <-> m ∈ Models c \/ (v_BaseModel w <> "" /\ m = ModelID w).
Proof.
  intros Hn. unfold add_model, ModelID.
  destruct (String.eqb_spec (v_BaseModel w) "") as [|Hb]; [naive_solver|].
  destruct (String.eqb (v_Adapter w) ""); cbn [negb];
    (match goal with |- context [contains (Models c) ?i] => destruct (contains (Models c) i) eqn:E end;
     [apply contains_spec in E; naive_solver|]);
    (split; [apply list.NoDup_app; split; [done|]; split; [|apply NoDup_singleton];
       intros x Hx ->%list_elem_of_singleton; apply contains_spec in Hx; congruence|]);
    intros m; cbn [set_Models Models]; rewrite elem_of_app, list_elem_of_singleton; naive_solver.
Qed.

Lemma merged_ok_new v : merged_ok [v] (add_model (new_candidate load latency v) v).
Proof.
  destruct (add_model_fields (new_candidate load latency v) v) as (E1 & E2 & E3 & E4).
  destruct (add_model_models (new_candidate load latency v) v (NoDup_nil_2)) as [Hn Hm].
  constructor; rewrite ?E1, ?E2, ?E3, ?E4; cbn.
  - by repeat constructor.
  - by rewrite orb_false_r.
  - by rewrite orb_false_r.
  - by repeat constructor.
  - by apply list_elem_of_singleton.
  - intros m. rewrite Hm. cbn. set_solver.
  - done.
Qed.

Lemma merged_ok_merge views c w :
  v_ID w = WorkerID c -> merged_ok views c ->
  merged_ok (views ++ [w])%list (add_model (merge_view load c w) w).
Proof.
  intros Hw [I1 I2 I3 I4 I5 I6 I7].
  destruct (add_model_fields (merge_view load c w) w) as (E1 & E2 & E3 & E4).
  destruct (add_model_models (merge_view load c w) w I7) as [Hn Hm].
  constructor; rewrite ?E1, ?E2, ?E3, ?E4; cbn [merge_view WorkerID Healthy Ready QueueDepth].
  - apply Forall_app. by repeat constructor.
  - rewrite existsb_app, I2. cbn. by rewrite orb_false_r.
  - rewrite existsb_app, I3. cbn. by rewrite orb_false_r.
  - apply Forall_app. split; [|repeat constructor; case_ifs; lia].
    eapply list.Forall_impl; [exact I4|]. cbn. intros x Hx. case_ifs; lia.
  - rewrite fmap_app, elem_of_app. case_if; [right; by apply list_elem_of_singleton|by left].
  - intros m. rewrite Hm. cbn [merge_view Models]. rewrite I6.
    setoid_rewrite elem_of_app. setoid_rewrite list_elem_of_singleton. naive_solver.
  - done.
Qed.

Lemma merged_candidate_ok id v vs :
  Forall (fun w => v_ID w = id) (v :: vs) ->
  merged_ok (v :: vs) (merged_candidate v vs) /\ WorkerID (merged_candidate v vs) = id.
Proof.
  induction vs as [|w vs IH] using rev_ind; intros Hid.
  - split; [apply merged_ok_new|]. inversion Hid; subst. apply add_model_fields.
  - rewrite app_comm_cons in *. apply Forall_app in Hid as [Hid Hw].
    destruct (IH Hid) as [Hok Hc]. apply (Forall_singleton (fun w => v_ID w = id)) in Hw.
    unfold merged_candidate. rewrite foldl_app. split.
    + apply merged_ok_merge; [exact (eq_trans Hw (eq_sym Hc))|exact Hok].
    + etransitivity; [apply add_model_fields|exact Hc].
Qed.

(** The candidates are the merges, one for each worker of the snapshot. *)
Lemma candidates_spec s c :
  c ∈ CandidatesFromSnapshot (Some s) load latency <->
  exists v vs, views_of (v_ID v) (Workers s) = v :: vs /\ c = merged_candidate v vs.
Proof.
  unfold CandidatesFromSnapshot. pose proof (cand_inv_fold (Workers s)) as [Hl Ho Hn].
  destruct (foldl _ _ (Workers s)) as [byID order]. cbn [fst snd] in *. rewrite list_elem_of_omap. split.
  - intros (id & Hid & E). rewrite Hl in E. destruct (views_of id (Workers s)) as [|v vs] eqn:Ev; [done|].
    injection E as <-. assert (v ∈ views_of id (Workers s)) as Hv by (rewrite Ev; set_solver).
    apply list_elem_of_filter in Hv as [<- _]. by exists v, vs.
  - intros (v & vs & Ev & ->). exists (v_ID v). rewrite Hl, Ev. split; [|done].
    apply Ho. apply dec_stable. rewrite <- views_of_nil, Ev. done.
Qed.
End Merge.

Lemma views_of_all id views : Forall (fun v => v_ID v = id) (views_of id views).
Proof. apply list.Forall_forall. intros v Hv. by apply list_elem_of_filter in Hv as [? _]. Qed.

Lemma candidates_ids s load latency :
  WorkerID <$> CandidatesFromSnapshot (Some s) load latency =
  (foldl (add_view load latency) (∅, []) (Workers s)).2.
Proof.
  unfold CandidatesFromSnapshot. pose proof (cand_inv_fold load latency (Workers s)) as [Hl Ho Hn].
  destruct (foldl _ _ (Workers s)) as [byID order]. cbn [fst snd] in *.
  assert (forall id, id ∈ order -> exists c, byID !! id = Some c /\ WorkerID c = id) as Hid.
  { intros id Hi. rewrite Hl. apply Ho in Hi.
    destruct (views_of id (Workers s)) as [|v vs] eqn:Ev; [by apply views_of_nil in Ev|].
    eexists. split; [done|]. eapply merged_candidate_ok. rewrite <- Ev. apply views_of_all. }
  clear Hl Ho Hn. induction order as [|id order IH]; [done|]. cbn.
  destruct (Hid id) as (c & Ec & Ew); [set_solver|]. rewrite Ec. cbn. rewrite Ew, IH; [done|].
  intros. apply Hid. set_solver.
Qed.

(** *** Model matching *)

Lemma splitModel_Some m mb ma :
  splitModel m = Some (mb, ma) -> m = mb \/ m = mb ++ "#" ++ ma.
Proof.
  unfold splitModel. destruct (String.eqb m ""); [done|].
  destruct (Index m "#") as [i|] eqn:E.
  - intros [= <- <-]. right. by apply IndexByte_Some in E as [_ E].
  - intros [= <- <-]. by left.
Qed.

Lemma serves_one_spec m base adapter :
  serves_one m (want_of base adapter) base adapter = true <->
  m = base \/ m = want_of base adapter \/ (adapter = "" /\ exists x, m = base ++ "#" ++ x).
Proof.
  unfold serves_one. destruct (String.eqb_spec m (want_of base adapter)) as [->|Hw]; [cbn; tauto|].
  destruct (String.eqb_spec m base) as [->|Hb]; [cbn; tauto|]. cbn [orb].
  destruct (String.eqb_spec adapter "") as [->|Ha]; cbn [andb orb].
  - destruct (HasPrefix m (base ++ "#")) eqn:Ep.
    + apply HasPrefix_spec in Ep as [x ->]. rewrite str_app_assoc. split; [|done].
      intros _. right. right. split; [done|]. by exists x.
    + split.
      * destruct (splitModel m) as [[mb ma]|] eqn:Es; [|done]. rewrite andb_true_r. intros E. zbool. subst mb.
        apply splitModel_Some in Es as [->|Es]; [done|]. right. right. split; [done|]. by exists ma.
      * intros [?|[?|[_ [x ->]]]]; [done|done|]. rewrite <- str_app_assoc, HasPrefix_app in Ep. done.
  - split.
    + destruct (splitModel m) as [[mb ma]|] eqn:Es; [|done]. intros E. zbool. subst.
      apply splitModel_Some in Es as [->| ->]; [by left|]. right. left. unfold want_of.
      destruct (String.eqb_spec adapter ""); done.
    + intros [?|[?|[? _]]]; done.
Qed.

(** ** Properties *)

(** The candidates built from a snapshot are one per worker id, for
    exactly the ids of its views; each merges all views of its worker: it is
    healthy (ready) when some view is, its queue depth is the largest of
    theirs (reported queue, in-flight and local load added up), and its model
    list holds, without repetition, exactly the model ids of the views that
    name a base model. *)
Theorem candidates_merge_views s load latency :
  NoDup (WorkerID <$> CandidatesFromSnapshot (Some s) load latency) /\
  (forall id, id ∈ WorkerID <$> CandidatesFromSnapshot (Some s) load latency <-> id ∈ v_ID <$> Workers s) /\
  (forall c, c ∈ CandidatesFromSnapshot (Some s) load latency ->
     merged_ok load (views_of (WorkerID c) (Workers s)) c).
Proof.
  rewrite candidates_ids. pose proof (cand_inv_fold load latency (Workers s)) as [_ Ho Hn].
  split; [done|]. split; [done|]. intros c (v & vs & Ev & ->)%candidates_spec.
  destruct (merged_candidate_ok load latency (v_ID v) v vs) as [Hok Hid].
  - rewrite <- Ev. apply views_of_all.
  - by rewrite Hid, Ev.
Qed.

(** A worker serves a requested model exactly when it lists the base
    model itself, or the very [base#adapter] requested, or, when no adapter is
    requested, some adapter of that base. *)
Theorem serves_model_spec models base adapter :
  servesModel models (want_of base adapter) base adapter = true <->
  exists m, m ∈ models /\
    (m = base \/ m = want_of base adapter \/ (adapter = "" /\ exists x, m = base ++ "#" ++ x)).
Proof.
  unfold servesModel. rewrite existsb_exists. split.
  - intros (m & Hm%list_elem_of_In & Hs%serves_one_spec). by exists m.
  - intros (m & Hm & Hs%serves_one_spec). exists m. split; [by apply list_elem_of_In|done].
Qed.

(** From heartbeat to candidate: when the snapshot is built from the
    registry and the health snapshot, a candidate passes the health filter
    exactly when its worker has a live heartbeat that says ready. *)
Theorem candidate_healthy_iff_heartbeat `{UnicodeTables}
    s all epoch now ws snap epoch' load latency c :
  keyed s -> all ≡ₚ Health.All s ->
  buildSnapshot epoch now (Ok ws) all [] = (Ok snap, epoch') ->
  c ∈ CandidatesFromSnapshot (Some snap) load latency ->
  (c ∈ HealthFilter [c] <-> exists hb, s !! WorkerID c = Some hb /\ Health.Ready hb = true).
Proof.
  intros Hs Hp Hb (v & vs & Ev & ->)%candidates_spec.
  pose proof (views_of_all (v_ID v) (Workers snap)) as Hall. rewrite Ev in Hall.
  destruct (merged_candidate_ok load latency _ _ _ Hall) as [[_ Hh Hr _ _ _ _] Hid].
  assert (forall w, w ∈ v :: vs -> v_Healthy w = live_in s (v_ID v) /\ v_Ready w = ready_in s (v_ID v)) as Hw.
  { intros w Hw. rewrite <- Ev in Hw. apply list_elem_of_filter in Hw as [<- Hw].
    revert Hb Hw. unfold buildSnapshot. rewrite (heartbeats_spec s all Hs Hp), app_nil_r. intros [= <- _].
    cbn [Workers]. intros (l & Hl & Hwl)%list_elem_of_In%in_concat. apply list_elem_of_In in Hl, Hwl.
    apply list_elem_of_fmap in Hl as (w0 & -> & _).
    by destruct (worker_views_spec s w0 w Hwl) as (-> & -> & ->). }
  assert (forall f b, (forall w, w ∈ v :: vs -> f w = b) -> existsb f (v :: vs) = b) as Hex.
  { intros f b Hf. cbn. rewrite (Hf v) by set_solver. destruct b; [done|]. cbn.
    destruct (existsb f vs) eqn:E; [|done]. apply existsb_exists in E as (w & Hin & E).
    rewrite Hf in E; [done|]. apply elem_of_cons. right. by apply list_elem_of_In. }
  unfold HealthFilter. cbn [List.filter]. rewrite Hh, Hr, Hid.
  rewrite (Hex v_Healthy _ (fun w Hi => proj1 (Hw w Hi))), (Hex v_Ready _ (fun w Hi => proj2 (Hw w Hi))).
  unfold live_in, ready_in. destruct (s !! v_ID v) as [hb|]; cbn [andb].
  - destruct (Health.Ready hb) eqn:Er; split; intros Hc.
    + by exists hb.
    + by apply list_elem_of_singleton.
    + by apply elem_of_nil in Hc.
    + destruct Hc as (hb' & [= <-] & Hr'). congruence.
  - split; [by intros Hc%elem_of_nil|by intros (? & ? & _)].
Qed.

Definition demo_candidate : Candidate :=
  mkCandidate "w1" "10.0.0.2:1" 2 true true f_zero ["m"; "m#a"] 0 f_zero "" "vllm" f_zero "" ∅.

Lemma candidate_healthy_iff_heartbeat_witness :
  demo_candidate ∈ HealthFilter [demo_candidate] <->
  exists hb, ({["w1" := demo_hb]} : gmap string _) !! WorkerID demo_candidate = Some hb /\ Health.Ready hb = true.
Proof.
  apply (@candidate_healthy_iff_heartbeat ascii_tables {["w1" := demo_hb]} [demo_hb]
           0 0 [demo_reg] demo_snapshot 1 None None).
  - by apply map_Forall_singleton.
  - by unfold Health.All; rewrite map_to_list_singleton.
  - vm_compute. reflexivity.
  - apply list_elem_of_singleton. vm_compute. reflexivity.
Defined.
