(* ===== verification/CacheRegistry.v ===== *)
(** * KV cache registry (services/cacheregistry: blockkey.go, index.go, service.go)

    Prompts are cut into blocks whose keys chain the previous key; workers
    report the blocks they hold and the index keeps them by namespace and by
    worker.  FNV-1a and the decoding of a string into runes are those of the
    standard library, written out.  The theorems relate the index to the
    sequence of events, tie its two maps to each other and characterise the
    block keys. *)

From Stdlib Require Import Ascii.
From S2P Require Import Prelude Float64 Rounding FloatRange GoStrings.

(** ** Block keys (blockkey.go) *)

Definition DefaultBlockSize : Z := 256.

(** The loop over [i]: the slice from [i] on, [fuel] iterations at most; the
    length of the slice is enough. *)
Fixpoint chunk_loop (fuel bs : nat) (l : list Z) : list (list Z) :=
  match fuel, l with
  | _, [] => []
  | O, _ => []
  | S fuel, _ => take bs l :: chunk_loop fuel bs (drop bs l)
  end.

Definition ChunkTokens (tokenIDs : list Z) (blockSize : Z) : list (list Z) :=
  let blockSize := if blockSize <=? 0 then DefaultBlockSize else blockSize in
  chunk_loop (length tokenIDs) (Z.to_nat blockSize) tokenIDs.

(** hash/fnv's 64-bit FNV-1a, byte by byte. *)
Definition fnv_offset : Z := 14695981039346656037.
Definition fnv_prime : Z := 1099511628211.

Definition fnv_byte (h b : Z) : Z := wrap_u64 (Z.lxor h b * fnv_prime).

Fixpoint fnv_string (h : Z) (s : string) : Z :=
  match s with "" => h | String a s' => fnv_string (fnv_byte h (Z.of_N (N_of_ascii a))) s' end.

(** [binary.Write] of an [n]-byte unsigned integer, little-endian. *)
Fixpoint fnv_le (n : nat) (h z : Z) : Z :=
  match n with O => h | S n' => fnv_le n' (fnv_byte h (z mod 256)) (z / 256) end.

Definition block_key (adapter : string) (parent : Z) (ch : list Z) : Z :=
  let h := fnv_string fnv_offset adapter in
  let h := fnv_le 8 h parent in
  let h := fnv_le 4 h (wrap_u32 (Z.of_nat (length ch))) in
  foldl (fun h t => fnv_le 4 h t) h ch.

Fixpoint hash_chunks (adapter : string) (parent : Z) (chunks : list (list Z)) : list Z :=
  match chunks with
  | [] => []
  | ch :: rest => let key := block_key adapter parent ch in key :: hash_chunks adapter key rest
  end.

Definition HashBlocks (tokenIDs : list Z) (blockSize : Z) (adapter : string) : list Z :=
  hash_chunks adapter 0 (ChunkTokens tokenIDs blockSize).

(** *** Ranging over a string: UTF-8 with U+FFFD for each invalid byte *)

Definition byte_at (s : string) (i : nat) : Z :=
  match String.get i s with Some a => Z.of_N (N_of_ascii a) | None => -1 end.

Definition in_range (lo hi b : Z) : bool := (lo <=? b) && (b <=? hi).
Definition cont (b : Z) : bool := in_range 128 191 b.

(** [utf8.DecodeRuneInString] on a non-empty string: the rune and its width. *)
Definition decode_rune (s : string) : Z * nat :=
  let b0 := byte_at s 0 in
  let b1 := byte_at s 1 in
  let b2 := byte_at s 2 in
  let b3 := byte_at s 3 in
  let invalid := (65533, 1%nat) in
  if b0 <? 128 then (b0, 1%nat)
  else if in_range 194 223 b0 then
    if cont b1 then (Z.land b0 31 * 64 + Z.land b1 63, 2%nat) else invalid
  else if in_range 224 239 b0 then
    let lo := if b0 =? 224 then 160 else 128 in
    let hi := if b0 =? 237 then 159 else 191 in
    if in_range lo hi b1 && cont b2
    then (Z.land b0 15 * 4096 + Z.land b1 63 * 64 + Z.land b2 63, 3%nat) else invalid
  else if in_range 240 244 b0 then
    let lo := if b0 =? 240 then 144 else 128 in
    let hi := if b0 =? 244 then 143 else 191 in
    if in_range lo hi b1 && cont b2 && cont b3
    then (Z.land b0 7 * 262144 + Z.land b1 63 * 4096 + Z.land b2 63 * 64 + Z.land b3 63, 4%nat)
    else invalid
  else invalid.

Fixpoint runes_loop (fuel : nat) (s : string) : list Z :=
  match fuel, s with
  | _, "" => []
  | O, _ => []
  | S fuel, _ => let '(r, w) := decode_rune s in r :: runes_loop fuel (str_drop w s)
  end.

Definition runes (s : string) : list Z := runes_loop (String.length s) s.

Definition HashPromptApprox (prompt : string) (blockSize : Z) (adapter : string) : list Z :=
  if String.eqb prompt "" then [] else HashBlocks (runes prompt) blockSize adapter.

(** [LongestConsecutivePrefix]: [score] accumulates from the first block. *)
Fixpoint prefix_loop (want : list Z) (have : gmap Z float64) (blocks : Z) (score : float64) : Z * float64 :=
  match want with
  | [] => (blocks, score)
  | h :: rest =>
      match have !! h with
      | None => (blocks, score)
      | Some w =>
          let w := if fleb w f_zero then f_one else w in
          prefix_loop rest have (blocks + 1) (fadd score (fmul (f_of_Z DefaultBlockSize) w))
      end
  end.

Definition LongestConsecutivePrefix (want : list Z) (have : gmap Z float64) : Z * float64 :=
  prefix_loop want have 0 f_zero.

(** ** The index (index.go) *)

Record BlockLocation := mkLoc { l_WorkerID : string; l_Tier : string; l_Weight : float64 }.

Record Index := mkIndex {
  byBlock : gmap string (gmap Z (gmap string BlockLocation));
  byWorker : gmap string (gmap Z float64)
}.

Definition NewIndex : Index := mkIndex ∅ ∅.

Definition ns (base adapter : string) : string :=
  if String.eqb adapter "" then base else base ++ "#" ++ adapter.

Definition tier_weight (tier : string) : float64 :=
  if String.eqb tier "cpu" then flit 8 10 else f_one.

(** One hash of the loop of [Store]. *)
Definition store_hash (key workerID tier : string) (idx : Index) (h : Z) : Index :=
  let loc := mkLoc workerID tier (tier_weight tier) in
  let blocks := default ∅ (byBlock idx !! key) in
  let locs := default ∅ (blocks !! h) in
  let held := default ∅ (byWorker idx !! workerID) in
  mkIndex (<[key := <[h := <[workerID := loc]> locs]> blocks]> (byBlock idx))
          (<[workerID := <[h := tier_weight tier]> held]> (byWorker idx)).

Definition Store (idx : Index) (base adapter workerID tier : string) (hashes : list Z) : Index :=
  if String.eqb workerID "" || match hashes with [] => true | _ => false end then idx
  else foldl (store_hash (ns base adapter) workerID tier) idx hashes.

(** [delete(locs, workerID)] for hash [h], in every namespace. *)
Definition drop_location (workerID : string) (h : Z)
    (bb : gmap string (gmap Z (gmap string BlockLocation))) : gmap string (gmap Z (gmap string BlockLocation)) :=
  alter (delete workerID) h <$> bb.

Definition remove_hash (workerID : string) (idx : Index) (h : Z) : Index :=
  mkIndex (drop_location workerID h (byBlock idx)) (alter (delete h) workerID (byWorker idx)).

Definition Remove (idx : Index) (workerID : string) (hashes : list Z) : Index :=
  foldl (remove_hash workerID) idx hashes.

Definition ClearWorker (idx : Index) (workerID : string) : Index :=
  let held := default ∅ (byWorker idx !! workerID) in
  mkIndex (foldr (drop_location workerID) (byBlock idx) (map_to_list held).*1)
          (delete workerID (byWorker idx)).

Definition WorkerBlocks (idx : Index) (workerID : string) : gmap Z float64 :=
  default ∅ (byWorker idx !! workerID).

Definition SnapshotForScoring (idx : Index) : gmap string (gmap Z float64) := byWorker idx.

(** ** The service (service.go) *)

Record Event := mkEvent {
  e_Type : string;
  e_WorkerID : string;
  e_BaseModel : string;
  e_Adapter : string;
  e_Tier : string;
  e_Hashes : list Z
}.

(** The index and the snapshot last published for scoring. *)
Record Service := mkService { index : Index; holder : gmap string (gmap Z float64) }.

Definition publishSnapshot (s : Service) : Service := mkService (index s) (SnapshotForScoring (index s)).

Definition NewService : Service := publishSnapshot (mkService NewIndex ∅).

Definition apply_index (idx : Index) (ev : Event) : Index :=
  if String.eqb (e_Type ev) "stored" then
    Store idx (e_BaseModel ev) (e_Adapter ev) (e_WorkerID ev) (e_Tier ev) (e_Hashes ev)
  else if String.eqb (e_Type ev) "removed" then Remove idx (e_WorkerID ev) (e_Hashes ev)
  else if String.eqb (e_Type ev) "cleared" then ClearWorker idx (e_WorkerID ev)
  else idx.

Definition Apply (s : Service) (ev : Event) : Service :=
  publishSnapshot (mkService (apply_index (index s) ev) (holder s)).

(** ** Lemmas on the index *)

(** The weight of block [h] at worker [w], and its location in a namespace. *)
Definition held (idx : Index) (w : string) (h : Z) : option float64 :=
  byWorker idx !! w ≫= (fun m => m !! h).

Definition location (idx : Index) (key : string) (h : Z) (w : string) : option BlockLocation :=
  (byBlock idx !! key ≫= (fun m => m !! h)) ≫= (fun m => m !! w).

Lemma default_lookup {K A} `{Countable K} (o : option (gmap K A)) k :
  default ∅ o !! k = o ≫= (fun m => m !! k).
Proof. destruct o; [done|]. apply lookup_empty. Qed.

Lemma held_store_hash key w tier idx h w' h' :
  held (store_hash key w tier idx h) w' h' =
    if decide (w' = w /\ h' = h) then Some (tier_weight tier) else held idx w' h'.
Proof.
  unfold held, store_hash. cbn [byWorker]. rewrite lookup_insert.
  destruct (decide (w = w')) as [<-|Hw]; cbn.
  - rewrite lookup_insert. destruct (decide (h = h')) as [<-|Hh].
    + by rewrite decide_True.
    + rewrite decide_False by naive_solver. apply default_lookup.
  - by rewrite decide_False by naive_solver.
Qed.

Lemma location_store_hash key w tier idx h key' h' w' :
  location (store_hash key w tier idx h) key' h' w' =
    if decide (key' = key /\ h' = h /\ w' = w) then Some (mkLoc w tier (tier_weight tier))
    else location idx key' h' w'.
Proof.
  unfold location, store_hash. cbn [byBlock]. rewrite lookup_insert.
  destruct (decide (key = key')) as [<-|Hk]; cbn.
  - rewrite lookup_insert. destruct (decide (h = h')) as [<-|Hh]; cbn.
    + rewrite lookup_insert. destruct (decide (w = w')) as [<-|Hw].
      * by rewrite decide_True.
      * rewrite decide_False by naive_solver. by rewrite !default_lookup.
    + rewrite decide_False by naive_solver. by rewrite default_lookup.
  - by rewrite decide_False by naive_solver.
Qed.

Lemma held_remove_hash w idx h w' h' :
  held (remove_hash w idx h) w' h' = if decide (w' = w /\ h' = h) then None else held idx w' h'.
Proof.
  unfold held, remove_hash. cbn [byWorker]. rewrite lookup_alter.
  destruct (decide (w = w')) as [<-|Hw]; cbn.
  - destruct (byWorker idx !! w) as [m|]; cbn; [|by case_decide]. rewrite lookup_delete.
    repeat case_decide; naive_solver.
  - by rewrite decide_False by naive_solver.
Qed.

(** The location of a block after the worker is dropped from hash [h]. *)
Lemma location_drop w bb h bw key' h' w' :
  location (mkIndex (drop_location w h bb) bw) key' h' w' =
    if decide (w' = w /\ h' = h) then None else location (mkIndex bb bw) key' h' w'.
Proof.
  unfold location, drop_location. cbn [byBlock]. rewrite lookup_fmap.
  destruct (bb !! key') as [m|]; cbn; [|by case_decide]. rewrite lookup_alter.
  destruct (decide (h = h')) as [<-|Hh]; cbn; [|by rewrite decide_False by naive_solver].
  destruct (m !! h) as [locs|]; cbn; [|by case_decide]. rewrite lookup_delete.
  repeat case_decide; naive_solver.
Qed.

Lemma location_clear w bb bw hs key' h' w' :
  location (mkIndex (foldr (drop_location w) bb hs) bw) key' h' w' =
    if decide (w' = w /\ h' ∈ hs) then None else location (mkIndex bb bw) key' h' w'.
Proof.
  induction hs as [|h hs IH]; cbn [foldr].
  - rewrite decide_False; [done|]. intros [_ H]. by apply elem_of_nil in H.
  - rewrite location_drop, IH. repeat case_decide; set_solver.
Qed.

(** The two maps agree. *)
Definition consistent (idx : Index) : Prop :=
  forall w h, is_Some (held idx w h) <-> exists key, is_Some (location idx key h w).

Lemma consistent_store_hash key w tier idx h : consistent idx -> consistent (store_hash key w tier idx h).
Proof.
  unfold consistent. intros Hc w' h'. rewrite held_store_hash. setoid_rewrite location_store_hash.
  destruct (decide (w' = w /\ h' = h)) as [[-> ->]|Hn].
  - split; [|done]. intros _. exists key. by rewrite decide_True.
  - rewrite Hc. split; intros [key' Hk]; exists key'; rewrite decide_False in *; naive_solver.
Qed.

Lemma consistent_remove_hash w idx h : consistent idx -> consistent (remove_hash w idx h).
Proof.
  intros Hc w' h'. rewrite held_remove_hash. unfold remove_hash. setoid_rewrite location_drop.
  destruct (decide (w' = w /\ h' = h)); [split; [by intros []|by intros [? []]]|]. apply Hc.
Qed.

Lemma held_in_keys idx w h :
  is_Some (held idx w h) <-> h ∈ (map_to_list (default ∅ (byWorker idx !! w))).*1.
Proof.
  rewrite list_elem_of_fmap. unfold held. rewrite <- default_lookup. split.
  - intros [x Hx]. exists (h, x). split; [done|]. by apply elem_of_map_to_list.
  - intros ([h' x] & -> & Hx%elem_of_map_to_list). by exists x.
Qed.

Lemma held_clear idx w w' h :
  held (ClearWorker idx w) w' h = if decide (w' = w) then None else held idx w' h.
Proof.
  unfold held, ClearWorker. cbn [byWorker]. rewrite lookup_delete.
  repeat case_decide; subst; naive_solver.
Qed.

Lemma consistent_clear idx w : consistent idx -> consistent (ClearWorker idx w).
Proof.
  intros Hc w' h'. rewrite held_clear. unfold ClearWorker. setoid_rewrite location_clear.
  pose proof (held_in_keys idx w h') as Hk. specialize (Hc w' h'). destruct idx as [bb bw].
  cbn [byWorker byBlock] in *. destruct (decide (w' = w)) as [->|Hw].
  - split; [by intros []|]. intros [key Hl]. case_decide as D; [by destruct Hl|].
    exfalso. apply D. split; [done|]. apply Hk, Hc. by exists key.
  - rewrite Hc. split; intros [key Hl]; exists key; rewrite decide_False in *; naive_solver.
Qed.

(** ** What the events say *)

(** The weight event [ev] leaves at worker [w] for block [h], given the one
    before it. *)
Definition event_effect (ev : Event) (w : string) (h : Z) (before : option float64) : option float64 :=
  if negb (String.eqb (e_WorkerID ev) w) then before
  else if String.eqb (e_Type ev) "stored" then
    if negb (String.eqb w "") && bool_decide (h ∈ e_Hashes ev) then Some (tier_weight (e_Tier ev)) else before
  else if String.eqb (e_Type ev) "removed" then
    if bool_decide (h ∈ e_Hashes ev) then None else before
  else if String.eqb (e_Type ev) "cleared" then None
  else before.

Definition spec_held (evs : list Event) (w : string) (h : Z) : option float64 :=
  foldl (fun before ev => event_effect ev w h before) None evs.

Lemma store_loop key w tier hs idx :
  consistent idx ->
  consistent (foldl (store_hash key w tier) idx hs) /\
  forall w' h', held (foldl (store_hash key w tier) idx hs) w' h' =
    if decide (w' = w /\ h' ∈ hs) then Some (tier_weight tier) else held idx w' h'.
Proof.
  revert idx. induction hs as [|h hs IH]; intros idx Hc; cbn [foldl].
  - split; [done|]. intros w' h'. rewrite decide_False; [done|]. intros [_ H]. by apply elem_of_nil in H.
  - destruct (IH _ (consistent_store_hash key w tier idx h Hc)) as [Hc' Hh]. split; [done|].
    intros w' h'. rewrite Hh, held_store_hash. repeat case_decide; set_solver.
Qed.

Lemma remove_loop w hs idx :
  consistent idx ->
  consistent (foldl (remove_hash w) idx hs) /\
  forall w' h', held (foldl (remove_hash w) idx hs) w' h' =
    if decide (w' = w /\ h' ∈ hs) then None else held idx w' h'.
Proof.
  revert idx. induction hs as [|h hs IH]; intros idx Hc; cbn [foldl].
  - split; [done|]. intros w' h'. rewrite decide_False; [done|]. intros [_ H]. by apply elem_of_nil in H.
  - destruct (IH _ (consistent_remove_hash w idx h Hc)) as [Hc' Hh]. split; [done|].
    intros w' h'. rewrite Hh, held_remove_hash. repeat case_decide; set_solver.
Qed.

Lemma apply_index_spec idx ev :
  consistent idx ->
  consistent (apply_index idx ev) /\
  forall w h, held (apply_index idx ev) w h = event_effect ev w h (held idx w h).
Proof.
  intros Hc. unfold apply_index, event_effect.
  destruct (String.eqb (e_Type ev) "stored"); [|destruct (String.eqb (e_Type ev) "removed");
    [|destruct (String.eqb (e_Type ev) "cleared")]].
  - unfold Store. destruct (String.eqb_spec (e_WorkerID ev) "") as [E|E]; cbn [orb].
    + split; [done|]. intros w h. rewrite E. by case_ifs.
    + destruct (e_Hashes ev) as [|h0 hs] eqn:Eh.
      * split; [done|]. intros w h. rewrite bool_decide_eq_false_2 by apply not_elem_of_nil.
        rewrite andb_false_r. by destruct (negb _).
      * destruct (store_loop (ns (e_BaseModel ev) (e_Adapter ev)) (e_WorkerID ev) (e_Tier ev) (h0 :: hs) idx Hc)
          as [Hc' Hh]. split; [exact Hc'|]. intros w h. rewrite Hh.
        destruct (String.eqb_spec (e_WorkerID ev) w) as [<-|Hw]; cbn [negb].
        -- destruct (String.eqb_spec (e_WorkerID ev) ""); [done|]. cbn [negb andb].
           case_bool_decide; [by rewrite decide_True|by rewrite decide_False by naive_solver].
        -- by rewrite decide_False by naive_solver.
  - destruct (remove_loop (e_WorkerID ev) (e_Hashes ev) idx Hc) as [Hc' Hh]. split; [exact Hc'|].
    intros w h. unfold Remove. rewrite Hh. destruct (String.eqb_spec (e_WorkerID ev) w) as [<-|Hw]; cbn [negb].
    + case_bool_decide; [by rewrite decide_True|by rewrite decide_False by naive_solver].
    + by rewrite decide_False by naive_solver.
  - split; [by apply consistent_clear|]. intros w h. rewrite held_clear.
    destruct (String.eqb_spec (e_WorkerID ev) w) as [<-|Hw]; cbn [negb]; [by rewrite decide_True|].
    by rewrite decide_False by congruence.
  - split; [done|]. intros w h. by destruct (negb _).
Qed.

Lemma apply_events_spec evs :
  let s := foldl Apply NewService evs in
  consistent (index s) /\ holder s = byWorker (index s) /\
  forall w h, held (index s) w h = spec_held evs w h.
Proof.
  cbn zeta. induction evs as [|ev evs IH] using rev_ind.
  - split; [|done]. intros w h. unfold held, location. cbn. rewrite !lookup_empty. cbn.
    split; [by intros []|]. intros [key [x Hx]]. by rewrite lookup_empty in Hx.
  - unfold spec_held in *. rewrite !foldl_app. cbn [foldl]. destruct IH as (Hc & _ & Hh).
    destruct (apply_index_spec (index (foldl Apply NewService evs)) ev Hc) as [Hc' Hh'].
    split; [exact Hc'|]. split; [done|]. intros w h. unfold spec_held. rewrite foldl_app. cbn [foldl].
    cbn [Apply publishSnapshot index]. by rewrite Hh', Hh.
Qed.

(** ** Lemmas on block keys *)

Lemma chunk_loop_fuel fuel fuel' bs l :
  (0 < bs)%nat -> (length l <= fuel)%nat -> (length l <= fuel')%nat ->
  chunk_loop fuel bs l = chunk_loop fuel' bs l.
Proof.
  intros Hb. revert fuel' l. induction fuel as [|fuel IH]; intros fuel' [|x l] H H'; cbn in H; try lia.
  - by destruct fuel'.
  - by destruct fuel'.
  - destruct fuel' as [|fuel']; cbn in H'; [lia|]. cbn [chunk_loop]. f_equal.
    apply IH; rewrite length_drop; cbn [length]; lia.
Qed.

(** Induction on the blocks of a list. *)
Lemma chunks_ind (P : list Z -> list (list Z) -> Prop) bs :
  (0 < bs)%nat -> P [] [] ->
  (forall l cs, l <> [] -> P (drop bs l) cs -> P l (take bs l :: cs)) ->
  forall l, P l (chunk_loop (length l) bs l).
Proof.
  intros Hb H0 H1 l. remember (length l) as n eqn:En. assert (length l <= n)%nat as Hn by lia. clear En.
  revert l Hn. induction n as [|n IH]; intros [|x l] Hn; cbn in Hn; try done; [lia|].
  cbn [chunk_loop]. apply H1; [done|]. apply IH. rewrite length_drop. cbn [length]. lia.
Qed.

Lemma chunk_loop_app bs p q k :
  (0 < bs)%nat -> length p = (k * bs)%nat ->
  chunk_loop (length (p ++ q)) bs (p ++ q) = (chunk_loop (length p) bs p ++ chunk_loop (length q) bs q)%list.
Proof.
  intros Hb. revert p. induction k as [|k IH]; intros p Hp; [by destruct p|].
  destruct p as [|x p']; [cbn in Hp; lia|].
  assert (length (drop bs (x :: p')) = (k * bs)%nat) as Hd by (rewrite length_drop; lia).
  cbn [app length chunk_loop]. change (x :: p' ++ q)%list with ((x :: p') ++ q)%list.
  rewrite take_app_le, drop_app_le by lia. f_equal.
  rewrite (chunk_loop_fuel _ (length (drop bs (x :: p') ++ q)) bs (drop bs (x :: p') ++ q)),
          (IH _ Hd), (chunk_loop_fuel (length p') (length (drop bs (x :: p'))) bs); try done.
  - rewrite length_drop. cbn [length]. lia.
  - rewrite !length_app, length_drop. cbn [length]. lia.
Qed.

Lemma hash_chunks_app adapter parent cs ds :
  exists rest, hash_chunks adapter parent (cs ++ ds)%list = (hash_chunks adapter parent cs ++ rest)%list.
Proof.
  revert parent. induction cs as [|c cs IH]; intros parent; cbn; [by eexists|].
  destruct (IH (block_key adapter parent c)) as [rest ->]. by exists rest.
Qed.

Lemma hash_chunks_length adapter parent cs : length (hash_chunks adapter parent cs) = length cs.
Proof. revert parent. induction cs as [|c cs IH]; intros parent; cbn; [done|]. by rewrite IH. Qed.

(** The blocks held from the start of [want]. *)
Fixpoint held_prefix (want : list Z) (have : gmap Z float64) : nat :=
  match want with
  | [] => 0
  | h :: rest => match have !! h with None => 0 | Some _ => S (held_prefix rest have) end
  end.

Lemma held_prefix_le want have : (held_prefix want have <= length want)%nat.
Proof. induction want as [|h want IH]; cbn; [lia|]. destruct (have !! h); cbn; lia. Qed.

Definition weights_ok (have : gmap Z float64) : Prop := map_Forall (fun _ w => frange 1 w) have.

Lemma prefix_loop_blocks want have blocks score :
  (prefix_loop want have blocks score).1 = blocks + Z.of_nat (held_prefix want have).
Proof.
  revert blocks score. induction want as [|h want IH]; intros blocks score; cbn; [lia|].
  destruct (have !! h); cbn; [|lia]. rewrite IH. lia.
Qed.

Lemma prefix_loop_score want have blocks score :
  weights_ok have -> 0 <= blocks -> 256 * (blocks + Z.of_nat (length want)) < 2 ^ 53 ->
  frange (256 * blocks) score ->
  frange (256 * (blocks + Z.of_nat (held_prefix want have))) (prefix_loop want have blocks score).2.
Proof.
  intros Hw. revert blocks score. induction want as [|h want IH]; intros blocks score Hb Hl Hs;
    cbn [prefix_loop held_prefix snd Z.of_nat].
  - by rewrite Z.add_0_r.
  - cbn [length] in Hl. destruct (have !! h) as [w|] eqn:Eh; cbn [snd Z.of_nat]; [|by rewrite Z.add_0_r].
    replace (blocks + Z.of_nat (S (held_prefix want have)))
      with (blocks + 1 + Z.of_nat (held_prefix want have)) by lia.
    apply IH; [lia|lia|]. replace (256 * (blocks + 1)) with (256 * blocks + 256 * 1) by ring.
    apply frange_add; [lia|lia|lia|done|]. apply frange_mul; [lia|lia|lia| |].
    + by apply frange_of_Z.
    + destruct (fleb w f_zero); [apply frange_one|]. exact (Hw h w Eh).
Qed.

Lemma longest_prefix_range want have blocks score :
  weights_ok have -> 256 * Z.of_nat (length want) < 2 ^ 53 ->
  LongestConsecutivePrefix want have = (blocks, score) ->
  blocks = Z.of_nat (held_prefix want have) /\ frange (256 * blocks) score.
Proof.
  intros Hw Hl E.
  pose proof (prefix_loop_blocks want have 0 f_zero) as Hb.
  pose proof (prefix_loop_score want have 0 f_zero Hw ltac:(lia) Hl (frange_zero (256 * 0) ltac:(lia))) as Hs.
  unfold LongestConsecutivePrefix in E. rewrite E in Hb, Hs. cbn [fst snd] in *.
  rewrite Z.add_0_l in Hb, Hs. rewrite <- Hb in Hs. by split.
Qed.

(** ** Properties *)

(** C35: whatever the sequence of cache events, the index holds for each worker
    and block exactly what the last event about that pair says (the weight of
    its tier when stored, nothing when removed or cleared), the snapshot
    published for scoring is that map, and the two maps of the index agree: a
    worker holds a block exactly when some namespace locates it there. *)
Theorem cache_index_tracks_events evs w h :
  let s := foldl Apply NewService evs in
  (holder s !! w ≫= fun m => m !! h) = spec_held evs w h /\
  WorkerBlocks (index s) w !! h = spec_held evs w h /\
  (is_Some (spec_held evs w h) <-> exists key, is_Some (location (index s) key h w)).
Proof.
  cbn zeta. destruct (apply_events_spec evs) as (Hc & Hs & Hh). rewrite Hs, <- Hh.
  split; [done|]. split; [apply default_lookup|]. apply Hc.
Qed.

(** Cutting into blocks loses nothing and the blocks are full: their
    concatenation is the token list, each has between one and [blockSize]
    tokens, there are [ceil(n / blockSize)] of them, and a key per block. *)
Theorem chunk_tokens_partition tokens blockSize adapter :
  0 < blockSize ->
  concat (ChunkTokens tokens blockSize) = tokens /\
  Forall (fun c => (0 < length c <= Z.to_nat blockSize)%nat) (ChunkTokens tokens blockSize) /\
  Z.of_nat (length (ChunkTokens tokens blockSize)) = (Z.of_nat (length tokens) + blockSize - 1) / blockSize /\
  length (HashBlocks tokens blockSize adapter) = length (ChunkTokens tokens blockSize).
Proof.
  intros Hb. unfold HashBlocks. rewrite hash_chunks_length. unfold ChunkTokens.
  destruct (Z.leb_spec blockSize 0); [lia|].
  apply (chunks_ind (fun l cs => concat cs = l /\ Forall (fun c => (0 < length c <= Z.to_nat blockSize)%nat) cs /\
    Z.of_nat (length cs) = (Z.of_nat (length l) + blockSize - 1) / blockSize /\ length cs = length cs)); [lia| |].
  - split_and!; try done. cbn. symmetry. apply Z.div_small. lia.
  - intros l cs Hl (Hc & Hf & Hn & _). split_and!; [|constructor; [|done]| |done].
    + cbn. by rewrite Hc, take_drop.
    + rewrite length_take. destruct l; [done|]. cbn [length]. lia.
    + cbn [length]. rewrite Nat2Z.inj_succ, Hn, length_drop.
      destruct (Z.leb_spec (Z.of_nat (length l)) blockSize).
      * replace (length l - Z.to_nat blockSize)%nat with 0%nat by lia. cbn [Z.of_nat].
        rewrite (Z.div_small (0 + blockSize - 1)) by lia. destruct l; [done|]. cbn [length] in *.
        replace (Z.of_nat (S (length l)) + blockSize - 1) with (Z.of_nat (length l) + 1 * blockSize) by lia.
        rewrite Z.div_add by lia. rewrite Z.div_small by lia. lia.
      * replace (Z.of_nat (length l - Z.to_nat blockSize) + blockSize - 1)
          with (Z.of_nat (length l) + blockSize - 1 + (-1) * blockSize) by lia.
        rewrite Z.div_add by lia. lia.
Qed.

Lemma chunk_tokens_partition_witness :
  concat (ChunkTokens [1; 2; 3; 4; 5] 2) = [1; 2; 3; 4; 5].
Proof. apply (chunk_tokens_partition [1; 2; 3; 4; 5] 2 ""). reflexivity. Defined.

(** Block keys are a prefix code of the prompt: token lists that share
    their first [k] whole blocks share the first [k] keys, whatever follows. *)
Theorem hash_blocks_prefix p q k blockSize adapter :
  0 < blockSize -> Z.of_nat (length p) = k * blockSize ->
  HashBlocks p blockSize adapter `prefix_of` HashBlocks (p ++ q)%list blockSize adapter /\
  Z.of_nat (length (HashBlocks p blockSize adapter)) = k.
Proof.
  intros Hb Hp. assert (0 <= k) as Hk by nia.
  unfold HashBlocks, ChunkTokens. destruct (Z.leb_spec blockSize 0); [lia|].
  rewrite (chunk_loop_app _ p q (Z.to_nat k)) by nia. split.
  - destruct (hash_chunks_app adapter 0 (chunk_loop (length p) (Z.to_nat blockSize) p)
      (chunk_loop (length q) (Z.to_nat blockSize) q)) as [rest ->]. by exists rest.
  - rewrite hash_chunks_length.
    pose proof (chunks_ind (fun l cs => forall k, Z.of_nat (length l) = k * blockSize -> Z.of_nat (length cs) = k)
      (Z.to_nat blockSize) ltac:(lia)) as Hi. apply Hi; [| |done].
    + cbn. intros k' E. nia.
    + intros l cs Hl IH k' E. cbn [length]. rewrite Nat2Z.inj_succ, (IH (k' - 1)); [lia|].
      rewrite length_drop. destruct l; [done|]. cbn [length] in *.
      assert (1 <= k') by nia. assert (blockSize <= Z.of_nat (S (length l))) by nia.
      rewrite Nat2Z.inj_sub by lia. rewrite E. lia.
Qed.

Lemma hash_blocks_prefix_witness :
  HashBlocks [10; 11; 12; 13] 2 "lora" `prefix_of` HashBlocks ([10; 11; 12; 13] ++ [99])%list 2 "lora".
Proof. apply (hash_blocks_prefix [10; 11; 12; 13] [99] 2 2 "lora"); reflexivity. Defined.

(** The overlap of a prompt with a worker's cache is the number of
    leading blocks the worker holds, stopping at the first one it lacks, and
    with weights between zero and one the score lies between zero and 256 per
    block, through every rounding. *)
Theorem longest_prefix_spec want have blocks score :
  weights_ok have -> 256 * Z.of_nat (length want) < 2 ^ 53 ->
  LongestConsecutivePrefix want have = (blocks, score) ->
  0 <= blocks <= Z.of_nat (length want) /\
  Forall (fun h => is_Some (have !! h)) (take (Z.to_nat blocks) want) /\
  (forall h, want !! Z.to_nat blocks = Some h -> have !! h = None) /\
  frange (256 * blocks) score.
Proof.
  intros Hw Hl E. destruct (longest_prefix_range want have blocks score Hw Hl E) as [Hb Hs].
  rewrite Hb, Nat2Z.id. pose proof (held_prefix_le want have). clear E Hw Hl.
  assert (Forall (fun h => is_Some (have !! h)) (take (held_prefix want have) want) /\
    (forall h, want !! held_prefix want have = Some h -> have !! h = None)) as (H2 & H3).
  { clear. induction want as [|h want IH]; cbn; [by repeat constructor|].
    destruct (have !! h) as [w|] eqn:Eh.
    - destruct IH as (? & ?). cbn. split; [|done]. constructor; [by rewrite Eh|done].
    - cbn. split; [constructor|]. intros h' [= <-]. done. }
  split; [lia|]. split; [done|]. split; [done|]. by rewrite <- Hb.
Qed.

Lemma longest_prefix_spec_witness :
  frange 512 (LongestConsecutivePrefix [7; 8; 9] {[ 7 := f_one; 8 := flit 8 10 ]}).2.
Proof.
  assert (weights_ok {[ 7 := f_one; 8 := flit 8 10 ]}) as Hw.
  { apply map_Forall_insert_2; [apply frange_one|]. apply map_Forall_singleton.
    split; [exact eq_refl|]. split; [exact I|]. vm_compute. split; discriminate. }
  destruct (LongestConsecutivePrefix [7; 8; 9] {[ 7 := f_one; 8 := flit 8 10 ]}) as [b s] eqn:E.
  assert (b = 2) as -> by (change b with (fst (b, s)); rewrite <- E; vm_compute; exact eq_refl).
  apply (longest_prefix_spec [7; 8; 9] {[ 7 := f_one; 8 := flit 8 10 ]} 2 s Hw); [vm_compute; exact eq_refl|exact E].
Defined.
