(* ===== verification/CacheEvents.v ===== *)
(** * Cache events between control planes (services/cacheregistry: Report,
      subscribe, InjectIntoRouting of service.go, Persist of index.go; the
      /internal/cache/events handler of cmd/forge-controlplane/main.go)

    Each control plane has the cache service of CacheRegistry.v and a
    subscription to the events channel.  Workers post events to one of them;
    the stored ones are published, and every control plane, the publisher
    included, applies what its subscription delivers.  The steps interleave
    freely; a subscription delivers in order and may lose messages. *)

From Stdlib Require Import Ascii.
From S2P Require Import Prelude Float64 GoStrings GoFormat Json JsonDecode Errors Routing CacheRegistry.

(** ** The JSON of an event *)

Record event_state := mkEventState {
  es_Type : string; es_WorkerID : string; es_BaseModel : string; es_Adapter : string; es_Tier : string; es_Hashes : slice Z
}.

Definition zero_event : event_state := mkEventState "" "" "" "" "" nil_slice.

Definition event_fields : fields event_state :=
  [("type", fun e d => option_map (fun x => mkEventState x (es_WorkerID e) (es_BaseModel e) (es_Adapter e) (es_Tier e)
      (es_Hashes e)) (dec_string (es_Type e) d));
   ("worker_id", fun e d => option_map (fun x => mkEventState (es_Type e) x (es_BaseModel e) (es_Adapter e) (es_Tier e)
      (es_Hashes e)) (dec_string (es_WorkerID e) d));
   ("base_model", fun e d => option_map (fun x => mkEventState (es_Type e) (es_WorkerID e) x (es_Adapter e) (es_Tier e)
      (es_Hashes e)) (dec_string (es_BaseModel e) d));
   ("adapter", fun e d => option_map (fun x => mkEventState (es_Type e) (es_WorkerID e) (es_BaseModel e) x (es_Tier e)
      (es_Hashes e)) (dec_string (es_Adapter e) d));
   ("tier", fun e d => option_map (fun x => mkEventState (es_Type e) (es_WorkerID e) (es_BaseModel e) (es_Adapter e) x
      (es_Hashes e)) (dec_string (es_Tier e) d));
   ("hashes", fun e d => option_map (mkEventState (es_Type e) (es_WorkerID e) (es_BaseModel e) (es_Adapter e) (es_Tier e))
      (dec_slice 0 dec_uint64 (es_Hashes e) d))].

Definition event_of (e : event_state) : Event :=
  mkEvent (es_Type e) (es_WorkerID e) (es_BaseModel e) (es_Adapter e) (es_Tier e) (contents (es_Hashes e)).

(** An event without hashes, which Go writes as null or as [] depending on how
    it came about, is read alike either way. *)
Definition event_doc (ev : Event) : doc :=
  DObj [("type", DStr (e_Type ev)); ("worker_id", DStr (e_WorkerID ev)); ("base_model", DStr (e_BaseModel ev));
        ("adapter", DStr (e_Adapter ev)); ("tier", DStr (e_Tier ev)); ("hashes", DArr (DInt <$> e_Hashes ev))].

Definition marshal_event (ev : Event) : string := print (event_doc ev).

Definition unmarshal_event (payload : string) : option Event :=
  option_map event_of (unmarshal_into zero_event (dec_struct event_fields) payload).

(** ShouldBindJSON of the handler. *)
Definition bind_event (body : string) : option Event :=
  match first_value body with
  | Some d => option_map event_of (dec_struct event_fields zero_event d)
  | None => None
  end.

Definition EventsChannel : string := "forge:cache:events".

(** ** One control plane *)

(** [%x] of a hash. *)
Definition hex_digit (d : Z) : ascii := ascii_of_N (Z.to_N (if d <? 10 then 48 + d else 87 + d)).

Fixpoint hex_loop (fuel : nat) (h : Z) (acc : string) : string :=
  match fuel with
  | O => acc
  | S fuel =>
      let acc := String (hex_digit (h mod 16)) acc in
      if h / 16 =? 0 then acc else hex_loop fuel (h / 16) acc
  end.

Definition hex (h : Z) : string := hex_loop 16 h "".

(** The commands of a Redis pipeline. *)
Inductive command : Type :=
| SAdd (key member : string)
| Expire (key : string) (ttl : Z).

Definition index_ttl : Z := 60 * second.

(** [Persist]: the pipeline it executes, whose outcome is ignored. *)
Definition Persist (base adapter workerID : string) (hashes : list Z) : list command :=
  List.concat (List.map (fun h =>
    let key := "forge:cache:" ++ ns base adapter ++ ":block:" ++ hex h in
    [SAdd key workerID; Expire key index_ttl]) hashes).

Definition stored_event (workerID base adapter tier : string) (hashes : list Z) : Event :=
  mkEvent "stored" workerID base adapter tier hashes.

(** [Report]: the service, the pipeline and the payload published. *)
Definition Report (s : Service) (workerID base adapter tier : string) (hashes : list Z)
    : Service * list command * string :=
  (Apply s (stored_event workerID base adapter tier hashes),
   Persist base adapter workerID hashes,
   marshal_event (stored_event workerID base adapter tier hashes)).

(** A message of [subscribe]; a bad event is logged. *)
Definition receive (s : Service) (payload : string) : Service :=
  match unmarshal_event payload with None => s | Some ev => Apply s ev end.

(** The handler of POST /internal/cache/events: the status, the service and
    the payloads published. *)
Definition cache_events (s : Service) (bound : option Event) : Z * Service * list string :=
  match bound with
  | None => (400, s, [])
  | Some ev =>
      let ty := if String.eqb (e_Type ev) "" then "stored" else e_Type ev in
      if String.eqb ty "stored" then
        let '(s, _, payload) := Report s (e_WorkerID ev) (e_BaseModel ev) (e_Adapter ev) (e_Tier ev) (e_Hashes ev) in
        (200, s, [payload])
      else (200, Apply s (mkEvent ty (e_WorkerID ev) (e_BaseModel ev) (e_Adapter ev) (e_Tier ev) (e_Hashes ev)), [])
  end.

(** [InjectIntoRouting]: the views of a snapshot, updated in place. *)
Definition with_capability (v : WorkerView) : WorkerView :=
  mkView (v_ID v) (v_Endpoint v) (v_BaseModel v) (v_Adapter v) (v_Healthy v) (v_Ready v) (v_QueueDepth v) (v_InFlight v)
    (v_MaxContext v) (v_CostPerHour v) (v_CostClass v) (v_Runtime v) (v_VRAMGB v) (v_GPU v)
    (<["cache_blocks" := "1"]> (v_Capabilities v)).

Definition InjectIntoRouting (views : list WorkerView) (cache : gmap string (gmap Z float64)) : list WorkerView :=
  (fun v => match cache !! v_ID v with
            | Some blocks => if bool_decide (blocks = ∅) then v else with_capability v
            | None => v
            end) <$> views.

(** ** Several control planes *)

Record replica := mkReplica { svc : Service; inbox : list string }.

Inductive act : Type :=
(** a worker posts an event to a control plane *)
| Post (i : nat) (body : string)
(** a control plane's subscription delivers, or loses, its next message *)
| Deliver (i : nat)
| Lose (i : nat)
(** the periodic [publishSnapshot] *)
| Tick (i : nat).

Definition publish (payloads : list string) (r : replica) : replica := mkReplica (svc r) (inbox r ++ payloads)%list.

Definition step (rs : list replica) (a : act) : list replica :=
  match a with
  | Post i body =>
      match rs !! i with
      | None => rs
      | Some r =>
          let '(_, s, payloads) := cache_events (svc r) (bind_event body) in
          publish payloads <$> <[i := mkReplica s (inbox r)]> rs
      end
  | Deliver i =>
      match rs !! i with
      | Some (mkReplica s (m :: rest)) => <[i := mkReplica (receive s m) rest]> rs
      | _ => rs
      end
  | Lose i =>
      match rs !! i with Some (mkReplica s (_ :: rest)) => <[i := mkReplica s rest]> rs | _ => rs end
  | Tick i => match rs !! i with Some r => <[i := mkReplica (publishSnapshot (svc r)) (inbox r)]> rs | None => rs end
  end.

Definition run (n : nat) (sched : list act) : list replica := foldl step (replicate n (mkReplica NewService [])) sched.

(** ** Lemmas *)

(** An event that stores block [h] at worker [w]. *)
Definition stores (ev : Event) (w : string) (h : Z) : Prop :=
  (e_Type ev = "stored" \/ e_Type ev = "") /\ e_WorkerID ev = w /\ w <> "" /\ h ∈ e_Hashes ev.

(** Block [h] of worker [w] was posted as stored to one of [n] control planes. *)
Definition posted (n : nat) (sched : list act) (w : string) (h : Z) : Prop :=
  exists i body ev, (i < n)%nat /\ Post i body ∈ sched /\ bind_event body = Some ev /\ stores ev w h.

Lemma posted_snoc n sched a w h :
  posted n (sched ++ [a]) w h <->
  posted n sched w h \/ exists i body ev, (i < n)%nat /\ a = Post i body /\ bind_event body = Some ev /\ stores ev w h.
Proof.
  unfold posted. split.
  - intros (i & body & ev & Hi & [Hin|Hin%list_elem_of_singleton]%elem_of_app & Hs); [left|right]; by exists i, body, ev.
  - intros [(i & body & ev & Hi & Hin & Hs)|(i & body & ev & Hi & -> & Hs)]; exists i, body, ev; set_solver.
Qed.

(** *** Events as bytes *)

Definition valid_event (ev : Event) : Prop :=
  Forall valid_utf8 [e_Type ev; e_WorkerID ev; e_BaseModel ev; e_Adapter ev; e_Tier ev] /\ Forall in_u64 (e_Hashes ev).

Lemma event_decodes ev : valid_event ev ->
  numbers_ok (event_doc ev) /\ nesting (event_doc ev) <= max_nesting /\
  option_map event_of (dec_struct event_fields zero_event (repaired (event_doc ev))) = Some ev.
Proof.
  intros [Hs Hh]. destruct ev as [ty w base adapter tier hashes]. cbn [e_Type e_WorkerID e_BaseModel e_Adapter e_Tier e_Hashes] in *.
  destruct (dec_slice_fresh 0 dec_uint64 DInt id hashes) as (sl & Esl & Ec).
  { intros z Hz. apply dec_uint64_DInt. rewrite list.Forall_forall in Hh. by apply Hh. }
  rewrite list_fmap_id in Ec.
  assert (forall l, List.map repaired (DInt <$> l) = DInt <$> l) as Hr by (induction l as [|z l IH]; [done|cbn; by rewrite IH]).
  split_and!.
  - cbn. split_and!; try done. clear. induction hashes as [|z l IH]; [done|]. split; [apply Itoa_num_ok|done].
  - cbn. assert (foldr Z.max 0 (List.map nesting (DInt <$> hashes)) = 0) as -> by (clear; induction hashes; cbn in *; lia).
    unfold max_nesting. lia.
  - unfold event_doc. cbn [e_Type e_WorkerID e_BaseModel e_Adapter e_Tier e_Hashes].
    cbn [repaired List.map fst snd]. rewrite Hr.
    rewrite !list.Forall_cons in Hs. destruct Hs as (H1 & H2 & H3 & H4 & H5 & _).
    rewrite (sanitize_id ty), (sanitize_id w), (sanitize_id base), (sanitize_id adapter), (sanitize_id tier) by done.
    cbn [dec_struct].
    do 6 (erewrite (dec_members_field event_fields); [|reflexivity|first [reflexivity|cbn beta; cbn [es_Hashes zero_event]; rewrite Esl; reflexivity]]).
    cbn [dec_members option_map]. unfold event_of. cbn [es_Type es_WorkerID es_BaseModel es_Adapter es_Tier es_Hashes]. by rewrite Ec.
Qed.

(** What is published is what is received, and a worker can post it. *)
Lemma event_roundtrip ev : valid_event ev -> unmarshal_event (marshal_event ev) = Some ev.
Proof.
  intros Hv. destruct (event_decodes ev Hv) as (Hok & Hn & E). unfold unmarshal_event, unmarshal_into, marshal_event.
  by rewrite parse_print.
Qed.

Lemma bind_marshal ev : valid_event ev -> bind_event (marshal_event ev) = Some ev.
Proof.
  intros Hv. destruct (event_decodes ev Hv) as (Hok & Hn & E). unfold bind_event, marshal_event. by rewrite first_value_print.
Qed.

Definition valid_event_state (e : event_state) : Prop :=
  Forall valid_utf8 [es_Type e; es_WorkerID e; es_BaseModel e; es_Adapter e; es_Tier e] /\ Forall in_u64 (backing (es_Hashes e)).

Lemma dec_uint64_range old d z : in_u64 old -> dec_uint64 old d = Some z -> in_u64 z.
Proof.
  intros Ho. assert (dec_int 0 (two64 - 1) old d = Some z -> in_u64 z) as Hi.
  { destruct d; cbn [dec_int]; try done; [by intros [= <-]|]. destruct (int_literal literal) as [y|]; [|done].
    case_if; [|done]. intros [= <-]. zbool. unfold in_u64. lia. }
  unfold dec_uint64. destruct d as [| |[|[[] [] [] [] [] [] [] []] lit]| | |]; try exact Hi. done.
Qed.

Lemma dec_hashes_range old l out : Forall in_u64 old -> dec_elements 0 dec_uint64 old l = Some out -> Forall in_u64 out.
Proof.
  revert old out. induction l as [|d l IH]; intros old out Ho; cbn [dec_elements]; [by intros [= <-]|].
  destruct (dec_uint64 (default 0 (head old)) d) as [z|] eqn:Ez; [|done].
  destruct (dec_elements 0 dec_uint64 (tail old) l) as [r|] eqn:Er; [|done]. intros [= <-]. constructor.
  - eapply dec_uint64_range; [|exact Ez]. destruct Ho; [done|]. done.
  - eapply IH; [|exact Er]. by destruct Ho.
Qed.

(** What is posted is valid, because it was read. *)
Lemma bind_event_valid body ev : bind_event body = Some ev -> valid_event ev.
Proof.
  unfold bind_event. destruct (first_value body) as [d|] eqn:Ed; [|done]. apply first_value_valid in Ed.
  assert (forall e, dec_struct event_fields zero_event d = Some e -> valid_event_state e) as Hv.
  { assert (valid_event_state zero_event) as H0 by (split; [apply (bool_decide_unpack _); vm_compute; exact I|constructor]).
    intros e. destruct d; try done; [by intros [= <-]|]. cbn [dec_struct].
    apply (dec_members_inv valid_event_state); [|done|done].
    intros name dec old d0 a Hin [Hs Hh] Hd0 Ea. rewrite !list.Forall_cons in Hs. destruct Hs as (H1 & H2 & H3 & H4 & H5 & _).
    unfold event_fields in Hin. rewrite !elem_of_cons in Hin.
    destruct Hin as [[= -> ->]|[[= -> ->]|[[= -> ->]|[[= -> ->]|[[= -> ->]|[[= -> ->]|Hin]]]]]]; [..|by apply elem_of_nil in Hin].
    1-5: destruct (dec_string _ d0) as [x|] eqn:Ex; [|done]; injection Ea as <-; apply dec_string_valid in Ex; [|done..];
      by split; [rewrite !list.Forall_cons|].
    destruct (dec_slice 0 dec_uint64 (es_Hashes old) d0) as [x|] eqn:Ex; [|done]. injection Ea as <-.
    split; [by rewrite !list.Forall_cons|]. cbn [es_Hashes]. destruct d0 as [| | | |[|y l]|]; try done; cbn [dec_slice] in Ex; simplify_eq; [constructor..|].
    destruct (dec_elements 0 dec_uint64 (backing (es_Hashes old)) (y :: l)) as [r|] eqn:Er; [|done].
    injection Ex as <-. by eapply dec_hashes_range. }
  destruct (dec_struct event_fields zero_event d) as [e|] eqn:E; [|done]. intros [= <-]. destruct (Hv e eq_refl) as [Hs Hh].
  split; [done|]. cbn. by apply list.Forall_take.
Qed.

#[local] Opaque marshal_event unmarshal_event bind_event.

Lemma events_step_length rs a : length (step rs a) = length rs.
Proof.
  destruct a as [i b|i|i|i]; cbn [step]; destruct (rs !! i) as [[s box]|]; try done.
  - cbn [svc inbox]. destruct (cache_events s (bind_event b)) as [[st s'] ps]. by rewrite length_fmap, length_insert.
  - destruct box; by rewrite ?length_insert.
  - destruct box; by rewrite ?length_insert.
  - by rewrite length_insert.
Qed.

Lemma events_run_snoc n sched a : run n (sched ++ [a]) = step (run n sched) a.
Proof. unfold run. by rewrite foldl_app. Qed.

Lemma events_run_length n sched : length (run n sched) = n.
Proof.
  induction sched as [|a sched IH] using rev_ind; [apply length_replicate|]. by rewrite events_run_snoc, events_step_length.
Qed.

(** Applying an event: what is held changes as the event says. *)
Lemma held_Apply s ev w h :
  consistent (index s) -> held (index (Apply s ev)) w h = event_effect ev w h (held (index s) w h).
Proof. intros Hc. cbn [Apply publishSnapshot index]. by apply apply_index_spec. Qed.

Lemma consistent_Apply s ev : consistent (index s) -> consistent (index (Apply s ev)).
Proof. intros Hc. by apply apply_index_spec. Qed.

Lemma effect_sound ev w h before x : event_effect ev w h before = Some x -> before = Some x \/ stores ev w h.
Proof.
  unfold event_effect, stores. destruct (String.eqb_spec (e_WorkerID ev) w) as [<-|]; cbn [negb]; [|by left].
  destruct (String.eqb_spec (e_Type ev) "stored") as [E|].
  - destruct (String.eqb_spec (e_WorkerID ev) ""); cbn [negb andb]; [by left|]. case_bool_decide; [|by left].
    intros _. right. auto.
  - destruct (String.eqb (e_Type ev) "removed"); [case_bool_decide; by left|]. destruct (String.eqb (e_Type ev) "cleared"); by left.
Qed.

Lemma effect_stored ev w h before : e_Type ev = "stored" -> stores ev w h -> is_Some (event_effect ev w h before).
Proof.
  intros E (_ & Hw & Hne & Hh). unfold event_effect. rewrite Hw, String.eqb_refl, E. cbn [negb String.eqb].
  destruct (String.eqb_spec w ""); [done|]. by rewrite bool_decide_eq_true_2.
Qed.

Lemma effect_keeps ev w h before : e_Type ev = "stored" -> is_Some before -> is_Some (event_effect ev w h before).
Proof. intros E Hb. unfold event_effect. rewrite E. cbn. by repeat case_match. Qed.

(** What a subscription carries: stored events. *)
Definition carries (P : string -> Z -> Prop) (payload : string) : Prop :=
  exists ev, unmarshal_event payload = Some ev /\ e_Type ev = "stored" /\ forall w h, stores ev w h -> P w h.

(** Nothing is held or under way that was not posted ... *)
Definition sound (P : string -> Z -> Prop) (r : replica) : Prop :=
  consistent (index (svc r)) /\ (forall w h, is_Some (held (index (svc r)) w h) -> P w h) /\ Forall (carries P) (inbox r).

(** ... and what was posted is held or under way. *)
Definition covers (P : string -> Z -> Prop) (r : replica) : Prop :=
  forall w h, P w h -> is_Some (held (index (svc r)) w h) \/
    exists m ev, m ∈ inbox r /\ unmarshal_event m = Some ev /\ stores ev w h.

Lemma sound_mono (P Q : string -> Z -> Prop) r : (forall w h, P w h -> Q w h) -> sound P r -> sound Q r.
Proof.
  intros HPQ (Hc & Hh & Hi). split_and!; [done|auto|]. eapply list.Forall_impl; [exact Hi|].
  intros m (ev & E & Ht & Hs). exists ev. eauto.
Qed.
Lemma sound_Apply (P : string -> Z -> Prop) s box ev :
  (forall w h, stores ev w h -> P w h) -> sound P (mkReplica s box) -> sound P (mkReplica (Apply s ev) box).
Proof.
  intros He (Hc & Hh & Hi). split_and!; [by apply consistent_Apply| |done]. cbn [svc] in *.
  intros w h [x Hx]. rewrite held_Apply in Hx by done. destruct (effect_sound ev w h _ x Hx) as [E|Hs]; [|by apply He].
  apply Hh. by exists x.
Qed.

Lemma stored_event_valid ev :
  valid_event ev -> valid_event (stored_event (e_WorkerID ev) (e_BaseModel ev) (e_Adapter ev) (e_Tier ev) (e_Hashes ev)).
Proof.
  intros [Hs Hh]. split; [|done]. rewrite !list.Forall_cons in *. destruct Hs as (_ & Hs). split; [|exact Hs].
  apply (bool_decide_unpack _). vm_compute. exact I.
Qed.

Lemma cache_events_sound (P : string -> Z -> Prop) s box bound :
  (forall ev, bound = Some ev -> valid_event ev /\ forall w h, stores ev w h -> P w h) -> sound P (mkReplica s box) ->
  let '(_, s', payloads) := cache_events s bound in sound P (mkReplica s' box) /\ Forall (carries P) payloads.
Proof.
  intros Hb Hs. destruct bound as [ev|]; [|by split; [|constructor]]. destruct (Hb ev eq_refl) as [Hv Hp0]. cbn [cache_events].
  set (ty := if String.eqb (e_Type ev) "" then "stored" else e_Type ev).
  assert (forall w h, stores (mkEvent ty (e_WorkerID ev) (e_BaseModel ev) (e_Adapter ev) (e_Tier ev) (e_Hashes ev)) w h -> P w h) as Hp.
  { intros w h (Ht & Hw & Hne & Hh). apply Hp0. split_and!; try done. cbn [e_Type] in Ht. unfold ty in Ht.
    destruct (String.eqb_spec (e_Type ev) "") as [->|]; [by right|done]. }
  destruct (String.eqb_spec ty "stored") as [E|E]; cbn zeta.
  - rewrite E in Hp. split; [by apply sound_Apply|]. constructor; [|constructor]. eexists.
    rewrite event_roundtrip by (by apply stored_event_valid). done.
  - split; [by apply sound_Apply|constructor].
Qed.

Lemma sound_publish (P : string -> Z -> Prop) payloads r :
  Forall (carries P) payloads -> sound P r -> sound P (publish payloads r).
Proof. intros Hp (Hc & Hh & Hi). split_and!; [done|done|]. by apply list.Forall_app. Qed.

Lemma sound_receive (P : string -> Z -> Prop) s m rest :
  sound P (mkReplica s (m :: rest)) -> sound P (mkReplica (receive s m) rest).
Proof.
  intros (Hc & Hh & ((ev & E & _ & Hs) & Hi)%list.Forall_cons). unfold receive. rewrite E. by apply sound_Apply.
Qed.

Lemma step_sound (P Q : string -> Z -> Prop) rs a :
  (forall w h, P w h -> Q w h) ->
  (forall i body ev w h, a = Post i body -> bind_event body = Some ev -> (i < length rs)%nat -> stores ev w h -> Q w h) ->
  Forall (sound P) rs -> Forall (sound Q) (step rs a).
Proof.
  intros HPQ Ha Hrs. assert (Forall (sound Q) rs) as Hq by (eapply list.Forall_impl; [exact Hrs|intros r; by apply sound_mono]).
  clear Hrs. destruct a as [i b|i|i|i]; cbn [step]; destruct (rs !! i) as [[s box]|] eqn:Ei; try done;
    pose proof (list.Forall_lookup_1 _ _ _ _ Hq Ei) as Hr.
  - cbn [svc inbox]. pose proof (cache_events_sound Q s box (bind_event b)) as Hs. destruct (cache_events s (bind_event b)) as [[st s'] ps].
    destruct Hs as [Hs Hps]; [|done|].
    { intros ev E. split; [by eapply bind_event_valid|]. intros w h Hst. eapply Ha; [done|done| |done]. by eapply lookup_lt_Some. }
    apply list.Forall_fmap. apply list.Forall_insert.
    + eapply list.Forall_impl; [exact Hq|]. intros r. by apply sound_publish.
    + by apply sound_publish.
  - destruct box as [|m rest]; [done|]. apply list.Forall_insert; [done|]. by apply sound_receive.
  - destruct box as [|m rest]; [done|]. apply list.Forall_insert; [done|]. destruct Hr as (? & ? & [_ ?]%list.Forall_cons). done.
  - by apply list.Forall_insert.
Qed.

Lemma run_sound n sched : Forall (sound (posted n sched)) (run n sched).
Proof.
  induction sched as [|a sched IH] using rev_ind.
  - apply list.Forall_replicate. destruct (apply_events_spec []) as (Hc & _ & Hh). split_and!; [exact Hc| |constructor].
    intros w h [x Hx]. cbn [svc] in Hx. change NewService with (foldl Apply NewService []) in Hx. by rewrite Hh in Hx.
  - rewrite events_run_snoc. eapply step_sound; [| |exact IH]; intros; apply posted_snoc; [by left|].
    right. rewrite events_run_length in *. by eexists _, _, _.
Qed.

(** Steps that lose nothing and post stored events only. *)
Definition lossless (a : act) : Prop :=
  match a with
  | Lose _ => False
  | Post _ body => match bind_event body with Some ev => e_Type ev = "stored" \/ e_Type ev = "" | None => True end
  | _ => True
  end.

Lemma covers_Apply (P : string -> Z -> Prop) s box ev :
  consistent (index s) -> e_Type ev = "stored" -> covers P (mkReplica s box) -> covers P (mkReplica (Apply s ev) box).
Proof.
  intros Hc Ht Hv w h Hp. destruct (Hv w h Hp) as [Hh|Hm]; [left|by right]. cbn [svc] in *. rewrite held_Apply by done.
  by apply effect_keeps.
Qed.

Lemma covers_receive (P : string -> Z -> Prop) s m rest :
  sound P (mkReplica s (m :: rest)) -> covers P (mkReplica s (m :: rest)) -> covers P (mkReplica (receive s m) rest).
Proof.
  intros (Hc & _ & ((ev & E & Ht & _) & _)%list.Forall_cons) Hv w h Hp. unfold receive. rewrite E. cbn [svc inbox] in *.
  rewrite held_Apply by done.
  destruct (Hv w h Hp) as [Hh|(m' & ev' & Hin & E' & Hs)]; [left; by apply effect_keeps|]. cbn [inbox] in Hin.
  apply elem_of_cons in Hin as [->|Hin]; [left|right; by eexists _, _].
  apply effect_stored; [done|]. by rewrite E in E'; simplify_eq.
Qed.

(** Publishing an event makes it cover what it stores. *)
Lemma covers_publish (P Q : string -> Z -> Prop) ev r :
  valid_event ev ->
  (forall w h, Q w h -> P w h \/ stores ev w h) -> covers P r -> covers Q (publish [marshal_event ev] r).
Proof.
  intros Hval HQ Hv w h Hq. destruct (HQ w h Hq) as [Hp|Hs].
  - destruct (Hv w h Hp) as [Hh|(m & ev' & Hin & E & Hs)]; [by left|right]. exists m, ev'. split_and!; [|done|done].
    cbn. set_solver.
  - right. eexists _, ev. split_and!; [|by apply event_roundtrip|done]. cbn. set_solver.
Qed.

Lemma step_covers (P Q : string -> Z -> Prop) rs a :
  lossless a ->
  (forall w h, Q w h -> P w h \/
    exists i body ev, (i < length rs)%nat /\ a = Post i body /\ bind_event body = Some ev /\ stores ev w h) ->
  Forall (sound P) rs -> Forall (covers P) rs -> Forall (covers Q) (step rs a).
Proof.
  intros Ha HQ Hs Hv.
  assert ((forall w h, Q w h -> P w h) -> Forall (covers Q) rs) as Hsame.
  { intros Hqp. eapply list.Forall_impl; [exact Hv|]. intros r Hr w h Hq. by apply Hr, Hqp. }
  destruct a as [i b|i|i|i]; [|assert (forall w h, Q w h -> P w h) as Hqp by (intros w h Hq; destruct (HQ w h Hq) as [?|(? & ? & ? & _ & ? & _)]; done)..];
    cbn [step]; destruct (rs !! i) as [[s box]|] eqn:Ei; try (by apply Hsame).
  2:{ apply Hsame. intros w h Hq. destruct (HQ w h Hq) as [?|(j & body & ev & Hj & [= -> _] & _)]; [done|].
      apply lookup_lt_is_Some in Hj as [r Hj]. by rewrite Ei in Hj. }
  all: pose proof (list.Forall_lookup_1 _ _ _ _ Hs Ei) as Hrs; pose proof (list.Forall_lookup_1 _ _ _ _ Hv Ei) as Hrv.
  - cbn [svc inbox]. cbn [lossless] in Ha. destruct (bind_event b) as [ev|] eqn:Eb.
    2:{ assert (forall w h, Q w h -> P w h) as Hqp
          by (intros w h Hq; destruct (HQ w h Hq) as [?|(? & ? & ? & _ & [= _ <-] & ? & _)]; congruence).
        cbn [cache_events]. apply list.Forall_fmap, list.Forall_insert; [|].
        - eapply list.Forall_impl; [exact Hv|]. intros r Hr w h Hq. cbn. rewrite app_nil_r. by apply Hr, Hqp.
        - intros w h Hq. cbn. rewrite app_nil_r. by apply Hrv, Hqp. }
    cbn [cache_events]. assert ((if String.eqb (e_Type ev) "" then "stored" else e_Type ev) = "stored") as ->.
    { by destruct Ha as [-> | ->]. }
    cbn [String.eqb Report]. cbn.
    set (ev' := stored_event _ _ _ _ _).
    assert (forall w h, Q w h -> P w h \/ stores ev' w h) as HQ'.
    { intros w h Hq. destruct (HQ w h Hq) as [?|(j & body & ev0 & _ & [= _ <-] & E0 & _ & Hw & Hne & Hh)]; [by left|].
      rewrite Eb in E0. injection E0 as <-. right. split_and!; [by left|done|done|done]. }
    assert (valid_event ev') as Hval by (exact (stored_event_valid ev (bind_event_valid b ev Eb))).
    apply list.Forall_fmap, list.Forall_insert.
    + eapply list.Forall_impl; [exact Hv|]. intros r. by apply (covers_publish P Q).
    + apply (covers_publish P Q); [done|done|]. apply covers_Apply; [by destruct Hrs|done|done].
  - destruct box as [|m rest]; [by apply Hsame|]. apply list.Forall_insert; [by apply Hsame|].
    intros w h Hq. apply (covers_receive P); [done|done|by apply Hqp].
  - done.
  - apply list.Forall_insert; [by apply Hsame|]. intros w h Hq. by apply Hrv, Hqp.
Qed.

Lemma run_covers n sched : Forall lossless sched -> Forall (covers (posted n sched)) (run n sched).
Proof.
  induction sched as [|a sched IH] using rev_ind.
  - intros _. apply list.Forall_replicate. intros w h (i & body & ev & _ & Hin & _). by apply elem_of_nil in Hin.
  - intros [Hl [Ha _]%list.Forall_cons]%list.Forall_app. rewrite events_run_snoc.
    eapply step_covers; [done| |apply (run_sound n)|by apply IH].
    intros w h Hp%posted_snoc. by rewrite events_run_length.
Qed.

(** ** Properties *)

(** The blocks a control plane scores with. *)
Definition scored (r : replica) (w : string) (h : Z) : option float64 := held (index (svc r)) w h.

(** C36: control planes agree on cached blocks: however posts, deliveries and
    ticks interleave, a control plane holds a block for a worker only if a
    stored event (or one without a type) naming both was posted to one of
    them, even when messages are lost; and when the posts are all of that
    kind, no message is lost and every subscription is drained, every control
    plane holds every block posted to any of them. *)
Theorem cache_replicas_agree n sched i r :
  run n sched !! i = Some r ->
  (forall w h, is_Some (scored r w h) -> posted n sched w h) /\
  (Forall lossless sched -> inbox r = [] -> forall w h, posted n sched w h -> is_Some (scored r w h)).
Proof.
  intros Hr. split.
  - apply (list.Forall_lookup_1 _ _ _ _ (run_sound n sched) Hr).
  - intros Hl Hi w h Hp. destruct (list.Forall_lookup_1 _ _ _ _ (run_covers n sched Hl) Hr w h Hp) as [?|(m & _ & Hm & _)]; [done|].
    rewrite Hi in Hm. by apply elem_of_nil in Hm.
Qed.

(** A removal is undone by the echo of the event before it, and reaches no
    other control plane: a block posted as stored and then as removed to the
    same control plane is held again once the subscription delivers the stored
    event the control plane published itself, and the other control planes
    hold it too, for only stored events are published. *)
Theorem echo_restores_removed w base h :
  w <> "" -> valid_utf8 w -> valid_utf8 base -> in_u64 h ->
  let stored := marshal_event (mkEvent "stored" w base "" "" [h]) in
  let removed := marshal_event (mkEvent "removed" w base "" "" [h]) in
  let before := run 2 [Post 0 stored; Post 0 removed] in
  let after := run 2 [Post 0 stored; Post 0 removed; Deliver 0; Deliver 1] in
  (exists r, before !! 0%nat = Some r /\ scored r w h = None) /\
  (exists r0 r1, after = [r0; r1] /\ inbox r0 = [] /\ inbox r1 = [] /\
     is_Some (scored r0 w h) /\ is_Some (scored r1 w h)).
Proof.
  intros Hw Hvw Hvb Hh. cbn zeta.
  assert (forall ty, valid_utf8 ty -> valid_event (mkEvent ty w base "" "" [h])) as Hval.
  { intros ty Ht. split; [|by apply list.Forall_singleton]. rewrite !list.Forall_cons. split_and!; try done; apply (bool_decide_unpack _); vm_compute; exact I. }
  assert (valid_utf8 "stored" /\ valid_utf8 "removed") as [Hvs Hvr] by (split; apply (bool_decide_unpack _); vm_compute; exact I).
  unfold run, step, scored. cbn -[Apply].
  rewrite !bind_marshal by auto. cbn -[Apply].
  assert (consistent (index NewService)) as Hc by (destruct (apply_events_spec []) as (Hc & _); exact Hc).
  split.
  - eexists. split; [reflexivity|]. cbn [svc publish]. rewrite held_Apply by (by apply consistent_Apply).
    unfold event_effect. cbn [e_WorkerID e_Type e_Hashes]. rewrite String.eqb_refl. cbn. by rewrite bool_decide_eq_true_2 by set_solver.
  - unfold receive, stored_event. rewrite event_roundtrip by auto. eexists _, _. split; [reflexivity|].
    split_and!; [done|done| |]; cbn [svc];
      (rewrite held_Apply by (repeat apply consistent_Apply; done)); apply effect_stored; try done; split_and!; try done;
      [by left|set_solver|by left|set_solver].
Qed.

(** *** Witnesses *)

(** A body as a worker posts it, without a type and with a field of its own. *)
Definition w1_body : string :=
  print (DObj [("worker_id", DStr "w1"); ("Base_Model", DStr "m"); ("tier", DStr "gpu"); ("hashes", DArr [DInt 7]); ("at", DNum "1.5e3")]).

Definition w1_stored : Event := mkEvent "" "w1" "m" "" "gpu" [7].

Definition one_post : list act := [Post 0 w1_body; Deliver 1; Deliver 0].

Lemma one_post_lossless : Forall lossless one_post.
Proof. constructor; [vm_compute; by right|]. repeat constructor. Qed.

Definition served : replica := default (mkReplica NewService []) (run 2 one_post !! 1%nat).

Lemma cache_replicas_agree_witness : is_Some (scored served "w1" 7).
Proof.
  destruct (cache_replicas_agree 2 one_post 1 served) as [_ Hc].
  - vm_compute. reflexivity.
  - apply Hc.
    + exact one_post_lossless.
    + vm_compute. reflexivity.
    + exists 0%nat, w1_body, w1_stored. split; [lia|]. split; [apply elem_of_cons; left; reflexivity|].
      split; [vm_compute; reflexivity|]. split; [right; reflexivity|]. split; [reflexivity|]. split; [discriminate|]. apply elem_of_cons. left. reflexivity.
Defined.

Lemma echo_restores_removed_witness :
  exists r, run 2 [Post 0 (marshal_event (mkEvent "stored" "w1" "m" "" "" [7]));
                   Post 0 (marshal_event (mkEvent "removed" "w1" "m" "" "" [7]))] !! 0%nat
    = Some r /\ scored r "w1" 7 = None.
Proof.
  apply (echo_restores_removed "w1" "m" 7).
  - discriminate.
  - apply (bool_decide_unpack _). vm_compute. exact I.
  - apply (bool_decide_unpack _). vm_compute. exact I.
  - split; vm_compute; [discriminate|reflexivity].
Defined.
