(* ===== verification/Scorers.v ===== *)
(** * Scorers (services/scheduler: scorer_*.go, ewma.go, latency_store.go)

    Each scorer maps a candidate to a float64; [Prepare] runs once per
    ranking.  The scorer types of the code are the constructors of [Scorer],
    with their mutable fields as arguments.  The theorems bound every score by
    one and show that the weighted sum is a number monotone in each score,
    rounding included. *)

From S2P Require Import Prelude Float64 Rounding FloatRange GoStrings Routing Rendezvous Candidates CacheRegistry.

(** ** Latency averages (ewma.go, latency_store.go) *)

(** [math.Exp] *)
Class GoMath := { Exp : float64 -> float64 }.

Record EWMA := mkEWMA { tau : Z; value : float64; last_update : Z }.

Definition NewEWMA (tau : Z) (seed : float64) : EWMA :=
  mkEWMA (if tau <=? 0 then 10 * second else tau) seed 0.

Section Latency.
Context `{GoMath}.

Definition Update (e : EWMA) (sampleMs : float64) (now : Z) : EWMA :=
  if time_is_zero (last_update e) then mkEWMA (tau e) sampleMs now
  else
    let dt := Seconds (time_sub now (last_update e)) in
    let dt := if fltb dt f_zero then f_zero else dt in
    let tauSec := Seconds (tau e) in
    let tauSec := if fleb tauSec f_zero then f_of_Z 10 else tauSec in
    let alpha := fsub f_one (Exp (fdiv (SFopp dt) tauSec)) in
    mkEWMA (tau e) (fadd (fmul alpha sampleMs) (fmul (fsub f_one alpha) (value e))) now.

Record LatencyStore := mkStore { s_tau : Z; averages : gmap string EWMA }.

Definition NewLatencyStore (tau : Z) : LatencyStore :=
  mkStore (if tau <=? 0 then 10 * second else tau) ∅.

(** [Observe], with the [time.Now()] it reads. *)
Definition Observe (s : LatencyStore) (workerID : string) (sampleMs : float64) (now : Z) : LatencyStore :=
  if String.eqb workerID "" || fltb sampleMs f_zero then s
  else
    let e := match averages s !! workerID with Some e => e | None => NewEWMA (s_tau s) f_zero end in
    mkStore (s_tau s) (<[workerID := Update e sampleMs now]> (averages s)).

Definition LatencyGet (s : LatencyStore) (workerID : string) : float64 :=
  match averages s !! workerID with Some e => value e | None => f_zero end.
End Latency.

(** ** The scorers *)

Inductive Scorer : Type :=
| LeastLoaded
| LatencyScorer (refMs : float64)
| AffinityScorer (window blockBytes : Z) (preferred : string)
| CostScorer (maxUSD : float64)
| PolicyScorer (policy : option RoutingPolicy)
| OverlapScorer (snap : option (gmap string (gmap Z float64))).

Definition NewLatencyScorer (refMs : float64) : Scorer :=
  LatencyScorer (if fleb refMs f_zero then f_of_Z 100 else refMs).

Definition NewAffinityScorer (window blockBytes : Z) : Scorer :=
  AffinityScorer (if window <=? 0 then 1024 else window) (if blockBytes <=? 0 then 64 else blockBytes) "".

Definition NewCostScorer : Scorer := CostScorer f_zero.

Definition ScorerName (s : Scorer) : string :=
  match s with
  | LeastLoaded => "least-loaded"
  | LatencyScorer _ => "latency"
  | AffinityScorer _ _ _ => "affinity"
  | CostScorer _ => "cost"
  | PolicyScorer _ => "policy-weight"
  | OverlapScorer _ => "cache-overlap"
  end.

(** The workers that can have a local prefix cache. *)
Definition has_local_cache (c : Candidate) : bool :=
  negb (String.eqb (at_key (Capabilities c) "no_local_kv") "true") &&
  negb (String.eqb (at_key (Capabilities c) "provider") "true") &&
  negb (String.eqb (Runtime c) "provider").

Definition set_PreferredWorker (r : Request) (w : string) : Request :=
  mkRequest (q_BaseModel r) (q_Adapter r) (q_Prompt r) (q_AffinityKey r) w (q_MinContext r).

Section Prepare.
Context `{Hash64}.

(** [AffinityScorer.Prepare]: the scorer and the request after it. *)
Definition prepareAffinity (window blockBytes : Z) (req : option Request) (cands : list Candidate)
    : Scorer * option Request :=
  match req with
  | None => (AffinityScorer window blockBytes "", req)
  | Some r =>
      match cands with
      | [] => (AffinityScorer window blockBytes "", req)
      | _ =>
          let prompt := if negb (String.eqb (q_AffinityKey r) "") then q_AffinityKey r else q_Prompt r in
          if String.eqb prompt "" then (AffinityScorer window blockBytes "", req)
          else
            let ids := WorkerID <$> List.filter has_local_cache cands in
            let preferred := HRWPick (PrefixKey prompt window blockBytes) ids in
            (AffinityScorer window blockBytes preferred, Some (set_PreferredWorker r preferred))
      end
  end.

(** [CostScorer.Prepare] *)
Definition max_cost (cands : list Candidate) : float64 :=
  foldl (fun max c => if fltb max (CostPerHour c) then CostPerHour c else max) f_zero cands.

Definition Prepare (s : Scorer) (req : option Request) (cands : list Candidate) : Scorer * option Request :=
  match s with
  | AffinityScorer window blockBytes _ => prepareAffinity window blockBytes req cands
  | CostScorer _ => (CostScorer (max_cost cands), req)
  | _ => (s, req)
  end.
End Prepare.

Definition scoreLatency (refMs : float64) (c : Candidate) : float64 :=
  if fleb (EwmaLatencyMs c) f_zero then f_one
  else fdiv f_one (fadd f_one (fdiv (EwmaLatencyMs c) refMs)).

Definition scoreLoad (c : Candidate) : float64 :=
  fdiv f_one (f_of_Z (wrap_i64 (1 + QueueDepth c))).

Definition scoreAffinity (preferred : string) (c : Candidate) : float64 :=
  if String.eqb preferred "" then f_zero
  else if String.eqb (WorkerID c) preferred then f_one else f_zero.

Definition scoreCost (maxUSD : float64) (c : Candidate) : float64 :=
  if fleb maxUSD f_zero then f_one
  else
    let ratio := fdiv (CostPerHour c) maxUSD in
    let ratio := if fltb ratio f_zero then f_zero else ratio in
    let ratio := if fltb f_one ratio then f_one else ratio in
    fsub f_one ratio.

Definition scorePolicy (policy : option RoutingPolicy) (req : option Request) (c : Candidate) : float64 :=
  match req, policy with
  | Some r, Some p =>
      if decide (p_WorkerWeights p = ∅) then f_one
      else match p_WorkerWeights p !! q_BaseModel r with
           | None => f_one
           | Some byWorker => default (flit 1 100) (byWorker !! WorkerID c)
           end
  | _, _ => f_one
  end.

Definition scoreOverlap (snap : option (gmap string (gmap Z float64))) (req : option Request) (c : Candidate)
    : float64 :=
  let half := flit 5 10 in
  match req, snap with
  | Some r, Some blocks =>
      if String.eqb (at_key (Capabilities c) "provider") "true" then half
      else if decide (blocks = ∅) then half
      else match blocks !! WorkerID c with
           | None => half
           | Some have =>
               if decide (have = ∅) then half
               else
                 let want := HashPromptApprox (q_Prompt r) DefaultBlockSize (q_Adapter r) in
                 match want with
                 | [] => half
                 | _ =>
                     let '(n, score) := LongestConsecutivePrefix want have in
                     if n =? 0 then f_zero
                     else
                       let norm := fdiv score (f_of_Z (wrap_i64 (Z.of_nat (length want) * DefaultBlockSize))) in
                       if fltb f_one norm then f_one else norm
                 end
           end
  | _, _ => half
  end.

Definition Score (s : Scorer) (req : option Request) (c : Candidate) : float64 :=
  match s with
  | LeastLoaded => scoreLoad c
  | LatencyScorer refMs => scoreLatency refMs c
  | AffinityScorer _ _ preferred => scoreAffinity preferred c
  | CostScorer maxUSD => scoreCost maxUSD c
  | PolicyScorer policy => scorePolicy policy req c
  | OverlapScorer snap => scoreOverlap snap req c
  end.

(** ** Scores are between zero and one *)

(** What the bounds ask of a candidate: a queue depth that is not negative, a
    latency average below 2^52 ms and a cost that is a number. *)
Record candidate_ok (c : Candidate) : Prop := {
  co_depth : 0 <= QueueDepth c < 2 ^ 53 - 1;
  co_latency : frange (2 ^ 52 - 1) (EwmaLatencyMs c);
  co_cost : num (CostPerHour c)
}.

(** What they ask of a scorer's data: a latency reference of at least 1 ms,
    policy weights and cache weights between zero and one. *)
Definition scorer_ok (s : Scorer) : Prop :=
  match s with
  | LatencyScorer refMs => num refMs /\ one_val <= fval refMs
  | CostScorer maxUSD => num maxUSD
  | PolicyScorer (Some p) => map_Forall (fun _ m => map_Forall (fun _ w => frange 1 w) m) (p_WorkerWeights p)
  | OverlapScorer (Some blocks) => map_Forall (fun _ have => weights_ok have) blocks
  | _ => True
  end.

Lemma num_good x : num x -> good x.
Proof. intros [V F]. by apply finite_good. Qed.

Lemma one_num : num f_one.
Proof. apply one_finite. Qed.

Lemma zero_num : num f_zero.
Proof. done. Qed.

Lemma depth_float c :
  0 <= QueueDepth c < 2 ^ 53 - 1 ->
  num (f_of_Z (wrap_i64 (1 + QueueDepth c))) /\
  fval (f_of_Z (wrap_i64 (1 + QueueDepth c))) = (1 + QueueDepth c) * one_val.
Proof.
  intros Hd. rewrite wrap_i64_id by (unfold in_i64, two63; lia).
  split; [split; [apply f_of_Z_good|apply f_of_Z_finite; lia]|]. apply f_of_Z_exact. lia.
Qed.

Lemma scoreLoad_range c : 0 <= QueueDepth c < 2 ^ 53 - 1 -> frange 1 (scoreLoad c).
Proof.
  intros Hd. destruct (depth_float c Hd) as [[V F] E]. pose proof one_val_pos.
  apply (frange_div 1 1); [lia|apply frange_one|done|done|rewrite E; nia|]. rewrite E, fval_one. nia.
Qed.

(** More load, less score. *)
Lemma scoreLoad_anti c c' :
  0 <= QueueDepth c <= QueueDepth c' -> QueueDepth c' < 2 ^ 53 - 1 ->
  fval (scoreLoad c') <= fval (scoreLoad c).
Proof.
  intros Hd Hd'. destruct (depth_float c ltac:(lia)) as [N E]. destruct (depth_float c' ltac:(lia)) as [N' E'].
  pose proof one_val_pos. apply fdiv_anti; [apply one_num|done|done|rewrite fval_one; lia|..];
    rewrite ?E, ?E'; nia.
Qed.

Lemma scoreLatency_range refMs c :
  num refMs -> one_val <= fval refMs -> frange (2 ^ 52 - 1) (EwmaLatencyMs c) -> frange 1 (scoreLatency refMs c).
Proof.
  intros [Vr Fr] Hr He. unfold scoreLatency. destruct (fleb (EwmaLatencyMs c) f_zero); [apply frange_one|].
  pose proof one_val_pos. pose proof He as (_ & _ & Hle).
  assert (frange (2 ^ 52 - 1) (fdiv (EwmaLatencyMs c) refMs)) as Hq.
  { apply (frange_div _ (2 ^ 52 - 1)); [lia|done|done|done|lia|]. nia. }
  pose proof (frange_add 1 (2 ^ 52 - 1) f_one _ ltac:(lia) ltac:(lia) ltac:(lia) frange_one Hq) as Hs.
  assert (one_val <= fval (fadd f_one (fdiv (EwmaLatencyMs c) refMs))) as Hge.
  { destruct Hq as (Vq & Fq & Hq). destruct one_finite as [V1 F1].
    rewrite (proj1 (fadd_spec _ _ V1 Vq F1 Fq)), fval_one.
    rewrite <- (Z.mul_1_l one_val) at 1. rewrite <- (rndZ_int 1) by lia. apply rndZ_mono. lia. }
  destruct Hs as (Vs & Fs & _). apply (frange_div 1 1); [lia|apply frange_one|done|done|lia|].
  rewrite fval_one. lia.
Qed.

(** A number clamped to the unit interval. *)
Lemma clamp_range x :
  good x ->
  frange 1 (let x := if fltb x f_zero then f_zero else x in if fltb f_one x then f_one else x).
Proof.
  intros Gx. cbn zeta. rewrite (fltb_val x f_zero Gx f_zero_good). change (fval f_zero) with 0.
  destruct (Z.ltb_spec (fval x) 0).
  - rewrite (fltb_val f_one f_zero) by (apply num_good, one_num || done).
    rewrite fval_one. change (fval f_zero) with 0. pose proof one_val_pos.
    destruct (Z.ltb_spec one_val 0); [lia|]. by apply frange_zero.
  - rewrite (fltb_val f_one x) by (apply num_good, one_num || done). rewrite fval_one.
    destruct (Z.ltb_spec one_val (fval x)); [apply frange_one|].
    destruct Gx. apply frange_intro; [lia|done|done|lia].
Qed.

Lemma scoreCost_range maxUSD c : num maxUSD -> num (CostPerHour c) -> frange 1 (scoreCost maxUSD c).
Proof.
  intros Hm [Vc Fc]. unfold scoreCost. rewrite (fleb_val _ _ (num_good _ Hm) f_zero_good).
  change (fval f_zero) with 0. destruct (Z.leb_spec (fval maxUSD) 0); [apply frange_one|].
  apply frange_one_minus. apply clamp_range. destruct Hm as [Vm Fm].
  by destruct (fdiv_spec _ _ Vc Vm Fc Fm ltac:(done)) as (_ & V & N).
Qed.

Lemma half_range : frange 1 (flit 5 10).
Proof. split; [exact eq_refl|]. split; [exact I|]. vm_compute. split; discriminate. Qed.

Lemma hundredth_range : frange 1 (flit 1 100).
Proof. split; [exact eq_refl|]. split; [exact I|]. vm_compute. split; discriminate. Qed.

Lemma scorePolicy_range policy req c : scorer_ok (PolicyScorer policy) -> frange 1 (scorePolicy policy req c).
Proof.
  intros Hs. unfold scorePolicy. destruct req as [r|]; [|apply frange_one].
  destruct policy as [p|]; [|apply frange_one]. case_decide; [apply frange_one|].
  destruct (p_WorkerWeights p !! q_BaseModel r) as [m|] eqn:Em; [|apply frange_one].
  destruct (m !! WorkerID c) as [w|] eqn:Ew; [|apply hundredth_range]. exact (Hs _ _ Em _ _ Ew).
Qed.

(** The normalised overlap of a prompt of fewer than 2^40 blocks. *)
Lemma overlap_norm_range want have n score :
  weights_ok have -> Z.of_nat (length want) < 2 ^ 40 ->
  LongestConsecutivePrefix want have = (n, score) -> n <> 0 ->
  let norm := fdiv score (f_of_Z (wrap_i64 (Z.of_nat (length want) * DefaultBlockSize))) in
  frange 1 (if fltb f_one norm then f_one else norm).
Proof.
  intros Hw Hl E Hn norm. destruct (longest_prefix_range want have n score Hw ltac:(lia) E) as [Hb Hs].
  pose proof (held_prefix_le want have). pose proof one_val_pos.
  subst norm. unfold DefaultBlockSize. rewrite wrap_i64_id by (unfold in_i64, two63; lia).
  assert (fval (f_of_Z (Z.of_nat (length want) * 256)) = Z.of_nat (length want) * 256 * one_val) as Ef
    by (apply f_of_Z_exact; lia).
  destruct Hs as (Vs & Fs & Hsr).
  destruct (fdiv_spec score (f_of_Z (Z.of_nat (length want) * 256)) Vs (proj1 (f_of_Z_good _)) Fs
    (f_of_Z_finite (Z.of_nat (length want) * 256) ltac:(lia)) ltac:(rewrite Ef; nia)) as (Ed & V & N).
  set (norm := fdiv score _) in *. assert (good norm) as G by by split.
  assert (0 <= fval norm) as Hd.
  { rewrite Ed. apply rndQ_nonneg; [change (2 ^ 1074) with one_val; nia|rewrite Ef; nia]. }
  pose proof (clamp_range _ G) as Hc. cbn zeta in Hc. rewrite (fltb_val _ f_zero G f_zero_good) in Hc.
  change (fval f_zero) with 0 in Hc. destruct (Z.ltb_spec (fval norm) 0); [lia|]. exact Hc.
Qed.

(** The request's prompt has fewer than 2^40 blocks. *)
Definition prompt_ok (req : option Request) : Prop :=
  match req with
  | None => True
  | Some r => Z.of_nat (length (HashPromptApprox (q_Prompt r) DefaultBlockSize (q_Adapter r))) < 2 ^ 40
  end.

Lemma scoreOverlap_range snap req c :
  scorer_ok (OverlapScorer snap) -> prompt_ok req -> frange 1 (scoreOverlap snap req c).
Proof.
  intros Hs Hl. unfold scoreOverlap. destruct req as [r|]; [|apply half_range].
  destruct snap as [blocks|]; [|apply half_range]. cbn [prompt_ok] in Hl.
  destruct (String.eqb (at_key (Capabilities c) "provider") "true"); [apply half_range|].
  case_decide; [apply half_range|]. destruct (blocks !! WorkerID c) as [have|] eqn:Eh; [|apply half_range].
  case_decide; [apply half_range|].
  destruct (HashPromptApprox (q_Prompt r) DefaultBlockSize (q_Adapter r)) as [|h want]; [apply half_range|].
  destruct (LongestConsecutivePrefix (h :: want) have) as [n score] eqn:En.
  destruct (Z.eqb_spec n 0); [by apply frange_zero|].
  apply (overlap_norm_range (h :: want) have n score); [exact (Hs _ _ Eh)|done|done|done].
Qed.

Lemma Score_range s req c :
  scorer_ok s -> candidate_ok c -> prompt_ok req -> frange 1 (Score s req c).
Proof.
  intros Hs [Hd He Hc] Hp. destruct s as [|ref|wd bb pref|maxUSD|policy|snap]; cbn [Score].
  - by apply scoreLoad_range.
  - destruct Hs. by apply scoreLatency_range.
  - unfold scoreAffinity. case_if; [by apply frange_zero|]. case_if; [apply frange_one|by apply frange_zero].
  - by apply scoreCost_range.
  - by apply scorePolicy_range.
  - by apply scoreOverlap_range.
Qed.

(** ** The weighted sum (the scoring loop of [Rank]) *)

Record WeightedScorer := mkWS { ws_Scorer : Scorer; ws_Weight : float64 }.

Definition effective_weight (w : float64) : float64 := if feqb w f_zero then f_one else w.

Definition weighted_total (scorers : list WeightedScorer) (req : option Request) (c : Candidate) : float64 :=
  foldl (fun total ws => fadd total (fmul (effective_weight (ws_Weight ws)) (Score (ws_Scorer ws) req c)))
    f_zero scorers.

Definition ws_ok (ws : WeightedScorer) : Prop := scorer_ok (ws_Scorer ws) /\ frange 1 (ws_Weight ws).

Lemma effective_weight_range w : frange 1 w -> frange 1 (effective_weight w).
Proof. intros Hw. unfold effective_weight. case_if; [apply frange_one|done]. Qed.

Lemma weighted_term_range ws req c :
  ws_ok ws -> candidate_ok c -> prompt_ok req ->
  frange 1 (fmul (effective_weight (ws_Weight ws)) (Score (ws_Scorer ws) req c)).
Proof.
  intros [Hs Hw] Hc Hp. apply (frange_mul 1 1); [lia|lia|lia|by apply effective_weight_range|by apply Score_range].
Qed.

Lemma weighted_total_range scorers req c :
  Forall ws_ok scorers -> candidate_ok c -> prompt_ok req -> Z.of_nat (length scorers) < 2 ^ 53 ->
  frange (Z.of_nat (length scorers)) (weighted_total scorers req c).
Proof.
  intros Hs Hc Hp. unfold weighted_total. induction scorers as [|ws scorers IH] using rev_ind; intros Hl.
  - by apply frange_zero.
  - apply Forall_app in Hs as [Hs Hw]. apply (Forall_singleton ws_ok) in Hw.
    rewrite length_app, Nat2Z.inj_add in *. cbn [length] in *. rewrite foldl_app. cbn [foldl].
    apply frange_add; [lia|lia|lia|apply IH; [done|lia]|]. by apply weighted_term_range.
Qed.

(** A candidate no worse under every scorer has no lower total. *)
Lemma weighted_total_mono scorers req c c' :
  Forall ws_ok scorers -> candidate_ok c -> candidate_ok c' -> prompt_ok req ->
  Z.of_nat (length scorers) < 2 ^ 53 ->
  Forall (fun ws => fval (Score (ws_Scorer ws) req c) <= fval (Score (ws_Scorer ws) req c')) scorers ->
  fval (weighted_total scorers req c) <= fval (weighted_total scorers req c').
Proof.
  intros Hs Hc Hc' Hp. induction scorers as [|ws scorers IH] using rev_ind; intros Hl Hle; [done|].
  apply Forall_app in Hs as [Hs Hw]. apply Forall_app in Hle as [Hle Hlw].
  apply (Forall_singleton ws_ok) in Hw.
  apply (Forall_singleton (fun ws => fval (Score (ws_Scorer ws) req c) <= fval (Score (ws_Scorer ws) req c'))) in Hlw.
  rewrite length_app, Nat2Z.inj_add in Hl. cbn [length] in Hl.
  unfold weighted_total in *. rewrite !foldl_app. cbn [foldl]. fold (weighted_total scorers req c).
  fold (weighted_total scorers req c').
  pose proof (weighted_total_range scorers req c Hs Hc Hp ltac:(lia)) as R.
  pose proof (weighted_total_range scorers req c' Hs Hc' Hp ltac:(lia)) as R'.
  pose proof (weighted_term_range ws req c Hw Hc Hp) as T.
  pose proof (weighted_term_range ws req c' Hw Hc' Hp) as T'.
  destruct Hw as [Hsc Hwr]. pose proof (effective_weight_range _ Hwr) as Hw.
  apply fadd_mono; eauto using frange_num; [apply IH; [done|lia|done]|].
  apply fmul_mono; eauto using frange_num, Score_range. by destruct Hw as (_ & _ & ? & _).
Qed.

(** ** Properties *)

(** A candidate with no longer queue that no other scorer puts lower is
    never scored below the busier one: rounding of the weighted sum cannot
    reverse the preference for the less loaded worker. *)
Theorem less_loaded_not_worse scorers req c c' :
  Forall ws_ok scorers -> candidate_ok c -> candidate_ok c' -> prompt_ok req ->
  Z.of_nat (length scorers) < 2 ^ 53 ->
  QueueDepth c <= QueueDepth c' ->
  Forall (fun ws => ws_Scorer ws = LeastLoaded \/
     fleb (Score (ws_Scorer ws) req c') (Score (ws_Scorer ws) req c) = true) scorers ->
  fltb (weighted_total scorers req c) (weighted_total scorers req c') = false.
Proof.
  intros Hs Hc Hc' Hp Hl Hd Hle.
  pose proof (weighted_total_range scorers req c Hs Hc Hp Hl) as R.
  pose proof (weighted_total_range scorers req c' Hs Hc' Hp Hl) as R'.
  rewrite fltb_val by eauto using frange_good. apply Z.ltb_ge.
  apply weighted_total_mono; [done..|].
  rewrite list.Forall_forall in Hs, Hle |- *. intros ws Hin. destruct (Hs ws Hin) as [Hw _].
  destruct (Hle ws Hin) as [->|Hf].
  - apply scoreLoad_anti; destruct Hc as [D _ _], Hc' as [D' _ _]; lia.
  - apply fleb_fval in Hf; [done|..]; eauto using frange_good, Score_range.
Qed.

Definition demo_c (id : string) (depth : Z) : Candidate :=
  mkCandidate id (id ++ ":1") depth true true f_zero ["m"] 0 f_zero "" "vllm" f_zero "" ∅.

Definition demo_req : Request := mkRequest "m" "" "hi" "" "" 0.

Definition demo_scorers : list WeightedScorer := [mkWS LeastLoaded f_one; mkWS NewCostScorer f_one].

Lemma demo_candidate_ok id depth : 0 <= depth < 100 -> candidate_ok (demo_c id depth).
Proof.
  intros Hd. constructor; cbn [demo_c QueueDepth EwmaLatencyMs CostPerHour].
  - lia.
  - by apply frange_zero.
  - apply zero_num.
Qed.

Lemma demo_scorers_ok : Forall ws_ok demo_scorers.
Proof.
  constructor; [split; [exact I|apply frange_one]|].
  constructor; [split; [apply zero_num|apply frange_one]|constructor].
Qed.

Lemma demo_prompt_ok : prompt_ok (Some demo_req).
Proof. vm_compute. exact eq_refl. Qed.

Lemma less_loaded_not_worse_witness :
  fltb (weighted_total demo_scorers (Some demo_req) (demo_c "a" 1))
       (weighted_total demo_scorers (Some demo_req) (demo_c "b" 3)) = false.
Proof.
  apply less_loaded_not_worse.
  - apply demo_scorers_ok.
  - by apply demo_candidate_ok.
  - by apply demo_candidate_ok.
  - apply demo_prompt_ok.
  - cbn. lia.
  - cbn. lia.
  - constructor; [by left|]. constructor; [|constructor]. right. vm_compute. exact eq_refl.
Defined.
