(* ===== verification/Chain.v ===== *)
(** * The scheduling chain (services/scheduler/chain.go)

    [Rank] runs the filters in order, prepares the scorers on the survivors,
    scores, and sorts by total score with the worker id as tie-break; [Pick]
    takes the first.  Spans and metrics are left out.  The scorers carry state
    that [Prepare] overwrites, so [Rank] returns the chain it leaves. *)

From S2P Require Import Prelude Float64 Rounding FloatRange GoStrings SortSlice Errors Routing Rendezvous Candidates CacheRegistry Scorers.

Inductive Filter : Type :=
| FHealth
| FModel
| FCapability
| FAdmission (limit : Z).

Definition FilterName (f : Filter) : string :=
  match f with
  | FHealth => "health" | FModel => "model" | FCapability => "capability" | FAdmission _ => "admission"
  end.

Definition runFilter (f : Filter) (req : option Request) (in_ : list Candidate) : list Candidate :=
  match f with
  | FHealth => HealthFilter in_
  | FModel => ModelFilter req in_
  | FCapability => CapabilityFilter req in_
  | FAdmission limit => AdmissionFilter limit in_
  end.

Record Chain := mkChain { Filters : list Filter; Scorers : list WeightedScorer }.

Definition NewChain (filters : list Filter) (scorers : list WeightedScorer) : Chain := mkChain filters scorers.

Record ChainConfig := mkConfig {
  WeightLoad : float64;
  WeightLatency : float64;
  WeightAffinity : float64;
  WeightCost : float64;
  WeightPolicy : float64;
  LatencyRefMs : float64;
  AdmissionLimit : Z;
  AffinityWindow : Z;
  AffinityBlock : Z;
  Policy : option (option RoutingPolicy);
  Overlap : option (option (gmap string (gmap Z float64)));
  WeightOverlap : float64
}.

Definition NewConfiguredChain (cfg : ChainConfig) : Chain :=
  let none :=
    fleb (WeightLoad cfg) f_zero && fleb (WeightLatency cfg) f_zero && fleb (WeightAffinity cfg) f_zero
    && fleb (WeightCost cfg) f_zero && fleb (WeightPolicy cfg) f_zero in
  let wl := if none then flit 45 100 else WeightLoad cfg in
  let wlat := if none then flit 15 100 else WeightLatency cfg in
  let waff := if none then flit 1 10 else WeightAffinity cfg in
  let wc := if none then flit 15 100 else WeightCost cfg in
  let wp := if none then flit 15 100 else WeightPolicy cfg in
  let wo := WeightOverlap cfg in
  let filters :=
    ([FHealth; FModel; FCapability] ++
     (if 0 <? AdmissionLimit cfg then [FAdmission (AdmissionLimit cfg)] else []))%list in
  let scorers :=
    ([mkWS LeastLoaded wl; mkWS (NewLatencyScorer (LatencyRefMs cfg)) wlat] ++
     (if fltb f_zero waff then [mkWS (NewAffinityScorer (AffinityWindow cfg) (AffinityBlock cfg)) waff] else []) ++
     (if fltb f_zero wc then [mkWS NewCostScorer wc] else []) ++
     (match Policy cfg with Some p => if fltb f_zero wp then [mkWS (PolicyScorer p) wp] else [] | None => [] end) ++
     (match Overlap cfg with Some o => if fltb f_zero wo then [mkWS (OverlapScorer o) wo] else [] | None => [] end))%list in
  NewChain filters scorers.

Definition DefaultChain : Chain :=
  NewConfiguredChain
    (mkConfig (flit 45 100) (flit 15 100) (flit 1 10) (flit 15 100) (flit 15 100)
       (f_of_Z 100) 4 1024 64 None None f_zero).

Record PickResult := mkPick { pr_WorkerID : string; pr_Endpoint : string; pr_Score : float64 }.

(** The filter loop. *)
Fixpoint runFilters (fs : list Filter) (req : option Request) (surviving : list Candidate)
    : result error (list Candidate) :=
  match fs with
  | [] => Ok surviving
  | f :: rest =>
      match runFilter f req surviving with
      | [] => Err (if String.eqb (FilterName f) "admission" then ErrAdmissionRejected else ErrNoCapacity)
      | s => runFilters rest req s
      end
  end.

Section Rank.
Context `{Hash64}.

(** The prepare loop threads the request, whose preferred worker it sets. *)
Fixpoint prepareAll (scorers : list WeightedScorer) (req : option Request) (cands : list Candidate)
    : list WeightedScorer * option Request :=
  match scorers with
  | [] => ([], req)
  | ws :: rest =>
      let '(s, req) := Prepare (ws_Scorer ws) req cands in
      let '(rest, req) := prepareAll rest req cands in
      (mkWS s (ws_Weight ws) :: rest, req)
  end.

Definition scored : Type := Candidate * float64.

(** The comparison given to [sort.Slice]. *)
Definition scored_less (a b : scored) : bool :=
  if negb (feqb a.2 b.2) then fltb b.2 a.2
  else str_ltb (WorkerID a.1) (WorkerID b.1).

Definition pick_of (r : scored) : PickResult := mkPick (WorkerID r.1) (Endpoint r.1) r.2.

Definition Rank (ch : Chain) (req : option Request) (candidates : list Candidate)
    : result error (list PickResult) * Chain * option Request :=
  match runFilters (Filters ch) req candidates with
  | Err e => (Err e, ch, req)
  | Ok surviving =>
      let '(scorers, req) := prepareAll (Scorers ch) req surviving in
      let results := (fun c => (c, weighted_total scorers req c)) <$> surviving in
      (Ok (pick_of <$> sort_slice scored_less results), mkChain (Filters ch) scorers, req)
  end.

(** [Pick] indexes the ranking at zero, which panics when it is empty. *)
Definition Pick (ch : Chain) (req : option Request) (candidates : list Candidate)
    : go (result error PickResult) :=
  match (Rank ch req candidates).1.1 with
  | Err e => Returns (Err e)
  | Ok [] => Panics
  | Ok (p :: _) => Returns (Ok p)
  end.
End Rank.

(** ** Which candidates survive *)

Definition context_ok (r : Request) (c : Candidate) : bool :=
  negb ((0 <? q_MinContext r) && (0 <? MaxContext c) && (MaxContext c <? q_MinContext r)).

(** The candidate can serve the request, whatever its load. *)
Definition suitable (req : option Request) (c : Candidate) : bool :=
  match req with
  | None => false
  | Some r =>
      Healthy c && Ready c && negb (String.eqb (q_BaseModel r) "") &&
      servesModel (Models c) (want_of (q_BaseModel r) (q_Adapter r)) (q_BaseModel r) (q_Adapter r) &&
      context_ok r c
  end.

Definition admits (limit : Z) (c : Candidate) : bool := (limit <=? 0) || (QueueDepth c <? limit).

Lemma filter_filter {A} (f g : A -> bool) l :
  List.filter g (List.filter f l) = List.filter (fun x => f x && g x) l.
Proof.
  induction l as [|x l IH]; [done|]. cbn. destruct (f x); cbn; [|done]. destruct (g x); by rewrite IH.
Qed.

Lemma filter_ext_list {A} (f g : A -> bool) l : (forall x, f x = g x) -> List.filter f l = List.filter g l.
Proof. intros Hfg. induction l as [|x l IH]; [done|]. cbn. by rewrite Hfg, IH. Qed.

Lemma filter_false {A} (l : list A) : List.filter (fun _ => false) l = [].
Proof. by induction l. Qed.

(** The first three filters together. *)
Lemma suitable_filters req cands :
  CapabilityFilter req (ModelFilter req (HealthFilter cands)) = List.filter (suitable req) cands.
Proof.
  unfold CapabilityFilter, ModelFilter, HealthFilter. destruct req as [r|]; [|symmetry; apply filter_false].
  destruct (String.eqb (q_BaseModel r) "") eqn:Eb.
  - cbn. rewrite <- (filter_false cands) at 1. apply filter_ext_list. intros c. unfold suitable.
    rewrite Eb. cbn. by rewrite !andb_false_r.
  - rewrite !filter_filter. apply filter_ext_list. intros c. unfold suitable, satisfiesCapability, context_ok.
    rewrite Eb. cbn [negb]. rewrite !andb_true_r.
    destruct ((0 <? q_MinContext r) && (0 <? MaxContext c) && (MaxContext c <? q_MinContext r)); cbn [negb].
    + by rewrite !andb_false_r.
    + rewrite andb_true_r. destruct (Models c) as [|m ms]; [by rewrite !andb_false_r|].
      by destruct (Healthy c), (Ready c), (servesModel (m :: ms) (want_of (q_BaseModel r) (q_Adapter r)) (q_BaseModel r) (q_Adapter r)).
Qed.

Lemma admission_filter limit cands : AdmissionFilter limit cands = List.filter (admits limit) cands.
Proof.
  unfold AdmissionFilter, admits. destruct (limit <=? 0); cbn [orb]; [|done].
  induction cands as [|c cands IH]; [done|]. cbn [List.filter]. by rewrite <- IH.
Qed.

Lemma runFilters_cons f fs req s :
  runFilters (f :: fs) req s =
  match runFilter f req s with
  | [] => Err (if String.eqb (FilterName f) "admission" then ErrAdmissionRejected else ErrNoCapacity)
  | s' => runFilters fs req s'
  end.
Proof. done. Qed.

(** The filters of a configured chain. *)
Definition standard_filters (limit : Z) : list Filter :=
  ([FHealth; FModel; FCapability] ++ (if 0 <? limit then [FAdmission limit] else []))%list.

Lemma runFilters_standard limit req cands :
  runFilters (standard_filters limit) req cands =
    match List.filter (suitable req) cands with
    | [] => Err ErrNoCapacity
    | s => match List.filter (admits limit) s with [] => Err ErrAdmissionRejected | s' => Ok s' end
    end.
Proof.
  rewrite <- suitable_filters. unfold standard_filters. cbn [app]. rewrite runFilters_cons. cbn [runFilter FilterName].
  destruct (HealthFilter cands) as [|c1 l1] eqn:E1.
  { unfold ModelFilter, CapabilityFilter. destruct req as [r|]; [|done]. by destruct (String.eqb (q_BaseModel r) ""). }
  rewrite runFilters_cons. cbn [runFilter FilterName].
  destruct (ModelFilter req (c1 :: l1)) as [|c2 l2] eqn:E2.
  { unfold CapabilityFilter. by destruct req. }
  rewrite runFilters_cons. cbn [runFilter FilterName].
  destruct (CapabilityFilter req (c2 :: l2)) as [|c3 l3]; [done|].
  destruct (Z.ltb_spec 0 limit).
  - rewrite runFilters_cons. cbn [runFilter FilterName]. rewrite admission_filter.
    by destruct (List.filter (admits limit) (c3 :: l3)).
  - cbn [runFilters]. rewrite <- admission_filter. unfold AdmissionFilter.
    destruct (Z.leb_spec limit 0); [done|lia].
Qed.

(** ** The order of the ranking *)

Lemma fltb_key x y : is_nan x = false -> is_nan y = false -> (fltb x y = true <-> key_lt (fkey x) (fkey y)).
Proof. rewrite fltb_spec. tauto. Qed.

Definition scored_num (a : scored) : Prop := is_nan a.2 = false.

(** [a] may be ranked before [b]: a higher score, or the same and no larger id. *)
Definition ranked_before (a b : scored) : Prop :=
  key_lt (fkey b.2) (fkey a.2) \/ (fkey a.2 = fkey b.2 /\ str_ltb (WorkerID b.1) (WorkerID a.1) = false).

Lemma key_lt_total a b : key_lt a b \/ a = b \/ key_lt b a.
Proof. destruct a as [[c1 e1] m1], b as [[c2 e2] m2]. cbn. intuition (try congruence; try lia).
  destruct (Z.lt_trichotomy c1 c2) as [?|[->|?]]; [by left; left| |by right; right; left].
  destruct (Z.lt_trichotomy e1 e2) as [?|[->|?]]; [by left; right; split; [|left]| |by right; right; right; split; [|left]].
  destruct (Z.lt_trichotomy m1 m2) as [?|[->|?]]; [by left; right; split; [|right]|by right; left|by right; right; right; split; [|right]].
Qed.

Lemma key_lt_irrefl a : ~ key_lt a a.
Proof. destruct a as [[c e] m]. cbn. lia. Qed.

Lemma key_lt_trans a b c : key_lt a b -> key_lt b c -> key_lt a c.
Proof. destruct a as [[c1 e1] m1], b as [[c2 e2] m2], c as [[c3 e3] m3]. cbn. lia. Qed.

Lemma ordered_ranked a b : scored_num a -> scored_num b -> (ordered scored_less a b <-> ranked_before a b).
Proof.
  intros Na Nb. unfold ordered, scored_less, ranked_before.
  pose proof (feqb_spec b.2 a.2) as He. pose proof (fltb_key a.2 b.2 Na Nb) as Hl.
  destruct (feqb b.2 a.2); cbn [negb].
  - destruct He as [He _]. destruct (He eq_refl) as (_ & _ & ->). split; [by right|].
    intros [Hk|[_ ?]]; [by apply key_lt_irrefl in Hk|done].
  - assert (fkey a.2 <> fkey b.2) as Hne by (intros E; destruct He as [_ He]; discriminate He; done).
    destruct (fltb a.2 b.2); split.
    + done.
    + intros [Hk|[? _]]; [|done]. destruct Hl as [Hl _]. specialize (Hl eq_refl).
      exfalso. eapply key_lt_irrefl, key_lt_trans; done.
    + intros _. left. destruct (key_lt_total (fkey b.2) (fkey a.2)) as [?|[?|Hk]]; [done|congruence|].
      apply Hl in Hk. done.
    + done.
Qed.

Lemma ranked_before_trans a b c : ranked_before a b -> ranked_before b c -> ranked_before a c.
Proof.
  unfold ranked_before. intros [H1|[E1 I1]] [H2|[E2 I2]].
  - left. by eapply key_lt_trans.
  - left. by rewrite <- E2.
  - left. by rewrite E1.
  - right. split; [congruence|]. destruct (str_ltb (WorkerID c.1) (WorkerID a.1)) eqn:E; [|done].
    destruct (decide (WorkerID a.1 = WorkerID b.1)) as [Eab|Nab]; [congruence|].
    destruct (str_ltb_total _ _ Nab) as [L|L]; [|congruence].
    rewrite (str_ltb_trans _ _ _ E L) in I2. done.
Qed.

Lemma ranked_before_total_order a b : ranked_before a b -> ranked_before b a -> WorkerID a.1 = WorkerID b.1.
Proof.
  unfold ranked_before. intros [H1|[E1 I1]] [H2|[E2 I2]].
  - exfalso. eapply key_lt_irrefl, key_lt_trans; done.
  - rewrite E2 in H1. by apply key_lt_irrefl in H1.
  - rewrite E1 in H2. by apply key_lt_irrefl in H2.
  - apply dec_stable. intros Hne. destruct (str_ltb_total _ _ Hne); congruence.
Qed.

Lemma scored_less_asym a b : scored_num a -> scored_num b -> scored_less a b = true -> ordered scored_less a b.
Proof.
  intros Na Nb Hl. destruct (scored_less b a) eqn:E; [|done]. exfalso. revert Hl E.
  unfold scored_less. pose proof (feqb_spec a.2 b.2) as E1. pose proof (feqb_spec b.2 a.2) as E2.
  pose proof (fltb_key a.2 b.2 Na Nb) as L1. pose proof (fltb_key b.2 a.2 Nb Na) as L2.
  destruct (feqb a.2 b.2), (feqb b.2 a.2); cbn [negb]; intros Hl E.
  - by pose proof (str_ltb_trans _ _ _ Hl E) as X; rewrite str_ltb_irrefl in X.
  - destruct E1 as [E1 _], E2 as [_ E2]. destruct (E1 eq_refl) as (? & ? & ?). discriminate E2; done.
  - destruct E2 as [E2 _], E1 as [_ E1]. destruct (E2 eq_refl) as (? & ? & ?). discriminate E1; done.
  - apply L2 in Hl. apply L1 in E. by eapply key_lt_irrefl, key_lt_trans.
Qed.

Lemma sort_ranked l : Forall scored_num l -> StronglySorted (ordered scored_less) (sort_slice scored_less l).
Proof.
  intros Hl. apply (sort_slice_sorted _ scored_num); [| |done].
  - intros x y z Px Py Pz. rewrite !ordered_ranked by done. apply ranked_before_trans.
  - intros x y. apply scored_less_asym.
Qed.

(** ** Preparation *)

(** The maximum [CostScorer.Prepare] leaves: zero, or the largest positive cost. *)
Definition is_max_cost (cands : list Candidate) (m : float64) : Prop :=
  (m = f_zero \/ (fltb f_zero m = true /\ exists c, c ∈ cands /\ CostPerHour c = m)) /\
  forall c, c ∈ cands -> fltb m (CostPerHour c) = false.

Lemma fltb_false_trans x y z : fltb x y = true -> fltb x z = false -> is_nan x = false -> fltb y z = false.
Proof.
  intros H1 H2 Hx. destruct (fltb y z) eqn:E; [|done].
  apply fltb_spec in H1 as (_ & _ & K1). apply fltb_spec in E as (_ & Nz & K2).
  assert (fltb x z = true) as H by (apply fltb_spec; split; [done|]; split; [done|]; by eapply key_lt_trans).
  congruence.
Qed.

Lemma max_cost_spec cands : is_max_cost cands (max_cost cands) /\ is_nan (max_cost cands) = false.
Proof.
  unfold max_cost. induction cands as [|c cands IH] using rev_ind.
  - split; [split; [by left|]|done]. intros c Hc. by apply elem_of_nil in Hc.
  - rewrite foldl_app. cbn [foldl]. destruct IH as [[Hm Hmax] Hn]. set (m := foldl _ _ _) in *.
    destruct (fltb m (CostPerHour c)) eqn:E.
    + pose proof E as (_ & Nc & _)%fltb_spec. split; [split|done].
      * right. split.
        -- destruct Hm as [->|[Hz _]]; [done|]. apply fltb_spec in Hz as (? & ? & K1).
           apply fltb_spec in E as (? & ? & K2). apply fltb_spec.
           split; [done|]. split; [done|]. by eapply key_lt_trans.
        -- exists c. split; [|done]. apply elem_of_app. right. by apply list_elem_of_singleton.
      * intros d [Hd|Hd]%elem_of_app; [by eapply fltb_false_trans; [done|apply Hmax|done]|].
        apply list_elem_of_singleton in Hd as ->. apply fltb_irrefl.
    + split; [split|done].
      * destruct Hm as [->|[Hz (d & Hd & Ed)]]; [by left|]. right. split; [done|]. exists d. set_solver.
      * intros d [Hd|Hd%list_elem_of_singleton]%elem_of_app; [by apply Hmax|by subst].
Qed.

Lemma fkey_inj_pos x y : fltb f_zero x = true -> fkey x = fkey y -> x = y.
Proof.
  rewrite fltb_spec. intros (_ & Nx & Hx). unfold key_lt, fkey in *. cbn in Hx.
  destruct x as [[]|[]| |[] mx ex], y as [[]|[]| |[] my ey]; cbn in *; intros E; try congruence; try lia;
    injection E; intros; f_equal; lia.
Qed.

Lemma is_max_cost_unique cands m m' :
  is_nan m = false -> is_nan m' = false -> is_max_cost cands m -> is_max_cost cands m' -> m = m'.
Proof.
  intros Nm Nm' [Hm Hx] [Hm' Hx'].
  assert (forall a b, is_nan a = false -> is_nan b = false -> fltb a b = false -> fltb b a = false ->
    fltb f_zero a = true -> a = b) as Heq.
  { intros a b Na Nb H1 H2 Hp. apply fkey_inj_pos; [done|].
    destruct (key_lt_total (fkey a) (fkey b)) as [K|[K|K]]; [|done|].
    - apply fltb_key in K; [congruence|done|done].
    - apply fltb_key in K; [congruence|done|done]. }
  destruct Hm as [->|[Hz (c & Hc & Ec)]], Hm' as [->|[Hz' (c' & Hc' & Ec')]].
  - done.
  - specialize (Hx c' Hc'). congruence.
  - specialize (Hx' c Hc). congruence.
  - apply Heq; [done|done| | |done].
    + rewrite <- Ec'. by apply Hx.
    + rewrite <- Ec. by apply Hx'.
Qed.

Lemma max_cost_perm l l' : l ≡ₚ l' -> max_cost l = max_cost l'.
Proof.
  intros Hp. destruct (max_cost_spec l) as [H1 N1]. destruct (max_cost_spec l') as [H2 N2].
  eapply is_max_cost_unique; [done|done|exact H1|].
  destruct H2 as [H2 H3]. split.
  - destruct H2 as [->|[Hz (c & Hc & Ec)]]; [by left|]. right. split; [done|]. exists c. by rewrite Hp.
  - intros c. rewrite Hp. apply H3.
Qed.

Lemma max_cost_num cands : Forall candidate_ok cands -> num (max_cost cands).
Proof.
  intros Hc. destruct (max_cost_spec cands) as [[[->|[_ (c & Hin & <-)]] _] _]; [apply zero_num|].
  rewrite list.Forall_forall in Hc. by apply Hc.
Qed.

Section PrepareLemmas.
Context `{Hash64}.

Lemma perm_filter (f : Candidate -> bool) l l' : l ≡ₚ l' -> List.filter f l ≡ₚ List.filter f l'.
Proof.
  induction 1; cbn; repeat case_if; eauto using Permutation_cons, Permutation_swap, Permutation_trans.
Qed.

Lemma Prepare_perm s req l l' : l ≡ₚ l' -> Prepare s req l = Prepare s req l'.
Proof.
  intros Hp. destruct s as [|ref|wd bb pref|m|p|o]; cbn [Prepare]; try done.
  - unfold prepareAffinity. destruct req as [r|]; [|done].
    destruct l as [|c l], l' as [|c' l']; try done.
    + by apply Permutation_nil_cons in Hp.
    + by apply symmetry, Permutation_nil_cons in Hp.
    + rewrite (HRWPick_same_members _ (WorkerID <$> List.filter has_local_cache (c :: l))
                (WorkerID <$> List.filter has_local_cache (c' :: l'))); [done|].
      intros w. by rewrite (perm_filter has_local_cache _ _ Hp).
  - by rewrite (max_cost_perm l l' Hp).
Qed.

Lemma prepareAll_perm ss req l l' : l ≡ₚ l' -> prepareAll ss req l = prepareAll ss req l'.
Proof.
  intros Hp. revert req. induction ss as [|ws ss IH]; intros req; cbn; [done|].
  rewrite (Prepare_perm _ req l l' Hp). destruct (Prepare (ws_Scorer ws) req l') as [s r]. by rewrite IH.
Qed.

Lemma Prepare_prompt s req l : prompt_ok req -> prompt_ok (Prepare s req l).2.
Proof.
  intros Hp. destruct s as [|ref|wd bb pref|m|p|o]; cbn [Prepare]; try done.
  unfold prepareAffinity. destruct req as [r|]; [|done]. destruct l; [done|]. by case_if.
Qed.

Lemma Prepare_ok s req l : Forall candidate_ok l -> scorer_ok s -> scorer_ok (Prepare s req l).1.
Proof.
  intros Hl Hs. destruct s as [|ref|wd bb pref|m|p|o]; cbn [Prepare]; try done.
  - unfold prepareAffinity. destruct req as [r|]; [|done]. destruct l; [done|]. by case_if.
  - by apply max_cost_num.
Qed.

Lemma prepareAll_ok ss req l :
  Forall candidate_ok l -> Forall ws_ok ss -> prompt_ok req ->
  Forall ws_ok (prepareAll ss req l).1 /\ prompt_ok (prepareAll ss req l).2 /\
  length (prepareAll ss req l).1 = length ss.
Proof.
  intros Hl Hs. revert req. induction Hs as [|ws ss [Hw Hr] Hs IH]; intros req Hp; cbn; [by split_and!; [constructor|..]|].
  pose proof (Prepare_ok (ws_Scorer ws) req l Hl Hw). pose proof (Prepare_prompt (ws_Scorer ws) req l Hp).
  destruct (Prepare (ws_Scorer ws) req l) as [s r]. cbn [fst snd] in *.
  destruct (IH r ltac:(done)) as (I1 & I2 & I3). destruct (prepareAll ss r l) as [ss' r']. cbn in *.
  split_and!; [by constructor|done|by rewrite I3].
Qed.

(** What a ranking is computed from: the survivors with their totals. *)
Definition rank_results (ch : Chain) (req : option Request) (surviving : list Candidate) : list scored :=
  let '(scorers, req) := prepareAll (Scorers ch) req surviving in
  (fun c => (c, weighted_total scorers req c)) <$> surviving.

Lemma Rank_unfold ch req cands :
  (Rank ch req cands).1.1 =
    match runFilters (Filters ch) req cands with
    | Err e => Err e
    | Ok s => Ok (pick_of <$> sort_slice scored_less (rank_results ch req s))
    end.
Proof.
  unfold Rank, rank_results. destruct (runFilters (Filters ch) req cands); [|done].
  by destruct (prepareAll (Scorers ch) req a).
Qed.

Lemma rank_results_num ch req s :
  Forall candidate_ok s -> Forall ws_ok (Scorers ch) -> prompt_ok req ->
  Z.of_nat (length (Scorers ch)) < 2 ^ 53 ->
  Forall scored_num (rank_results ch req s).
Proof.
  intros Hs Hw Hp Hl. unfold rank_results. destruct (prepareAll_ok (Scorers ch) req s Hs Hw Hp) as (I1 & I2 & I3).
  destruct (prepareAll (Scorers ch) req s) as [ss r]. cbn [fst snd] in *.
  apply Forall_fmap. eapply list.Forall_impl; [exact Hs|]. intros c Hc.
  pose proof (weighted_total_range ss r c I1 Hc I2 ltac:(rewrite I3; done)) as R.
  apply frange_good in R as [_ R]. exact R.
Qed.

Lemma rank_results_fst ch req s : fst <$> rank_results ch req s = s.
Proof.
  unfold rank_results. destruct (prepareAll (Scorers ch) req s). rewrite <- list_fmap_compose. apply list_fmap_id.
Qed.

Lemma rank_results_perm ch req s s' : s ≡ₚ s' -> rank_results ch req s ≡ₚ rank_results ch req s'.
Proof.
  intros Hp. unfold rank_results. rewrite (prepareAll_perm _ _ _ _ Hp).
  destruct (prepareAll (Scorers ch) req s'). by rewrite Hp.
Qed.
End PrepareLemmas.

(** Both orders of the candidates pass the same filters. *)
Lemma runFilters_perm fs req l l' :
  l ≡ₚ l' ->
  match runFilters fs req l, runFilters fs req l' with
  | Ok s, Ok s' => s ≡ₚ s' /\ (forall c, c ∈ s -> c ∈ l)
  | Err e, Err e' => e = e'
  | _, _ => False
  end.
Proof.
  revert l l'. induction fs as [|f fs IH]; intros l l' Hp; [done|]. rewrite !runFilters_cons.
  assert (runFilter f req l ≡ₚ runFilter f req l' /\ forall c, c ∈ runFilter f req l -> c ∈ l) as [Hf Hin].
  { assert (forall g c, c ∈ List.filter g l -> c ∈ l) as Hsub
      by (intros g c [Hc _]%list_elem_of_In%filter_In; by apply list_elem_of_In).
    destruct f; cbn [runFilter].
    - split; [by apply perm_filter|apply Hsub].
    - unfold ModelFilter. destruct req as [r|]; [|split; [done|intros c Hc; by apply elem_of_nil in Hc]].
      case_if; [split; [done|intros c Hc; by apply elem_of_nil in Hc]|]. split; [by apply perm_filter|apply Hsub].
    - unfold CapabilityFilter. destruct req as [r|]; [|done]. split; [by apply perm_filter|apply Hsub].
    - unfold AdmissionFilter. case_if; [done|]. split; [by apply perm_filter|apply Hsub]. }
  destruct (runFilter f req l) as [|c s], (runFilter f req l') as [|c' s'].
  - done.
  - by apply Permutation_nil_cons in Hf.
  - by apply symmetry, Permutation_nil_cons in Hf.
  - specialize (IH _ _ Hf). destruct (runFilters fs req (c :: s)), (runFilters fs req (c' :: s')); try done.
    destruct IH as [? Hs]. split; [done|]. intros x Hx. by apply Hin, Hs.
Qed.

(** ** Properties *)

(** The ranking of a configured chain lists exactly the eligible
    candidates (healthy, ready, serving the model, with enough context and
    below the admission limit), each once and at least one; the error says
    why there is none: no capacity when no candidate suits the request at
    all, admission rejected when some do but all are at the limit.  So [Pick]
    never indexes an empty ranking. *)
Theorem rank_selects_eligible `{Hash64} cfg req cands :
  let ch := NewConfiguredChain cfg in
  let suit := List.filter (suitable req) cands in
  let adm := List.filter (admits (AdmissionLimit cfg)) suit in
  match (Rank ch req cands).1.1 with
  | Ok out =>
      out <> [] /\
      (fun p => (pr_WorkerID p, pr_Endpoint p)) <$> out ≡ₚ (fun c => (WorkerID c, Endpoint c)) <$> adm
  | Err e =>
      (e = ErrNoCapacity /\ suit = []) \/ (e = ErrAdmissionRejected /\ suit <> [] /\ adm = [])
  end /\
  Pick ch req cands <> Panics.
Proof.
  cbn zeta. assert (Filters (NewConfiguredChain cfg) = standard_filters (AdmissionLimit cfg)) as Ef by done.
  set (ch := NewConfiguredChain cfg) in *. clearbody ch. unfold Pick. rewrite Rank_unfold, Ef, runFilters_standard.
  destruct (List.filter (suitable req) cands) as [|c1 l1] eqn:Es; [by split; [left|]|].
  destruct (List.filter (admits (AdmissionLimit cfg)) (c1 :: l1)) as [|c2 l2] eqn:Ea; [by split; [right|]|].
  assert ((fun p => (pr_WorkerID p, pr_Endpoint p)) <$> (pick_of <$> sort_slice scored_less (rank_results ch req (c2 :: l2)))
    ≡ₚ (fun c => (WorkerID c, Endpoint c)) <$> c2 :: l2) as Hp.
  { rewrite sort_slice_perm, <- list_fmap_compose.
    rewrite <- (rank_results_fst ch req (c2 :: l2)) at 2. rewrite <- list_fmap_compose. done. }
  destruct (pick_of <$> sort_slice scored_less (rank_results ch req (c2 :: l2))) as [|p out] eqn:Eo.
  - by apply Permutation_nil_cons in Hp.
  - by split.
Qed.

(** C9: the ranking is by descending total score with ties in ascending
    worker id: when no score of it is NaN, no later entry has a higher score,
    and of two equal scores the earlier entry does not have the larger id.  No
    score is NaN when the costs of the candidates are finite, their queue
    depths between 0 and 2^53-2 and their latency averages between 0 and 2^52-1
    milliseconds, the weights of the scorers, of the policy and of the cache
    lie between zero and one, the latency reference is at least a millisecond,
    and the prompt has fewer than 2^40 blocks. *)
Theorem rank_sorted `{Hash64} ch req cands out :
  (Rank ch req cands).1.1 = Ok out ->
  (Forall (fun p => is_nan (pr_Score p) = false) out ->
   forall i j a b, (i < j)%nat -> out !! i = Some a -> out !! j = Some b ->
     fleb (pr_Score b) (pr_Score a) = true /\
     (feqb (pr_Score a) (pr_Score b) = true -> str_ltb (pr_WorkerID b) (pr_WorkerID a) = false)) /\
  (Forall candidate_ok cands -> Forall ws_ok (Scorers ch) -> prompt_ok req -> Z.of_nat (length (Scorers ch)) < 2 ^ 53 ->
   Forall (fun p => is_nan (pr_Score p) = false) out).
Proof.
  intros HR. rewrite Rank_unfold in HR.
  pose proof (runFilters_perm (Filters ch) req cands cands (Permutation_refl _)) as Hf.
  destruct (runFilters (Filters ch) req cands) as [s|]; [|done]. injection HR as <-. destruct Hf as [_ Hin]. split.
  - intros Hn i j a b Hij Ea Eb. rewrite list.Forall_fmap in Hn. change (Forall scored_num (sort_slice scored_less (rank_results ch req s))) in Hn.
    pose proof (sort_ranked (rank_results ch req s) ltac:(by rewrite sort_slice_perm in Hn)) as Hsort.
    rewrite list_lookup_fmap in Ea, Eb. set (l := sort_slice scored_less (rank_results ch req s)) in *.
    destruct (l !! i) as [x|] eqn:Ex; [|done]. destruct (l !! j) as [y|] eqn:Ey; [|done].
    injection Ea as <-. injection Eb as <-. cbn [pick_of pr_Score pr_WorkerID].
    assert (scored_num x) as Nx by (by eapply Forall_lookup_1). assert (scored_num y) as Ny by (by eapply Forall_lookup_1).
    assert (ranked_before x y) as Hr.
    { apply ordered_ranked; [done|done|]. clear -Hsort Hij Ex Ey. revert i j Hij Ex Ey.
      induction Hsort as [|z l Hs IH Hz]; intros [|i] [|j] Hij Ex Ey; try lia; try done; cbn in Ex, Ey.
      - simplify_eq. by eapply Forall_lookup_1 in Hz.
      - eapply (IH i j); [lia|done|done]. }
    split.
    + apply fleb_spec. split; [done|]. split; [done|]. intros K. destruct Hr as [K'|[E _]].
      * eapply key_lt_irrefl, key_lt_trans; done.
      * rewrite E in K. by apply key_lt_irrefl in K.
    + intros (_ & _ & E)%feqb_spec. destruct Hr as [K|[_ ?]]; [|done]. rewrite E in K. by apply key_lt_irrefl in K.
  - intros Hc Hw Hp Hl. assert (Forall candidate_ok s) as Hs by (rewrite list.Forall_forall in Hc |- *; auto).
    rewrite list.Forall_fmap. change (Forall scored_num (sort_slice scored_less (rank_results ch req s))).
    rewrite sort_slice_perm. by apply rank_results_num.
Qed.

(** The ranking does not depend on the order in which the candidates are
    given (the snapshot comes from maps), for any sorting algorithm: with
    distinct worker ids the outcome of [Rank] is the same for every
    permutation of the candidates. *)
Theorem rank_deterministic `{Hash64} ch req cands cands' :
  cands ≡ₚ cands' -> NoDup (WorkerID <$> cands) ->
  Forall candidate_ok cands -> Forall ws_ok (Scorers ch) -> prompt_ok req ->
  Z.of_nat (length (Scorers ch)) < 2 ^ 53 ->
  (Rank ch req cands).1.1 = (Rank ch req cands').1.1.
Proof.
  intros Hp Hd Hc Hw Hq Hl. rewrite !Rank_unfold. pose proof (runFilters_perm (Filters ch) req _ _ Hp) as Hf.
  destruct (runFilters (Filters ch) req cands) as [s|], (runFilters (Filters ch) req cands') as [s'|]; try done; [|by subst].
  destruct Hf as [Hs Hin]. f_equal. f_equal.
  assert (Forall candidate_ok s) as Hok by (rewrite list.Forall_forall in Hc |- *; auto).
  assert (Forall candidate_ok s') as Hok' by (by rewrite <- Hs).
  pose proof (rank_results_num ch req s Hok Hw Hq Hl) as Hn.
  pose proof (rank_results_num ch req s' Hok' Hw Hq Hl) as Hn'.
  pose proof (rank_results_perm ch req s s' Hs) as Hr.
  apply (ordered_perm_unique scored_less); [|by apply sort_ranked|by apply sort_ranked|by rewrite !sort_slice_perm].
  intros x y Hx Hy Oxy Oyx. rewrite sort_slice_perm in Hx. rewrite sort_slice_perm, <- Hr in Hy.
  rewrite list.Forall_forall in Hn. pose proof (Hn x Hx) as Nx. pose proof (Hn y Hy) as Ny.
  apply ordered_ranked in Oxy; [|done|done]. apply ordered_ranked in Oyx; [|done|done].
  pose proof (ranked_before_total_order x y Oxy Oyx) as Eid. clear -Hd Hin Hx Hy Eid.
  unfold rank_results in *. destruct (prepareAll (Scorers ch) req s) as [ss r].
  apply list_elem_of_fmap in Hx as (c & -> & Hx). apply list_elem_of_fmap in Hy as (d & -> & Hy). cbn in Eid.
  assert (c = d) as ->; [|done].
  apply Hin in Hx, Hy. apply list_elem_of_lookup in Hx as [i Hx], Hy as [j Hy].
  assert (i = j) as ->; [|congruence]. eapply NoDup_lookup; [exact Hd|..]; rewrite list_lookup_fmap.
  - by rewrite Hx.
  - rewrite Hy. cbn. by rewrite Eid.
Qed.

(** *** Witnesses *)

Definition demo_chain : Chain := mkChain (standard_filters 4) demo_scorers.

Lemma demo_pair_ok i d j e :
  0 <= d < 100 -> 0 <= e < 100 -> Forall candidate_ok [demo_c i d; demo_c j e].
Proof.
  intros Hd He. constructor; [by apply demo_candidate_ok|].
  constructor; [by apply demo_candidate_ok|constructor].
Qed.

Lemma rank_sorted_witness :
  exists a b, (@Rank sum_bytes demo_chain (Some demo_req) [demo_c "b" 3; demo_c "a" 0]).1.1 = Ok [a; b] /\
    fleb (pr_Score b) (pr_Score a) = true.
Proof.
  destruct ((@Rank sum_bytes demo_chain (Some demo_req) [demo_c "b" 3; demo_c "a" 0]).1.1)
    as [[|a [|b [|c l]]]|] eqn:E; try (vm_compute in E; discriminate E).
  exists a, b. split; [done|].
  destruct (@rank_sorted sum_bytes demo_chain (Some demo_req) [demo_c "b" 3; demo_c "a" 0] [a; b] E) as [Hs Hn].
  destruct (Hs (Hn ltac:(apply demo_pair_ok; lia) demo_scorers_ok demo_prompt_ok ltac:(cbn; lia)) 0%nat 1%nat a b ltac:(lia) eq_refl eq_refl) as [Hle _].
  exact Hle.
Defined.

Lemma rank_deterministic_witness :
  (@Rank sum_bytes demo_chain (Some demo_req) [demo_c "b" 3; demo_c "a" 3]).1.1 =
  (@Rank sum_bytes demo_chain (Some demo_req) [demo_c "a" 3; demo_c "b" 3]).1.1.
Proof.
  apply (@rank_deterministic sum_bytes).
  - apply Permutation_swap.
  - repeat constructor; cbn; set_solver.
  - apply demo_pair_ok; lia.
  - apply demo_scorers_ok.
  - apply demo_prompt_ok.
  - cbn. lia.
Defined.

