(* ===== verification/GatewaySelect.v ===== *)
(** * Model resolution and worker selection
      (services/catalog/snapshot.go, services/gateway/snapshot_select.go,
       services/gateway/translate.go, services/gateway/errors.go)

    The catalog snapshot and its rebuild, the parsing of model ids, the
    selection of workers for a model, and the mapping of errors to HTTP
    statuses.  The answers of the repository are inputs. *)

From Stdlib Require Import Ascii.
From S2P Require Import Prelude Float64 Rounding FloatRange GoStrings SortSlice Errors Routing Rendezvous Candidates CacheRegistry Scorers Chain.

(** ** The catalog *)

Record ModelIdentity := mkIdentity {
  mi_ID : string;
  mi_Name : string;
  mi_BaseModel : string;
  mi_Adapter : string
}.

Record CatalogSnapshot := mkCatalog {
  ByName : gmap string ModelIdentity;
  WorkersByModel : gmap string (list string);
  cat_BuiltAt : Z
}.

Definition Resolve (s : option CatalogSnapshot) (name : string) : option (ModelIdentity * list string) :=
  match s with
  | None => None
  | Some c =>
      match ByName c !! name with
      | None => None
      | Some id => Some (id, default [] (WorkersByModel c !! mi_ID id))
      end
  end.

Definition Empty (s : option CatalogSnapshot) : bool :=
  match s with None => true | Some c => bool_decide (ByName c = ∅) end.

(** A row of the assignments table. *)
Record ModelAssignment := mkAssign { a_ModelID : string; a_WorkerID : string }.

(** [Rebuild]: the holder after it, given the answers of [ListModels] and
    [ListAssignments]; the outcome of the seeding is only logged. *)
Definition Rebuild (holder : option CatalogSnapshot) (models : result error (list ModelIdentity))
    (assigns : result error (list ModelAssignment)) (now : Z) : option error * option CatalogSnapshot :=
  match models with
  | Err e => (Some e, holder)
  | Ok ms =>
      match assigns with
      | Err e => (Some e, holder)
      | Ok xs =>
          let byName := foldl (fun m x => <[mi_Name x := x]> m) ∅ ms in
          let workersByModel :=
            foldl (fun (m : gmap string (list string)) a =>
                     <[a_ModelID a := (default [] (m !! a_ModelID a) ++ [a_WorkerID a])%list]> m) ∅ xs in
          (None, Some (mkCatalog byName workersByModel now))
      end
  end.

(** ** Model ids *)

Definition ParseModelID `{UnicodeTables} (id : string) : string * string :=
  let id := TrimSpace id in
  if String.eqb id "" then ("", "")
  else match GoStrings.Index id "#" with
       | Some i => (str_take i id, str_drop (S i) id)
       | None => (id, "")
       end.

(** ** Requests to workers (translate.go) *)

(** A [float32] field, carried through unchanged. *)
Abbreviation float32 := spec_float (only parsing).

Record chatMessage := mkMessage { Role : string; Content : string }.

Definition newline : string := String (ascii_of_N 10) "".

Fixpoint message_lines (messages : list chatMessage) : string :=
  match messages with
  | [] => ""
  | m :: rest =>
      (if String.eqb (Role m) "" then "user" else Role m) ++ ": " ++ Content m ++ newline ++ message_lines rest
  end.

Definition messagesToPrompt (messages : list chatMessage) : string :=
  message_lines messages ++ "assistant: ".

(** The decoded [prompt] of a completion request. *)
Inductive json : Type := JString (s : string) | JArray (l : list json) | JOther.

Fixpoint join (parts : list string) : string :=
  match parts with
  | [] => ""
  | [p] => p
  | p :: rest => p ++ newline ++ join rest
  end.

Fixpoint strings_of (l : list json) : option (list string) :=
  match l with
  | [] => Some []
  | JString s :: rest => match strings_of rest with Some ss => Some (s :: ss) | None => None end
  | _ => None
  end.

Definition promptFromCompletions (prompt : json) : result error string :=
  match prompt with
  | JString s => Ok s
  | JArray l =>
      match strings_of l with
      | Some parts => Ok (join parts)
      | None => Err (ENew "prompt array must contain strings")
      end
  | JOther => Err (ENew "prompt must be a string or array of strings")
  end.

Record SamplingParams := mkSampling { Temperature : float32; TopP : float32; MaxTokens : Z }.

Record GenerateRequest := mkGenerate {
  g_BaseModel : string;
  g_Adapter : option string;
  g_Prompt : string;
  g_Sampling : option SamplingParams
}.

Definition toWorkerRequest `{UnicodeTables} (model prompt : string) (temperature topP : option float32)
    (maxTokens : option Z) : GenerateRequest :=
  let '(base, adapter) := ParseModelID model in
  let has := bool_decide (temperature <> None) || bool_decide (topP <> None) || bool_decide (maxTokens <> None) in
  mkGenerate base (if negb (String.eqb adapter "") then Some adapter else None) prompt
    (if has then Some (mkSampling (default f_zero temperature) (default f_zero topP) (default 0 maxTokens)) else None).

Definition maxTokensFromChat (maxCompletionTokens maxTokens : option Z) : option Z :=
  match maxCompletionTokens with Some n => Some n | None => maxTokens end.

(** ** Selection *)

Record SelectedWorker := mkSelected { sw_ID : string; sw_Endpoint : string; sw_Models : list string }.

(** What the selector reads: the routing holder, the catalog holder, the
    in-flight counters, the latency store and the chain. *)
Record Selector := mkSelector {
  sel_holder : option RoutingSnapshot;
  sel_catalog : option CatalogSnapshot;
  sel_inflight : option (string -> Z);
  sel_latency : option (string -> float64);
  sel_chain : Chain
}.

Section Select.
Context `{UnicodeTables} `{Hash64}.

(** The resolved base and adapter, and the set of allowed workers ([None] for
    the nil map). *)
Definition resolveModel (s : Selector) (model : string) : result error (string * string * option (gset string)) :=
  let '(base, adapter) := ParseModelID model in
  if Empty (sel_catalog s) then Ok (base, adapter, None)
  else match Resolve (sel_catalog s) model with
       | None => Err (EWrap ErrModelNotFound model)
       | Some (id, workers) => Ok (mi_BaseModel id, mi_Adapter id, Some (list_to_set workers))
       end.

Definition filterByWorkerIDs (cands : list Candidate) (allowed : gset string) : list Candidate :=
  List.filter (fun c => bool_decide (WorkerID c ∈ allowed)) cands.

(** [SelectWorkers], with the chain it leaves (the scorers' prepared state). *)
Definition SelectWorkers (s : Selector) (model prompt : string) (limit : Z)
    : result error (list SelectedWorker) * Chain :=
  match sel_holder s with
  | None => (Err ErrNoSnapshot, sel_chain s)
  | Some snap =>
      let limit := if limit <=? 0 then 3 else limit in
      match resolveModel s model with
      | Err e => (Err e, sel_chain s)
      | Ok (base, adapter, allowed) =>
          let req := mkRequest base adapter prompt "" "" 0 in
          let candidates := CandidatesFromSnapshot (Some snap) (sel_inflight s) (sel_latency s) in
          let candidates := match allowed with
                            | None => candidates
                            | Some a => filterByWorkerIDs candidates a
                            end in
          if bool_decide (allowed <> None) && bool_decide (candidates = []) then
            (Err (EWrap ErrNoLiveAssignee model), sel_chain s)
          else
            let '(ranked, chain, _) := Rank (sel_chain s) (Some req) candidates in
            match ranked with
            | Err e =>
                (Err (if errors_Is e ErrAdmissionRejected then EWrap ErrAdmissionRejected model
                      else if errors_Is e ErrNoCapacity then EWrap ErrNoCapacity model
                      else e), chain)
            | Ok ranked =>
                let ranked := if limit <? Z.of_nat (length ranked) then take (Z.to_nat limit) ranked else ranked in
                (Ok ((fun p => mkSelected (pr_WorkerID p) (pr_Endpoint p) [model]) <$> ranked), chain)
            end
      end
  end.

(** [SelectWorker] takes the address of the first of them. *)
Definition SelectWorker (s : Selector) (model prompt : string) : go (result error SelectedWorker) * Chain :=
  let '(ws, chain) := SelectWorkers s model prompt 1 in
  (match ws with
   | Err e => Returns (Err e)
   | Ok [] => Panics
   | Ok (w :: _) => Returns (Ok w)
   end, chain).

(** The ids [ListModels] offers, in order, without the catalog. *)
Fixpoint list_models (seen : list string) (ws : list WorkerView) : list string :=
  match ws with
  | [] => []
  | w :: rest =>
      if String.eqb (v_BaseModel w) "" then list_models seen rest
      else if contains seen (ModelID w) then list_models seen rest
      else ModelID w :: list_models (ModelID w :: seen) rest
  end.

(** The names of the catalog (in an unspecified order), or those ids. *)
Definition ListModels (s : Selector) : list string :=
  match sel_catalog s with
  | Some c =>
      if negb (Empty (sel_catalog s)) then (fun kv => mi_Name kv.2) <$> map_to_list (ByName c)
      else match sel_holder s with None => [] | Some snap => list_models [] (Workers snap) end
  | None => match sel_holder s with None => [] | Some snap => list_models [] (Workers snap) end
  end.
End Select.

(** ** Errors as HTTP responses *)

Record HttpError := mkHttp { http_status : Z; err_type : string; err_code : string }.

Definition selectErrorStatus (err : error) : HttpError :=
  if errors_Is err ErrNoSnapshot then mkHttp 503 "server_error" "no_snapshot"
  else if errors_Is err ErrModelNotFound then mkHttp 404 "invalid_request_error" "model_not_found"
  else if errors_Is err ErrNoLiveAssignee then mkHttp 503 "server_error" "no_capacity"
  else if errors_Is err ErrAdmissionRejected then mkHttp 429 "capacity_exceeded" "fleet_saturated"
  else if errors_Is err ErrNoCapacity then mkHttp 503 "server_error" "no_capacity"
  else mkHttp 404 "invalid_request_error" "model_not_found".

Definition mapGRPCError `{GrpcStatus} (err : error) : HttpError :=
  match FromError err with
  | None => mkHttp 500 "server_error" "internal"
  | Some NotFound => mkHttp 404 "invalid_request_error" "model_not_found"
  | Some Unavailable => mkHttp 503 "server_error" "unavailable"
  | Some ResourceExhausted => mkHttp 429 "server_error" "rate_limit"
  | Some DeadlineExceeded => mkHttp 504 "server_error" "timeout"
  | Some InvalidArgument => mkHttp 400 "invalid_request_error" "invalid_request"
  | Some Canceled => mkHttp 408 "server_error" "canceled"
  | Some _ => mkHttp 500 "server_error" "internal"
  end.

(** ** Lemmas *)

Lemma rank_standard `{Hash64} ch limit req cands :
  Filters ch = standard_filters limit ->
  match (Rank ch req cands).1.1 with
  | Ok out =>
      out <> [] /\ forall p, p ∈ out -> exists c, c ∈ cands /\ pr_WorkerID p = WorkerID c /\
        pr_Endpoint p = Endpoint c /\ suitable req c = true /\ admits limit c = true
  | Err e =>
      (e = ErrNoCapacity /\ List.filter (suitable req) cands = []) \/
      (e = ErrAdmissionRejected /\ List.filter (suitable req) cands <> [] /\
       List.filter (admits limit) (List.filter (suitable req) cands) = [])
  end.
Proof.
  intros Ef. rewrite Rank_unfold, Ef, runFilters_standard.
  destruct (List.filter (suitable req) cands) as [|c1 l1] eqn:Es; [by left|].
  destruct (List.filter (admits limit) (c1 :: l1)) as [|c2 l2] eqn:Ea; [by right|]. split.
  - intros E. apply (f_equal length) in E. rewrite length_fmap, sort_slice_perm in E.
    pose proof (rank_results_fst ch req (c2 :: l2)) as Hf. apply (f_equal length) in Hf.
    rewrite length_fmap in Hf. unfold scored in *. rewrite E in Hf. done.
  - intros p (x & -> & Hx)%list_elem_of_fmap. rewrite sort_slice_perm in Hx.
    assert (x.1 ∈ c2 :: l2) as Hin
      by (rewrite <- (rank_results_fst ch req (c2 :: l2)); apply list_elem_of_fmap; by exists x).
    exists x.1. rewrite <- Ea, <- Es in Hin. apply list_elem_of_In, filter_In in Hin as [Hin Had].
    apply filter_In in Hin as [Hin Hs]. split_and!; try done. by apply list_elem_of_In.
Qed.

(** The workers a catalog allows for a model. *)
Definition allowed_by (s : Selector) (model id : string) : Prop :=
  match Resolve (sel_catalog s) model with
  | Some (_, workers) => id ∈ workers
  | None => Empty (sel_catalog s) = true
  end.

(** The identity a request is routed by. *)
Definition routed_as `{UnicodeTables} (s : Selector) (model : string) : string * string :=
  match Resolve (sel_catalog s) model with
  | Some (id, _) => (mi_BaseModel id, mi_Adapter id)
  | None => ParseModelID model
  end.

Lemma Resolve_empty c model : Empty c = true -> Resolve c model = None.
Proof.
  destruct c as [c|]; [|done]. cbn. intros E%bool_decide_eq_true. by rewrite E, lookup_empty.
Qed.

Lemma resolveModel_spec `{UnicodeTables} s model :
  match resolveModel s model with
  | Ok (base, adapter, allowed) =>
      routed_as s model = (base, adapter) /\
      match allowed with
      | None => Empty (sel_catalog s) = true
      | Some a => forall id, id ∈ a <-> allowed_by s model id
      end
  | Err e => e = EWrap ErrModelNotFound model /\ Empty (sel_catalog s) = false /\
             Resolve (sel_catalog s) model = None
  end.
Proof.
  unfold resolveModel, routed_as, allowed_by. destruct (ParseModelID model) as [base adapter].
  destruct (Empty (sel_catalog s)) eqn:Ee.
  - by rewrite (Resolve_empty _ model Ee).
  - destruct (Resolve (sel_catalog s) model) as [[id workers]|]; [|done]. split; [done|].
    intros id'. apply elem_of_list_to_set.
Qed.

(** The candidates left by the catalog. *)
Definition allowed_candidates (all : list Candidate) (allowed : option (gset string)) : list Candidate :=
  match allowed with None => all | Some a => filterByWorkerIDs all a end.

Lemma allowed_candidates_spec s model all allowed :
  match allowed with
  | None => Empty (sel_catalog s) = true
  | Some a => forall id, id ∈ a <-> allowed_by s model id
  end ->
  forall c, c ∈ allowed_candidates all allowed <-> c ∈ all /\ allowed_by s model (WorkerID c).
Proof.
  intros Hal c. destruct allowed as [a|]; cbn.
  - unfold filterByWorkerIDs. rewrite list_elem_of_In, filter_In, <- list_elem_of_In, bool_decide_eq_true.
    by rewrite Hal.
  - unfold allowed_by. rewrite (Resolve_empty _ model Hal). tauto.
Qed.

Lemma filter_nil_iff {A} (f : A -> bool) l : List.filter f l = [] <-> forall x, x ∈ l -> f x = false.
Proof.
  split.
  - intros E x Hx. destruct (f x) eqn:Ef; [|done]. exfalso. apply (elem_of_nil x). rewrite <- E.
    apply list_elem_of_In, filter_In. split; [by apply list_elem_of_In|done].
  - intros Hf. destruct (List.filter f l) as [|x l'] eqn:E; [done|]. exfalso.
    assert (x ∈ List.filter f l) as Hx by (rewrite E; set_solver).
    apply list_elem_of_In, filter_In in Hx as [Hx Hfx]. rewrite Hf in Hfx; [done|]. by apply list_elem_of_In.
Qed.

Lemma take_limit_elem {A} (l : list A) limit x :
  x ∈ (if limit <? Z.of_nat (length l) then take (Z.to_nat limit) l else l) -> x ∈ l.
Proof.
  case_if; [|done]. rewrite <- (take_drop (Z.to_nat limit) l) at 2. intros Hx. apply elem_of_app. by left.
Qed.

Lemma take_limit_length {A} (l : list A) limit :
  0 < limit -> l <> [] ->
  let l' := if limit <? Z.of_nat (length l) then take (Z.to_nat limit) l else l in
  l' <> [] /\ Z.of_nat (length l') <= limit.
Proof.
  intros Hl Hne. cbn zeta. case_if; zbool; [|split; [done|lia]]. split.
  - intros E. apply (f_equal length) in E. rewrite length_take in E. cbn in E. destruct l; [done|]. cbn in *. lia.
  - rewrite length_take. lia.
Qed.

(** *** What a selection promises *)

(** The request the chain ranks for. *)
Definition routed_request `{UnicodeTables} (s : Selector) (model prompt : string) : Request :=
  mkRequest (routed_as s model).1 (routed_as s model).2 prompt "" "" 0.

(** A candidate that is healthy, ready, serves the model the request resolves
    to and, when there is a catalog, is assigned to it. *)
Definition eligible `{UnicodeTables} (s : Selector) (model prompt : string) (c : Candidate) : Prop :=
  suitable (Some (routed_request s model prompt)) c = true /\ allowed_by s model (WorkerID c).

(** On success between one and [limit] workers (three when the limit is not
    positive), each an eligible candidate of the snapshot below the admission
    limit; every failure is one of the five selection errors and says which
    condition failed. *)
Definition selection_sound `{UnicodeTables} (s : Selector) (admission : Z) (model prompt : string) (limit : Z)
    (r : result error (list SelectedWorker)) : Prop :=
  let cands snap := CandidatesFromSnapshot (Some snap) (sel_inflight s) (sel_latency s) in
  let ok := eligible s model prompt in
  match r with
  | Ok ws =>
      exists snap, sel_holder s = Some snap /\ ws <> [] /\
        Z.of_nat (length ws) <= (if limit <=? 0 then 3 else limit) /\
        forall w, w ∈ ws -> exists c, c ∈ cands snap /\ sw_ID w = WorkerID c /\ sw_Endpoint w = Endpoint c /\
          ok c /\ admits admission c = true
  | Err e =>
      (e = ErrNoSnapshot /\ sel_holder s = None) \/
      (e = EWrap ErrModelNotFound model /\ Empty (sel_catalog s) = false /\ Resolve (sel_catalog s) model = None) \/
      exists snap, sel_holder s = Some snap /\
        ((e = EWrap ErrNoLiveAssignee model /\ forall c, c ∈ cands snap -> ~ allowed_by s model (WorkerID c)) \/
         (e = EWrap ErrNoCapacity model /\ forall c, c ∈ cands snap -> ~ ok c) \/
         (e = EWrap ErrAdmissionRejected model /\ (exists c, c ∈ cands snap /\ ok c) /\
          forall c, c ∈ cands snap -> ok c -> admits admission c = false))
  end.

Lemma SelectWorkers_sound `{UnicodeTables} `{Hash64} s admission model prompt limit :
  Filters (sel_chain s) = standard_filters admission ->
  selection_sound s admission model prompt limit (SelectWorkers s model prompt limit).1.
Proof.
  intros Hch. unfold selection_sound, eligible, routed_request. cbn zeta. unfold SelectWorkers.
  destruct (sel_holder s) as [snap|]; [|by left]. pose proof (resolveModel_spec s model) as Hr.
  destruct (resolveModel s model) as [[[base adapter] allowed]|e]; [|right; left; exact Hr].
  destruct Hr as [Hroute Hal]. rewrite Hroute. cbn [fst snd].
  set (req := mkRequest base adapter prompt "" "" 0).
  set (all := CandidatesFromSnapshot (Some snap) (sel_inflight s) (sel_latency s)).
  change (match allowed with None => all | Some a => filterByWorkerIDs all a end) with (allowed_candidates all allowed).
  pose proof (allowed_candidates_spec s model all allowed Hal) as Hcs.
  set (cs := allowed_candidates all allowed) in *.
  destruct (bool_decide (allowed <> None) && bool_decide (cs = [])) eqn:Eb.
  - right. right. exists snap. split; [done|]. left. split; [done|].
    apply andb_true_iff in Eb as [_ Ecs%bool_decide_eq_true]. intros c Hc Ha.
    apply (elem_of_nil c). rewrite <- Ecs. by apply Hcs.
  - pose proof (rank_standard (sel_chain s) admission (Some req) cs Hch) as HR.
    destruct (Rank (sel_chain s) (Some req) cs) as [[[ranked|e] ch'] rq]; cbn [fst snd] in *.
    + destruct HR as [Hne Hin]. exists snap. split; [done|].
      assert (0 < (if limit <=? 0 then 3 else limit)) as Hlim by (case_if; zbool; lia).
      set (lim := if limit <=? 0 then 3 else limit) in *.
      destruct (take_limit_length ranked lim Hlim Hne) as [Hne' Hlen]. split_and!.
      * intros E. apply Hne'. by apply fmap_nil_inv in E.
      * by rewrite length_fmap.
      * intros w (p & -> & Hp)%list_elem_of_fmap. apply take_limit_elem in Hp.
        destruct (Hin p Hp) as (c & Hc%Hcs & ? & ? & ? & ?). exists c. naive_solver.
    + right. right. exists snap. split; [done|]. right. destruct HR as [[-> Hs]|(-> & Hs & Ha)].
      * left. split; [done|]. intros c Hc [Hsu Hal']. rewrite filter_nil_iff in Hs.
        rewrite Hs in Hsu; [done|]. by apply Hcs.
      * right. split; [done|]. rewrite filter_nil_iff in Ha.
        assert (forall c, c ∈ List.filter (suitable (Some req)) cs <-> c ∈ cs /\ suitable (Some req) c = true) as Hf
          by (intros c; by rewrite !list_elem_of_In, filter_In). split.
        -- destruct (List.filter (suitable (Some req)) cs) as [|c l]; [done|].
           destruct (proj1 (Hf c)) as [Hc%Hcs Hsu]; [set_solver|]. exists c. naive_solver.
        -- intros c Hc [Hsu Hal']. apply Ha, Hf. split; [by apply Hcs|done].
Qed.

(** ** Properties *)

(** C4: selecting workers for a model through a configured chain: on success
    between one and [limit] workers (three when the limit is not positive),
    each of them a candidate of the current snapshot that is healthy, ready,
    serves the model the request resolves to, is below the admission limit
    and, when there is a catalog, is assigned to the model; every failure is
    one of the five selection errors and says which condition failed. *)
Theorem select_workers_spec `{UnicodeTables} `{Hash64} s cfg model prompt limit :
  sel_chain s = NewConfiguredChain cfg ->
  selection_sound s (AdmissionLimit cfg) model prompt limit (SelectWorkers s model prompt limit).1.
Proof. intros E. apply SelectWorkers_sound. by rewrite E. Qed.

(** The base of a parsed id has no hash. *)
Lemma ParseModelID_base `{UnicodeTables} id : no_byte "#"%char (ParseModelID id).1.
Proof.
  unfold ParseModelID. destruct (String.eqb (TrimSpace id) ""); [done|].
  change (GoStrings.Index (TrimSpace id) "#") with (IndexByte (TrimSpace id) "#"%char).
  destruct (IndexByte (TrimSpace id) "#"%char) as [i|] eqn:E; cbn [fst].
  - by apply IndexByte_Some in E as [? _].
  - by apply IndexByte_None_inv.
Qed.

Lemma ParseModelID_pair `{UnicodeTables} base adapter :
  base <> "" -> no_byte "#"%char base -> TrimSpace (base ++ "#" ++ adapter) = base ++ "#" ++ adapter ->
  ParseModelID (base ++ "#" ++ adapter) = (base, adapter).
Proof.
  intros Hne Hb Ht. unfold ParseModelID. rewrite Ht.
  destruct (String.eqb_spec (base ++ "#" ++ adapter) "") as [E|]; [by destruct base|].
  change (GoStrings.Index (base ++ "#" ++ adapter) "#") with (IndexByte (base ++ String "#" adapter) "#"%char).
  rewrite IndexByte_app by done. change ("#" ++ adapter) with (String "#" adapter).
  rewrite str_take_app. f_equal. clear. by induction base as [|a base IH]; [destruct adapter|].
Qed.

(** Model ids round trip: the id [base#adapter] of a base without hash and
    free of surrounding white space parses back into its base and adapter, and
    the bare base into the base with no adapter; and whatever is parsed, the
    base never contains a hash. *)
Theorem parse_model_id_roundtrip `{UnicodeTables} base adapter id :
  base <> "" -> no_byte "#"%char base ->
  TrimSpace base = base -> TrimSpace (base ++ "#" ++ adapter) = base ++ "#" ++ adapter ->
  ParseModelID base = (base, "") /\ ParseModelID (base ++ "#" ++ adapter) = (base, adapter) /\
  no_byte "#"%char (ParseModelID id).1.
Proof.
  intros Hne Hb Ht1 Ht2. split_and!; [|by apply ParseModelID_pair|apply ParseModelID_base]. unfold ParseModelID. rewrite Ht1.
  destruct (String.eqb_spec base ""); [done|]. change (GoStrings.Index base "#") with (IndexByte base "#"%char).
  by rewrite IndexByte_None.
Qed.

Lemma parse_model_id_roundtrip_witness :
  @ParseModelID ascii_tables ("qwen3" ++ "#" ++ "lora") = ("qwen3", "lora").
Proof. by apply (@parse_model_id_roundtrip ascii_tables "qwen3" "lora" "x"). Defined.

(** A model the catalog resolves by an alias is routed by its identity but
    asked of the worker by the alias: the base model of the generated worker
    request is the parsed request name, not the base model the workers were
    selected for. *)
Theorem alias_sent_to_worker `{UnicodeTables} s model id workers prompt temperature topP maxTokens :
  Resolve (sel_catalog s) model = Some (id, workers) ->
  (ParseModelID model).1 <> mi_BaseModel id ->
  (routed_as s model).1 = mi_BaseModel id /\
  g_BaseModel (toWorkerRequest model prompt temperature topP maxTokens) <> (routed_as s model).1.
Proof.
  intros Hr Hne. unfold routed_as, toWorkerRequest. rewrite Hr. cbn [fst]. split; [done|].
  by destruct (ParseModelID model).
Qed.

Definition alias_selector : Selector :=
  mkSelector None (Some (mkCatalog {["fast" := mkIdentity "1" "fast" "qwen3" ""]} {["1" := ["w1"]]} 0)) None None DefaultChain.

Lemma alias_sent_to_worker_witness :
  g_BaseModel (@toWorkerRequest ascii_tables "fast" "hi" None None None) <> (@routed_as ascii_tables alias_selector "fast").1.
Proof.
  apply (@alias_sent_to_worker ascii_tables alias_selector "fast" (mkIdentity "1" "fast" "qwen3" "") ["w1"]).
  - vm_compute. reflexivity.
  - vm_compute. discriminate.
Defined.

(** *** A witness: one worker, no catalog *)

Definition demo_selector : Selector :=
  mkSelector (Some demo_snapshot) None None None DefaultChain.

Definition demo_config : ChainConfig :=
  mkConfig (flit 45 100) (flit 15 100) (flit 1 10) (flit 15 100) (flit 15 100)
    (f_of_Z 100) 4 1024 64 None None f_zero.

Lemma select_workers_spec_witness :
  exists ws, (@SelectWorkers ascii_tables sum_bytes demo_selector "m#a" "hi" 3).1 = Ok ws /\ ws <> [].
Proof.
  pose proof (@select_workers_spec ascii_tables sum_bytes demo_selector demo_config "m#a" "hi" 3 eq_refl) as Hs.
  unfold selection_sound in Hs.
  destruct ((@SelectWorkers ascii_tables sum_bytes demo_selector "m#a" "hi" 3).1) as [ws|e] eqn:E.
  - exists ws. split; [done|]. destruct Hs as (snap & _ & Hne & _). exact Hne.
  - exfalso. vm_compute in E. discriminate E.
Defined.
