(* ===== verification/SchedulerMetrics.v ===== *)
(** * What the scheduler records (chain.go, the filters, latency_store.go,
      snapshot_select.go)

    The metric calls of a selection, next to the operations of Candidates,
    Scorers, Chain and GatewaySelect that make them. *)

From S2P Require Import Prelude Float64 GoStrings SortSlice Json Errors Routing Rendezvous Candidates CacheRegistry Scorers Chain GatewaySelect Metrics.

Inductive sched_op : Type :=
| OpFiltered (reason : string)
| OpScore (workerID : string) (score : float64)
| OpDecision
| OpHit
| OpDispatched (workerID model : string).

Section Apply.
Context {V : Type -> Type} `{Prometheus V}.

Definition apply_sched_op (m : option (scheduler_Metrics V)) (o : sched_op) : go (option (scheduler_Metrics V)) :=
  match o with
  | OpFiltered reason => IncFiltered m reason
  | OpScore w x => SetScore m w x
  | OpDecision => Returns (IncRoutingDecision m)
  | OpHit => Returns (IncAffinityHit m)
  | OpDispatched w model => IncDispatched m w model
  end.

Fixpoint apply_sched_ops (m : option (scheduler_Metrics V)) (os : list sched_op) : go (option (scheduler_Metrics V)) :=
  match os with
  | [] => Returns m
  | o :: rest => let! m := apply_sched_op m o in apply_sched_ops m rest
  end.
End Apply.

(** ** The filters *)

(** Why a filter drops a candidate; the model filter counts nothing. *)
Definition health_reason (c : Candidate) : list string :=
  if negb (Healthy c) then ["unhealthy"] else if negb (Ready c) then ["draining"] else [].

Definition capability_reason (req : option Request) (c : Candidate) : list string :=
  match req with
  | None => []
  | Some r => if negb (satisfiesCapability r c) then ["capability"] else []
  end.

Definition admission_reason (limit : Z) (c : Candidate) : list string :=
  if limit <=? 0 then [] else if QueueDepth c <? limit then [] else ["at_capacity"].

Definition filter_reasons (f : Filter) (req : option Request) (in_ : list Candidate) : list string :=
  match f with
  | FHealth => concat (health_reason <$> in_)
  | FModel => []
  | FCapability => concat (capability_reason req <$> in_)
  | FAdmission limit => concat (admission_reason limit <$> in_)
  end.

(** The filter loop, which ends when nothing survives. *)
Fixpoint filters_reasons (fs : list Filter) (req : option Request) (surviving : list Candidate) : list string :=
  match fs with
  | [] => []
  | f :: rest =>
      (filter_reasons f req surviving ++
       match runFilter f req surviving with [] => [] | s => filters_reasons rest req s end)%list
  end.

(** ** Selections *)

Section Select.
Context `{Hash64}.

(** The calls on the first of a ranking, [req] being the request as [Rank]
    leaves it. *)
Definition pick_ops (req : option Request) (p : PickResult) : list sched_op :=
  ([OpScore (pr_WorkerID p) (pr_Score p); OpDecision] ++
   (match req with
    | Some r => if negb (String.eqb (q_PreferredWorker r) "") && String.eqb (pr_WorkerID p) (q_PreferredWorker r) then [OpHit] else []
    | None => []
    end))%list.

(** [PickWithMetrics]: the answer and the calls; [metrics] is nil or not. *)
Definition PickWithMetrics (ch : Chain) (req : option Request) (candidates : list Candidate) (metrics : bool)
    : go (result error PickResult) * list sched_op :=
  let filtered := OpFiltered <$> filters_reasons (Filters ch) req candidates in
  match Rank ch req candidates with
  | (Err e, _, _) => (Returns (Err e), filtered)
  | (Ok [], _, _) => (Panics, filtered)
  | (Ok (p :: _), _, req') => (Returns (Ok p), (filtered ++ if metrics then pick_ops req' p else [])%list)
  end.

(** [SelectWorkers]: the calls it makes, directly and through the filters of
    its chain. *)
Definition selection_ops `{UnicodeTables} (s : Selector) (model prompt : string) : list sched_op :=
  match sel_holder s with
  | None => []
  | Some snap =>
      match resolveModel s model with
      | Err _ => []
      | Ok (base, adapter, allowed) =>
          let req := mkRequest base adapter prompt "" "" 0 in
          let candidates := CandidatesFromSnapshot (Some snap) (sel_inflight s) (sel_latency s) in
          let candidates := match allowed with
                            | None => candidates
                            | Some a => filterByWorkerIDs candidates a
                            end in
          if bool_decide (allowed <> None) && bool_decide (candidates = []) then []
          else
            let filtered := OpFiltered <$> filters_reasons (Filters (sel_chain s)) (Some req) candidates in
            let '(ranked, _, req') := Rank (sel_chain s) (Some req) candidates in
            match ranked with
            | Ok (p :: _) => (filtered ++ pick_ops req' p ++ [OpDispatched (pr_WorkerID p) model])%list
            | _ => filtered
            end
      end
  end.
End Select.

(** ** Lemmas: the filters *)

Lemma filter_reasons_length f req cands : f <> FModel ->
  length cands = (length (runFilter f req cands) + length (filter_reasons f req cands))%nat.
Proof.
  intros Hf. destruct f as [| | |limit]; cbn [runFilter filter_reasons]; [|done| |].
  - unfold HealthFilter. induction cands as [|c cs IH]; [done|]. rewrite fmap_cons. cbn [List.filter length concat].
    unfold health_reason at 1. destruct (Healthy c), (Ready c); cbn [andb negb app length]; lia.
  - unfold CapabilityFilter. destruct req as [r|].
    + induction cands as [|c cs IH]; [done|]. rewrite fmap_cons. cbn [List.filter length concat].
      unfold capability_reason at 1. destruct (satisfiesCapability r c); cbn [negb app length]; lia.
    + induction cands as [|c cs IH]; [done|]. rewrite fmap_cons. cbn [length concat capability_reason app] in *. lia.
  - unfold AdmissionFilter. destruct (limit <=? 0) eqn:El.
    + induction cands as [|c cs IH]; [done|]. rewrite fmap_cons. cbn [length concat]. unfold admission_reason at 1. rewrite El. cbn [app]. lia.
    + induction cands as [|c cs IH]; [done|]. rewrite fmap_cons. cbn [List.filter length concat]. unfold admission_reason at 1. rewrite El.
      destruct (QueueDepth c <? limit); cbn [app length]; lia.
Qed.

#[export] Instance Filter_eq_dec : EqDecision Filter.
Proof. solve_decision. Defined.

(** The candidates the model filters of a chain drop. *)
Fixpoint unserved (fs : list Filter) (req : option Request) (surviving : list Candidate) : nat :=
  match fs with
  | [] => 0
  | f :: rest =>
      ((if bool_decide (f = FModel) then length surviving - length (runFilter f req surviving) else 0) +
       match runFilter f req surviving with [] => 0 | s => unserved rest req s end)%nat
  end.

Lemma runFilter_shorter req cands : (length (runFilter FModel req cands) <= length cands)%nat.
Proof. cbn. unfold ModelFilter. destruct req as [r|]; [|cbn; lia]. case_if; [cbn; lia|apply List.filter_length_le]. Qed.

(** Every candidate a chain is given survives, is counted with the reason it
    was dropped for, or does not serve the model. *)
Lemma filters_accounted fs req : forall cands,
  length cands = (match runFilters fs req cands with Ok s => length s | Err _ => 0 end +
                  length (filters_reasons fs req cands) + unserved fs req cands)%nat.
Proof.
  induction fs as [|f fs IH]; intros cands; cbn [runFilters filters_reasons unserved]; [cbn; lia|].
  rewrite length_app. destruct (decide (f = FModel)) as [->|Hf].
  - rewrite bool_decide_eq_true_2 by done. pose proof (runFilter_shorter req cands) as Hs. cbn [filter_reasons length].
    destruct (runFilter FModel req cands) as [|c cs]; [cbn in *; lia|]. specialize (IH (c :: cs)). lia.
  - rewrite bool_decide_eq_false_2 by done. pose proof (filter_reasons_length f req cands Hf) as Hl.
    destruct (runFilter f req cands) as [|c cs]; [cbn in *; lia|]. specialize (IH (c :: cs)). lia.
Qed.

(** ** Lemmas: counting *)

Definition dispatched_key (o : sched_op) : option (list string) :=
  match o with OpDispatched w model => Some [w; model] | _ => None end.
Definition filtered_key (o : sched_op) : option (list string) := match o with OpFiltered reason => Some [reason] | _ => None end.
Definition is_decision (o : sched_op) : bool := match o with OpDecision => true | _ => false end.
Definition is_hit (o : sched_op) : bool := match o with OpHit => true | _ => false end.

Definition utf8_op (o : sched_op) : Prop :=
  match o with
  | OpFiltered reason => valid_utf8 reason
  | OpScore w _ => valid_utf8 w
  | OpDispatched w model => valid_utf8 w /\ valid_utf8 model
  | _ => True
  end.

Section Counting.
Context {V : Type -> Type} `{Prometheus V}.

Record scheduled_by (os : list sched_op) (m : scheduler_Metrics V) : Prop := {
  sb_labels : vec_Labels (sm_dispatched m) = 2%nat /\ vec_Labels (sm_filtered m) = 1%nat /\ vec_Labels (sm_score m) = 1%nat;
  sb_dispatched : forall ls, counter_at (sm_dispatched m) ls = count (fun o => bool_decide (dispatched_key o = Some ls)) os;
  sb_filtered : forall ls, counter_at (sm_filtered m) ls = count (fun o => bool_decide (filtered_key o = Some ls)) os;
  sb_decisions : sm_decisions m = count is_decision os;
  sb_hits : sm_affinityHit m = count is_hit os
}.

Ltac other_key := rewrite (bool_decide_eq_false_2 (None = Some _)) by done; cbn [b2z]; lia.

Lemma op_schedules os m o : scheduled_by os m -> utf8_op o -> Z.of_nat (length os) < two64 - 1 ->
  exists m', apply_sched_op (Some m) o = Returns (Some m') /\ scheduled_by (os ++ [o])%list m'.
Proof.
  intros [(L1 & L2 & L3) Hd Hf Hdec Hh] Hu Hlen.
  assert (forall f, 0 <= count f os < two64 - 1) as Hr by (intros f; pose proof (count_nonneg f os); pose proof (count_le_length f os); lia).
  destruct o as [reason|w x| | |w model]; cbn [apply_sched_op utf8_op] in *.
  - destruct (counter_Inc_at (sm_filtered m) [reason]) as (v & E & L & G); [rewrite L2; by split; [|apply list.Forall_singleton]|rewrite Hf; apply Hr|].
    unfold IncFiltered. rewrite E. eexists. split; [reflexivity|].
    split; cbn [sm_dispatched sm_filtered sm_score sm_decisions sm_affinityHit]; [by rewrite L|..];
      try (intros ls); rewrite count_snoc; cbn [dispatched_key filtered_key is_decision is_hit b2z]; rewrite ?Hd, ?Hdec, ?Hh; try lia; [other_key|].
    rewrite G, Hf. do 2 f_equal. apply bool_decide_ext. naive_solver.
  - destruct (With_returns float64 (sm_score m) [w] (fun _ => x)) as (v & E & L & G); [rewrite L3; by split; [|apply list.Forall_singleton]|].
    unfold SetScore, gauge_Set. rewrite E. eexists. split; [reflexivity|].
    split; cbn [sm_dispatched sm_filtered sm_score sm_decisions sm_affinityHit]; [by rewrite L|..];
      try (intros ls); rewrite count_snoc; cbn [dispatched_key filtered_key is_decision is_hit b2z]; rewrite ?Hd, ?Hf, ?Hdec, ?Hh; try lia; other_key.
  - eexists. split; [reflexivity|].
    split; cbn [sm_dispatched sm_filtered sm_score sm_decisions sm_affinityHit]; [done|..];
      try (intros ls); rewrite count_snoc; cbn [dispatched_key filtered_key is_decision is_hit b2z]; rewrite ?Hd, ?Hf, ?Hdec, ?Hh; try lia; try other_key.
    specialize (Hr is_decision). unfold wrap_u64. rewrite Z.mod_small; lia.
  - eexists. split; [reflexivity|].
    split; cbn [sm_dispatched sm_filtered sm_score sm_decisions sm_affinityHit]; [done|..];
      try (intros ls); rewrite count_snoc; cbn [dispatched_key filtered_key is_decision is_hit b2z]; rewrite ?Hd, ?Hf, ?Hdec, ?Hh; try lia; try other_key.
    specialize (Hr is_hit). unfold wrap_u64. rewrite Z.mod_small; lia.
  - destruct (counter_Inc_at (sm_dispatched m) [w; model]) as (v & E & L & G);
      [rewrite L1; split; [done|]; apply list.Forall_cons; split; [apply Hu|apply list.Forall_singleton, Hu]|rewrite Hd; apply Hr|].
    unfold IncDispatched. rewrite E. eexists. split; [reflexivity|].
    split; cbn [sm_dispatched sm_filtered sm_score sm_decisions sm_affinityHit]; [by rewrite L|..];
      try (intros ls); rewrite count_snoc; cbn [dispatched_key filtered_key is_decision is_hit b2z]; rewrite ?Hf, ?Hdec, ?Hh; try lia; [|other_key].
    rewrite G, Hd. do 2 f_equal. apply bool_decide_ext. naive_solver.
Qed.

Lemma ops_schedule os : forall before m,
  scheduled_by before m -> Forall utf8_op os -> Z.of_nat (length before + length os) < two64 ->
  exists m', apply_sched_ops (Some m) os = Returns (Some m') /\ scheduled_by (before ++ os)%list m'.
Proof.
  induction os as [|o os IH]; intros before m Hm Hu Hlen; [exists m; by rewrite app_nil_r|].
  apply list.Forall_cons in Hu as [Ho Hu]. cbn [length] in Hlen.
  destruct (op_schedules before m o Hm Ho) as (m1 & E1 & H1); [lia|]. cbn [apply_sched_ops]. rewrite E1.
  destruct (IH (before ++ [o])%list m1 H1 Hu) as (m2 & E2 & H2); [rewrite length_app; cbn; lia|].
  exists m2. split; [exact E2|]. by rewrite <- app_assoc in H2.
Qed.
End Counting.

(** ** Selections *)

Record selection := mkSelection { sl_selector : Selector; sl_model : string; sl_prompt : string; sl_limit : Z }.

Lemma filter_reasons_utf8 f req cands : Forall valid_utf8 (filter_reasons f req cands).
Proof.
  assert (forall g : Candidate -> list string, (forall c, g c ⊆ ["unhealthy"; "draining"; "capability"; "at_capacity"]) ->
    Forall valid_utf8 (concat (g <$> cands))) as Hg.
  { intros g Hs. apply list.Forall_forall. intros x Hx. apply list_elem_of_In, in_concat in Hx as (l & Hl & Hx).
    apply list_elem_of_In, list_elem_of_fmap in Hl as (c & -> & _). apply list_elem_of_In, Hs in Hx.
    rewrite !elem_of_cons, elem_of_nil in Hx. apply (bool_decide_unpack _).
    repeat (destruct Hx as [->|Hx]; [vm_compute; exact I|]). done. }
  destruct f as [| | |limit]; cbn [filter_reasons]; [apply Hg|constructor|apply Hg|apply Hg]; intros c.
  - unfold health_reason. case_ifs; set_solver.
  - unfold capability_reason. destruct req; case_ifs; set_solver.
  - unfold admission_reason. case_ifs; set_solver.
Qed.

Lemma filters_reasons_utf8 fs req : forall cands, Forall valid_utf8 (filters_reasons fs req cands).
Proof.
  induction fs as [|f fs IH]; intros cands; cbn [filters_reasons]; [constructor|].
  apply Forall_app. split; [apply filter_reasons_utf8|]. destruct (runFilter f req cands); [constructor|apply IH].
Qed.

Lemma filtered_counts reasons :
  count is_decision (OpFiltered <$> reasons) = 0 /\ count is_hit (OpFiltered <$> reasons) = 0 /\
  (forall ls, count (fun o => bool_decide (dispatched_key o = Some ls)) (OpFiltered <$> reasons) = 0) /\
  (Forall valid_utf8 reasons -> Forall utf8_op (OpFiltered <$> reasons)).
Proof.
  induction reasons as [|r rs (H1 & H2 & H3 & H4)]; [by repeat split|]. rewrite fmap_cons. rewrite !count_cons, H1, H2. split_and!; [done|done| |].
  - intros ls. by rewrite count_cons, H3, bool_decide_eq_false_2.
  - intros [Hr Hrs]%list.Forall_cons. constructor; [done|]. by apply H4.
Qed.

Section Accounting.
Context `{UnicodeTables} `{Hash64}.

Definition sel_ops (sl : selection) : list sched_op := selection_ops (sl_selector sl) (sl_model sl) (sl_prompt sl).

(** The worker a selection answers first. *)
Definition chosen (sl : selection) : option string :=
  match (SelectWorkers (sl_selector sl) (sl_model sl) (sl_prompt sl) (sl_limit sl)).1 with
  | Ok (w :: _) => Some (sw_ID w)
  | _ => None
  end.

(** The calls of a selection, by its answer. *)
Lemma sel_ops_shape sl :
  exists reasons, Forall valid_utf8 reasons /\
    match chosen sl with
    | None => sel_ops sl = OpFiltered <$> reasons
    | Some w => exists x hit, hit ⊆ [OpHit] /\ (length hit <= 1)%nat /\
        sel_ops sl = ((OpFiltered <$> reasons) ++ [OpScore w x; OpDecision] ++ hit ++ [OpDispatched w (sl_model sl)])%list
    end.
Proof.
  destruct sl as [s model prompt limit]. unfold chosen, sel_ops, selection_ops, SelectWorkers. cbn [sl_selector sl_model sl_prompt sl_limit].
  destruct (sel_holder s) as [snap|]; [|by exists []]. destruct (resolveModel s model) as [[[base adapter] allowed]|e]; [|by exists []].
  cbn zeta. set (cands := match allowed with None => _ | Some _ => _ end).
  destruct (bool_decide (allowed <> None) && bool_decide (cands = [])); [by exists []|].
  exists (filters_reasons (Filters (sel_chain s)) (Some (mkRequest base adapter prompt "" "" 0)) cands).
  split; [apply filters_reasons_utf8|].
  destruct (Rank (sel_chain s) (Some (mkRequest base adapter prompt "" "" 0)) cands) as [[[ranked|e] ch] req']; [|done].
  set (l := if limit <=? 0 then 3 else limit). assert (0 < l) as Hl by (unfold l; case_if; zbool; lia).
  destruct ranked as [|p ps]; [by destruct (l <? _); rewrite ?take_nil|]. cbn [fst].
  assert (exists rest, (if l <? Z.of_nat (length (p :: ps)) then take (Z.to_nat l) (p :: ps) else p :: ps) = p :: rest) as [rest ->].
  { case_if; [|by eexists]. destruct (Z.to_nat l) eqn:E; [lia|]. cbn. by eexists. }
  rewrite fmap_cons. cbn [sw_ID]. exists (pr_Score p). unfold pick_ops. rewrite <- !app_assoc.
  destruct req' as [r|]; [case_if|]; [exists [OpHit]|exists []|exists []]; (split; [set_solver|]); (split; [cbn; lia|done]).
Qed.

Lemma sel_ops_counts sl :
  valid_utf8 (sl_model sl) -> (forall w, chosen sl = Some w -> valid_utf8 w) ->
  Forall utf8_op (sel_ops sl) /\
  count is_decision (sel_ops sl) = b2z (bool_decide (chosen sl <> None)) /\ count is_hit (sel_ops sl) <= count is_decision (sel_ops sl) /\
  forall w model, count (fun o => bool_decide (dispatched_key o = Some [w; model])) (sel_ops sl) =
    b2z (bool_decide (chosen sl = Some w /\ sl_model sl = model)).
Proof.
  intros Hum Huw.
  destruct (sel_ops_shape sl) as (reasons & Hr & Hs). destruct (filtered_counts reasons) as (F1 & F2 & F3 & F4).
  destruct (chosen sl) as [w0|].
  - destruct Hs as (x & hit & Hhit & Hlh & ->). specialize (Huw w0 eq_refl).
    assert (hit = [] \/ hit = [OpHit]) as Hcases.
    { destruct hit as [|h [|h' hs]]; [by left| |cbn in Hlh; lia]. right. f_equal. specialize (Hhit h). set_solver. }
    rewrite !count_app, F1, F2. split_and!.
    + apply Forall_app. split; [by apply F4|]. destruct Hcases as [->| ->]; cbn [app]; by repeat (apply list.Forall_cons; split).
    + by destruct Hcases as [->| ->].
    + destruct Hcases as [->| ->]; vm_compute; discriminate.
    + intros w model. rewrite count_app, F3.
      assert (count (fun o => bool_decide (dispatched_key o = Some [w; model])) [OpScore w0 x; OpDecision] = 0) as Hz
        by (rewrite !count_cons; by rewrite !bool_decide_eq_false_2 by done).
      rewrite !count_app, Hz, count_cons. change (count _ []) with 0.
      assert (count (fun o => bool_decide (dispatched_key o = Some [w; model])) hit = 0) as ->
        by (destruct Hcases as [->| ->]; [done|]; rewrite count_cons; by rewrite bool_decide_eq_false_2 by done).
      cbn [dispatched_key]. rewrite Z.add_0_r, !Z.add_0_l. f_equal. apply bool_decide_ext. naive_solver.
  - rewrite Hs, F1, F2. split_and!; [by apply F4|done|done|]. intros w model. rewrite F3, bool_decide_eq_false_2; [done|]. by intros [? _].
Qed.

(** C12: the scheduler's counters account for its decisions: after any number
    of selections, whatever they select from and in whatever order their
    concurrent calls are made, no call panics, the decisions counted are the
    selections that answered a worker, the affinity hits are at most the
    decisions, and a worker's dispatches for a model are the selections for
    that model that ranked the worker first. *)
Theorem selections_accounted_for {V : Type -> Type} `{Prometheus V} {R} `{Registrar R} (reg reg' : R) m (sls : list selection) os :
  scheduler_NewMetrics reg = Returns (m, reg') ->
  os ≡ₚ concat (sel_ops <$> sls) -> Z.of_nat (length os) < two64 ->
  Forall (fun sl => valid_utf8 (sl_model sl) /\ forall w, chosen sl = Some w -> valid_utf8 w) sls ->
  exists m', apply_sched_ops (Some m) os = Returns (Some m') /\
    sm_decisions m' = count (fun sl => bool_decide (chosen sl <> None)) sls /\
    sm_affinityHit m' <= sm_decisions m' /\
    forall w model, counter_at (sm_dispatched m') [w; model] =
      count (fun sl => bool_decide (chosen sl = Some w /\ sl_model sl = model)) sls.
Proof.
  unfold scheduler_NewMetrics. intros Hm Hp Hlen Hu. destruct (register_all reg scheduler_names); [|done]. injection Hm as <- _.
  pose proof (fun sl Hin => sel_ops_counts sl (proj1 (proj1 (list.Forall_forall _ _) Hu sl Hin)) (proj2 (proj1 (list.Forall_forall _ _) Hu sl Hin))) as Hsel.
  destruct (ops_schedule (V := V) os [] (mkSchedulerMetrics (vec_New 2) (vec_New 1) (vec_New 1) (vec_New 1) 0 0)) as (m' & E & [_ Hd _ Hdec Hh]).
  - split; cbn; [by rewrite !New_Labels|..]; try intros ls; unfold counter_at; by rewrite ?New_Get.
  - rewrite Hp. apply list.Forall_forall. intros o Ho. apply list_elem_of_In, in_concat in Ho as (l & Hl & Ho).
    apply list_elem_of_In, list_elem_of_fmap in Hl as (sl & -> & Hin). destruct (Hsel sl Hin) as [Hall _].
    rewrite list.Forall_forall in Hall. apply Hall. by apply list_elem_of_In.
  - exact Hlen.
  - exists m'. split; [exact E|]. rewrite app_nil_l in *.
    assert (forall f g, (forall sl, sl ∈ sls -> count f (sel_ops sl) = b2z (g sl)) -> count f os = count g sls) as Hcount.
    { intros f g Hfg. rewrite (count_perm _ _ _ Hp), count_concat, <- list_fmap_compose, <- sum_count. f_equal.
      apply list_fmap_ext. intros i sl Hi. apply Hfg. by eapply list_elem_of_lookup_2. }
    rewrite Hdec, Hh. split_and!.
    + apply Hcount. intros sl Hin. apply (Hsel sl Hin).
    + rewrite !(count_perm _ _ _ Hp), !count_concat, <- !list_fmap_compose. clear -Hsel. induction sls as [|sl sls IH]; [done|].
      rewrite !fmap_cons, !sum_Z_cons. destruct (Hsel sl ltac:(by left)) as (_ & _ & Hle & _). cbn.
      assert (forall sl', sl' ∈ sls -> sl' ∈ sl :: sls) as Hsub by (intros; by right).
      specialize (IH (fun sl' Hin => Hsel sl' (Hsub sl' Hin))). cbn in IH. lia.
    + intros w model. rewrite Hd. apply Hcount. intros sl Hin. apply (Hsel sl Hin).
Qed.
End Accounting.

(** ** The latency gauge *)

Section EWMAGauge.
Context {V : Type -> Type} `{Prometheus V} `{GoMath}.

(** [LatencyStore.Observe] with its gauge. *)
Definition ObserveWithMetrics (s : LatencyStore) (m : option (scheduler_Metrics V)) (workerID : string) (sampleMs : float64) (now : Z)
    : go (LatencyStore * option (scheduler_Metrics V)) :=
  if String.eqb workerID "" || fltb sampleMs f_zero then Returns (s, m)
  else
    let s := Observe s workerID sampleMs now in
    match m with
    | None => Returns (s, None)
    | Some _ => let! m := SetEWMA m workerID (LatencyGet s workerID) in Returns (s, m)
    end.

(** The samples of a store, in their order. *)
Fixpoint observe_samples (s : LatencyStore) (m : option (scheduler_Metrics V)) (samples : list (string * float64 * Z))
    : go (LatencyStore * option (scheduler_Metrics V)) :=
  match samples with
  | [] => Returns (s, m)
  | (w, x, now) :: rest => let! (s, m) := ObserveWithMetrics s m w x now in observe_samples s m rest
  end.

(** The gauge of a store: a series with the average of every worker that has
    one, and no other. *)
Definition gauge_tracks (s : LatencyStore) (m : scheduler_Metrics V) : Prop :=
  vec_Labels (sm_ewma m) = 1%nat /\ forall w, vec_Get (sm_ewma m) [w] = value <$> averages s !! w.

Lemma observe_tracks s m w x now : gauge_tracks s m -> valid_utf8 w ->
  exists m', ObserveWithMetrics s (Some m) w x now = Returns (Observe s w x now, Some m') /\ gauge_tracks (Observe s w x now) m'.
Proof.
  intros [L G] Hw. unfold ObserveWithMetrics, Observe. destruct (String.eqb w "" || fltb x f_zero) eqn:E; [by exists m|].
  set (s' := mkStore _ _). destruct (With_returns float64 (sm_ewma m) [w] (fun _ => LatencyGet s' w)) as (v & Ev & Lv & Gv).
  { rewrite L. split; [done|]. by apply list.Forall_singleton. }
  unfold SetEWMA, gauge_Set. rewrite Ev. eexists. split; [reflexivity|]. split; cbn; [congruence|].
  intros w'. rewrite Gv. destruct (decide ([w] = [w'])) as [[= <-]|Hne].
  - unfold LatencyGet. cbn [s' averages]. by rewrite !lookup_insert_eq.
  - rewrite lookup_insert_ne by congruence. apply G.
Qed.

(** The gauge of the average latencies follows the store: after any samples,
    of workers with UTF-8 ids, no call has panicked and the gauge has, for the
    workers that were sampled and for no others, the average the scheduler
    reads. *)
Theorem ewma_gauge_tracks_store {R} `{Registrar R} (reg reg' : R) m tau samples :
  scheduler_NewMetrics reg = Returns (m, reg') -> Forall (fun x => valid_utf8 x.1.1) samples ->
  exists s m', observe_samples (NewLatencyStore tau) (Some m) samples = Returns (s, Some m') /\
    (forall w x, vec_Get (sm_ewma m') [w] = Some x -> LatencyGet s w = x) /\
    (forall w, vec_Get (sm_ewma m') [w] = None -> LatencyGet s w = f_zero).
Proof.
  unfold scheduler_NewMetrics. intros Hm Hu. destruct (register_all reg scheduler_names); [|done]. injection Hm as <- _.
  assert (forall s m0, gauge_tracks s m0 -> exists s' m', observe_samples s (Some m0) samples = Returns (s', Some m') /\ gauge_tracks s' m') as Hall.
  { clear reg'. induction samples as [|[[w x] now] rest IH]; intros s m0 Ht; [by exists s, m0|]. apply list.Forall_cons in Hu as [Hw Hu].
    cbn [observe_samples]. destruct (observe_tracks s m0 w x now Ht Hw) as (m1 & -> & Ht1). by apply IH. }
  destruct (Hall (NewLatencyStore tau) (mkSchedulerMetrics (vec_New 2) (vec_New 1) (vec_New 1) (vec_New 1) 0 0)) as (s & m' & E & L & G).
  { split; [apply New_Labels|]. intros w. cbn. by rewrite New_Get, lookup_empty. }
  exists s, m'. split; [exact E|]. unfold LatencyGet. split; intros w; rewrite G; destruct (averages s !! w); cbn; naive_solver.
Qed.
End EWMAGauge.

(** *** Witnesses *)

Definition two_selections : list selection := [mkSelection demo_selector "m#a" "hi" 3; mkSelection demo_selector "absent" "hi" 3].

Definition fresh_scheduler : scheduler_Metrics series := mkSchedulerMetrics (vec_New 2) (vec_New 1) (vec_New 1) (vec_New 1) 0 0.

Lemma selections_accounted_for_witness :
  exists m', apply_sched_ops (Some fresh_scheduler) (concat (@sel_ops ascii_tables sum_bytes <$> two_selections)) = Returns (Some m') /\
    sm_decisions m' = 1.
Proof.
  destruct (@selections_accounted_for ascii_tables sum_bytes series map_vectors (list string) list_registry [] (reverse scheduler_names)
    fresh_scheduler two_selections (concat (@sel_ops ascii_tables sum_bytes <$> two_selections))) as (m' & E & Hd & _).
  - vm_compute. reflexivity.
  - reflexivity.
  - vm_compute. reflexivity.
  - apply list.Forall_forall. intros sl Hin. unfold two_selections in Hin. rewrite !elem_of_cons, elem_of_nil in Hin.
    destruct Hin as [->|[->|[]]]; (split; [apply (bool_decide_unpack _); vm_compute; exact I|]); intros w Hw; vm_compute in Hw;
      try discriminate; injection Hw as <-; apply (bool_decide_unpack _); vm_compute; exact I.
  - exists m'. split; [exact E|]. rewrite Hd. vm_compute. reflexivity.
Defined.
