(* ===== verification/GatewayAuth.v ===== *)
(** * API keys and client limits
      (services/gateway/apikey.go, services/gateway/middleware.go)

    The key store, filled from the environment and from the database, the
    extraction of the key from a request, the per-client concurrency limiter
    (at the grain of its atomic accesses) and the admission part of the
    middleware. *)

From Stdlib Require Import Ascii.
From S2P Require Import Prelude GoStrings Sha256 Errors.

(** ** The key store *)

Definition HashAPIKey (raw : string) : string := EncodeToString (Sum256 raw).

Record ClientIdentity := mkClient { ClientID : string; MaxConcurrent : Z; KeyID : string }.

#[export] Instance ClientIdentity_eq_dec : EqDecision ClientIdentity.
Proof. solve_decision. Defined.

Record APIKey := mkKey { k_ID : string; k_KeyHash : string; k_ClientID : string; k_MaxConcurrent : Z; k_Enabled : bool }.

Abbreviation KeyStore := (gmap string ClientIdentity).

Definition NewKeyStore : KeyStore := ∅.

(** [strings.Split(s, c)] for a one-byte separator. *)
Fixpoint Split (s : string) (c : ascii) : list string :=
  match s with
  | "" => [""]
  | String a s' =>
      if Ascii.eqb a c then "" :: Split s' c
      else match Split s' c with
           | [] => [String a ""]
           | p :: rest => String a p :: rest
           end
  end.

(** [fmtSscanf]: the value scanned, and the target after it. *)
Fixpoint scan_digits (v : Z) (s : string) : Z :=
  match s with
  | "" => v
  | String a s' =>
      let d := Z.of_N (N_of_ascii a) - 48 in
      if (d <? 0) || (9 <? d) then v else scan_digits (wrap_i64 (wrap_i64 (v * 10) + d)) s'
  end.

Definition fmtSscanf (s : string) (n : Z) : Z :=
  let v := scan_digits 0 s in if 0 <? v then v else n.

Section KeyStore.
Context `{UnicodeTables}.

(** One comma-separated part: the key, client and limit, or nothing. *)
Definition parse_part (part : string) : option (string * string * Z) :=
  let part := TrimSpace part in
  if String.eqb part "" then None
  else
    let '(key, client, maxC) :=
      match IndexByte part ":"%char with
      | None => (part, "client", 32)
      | Some i =>
          let rest := str_drop (S i) part in
          match IndexByte rest ":"%char with
          | Some j => (str_take i part, str_take j rest, fmtSscanf (str_drop (S j) rest) 32)
          | None => (str_take i part, rest, 32)
          end
      end in
    if String.eqb key "" then None
    else Some (key, client, if maxC <=? 0 then 32 else maxC).

Definition add_part (s : KeyStore) (part : string) : KeyStore :=
  match parse_part part with
  | None => s
  | Some (key, client, maxC) => <[HashAPIKey key := mkClient client maxC ("env-" ++ client)]> s
  end.

Definition LoadFromEnv (s : KeyStore) (csv single : string) : KeyStore :=
  let s := if negb (String.eqb single "")
           then <[HashAPIKey single := mkClient "default" 32 "env-default"]> s else s in
  foldl add_part s (Split csv ","%char).

(** [Reload]: [rows] is the answer of the query for enabled keys; [None]
    stands for a store without a database. *)
Definition add_row (s : KeyStore) (r : APIKey) : KeyStore :=
  <[k_KeyHash r := mkClient (k_ClientID r) (if k_MaxConcurrent r <=? 0 then 32 else k_MaxConcurrent r) (k_ID r)]> s.

Definition Reload (s : KeyStore) (rows : option (result error (list APIKey))) : option error * KeyStore :=
  match rows with
  | None => (None, s)
  | Some (Err e) => (Some e, s)
  | Some (Ok rs) =>
      let next := filter (fun kv => HasPrefix (KeyID kv.2) "env-" = true) s in
      (None, foldl add_row next rs)
  end.

(** [Upsert]: the row it saves, and the store after it; [saved] is the outcome
    of the write ([None] without a database), [rows] the answer of the reload
    that follows. *)
Definition key_row (id rawKey clientID : string) (maxConcurrent : Z) : APIKey :=
  mkKey id (HashAPIKey rawKey) clientID (if maxConcurrent <=? 0 then 32 else maxConcurrent) true.

Definition UpsertKey (s : KeyStore) (saved : option (result error unit)) (rows : result error (list APIKey))
    : option error * KeyStore :=
  match saved with
  | None => (Some (ENew "invalid data"), s)
  | Some (Err e) => (Some e, s)
  | Some (Ok _) => Reload s (Some rows)
  end.

Definition Required (s : KeyStore) : bool := negb (bool_decide (s = ∅)).

Definition Lookup (s : KeyStore) (rawKey : string) : option ClientIdentity :=
  if String.eqb rawKey "" then None else s !! HashAPIKey rawKey.
End KeyStore.

(** ** The key of a request *)

Record HttpRequest := mkHttpRequest { path : string; Authorization : string; XAPIKey : string }.

Definition extractAPIKey (r : HttpRequest) : string :=
  let auth := Authorization r in
  if (7 <? str_len auth) &&
     (String.eqb (str_take 7 auth) "Bearer " || String.eqb (str_take 7 auth) "bearer ")
  then str_drop 7 auth
  else if negb (String.eqb (XAPIKey r) "") then XAPIKey r else "".

(** ** The limiter *)

(** A goroutine inside [Acquire] or holding the function it returned. *)
Inductive lpc : Type :=
| LIdle
| LLoad (client : string) (max : Z)
| LSwap (client : string) (max cur : Z)
| LRefused (client : string)
| LHeld (client : string)
| LReleased (client : string).

Definition maxDefault : Z := 32.

Abbreviation lcounters := (gmap string Z).

Definition lget (t : lcounters) (c : string) : Z := default 0 (t !! c).

(** [Acquire] up to the loop: the counter is created under the mutex. *)
Definition acquire (t : lcounters) (client : string) (max : Z) : lcounters * lpc :=
  (match t !! client with Some _ => t | None => <[client := 0]> t end,
   LLoad client (if max <=? 0 then maxDefault else max)).

(** One atomic access: the load, the compare-and-swap, and the
    [AddInt64(ctr, -1)] of the release. *)
Definition lact (t : lcounters) (p : lpc) : lcounters * lpc :=
  match p with
  | LLoad c max => let cur := lget t c in
                   if max <=? cur then (t, LRefused c) else (t, LSwap c max cur)
  | LSwap c max cur => if lget t c =? cur then (<[c := wrap_i64 (cur + 1)]> t, LHeld c) else (t, LLoad c max)
  | LHeld c => (<[c := wrap_i64 (lget t c - 1)]> t, LReleased c)
  | _ => (t, p)
  end.

(** A step of the system: a goroutine starts a request of a client, or goes on. *)
Inductive laction : Type := LCall (client : string) (max : Z) | LGo.

Record lconfig := mkL { lctr : lcounters; lthreads : list lpc }.

Definition lstep (c : lconfig) (ia : nat * laction) : lconfig :=
  let '(i, a) := ia in
  match lthreads c !! i with
  | None => c
  | Some p =>
      let '(t, p') := match a, p with
                      | LCall client max, LIdle => acquire (lctr c) client max
                      | LCall _ _, _ => (lctr c, p)
                      | LGo, _ => lact (lctr c) p
                      end in
      mkL t (<[i := p']> (lthreads c))
  end.

Definition lrun (n : nat) (sched : list (nat * laction)) : lconfig :=
  foldl lstep (mkL ∅ (replicate n LIdle)) sched.

(** ** The middleware up to the handler *)

Inductive verdict : Type :=
| Skipped                       (* health checks and cache events *)
| Unauthorized                  (* 401 *)
| Saturated (id : ClientIdentity)  (* 429 *)
| Served (id : option ClientIdentity).

Section Middleware.

(** [acquired] is the outcome of [Acquire] for the client. *)
Definition Middleware (keys : option KeyStore) (acquired : ClientIdentity -> bool) (r : HttpRequest) : verdict :=
  if String.eqb (path r) "/healthz" || String.eqb (path r) "/internal/cache/events" then Skipped
  else match keys with
       | Some ks =>
           if Required ks then
             match Lookup ks (extractAPIKey r) with
             | None => Unauthorized
             | Some id => if acquired id then Served (Some id) else Saturated id
             end
           else Served None
       | None => Served None
       end.
End Middleware.

(** The identity the handlers find in the context: that of the key, or the
    anonymous client. *)
Definition ClientFromContext (v : verdict) : ClientIdentity :=
  match v with Served (Some id) => id | _ => mkClient "anonymous" 32 "" end.

(** The request id: the header's, or one drawn by [newCompletionID]; none on
    the exempt paths. *)
Definition RequestIDFromContext (v : verdict) (header drawn : string) : string :=
  match v with Skipped => "" | _ => if String.eqb header "" then drawn else header end.

(** ** Lemmas on the limiter *)

Definition lholds (c : string) (p : lpc) : bool :=
  match p with LHeld d => String.eqb d c | _ => false end.

Definition lpc_ok (c : string) (M : Z) (p : lpc) : Prop :=
  match p with
  | LLoad d max => 0 < max /\ (d = c -> max <= M)
  | LSwap d max cur => 0 < max /\ cur < max /\ (d = c -> max <= M)
  | _ => True
  end.

(** The callers for client [c] use limits of at most [M]. *)
Definition lact_ok (c : string) (M : Z) (a : laction) : Prop :=
  match a with LCall d max => d = c -> (if max <=? 0 then maxDefault else max) <= M | LGo => True end.

Definition linv (c : string) (M : Z) (cf : lconfig) : Prop :=
  (forall d, lget (lctr cf) d = count (lholds d) (lthreads cf)) /\
  Forall (lpc_ok c M) (lthreads cf) /\ count (lholds c) (lthreads cf) <= M.

Lemma lget_insert t c v d : lget (<[c := v]> t) d = if decide (c = d) then v else lget t d.
Proof. unfold lget. rewrite lookup_insert. by case_decide. Qed.

Lemma lact_effect c M t p :
  lpc_ok c M p -> (forall d, 0 <= lget t d < two63 - 1) ->
  let '(t', p') := lact t p in
  lpc_ok c M p' /\
  (forall d, lget t' d = lget t d - b2z (lholds d p) + b2z (lholds d p')) /\
  (lholds c p = false -> lholds c p' = true -> lget t c < M).
Proof.
  intros Hp Hr.
  assert (forall d z, z = 1 \/ z = -1 -> wrap_i64 (lget t d + z) = lget t d + z) as Hw.
  { intros d z Hz. apply wrap_i64_id. specialize (Hr d). unfold in_i64, two63 in *. lia. }
  destruct p as [|d max|d max cur|d|d|d]; cbn [lact lpc_ok lholds] in *; try (split; [done|]; split; [intros; cbn [b2z]; lia|done]).
  - destruct (Z.leb_spec max (lget t d)); cbn [lpc_ok lholds];
      (split; [naive_solver lia|]; split; [intros; cbn [b2z]; lia|done]).
  - destruct (Z.eqb_spec (lget t d) cur) as [<-|Hne]; cbn [lpc_ok lholds].
    + split; [done|]. split.
      * intros e. rewrite lget_insert, (Hw d 1) by auto. destruct (String.eqb_spec d e) as [->|Hde]; cbn [b2z].
        -- rewrite decide_True by done. lia.
        -- rewrite decide_False by done. lia.
      * intros _ E. zbool. subst. destruct Hp as (_ & H1 & H2). specialize (H2 eq_refl). lia.
    + split; [naive_solver|]. split; [intros; lia|done].
  - split; [done|]. split; [|done]. intros e. rewrite lget_insert. change (lget t d - 1) with (lget t d + -1).
    rewrite (Hw d (-1)) by auto. destruct (String.eqb_spec d e) as [->|Hde]; cbn [b2z].
    + rewrite decide_True by done. lia.
    + rewrite decide_False by done. lia.
Qed.

Lemma acquire_effect c M t d max :
  (d = c -> (if max <=? 0 then maxDefault else max) <= M) ->
  lpc_ok c M (acquire t d max).2 /\ forall e, lget (acquire t d max).1 e = lget t e.
Proof.
  intros Hm. unfold acquire. cbn [fst snd lpc_ok]. split.
  - split; [|done]. unfold maxDefault. destruct (Z.leb_spec max 0); lia.
  - intros e. destruct (t !! d) eqn:E; [done|]. rewrite lget_insert. case_decide; [|done]. subst.
    unfold lget. by rewrite E.
Qed.

Lemma lstep_inv c M cf ia :
  linv c M cf -> Z.of_nat (length (lthreads cf)) < two63 - 1 -> lact_ok c M ia.2 -> linv c M (lstep cf ia).
Proof.
  destruct ia as [i a]. intros (Hc & Hf & Hle) Hn Ha. cbn [snd] in Ha. unfold lstep.
  destruct (lthreads cf !! i) as [p|] eqn:Ep; [|done].
  assert (forall d, 0 <= lget (lctr cf) d < two63 - 1) as Hr.
  { intros d. rewrite Hc. pose proof (count_nonneg (lholds d) (lthreads cf)).
    pose proof (count_le_length (lholds d) (lthreads cf)). lia. }
  assert (lpc_ok c M p) as Hp by (by eapply Forall_lookup_1).
  assert (forall t' p', lpc_ok c M p' ->
    (forall d, lget t' d = lget (lctr cf) d - b2z (lholds d p) + b2z (lholds d p')) ->
    (lholds c p = false -> lholds c p' = true -> lget (lctr cf) c < M) ->
    linv c M (mkL t' (<[i := p']> (lthreads cf)))) as Hstep.
  { intros t' p' Hp' Hg Hlt. split_and!; cbn.
    - intros d. rewrite Hg, Hc. by rewrite (count_insert _ _ _ _ _ Ep).
    - by apply Forall_insert.
    - rewrite (count_insert _ _ _ _ _ Ep). rewrite Hc in Hlt.
      destruct (lholds c p), (lholds c p'); cbn [b2z]; lia. }
  destruct a as [d max|].
  - destruct p; try (apply Hstep; [done|intros; lia|intros; congruence]).
    destruct (acquire_effect c M (lctr cf) d max Ha) as [H1 H2].
    destruct (acquire (lctr cf) d max) as [t' p'] eqn:E. injection E as _ <-. cbn [fst snd] in *.
    apply Hstep; [done|intros; rewrite H2; cbn; lia|done].
  - pose proof (lact_effect c M (lctr cf) p Hp Hr) as He. destruct (lact (lctr cf) p) as [t' p'].
    destruct He as (H1 & H2 & H3). by apply Hstep.
Qed.

Lemma lrun_inv c M n sched :
  0 <= M -> Z.of_nat n < two63 - 1 -> Forall (fun ia => lact_ok c M ia.2) sched -> linv c M (lrun n sched).
Proof.
  intros HM Hn Hs. unfold lrun.
  assert (forall cf, linv c M cf -> length (lthreads cf) = n ->
    linv c M (foldl lstep cf sched)) as Hgen.
  { induction Hs as [|ia sched Ha Hs IH]; intros cf Hi Hl; [done|]. cbn. apply IH.
    - apply lstep_inv; [done|lia|done].
    - unfold lstep. destruct ia as [i a]. destruct (lthreads cf !! i); [|done].
      destruct (match a with LCall _ _ => _ | LGo => _ end). cbn. by rewrite length_insert. }
  assert (forall d, count (lholds d) (replicate n LIdle) = 0) as H0.
  { intros d. clear. induction n; [done|]. cbn [replicate]. rewrite count_cons, IHn. done. }
  apply Hgen; [|apply length_replicate]. split_and!; cbn.
  - intros d. by rewrite H0.
  - by apply Forall_replicate.
  - by rewrite H0.
Qed.

(** ** Lemmas on the store *)

Lemma add_rows_lookup s rs h :
  foldl add_row s rs !! h =
    match list_find (fun r => k_KeyHash r = h) (rev rs) with
    | Some (_, r) => Some (mkClient (k_ClientID r) (if k_MaxConcurrent r <=? 0 then 32 else k_MaxConcurrent r) (k_ID r))
    | None => s !! h
    end.
Proof.
  induction rs as [|r rs IH] using rev_ind; [done|]. rewrite foldl_app, rev_app_distr. cbn [foldl rev app list_find].
  unfold add_row at 1. rewrite lookup_insert. case_decide; [done|]. rewrite IH.
  by destruct (list_find (fun r => k_KeyHash r = h) (rev rs)) as [[? ?]|].
Qed.

(** Hashes are unique: a row is known by its hash. *)
Lemma NoDup_key_row (rows : list APIKey) x y :
  NoDup (k_KeyHash <$> rows) -> x ∈ rows -> y ∈ rows -> k_KeyHash x = k_KeyHash y -> x = y.
Proof.
  intros Hn Hx Hy E. apply list_elem_of_lookup in Hx as [i Hi], Hy as [j Hj].
  assert (i = j) as ->; [|congruence]. eapply (NoDup_lookup _ i j (k_KeyHash x) Hn); rewrite list_lookup_fmap.
  - by rewrite Hi.
  - by rewrite Hj, E.
Qed.

(** ** Properties *)

(** C38: when keys are configured, a request off the two exempt paths reaches
    the handler only with a key of the store: the verdict is Served exactly
    for a non-empty key (bearer token or X-API-Key header) whose hash is
    known and whose client got a slot, with that client's identity. *)
Theorem auth_gate ks acquired r id :
  ks <> ∅ -> path r <> "/healthz" -> path r <> "/internal/cache/events" ->
  Middleware (Some ks) acquired r <> Served None /\ Middleware (Some ks) acquired r <> Skipped /\
  (Middleware (Some ks) acquired r = Served (Some id) <->
   extractAPIKey r <> "" /\ ks !! HashAPIKey (extractAPIKey r) = Some id /\ acquired id = true).
Proof.
  intros Hk H1 H2. unfold Middleware, Required, Lookup.
  destruct (String.eqb_spec (path r) "/healthz"); [done|].
  destruct (String.eqb_spec (path r) "/internal/cache/events"); [done|]. cbn [orb].
  rewrite bool_decide_eq_false_2 by done. cbn [negb].
  destruct (String.eqb_spec (extractAPIKey r) "") as [E|Hne].
  { do 2 (split; [done|]). split; [done|]. by intros (? & _). }
  destruct (ks !! HashAPIKey (extractAPIKey r)) as [id'|].
  2: { do 2 (split; [done|]). split; [done|]. by intros (_ & ? & _). }
  destruct (acquired id') eqn:Ea; do 2 (split; [done|]); split.
  - by intros [= <-].
  - by intros (_ & [= ->] & _).
  - done.
  - intros (_ & [= <-] & ?). congruence.
Qed.

(** Reloading the keys keeps the keys of the environment, replaces all
    others by the enabled rows of the database (the last row of a hash wins,
    limits that are not positive become 32) and leaves the store alone on a
    database error. *)
Theorem reload_keeps_env_keys s rows e h :
  (Reload s (Some (Err e))).2 = s /\
  (Reload s (Some (Ok rows))).2 !! h =
    match list_find (fun r => k_KeyHash r = h) (rev rows) with
    | Some (_, r) => Some (mkClient (k_ClientID r) (if k_MaxConcurrent r <=? 0 then 32 else k_MaxConcurrent r) (k_ID r))
    | None => match s !! h with
              | Some id => if HasPrefix (KeyID id) "env-" then Some id else None
              | None => None
              end
    end.
Proof.
  split; [done|]. cbn [Reload snd]. rewrite add_rows_lookup.
  destruct (list_find _ (rev rows)) as [[? ?]|]; [done|]. rewrite map_lookup_filter.
  destruct (s !! h) as [id|]; cbn; [|done]. case_guard as G; cbn; [by rewrite G|].
  by destruct (HasPrefix (KeyID id) "env-").
Qed.

(** Disabling the last key of a store without environment keys turns
    authentication off: after the reload no key is required and every request
    is served, without a key and without a client limit. *)
Theorem last_key_disabled_opens s acquired r :
  map_Forall (fun _ id => HasPrefix (KeyID id) "env-" = false) s ->
  path r <> "/healthz" -> path r <> "/internal/cache/events" ->
  Middleware (Some (Reload s (Some (Ok []))).2) acquired r = Served None.
Proof.
  intros Hs H1 H2. unfold Middleware.
  destruct (String.eqb_spec (path r) "/healthz"); [done|].
  destruct (String.eqb_spec (path r) "/internal/cache/events"); [done|]. cbn [orb].
  assert ((Reload s (Some (Ok []))).2 = ∅) as ->; [|done].
  cbn [Reload snd foldl]. apply map_empty. intros h. rewrite map_lookup_filter.
  destruct (s !! h) as [id|] eqn:E; cbn; [|done]. case_guard as G; [|done].
  cbn in *. rewrite (Hs _ _ E) in G. done.
Qed.

(** C39: the limiter never over-admits: in every interleaving, the counter of a
    client is the number of its requests being served, and when the limits of
    a client's requests are at most [M] no more than [M] are served at once. *)
Theorem client_limit_respected c M n sched d :
  0 <= M -> Z.of_nat n < two63 - 1 -> Forall (fun ia => lact_ok c M ia.2) sched ->
  lget (lctr (lrun n sched)) d = count (lholds d) (lthreads (lrun n sched)) /\
  count (lholds c) (lthreads (lrun n sched)) <= M.
Proof. intros HM Hn Hs. destruct (lrun_inv c M n sched HM Hn Hs) as (H1 & _ & H2). by split. Qed.

(** A key written with [Upsert] works at once: when the write succeeds and the
    reload sees its row, in a table where hashes are unique, a request with
    the raw key that gets a slot is served with the client and the limit given
    (32 when not positive), whatever keys there were before. *)
Theorem upserted_key_served s rows id rawKey clientID max acquired r s' :
  rawKey <> "" -> extractAPIKey r = rawKey -> path r <> "/healthz" -> path r <> "/internal/cache/events" ->
  NoDup (k_KeyHash <$> rows) -> key_row id rawKey clientID max ∈ rows ->
  UpsertKey s (Some (Ok tt)) (Ok rows) = (None, s') ->
  let client := mkClient clientID (if max <=? 0 then 32 else max) id in
  acquired client = true ->
  Middleware (Some s') acquired r = Served (Some client) /\ ClientFromContext (Middleware (Some s') acquired r) = client.
Proof.
  intros Hne Hk Hp1 Hp2 Hn Hin [= <-]. cbn zeta. intros Ha. unfold Middleware, Required, Lookup. rewrite Hk.
  destruct (String.eqb_spec (path r) "/healthz"); [done|]. destruct (String.eqb_spec (path r) "/internal/cache/events"); [done|].
  destruct (String.eqb_spec rawKey ""); [done|]. cbn [orb]. set (next := foldl add_row _ rows).
  assert (next !! HashAPIKey rawKey = Some (mkClient clientID (if max <=? 0 then 32 else max) id)) as E.
  { unfold next. rewrite add_rows_lookup.
    assert (exists i, list_find (fun x => k_KeyHash x = HashAPIKey rawKey) (rev rows) = Some (i, key_row id rawKey clientID max)) as [i ->].
    - apply (list_elem_of_fmap_2 k_KeyHash) in Hin as Hh. cbn [k_KeyHash key_row] in Hh.
      destruct (list_find_elem_of (fun x => k_KeyHash x = HashAPIKey rawKey) (rev rows) (key_row id rawKey clientID max)) as [[i x] Hx].
      { apply list_elem_of_In. rewrite <- List.in_rev. by apply list_elem_of_In. }
      { done. }
      exists i. rewrite Hx. do 2 f_equal. apply list_find_Some in Hx as (Hl & Hx & _).
      assert (x ∈ rows) as Hxr by (apply list_elem_of_lookup_2, list_elem_of_In in Hl; by apply list_elem_of_In, List.in_rev).
      by apply (NoDup_key_row rows).
    - cbn [k_ClientID k_MaxConcurrent k_ID key_row]. by destruct (Z.leb_spec max 0); [|rewrite (proj2 (Z.leb_gt _ _))]. }
  assert (next <> ∅) as Hnext by (intros E0; rewrite E0, lookup_empty in E; done).
  rewrite bool_decide_eq_false_2 by done. cbn [negb]. by rewrite E, Ha.
Qed.

(** *** Witnesses *)

Definition demo_store : KeyStore := {[HashAPIKey "k1" := mkClient "acme" 2 "db-1"]}.

Lemma auth_gate_witness :
  Middleware (Some demo_store) (fun _ => true) (mkHttpRequest "/v1/models" "Bearer k1" "") =
    Served (Some (mkClient "acme" 2 "db-1")).
Proof.
  apply (auth_gate demo_store (fun _ => true) (mkHttpRequest "/v1/models" "Bearer k1" "") (mkClient "acme" 2 "db-1")).
  - intros E. apply (f_equal (lookup (HashAPIKey "k1"))) in E. vm_compute in E. discriminate E.
  - discriminate.
  - discriminate.
  - split; [vm_compute; discriminate|]. split; vm_compute; reflexivity.
Defined.

Lemma last_key_disabled_opens_witness :
  Middleware (Some (Reload demo_store (Some (Ok []))).2) (fun _ => false) (mkHttpRequest "/v1/models" "" "") =
    Served None.
Proof.
  apply last_key_disabled_opens.
  - by apply map_Forall_singleton.
  - discriminate.
  - discriminate.
Defined.

Lemma client_limit_respected_witness :
  count (lholds "acme") (lthreads (lrun 2 [(0, LCall "acme" 1); (1, LCall "acme" 1); (0, LGo); (1, LGo); (1, LGo); (0, LGo)]%nat)) <= 1.
Proof.
  apply (client_limit_respected "acme" 1 2 _ "acme"); [lia|done|].
  repeat constructor; cbn; intros; lia.
Defined.

Lemma upserted_key_served_witness :
  Middleware (Some (UpsertKey ∅ (Some (Ok tt)) (Ok [key_row "k-1" "secret" "acme" 0])).2) (fun _ => true)
    (mkHttpRequest "/v1/models" "Bearer secret" "") = Served (Some (mkClient "acme" 32 "k-1")).
Proof.
  apply (upserted_key_served ∅ [key_row "k-1" "secret" "acme" 0] "k-1" "secret" "acme" 0 (fun _ => true)
    (mkHttpRequest "/v1/models" "Bearer secret" "")).
  - discriminate.
  - reflexivity.
  - discriminate.
  - discriminate.
  - apply NoDup_singleton.
  - apply elem_of_cons. left. reflexivity.
  - reflexivity.
  - reflexivity.
Defined.
