(* ===== verification/GatewayDispatch.v ===== *)
(** * Dispatch and streaming (services/gateway/dispatch.go, the streaming and
      collecting parts of services/gateway/handler.go, provider_dial.go)

    A worker stream is the list of what successive [Recv] calls return,
    followed by io.EOF for ever; opening one is an input.  The file models
    [collect], the server-sent events written for a stream, failover for whole
    responses and failover up to the first token, on the [world] of
    Failover.v. *)

From S2P Require Import Prelude Float64 GoStrings Errors Breaker Budget Failover Routing Rendezvous Candidates GatewaySelect.

(** ** Streams *)

Definition wrap_i32 (z : Z) : Z := (z + 2 ^ 31) mod 2 ^ 32 - 2 ^ 31.

Record Usage := mkUsage { u_PromptTokens : Z; u_CompletionTokens : Z }.

Record TokenChunk := mkChunk { Text : string; Done : bool; FinishReason : string; c_Usage : option Usage }.

Definition stream : Type := list (result error TokenChunk).

(** The OpenAI usage object. *)
Record usage := mkUsageObj { PromptTokens : Z; CompletionTokens : Z; TotalTokens : Z }.

Definition usage_of (u : Usage) : usage :=
  mkUsageObj (u_PromptTokens u) (u_CompletionTokens u) (wrap_i32 (u_PromptTokens u + u_CompletionTokens u)).

Definition usageOrZero (u : option usage) : usage := default (mkUsageObj 0 0 0) u.

(** [collect] on an open stream: the text, the usage and the finish reason. *)
Fixpoint collect_loop (s : stream) (b : string) (u : option usage) (finish : string)
    : result error (string * option usage * string) :=
  match s with
  | [] => Ok (b, u, finish)
  | Err e :: _ => if errors_Is e ErrEOF then Ok (b, u, finish) else Err e
  | Ok chunk :: rest =>
      let b := b ++ Text chunk in
      if Done chunk then
        collect_loop rest b (match c_Usage chunk with Some x => Some (usage_of x) | None => u end) (FinishReason chunk)
      else collect_loop rest b u finish
  end.

Definition collect (opened : result error stream) : result error (string * option usage * string) :=
  match opened with
  | Err e => Err e
  | Ok s => collect_loop s "" None ""
  end.

(** ** Server-sent events *)

Inductive sse : Type :=
| SRole
| SContent (text : string)
| SStop (finish : string)
| SUsage (u : usage)
| SError (e : error)
| SDone.

(** The response writer: what was written, and how many more writes succeed
    before the client is gone ([None]: all of them). *)
Record writer := mkWriter { sent : list sse; left : option nat }.

Definition ErrWrite : error := EForeign 0.

Definition write (w : writer) (ev : sse) : option error * writer :=
  match left w with
  | Some O => (Some ErrWrite, w)
  | Some (S n) => (None, mkWriter (sent w ++ [ev])%list (Some n))
  | None => (None, mkWriter (sent w ++ [ev])%list None)
  end.

(** [handle]: one chunk; the first chunk may be nil. *)
Record sstate := mkS { finalUsage : option usage; finishReason : string }.

Definition handle (chunk : option TokenChunk) (st : sstate) (w : writer) : option error * sstate * writer :=
  match chunk with
  | None => (None, st, w)
  | Some c =>
      let '(e, w) := if negb (String.eqb (Text c) "") then write w (SContent (Text c)) else (None, w) in
      match e with
      | Some e => (Some e, st, w)
      | None =>
          if Done c then
            let fr := if String.eqb (FinishReason c) "" then "stop" else FinishReason c in
            (None, mkS (match c_Usage c with Some u => Some (usage_of u) | None => finalUsage st end) fr, w)
          else (None, st, w)
      end
  end.

(** The receive loop and the closing events. *)
Definition finish_stream (includeUsage : bool) (st : sstate) (w : writer) : option error * writer :=
  let fr := if String.eqb (finishReason st) "" then "stop" else finishReason st in
  let '(e, w) := write w (SStop fr) in
  match e with
  | Some e => (Some e, w)
  | None =>
      let '(e, w) := match includeUsage, finalUsage st with
                     | true, Some u => write w (SUsage u)
                     | _, _ => (None, w)
                     end in
      match e with
      | Some e => (Some e, w)
      | None => write w SDone
      end
  end.

Fixpoint stream_loop (includeUsage : bool) (s : stream) (st : sstate) (w : writer) : option error * writer :=
  match s with
  | [] => finish_stream includeUsage st w
  | Err e :: _ =>
      if errors_Is e ErrEOF then finish_stream includeUsage st w
      else (None, (write w (SError e)).2)
  | Ok chunk :: rest =>
      let '(e, st, w) := handle (Some chunk) st w in
      match e with
      | Some e => (Some e, w)
      | None => stream_loop includeUsage rest st w
      end
  end.

(** What [streamFirstToken] hands over: a stream with its worker and perhaps a
    first chunk, or an error, which may be nil. *)
Inductive first_token : Type :=
| GotStream (s : stream) (worker : SelectedWorker) (first : option TokenChunk)
| NoStream (e : option error).

(** [streamChatFailover] and [streamTextFailover] after the first token: only
    the former opens with a role event.  A nil stream with a nil error makes
    the next use of the stream panic. *)
Definition stream_response (role : bool) (includeUsage : bool) (ft : first_token) (w : writer)
    : go (option SelectedWorker * option error * writer) :=
  match ft with
  | NoStream (Some e) => Returns (None, Some e, w)
  | NoStream None => Panics
  | GotStream s worker first =>
      let '(e, w) := if role then write w SRole else (None, w) in
      match e with
      | Some e => Returns (Some worker, Some e, w)
      | None =>
          let '(e, st, w) := handle first (mkS None "") w in
          match e with
          | Some e => Returns (Some worker, Some e, w)
          | None => let '(e, w) := stream_loop includeUsage s st w in Returns (Some worker, e, w)
          end
      end
  end.

(** ** Failover *)

Section Dispatch.
Context `{GrpcStatus}.
Variable clock : nat -> Z.
(** The n-th [openGenerate] (or [collect]) of the request, on a worker. *)
Variable open : nat -> SelectedWorker -> result error stream.

Definition as_worker (w : SelectedWorker) : Worker := mkWorker (sw_ID w) (sw_Endpoint w).

Definition by_id (workers : list SelectedWorker) : gmap string SelectedWorker :=
  foldl (fun m w => <[sw_ID w := w]> m) ∅ workers.

Definition zero_selected : SelectedWorker := mkSelected "" "" [].

(** [withFailover] around [collect] ([collectWithFailover]): the answer, the
    worker used and the error.  [failover] is [None] for a nil failover. *)
Definition collect_call (workers : list SelectedWorker) (n : nat) (w : Worker) : option error :=
  match collect (open n (default zero_selected (by_id workers !! ID w))) with
  | Ok _ => None
  | Err e => Some e
  end.

Definition collect_answer (workers : list SelectedWorker) (n : nat) (w : Worker) : string * option usage * string :=
  match collect (open n (default zero_selected (by_id workers !! ID w))) with
  | Ok a => a
  | Err _ => ("", None, "")
  end.

Definition collectWithFailover (failover : option (world * Z)) (workers : list SelectedWorker)
    : string * option usage * string * option SelectedWorker * option error :=
  match workers with
  | [] => ("", None, "", None, Some (ENew "no workers"))
  | w0 :: _ =>
      match failover with
      | None =>
          match collect (open 0 w0) with
          | Ok (text, u, finish) => (text, u, finish, Some w0, None)
          | Err e => ("", None, "", Some w0, Some e)
          end
      | Some (w, max) =>
          let '(used, err, w') := Do clock (collect_call workers) max (as_worker <$> workers) w in
          let answer := match list.last (drop (length (calls w)) (calls w')) with
                        | Some u => collect_answer workers (length (calls w') - 1) u
                        | None => ("", None, "")
                        end in
          match err with
          | Some e => ("", None, "", None, Some e)
          | None =>
              let '(text, u, finish) := answer in
              (text, u, finish, Some (default zero_selected (by_id workers !! ID used)), None)
          end
      end
  end.

(** [recordFail] *)
Definition recordFail (w : world) (sw : SelectedWorker) (e : error) : world :=
  if IsExcluded e then w else breaker_failure clock w (sw_ID sw).

Definition count_open (w : world) (sw : SelectedWorker) : world :=
  mkWorld (breaker w) (budget w) (failover_log w) (ticks w) (calls w ++ [as_worker sw])%list.

Definition record_success (w : world) (sw : SelectedWorker) : world :=
  breaker_success (on_budget OnSuccess w) (sw_ID sw).

Definition record_failover (w : world) (sw : SelectedWorker) (rest : list SelectedWorker) : world :=
  match rest with [] => w | next :: _ => inc_failover w (sw_ID sw) (sw_ID next) "unavailable" end.

(** The loop of [streamFirstToken] at index [i] of [n] workers. *)
Fixpoint first_loop (n i : nat) (ws : list SelectedWorker) (last : option error) (w : world) : first_token * world :=
  match ws with
  | [] => (NoStream (Some (default (ENew "no healthy worker") last)), w)
  | sw :: rest =>
      if (0 <? Z.of_nat i) && negb (budget_allow w) then (NoStream last, w)
      else
        let '(e, w) := breaker_allow clock w (sw_ID sw) in
        if bool_decide (e <> None) && (1 <? Z.of_nat n) then first_loop n (S i) rest last w
        else
          let opened := open (length (calls w)) sw in
          let w := count_open w sw in
          match opened with
          | Err e =>
              let w := recordFail w sw e in
              if negb (Retryable (Some e)) then (NoStream (Some e), w)
              else first_loop n (S i) rest (Some e) (record_failover (on_budget OnFailure w) sw rest)
          | Ok s =>
              let recv := match s with [] => Err ErrEOF | r :: _ => r end in
              match recv with
              | Ok chunk => (GotStream (tail s) sw (Some chunk), record_success w sw)
              | Err e =>
                  let w := recordFail w sw e in
                  if errors_Is e ErrEOF then (GotStream (tail s) sw None, record_success w sw)
                  else if negb (Retryable (Some e)) then (NoStream (Some e), w)
                  else first_loop n (S i) rest (Some e) (record_failover (on_budget OnFailure w) sw rest)
              end
          end
  end.

Definition streamFirstToken (workers : list SelectedWorker) (w : world) : first_token * world :=
  first_loop (length workers) 0 workers None w.
End Dispatch.

(** ** Admission *)

(** [admitFromRanked]: [try] is [tryAdmit] for each worker id; the admitted
    worker moves to the front. *)
Fixpoint admit_loop (try : string -> bool) (before after : list SelectedWorker) : option (list SelectedWorker) :=
  match after with
  | [] => None
  | w :: rest =>
      if try (sw_ID w) then Some (w :: before ++ rest)%list
      else admit_loop try (before ++ [w])%list rest
  end.

Definition admitFromRanked (try : string -> bool) (workers : list SelectedWorker) : option (list SelectedWorker) :=
  admit_loop try [] workers.

(** ** Lemmas on streams *)

Definition stop_of (finish : string) : string := if String.eqb finish "" then "stop" else finish.

(** The closing events of a stream. *)
Definition closing (includeUsage : bool) (finish : string) (u : option usage) : list sse :=
  ([SStop (stop_of finish)] ++
   (match includeUsage, u with true, Some x => [SUsage x] | _, _ => [] end) ++ [SDone])%list.

(** The streaming state keeps the finish reason normalised. *)
Definition tracks_finish (st : sstate) (finish : string) : Prop :=
  finishReason st = "" /\ finish = "" \/ finishReason st = stop_of finish.

Lemma stop_of_stop finish : stop_of (stop_of finish) = stop_of finish.
Proof. unfold stop_of. destruct (String.eqb finish "") eqn:E; [done|]. by rewrite E. Qed.

Lemma finish_stream_spec incl st finish pre :
  tracks_finish st finish ->
  finish_stream incl st (mkWriter pre None) =
    (None, mkWriter (pre ++ closing incl finish (finalUsage st)) None).
Proof.
  intros Hf. unfold finish_stream, closing.
  assert ((if String.eqb (finishReason st) "" then "stop" else finishReason st) = stop_of finish) as ->.
  { fold (stop_of (finishReason st)). destruct Hf as [[-> ->]| ->]; [done|]. apply stop_of_stop. }
  cbn. destruct incl; [destruct (finalUsage st)|]; cbn; by rewrite <- ?app_assoc.
Qed.

(** What there is to read of a stream: the texts of its chunks, up to its end
    or its first error, without the empty ones. *)
Fixpoint texts (s : stream) : list string :=
  match s with
  | Ok c :: rest => if String.eqb (Text c) "" then texts rest else Text c :: texts rest
  | _ => []
  end.

(** One chunk, as streaming and collecting see it. *)
Lemma handle_chunk c st finish pre :
  tracks_finish st finish ->
  exists st', handle (Some c) st (mkWriter pre None) =
      (None, st', mkWriter (pre ++ (SContent <$> texts [Ok c])) None) /\
    tracks_finish st' (if Done c then FinishReason c else finish) /\
    finalUsage st' = (if Done c then match c_Usage c with Some x => Some (usage_of x) | None => finalUsage st end
                      else finalUsage st).
Proof.
  intros Hf. unfold handle. cbn [texts]. destruct (String.eqb (Text c) ""); cbn [negb fmap list_fmap write left sent];
    rewrite ?app_nil_r; destruct (Done c); (eexists; split; [reflexivity|]); split; try done; by right.
Qed.

Lemma texts_cons c s : texts (Ok c :: s) = (texts [Ok c] ++ texts s)%list.
Proof. cbn. by destruct (String.eqb (Text c) ""). Qed.

Lemma texts_chunk c : concat_str (texts [Ok c]) = Text c.
Proof. cbn. destruct (String.eqb_spec (Text c) ""); [done|]. apply str_app_nil_r. Qed.

(** The events of a response against what collecting the stream returns: one
    event for each of its texts, in order, and the closing events of the
    collected finish reason and usage, or the error. *)
Definition mirrors (incl : bool) (s : stream) (events : list sse) : Prop :=
  match collect (Ok s) with
  | Ok (text, u, finish) => events = ((SContent <$> texts s) ++ closing incl finish u)%list /\ text = concat_str (texts s)
  | Err e => events = ((SContent <$> texts s) ++ [SError e])%list
  end.

Lemma stream_loop_mirrors incl s st finish b pre :
  tracks_finish st finish ->
  match collect_loop s b (finalUsage st) finish with
  | Ok (text, u, fin) =>
      stream_loop incl s st (mkWriter pre None) = (None, mkWriter (pre ++ (SContent <$> texts s) ++ closing incl fin u) None) /\
      text = b ++ concat_str (texts s)
  | Err e => stream_loop incl s st (mkWriter pre None) = (None, mkWriter (pre ++ (SContent <$> texts s) ++ [SError e]) None)
  end.
Proof.
  revert st finish b pre. induction s as [|[c|e] s IH]; intros st finish b pre Hf; cbn [stream_loop collect_loop].
  - rewrite (finish_stream_spec incl st finish) by done. cbn. by rewrite str_app_nil_r.
  - destruct (handle_chunk c st finish pre Hf) as (st' & -> & Hf' & Hu). cbv beta iota.
    specialize (IH st' _ (b ++ Text c) (pre ++ (SContent <$> texts [Ok c]))%list Hf'). rewrite Hu in IH.
    assert (concat_str (texts (Ok c :: s)) = Text c ++ concat_str (texts s)) as ->
      by (by rewrite texts_cons, concat_str_app, texts_chunk).
    rewrite (texts_cons c s), fmap_app. destruct (Done c);
      (destruct (collect_loop s (b ++ Text c) _ _) as [[[text u] fin]|e'];
       [destruct IH as [-> ->]; split; [by rewrite <- !app_assoc|]; by rewrite str_app_assoc|rewrite IH; by rewrite <- !app_assoc]).
  - destruct (errors_Is e ErrEOF); [|done]. rewrite (finish_stream_spec incl st finish) by done. cbn. by rewrite str_app_nil_r.
Qed.

(** After an error a stream has no more answers. *)
Definition ended_by_error (s : stream) : Prop := forall pre e rest, s = (pre ++ Err e :: rest)%list -> rest = [].

(** What [streamFirstToken] hands over of a stream: the chunk of its first
    answer, or none when the stream is over. *)
Definition handed_over (s : stream) (first : option TokenChunk) : Prop :=
  match first with
  | Some c => exists rest, s = Ok c :: rest
  | None => s = [] \/ exists e rest, s = Err e :: rest /\ errors_Is e ErrEOF = true
  end.

(** The events written for a stream that was handed over mirror it. *)
Lemma handed_over_mirrors role incl s worker first :
  ended_by_error s -> handed_over s first ->
  exists events, stream_response role incl (GotStream (tail s) worker first) (mkWriter [] None) =
      Returns (Some worker, None, mkWriter ((if role then [SRole] else []) ++ events) None) /\ mirrors incl s events.
Proof.
  intros He Hf. set (pre := if role then [SRole] else []).
  assert (exists events, (let '(e, st, w) := handle first (mkS None "") (mkWriter pre None) in
      match e with Some e => (Some e, w) | None => stream_loop incl (tail s) st w end) = (None, mkWriter (pre ++ events) None) /\
    mirrors incl s events) as (events & E & Hm).
  { pose proof (stream_loop_mirrors incl s (mkS None "") "" "" pre ltac:(by left)) as Hl. unfold mirrors. cbn [collect].
    cbn [finalUsage] in Hl.
    assert ((let '(e, st, w) := handle first (mkS None "") (mkWriter pre None) in
        match e with Some e => (Some e, w) | None => stream_loop incl (tail s) st w end) =
      stream_loop incl s (mkS None "") (mkWriter pre None)) as ->.
    { destruct first as [c|]; [by destruct Hf as [rest ->]|]. cbn [handle].
      destruct Hf as [-> |(e & rest & -> & Ee)]; [done|]. rewrite (He [] e rest eq_refl). cbn. by rewrite Ee. }
    destruct (collect_loop s "" None "") as [[[text u] fin]|e]; [destruct Hl as [-> ->]|rewrite Hl]; eauto. }
  exists events. split; [|done]. unfold stream_response.
  assert ((if role then write (mkWriter [] None) SRole else (None, mkWriter [] None)) = (None, mkWriter pre None)) as -> by (by destruct role).
  destruct (handle first (mkS None "") (mkWriter _ None)) as [[[e|] st] w]; [by simplify_eq|]. by rewrite E.
Qed.

(** ** Lemmas on admission *)

Lemma admit_loop_spec try before after :
  match admit_loop try before after with
  | None => Forall (fun w => try (sw_ID w) = false) after
  | Some out =>
      exists w skipped rest, after = (skipped ++ w :: rest)%list /\
        Forall (fun v => try (sw_ID v) = false) skipped /\ try (sw_ID w) = true /\
        out = (w :: before ++ skipped ++ rest)%list
  end.
Proof.
  revert before. induction after as [|w rest IH]; intros before; cbn; [constructor|].
  destruct (try (sw_ID w)) eqn:E.
  - exists w, [], rest. by split_and!.
  - specialize (IH (before ++ [w])%list). destruct (admit_loop try (before ++ [w]) rest) as [out|].
    + destruct IH as (v & skipped & rest' & -> & Hs & Hv & ->). exists v, (w :: skipped), rest'.
      split_and!; try done; [by constructor|]. by rewrite <- app_assoc.
    + by constructor.
Qed.

(** ** Properties *)

(** C27: streaming and collecting agree: for every stream that is handed over
    to the streaming handlers (its first answer is a chunk, or it is over at
    once; a stream that fails before its first chunk goes back to failover),
    a client that stays connected gets one event for each non-empty text of
    the stream, in order and as the runtime cut them, and nothing else before
    the end.  A stream that collecting reads to its end is closed with the
    stop event of the collected finish reason (stop by default), the collected
    usage when asked for and [DONE], and the texts add up to the collected
    answer; a stream that fails midway is closed with its error, the texts
    before it sent, without stop or [DONE].  After an error a stream has no
    more answers, as gRPC has it. *)
Theorem stream_mirrors_collect role incl s worker first :
  ended_by_error s -> handed_over s first ->
  match collect (Ok s) with
  | Ok (text, u, finish) =>
      stream_response role incl (GotStream (tail s) worker first) (mkWriter [] None) =
        Returns (Some worker, None,
          mkWriter ((if role then [SRole] else []) ++ (SContent <$> texts s) ++ closing incl finish u) None) /\
      text = concat_str (texts s)
  | Err e =>
      stream_response role incl (GotStream (tail s) worker first) (mkWriter [] None) =
        Returns (Some worker, None, mkWriter ((if role then [SRole] else []) ++ (SContent <$> texts s) ++ [SError e]) None)
  end.
Proof.
  intros He Hf. destruct (handed_over_mirrors role incl s worker first He Hf) as (events & -> & Hm). unfold mirrors in Hm.
  destruct (collect (Ok s)) as [[[text u] finish]|e]; [by destruct Hm as [-> ->]|by rewrite Hm].
Qed.

(** Admission keeps the ranking: the workers handed to dispatch are the
    ranked workers with the first admissible one moved to the front, every
    worker ranked before it was refused, and admission fails only when every
    ranked worker is at its limit. *)
Theorem admit_from_ranked_spec try workers :
  match admitFromRanked try workers with
  | None => Forall (fun w => try (sw_ID w) = false) workers
  | Some out =>
      out ≡ₚ workers /\ exists w skipped rest, out = (w :: skipped ++ rest)%list /\
        workers = (skipped ++ w :: rest)%list /\ try (sw_ID w) = true /\
        Forall (fun v => try (sw_ID v) = false) skipped
  end.
Proof.
  unfold admitFromRanked. pose proof (admit_loop_spec try [] workers) as Hs.
  destruct (admit_loop try [] workers) as [out|]; [|done].
  destruct Hs as (w & skipped & rest & -> & Hs & Hw & ->). cbn [app]. split.
  - by rewrite Permutation_middle.
  - by exists w, skipped, rest.
Qed.

(** A nil stream with a nil error: when the breaker of the first of at
    least two workers refuses and the retry budget is exhausted,
    [streamFirstToken] gives up before calling anybody and reports no error,
    and the streaming handlers, which take that for a stream, panic. *)
Theorem first_token_nil_panics `{GrpcStatus} clock open w1 w2 rest w role incl out :
  (breaker_allow clock w (sw_ID w1)).1 <> None -> budget_allow w = false ->
  exists w', streamFirstToken clock open (w1 :: w2 :: rest) w = (NoStream None, w') /\ calls w' = calls w /\
    stream_response role incl (NoStream None) out = Panics.
Proof.
  intros Hb Hbud. unfold streamFirstToken. cbn [length first_loop].
  replace (0 <? Z.of_nat 0) with false by done. cbn [andb].
  pose proof (breaker_allow_frame clock w (sw_ID w1)) as [Hc Hbu].
  destruct (breaker_allow clock w (sw_ID w1)) as [e wa] eqn:E. cbn [fst snd] in *.
  rewrite bool_decide_eq_true_2 by done. replace (1 <? Z.of_nat (S (S (length rest)))) with true by (symmetry; apply Z.ltb_lt; lia).
  cbn [andb first_loop]. replace (0 <? Z.of_nat 1) with true by done.
  assert (budget_allow wa = false) as -> by (unfold budget_allow in *; by rewrite Hbu).
  cbn [andb negb]. by exists wa.
Qed.

(** An empty generation counts as a failure of the worker: a half-open
    breaker whose probe opens a stream that ends at once, which is handed on
    as a success, is left open. *)
Theorem empty_generation_reopens_breaker `{GrpcStatus} clock open sw w b :
  breaker w = Some b ->
  state (peek b (sw_ID sw)) = StateHalfOpen -> halfOpenLeft (peek b (sw_ID sw)) <> 0 ->
  open (length (calls w)) sw = Ok [] ->
  exists w' b', streamFirstToken clock open [sw] w = (GotStream [] sw None, w') /\
    breaker w' = Some b' /\ state (peek b' (sw_ID sw)) = StateOpen.
Proof.
  intros Hb Hst Hleft Hopen. unfold streamFirstToken. cbn [length first_loop].
  replace (0 <? Z.of_nat 0) with false by done. cbn [andb].
  unfold breaker_allow. rewrite Hb. set (id := sw_ID sw) in *.
  destruct (Allow_peek b id (clock (ticks w))) as [_ Pa].
  destruct (Allow b id (clock (ticks w))) as [e ba] eqn:Ea. cbn [fst snd] in Pa.
  replace (1 <? Z.of_nat 1) with false by done. rewrite andb_false_r.
  cbn [set_breaker calls]. rewrite Hopen. unfold recordFail.
  assert (IsExcluded ErrEOF = false) as -> by (unfold IsExcluded; by rewrite FromError_none).
  cbn [errors_Is bool_decide orb]. rewrite bool_decide_eq_true_2 by done. cbn [orb].
  eexists _, _. split; [reflexivity|]. unfold record_success, breaker_success, breaker_failure, count_open, set_breaker.
  cbn [breaker on_budget]. split; [reflexivity|].
  destruct (run_op_peek (Failure ba id (clock (S (ticks w)))) id OpSuccess id) as [_ P2].
  destruct (run_op_peek ba id (OpFailure (clock (S (ticks w)))) id) as [_ P1].
  rewrite decide_True in P1, P2 by done. cbn [run_op] in P1, P2. cbn [ticks].
  change (sw_ID sw) with id. rewrite P2, P1, Pa.
  destruct (peek b id) as [st r f s hol at_]. cbn in Hst, Hleft. subst st. cbn.
  destruct (Z.eqb_spec hol 0); [done|]. done.
Qed.

Section Answers.
Context `{GrpcStatus}.

(** The map by id holds, for every id present, one of the workers with it. *)
Lemma by_id_spec workers id :
  match by_id workers !! id with
  | Some sw => sw ∈ workers /\ sw_ID sw = id
  | None => id ∉ sw_ID <$> workers
  end.
Proof.
  unfold by_id. induction workers as [|x l IH] using rev_ind; [cbn; rewrite lookup_empty; set_solver|].
  rewrite foldl_app, fmap_app. cbn [foldl]. destruct (decide (sw_ID x = id)) as [<-|Hne].
  - rewrite lookup_insert_eq. split; [set_solver|done].
  - rewrite lookup_insert_ne by done.
    destruct (foldl _ ∅ l !! id) as [sw|]; [destruct IH; split; [set_solver|done]|set_solver].
Qed.

(** Where a collected answer comes from. *)
Definition answered_by (open : nat -> SelectedWorker -> result error stream) (w : world)
    (workers : list SelectedWorker) (text : string) (u : option usage) (finish : string) (sw : SelectedWorker) : Prop :=
  (sw ∈ workers /\ exists k, collect (open k sw) = Ok (text, u, finish)) \/
  (text = "" /\ u = None /\ finish = "" /\ budget_allow w = false /\
   ("" ∉ sw_ID <$> workers -> sw = zero_selected)).

Lemma collectWithFailover_answer clock open w max workers text u finish sw :
  collectWithFailover clock open (Some (w, max)) workers = (text, u, finish, Some sw, None) ->
  answered_by open w workers text u finish sw.
Proof.
  unfold collectWithFailover. destruct workers as [|w0 ws]; [done|]. set (workers := w0 :: ws) in *.
  destruct (Do clock (collect_call open workers) max (as_worker <$> workers) w) as [[used err] w'] eqn:Ed.
  destruct (Do_spec _ _ _ _ _ _ _ _ Ed) as (tried & Hc & [Hsub _ _ Hnil]).
  destruct err as [e|]; [done|]. destruct (Hnil eq_refl) as [(pre & -> & Hcall)|(-> & _ & -> & Hb)].
  - assert (used ∈ as_worker <$> workers) as Hu.
    { eapply elem_of_sublist; [|exact Hsub]. apply elem_of_app. right. by apply list_elem_of_singleton. }
    apply list_elem_of_fmap in Hu as (sw0 & -> & Hin). pose proof (by_id_spec workers (sw_ID sw0)) as Hl.
    rewrite Hc, drop_app_length, last_snoc. unfold collect_answer, collect_call in *.
    cbn [as_worker ID] in *. revert Hcall. destruct (by_id workers !! sw_ID sw0) as [sw'|] eqn:El.
    2:{ exfalso. apply Hl. apply list_elem_of_fmap. by exists sw0. }
    cbn [default from_option]. unfold Datatypes.id.
    replace (length (calls w ++ pre ++ [as_worker sw0])%list - 1)%nat with (length (calls w) + length pre)%nat
      by (rewrite !length_app; cbn; lia).
    destruct (collect (open (length (calls w) + length pre)%nat sw')) as [[[t us] f]|] eqn:Eo; [|done].
    intros _ [= <- <- <- <-]. left. split; [by destruct Hl|]. by eexists.
  - rewrite app_nil_r in Hc. rewrite Hc, drop_all. cbn [list.last no_worker ID].
    pose proof (by_id_spec workers "") as Hl. intros [= <- <- <- <-]. right. split_and!; try done.
    intros He. destruct (by_id workers !! "") as [sw'|]; [|done]. destruct Hl as [Hin Hid]. exfalso. apply He.
    apply list_elem_of_fmap. by exists sw'.
Qed.

(** When no breaker is open and every worker would give the same answer, it is
    given. *)
Lemma collectWithFailover_answers clock open b w max workers text u finish :
  frozen b w -> Forall (fun sw => state (peek b (sw_ID sw)) = StateClosed) workers -> 0 < max -> workers <> [] ->
  (forall n sw, sw ∈ workers -> collect (open n sw) = Ok (text, u, finish)) ->
  exists sw, sw ∈ workers /\ collectWithFailover clock open (Some (w, max)) workers = (text, u, finish, Some sw, None).
Proof.
  intros Hf Hall Hmax Hne Ho. destruct workers as [|w0 ws]; [done|]. unfold collectWithFailover. set (workers := w0 :: ws) in *.
  pose proof (by_id_spec workers (sw_ID w0)) as Hl. destruct (by_id workers !! sw_ID w0) as [sw|] eqn:El.
  2:{ exfalso. apply Hl. unfold workers. by left. }
  destruct Hl as [Hin Hid]. exists sw. split; [done|].
  assert (forall n, collect_call open workers n (as_worker w0) = None) as Hcall.
  { intros n. unfold collect_call. cbn [as_worker ID]. rewrite El. cbn [default from_option]. unfold Datatypes.id. by rewrite Ho. }
  destruct (Do_first clock (collect_call open workers) max b (as_worker w0) (as_worker <$> ws) w Hf) as (w' & Ed & Ec); [|done|apply Hcall|].
  { unfold workers in Hall. change (as_worker w0 :: (as_worker <$> ws)) with (as_worker <$> (w0 :: ws)). by apply list.Forall_fmap. }
  unfold workers at 2. rewrite fmap_cons, Ed, Ec, drop_app_length. cbn [list.last]. unfold collect_answer. cbn [as_worker ID]. rewrite El.
  cbn [default from_option]. unfold Datatypes.id. by rewrite Ho.
Qed.

(** Without an error there is always a worker to name. *)
Lemma collectWithFailover_names clock open w max workers text u finish :
  collectWithFailover clock open (Some (w, max)) workers = (text, u, finish, None, None) -> False.
Proof.
  unfold collectWithFailover. destruct workers as [|w0 ws]; [done|].
  destruct (Do clock _ max _ w) as [[used [e|]] w']; [done|].
  by destruct (match list.last _ with Some _ => _ | None => _ end) as [[? ?] ?].
Qed.

(** A collected answer comes from one of the ranked workers: when
    [collectWithFailover] reports no error, the text, usage and finish reason
    are those of a stream opened on the worker it names, unless nobody was
    called because the retry budget was exhausted, in which case the answer is
    empty and the worker is the zero value. *)
Theorem collected_answer_from_worker clock open w max workers text u finish sw :
  collectWithFailover clock open (Some (w, max)) workers = (text, u, finish, Some sw, None) ->
  (sw ∈ workers /\ exists k, collect (open k sw) = Ok (text, u, finish)) \/
  (text = "" /\ u = None /\ finish = "" /\ budget_allow w = false /\
   ("" ∉ sw_ID <$> workers -> sw = zero_selected)).
Proof. apply collectWithFailover_answer. Qed.
End Answers.

(** *** Witnesses *)

Definition sA : SelectedWorker := mkSelected "a" "a:1" ["m"].
Definition sB : SelectedWorker := mkSelected "b" "b:1" ["m"].

Lemma first_token_nil_panics_witness :
  exists w', @streamFirstToken plain_grpc at_101s (fun _ _ => Err ErrUnexpectedEOF) [sA; sB] (world_of a_spent drained_budget) =
      (NoStream None, w') /\ calls w' = [] /\ stream_response true false (NoStream None) (mkWriter [] None) = Panics.
Proof.
  apply (@first_token_nil_panics plain_grpc at_101s (fun _ _ => Err ErrUnexpectedEOF) sA sB []).
  - vm_compute. discriminate.
  - vm_compute. reflexivity.
Defined.

Definition half_open_b : BreakerMap :=
  mkBreakerMap {["a" := mkBreaker StateHalfOpen 0 0 0 2 0]} DefaultBreakerConfig None.

Lemma empty_generation_reopens_breaker_witness :
  exists w' b', @streamFirstToken plain_grpc at_101s (fun _ _ => Ok []) [sA] (world_of half_open_b full_budget) =
      (GotStream [] sA None, w') /\ breaker w' = Some b' /\ state (peek b' "a") = StateOpen.
Proof.
  apply (@empty_generation_reopens_breaker plain_grpc at_101s (fun _ _ => Ok []) sA _ half_open_b).
  - reflexivity.
  - reflexivity.
  - discriminate.
  - reflexivity.
Defined.

Definition hello : stream := [Ok (mkChunk "hel" false "" None); Ok (mkChunk "lo" true "stop" (Some (mkUsage 3 2)))].

Lemma collected_answer_from_worker_witness :
  (sA ∈ [sA; sB] /\ exists k, collect ((fun (_ : nat) (_ : SelectedWorker) => Ok hello : result error stream) k sA) =
     Ok ("hello", Some (mkUsageObj 3 2 5), "stop")) \/
  ("hello" = "" /\ Some (mkUsageObj 3 2 5) = None /\ "stop" = "" /\
   budget_allow fresh_world = false /\ ("" ∉ sw_ID <$> [sA; sB] -> sA = zero_selected)).
Proof.
  apply (@collected_answer_from_worker plain_grpc at_101s (fun _ _ => Ok hello) fresh_world 3 [sA; sB]).
  vm_compute. reflexivity.
Defined.

(** A stream that breaks after two of its texts. *)
Definition broken : stream :=
  [Ok (mkChunk "hel" false "" None); Ok (mkChunk "" false "" None); Ok (mkChunk "lo" false "" None); Err ErrUnexpectedEOF].

Lemma stream_mirrors_collect_witness :
  stream_response true true (GotStream (tail broken) sA (Some (mkChunk "hel" false "" None))) (mkWriter [] None) =
    Returns (Some sA, None, mkWriter [SRole; SContent "hel"; SContent "lo"; SError ErrUnexpectedEOF] None).
Proof.
  apply (stream_mirrors_collect true true broken sA (Some (mkChunk "hel" false "" None))).
  - intros [|? [|? [|? [|? [|? ?]]]]] e rest E; try discriminate. by injection E as <- <-.
  - by eexists.
Defined.
