(* ===== verification/GatewayHandler.v ===== *)
(** * The completion handlers (services/gateway/handler.go: chatCompletions,
      completions, tryActivate, observeLatency; activator.go)

    The two POST handlers from the bound request to the response written and
    the status recorded by the deferred metrics and audit.  Ranking,
    activation, admission and dispatch are the components of the other files,
    given here as functions of what the handler passes them. *)

From S2P Require Import Prelude Float64 GoStrings Errors Failover Inflight Routing Rendezvous Candidates Chain GatewaySelect GatewayDispatch.

Record ChatRequest := mkChat {
  cr_Model : string;
  cr_Messages : list chatMessage;
  cr_Stream : bool;
  cr_IncludeUsage : bool;
  cr_Temperature : option float32;
  cr_TopP : option float32;
  cr_MaxTokens : option Z;
  cr_MaxCompletionTokens : option Z
}.

Record TextRequest := mkText {
  tr_Model : string;
  tr_Prompt : json;
  tr_Stream : bool;
  tr_IncludeUsage : bool;
  tr_Temperature : option float32;
  tr_TopP : option float32;
  tr_MaxTokens : option Z
}.

(** What is written to the client: an OpenAI error, an admission rejection
    with its Retry-After, a JSON completion, or an event stream. *)
Inductive response : Type :=
| RError (e : HttpError)
| RSaturated (retryAfter : Z)
| RCompletion (text finish : string) (u : usage)
| RStream (w : writer).

Definition response_status (r : response) : Z :=
  match r with RError e => http_status e | RSaturated _ => 429 | _ => 200 end.

(** The status, worker and error of the deferred metrics and audit; [None]
    when the handler returns before the defer statement. *)
Record recorded := mkRecorded { rec_Status : Z; rec_Worker : string; rec_Error : option error }.

Definition bad_request : response := RError (mkHttp 400 "invalid_request_error" "invalid_request").

(** The rest of the gateway, as the handlers see it. *)
Record backend := mkBackend {
  (** [rankWorkers], before (false) and after (true) an activation *)
  be_rank : bool -> string -> string -> result error (list SelectedWorker);
  be_activate : string -> bool;
  be_admit : list SelectedWorker -> option (list SelectedWorker);
  (** [streamFirstToken] *)
  be_first : list SelectedWorker -> GenerateRequest -> first_token;
  be_collect : list SelectedWorker -> GenerateRequest -> string * option usage * string * option SelectedWorker * option error;
  (** how many writes the client takes *)
  be_left : option nat
}.

Section Handlers.
Context `{UnicodeTables} `{GrpcStatus}.
Variable retryAfterSec : Z.

(** [writeAdmissionRejected] *)
Definition writeAdmissionRejected : response := RSaturated (if retryAfterSec <=? 0 then 2 else retryAfterSec).

(** The selection-error branch.  The status computed there is a new variable
    that shadows the one the deferred function records. *)
Definition select_failed (e : error) (statusCode : Z) : response * recorded :=
  let r := if errors_Is e ErrAdmissionRejected then writeAdmissionRejected
           else RError (selectErrorStatus e) in
  (r, mkRecorded statusCode "" (Some e)).

Definition worker_id (w : option SelectedWorker) : string :=
  match w with Some sw => sw_ID sw | None => "" end.

(** After admission: the streaming and the collecting branch. *)
Definition serve_stream (be : backend) (role : bool) (includeUsage : bool) (workers : list SelectedWorker)
    (genReq : GenerateRequest) : go (response * recorded) :=
  let ft := be_first be workers genReq in
  match stream_response role includeUsage ft (mkWriter [] (be_left be)) with
  | Panics => Panics
  | Returns (worker, err, w) =>
      match err, ft with
      | Some e, NoStream _ =>
          let h := mapGRPCError e in
          Returns (RError h, mkRecorded (http_status h) (worker_id worker) (Some e))
      | _, _ => Returns (RStream w, mkRecorded 200 (worker_id worker) err)
      end
  end.

Definition serve_collect (be : backend) (workers : list SelectedWorker) (genReq : GenerateRequest)
    : response * recorded :=
  let '(text, u, finish, worker, err) := be_collect be workers genReq in
  match err with
  | Some e =>
      let h := mapGRPCError e in
      (RError h, mkRecorded (http_status h) (worker_id worker) (Some e))
  | None =>
      (RCompletion text (if String.eqb finish "" then "stop" else finish) (usageOrZero u),
       mkRecorded 200 (worker_id worker) None)
  end.

(** [chatCompletions]: [bound] is the outcome of [ShouldBindJSON], [affinity]
    the X-Session-Affinity header. *)
Definition chatCompletions (be : backend) (bound : option ChatRequest) (affinity : string)
    : go (response * option recorded) :=
  match bound with
  | None => Returns (bad_request, None)
  | Some req =>
      if String.eqb (cr_Model req) "" then Returns (bad_request, None)
      else match cr_Messages req with
      | [] => Returns (bad_request, None)
      | messages =>
          let statusCode := 200 in
          let routePrompt := if negb (String.eqb affinity "") then affinity else messagesToPrompt messages in
          let ranked := be_rank be false (cr_Model req) routePrompt in
          let ranked := match ranked with
                        | Err _ => if be_activate be (cr_Model req)
                                   then be_rank be true (cr_Model req) routePrompt else ranked
                        | Ok _ => ranked
                        end in
          match ranked with
          | Err e => let '(r, d) := select_failed e statusCode in Returns (r, Some d)
          | Ok workers =>
              match be_admit be workers with
              | None => Returns (writeAdmissionRejected, Some (mkRecorded 429 "" (Some (ENew "fleet_saturated"))))
              | Some workers =>
                  let genReq := toWorkerRequest (cr_Model req) (messagesToPrompt messages) (cr_Temperature req)
                                  (cr_TopP req) (maxTokensFromChat (cr_MaxCompletionTokens req) (cr_MaxTokens req)) in
                  if cr_Stream req then
                    match serve_stream be true (cr_IncludeUsage req) workers genReq with
                    | Panics => Panics
                    | Returns (r, d) => Returns (r, Some d)
                    end
                  else let '(r, d) := serve_collect be workers genReq in Returns (r, Some d)
              end
          end
      end
  end.

(** [completions]: no activation, and of the record only the status, for the
    metrics. *)
Definition completions (be : backend) (bound : option TextRequest) (affinity : string)
    : go (response * option Z) :=
  match bound with
  | None => Returns (bad_request, None)
  | Some req =>
      if String.eqb (tr_Model req) "" then Returns (bad_request, None)
      else match promptFromCompletions (tr_Prompt req) with
      | Err _ => Returns (bad_request, None)
      | Ok genPrompt =>
          if String.eqb genPrompt "" then Returns (bad_request, None)
          else
            let routePrompt := if negb (String.eqb affinity "") then affinity else genPrompt in
            match be_rank be false (tr_Model req) routePrompt with
            | Err e => let '(r, d) := select_failed e 200 in Returns (r, Some (rec_Status d))
            | Ok workers =>
                match be_admit be workers with
                | None => Returns (writeAdmissionRejected, Some 429)
                | Some workers =>
                    let genReq := toWorkerRequest (tr_Model req) genPrompt (tr_Temperature req) (tr_TopP req)
                                    (tr_MaxTokens req) in
                    if tr_Stream req then
                      match serve_stream be false (tr_IncludeUsage req) workers genReq with
                      | Panics => Panics
                      | Returns (r, d) => Returns (r, Some (rec_Status d))
                      end
                    else let '(r, d) := serve_collect be workers genReq in Returns (r, Some (rec_Status d))
                end
            end
      end
  end.
End Handlers.

(** ** The assembled gateway *)

Record Handler := mkHandler {
  h_selector : Selector;
  (** the selector as it is after an activation *)
  h_activated : Selector;
  (** [tryActivate]: the answer of the activator and of [waitForCapacity] *)
  h_activate : string -> bool;
  h_inflight : option counters;
  h_failover : option (world * Z);
  h_admissionLimit : Z;
  h_retryAfterSec : Z;
  h_maxAttempts : Z
}.

(** [NewHandler]: the defaults of the configuration. *)
Definition NewHandler (selector : Selector) (inflight : option counters) (failover : option (world * Z))
    (admissionLimit retryAfterSec maxAttempts : Z) : Handler :=
  mkHandler selector selector (fun _ => false) inflight failover
    (if admissionLimit <=? 0 then 4 else admissionLimit)
    (if retryAfterSec <=? 0 then 2 else retryAfterSec)
    (if maxAttempts <=? 0 then 3 else maxAttempts).

(** [tryAdmit]: whether [TryTrack], uninterrupted, takes a slot. *)
Definition tryAdmit (h : Handler) (workerID : string) : bool :=
  match h_inflight h with
  | None => true
  | Some t => (h_admissionLimit h <=? 0) || (Inflight.Get t workerID <? h_admissionLimit h)
  end.

(** A nil failover behaves as one without breaker and budget. *)
Definition failover_world (h : Handler) : world :=
  match h_failover h with Some (w, _) => w | None => mkWorld None None None 0 [] end.

Section Gateway.
Context `{UnicodeTables} `{GrpcStatus} `{Hash64}.
Variable clock : nat -> Z.
(** [openGenerate]: the n-th stream opened for a request, on a worker *)
Variable open : GenerateRequest -> nat -> SelectedWorker -> result error stream.

Definition rankWorkers (s : Selector) (maxAttempts : Z) (model prompt : string) : result error (list SelectedWorker) :=
  (SelectWorkers s model prompt maxAttempts).1.

Definition gateway_backend (h : Handler) (left : option nat) : backend :=
  mkBackend
    (fun activated => rankWorkers (if activated then h_activated h else h_selector h) (h_maxAttempts h))
    (h_activate h)
    (admitFromRanked (tryAdmit h))
    (fun workers genReq => (streamFirstToken clock (open genReq) workers (failover_world h)).1)
    (fun workers genReq => collectWithFailover clock (open genReq) (h_failover h) workers)
    left.
End Gateway.

(** ** Properties *)

Section HandlerProperties.
Context `{UnicodeTables} `{GrpcStatus}.
Variable retryAfterSec : Z.

Lemma select_status_not_ok e : http_status (selectErrorStatus e) <> 200.
Proof. unfold selectErrorStatus. by case_ifs. Qed.

Lemma grpc_status_not_ok e : http_status (mapGRPCError e) <> 200.
Proof. unfold mapGRPCError. destruct (FromError e) as [[]|]; done. Qed.

(** A chat request whose selection fails is answered 429 with a
    Retry-After when the fleet is saturated and with the status of its
    selection error otherwise, never 200, but the deferred metrics and audit
    record the status 200: the status computed in that branch shadows the one
    they read. *)
Theorem selection_error_recorded_ok be req affinity e :
  cr_Model req <> "" -> cr_Messages req <> [] ->
  (forall p, be_rank be false (cr_Model req) p = Err e) -> be_activate be (cr_Model req) = false ->
  exists r d, chatCompletions retryAfterSec be (Some req) affinity = Returns (r, Some d) /\
    response_status r = (if errors_Is e ErrAdmissionRejected then 429 else http_status (selectErrorStatus e)) /\
    response_status r <> 200 /\ rec_Status d = 200.
Proof.
  intros Hm Hs Hr Ha. unfold chatCompletions.
  destruct (String.eqb_spec (cr_Model req) ""); [done|]. destruct (cr_Messages req) as [|m ms]; [done|].
  cbn zeta. rewrite Hr, Ha. unfold select_failed.
  eexists _, _. split; [reflexivity|].
  destruct (errors_Is e ErrAdmissionRejected); cbn; auto using select_status_not_ok.
Qed.
End HandlerProperties.

(** ** The collecting path, end to end *)

Section EndToEnd.
Context `{UnicodeTables} `{GrpcStatus} `{Hash64}.
Variable clock : nat -> Z.
Variable open : GenerateRequest -> nat -> SelectedWorker -> result error stream.

(** The worker request of a chat request. *)
Definition chat_genReq (req : ChatRequest) : GenerateRequest :=
  toWorkerRequest (cr_Model req) (messagesToPrompt (cr_Messages req)) (cr_Temperature req) (cr_TopP req)
    (maxTokensFromChat (cr_MaxCompletionTokens req) (cr_MaxTokens req)).

Definition chat_route (req : ChatRequest) (affinity : string) : string :=
  if negb (String.eqb affinity "") then affinity else messagesToPrompt (cr_Messages req).

(** A worker the scheduler may pick for a request, by the snapshot of [s]. *)
Definition schedulable (s : Selector) (admission : Z) (model prompt : string) (w : SelectedWorker) : Prop :=
  exists snap c, sel_holder s = Some snap /\
    c ∈ CandidatesFromSnapshot (Some snap) (sel_inflight s) (sel_latency s) /\
    sw_ID w = WorkerID c /\ sw_Endpoint w = Endpoint c /\
    eligible s model prompt c /\ admits admission c = true.

Lemma rankWorkers_schedulable s admission maxAttempts model prompt ws :
  Filters (sel_chain s) = standard_filters admission ->
  rankWorkers s maxAttempts model prompt = Ok ws ->
  Forall (schedulable s admission model prompt) ws.
Proof.
  intros Hf Hr. pose proof (SelectWorkers_sound s admission model prompt maxAttempts Hf) as Hs.
  unfold rankWorkers in Hr. rewrite Hr in Hs. destruct Hs as (snap & Hh & _ & _ & Hall).
  apply list.Forall_forall. intros w Hw. destruct (Hall w Hw) as (c & ? & ? & ? & ? & ?). by exists snap, c.
Qed.

(** The ranking the handler dispatches: of the selector before or after an
    activation. *)
Lemma ranked_schedulable h left admission req prompt ws :
  (forall s, s = h_selector h \/ s = h_activated h -> Filters (sel_chain s) = standard_filters admission) ->
  let be := gateway_backend clock open h left in
  (match be_rank be false (cr_Model req) prompt with
   | Err _ => if be_activate be (cr_Model req) then be_rank be true (cr_Model req) prompt
              else be_rank be false (cr_Model req) prompt
   | Ok _ => be_rank be false (cr_Model req) prompt
   end) = Ok ws ->
  exists s, (s = h_selector h \/ s = h_activated h) /\ Forall (schedulable s admission (cr_Model req) prompt) ws.
Proof.
  intros Hf be. cbn [be gateway_backend be_rank be_activate].
  destruct (rankWorkers (h_selector h) (h_maxAttempts h) (cr_Model req) prompt) as [ws0|e] eqn:E0.
  - intros [= <-]. exists (h_selector h). split; [by left|].
    eapply rankWorkers_schedulable; [apply Hf; by left|exact E0].
  - destruct (h_activate h (cr_Model req)); [|done]. intros E1. exists (h_activated h). split; [by right|].
    eapply rankWorkers_schedulable; [apply Hf; by right|exact E1].
Qed.

(** C2: the collecting path of the assembled gateway, end to end: a chat
    completion that is answered with a text was generated by a worker that
    some snapshot the selector held shows healthy, ready, serving the model
    the request resolves to, assigned to it by the catalog if there is one,
    and below the admission limit; the text, finish reason and usage are those
    of a stream opened on that worker for this request, and the audit names
    it.  The only other answer without error is the empty one, given when the
    retry budget is exhausted. *)
Theorem chat_answer_from_eligible_worker h left w max admission req affinity text finish u d :
  (forall s, s = h_selector h \/ s = h_activated h -> Filters (sel_chain s) = standard_filters admission) ->
  h_failover h = Some (w, max) -> cr_Stream req = false ->
  chatCompletions (h_retryAfterSec h) (gateway_backend clock open h left) (Some req) affinity =
    Returns (RCompletion text finish u, d) ->
  exists s, (s = h_selector h \/ s = h_activated h) /\
    exists sw us fin, d = Some (mkRecorded 200 (sw_ID sw) None) /\ finish = stop_of fin /\ u = usageOrZero us /\
      ((schedulable s admission (cr_Model req) (chat_route req affinity) sw /\
        exists k, collect (open (chat_genReq req) k sw) = Ok (text, us, fin)) \/
       (text = "" /\ us = None /\ fin = "" /\ budget_allow w = false)).
Proof.
  intros Hf Hfo Hst. unfold chatCompletions.
  destruct (String.eqb (cr_Model req) ""); [by intros [=]|].
  destruct (cr_Messages req) as [|m ms] eqn:Em; [by intros [=]|]. rewrite <- Em. cbn zeta.
  change (if negb (String.eqb affinity "") then affinity else messagesToPrompt (cr_Messages req))
    with (chat_route req affinity).
  destruct (match be_rank _ false _ _ with Ok _ => _ | Err _ => _ end) as [ws|e] eqn:Er.
  2:{ unfold select_failed. destruct (errors_Is e ErrAdmissionRejected); by intros [=]. }
  destruct (ranked_schedulable h left admission req (chat_route req affinity) ws Hf Er) as (s & Hs & Hall).
  cbn [gateway_backend be_admit be_collect]. pose proof (admit_loop_spec (tryAdmit h) [] ws) as Ha.
  unfold admitFromRanked. destruct (admit_loop (tryAdmit h) [] ws) as [out|]; [|by intros [=]].
  rewrite Hst. unfold serve_collect. cbn [be_collect gateway_backend]. fold (chat_genReq req). rewrite Hfo.
  destruct (collectWithFailover clock (open (chat_genReq req)) (Some (w, max)) out) as [[[[t us] fin] wk] [e|]] eqn:Ec;
    [by intros [=]|].
  intros [= <- <- <- <-]. exists s. split; [done|].
  destruct wk as [sw|]; [|exfalso; revert Ec; apply collectWithFailover_names].
  exists sw, us, fin. split_and!; try done.
  apply collectWithFailover_answer in Ec as [[Hin Hk]|(-> & -> & -> & Hb & _)]; [left|by right].
  split; [|exact Hk]. destruct Ha as (w1 & skipped & rest & -> & _ & _ & ->).
  rewrite list.Forall_forall in Hall. apply Hall. set_solver.
Qed.
End EndToEnd.

(** *** Witnesses *)

Definition hello_chat : ChatRequest := mkChat "m#a" [mkMessage "user" "hi"] false false None None None None.

Definition failing_backend : backend :=
  mkBackend (fun _ _ _ => Err ErrNoSnapshot) (fun _ => false) (fun ws => Some ws) (fun _ _ => NoStream None)
    (fun _ _ => ("", None, "", None, None)) None.

Lemma selection_error_recorded_ok_witness :
  exists r d, @chatCompletions ascii_tables plain_grpc 2 failing_backend (Some hello_chat) "" = Returns (r, Some d) /\
    response_status r = 503 /\ response_status r <> 200 /\ rec_Status d = 200.
Proof.
  apply (@selection_error_recorded_ok ascii_tables plain_grpc 2 failing_backend hello_chat "" ErrNoSnapshot).
  - discriminate.
  - discriminate.
  - reflexivity.
  - reflexivity.
Defined.

Definition demo_handler : Handler := NewHandler demo_selector (Some ∅) (Some (fresh_world, 3)) 0 0 0.

Lemma chat_answer_from_eligible_worker_witness :
  exists text finish u d,
    @chatCompletions ascii_tables plain_grpc (h_retryAfterSec demo_handler)
      (@gateway_backend ascii_tables plain_grpc sum_bytes at_101s (fun _ _ _ => Ok hello) demo_handler None)
      (Some hello_chat) "" = Returns (RCompletion text finish u, d) /\ text = "hello" /\
    exists s, (s = h_selector demo_handler \/ s = h_activated demo_handler) /\
      exists sw us fin, d = Some (mkRecorded 200 (sw_ID sw) None) /\ finish = stop_of fin /\ u = usageOrZero us /\
        ((@schedulable ascii_tables s 4 "m#a" (chat_route hello_chat "") sw /\
          exists k, collect ((fun (_ : GenerateRequest) (_ : nat) (_ : SelectedWorker) => Ok hello) (@chat_genReq ascii_tables hello_chat) k sw)
                    = Ok (text, us, fin)) \/
         (text = "" /\ us = None /\ fin = "" /\ budget_allow fresh_world = false)).
Proof.
  eexists _, _, _, _. split; [vm_compute; reflexivity|]. split; [reflexivity|].
  apply (@chat_answer_from_eligible_worker ascii_tables plain_grpc sum_bytes at_101s
    (fun _ _ _ => Ok hello) demo_handler None fresh_world 3 4 hello_chat "").
  - intros s [-> | ->]; reflexivity.
  - reflexivity.
  - reflexivity.
  - vm_compute. reflexivity.
Defined.
