(* ===== verification/GatewayWire.v ===== *)
(** * The documents of the gateway (services/gateway/types.go, sse.go,
      errors.go, and what handler.go writes and binds)

    The bytes of the API: the request documents as ShouldBindJSON reads them,
    the chunks of an event stream, the completions, the list of models and the
    errors as they are written.  Identifiers, the time and the text of an
    error are arguments.  gin's [c.JSON] writes what [json.Marshal] returns. *)

From Stdlib Require Import Ascii.
From S2P Require Import Prelude Float64 GoStrings GoFormat Json Sha256 JsonDecode Strconv JsonFloat Errors Routing Rendezvous Candidates Chain GatewaySelect GatewayDispatch GatewayHandler.

(** ** Requests *)

(** [chatCompletionRequest] *)
Record chatCompletionRequest := mkChatReq {
  q_Model : string;
  q_Messages : slice chatMessage;
  q_Stream : bool;
  q_StreamOptions : option bool;
  q_Temperature : option float32;
  q_TopP : option float32;
  q_MaxTokens : option Z;
  q_MaxCompletionTokens : option Z
}.

Definition zero_chat : chatCompletionRequest := mkChatReq "" nil_slice false None None None None None.

Definition chatMessage_fields : fields chatMessage :=
  [("role", fun m d => option_map (fun s => mkMessage s (Content m)) (dec_string (Role m) d));
   ("content", fun m d => option_map (mkMessage (Role m)) (dec_string (Content m) d))].

(** [streamOptions]: its one field. *)
Definition streamOptions_fields : fields bool := [("include_usage", dec_bool)].

Definition dec_streamOptions : decoder (option bool) := dec_ptr false (dec_struct streamOptions_fields).

Definition chat_fields : fields chatCompletionRequest :=
  [("model", fun r d => option_map (fun x => mkChatReq x (q_Messages r) (q_Stream r) (q_StreamOptions r)
      (q_Temperature r) (q_TopP r) (q_MaxTokens r) (q_MaxCompletionTokens r)) (dec_string (q_Model r) d));
   ("messages", fun r d => option_map (fun x => mkChatReq (q_Model r) x (q_Stream r) (q_StreamOptions r)
      (q_Temperature r) (q_TopP r) (q_MaxTokens r) (q_MaxCompletionTokens r))
      (dec_slice (mkMessage "" "") (dec_struct chatMessage_fields) (q_Messages r) d));
   ("stream", fun r d => option_map (fun x => mkChatReq (q_Model r) (q_Messages r) x (q_StreamOptions r)
      (q_Temperature r) (q_TopP r) (q_MaxTokens r) (q_MaxCompletionTokens r)) (dec_bool (q_Stream r) d));
   ("stream_options", fun r d => option_map (fun x => mkChatReq (q_Model r) (q_Messages r) (q_Stream r) x
      (q_Temperature r) (q_TopP r) (q_MaxTokens r) (q_MaxCompletionTokens r)) (dec_streamOptions (q_StreamOptions r) d));
   ("temperature", fun r d => option_map (fun x => mkChatReq (q_Model r) (q_Messages r) (q_Stream r) (q_StreamOptions r)
      x (q_TopP r) (q_MaxTokens r) (q_MaxCompletionTokens r)) (dec_ptr f_zero dec_float32 (q_Temperature r) d));
   ("top_p", fun r d => option_map (fun x => mkChatReq (q_Model r) (q_Messages r) (q_Stream r) (q_StreamOptions r)
      (q_Temperature r) x (q_MaxTokens r) (q_MaxCompletionTokens r)) (dec_ptr f_zero dec_float32 (q_TopP r) d));
   ("max_tokens", fun r d => option_map (fun x => mkChatReq (q_Model r) (q_Messages r) (q_Stream r) (q_StreamOptions r)
      (q_Temperature r) (q_TopP r) x (q_MaxCompletionTokens r)) (dec_ptr 0 dec_int32 (q_MaxTokens r) d));
   ("max_completion_tokens", fun r d => option_map (mkChatReq (q_Model r) (q_Messages r) (q_Stream r) (q_StreamOptions r)
      (q_Temperature r) (q_TopP r) (q_MaxTokens r)) (dec_ptr 0 dec_int32 (q_MaxCompletionTokens r) d))].

(** [completionRequest]; [Prompt any] is set to what the document holds. *)
Record completionRequest := mkTextReq {
  t_Model : string;
  t_Prompt : json;
  t_Stream : bool;
  t_StreamOptions : option bool;
  t_Temperature : option float32;
  t_TopP : option float32;
  t_MaxTokens : option Z
}.

Definition zero_text : completionRequest := mkTextReq "" JOther false None None None None.

(** The dynamic value, as far as [promptFromCompletions] looks. *)
Fixpoint any_value (d : doc) : json :=
  match d with DStr s => JString s | DArr l => JArray (List.map any_value l) | _ => JOther end.

Definition text_fields : fields completionRequest :=
  [("model", fun r d => option_map (fun x => mkTextReq x (t_Prompt r) (t_Stream r) (t_StreamOptions r)
      (t_Temperature r) (t_TopP r) (t_MaxTokens r)) (dec_string (t_Model r) d));
   ("prompt", fun r d => Some (mkTextReq (t_Model r) (any_value d) (t_Stream r) (t_StreamOptions r)
      (t_Temperature r) (t_TopP r) (t_MaxTokens r)));
   ("stream", fun r d => option_map (fun x => mkTextReq (t_Model r) (t_Prompt r) x (t_StreamOptions r)
      (t_Temperature r) (t_TopP r) (t_MaxTokens r)) (dec_bool (t_Stream r) d));
   ("stream_options", fun r d => option_map (fun x => mkTextReq (t_Model r) (t_Prompt r) (t_Stream r) x
      (t_Temperature r) (t_TopP r) (t_MaxTokens r)) (dec_streamOptions (t_StreamOptions r) d));
   ("temperature", fun r d => option_map (fun x => mkTextReq (t_Model r) (t_Prompt r) (t_Stream r) (t_StreamOptions r)
      x (t_TopP r) (t_MaxTokens r)) (dec_ptr f_zero dec_float32 (t_Temperature r) d));
   ("top_p", fun r d => option_map (fun x => mkTextReq (t_Model r) (t_Prompt r) (t_Stream r) (t_StreamOptions r)
      (t_Temperature r) x (t_MaxTokens r)) (dec_ptr f_zero dec_float32 (t_TopP r) d));
   ("max_tokens", fun r d => option_map (mkTextReq (t_Model r) (t_Prompt r) (t_Stream r) (t_StreamOptions r)
      (t_Temperature r) (t_TopP r)) (dec_ptr 0 dec_int32 (t_MaxTokens r) d))].

Definition bind_chat (body : string) : option ChatRequest :=
  match first_value body with
  | None => None
  | Some d =>
      option_map (fun r =>
        mkChat (q_Model r) (contents (q_Messages r)) (q_Stream r) (default false (q_StreamOptions r))
          (q_Temperature r) (q_TopP r) (q_MaxTokens r) (q_MaxCompletionTokens r))
        (dec_struct chat_fields zero_chat d)
  end.

Definition bind_text (body : string) : option TextRequest :=
  match first_value body with
  | None => None
  | Some d =>
      option_map (fun r =>
        mkText (t_Model r) (t_Prompt r) (t_Stream r) (default false (t_StreamOptions r))
          (t_Temperature r) (t_TopP r) (t_MaxTokens r))
        (dec_struct text_fields zero_text d)
  end.

(** ** Responses *)

(** A member left out by omitempty. *)
Definition omit_empty (k v : string) : list (string * doc) := if String.eqb v "" then [] else [(k, DStr v)].

Definition pointer {A} (enc : A -> doc) (p : option A) : doc := match p with Some a => enc a | None => DNull end.

Definition usage_doc (u : usage) : doc :=
  DObj [("prompt_tokens", DInt (PromptTokens u)); ("completion_tokens", DInt (CompletionTokens u));
        ("total_tokens", DInt (TotalTokens u))].

Definition omit_usage (u : option usage) : list (string * doc) :=
  match u with Some x => [("usage", usage_doc x)] | None => [] end.

Record chatDelta := mkDelta { dl_Role : string; dl_Content : string }.

Definition chatDelta_doc (d : chatDelta) : doc :=
  DObj (omit_empty "role" (dl_Role d) ++ omit_empty "content" (dl_Content d)).

Record chatChunkChoice := mkChunkChoice { cc_Index : Z; cc_Delta : chatDelta; cc_FinishReason : option string }.

Definition chatChunkChoice_doc (c : chatChunkChoice) : doc :=
  DObj [("index", DInt (cc_Index c)); ("delta", chatDelta_doc (cc_Delta c)); ("finish_reason", pointer DStr (cc_FinishReason c))].

Record chatCompletionChunk := mkCCC {
  ck_ID : string; ck_Object : string; ck_Created : Z; ck_Model : string; ck_Choices : list chatChunkChoice;
  ck_Usage : option usage
}.

Definition chatCompletionChunk_doc (c : chatCompletionChunk) : doc :=
  DObj ([("id", DStr (ck_ID c)); ("object", DStr (ck_Object c)); ("created", DInt (ck_Created c));
         ("model", DStr (ck_Model c)); ("choices", DArr (List.map chatChunkChoice_doc (ck_Choices c)))] ++
        omit_usage (ck_Usage c)).

Definition chatMessage_doc (m : chatMessage) : doc := DObj [("role", DStr (Role m)); ("content", DStr (Content m))].

Record chatResponseChoice := mkRespChoice { rc_Index : Z; rc_Message : chatMessage; rc_FinishReason : string }.

Definition chatResponseChoice_doc (c : chatResponseChoice) : doc :=
  DObj [("index", DInt (rc_Index c)); ("message", chatMessage_doc (rc_Message c)); ("finish_reason", DStr (rc_FinishReason c))].

Record chatCompletionResponse := mkCCR {
  cp_ID : string; cp_Object : string; cp_Created : Z; cp_Model : string; cp_Choices : list chatResponseChoice; cp_Usage : usage
}.

Definition chatCompletionResponse_doc (r : chatCompletionResponse) : doc :=
  DObj [("id", DStr (cp_ID r)); ("object", DStr (cp_Object r)); ("created", DInt (cp_Created r));
        ("model", DStr (cp_Model r)); ("choices", DArr (List.map chatResponseChoice_doc (cp_Choices r)));
        ("usage", usage_doc (cp_Usage r))].

Record textCompletionChoice := mkTextChoice { tc_Index : Z; tc_Text : string; tc_FinishReason : option string }.

Definition textCompletionChoice_doc (c : textCompletionChoice) : doc :=
  DObj [("index", DInt (tc_Index c)); ("text", DStr (tc_Text c)); ("finish_reason", pointer DStr (tc_FinishReason c))].

Record textCompletionChunk := mkTCC {
  tk_ID : string; tk_Object : string; tk_Created : Z; tk_Model : string; tk_Choices : list textCompletionChoice;
  tk_Usage : option usage
}.

Definition textCompletionChunk_doc (c : textCompletionChunk) : doc :=
  DObj ([("id", DStr (tk_ID c)); ("object", DStr (tk_Object c)); ("created", DInt (tk_Created c));
         ("model", DStr (tk_Model c)); ("choices", DArr (List.map textCompletionChoice_doc (tk_Choices c)))] ++
        omit_usage (tk_Usage c)).

Record textCompletionResponse := mkTCR {
  tp_ID : string; tp_Object : string; tp_Created : Z; tp_Model : string; tp_Choices : list textCompletionChoice; tp_Usage : usage
}.

Definition textCompletionResponse_doc (r : textCompletionResponse) : doc :=
  DObj [("id", DStr (tp_ID r)); ("object", DStr (tp_Object r)); ("created", DInt (tp_Created r));
        ("model", DStr (tp_Model r)); ("choices", DArr (List.map textCompletionChoice_doc (tp_Choices r)));
        ("usage", usage_doc (tp_Usage r))].

Record modelObject := mkModelObject { mo_ID : string; mo_Object : string; mo_Created : Z; mo_OwnedBy : string }.

Definition modelObject_doc (m : modelObject) : doc :=
  DObj [("id", DStr (mo_ID m)); ("object", DStr (mo_Object m)); ("created", DInt (mo_Created m)); ("owned_by", DStr (mo_OwnedBy m))].

(** [modelsResponse]: a nil slice is null. *)
Definition modelsResponse_doc (object : string) (data : option (list modelObject)) : doc :=
  DObj [("object", DStr object); ("data", pointer (fun l => DArr (List.map modelObject_doc l)) data)].

Record openAIError := mkOpenAIError { oe_Message : string; oe_Type : string; oe_Code : string }.

Definition openAIErrorBody_doc (e : openAIError) : doc :=
  DObj [("error", DObj [("message", DStr (oe_Message e)); ("type", DStr (oe_Type e)); ("code", DStr (oe_Code e))])].

(** ** Server-sent events *)

Definition sse_line (payload : string) : string := "data: " ++ payload ++ newline ++ newline.

(** [writeSSEData], [writeSSEDone], [writeSSEError]: the bytes they write. *)
Definition writeSSEData (v : doc) : string := sse_line (print v).
Definition writeSSEDone : string := sse_line "[DONE]".
Definition stream_error_doc (message : string) : doc :=
  openAIErrorBody_doc (mkOpenAIError message "server_error" "stream_error").
Definition writeSSEError (message : string) : string := writeSSEData (stream_error_doc message).

Definition setSSEHeaders : list (string * string) :=
  [("Content-Type", "text/event-stream"); ("Cache-Control", "no-cache"); ("Connection", "keep-alive");
   ("X-Accel-Buffering", "no")].

(** What every document of one response shares. *)
Record envelope := mkEnv { env_id : string; env_created : Z; env_model : string }.

(** [newCompletionID]: six random bytes. *)
Definition newCompletionID (prefix : string) (random : list Z) : string :=
  prefix ++ "-" ++ EncodeToString random.

Section Events.
Variable env : envelope.
(** [err.Error()] *)
Variable message : error -> string.

Definition chat_chunk (choices : list chatChunkChoice) (u : option usage) : chatCompletionChunk :=
  mkCCC (env_id env) "chat.completion.chunk" (env_created env) (env_model env) choices u.

(** The documents of the events of [streamChatFailover]; the last event has
    none. *)
Definition chat_doc (ev : sse) : option doc :=
  match ev with
  | SRole => Some (chatCompletionChunk_doc (chat_chunk [mkChunkChoice 0 (mkDelta "assistant" "") None] None))
  | SContent text => Some (chatCompletionChunk_doc (chat_chunk [mkChunkChoice 0 (mkDelta "" text) None] None))
  | SStop fr => Some (chatCompletionChunk_doc (chat_chunk [mkChunkChoice 0 (mkDelta "" "") (Some fr)] None))
  | SUsage u => Some (chatCompletionChunk_doc (chat_chunk [] (Some u)))
  | SError e => Some (stream_error_doc (message e))
  | SDone => None
  end.

Definition chat_event (ev : sse) : string :=
  match chat_doc ev with Some d => writeSSEData d | None => writeSSEDone end.

Definition text_chunk_of (choices : list textCompletionChoice) (u : option usage) : textCompletionChunk :=
  mkTCC (env_id env) "text_completion" (env_created env) (env_model env) choices u.

(** The events of [streamTextFailover], which opens with no role. *)
Definition text_event (ev : sse) : string :=
  match ev with
  | SRole => ""
  | SContent text => writeSSEData (textCompletionChunk_doc (text_chunk_of [mkTextChoice 0 text None] None))
  | SStop fr => writeSSEData (textCompletionChunk_doc (text_chunk_of [mkTextChoice 0 "" (Some fr)] None))
  | SUsage u => writeSSEData (textCompletionChunk_doc (text_chunk_of [] (Some u)))
  | SError e => writeSSEError (message e)
  | SDone => writeSSEDone
  end.

(** ** Whole responses *)

Record reply := mkReply { rp_Status : Z; rp_Header : list (string * string); rp_Body : string }.

Definition json_reply (status : Z) (header : list (string * string)) (d : doc) : reply :=
  mkReply status (header ++ [("Content-Type", "application/json; charset=utf-8")])%list (print d).

(** [writeOpenAIError] *)
Definition writeOpenAIError (httpStatus : Z) (msg errType code : string) : reply :=
  json_reply httpStatus [] (openAIErrorBody_doc (mkOpenAIError msg errType code)).

Definition saturated_message : string :=
  "The fleet is at capacity; no worker has available slots. Retry after the indicated delay.".

(** [writeAdmissionRejected], after its default. *)
Definition write_saturated (retryAfter : Z) : reply :=
  json_reply 429 [("Retry-After", Itoa retryAfter); ("X-Forge-Rejected-By", "admission")]
    (openAIErrorBody_doc (mkOpenAIError saturated_message "capacity_exceeded" "fleet_saturated")).

(** The reply of [chatCompletions]; [msg] is the message of its error. *)
Definition chat_reply (msg : string) (r : response) : reply :=
  match r with
  | RError e => writeOpenAIError (http_status e) msg (err_type e) (err_code e)
  | RSaturated retryAfter => write_saturated retryAfter
  | RCompletion text finish u =>
      json_reply 200 [] (chatCompletionResponse_doc
        (mkCCR (env_id env) "chat.completion" (env_created env) (env_model env)
           [mkRespChoice 0 (mkMessage "assistant" text) finish] u))
  | RStream w => mkReply 200 setSSEHeaders (concat_str (chat_event <$> sent w))
  end.

Definition text_reply (msg : string) (r : response) : reply :=
  match r with
  | RError e => writeOpenAIError (http_status e) msg (err_type e) (err_code e)
  | RSaturated retryAfter => write_saturated retryAfter
  | RCompletion text finish u =>
      json_reply 200 [] (textCompletionResponse_doc
        (mkTCR (env_id env) "text_completion" (env_created env) (env_model env) [mkTextChoice 0 text (Some finish)] u))
  | RStream w => mkReply 200 setSSEHeaders (concat_str (text_event <$> sent w))
  end.
End Events.

(** [SnapshotSelector.ListModels] with its documents; [created] is the Unix
    time of the snapshot it reads, or of now when that is zero. *)
Definition model_objects (created : Z) (s : Selector) : option (list modelObject) :=
  match sel_catalog s, sel_holder s with
  | Some _, _ =>
      if negb (Empty (sel_catalog s)) || bool_decide (sel_holder s <> None)
      then Some ((fun id => mkModelObject id "model" created "forge") <$> ListModels s) else None
  | None, Some _ => Some ((fun id => mkModelObject id "model" created "forge") <$> ListModels s)
  | None, None => None
  end.

Definition listModels (created : Z) (s : Selector) : reply :=
  json_reply 200 [] (modelsResponse_doc "list" (model_objects created s)).
