(* ===== verification/GatewayMetrics.v ===== *)
(** * What the gateway records (handler.go, audit.go, metrics.go)

    The observations and the audit event of a request, in the order the
    handlers make them; the deferred ones are made on every way out of the
    handler, a panic included.  Requests run concurrently, so the file proves
    its accounting for every order of their observations. *)

From Stdlib Require Import Ascii.
From S2P Require Import Prelude Float64 GoStrings GoFormat Json JsonDecode Errors Failover Inflight Routing Rendezvous Candidates Chain.
From S2P Require Import GatewaySelect GatewayAuth GatewayDispatch GatewayHandler GatewayWire Metrics.

(** ** Observations *)

Inductive observation : Type :=
| ObsDuration (route model : string) (stream : bool) (status : Z) (seconds : float64)
| ObsTTFT (route model : string) (seconds : float64)
| ObsAdmitted (model : string)
| ObsRejected (model reason : string).

Section Observe.
Context {V : Type -> Type} `{Prometheus V}.

Definition observe (m : option (gateway_Metrics V)) (o : observation) : go (option (gateway_Metrics V)) :=
  match o with
  | ObsDuration route model stream status seconds => ObserveDuration m route model stream status seconds
  | ObsTTFT route model seconds => ObserveTTFT m route model seconds
  | ObsAdmitted model => IncAdmitted m model
  | ObsRejected model reason => IncRejected m model reason
  end.

Fixpoint observe_all (m : option (gateway_Metrics V)) (os : list observation) : go (option (gateway_Metrics V)) :=
  match os with
  | [] => Returns m
  | o :: rest => let! m := observe m o in observe_all m rest
  end.
End Observe.

Section Handlers.
Context `{UnicodeTables} `{GrpcStatus}.
Variable retryAfterSec : Z.

(** The selection-error branch of both handlers. *)
Definition rejected_observations (model : string) (e : error) : list observation :=
  if errors_Is e ErrAdmissionRejected then [ObsRejected model "fleet_saturated"]
  else
    let h := selectErrorStatus e in
    if (http_status h =? 503) || (http_status h =? 404) then [ObsRejected model (err_code h)] else [].

(** [ObserveTTFT] comes before the stream is used, so also when it is nil. *)
Definition stream_observations (route model : string) (ft : first_token) (ttft : float64) : list observation :=
  match ft with NoStream (Some _) => [] | _ => [ObsTTFT route model ttft] end.

(** The calls before the deferred ones, given the outcome of the selection. *)
Definition dispatch_observations (be : backend) (route model : string) (stream : bool) (genReq : GenerateRequest)
    (ranked : result error (list SelectedWorker)) (ttft : float64) : list observation :=
  match ranked with
  | Err e => rejected_observations model e
  | Ok workers =>
      match be_admit be workers with
      | None => [ObsRejected model "fleet_saturated"]
      | Some workers =>
          ObsAdmitted model :: (if stream then stream_observations route model (be_first be workers genReq) ttft else [])
      end
  end.

(** [chatCompletions]: the workers it dispatches to, and what it records. *)
Definition chat_ranking (be : backend) (req : ChatRequest) (affinity : string) : result error (list SelectedWorker) :=
  let routePrompt := if negb (String.eqb affinity "") then affinity else messagesToPrompt (cr_Messages req) in
  match be_rank be false (cr_Model req) routePrompt with
  | Err e => if be_activate be (cr_Model req) then be_rank be true (cr_Model req) routePrompt else Err e
  | Ok ws => Ok ws
  end.

(** A request that reaches the defer statement. *)
Definition chat_accepted (bound : option ChatRequest) : option ChatRequest :=
  match bound with
  | Some req => if String.eqb (cr_Model req) "" then None else match cr_Messages req with [] => None | _ => Some req end
  | None => None
  end.

(** The variables the deferred function reads: after a panic they still have
    their first values. *)
Definition chat_deferred (be : backend) (bound : option ChatRequest) (affinity : string) : recorded :=
  match chatCompletions retryAfterSec be bound affinity with
  | Returns (_, Some d) => d
  | _ => mkRecorded 200 "" None
  end.

Definition chat_observations (be : backend) (bound : option ChatRequest) (affinity : string) (ttft elapsed : float64) : list observation :=
  match chat_accepted bound with
  | None => []
  | Some req =>
      (dispatch_observations be "chat_completions" (cr_Model req) (cr_Stream req) (chat_genReq req) (chat_ranking be req affinity) ttft ++
       [ObsDuration "chat_completions" (cr_Model req) (cr_Stream req) (rec_Status (chat_deferred be bound affinity)) elapsed])%list
  end.

Definition text_accepted (bound : option TextRequest) : option (TextRequest * string) :=
  match bound with
  | Some req =>
      if String.eqb (tr_Model req) "" then None
      else match promptFromCompletions (tr_Prompt req) with
      | Ok p => if String.eqb p "" then None else Some (req, p)
      | Err _ => None
      end
  | None => None
  end.

Definition text_deferred (be : backend) (bound : option TextRequest) (affinity : string) : Z :=
  match completions retryAfterSec be bound affinity with Returns (_, Some s) => s | _ => 200 end.

Definition text_genReq (req : TextRequest) (prompt : string) : GenerateRequest :=
  toWorkerRequest (tr_Model req) prompt (tr_Temperature req) (tr_TopP req) (tr_MaxTokens req).

Definition text_observations (be : backend) (bound : option TextRequest) (affinity : string) (ttft elapsed : float64) : list observation :=
  match text_accepted bound with
  | None => []
  | Some (req, genPrompt) =>
      let routePrompt := if negb (String.eqb affinity "") then affinity else genPrompt in
      (dispatch_observations be "completions" (tr_Model req) (tr_Stream req) (text_genReq req genPrompt)
         (be_rank be false (tr_Model req) routePrompt) ttft ++
       [ObsDuration "completions" (tr_Model req) (tr_Stream req) (text_deferred be bound affinity) elapsed])%list
  end.

(** ** The audit log *)

Record AuditEvent := mkAudit {
  ae_RequestID : string;
  ae_ClientID : string;
  ae_Route : string;
  ae_Model : string;
  ae_WorkerID : string;
  ae_Stream : bool;
  ae_Status : Z;
  ae_LatencyMs : Z;
  ae_PromptTok : Z;
  ae_CompTok : Z;
  ae_Error : string
}.

(** An attribute of a log line. *)
Inductive attr : Type := AString (s : string) | ABool (b : bool) | AInt (z : Z).
Inductive level : Type := Info | Warn.

(** [LogAudit]: the level and the attributes of the line a logger gets. *)
Definition LogAudit (logger : bool) (e : AuditEvent) : option (level * list (string * attr)) :=
  if negb logger then None
  else
    let attrs := [("request_id", AString (ae_RequestID e)); ("client_id", AString (ae_ClientID e)); ("route", AString (ae_Route e));
                  ("model", AString (ae_Model e)); ("worker_id", AString (ae_WorkerID e)); ("stream", ABool (ae_Stream e));
                  ("status", AInt (ae_Status e)); ("latency_ms", AInt (ae_LatencyMs e)); ("prompt_tokens", AInt (ae_PromptTok e));
                  ("completion_tokens", AInt (ae_CompTok e))] in
    if negb (String.eqb (ae_Error e) "") then Some (Warn, (attrs ++ [("error", AString (ae_Error e))])%list)
    else Some (Info, attrs).

Definition auditLatency (start now : Z) : Z := Z.quot (time_sub now start) millisecond.

(** The usage the audit knows: that of the collecting branch. *)
Definition chat_auditUsage (be : backend) (req : ChatRequest) (affinity : string) : option usage :=
  match chat_ranking be req affinity with
  | Ok workers =>
      match be_admit be workers with
      | Some workers => if cr_Stream req then None else let '(_, u, _, _, _) := be_collect be workers (chat_genReq req) in u
      | None => None
      end
  | Err _ => None
  end.

(** [message] is [err.Error()]. *)
Definition chat_audit (message : error -> string) (be : backend) (bound : option ChatRequest) (affinity requestID clientID : string)
    (start now : Z) : option AuditEvent :=
  option_map (fun req =>
    let d := chat_deferred be bound affinity in
    let '(pt, ct) := match chat_auditUsage be req affinity with Some u => (PromptTokens u, CompletionTokens u) | None => (0, 0) end in
    mkAudit requestID clientID "chat_completions" (cr_Model req) (rec_Worker d) (cr_Stream req) (rec_Status d)
      (auditLatency start now) pt ct (match rec_Error d with Some e => message e | None => "" end)) (chat_accepted bound).
End Handlers.

(** ** Lemmas: labels *)

(** The model of a request that was bound is UTF-8. *)
Lemma bind_chat_model body req : bind_chat body = Some req -> valid_utf8 (cr_Model req).
Proof.
  unfold bind_chat. destruct (first_value body) as [d|] eqn:Ed; [|done]. apply first_value_valid in Ed.
  destruct (dec_struct chat_fields zero_chat d) as [r|] eqn:Er; [|done]. intros [= <-]. cbn [cr_Model].
  revert Er. apply (dec_struct_inv (fun r => valid_utf8 (q_Model r))); [|by apply (bool_decide_unpack _)|done].
  intros name dec old d0 a Hin Ho Hd0 Ea. unfold chat_fields in Hin. rewrite !elem_of_cons in Hin.
  repeat (destruct Hin as [[= -> ->]|Hin]); [..|by apply elem_of_nil in Hin];
    match type of Ea with option_map _ ?o = _ => destruct o eqn:Ex; [|done] end; injection Ea as <-; try done.
  by apply dec_string_valid in Ex.
Qed.

Lemma bind_text_model body req : bind_text body = Some req -> valid_utf8 (tr_Model req).
Proof.
  unfold bind_text. destruct (first_value body) as [d|] eqn:Ed; [|done]. apply first_value_valid in Ed.
  destruct (dec_struct text_fields zero_text d) as [r|] eqn:Er; [|done]. intros [= <-]. cbn [tr_Model].
  revert Er. apply (dec_struct_inv (fun r => valid_utf8 (t_Model r))); [|by apply (bool_decide_unpack _)|done].
  intros name dec old d0 a Hin Ho Hd0 Ea. unfold text_fields in Hin. rewrite !elem_of_cons in Hin.
  repeat (destruct Hin as [[= -> ->]|Hin]); [..|by apply elem_of_nil in Hin];
    try (match type of Ea with option_map _ ?o = _ => destruct o eqn:Ex; [|done] end); try (injection Ea as <-); try done.
  all: by try apply dec_string_valid in Ex.
Qed.

(** The statuses of the duration series. *)
Definition statuses : list Z := [200; 400; 404; 408; 429; 500; 503; 504].

Definition reasons : list string := ["fleet_saturated"; "no_snapshot"; "model_not_found"; "no_capacity"].

Section Labels.
Context `{UnicodeTables} `{GrpcStatus}.
Variable retryAfterSec : Z.

Lemma grpc_status_listed e : http_status (mapGRPCError e) ∈ statuses.
Proof. unfold mapGRPCError. destruct (FromError e) as [[]|]; apply (bool_decide_unpack _); done. Qed.

Lemma collect_status be ws g : rec_Status (serve_collect be ws g).2 ∈ statuses.
Proof.
  unfold serve_collect. destruct (be_collect be ws g) as [[[[text u] finish] worker] [e|]]; cbn; [apply grpc_status_listed|by left].
Qed.

Lemma stream_status be role incl ws g r d : serve_stream be role incl ws g = Returns (r, d) -> rec_Status d ∈ statuses.
Proof.
  unfold serve_stream. destruct (stream_response role incl _ _) as [[[worker [e|]] w]|]; [| |done].
  - destruct (be_first be ws g); intros [= _ <-]; cbn; [by left|apply grpc_status_listed].
  - intros [= _ <-]. by left.
Qed.

Lemma chat_status be bound affinity : rec_Status (chat_deferred retryAfterSec be bound affinity) ∈ statuses.
Proof.
  unfold chat_deferred, chatCompletions. destruct bound as [req|]; [|by left]. case_if; [by left|].
  destruct (cr_Messages req) as [|m ms]; [by left|]. cbn zeta.
  match goal with |- context [match ?r with Ok _ => _ | Err _ => _ end] => destruct r as [ws|e] end.
  - destruct (be_admit be ws) as [ws'|]; [|apply (bool_decide_unpack _); done]. case_if.
    + destruct (serve_stream be _ _ ws' _) as [[r d]|] eqn:E; [|by left]. by eapply stream_status.
    + match goal with |- context [serve_collect ?b ?w ?g] => pose proof (collect_status b w g); destruct (serve_collect b w g) end. done.
  - unfold select_failed. by left.
Qed.

Lemma text_status be bound affinity : text_deferred retryAfterSec be bound affinity ∈ statuses.
Proof.
  unfold text_deferred, completions. destruct bound as [req|]; [|by left]. case_if; [by left|].
  destruct (promptFromCompletions (tr_Prompt req)) as [p|]; [|by left]. case_if; [by left|]. cbn zeta.
  destruct (be_rank be false (tr_Model req) _) as [ws|e].
  - destruct (be_admit be ws) as [ws'|]; [|apply (bool_decide_unpack _); done]. case_if.
    + destruct (serve_stream be _ _ ws' _) as [[r d]|] eqn:E; [|by left]. by eapply stream_status.
    + match goal with |- context [serve_collect ?b ?w ?g] => pose proof (collect_status b w g); destruct (serve_collect b w g) end. done.
  - unfold select_failed. by left.
Qed.
End Labels.

(** ** Lemmas: counting *)

(** The labels of the series an observation goes to. *)
Definition admitted_key (o : observation) : option (list string) := match o with ObsAdmitted model => Some [model] | _ => None end.

Definition rejected_key (o : observation) : option (list string) :=
  match o with ObsRejected model reason => Some [model; reason] | _ => None end.

Definition duration_key (o : observation) : option (list string) :=
  match o with
  | ObsDuration route model stream status _ => Some [route; model; FormatBool stream; Itoa status]
  | _ => None
  end.

(** An observation whose labels a series takes. *)
Definition utf8_observation (o : observation) : Prop :=
  match o with
  | ObsDuration route model stream status _ => Forall valid_utf8 [route; model; FormatBool stream; Itoa status]
  | ObsTTFT route model _ => Forall valid_utf8 [route; model]
  | ObsAdmitted model => valid_utf8 model
  | ObsRejected model reason => Forall valid_utf8 [model; reason]
  end.

Section Counting.
Context {V : Type -> Type} `{Prometheus V}.

(** The metrics after some observations. *)
Record recorded_by (os : list observation) (m : gateway_Metrics V) : Prop := {
  rb_labels : vec_Labels (gm_duration m) = 4%nat /\ vec_Labels (gm_ttft m) = 2%nat /\
    vec_Labels (gm_admitted m) = 1%nat /\ vec_Labels (gm_rejected m) = 2%nat;
  rb_admitted : forall ls, counter_at (gm_admitted m) ls = count (fun o => bool_decide (admitted_key o = Some ls)) os;
  rb_rejected : forall ls, counter_at (gm_rejected m) ls = count (fun o => bool_decide (rejected_key o = Some ls)) os;
  rb_duration : forall ls, Z.of_nat (length (default [] (vec_Get (gm_duration m) ls))) =
    count (fun o => bool_decide (duration_key o = Some ls)) os
}.

Lemma hist_Observe_at (v : V (list float64)) ls x : labels_ok (vec_Labels v) ls ->
  exists v', hist_Observe v ls x = Returns v' /\ vec_Labels v' = vec_Labels v /\
    forall ls', Z.of_nat (length (default [] (vec_Get v' ls'))) = Z.of_nat (length (default [] (vec_Get v ls'))) + b2z (bool_decide (ls = ls')).
Proof.
  intros Hl. destruct (With_returns _ v ls (fun xs => (default [] xs ++ [x])%list) Hl) as (v' & E & L & G).
  exists v'. split; [exact E|]. split; [exact L|]. intros ls'. rewrite G. destruct (decide (ls = ls')) as [<-|Hne].
  - rewrite bool_decide_eq_true_2 by done. cbn [default from_option id b2z]. rewrite length_app. cbn. lia.
  - rewrite bool_decide_eq_false_2 by done. cbn. lia.
Qed.

(** The observation is not one of this vector. *)
Ltac no_key := rewrite (bool_decide_eq_false_2 (None = Some _)) by done; cbn [b2z]; lia.

Lemma observe_records os m o :
  recorded_by os m -> utf8_observation o -> Z.of_nat (length os) < two64 - 1 ->
  exists m', observe (Some m) o = Returns (Some m') /\ recorded_by (os ++ [o])%list m'.
Proof.
  intros [(L1 & L2 & L3 & L4) Ha Hr Hd] Hu Hlen.
  destruct o as [route model stream status seconds|route model seconds|model|model reason]; cbn [observe utf8_observation] in *.
  - destruct (hist_Observe_at (gm_duration m) [route; model; FormatBool stream; Itoa status] seconds) as (v & E & L & G); [by rewrite L1|].
    unfold ObserveDuration. rewrite E. eexists. split; [reflexivity|]. split; cbn; [by rewrite L| | |]; intros ls; rewrite count_snoc; cbn [duration_key admitted_key rejected_key].
    + rewrite Ha. no_key.
    + rewrite Hr. no_key.
    + rewrite G, Hd. f_equal. f_equal. apply bool_decide_ext. naive_solver.
  - destruct (hist_Observe_at (gm_ttft m) [route; model] seconds) as (v & E & L & G); [by rewrite L2|].
    unfold ObserveTTFT. rewrite E. eexists. split; [reflexivity|]. split; cbn; [by rewrite L| | |]; intros ls; rewrite count_snoc; cbn [duration_key admitted_key rejected_key];
      rewrite ?Ha, ?Hr, ?Hd; no_key.
  - destruct (counter_Inc_at (gm_admitted m) [model]) as (v & E & L & G); [rewrite L3; by split; [|constructor]| |].
    { rewrite Ha. pose proof (count_nonneg (fun o => bool_decide (admitted_key o = Some [model])) os).
      pose proof (count_le_length (fun o => bool_decide (admitted_key o = Some [model])) os). lia. }
    unfold IncAdmitted. rewrite E. eexists. split; [reflexivity|]. split; cbn; [by rewrite L| | |]; intros ls; rewrite count_snoc; cbn [duration_key admitted_key rejected_key].
    + rewrite G, Ha. f_equal. f_equal. apply bool_decide_ext. naive_solver.
    + rewrite Hr. no_key.
    + rewrite Hd. no_key.
  - destruct (counter_Inc_at (gm_rejected m) [model; reason]) as (v & E & L & G); [rewrite L4; by split| |].
    { rewrite Hr. pose proof (count_nonneg (fun o => bool_decide (rejected_key o = Some [model; reason])) os).
      pose proof (count_le_length (fun o => bool_decide (rejected_key o = Some [model; reason])) os). lia. }
    unfold IncRejected. rewrite E. eexists. split; [reflexivity|]. split; cbn; [by rewrite L| | |]; intros ls; rewrite count_snoc; cbn [duration_key admitted_key rejected_key].
    + rewrite Ha. no_key.
    + rewrite G, Hr. f_equal. f_equal. apply bool_decide_ext. naive_solver.
    + rewrite Hd. no_key.
Qed.

Lemma observe_all_records os : forall before m,
  recorded_by before m -> Forall utf8_observation os -> Z.of_nat (length before + length os) < two64 ->
  exists m', observe_all (Some m) os = Returns (Some m') /\ recorded_by (before ++ os)%list m'.
Proof.
  induction os as [|o os IH]; intros before m Hm Hu Hlen; [exists m; by rewrite app_nil_r|].
  apply list.Forall_cons in Hu as [Ho Hu]. cbn [length] in Hlen.
  destruct (observe_records before m o Hm Ho) as (m1 & E1 & H1); [lia|]. cbn [observe_all]. rewrite E1.
  destruct (IH (before ++ [o])%list m1 H1 Hu) as (m2 & E2 & H2); [rewrite length_app; cbn; lia|].
  exists m2. split; [exact E2|]. by rewrite <- app_assoc in H2.
Qed.
End Counting.

(** ** Requests *)

(** A request to one of the two routes: its body and affinity header, the rest
    of the gateway as it found it, and what its clock read. *)
Record request := mkServed {
  sv_chat : bool;
  sv_body : string;
  sv_affinity : string;
  sv_backend : backend;
  sv_ttft : float64;
  sv_elapsed : float64
}.

(** The label lists of the series of a model. *)
Definition rejected_series (model : string) : list (list string) := (fun reason => [model; reason]) <$> reasons.

Definition duration_keys : list (string * string * string) :=
  route ← ["chat_completions"; "completions"]; stream ← [true; false]; status ← statuses; [(route, FormatBool stream, Itoa status)].

Definition duration_series (model : string) : list (list string) :=
  (fun '(route, stream, status) => [route; model; stream; status]) <$> duration_keys.

Lemma rejected_series_NoDup model : NoDup (rejected_series model).
Proof. apply NoDup_fmap_2; [by intros ?? [=]|]. apply (bool_decide_unpack _). vm_compute. exact I. Qed.

Lemma duration_series_NoDup model : NoDup (duration_series model).
Proof.
  apply NoDup_fmap_2; [intros [[? ?] ?] [[? ?] ?] [=]; congruence|]. apply (bool_decide_unpack _). vm_compute. exact I.
Qed.

(** Whether an observation is of a series of the model. *)
Definition of_admitted (model : string) (o : observation) : bool := bool_decide (admitted_key o = Some [model]).
Definition of_rejected (model : string) (o : observation) : bool :=
  match rejected_key o with Some k => bool_decide (k ∈ rejected_series model) | None => false end.
Definition of_duration (model : string) (o : observation) : bool :=
  match duration_key o with Some k => bool_decide (k ∈ duration_series model) | None => false end.

Lemma of_rejected_reason model m reason : reason ∈ reasons -> of_rejected model (ObsRejected m reason) = bool_decide (m = model).
Proof.
  intros Hr. unfold of_rejected. cbn [rejected_key]. apply bool_decide_ext. unfold rejected_series. rewrite list_elem_of_fmap. split.
  - by intros (r & [= -> _] & _).
  - intros ->. by exists reason.
Qed.

Lemma of_duration_key model route m stream status x :
  route ∈ ["chat_completions"; "completions"] -> status ∈ statuses ->
  of_duration model (ObsDuration route m stream status x) = bool_decide (m = model).
Proof.
  intros Hr Hs. unfold of_duration. cbn [duration_key]. apply bool_decide_ext. unfold duration_series. rewrite list_elem_of_fmap. split.
  - by intros ([[? ?] ?] & [= _ -> _ _] & _).
  - intros ->. exists (route, FormatBool stream, Itoa status). split; [done|]. unfold duration_keys.
    apply list_elem_of_bind. exists route. split; [|done]. apply list_elem_of_bind. exists stream.
    split; [|destruct stream; apply (bool_decide_unpack _); done]. apply list_elem_of_bind. exists status.
    split; [by apply list_elem_of_singleton|done].
Qed.

Lemma status_utf8 status : status ∈ statuses -> valid_utf8 (Itoa status).
Proof.
  unfold statuses. rewrite !elem_of_cons, elem_of_nil. intros Hs. apply (bool_decide_unpack _).
  repeat (destruct Hs as [->|Hs]; [vm_compute; exact I|]). done.
Qed.

Lemma duration_not_admitted model route m stream status x : of_admitted model (ObsDuration route m stream status x) = false.
Proof. by apply bool_decide_eq_false_2. Qed.

Lemma duration_utf8 route model stream status x :
  valid_utf8 route -> valid_utf8 model -> status ∈ statuses -> utf8_observation (ObsDuration route model stream status x).
Proof.
  intros Hr Hm Hs. cbn [utf8_observation]. rewrite !list.Forall_cons. split_and!; [done|done| |by apply status_utf8|by apply list.Forall_nil].
  destruct stream; by apply (bool_decide_unpack _).
Qed.

Section Accounting.
Context `{UnicodeTables} `{GrpcStatus}.
Variable retryAfterSec : Z.

(** The model of a request the handler accepts. *)
Definition request_model (r : request) : option string :=
  if sv_chat r then cr_Model <$> chat_accepted (bind_chat (sv_body r))
  else (fun p => tr_Model p.1) <$> text_accepted (bind_text (sv_body r)).

Definition request_observations (r : request) : list observation :=
  if sv_chat r then chat_observations retryAfterSec (sv_backend r) (bind_chat (sv_body r)) (sv_affinity r) (sv_ttft r) (sv_elapsed r)
  else text_observations retryAfterSec (sv_backend r) (bind_text (sv_body r)) (sv_affinity r) (sv_ttft r) (sv_elapsed r).

Lemma some_label (a b : string) : bool_decide (Some a = Some b) = bool_decide (a = b).
Proof. apply bool_decide_ext. naive_solver. Qed.

(** Before the deferred calls, exactly one of the two counters counts. *)
Lemma dispatch_counts be route m stream g ranked ttft model :
  valid_utf8 m -> valid_utf8 route ->
  let os := dispatch_observations be route m stream g ranked ttft in
  Forall utf8_observation os /\
  count (of_admitted model) os + count (of_rejected model) os = b2z (bool_decide (m = model)) /\ count (of_duration model) os = 0.
Proof.
  intros Hm Hr. cbn zeta.
  assert (forall reason, reason ∈ reasons -> Forall utf8_observation [ObsRejected m reason] /\
    count (of_admitted model) [ObsRejected m reason] + count (of_rejected model) [ObsRejected m reason] = b2z (bool_decide (m = model)) /\
    count (of_duration model) [ObsRejected m reason] = 0) as Hrej.
  { intros reason Hin. split_and!.
    - apply list.Forall_singleton. cbn. repeat constructor; [done|]. revert Hin. unfold reasons. rewrite !elem_of_cons, elem_of_nil.
      intros Hin. apply (bool_decide_unpack _). repeat (destruct Hin as [->|Hin]; [vm_compute; exact I|]). done.
    - rewrite !count_cons, of_rejected_reason by done. reflexivity || (cbn; destruct (bool_decide (m = model)); reflexivity).
    - reflexivity. }
  unfold dispatch_observations. destruct ranked as [ws|e].
  - destruct (be_admit be ws) as [ws'|]; [|apply Hrej; by left].
    assert (forall rest, rest = [] \/ rest = [ObsTTFT route m ttft] -> Forall utf8_observation (ObsAdmitted m :: rest) /\
      count (of_admitted model) (ObsAdmitted m :: rest) + count (of_rejected model) (ObsAdmitted m :: rest) = b2z (bool_decide (m = model)) /\
      count (of_duration model) (ObsAdmitted m :: rest) = 0) as Hadm.
    { intros rest Hrest. assert (of_admitted model (ObsAdmitted m) = bool_decide (m = model)) as Ea
        by (apply bool_decide_ext; naive_solver).
      destruct Hrest as [->| ->]; rewrite !count_cons, Ea.
      - split_and!; [by repeat constructor| |done]. destruct (bool_decide (m = model)); reflexivity.
      - split_and!; [|destruct (bool_decide (m = model)); reflexivity|done]. repeat constructor; done. }
    destruct stream; [|apply Hadm; by left]. unfold stream_observations.
    destruct (be_first be ws' g) as [s w f|[e|]]; apply Hadm; by auto.
  - unfold rejected_observations. case_if; [apply Hrej; by left|].
    assert (err_code (selectErrorStatus e) ∈ reasons /\
      (http_status (selectErrorStatus e) =? 503) || (http_status (selectErrorStatus e) =? 404) = true) as [Hc Hs].
    { unfold selectErrorStatus. repeat case_if; (split; [apply (bool_decide_unpack _); done|done]) || congruence. }
    rewrite Hs. by apply Hrej.
Qed.

(** A request the handler accepts is counted once, by one of the counters and
    in one of the duration series of its model. *)
Lemma request_counts r model :
  let os := request_observations r in
  Forall utf8_observation os /\
  count (of_admitted model) os + count (of_rejected model) os = b2z (bool_decide (request_model r = Some model)) /\
  count (of_duration model) os = b2z (bool_decide (request_model r = Some model)).
Proof.
  cbn zeta. unfold request_observations, request_model. destruct (sv_chat r).
  - unfold chat_observations. destruct (chat_accepted (bind_chat (sv_body r))) as [req|] eqn:Ea; [|done].
    assert (valid_utf8 (cr_Model req)) as Hm.
    { apply bind_chat_model with (body := sv_body r). unfold chat_accepted in Ea. destruct (bind_chat (sv_body r)) as [q|]; [|done].
      destruct (String.eqb (cr_Model q) ""); [done|]. by destruct (cr_Messages q); simplify_eq. }
    pose proof (chat_status retryAfterSec (sv_backend r) (bind_chat (sv_body r)) (sv_affinity r)) as Hst.
    destruct (dispatch_counts (sv_backend r) "chat_completions" (cr_Model req) (cr_Stream req) (chat_genReq req)
      (chat_ranking (sv_backend r) req (sv_affinity r)) (sv_ttft r) model Hm ltac:(by apply (bool_decide_unpack _))) as (Hu & Hc & Hd).
    rewrite !count_snoc, Hd, of_duration_key by (done || by left). cbn [fmap option_fmap option_map].
    rewrite some_label. split_and!; [| |done].
    + apply Forall_app. split; [done|]. apply list.Forall_singleton. by apply duration_utf8; [apply (bool_decide_unpack _)|..].
    + rewrite duration_not_admitted, <- Hc. cbn [of_rejected rejected_key b2z]. lia.
  - unfold text_observations. destruct (text_accepted (bind_text (sv_body r))) as [[req p]|] eqn:Ea; [|done].
    assert (valid_utf8 (tr_Model req)) as Hm.
    { apply bind_text_model with (body := sv_body r). unfold text_accepted in Ea. destruct (bind_text (sv_body r)) as [q|]; [|done].
      destruct (String.eqb (tr_Model q) ""); [done|]. destruct (promptFromCompletions (tr_Prompt q)) as [p'|]; [|done].
      by destruct (String.eqb p' ""); simplify_eq. }
    pose proof (text_status retryAfterSec (sv_backend r) (bind_text (sv_body r)) (sv_affinity r)) as Hst. cbn zeta.
    match goal with |- context [dispatch_observations ?be ?route ?m ?st ?g ?rk ?tt] =>
      destruct (dispatch_counts be route m st g rk tt model Hm ltac:(by apply (bool_decide_unpack _))) as (Hu & Hc & Hd) end.
    rewrite !count_snoc, Hd, of_duration_key by (done || (by right; left)). cbn [fmap option_fmap option_map fst].
    rewrite some_label. split_and!; [| |done].
    + apply Forall_app. split; [done|]. apply list.Forall_singleton. by apply duration_utf8; [apply (bool_decide_unpack _)|..].
    + rewrite duration_not_admitted, <- Hc. cbn [of_rejected rejected_key b2z]. lia.
Qed.
End Accounting.

(** C11: every accepted request is accounted for, whatever the requests and in
    whatever order their concurrent handlers make their observations: no
    observation panics, and for every model the requests counted as admitted
    and those counted as rejected, over the four reasons, add up to the
    requests for the model whose body was accepted, and so do the
    observations of the duration histogram over its routes, stream flags and
    statuses. *)
Theorem requests_accounted_for `{UnicodeTables} `{GrpcStatus} {V : Type -> Type} `{Prometheus V} {R} `{Registrar R}
    retryAfterSec (reg reg' : R) m (rs : list request) os :
  gateway_NewMetrics reg = Returns (m, reg') ->
  os ≡ₚ concat (request_observations retryAfterSec <$> rs) -> Z.of_nat (length os) < two64 ->
  exists m', observe_all (Some m) os = Returns (Some m') /\
    forall model, let accepted := count (fun r => bool_decide (request_model r = Some model)) rs in
      counter_at (gm_admitted m') [model] + sum_Z ((fun reason => counter_at (gm_rejected m') [model; reason]) <$> reasons) = accepted /\
      sum_Z ((fun ls => Z.of_nat (length (default [] (vec_Get (gm_duration m') ls)))) <$> duration_series model) = accepted.
Proof.
  unfold gateway_NewMetrics. intros Hm Hp Hlen. destruct (register_all reg gateway_names); [|done]. injection Hm as <- _.
  destruct (observe_all_records (V := V) os [] (mkGatewayMetrics (vec_New 4) (vec_New 2) (vec_New 1) (vec_New 2) (vec_New 1))) as (m' & E & [_ Ha Hr Hd]).
  - split; cbn; [by rewrite !New_Labels|..]; intros ls; unfold counter_at; by rewrite New_Get.
  - rewrite Hp. apply list.Forall_forall. intros o Ho. apply list_elem_of_In, in_concat in Ho as (l & Hl & Ho).
    apply list_elem_of_In, list_elem_of_fmap in Hl as (r & -> & _). destruct (request_counts retryAfterSec r "") as [Hu _].
    rewrite list.Forall_forall in Hu. apply Hu. by apply list_elem_of_In.
  - exact Hlen.
  - exists m'. split; [exact E|]. intros model. cbn zeta. rewrite app_nil_l in Ha, Hr, Hd. split.
    + rewrite Ha. transitivity (count (of_admitted model) os + count (of_rejected model) os).
      { f_equal. rewrite (sum_ones _ _ _ (fun reason => Hr [model; reason])).
        etrans; [|exact (count_by_key rejected_key (rejected_series model) os (rejected_series_NoDup model))].
        unfold rejected_series. by rewrite <- list_fmap_compose. }
      rewrite !(count_perm _ _ _ Hp), !count_concat, <- !list_fmap_compose, sum_add, <- sum_count.
      apply sum_ones. intros r. apply (request_counts retryAfterSec r model).
    + rewrite (sum_ones _ _ _ Hd), (count_by_key duration_key (duration_series model) os (duration_series_NoDup model)).
      change (count _ os) with (count (of_duration model) os).
      rewrite (count_perm _ _ _ Hp), count_concat, <- list_fmap_compose, <- sum_count.
      apply sum_ones. intros r. apply (request_counts retryAfterSec r model).
Qed.

(** A completion that is answered is audited as it was answered: with status
    200, the worker that answered, and the token counts of the answer. *)
Theorem completion_audited `{UnicodeTables} `{GrpcStatus} retryAfterSec message be req affinity requestID clientID start now text finish u d :
  cr_Stream req = false ->
  chatCompletions retryAfterSec be (Some req) affinity = Returns (RCompletion text finish u, d) ->
  exists e, chat_audit retryAfterSec message be (Some req) affinity requestID clientID start now = Some e /\
    d = Some (mkRecorded 200 (ae_WorkerID e) None) /\ ae_Status e = 200 /\ ae_Error e = "" /\
    ae_PromptTok e = PromptTokens u /\ ae_CompTok e = CompletionTokens u /\
    exists attrs, LogAudit true e = Some (Info, attrs).
Proof.
  intros Hst E. pose proof E as E0. unfold chatCompletions in E.
  destruct (String.eqb (cr_Model req) "") eqn:Em; [done|]. destruct (cr_Messages req) as [|msg ms] eqn:Ems; [done|].
  cbn zeta in E. unfold chat_audit, chat_deferred. rewrite E0. cbn [chat_accepted]. rewrite Em, Ems. cbn [option_map].
  unfold chat_auditUsage, chat_ranking. rewrite Ems, Hst. rewrite Hst in E.
  match type of E with match ?rk with Ok _ => _ | Err _ => _ end = _ => set (ranked := rk) in E end.
  match goal with |- context [match ?rk with Ok _ => match be_admit be _ with _ => _ end | Err _ => None end] =>
    assert (rk = ranked) as -> end.
  { unfold ranked. by destruct (be_rank be false (cr_Model req) _). }
  destruct ranked as [ws|e]; [|unfold select_failed in E; destruct (errors_Is e ErrAdmissionRejected); done].
  destruct (be_admit be ws) as [ws'|]; [|done]. unfold serve_collect in E.
  replace (toWorkerRequest _ _ _ _ _) with (chat_genReq req) in E by (unfold chat_genReq; by rewrite Ems).
  destruct (be_collect be ws' (chat_genReq req)) as [[[[t us] fin] worker] [e|]]; [done|].
  injection E as <- <- <- <-. destruct us as [us|]; eexists; (split; [reflexivity|]); split_and!; try reflexivity; by eexists.
Qed.

(** The audit of a streamed completion has no token counts, whatever usage the
    worker reported. *)
Theorem streamed_usage_not_audited `{UnicodeTables} `{GrpcStatus} retryAfterSec message be req affinity requestID clientID start now e :
  cr_Stream req = true ->
  chat_audit retryAfterSec message be (Some req) affinity requestID clientID start now = Some e ->
  ae_PromptTok e = 0 /\ ae_CompTok e = 0.
Proof.
  intros Hst. unfold chat_audit. destruct (chat_accepted (Some req)) as [req'|] eqn:Ea; [|done].
  assert (req' = req) as ->.
  { cbn in Ea. destruct (String.eqb (cr_Model req) ""); [done|]. by destruct (cr_Messages req); simplify_eq. }
  cbn [option_map]. unfold chat_auditUsage. rewrite Hst. destruct (chat_ranking be req affinity) as [ws|]; [|by intros [= <-]].
  destruct (be_admit be ws); by intros [= <-].
Qed.

(** *** Witnesses *)

Definition hello_body (stream : bool) : string :=
  print (DObj [("model", DStr "m"); ("messages", DArr [DObj [("role", DStr "user"); ("content", DStr "hi")]]); ("stream", DBool stream)]).

Definition audited_worker : SelectedWorker := mkSelected "w1" "h:1" ["m"].

(** A gateway with one worker, which answers; and one without a snapshot. *)
Definition up : backend :=
  mkBackend (fun _ _ _ => Ok [audited_worker]) (fun _ => false) (fun ws => Some ws)
    (fun _ _ => NoStream (Some (ENew "closed")))
    (fun _ _ => ("hello", Some (mkUsageObj 3 2 5), "stop", Some audited_worker, None)) None.

Definition down : backend :=
  mkBackend (fun _ _ _ => Err ErrNoSnapshot) (fun _ => false) (fun _ => None) (fun _ _ => NoStream None) (fun _ _ => ("", None, "", None, None)) None.

Definition two_requests : list request :=
  [mkServed true (hello_body false) "" up f_zero f_one; mkServed true (hello_body false) "" down f_zero f_one].

Definition fresh_counters : gateway_Metrics series := mkGatewayMetrics (vec_New 4) (vec_New 2) (vec_New 1) (vec_New 2) (vec_New 1).

Lemma requests_accounted_for_witness :
  exists m', observe_all (Some fresh_counters) (concat (@request_observations ascii_tables plain_grpc 2 <$> two_requests)) = Returns (Some m') /\
    counter_at (gm_admitted m') ["m"] + sum_Z ((fun reason => counter_at (gm_rejected m') ["m"; reason]) <$> reasons) = 2.
Proof.
  destruct (@requests_accounted_for ascii_tables plain_grpc series map_vectors (list string) list_registry 2 [] (reverse gateway_names)
    fresh_counters two_requests (concat (@request_observations ascii_tables plain_grpc 2 <$> two_requests))) as (m' & E & Hm).
  - vm_compute. reflexivity.
  - reflexivity.
  - vm_compute. reflexivity.
  - exists m'. split; [exact E|]. destruct (Hm "m") as [-> _]. vm_compute. reflexivity.
Defined.

Definition hello_request (stream : bool) : ChatRequest := mkChat "m" [mkMessage "user" "hi"] stream false None None None None.

Lemma completion_audited_witness :
  exists e, @chat_audit ascii_tables plain_grpc 2 (fun _ => "") up (Some (hello_request false)) "" "r1" "c1" 0 5000000 = Some e /\
    ae_WorkerID e = "w1" /\ ae_PromptTok e = 3.
Proof.
  destruct (@completion_audited ascii_tables plain_grpc 2 (fun _ => "") up (hello_request false) "" "r1" "c1" 0 5000000 "hello" "stop"
    (mkUsageObj 3 2 5) (Some (mkRecorded 200 "w1" None))) as (e & He & Hd & _ & _ & Hp & _).
  - reflexivity.
  - vm_compute. reflexivity.
  - exists e. split; [exact He|]. by injection Hd as <-.
Defined.

Lemma streamed_usage_not_audited_witness :
  exists e, @chat_audit ascii_tables plain_grpc 2 (fun _ => "") up (Some (hello_request true)) "" "r1" "c1" 0 5000000 = Some e /\
    ae_PromptTok e = 0 /\ ae_CompTok e = 0.
Proof.
  eexists. split; [vm_compute; reflexivity|].
  eapply (@streamed_usage_not_audited ascii_tables plain_grpc 2 (fun _ => "") up (hello_request true) "" "r1" "c1" 0 5000000).
  - reflexivity.
  - vm_compute. reflexivity.
Defined.
