(* ===== verification/FleetScaling.v ===== *)
(** * Scaling policies and hysteresis
      (services/fleet/policy.go, services/fleet/hysteresis.go, ceilDiv and
       clamp of services/fleet/loop.go)

    The policy cache, and the filter that turns a desired number of replicas
    into at most one step up or down.  Replica counts are sizes of sets of
    workers and are kept as unbounded integers; durations wrap at 64 bits. *)

From S2P Require Import Prelude Float64 Errors.

(** ** Policies *)

Record ModelIdentity := mkModel { BaseModel : string; Adapter : string }.

#[export] Instance ModelIdentity_eq_dec : EqDecision ModelIdentity.
Proof. solve_decision. Defined.

Definition Key (id : ModelIdentity) : string :=
  if String.eqb (Adapter id) "" then BaseModel id else BaseModel id ++ "#" ++ Adapter id.

Record ScalingPolicy := mkPolicy {
  p_BaseModel : string;
  p_Adapter : string;
  MinReplicas : Z;
  MaxReplicas : Z;
  TargetConcurrency : Z;
  ScaleUpUtilization : float64;
  ScaleDownDelaySeconds : Z;
  StabilizationWindowSeconds : Z
}.

Abbreviation PolicyCache := (gmap string ScalingPolicy).

Definition NewPolicyCache : PolicyCache := ∅.

Definition DefaultPolicy (id : ModelIdentity) : ScalingPolicy :=
  mkPolicy (BaseModel id) (Adapter id) 0 3 16 (flit 70 100) 900 60.

Definition policy_model (p : ScalingPolicy) : ModelIdentity := mkModel (p_BaseModel p) (p_Adapter p).

Definition PolicyGet (c : PolicyCache) (id : ModelIdentity) : ScalingPolicy :=
  default (DefaultPolicy id) (c !! Key id).

(** [Reload]: the answer of the database ([None] without one). *)
Definition ReloadPolicies (c : PolicyCache) (rows : option (result error (list ScalingPolicy)))
    : option error * PolicyCache :=
  match rows with
  | None => (None, c)
  | Some (Err e) => (Some e, c)
  | Some (Ok rs) => (None, foldl (fun m r => <[Key (policy_model r) := r]> m) ∅ rs)
  end.

(** [Upsert]: [stored] is the outcome of the write to the database. *)
Definition UpsertPolicy (c : PolicyCache) (p : ScalingPolicy) (stored : option error) : option error * PolicyCache :=
  match stored with
  | Some e => (Some e, c)
  | None => (None, <[Key (policy_model p) := p]> c)
  end.

(** ** Arithmetic of the reconciliation *)

Definition ceilDiv (a b : Z) : Z :=
  if b <=? 0 then 0 else if a <=? 0 then 0 else Z.quot (wrap_i64 (a + b - 1)) b.

Definition clamp (v lo hi : Z) : Z :=
  if v <? lo then lo else if (0 <? hi) && (hi <? v) then hi else v.

(** ** Hysteresis *)

Record sample := mkSample { s_at : Z; s_desired : Z }.

Record hysteresisState := mkHyst { samples : list sample; lastAction : Z; pending : bool }.

Definition new_state : hysteresisState := mkHyst [] 0 false.

Record Hysteresis := mkHysteresis { hby : gmap string hysteresisState; hstep : Z }.

Definition NewHysteresis : Hysteresis := mkHysteresis ∅ 1.

Definition put (h : Hysteresis) (key : string) (st : hysteresisState) : Hysteresis :=
  mkHysteresis (<[key := st]> (hby h)) (hstep h).

Definition window (p : ScalingPolicy) : Z :=
  let w := wrap_i64 (StabilizationWindowSeconds p * second) in
  if w <=? 0 then 60 * second else w.

Definition cooldown (p : ScalingPolicy) : Z :=
  if ScaleDownDelaySeconds p <? 0 then 900 * second else wrap_i64 (ScaleDownDelaySeconds p * second).

(** The recent samples, oldest first: the kept ones and the new one. *)
Definition keep_recent (ss : list sample) (cut : Z) : list sample :=
  List.filter (fun s => cut <? s_at s) ss.

Definition max_desired (d : Z) (ss : list sample) : Z :=
  foldl (fun m s => if m <? s_desired s then s_desired s else m) d ss.

Definition min_desired (d : Z) (ss : list sample) : Z :=
  foldl (fun m s => if s_desired s <? m then s_desired s else m) d ss.

(** [Apply]: the replicas to aim for now. *)
Definition Apply (h : Hysteresis) (key : string) (desired current : Z) (policy : ScalingPolicy) (now : Z)
    : Z * Hysteresis :=
  let st := default new_state (hby h !! key) in
  let ss := keep_recent (samples st ++ [mkSample now desired]) (now - window policy) in
  let st := mkHyst ss (lastAction st) (pending st) in
  if pending st then (current, put h key st)
  else
    let maxD := max_desired desired ss in
    let minD := min_desired desired ss in
    if current <? desired then
      let out := current + hstep h in
      let out := if maxD <? out then maxD else out in
      (out, put h key (mkHyst ss now true))
    else if (desired <? current) && ((cooldown policy =? 0) || (cooldown policy <=? time_sub now (lastAction st))) then
      let out := current - hstep h in
      let out := if out <? minD then minD else out in
      (out, put h key (mkHyst ss now true))
    else (current, put h key st).

Definition ClearPending (h : Hysteresis) (key : string) : Hysteresis :=
  match hby h !! key with
  | None => h
  | Some st => put h key (mkHyst (samples st) (lastAction st) false)
  end.

(** ** Lemmas *)

Lemma max_desired_ge d ss : d <= max_desired d ss.
Proof.
  unfold max_desired. revert d. induction ss as [|s ss IH]; intros d; [done|]. cbn.
  etrans; [|apply IH]. case_if; zbool; lia.
Qed.

Lemma min_desired_le d ss : min_desired d ss <= d.
Proof.
  unfold min_desired. revert d. induction ss as [|s ss IH]; intros d; [done|]. cbn.
  etrans; [apply IH|]. case_if; zbool; lia.
Qed.

(** What [Apply] decides: one step towards the wish, unless an action is
    pending or a scale down comes too early. *)
Definition decision (st : hysteresisState) (policy : ScalingPolicy) (desired current now : Z) : Z :=
  if pending st then current
  else if current <? desired then current + 1
  else if (desired <? current) && ((cooldown policy =? 0) || (cooldown policy <=? time_sub now (lastAction st)))
       then current - 1 else current.

Lemma Apply_decision h key desired current policy now :
  hstep h = 1 ->
  (Apply h key desired current policy now).1 =
    decision (default new_state (hby h !! key)) policy desired current now.
Proof.
  intros Hs. unfold Apply, decision. set (st := default new_state (hby h !! key)). cbn [pending lastAction].
  destruct (pending st); [done|]. rewrite Hs.
  set (ss := keep_recent _ _). pose proof (max_desired_ge desired ss). pose proof (min_desired_le desired ss).
  destruct (Z.ltb_spec current desired); [cbn; case_if; zbool; lia|].
  destruct (Z.ltb_spec desired current); cbn [andb]; [|done].
  case_if; [|done]. cbn. case_if; zbool; lia.
Qed.

Lemma Apply_step h key desired current policy now : hstep (Apply h key desired current policy now).2 = hstep h.
Proof. unfold Apply. by repeat case_if. Qed.

(** The state [Apply] leaves is pending exactly when it was or it acted. *)
Lemma Apply_pending h key desired current policy now :
  hstep h = 1 ->
  exists st, hby (Apply h key desired current policy now).2 !! key = Some st /\
    pending st = pending (default new_state (hby h !! key)) ||
                 negb ((Apply h key desired current policy now).1 =? current).
Proof.
  intros Hs. pose proof (Apply_decision h key desired current policy now Hs) as Hd. revert Hd.
  unfold Apply, decision. set (st := default new_state (hby h !! key)). cbn [pending lastAction].
  destruct (pending st) eqn:Ep.
  { intros _. eexists. cbn. rewrite lookup_insert_eq. split; reflexivity. }
  destruct (current <? desired).
  { intros Hd. eexists. cbn [snd put hby]. rewrite lookup_insert_eq. split; [reflexivity|].
    cbn [fst] in Hd |- *. rewrite Hd. cbn. symmetry. apply negb_true_iff, Z.eqb_neq. lia. }
  case_if.
  { intros Hd. eexists. cbn [snd put hby]. rewrite lookup_insert_eq. split; [reflexivity|].
    cbn [fst] in Hd |- *. rewrite Hd. cbn. symmetry. apply negb_true_iff, Z.eqb_neq. lia. }
  intros _. eexists. cbn. rewrite lookup_insert_eq. split; [reflexivity|]. cbn. by rewrite Z.eqb_refl.
Qed.

Lemma ClearPending_pending h key :
  pending (default new_state (hby (ClearPending h key) !! key)) = false.
Proof.
  unfold ClearPending. destruct (hby h !! key) as [st|] eqn:E; [|by rewrite E].
  cbn. by rewrite lookup_insert_eq.
Qed.

Lemma ClearPending_step h key : hstep (ClearPending h key) = hstep h.
Proof. unfold ClearPending. by destruct (hby h !! key). Qed.

Lemma clamp_bounds v lo hi : lo <= hi -> 0 < hi -> lo <= clamp v lo hi <= hi.
Proof.
  unfold clamp. intros. destruct (Z.ltb_spec v lo), (Z.ltb_spec 0 hi), (Z.ltb_spec hi v); cbn; lia.
Qed.

#[export] Hint Rewrite Apply_step ClearPending_step : forge.

(** ** Properties *)

(** The hysteresis moves at most one replica at a time: while an action is
    pending it repeats the current count, otherwise it asks for one replica
    more when more are wished for, for one less when fewer are and the cool
    down has passed, and for the current count otherwise.  The recorded
    samples do not enter: the stabilisation window has no effect, for two
    histories that agree on the pending flag and the last action, and two
    policies that differ in the window, always answer alike. *)
Theorem hysteresis_unit_step h1 h2 key desired current p w now st1 st2 :
  hstep h1 = 1 -> hstep h2 = 1 -> hby h1 !! key = Some st1 -> hby h2 !! key = Some st2 ->
  pending st1 = pending st2 -> lastAction st1 = lastAction st2 ->
  let p' := mkPolicy (p_BaseModel p) (p_Adapter p) (MinReplicas p) (MaxReplicas p) (TargetConcurrency p)
              (ScaleUpUtilization p) (ScaleDownDelaySeconds p) w in
  let out := (Apply h1 key desired current p now).1 in
  out = (Apply h2 key desired current p' now).1 /\ out = decision st1 p desired current now /\
  current - 1 <= out <= current + 1 /\ (out <> current -> Z.min desired current <= out <= Z.max desired current).
Proof.
  intros Hs1 Hs2 E1 E2 Hp Hl p' out. unfold out. rewrite !Apply_decision, E1, E2 by done. cbn [default].
  unfold Datatypes.id. unfold decision, cooldown. cbn [ScaleDownDelaySeconds p']. rewrite Hp, Hl.
  split_and!; try done; repeat (case_if; zbool); try lia; cbn [andb] in *; zbool; lia.
Qed.

Definition calm : Hysteresis := mkHysteresis {["m" := mkHyst [mkSample 0 1] 0 false]} 1.
Definition busy : Hysteresis :=
  mkHysteresis {["m" := mkHyst [mkSample 0 9; mkSample second 9; mkSample (2 * second) 9] 0 false]} 1.

Lemma hysteresis_unit_step_witness :
  (Apply calm "m" 3 1 (DefaultPolicy (mkModel "m" "")) (3 * second)).1 =
  (Apply busy "m" 3 1 (mkPolicy "m" "" 0 3 16 (flit 70 100) 900 7) (3 * second)).1.
Proof.
  apply (hysteresis_unit_step calm busy "m" 3 1 (DefaultPolicy (mkModel "m" "")) 7 (3 * second)
           (mkHyst [mkSample 0 1] 0 false)
           (mkHyst [mkSample 0 9; mkSample second 9; mkSample (2 * second) 9] 0 false)); reflexivity.
Defined.
