(* ===== verification/FleetManager.v ===== *)
(** * The fleet manager (services/fleet/loop.go)

    The manager's state and its operations: reconciliation of one model and of
    all of them, scaling up, draining, the callbacks of the lifecycle, and the
    activation of a model on demand.  The clock, the answers of the
    provisioner, the routing snapshot, the order in which Go iterates over a
    map and what other goroutines do while a worker drains are inputs.  The
    manager's calls of [Provisioner.Retire] are logged. *)

From S2P Require Import Prelude Float64 Errors Routing FleetScaling.

Inductive WorkerState : Type := StateProvisioning | StateReady | StateDraining | StateRetired.

#[export] Instance WorkerState_eq_dec : EqDecision WorkerState.
Proof. solve_decision. Defined.

Record trackedWorker := mkTracked { tw_ID : string; tw_Model : ModelIdentity; tw_State : WorkerState; tw_InFlight : Z }.

Record Manager := mkManager {
  policies : PolicyCache;
  hyst : Hysteresis;
  workers : gmap string trackedWorker;
  desired : gmap string Z;
  retires : list string
}.

Definition NewManager (policies : PolicyCache) : Manager := mkManager policies NewHysteresis ∅ ∅ [].

Definition set_workers (m : Manager) (ws : gmap string trackedWorker) : Manager :=
  mkManager (policies m) (hyst m) ws (desired m) (retires m).

Definition set_hyst (m : Manager) (h : Hysteresis) : Manager :=
  mkManager (policies m) h (workers m) (desired m) (retires m).

Definition set_desired (m : Manager) (key : string) (n : Z) : Manager :=
  mkManager (policies m) (hyst m) (workers m) (<[key := n]> (desired m)) (retires m).

Definition log_retire (m : Manager) (wid : string) : Manager :=
  mkManager (policies m) (hyst m) (workers m) (desired m) (retires m ++ [wid])%list.

Definition clear_pending (m : Manager) (id : ModelIdentity) : Manager :=
  set_hyst m (ClearPending (hyst m) (Key id)).

(** [if w := m.workers[wid]; w != nil { w.State = s }] *)
Definition set_state (m : Manager) (wid : string) (s : WorkerState) : Manager :=
  match workers m !! wid with
  | None => m
  | Some w => set_workers m (<[wid := mkTracked (tw_ID w) (tw_Model w) s (tw_InFlight w)]> (workers m))
  end.

Definition SetInFlight (m : Manager) (wid : string) (n : Z) : Manager :=
  match workers m !! wid with
  | None => m
  | Some w => set_workers m (<[wid := mkTracked (tw_ID w) (tw_Model w) (tw_State w) n]> (workers m))
  end.

(** ** Counting *)

Definition snapshot_ready (snap : option RoutingSnapshot) (id : ModelIdentity) : gset string :=
  match snap with
  | None => ∅
  | Some s => list_to_set (v_ID <$>
      List.filter (fun w => String.eqb (v_BaseModel w) (BaseModel id) && String.eqb (v_Adapter w) (Adapter id)
                            && v_Healthy w && v_Ready w) (Workers s))
  end.

Definition tracked_in (st : WorkerState) (id : ModelIdentity) (w : trackedWorker) : bool :=
  String.eqb (Key (tw_Model w)) (Key id) && bool_decide (tw_State w = st).

Definition tracked_ready (m : Manager) (id : ModelIdentity) : gset string :=
  list_to_set (tw_ID <$> List.filter (tracked_in StateReady id) (map_to_list (workers m)).*2).

Definition readyCount (m : Manager) (snap : option RoutingSnapshot) (id : ModelIdentity) : Z :=
  Z.of_nat (size (snapshot_ready snap id ∪ tracked_ready m id)).

Definition provisioningCount (m : Manager) (id : ModelIdentity) : Z :=
  count (tracked_in StateProvisioning id) (map_to_list (workers m)).*2.

(** The last view of a worker counts.  The sums are those of a 64-bit [int],
    so the order in which the map is ranged over does not matter. *)
Definition active_by_worker (ws : list WorkerView) (id : ModelIdentity) : gmap string Z :=
  foldl (fun m w => if String.eqb (v_BaseModel w) (BaseModel id) && String.eqb (v_Adapter w) (Adapter id)
                    then <[v_ID w := wrap_i64 (v_QueueDepth w + v_InFlight w)]> m else m) ∅ ws.

Definition sumActive (snap : option RoutingSnapshot) (id : ModelIdentity) : Z :=
  match snap with
  | None => 0
  | Some s => map_fold (fun _ n total => wrap_i64 (total + n)) 0 (active_by_worker (Workers s) id)
  end.

(** ** Scaling up *)

Definition placeholder (id : ModelIdentity) : string := "provisioning-" ++ Key id.

(** [scaleUp]: [provisioned] is the answer of the provisioner; with a
    lifecycle the new worker waits to be found ready. *)
Definition scaleUp (m : Manager) (id : ModelIdentity) (provisioned : result error string) (lifecycle : bool)
    : option error * Manager :=
  let m := set_workers m (<[placeholder id := mkTracked (placeholder id) id StateProvisioning 0]> (workers m)) in
  let m := set_workers m (delete (placeholder id) (workers m)) in
  match provisioned with
  | Err e => (Some e, m)
  | Ok wid =>
      let m := set_workers m (<[wid := mkTracked wid id StateProvisioning 0]> (workers m)) in
      let m := clear_pending m id in
      (None, if lifecycle then m else set_state m wid StateReady)
  end.

(** The goroutine [scaleUp] starts with a lifecycle, when [WaitReady] returns:
    first the callback of [SetLifecycle], then the same state again. *)
Definition lifecycle_ready (m : Manager) (wid : string) : Manager :=
  set_state (set_state m wid StateReady) wid StateReady.

Definition lifecycle_failed (m : Manager) (wid : string) : Manager :=
  set_state (log_retire m wid) wid StateRetired.

(** ** Draining *)

(** The least loaded of the ready workers of the model, the first one met. *)
Definition drain_pick (order : list trackedWorker) (id : ModelIdentity) : option trackedWorker :=
  foldl (fun pick w =>
    if tracked_in StateReady id w then
      match pick with
      | None => Some w
      | Some p => if tw_InFlight w <? tw_InFlight p then Some w else pick
      end
    else pick) None order.

(** The polls of the wait: what [SetInFlight] another goroutine made before
    it, and whether the context ended during the sleep after it.  The list
    ends with the deadline. *)
Abbreviation polls := (list (option Z * bool)).

Fixpoint wait_drained (ps : polls) (m : Manager) (wid : string) : bool * Manager :=
  match ps with
  | [] => (true, m)
  | (upd, cancelled) :: rest =>
      let m := match upd with None => m | Some n => SetInFlight m wid n end in
      let inflight := match workers m !! wid with None => 0 | Some w => tw_InFlight w end in
      if inflight <=? 0 then (true, m)
      else if cancelled then (false, m)
      else wait_drained rest m wid
  end.

Section Manager.
(** Go's iteration over the workers of the map, in some order *)
Variable iter : gmap string trackedWorker -> list trackedWorker.

Definition drainOne (m : Manager) (id : ModelIdentity) (ps : polls) : option error * Manager :=
  match drain_pick (iter (workers m)) id with
  | None => (None, clear_pending m id)
  | Some pick =>
      let wid := tw_ID pick in
      let m := set_state m wid StateDraining in
      let '(drained, m) := wait_drained ps m wid in
      if negb drained then (Some ErrCtxCanceled, m)
      else
        let m := log_retire m wid in
        let m := set_state m wid StateRetired in
        (None, clear_pending m id)
  end.

(** ** Reconciliation *)

(** What the world answers during one reconciliation. *)
Record inputs := mkInputs { now : Z; provisioned : result error string; drain_polls : polls }.

Definition rawDesired (policy : ScalingPolicy) (active ready : Z) : Z :=
  let target := if TargetConcurrency policy <=? 0 then 16 else TargetConcurrency policy in
  let raw := ceilDiv active target in
  if (0 <? active) &&
     fltb (fdiv (f_of_Z active) (f_of_Z (wrap_i64 (target * Z.max ready 1)))) (ScaleUpUtilization policy) &&
     (raw <=? ready)
  then ready else raw.

Definition reconcile (lifecycle : bool) (snap : option RoutingSnapshot) (m : Manager) (id : ModelIdentity)
    (i : inputs) : option error * Manager :=
  let policy := PolicyGet (policies m) id in
  let ready := readyCount m snap id in
  let active := sumActive snap id in
  let want := clamp (rawDesired policy active ready) (MinReplicas policy) (MaxReplicas policy) in
  let '(want, h) := Apply (hyst m) (Key id) want ready policy (now i) in
  let m := set_desired (set_hyst m h) (Key id) want in
  let effective := ready + provisioningCount m id in
  if effective <? want then scaleUp m id (provisioned i) lifecycle
  else if want <? ready then drainOne m id (drain_polls i)
  else (None, clear_pending m id).

(** [discoverModels]: the models of the snapshot and of the tracked workers
    that are not retired. *)
Definition discoverModels (snap : option RoutingSnapshot) (m : Manager) : gmap string ModelIdentity :=
  let of_snap := match snap with
                 | None => ∅
                 | Some s => foldl (fun seen w => if String.eqb (v_BaseModel w) "" then seen
                                                  else let id := mkModel (v_BaseModel w) (v_Adapter w) in
                                                       <[Key id := id]> seen) ∅ (Workers s)
                 end in
  foldl (fun seen w => if bool_decide (tw_State w <> StateRetired) then <[Key (tw_Model w) := tw_Model w]> seen else seen)
        of_snap (iter (workers m)).

(** [ReconcileAll]: reload the policies and reconcile every discovered model
    in turn; errors are logged. *)
Definition ReconcileAll (lifecycle : bool) (snap : option RoutingSnapshot) (m : Manager)
    (rows : option (result error (list ScalingPolicy))) (answer : ModelIdentity -> inputs) : Manager :=
  let m := mkManager (ReloadPolicies (policies m) rows).2 (hyst m) (workers m) (desired m) (retires m) in
  foldl (fun m id => (reconcile lifecycle snap m id (answer id)).2) m (map_to_list (discoverModels snap m)).*2.
End Manager.

(** ** Activation on demand *)

Definition NeedsActivation (m : Manager) (snap : option RoutingSnapshot) (baseModel : string) : bool :=
  let id := mkModel baseModel "" in
  if 0 <? MinReplicas (PolicyGet (policies m) id) then false
  else readyCount m snap id =? 0.

Definition Activate (lifecycle : bool) (m : Manager) (snap : option RoutingSnapshot) (baseModel : string)
    (provisioned : result error string) : option error * Manager :=
  let id := mkModel baseModel "" in
  if 0 <? readyCount m snap id then (None, m) else scaleUp m id provisioned lifecycle.

(** ** Lemmas *)

(** How many tracked workers pass a test. *)
Definition tally (f : trackedWorker -> bool) (ws : gmap string trackedWorker) : Z := count f (map_to_list ws).*2.

Lemma tally_fresh f ws k w : ws !! k = None -> tally f (<[k := w]> ws) = b2z (f w) + tally f ws.
Proof.
  intros Hk. unfold tally. rewrite (count_perm f _ ((k, w) :: map_to_list ws).*2).
  - cbn. apply count_cons.
  - by rewrite map_to_list_insert.
Qed.

Lemma tally_delete f ws k :
  tally f (delete k ws) = tally f ws - match ws !! k with Some w => b2z (f w) | None => 0 end.
Proof.
  destruct (ws !! k) as [w|] eqn:E; [|rewrite delete_id by done; lia].
  rewrite <- (insert_delete_id ws k w E) at 2. rewrite tally_fresh by apply lookup_delete_eq. lia.
Qed.

Lemma tally_insert f ws k w :
  tally f (<[k := w]> ws) = tally f ws + b2z (f w) - match ws !! k with Some v => b2z (f v) | None => 0 end.
Proof.
  rewrite <- insert_delete_eq, tally_fresh by apply lookup_delete_eq. rewrite tally_delete. lia.
Qed.

Lemma tally_nonneg f ws : 0 <= tally f ws.
Proof. apply count_nonneg. Qed.

Lemma b2z_range b : 0 <= b2z b <= 1.
Proof. destruct b; cbn; lia. Qed.

Lemma elem_of_tracked_ready m id x :
  x ∈ tracked_ready m id <-> exists k w, workers m !! k = Some w /\ tracked_in StateReady id w = true /\ tw_ID w = x.
Proof.
  unfold tracked_ready. rewrite elem_of_list_to_set, list_elem_of_fmap. split.
  - intros (w & -> & Hw). rewrite list_elem_of_In, filter_In, <- list_elem_of_In in Hw. destruct Hw as [Hw Hf].
    apply list_elem_of_fmap in Hw as ([k w'] & -> & Hk%elem_of_map_to_list). by exists k, w'.
  - intros (k & w & Hk & Hf & <-). exists w. split; [done|]. rewrite list_elem_of_In, filter_In, <- list_elem_of_In.
    split; [|done]. apply list_elem_of_fmap. exists (k, w). split; [done|]. by apply elem_of_map_to_list.
Qed.

(** Changing the state of a worker to anything but provisioning. *)
Lemma provisioning_set_state m wid s id :
  s <> StateProvisioning -> provisioningCount (set_state m wid s) id <= provisioningCount m id.
Proof.
  intros Hs. unfold set_state. destruct (workers m !! wid) as [w|] eqn:E; [|done].
  change (tally (tracked_in StateProvisioning id)
    (<[wid := mkTracked (tw_ID w) (tw_Model w) s (tw_InFlight w)]> (workers m)) <= provisioningCount m id).
  rewrite tally_insert, E. unfold tracked_in at 2. cbn [tw_State tw_Model].
  rewrite (bool_decide_eq_false_2 (s = StateProvisioning)), andb_false_r by done.
  change (provisioningCount m id) with (tally (tracked_in StateProvisioning id) (workers m)).
  pose proof (b2z_range (tracked_in StateProvisioning id w)). cbn [b2z]. lia.
Qed.

Lemma provisioning_set_inflight m wid n id :
  provisioningCount (SetInFlight m wid n) id = provisioningCount m id.
Proof.
  unfold SetInFlight. destruct (workers m !! wid) as [w|] eqn:E; [|done].
  change (tally (tracked_in StateProvisioning id)
    (<[wid := mkTracked (tw_ID w) (tw_Model w) (tw_State w) n]> (workers m)) = provisioningCount m id).
  rewrite tally_insert, E. unfold tracked_in at 2 3. cbn [tw_State tw_Model].
  change (provisioningCount m id) with (tally (tracked_in StateProvisioning id) (workers m)). lia.
Qed.

Lemma provisioning_wait ps m wid id :
  provisioningCount (wait_drained ps m wid).2 id = provisioningCount m id.
Proof.
  revert m. induction ps as [|[upd c] ps IH]; intros m; [done|]. cbn [wait_drained].
  assert (provisioningCount (match upd with None => m | Some n => SetInFlight m wid n end) id = provisioningCount m id) as <-
    by (destruct upd; [apply provisioning_set_inflight|done]).
  set (m' := match upd with None => m | Some n => SetInFlight m wid n end).
  destruct (_ <=? 0); [done|]. destruct c; [done|]. apply IH.
Qed.

Lemma provisioning_drain iter m id ps id' :
  provisioningCount (drainOne iter m id ps).2 id' <= provisioningCount m id'.
Proof.
  unfold drainOne. destruct (drain_pick (iter (workers m)) id) as [p|]; [|done].
  pose proof (provisioning_wait ps (set_state m (tw_ID p) StateDraining) (tw_ID p) id') as Hw.
  pose proof (provisioning_set_state m (tw_ID p) StateDraining id' ltac:(done)) as Hd.
  destruct (wait_drained ps (set_state m (tw_ID p) StateDraining) (tw_ID p)) as [drained m'].
  cbn [snd] in Hw. destruct drained; cbn [negb]; [|cbn; lia].
  change (provisioningCount (set_state (log_retire m' (tw_ID p)) (tw_ID p) StateRetired) id' <= provisioningCount m id').
  etrans; [by apply provisioning_set_state|]. change (provisioningCount m' id' <= provisioningCount m id'). lia.
Qed.

Lemma provisioning_scaleUp m id p lc :
  provisioningCount (scaleUp m id p lc).2 id <= provisioningCount m id + 1.
Proof.
  set (f := tracked_in StateProvisioning id).
  assert (tally f (delete (placeholder id) (<[placeholder id := mkTracked (placeholder id) id StateProvisioning 0]> (workers m)))
            <= tally f (workers m)) as Hdel.
  { rewrite delete_insert_eq, tally_delete.
    destruct (workers m !! placeholder id) as [w|]; [pose proof (b2z_range (f w))|]; lia. }
  unfold scaleUp. destruct p as [wid|e]; [|cbn [snd]; change (tally f
    (delete (placeholder id) (<[placeholder id := mkTracked (placeholder id) id StateProvisioning 0]> (workers m)))
    <= tally f (workers m) + 1); lia].
  cbn [snd set_workers workers]. set (ws := delete _ _) in *.
  assert (tally f (<[wid := mkTracked wid id StateProvisioning 0]> ws) <= tally f (workers m) + 1) as Hins.
  { rewrite tally_insert. pose proof (b2z_range (f (mkTracked wid id StateProvisioning 0))).
    destruct (ws !! wid) as [w|]; [pose proof (b2z_range (f w))|]; lia. }
  destruct lc; [exact Hins|]. etrans; [by apply provisioning_set_state|exact Hins].
Qed.

(** The operations leave the recorded wishes and the policies alone. *)
Definition same_wishes (m m' : Manager) : Prop := desired m' = desired m /\ policies m' = policies m.

Lemma wishes_set_state m wid s : same_wishes m (set_state m wid s).
Proof. unfold set_state. by destruct (workers m !! wid). Qed.

Lemma wishes_scaleUp m id p lc : same_wishes m (scaleUp m id p lc).2.
Proof.
  unfold scaleUp. destruct p as [wid|e]; [|done]. destruct lc; [done|]. cbn [snd].
  set (m' := clear_pending _ _). change (same_wishes m' (set_state m' wid StateReady)). apply wishes_set_state.
Qed.

Lemma wishes_wait ps m wid : same_wishes m (wait_drained ps m wid).2.
Proof.
  revert m. induction ps as [|[upd c] ps IH]; intros m; [done|]. cbn [wait_drained].
  set (m' := match upd with None => m | Some n => SetInFlight m wid n end).
  assert (same_wishes m m') as [Hd Hp]
    by (subst m'; destruct upd; [unfold SetInFlight; by destruct (workers m !! wid)|done]).
  clearbody m'.
  destruct (_ <=? 0); [done|]. destruct c; [done|]. destruct (IH m') as [Hd' Hp'].
  split; [by rewrite Hd'|by rewrite Hp'].
Qed.

Lemma wishes_drain iter m id ps : same_wishes m (drainOne iter m id ps).2.
Proof.
  unfold drainOne. destruct (drain_pick (iter (workers m)) id) as [p|]; [|done].
  destruct (wishes_set_state m (tw_ID p) StateDraining) as [Hd Hp].
  destruct (wishes_wait ps (set_state m (tw_ID p) StateDraining) (tw_ID p)) as [Hd' Hp'].
  destruct (wait_drained ps _ (tw_ID p)) as [drained m']. cbn [snd] in *.
  destruct drained; cbn [negb]; [|split; cbn [snd]; congruence].
  destruct (wishes_set_state (log_retire m' (tw_ID p)) (tw_ID p) StateRetired) as [Hd'' Hp''].
  cbn [snd clear_pending set_hyst]. split; [etrans; [exact Hd''|]|etrans; [exact Hp''|]]; cbn; congruence.
Qed.

(** What [reconcile] wishes for. *)
Definition wish (snap : option RoutingSnapshot) (m : Manager) (id : ModelIdentity) (i : inputs) : Z :=
  let policy := PolicyGet (policies m) id in
  let ready := readyCount m snap id in
  decision (default new_state (hby (hyst m) !! Key id)) policy
    (clamp (rawDesired policy (sumActive snap id) ready) (MinReplicas policy) (MaxReplicas policy)) ready (now i).

Lemma reconcile_unfold iter lc snap m id i :
  hstep (hyst m) = 1 ->
  exists h, hstep h = 1 /\
    let m' := set_desired (set_hyst m h) (Key id) (wish snap m id i) in
    reconcile iter lc snap m id i =
      (if readyCount m snap id + provisioningCount m id <? wish snap m id i then scaleUp m' id (provisioned i) lc
       else if wish snap m id i <? readyCount m snap id then drainOne iter m' id (drain_polls i)
       else (None, clear_pending m' id)).
Proof.
  intros Hs. unfold reconcile. set (policy := PolicyGet (policies m) id).
  set (want := clamp _ _ _). pose proof (Apply_decision (hyst m) (Key id) want (readyCount m snap id) policy (now i) Hs) as Hd.
  pose proof (Apply_step (hyst m) (Key id) want (readyCount m snap id) policy (now i)) as Ha.
  destruct (Apply (hyst m) (Key id) want (readyCount m snap id) policy (now i)) as [out h]. cbn [fst snd] in *.
  exists h. split; [congruence|]. subst out. reflexivity.
Qed.

Lemma wish_bounds snap m id i :
  readyCount m snap id - 1 <= wish snap m id i <= readyCount m snap id + 1.
Proof. unfold wish, decision. cbn zeta. repeat case_if; lia. Qed.

Lemma wish_in_policy snap m id i :
  let p := PolicyGet (policies m) id in
  MinReplicas p <= MaxReplicas p -> 0 < MaxReplicas p ->
  MinReplicas p <= readyCount m snap id <= MaxReplicas p ->
  MinReplicas p <= wish snap m id i <= MaxReplicas p.
Proof.
  cbn zeta. intros H1 H2 H3. unfold wish, decision. cbn zeta.
  pose proof (clamp_bounds (rawDesired (PolicyGet (policies m) id) (sumActive snap id) (readyCount m snap id))
    (MinReplicas (PolicyGet (policies m) id)) (MaxReplicas (PolicyGet (policies m) id)) H1 H2) as Hc.
  destruct (pending _); [lia|]. destruct (Z.ltb_spec (readyCount m snap id) (clamp (rawDesired (PolicyGet (policies m) id) (sumActive snap id) (readyCount m snap id))
    (MinReplicas (PolicyGet (policies m) id)) (MaxReplicas (PolicyGet (policies m) id)))); [lia|].
  case_if; [|lia]. zbool. lia.
Qed.

(** ** Properties *)

(** One reconciliation moves the fleet of a model by at most one worker:
    the recorded wish is within one of the ready workers, inside the replica
    bounds of the policy whenever the ready workers are, and there is never
    more than one worker being provisioned on behalf of reconciliation. *)
Theorem reconcile_step_bounded iter lc snap m id i :
  hstep (hyst m) = 1 ->
  let ready := readyCount m snap id in
  let p := PolicyGet (policies m) id in
  let m' := (reconcile iter lc snap m id i).2 in
  exists d, desired m' !! Key id = Some d /\ ready - 1 <= d <= ready + 1 /\
    (MinReplicas p <= MaxReplicas p -> 0 < MaxReplicas p -> MinReplicas p <= ready <= MaxReplicas p ->
     MinReplicas p <= d <= MaxReplicas p) /\
    provisioningCount m' id <= Z.max 1 (provisioningCount m id).
Proof.
  intros Hs ready p m'. exists (wish snap m id i).
  pose proof (wish_bounds snap m id i) as Hw. pose proof (wish_in_policy snap m id i) as Hp.
  destruct (reconcile_unfold iter lc snap m id i Hs) as (h & _ & E). cbn zeta in E.
  set (m1 := set_desired (set_hyst m h) (Key id) (wish snap m id i)) in E.
  assert (desired m1 !! Key id = Some (wish snap m id i)) as Hd by (cbn; apply lookup_insert_eq).
  assert (provisioningCount m1 id = provisioningCount m id) as Hpc by done.
  pose proof (tally_nonneg (tracked_in StateProvisioning id) (workers m)) as Hnn.
  change (0 <= provisioningCount m id) in Hnn. subst m'. rewrite E.
  destruct (Z.ltb_spec (readyCount m snap id + provisioningCount m id) (wish snap m id i)).
  - destruct (wishes_scaleUp m1 id (provisioned i) lc) as [-> _]. split_and!; try done; try (subst ready; lia).
    pose proof (provisioning_scaleUp m1 id (provisioned i) lc). lia.
  - destruct (Z.ltb_spec (wish snap m id i) (readyCount m snap id)).
    + destruct (wishes_drain iter m1 id (drain_polls i)) as [-> _]. split_and!; try done; try (subst ready; lia).
      pose proof (provisioning_drain iter m1 id (drain_polls i) id). lia.
    + split_and!; try done; try (subst ready; lia). change (provisioningCount m1 id <= Z.max 1 (provisioningCount m id)). lia.
Qed.

(** *** Convergence *)

Lemma scaleUp_workers m id wid lc :
  workers (scaleUp m id (Ok wid) lc).2 =
    <[wid := mkTracked wid id (if lc then StateProvisioning else StateReady) 0]> (delete (placeholder id) (workers m)).
Proof.
  unfold scaleUp. cbn [snd]. destruct lc; [cbn; by rewrite delete_insert_eq|].
  unfold set_state. cbn. rewrite lookup_insert_eq. cbn. by rewrite insert_insert_eq, delete_insert_eq.
Qed.

Lemma scaleUp_hyst m id wid lc : hyst (scaleUp m id (Ok wid) lc).2 = ClearPending (hyst m) (Key id).
Proof. unfold scaleUp. destruct lc; [done|]. cbn [snd]. unfold set_state. cbn. by rewrite lookup_insert_eq. Qed.

(** Every tracked worker is kept under its own id. *)
Definition wf (m : Manager) : Prop := forall k w, workers m !! k = Some w -> tw_ID w = k.

Lemma tracked_ready_fresh m id ws wid :
  workers m !! wid = None -> ws = <[wid := mkTracked wid id StateReady 0]> (workers m) ->
  tracked_ready (set_workers m ws) id = {[wid]} ∪ tracked_ready m id.
Proof.
  intros Hf ->. apply set_eq. intros x. rewrite elem_of_union, elem_of_singleton, !elem_of_tracked_ready.
  cbn [set_workers workers]. split.
  - intros (k & w & Hk & Hr & <-). destruct (decide (k = wid)) as [->|Hne].
    + rewrite lookup_insert_eq in Hk. left. by simplify_eq.
    + rewrite lookup_insert_ne in Hk by done. right. by exists k, w.
  - intros [->|(k & w & Hk & Hr & <-)].
    + exists wid. eexists. rewrite lookup_insert_eq. split; [done|]. unfold tracked_in. cbn.
      by rewrite String.eqb_refl.
    + exists k, w. rewrite lookup_insert_ne; [done|]. intros ->. congruence.
Qed.

(** The wish without history, and what the reconciliation aims for. *)
Definition goal (snap : option RoutingSnapshot) (p : ScalingPolicy) (id : ModelIdentity) : Z :=
  clamp (ceilDiv (sumActive snap id) (if TargetConcurrency p <=? 0 then 16 else TargetConcurrency p))
    (MinReplicas p) (MaxReplicas p).

Definition sane (p : ScalingPolicy) : Prop := MinReplicas p <= MaxReplicas p \/ MaxReplicas p <= 0.

Lemma raw_towards_goal snap p id ready :
  sane p -> ready <= goal snap p id ->
  clamp (rawDesired p (sumActive snap id) ready) (MinReplicas p) (MaxReplicas p) = goal snap p id.
Proof.
  unfold goal, rawDesired, sane. set (raw := ceilDiv _ _). intros Hp Hr.
  destruct (_ && (raw <=? ready)) eqn:E; [|done]. apply andb_true_iff in E as [_ E]. zbool. revert Hr.
  unfold clamp. destruct (Z.ltb_spec raw (MinReplicas p)), (Z.ltb_spec 0 (MaxReplicas p)),
    (Z.ltb_spec (MaxReplicas p) raw), (Z.ltb_spec ready (MinReplicas p)), (Z.ltb_spec (MaxReplicas p) ready); cbn; lia.
Qed.

(** Nothing under way for the model, and ids the provisioner may hand out. *)
Record quiet (snap : option RoutingSnapshot) (id : ModelIdentity) (ids : list string) (m : Manager) : Prop := {
  q_wf : wf m;
  q_step : hstep (hyst m) = 1;
  q_calm : pending (default new_state (hby (hyst m) !! Key id)) = false;
  q_idle : provisioningCount m id = 0;
  q_slot : workers m !! placeholder id = None;
  q_nodup : NoDup ids;
  q_fresh : forall x, x ∈ ids -> workers m !! x = None /\ x <> placeholder id /\ x ∉ snapshot_ready snap id
}.

Lemma quiet_wish_up snap id ids m i :
  quiet snap id ids m -> sane (PolicyGet (policies m) id) ->
  readyCount m snap id < goal snap (PolicyGet (policies m) id) id -> wish snap m id i = readyCount m snap id + 1.
Proof.
  intros Hq Hsane Hlt. unfold wish, decision. cbn zeta. rewrite (q_calm _ _ _ _ Hq), raw_towards_goal by (done || lia).
  by rewrite (proj2 (Z.ltb_lt _ _)) by lia.
Qed.

Lemma quiet_wish_goal snap id ids m i :
  quiet snap id ids m -> sane (PolicyGet (policies m) id) ->
  readyCount m snap id = goal snap (PolicyGet (policies m) id) id -> wish snap m id i = readyCount m snap id.
Proof.
  intros Hq Hsane Hr. unfold wish, decision. cbn zeta. rewrite (q_calm _ _ _ _ Hq), raw_towards_goal by (done || lia).
  rewrite <- Hr, Z.ltb_irrefl. done.
Qed.

Lemma quiet_step iter snap id wid ids m i :
  quiet snap id (wid :: ids) m -> provisioned i = Ok wid ->
  sane (PolicyGet (policies m) id) -> readyCount m snap id < goal snap (PolicyGet (policies m) id) id ->
  let m' := (reconcile iter false snap m id i).2 in
  quiet snap id ids m' /\ readyCount m' snap id = readyCount m snap id + 1 /\ policies m' = policies m.
Proof.
  intros Hq Hp Hsane Hlt m'. pose proof Hq as [Hwf Hs Hc Hi Hslot Hnd Hfr]. inversion Hnd as [|? ? Hx Hnd']; subst.
  destruct (Hfr wid) as (Hnew & Hne & Hns); [set_solver|].
  destruct (reconcile_unfold iter false snap m id i Hs) as (h & Hh & E). cbn zeta in E.
  assert (wish snap m id i = readyCount m snap id + 1) as Hw by by apply (quiet_wish_up snap id (wid :: ids)).
  rewrite Hi, (proj2 (Z.ltb_lt _ _)) in E by lia. subst m'. rewrite E, Hp.
  set (m1 := set_desired (set_hyst m h) (Key id) (wish snap m id i)).
  pose proof (scaleUp_workers m1 id wid false) as Hws. pose proof (scaleUp_hyst m1 id wid false) as Hhy.
  destruct (wishes_scaleUp m1 id (Ok wid) false) as [_ Hpol].
  set (m2 := (scaleUp m1 id (Ok wid) false).2) in *. cbn [m1 set_desired set_hyst workers] in Hws.
  rewrite delete_id in Hws by done. split_and!; [|unfold readyCount|done].
  - split.
    + intros k w. rewrite Hws. destruct (decide (k = wid)) as [->|]; [rewrite lookup_insert_eq; by intros [= <-]|].
      rewrite lookup_insert_ne by done. apply Hwf.
    + rewrite Hhy, ClearPending_step. done.
    + rewrite Hhy. apply ClearPending_pending.
    + change (tally (tracked_in StateProvisioning id) (workers m2) = 0). rewrite Hws, tally_fresh by done.
      change (tally (tracked_in StateProvisioning id) (workers m)) with (provisioningCount m id). rewrite Hi.
      unfold tracked_in. cbn [tw_State]. rewrite bool_decide_eq_false_2 by done. by rewrite andb_false_r.
    + by rewrite Hws, lookup_insert_ne.
    + done.
    + intros x Hin. destruct (Hfr x) as (? & ? & ?); [set_solver|]. rewrite Hws, lookup_insert_ne; [done|].
      intros ->. done.
  - assert (tracked_ready m2 id = {[wid]} ∪ tracked_ready m id) as ->.
    { rewrite <- (tracked_ready_fresh m id (workers m2) wid); done. }
    replace (snapshot_ready snap id ∪ ({[wid]} ∪ tracked_ready m id)) with
      ({[wid]} ∪ (snapshot_ready snap id ∪ tracked_ready m id)) by set_solver.
    rewrite size_union; [rewrite size_singleton; lia|].
    apply disjoint_singleton_l. intros [?|Ht]%elem_of_union; [done|].
    apply elem_of_tracked_ready in Ht as (k & w & Hk & _ & Hid). rewrite (Hwf k w Hk) in Hid. congruence.
Qed.

Lemma quiet_stable iter snap id ids m i lc :
  quiet snap id ids m -> sane (PolicyGet (policies m) id) ->
  readyCount m snap id = goal snap (PolicyGet (policies m) id) id ->
  workers (reconcile iter lc snap m id i).2 = workers m.
Proof.
  intros Hq Hsane Hr. destruct (reconcile_unfold iter lc snap m id i (q_step _ _ _ _ Hq)) as (h & _ & ->).
  rewrite (quiet_wish_goal snap id ids m i Hq Hsane Hr).
  rewrite (q_idle _ _ _ _ Hq), Z.add_0_r, Z.ltb_irrefl. done.
Qed.

(** C29: reconciliation reaches the load's demand: from a model with nothing
    under way, with the load of the snapshot and a sane policy unchanged, and
    a provisioner that hands out new workers that are ready at once, as many
    rounds as replicas are missing bring the ready workers to the number the
    policy asks for (the load divided by the target, within the bounds), and
    a further round changes nothing. *)
Theorem fleet_converges_to_demand iter snap id ids ins m i :
  quiet snap id ids m -> provisioned <$> ins = Ok <$> ids ->
  let p := PolicyGet (policies m) id in
  sane p -> readyCount m snap id + Z.of_nat (length ids) = goal snap p id ->
  let m' := foldl (fun m i => (reconcile iter false snap m id i).2) m ins in
  readyCount m' snap id = goal snap p id /\ workers (reconcile iter false snap m' id i).2 = workers m'.
Proof.
  cbn zeta. revert ins m. induction ids as [|wid ids IH]; intros [|i0 ins] m Hq His Hsane Hlen; try done; cbn [foldl].
  - cbn in Hlen. split; [lia|]. eapply quiet_stable; [exact Hq|done|lia].
  - cbn in His. injection His as Hi0 His. cbn [length] in Hlen.
    destruct (quiet_step iter snap id wid ids m i0 Hq Hi0 Hsane) as (Hq' & Hr' & Hp'); [lia|].
    specialize (IH ins _ Hq' His). rewrite Hp', Hr' in IH. apply IH; [done|lia].
Qed.

(** *** Activation on demand *)

Definition activate_all (m : Manager) (snap : option RoutingSnapshot) (base : string) (ids : list string) : Manager :=
  foldl (fun m wid => (Activate true m snap base (Ok wid)).2) m ids.

Lemma tracked_ready_provisioning m id wid m' :
  workers m !! wid = None -> workers m' = <[wid := mkTracked wid id StateProvisioning 0]> (workers m) ->
  tracked_ready m' id = tracked_ready m id.
Proof.
  intros Hf E. apply set_eq. intros x. rewrite !elem_of_tracked_ready, E. split.
  - intros (k & w & Hk & Hr & <-). destruct (decide (k = wid)) as [->|Hne].
    + rewrite lookup_insert_eq in Hk. simplify_eq. unfold tracked_in in Hr. cbn in Hr. by rewrite andb_false_r in Hr.
    + rewrite lookup_insert_ne in Hk by done. by exists k, w.
  - intros (k & w & Hk & Hr & <-). exists k, w. rewrite lookup_insert_ne; [done|]. intros ->. congruence.
Qed.

(** Activation is not bounded by the policy: while no worker of a model is
    ready, every request that activates it provisions a worker of its own,
    however many are already being provisioned and whatever [MaxReplicas] is,
    and the model still needs activation afterwards. *)
Theorem activation_stampede m snap base ids :
  let id := mkModel base "" in
  readyCount m snap id = 0 -> MinReplicas (PolicyGet (policies m) id) <= 0 ->
  workers m !! placeholder id = None -> NoDup ids ->
  Forall (fun x => workers m !! x = None /\ x <> placeholder id) ids ->
  let m' := activate_all m snap base ids in
  provisioningCount m' id = provisioningCount m id + Z.of_nat (length ids) /\ NeedsActivation m' snap base = true.
Proof.
  cbn zeta. set (id := mkModel base ""). revert m. induction ids as [|wid ids IH]; intros m Hr Hmin Hslot Hnd Hfr.
  - cbn. split; [lia|]. unfold NeedsActivation. fold id. rewrite Hr, (proj2 (Z.ltb_ge _ _)) by done. done.
  - inversion Hnd as [|? ? Hx Hnd']; subst. inversion Hfr as [|? ? [Hw Hne] Hfr']; subst.
    cbn [activate_all foldl]. change (foldl _ _ ids) with (activate_all (Activate true m snap base (Ok wid)).2 snap base ids).
    unfold Activate. fold id. rewrite Hr, Z.ltb_irrefl.
    pose proof (scaleUp_workers m id wid true) as E. destruct (wishes_scaleUp m id (Ok wid) true) as [_ Hp].
    set (m1 := (scaleUp m id (Ok wid) true).2) in *. rewrite delete_id in E by done.
    destruct (IH m1) as [IHp IHn].
    + unfold readyCount. rewrite (tracked_ready_provisioning m id wid m1 Hw E). exact Hr.
    + by rewrite Hp.
    + by rewrite E, lookup_insert_ne.
    + done.
    + apply list.Forall_forall. intros x Hin. rewrite list.Forall_forall in Hfr'. destruct (Hfr' x Hin) as [? ?].
      rewrite E, lookup_insert_ne; [done|]. intros ->. done.
    + split; [|exact IHn]. rewrite IHp.
      change (provisioningCount m1 id) with (tally (tracked_in StateProvisioning id) (workers m1)).
      rewrite E, tally_fresh by done. unfold tracked_in at 1. cbn [tw_State tw_Model length].
      rewrite String.eqb_refl, bool_decide_eq_true_2 by done. cbn [andb b2z].
      change (provisioningCount m id) with (tally (tracked_in StateProvisioning id) (workers m)). lia.
Qed.

(** A fleet without workers stays without: when nothing is tracked and the
    snapshot has no worker, no number of reconciliations provisions anything,
    whatever replicas the policies of the database demand, and a model with a
    positive minimum is not activated on demand either. *)
Theorem cold_fleet_stays_cold iter lc m rounds :
  iter ∅ = [] -> workers m = ∅ ->
  let m' := foldl (fun m r => ReconcileAll iter lc r.1.1 m r.1.2 r.2) m rounds in
  Forall (fun r => match r.1.1 with None => True | Some s => Workers s = [] end) rounds ->
  workers m' = ∅ /\ retires m' = retires m /\
  forall snap base, 0 < MinReplicas (PolicyGet (policies m') (mkModel base "")) -> NeedsActivation m' snap base = false.
Proof.
  cbn zeta. intros Hit. revert m. induction rounds as [|[[snap rows] answer] rounds IH]; intros m Hw Hr.
  - cbn. split_and!; try done. intros snap base Hmin. unfold NeedsActivation. by rewrite (proj2 (Z.ltb_lt _ _)).
  - inversion Hr as [|? ? Hs Hr']; subst. cbn [foldl fst snd] in *.
    assert (exists p, ReconcileAll iter lc snap m rows answer = mkManager p (hyst m) (workers m) (desired m) (retires m))
      as [p ->].
    { unfold ReconcileAll, discoverModels. cbn [workers]. rewrite Hw, Hit. cbn [foldl].
      destruct snap as [s|]; [rewrite Hs|]; cbn [foldl]; rewrite map_to_list_empty; by eexists. }
    apply (IH (mkManager p (hyst m) (workers m) (desired m) (retires m))); done.
Qed.

(** *** Draining *)

Lemma drain_pick_spec order id :
  match drain_pick order id with
  | None => Forall (fun w => tracked_in StateReady id w = false) order
  | Some p => p ∈ order /\ tracked_in StateReady id p = true /\
      forall w, w ∈ order -> tracked_in StateReady id w = true -> tw_InFlight p <= tw_InFlight w
  end.
Proof.
  unfold drain_pick. induction order as [|w order IH] using rev_ind; [constructor|].
  rewrite foldl_app. cbn [foldl]. destruct (foldl _ None order) as [p|].
  - destruct IH as (Hin & Hp & Hmin). destruct (tracked_in StateReady id w) eqn:Ew.
    + destruct (Z.ltb_spec (tw_InFlight w) (tw_InFlight p)).
      * split_and!; [set_solver|done|]. intros v [Hv|Hv%list_elem_of_singleton]%elem_of_app Hr; [|subst v; lia].
        specialize (Hmin v Hv Hr). lia.
      * split_and!; [set_solver|done|]. intros v [Hv|Hv%list_elem_of_singleton]%elem_of_app Hr; [by apply Hmin|subst v; lia].
    + split_and!; [set_solver|done|]. intros v [Hv|Hv%list_elem_of_singleton]%elem_of_app Hr; [by apply Hmin|congruence].
  - destruct (tracked_in StateReady id w) eqn:Ew.
    + rewrite list.Forall_forall in IH. split_and!; [set_solver|done|].
      intros v [Hv|Hv%list_elem_of_singleton]%elem_of_app Hr; [|subst v; lia]. rewrite (IH v Hv) in Hr. done.
    + apply Forall_app. split; [done|]. by constructor.
Qed.

(** Waiting touches nothing but the in-flight count of the worker. *)
Lemma wait_drained_frame ps m wid :
  (Forall (fun q => q.2 = false) ps -> (wait_drained ps m wid).1 = true) /\
  retires (wait_drained ps m wid).2 = retires m /\
  (forall k, k <> wid -> workers (wait_drained ps m wid).2 !! k = workers m !! k) /\
  (forall w, workers m !! wid = Some w -> exists n, workers (wait_drained ps m wid).2 !! wid =
     Some (mkTracked (tw_ID w) (tw_Model w) (tw_State w) n)).
Proof.
  revert m. induction ps as [|[upd c] ps IH]; intros m.
  { cbn. split_and!; try done. intros [] ?. by eexists. }
  cbn [wait_drained]. set (m' := match upd with None => m | Some n => SetInFlight m wid n end).
  assert (retires m' = retires m /\ (forall k, k <> wid -> workers m' !! k = workers m !! k) /\
    (forall w, workers m !! wid = Some w -> exists n, workers m' !! wid =
     Some (mkTracked (tw_ID w) (tw_Model w) (tw_State w) n))) as (Hr & Hk & Hw).
  { subst m'. destruct upd as [n|]; [|split_and!; try done; intros [] ?; by eexists].
    unfold SetInFlight. destruct (workers m !! wid) as [w|] eqn:E; [|rewrite ?E; by split_and!].
    cbn. split_and!; [done| |].
    - intros k Hk. by rewrite lookup_insert_ne.
    - intros w' [= <-]. exists n. by rewrite lookup_insert_eq. }
  clearbody m'. destruct (_ <=? 0); [by split_and!|]. destruct c.
  { split_and!; try done. intros Hf. inversion Hf; subst. done. }
  destruct (IH m') as (H1 & H2 & H3 & H4). split_and!.
  - intros Hf. inversion Hf; subst. by apply H1.
  - congruence.
  - intros k Hne. by rewrite H3, Hk.
  - intros w Hm. destruct (Hw w Hm) as [n Hn]. destruct (H4 _ Hn) as [n' Hn']. exists n'. exact Hn'.
Qed.

(** Scaling down retires exactly one worker: a ready tracked worker of the
    model with the fewest requests in flight, marked draining while the wait
    lasts and retired with the provisioner at its end, every other worker left
    as it is; without a ready tracked worker nothing happens.  Go's order of
    iteration over the map is arbitrary. *)
Theorem drain_retires_least_loaded iter m id ps :
  (forall ws, iter ws ≡ₚ (map_to_list ws).*2) -> wf m -> Forall (fun q => q.2 = false) ps ->
  let m' := (drainOne iter m id ps).2 in
  (drainOne iter m id ps).1 = None /\
  ((exists p, workers m !! tw_ID p = Some p /\ tracked_in StateReady id p = true /\
      (forall k w, workers m !! k = Some w -> tracked_in StateReady id w = true -> tw_InFlight p <= tw_InFlight w) /\
      retires m' = (retires m ++ [tw_ID p])%list /\
      (exists w, workers m' !! tw_ID p = Some w /\ tw_State w = StateRetired) /\
      forall k, k <> tw_ID p -> workers m' !! k = workers m !! k) \/
   (tracked_ready m id = ∅ /\ workers m' = workers m /\ retires m' = retires m)).
Proof.
  intros Hit Hwf Hps. cbn zeta. unfold drainOne. pose proof (drain_pick_spec (iter (workers m)) id) as Hs.
  assert (forall k w, workers m !! k = Some w -> w ∈ iter (workers m)) as Hmem.
  { intros k w Hk. rewrite Hit. apply list_elem_of_fmap. exists (k, w). split; [done|]. by apply elem_of_map_to_list. }
  destruct (drain_pick (iter (workers m)) id) as [p|].
  - destruct Hs as (Hin & Hp & Hmin). rewrite Hit in Hin.
    apply list_elem_of_fmap in Hin as ([k p'] & [= ->] & Hk%elem_of_map_to_list).
    pose proof (Hwf k p' Hk) as Hid. rewrite <- Hid in Hk. set (wid := tw_ID p') in *.
    assert (workers (set_state m wid StateDraining) = <[wid := mkTracked wid (tw_Model p') StateDraining (tw_InFlight p')]> (workers m)
            /\ retires (set_state m wid StateDraining) = retires m) as [Hw1 Hr1] by (unfold set_state; by rewrite Hk).
    destruct (wait_drained_frame ps (set_state m wid StateDraining) wid) as (H1 & H2 & H3 & H4).
    specialize (H1 Hps). rewrite Hw1 in H3, H4. destruct (H4 _ (lookup_insert_eq _ _ _)) as [n Hn].
    destruct (wait_drained ps (set_state m wid StateDraining) wid) as [drained m2]. cbn [fst snd] in *. subst drained.
    cbn [negb fst snd]. split; [done|]. left. exists p'. unfold set_state. cbn [log_retire workers]. rewrite Hn.
    cbn [clear_pending set_hyst set_workers workers retires log_retire]. split_and!; try done.
    + intros k' w Hk' Hr. apply Hmin; [by eapply Hmem|done].
    + by rewrite H2, Hr1.
    + eexists. split; [apply lookup_insert_eq|done].
    + intros k' Hne. rewrite lookup_insert_ne by done. rewrite H3 by done. by rewrite lookup_insert_ne.
  - split; [done|]. right. split_and!; try done. apply set_eq. intros x. rewrite elem_of_tracked_ready. split; [|set_solver].
    intros (k & w & Hk & Hr & _). rewrite list.Forall_forall in Hs. rewrite (Hs w (Hmem k w Hk)) in Hr. done.
Qed.

(** *** Runs of the manager

    The steps of the manager in the program: nothing outside the package ever
    calls [SetInFlight]. *)
Inductive reach (iter : gmap string trackedWorker -> list trackedWorker) : Manager -> Prop :=
| reach_new p : reach iter (NewManager p)
| reach_policies m p :
    reach iter m -> reach iter (mkManager p (hyst m) (workers m) (desired m) (retires m))
| reach_reconcile m lc snap id i :
    reach iter m -> Forall (fun q => q.1 = None) (drain_polls i) -> reach iter (reconcile iter lc snap m id i).2
| reach_activate m lc snap base p :
    reach iter m -> reach iter (Activate lc m snap base p).2
| reach_ready m wid : reach iter m -> reach iter (lifecycle_ready m wid)
| reach_failed m wid : reach iter m -> reach iter (lifecycle_failed m wid).

(** Workers are kept under their ids and no request is ever recorded. *)
Definition untouched (ws : gmap string trackedWorker) : Prop :=
  map_Forall (fun k w => tw_ID w = k /\ tw_InFlight w = 0) ws.

Lemma untouched_set_state m wid s : untouched (workers m) -> untouched (workers (set_state m wid s)).
Proof.
  unfold set_state. destruct (workers m !! wid) as [w|] eqn:E; [|done]. intros Hu.
  apply map_Forall_insert_2; [|done]. apply (Hu wid w E).
Qed.

Lemma untouched_scaleUp m id p lc : untouched (workers m) -> untouched (workers (scaleUp m id p lc).2).
Proof.
  intros Hu. assert (untouched (delete (placeholder id) (workers m))) as Hd by (by apply map_Forall_delete).
  destruct p as [wid|e].
  - rewrite scaleUp_workers. apply map_Forall_insert_2; [done|exact Hd].
  - cbn. by rewrite delete_insert_eq.
Qed.

Lemma untouched_wait ps m wid :
  Forall (fun q => q.1 = None) ps -> untouched (workers m) -> wait_drained ps m wid = (true, m).
Proof.
  intros Hf Hu. destruct ps as [|[upd c] ps]; [done|]. inversion Hf as [|? ? Hn _]; subst. cbn in Hn. subst upd.
  cbn. destruct (workers m !! wid) as [w|] eqn:E; [|done]. destruct (Hu wid w E) as [_ ->]. done.
Qed.

Lemma untouched_drain iter m id ps :
  Forall (fun q => q.1 = None) ps -> untouched (workers m) -> untouched (workers (drainOne iter m id ps).2).
Proof.
  intros Hf Hu. unfold drainOne. destruct (drain_pick (iter (workers m)) id) as [p|]; [|done].
  rewrite untouched_wait by (auto using untouched_set_state). cbn [negb snd clear_pending set_hyst workers].
  apply (untouched_set_state (log_retire _ _)). by apply untouched_set_state.
Qed.

Lemma reach_untouched iter m : reach iter m -> untouched (workers m).
Proof.
  induction 1 as [p|m p Hr IH|m lc snap id i Hr IH Hf|m lc snap base p Hr IH|m wid Hr IH|m wid Hr IH].
  - apply map_Forall_empty.
  - exact IH.
  - unfold reconcile. set (want := Apply _ _ _ _ _ _). destruct want as [d h]. repeat case_if.
    + by apply untouched_scaleUp.
    + by apply untouched_drain.
    + exact IH.
  - unfold Activate. case_if; [done|]. by apply untouched_scaleUp.
  - by do 2 apply untouched_set_state.
  - by apply (untouched_set_state (log_retire m wid)).
Qed.

(** Scaling down does not wait for requests: in every state the program
    reaches, the in-flight count of each tracked worker is zero, for nothing
    reports it, so the wait of up to two minutes ends at its first poll and
    the worker is retired at once, whatever it is serving. *)
Theorem drain_never_waits iter m id p ps :
  reach iter m -> drain_pick (iter (workers m)) id = Some p -> Forall (fun q => q.1 = None) ps ->
  drainOne iter m id ps = drainOne iter m id [] /\
  retires (drainOne iter m id ps).2 = (retires m ++ [tw_ID p])%list.
Proof.
  intros Hr Hp Hf. pose proof (untouched_set_state m (tw_ID p) StateDraining (reach_untouched iter m Hr)) as Hu.
  unfold drainOne. rewrite Hp, !untouched_wait by (try done; constructor). split; [done|].
  cbn [negb snd clear_pending set_hyst retires].
  assert (forall m' s, retires (set_state m' (tw_ID p) s) = retires m') as Hs
    by (intros m' s; unfold set_state; by destruct (workers m' !! tw_ID p)).
  by rewrite Hs; cbn; rewrite Hs.
Qed.

(** *** Witnesses *)

Definition values (ws : gmap string trackedWorker) : list trackedWorker := (map_to_list ws).*2.

Definition qwen : ModelIdentity := mkModel "qwen" "".

(** One worker with forty requests queued, and a target of sixteen. *)
Definition loaded : option RoutingSnapshot :=
  Some (mkSnap 0 1 [mkView "w1" "w1:1" "qwen" "" true true 40 0 8192 f_zero "" "" f_zero "" ∅]).

Definition fresh_manager : Manager := NewManager ∅.

Definition grow (wid : string) (t : Z) : inputs := mkInputs t (Ok wid) [].

Lemma reconcile_step_bounded_witness :
  exists d, desired (reconcile values false loaded fresh_manager qwen (grow "n1" 0)).2 !! "qwen" = Some d /\
    1 - 1 <= d <= 1 + 1.
Proof.
  destruct (reconcile_step_bounded values false loaded fresh_manager qwen (grow "n1" 0) eq_refl) as (d & Hd & Hb & _).
  exists d. split; [exact Hd|exact Hb].
Defined.

Lemma fleet_converges_to_demand_witness :
  readyCount (foldl (fun m i => (reconcile values false loaded m qwen i).2) fresh_manager
    [grow "n1" second; grow "n2" (2 * second)]) loaded qwen = 3.
Proof.
  apply (fleet_converges_to_demand values loaded qwen ["n1"; "n2"] [grow "n1" second; grow "n2" (2 * second)]
    fresh_manager (grow "n3" (3 * second))).
  - split.
    + intros k w Hk. discriminate Hk.
    + reflexivity.
    + reflexivity.
    + reflexivity.
    + reflexivity.
    + apply (bool_decide_unpack _). vm_compute. exact I.
    + intros x Hx. split_and!.
      * reflexivity.
      * intros ->. apply elem_of_cons in Hx as [Hx|Hx%list_elem_of_singleton]; discriminate Hx.
      * vm_compute in Hx. apply elem_of_cons in Hx as [-> |Hx%list_elem_of_singleton]; [|subst x];
          apply (bool_decide_unpack _); vm_compute; exact I.
  - reflexivity.
  - left. vm_compute. discriminate.
  - vm_compute. reflexivity.
Defined.

Lemma activation_stampede_witness :
  provisioningCount (activate_all fresh_manager None "qwen" ["a"; "b"; "c"; "d"; "e"]) qwen = 5 /\
  MaxReplicas (PolicyGet (policies fresh_manager) qwen) = 3.
Proof.
  split; [|reflexivity].
  apply (activation_stampede fresh_manager None "qwen" ["a"; "b"; "c"; "d"; "e"]).
  - reflexivity.
  - vm_compute. discriminate.
  - reflexivity.
  - apply (bool_decide_unpack _). vm_compute. exact I.
  - apply (bool_decide_unpack _). vm_compute. exact I.
Defined.

Definition wants_two : ScalingPolicy := mkPolicy "qwen" "" 2 3 16 (flit 70 100) 900 60.

Lemma cold_fleet_stays_cold_witness :
  let m' := foldl (fun m r => ReconcileAll values false r.1.1 m r.1.2 r.2) fresh_manager
    [(None, Some (Ok [wants_two]), fun _ => grow "n1" 0); (Some (mkSnap 0 1 []), Some (Ok [wants_two]), fun _ => grow "n1" 0)] in
  workers m' = ∅ /\ NeedsActivation m' None "qwen" = false.
Proof.
  destruct (cold_fleet_stays_cold values false fresh_manager
    [(None, Some (Ok [wants_two]), fun _ => grow "n1" 0); (Some (mkSnap 0 1 []), Some (Ok [wants_two]), fun _ => grow "n1" 0)])
    as (Hw & _ & Hn).
  - reflexivity.
  - reflexivity.
  - constructor; [exact I|]. constructor; [reflexivity|constructor].
  - split; [exact Hw|]. apply Hn. vm_compute. reflexivity.
Defined.

Definition one_ready : Manager :=
  mkManager ∅ NewHysteresis {["n1" := mkTracked "n1" qwen StateReady 0]} ∅ [].

Lemma drain_retires_least_loaded_witness :
  (drainOne values one_ready qwen []).1 = None.
Proof.
  apply (drain_retires_least_loaded values one_ready qwen []).
  - intros ws. reflexivity.
  - intros k w Hk. cbn [one_ready workers] in Hk. apply lookup_singleton_Some in Hk as [<- <-]. reflexivity.
  - constructor.
Defined.

Definition grown : Manager := (reconcile values false loaded fresh_manager qwen (grow "n1" 0)).2.

Lemma drain_never_waits_witness :
  drainOne values grown qwen [(None, false); (None, false)] = drainOne values grown qwen [] /\
  retires (drainOne values grown qwen [(None, false); (None, false)]).2 = ["n1"].
Proof.
  apply (drain_never_waits values grown qwen (mkTracked "n1" qwen StateReady 0)).
  - apply reach_reconcile; [apply reach_new|constructor].
  - vm_compute. reflexivity.
  - constructor; [reflexivity|]. constructor; [reflexivity|constructor].
Defined.
