(* ===== verification/Planner.v ===== *)
(** * The planner (services/planner: loop.go, objective.go, policy.go)

    The planner turns the operator's objective and the routing snapshot into
    a versioned routing policy: the weights of the scorers, and for each model
    the share of each of its workers.  The answers of the database and of
    Redis are inputs, as is Go's order of iteration over a map, which only the
    winning score depends on. *)

From S2P Require Import Prelude Float64 Rounding FloatRange GoStrings GoFormat Json Sha256 JsonDecode Strconv JsonFloat JsonTime Errors Holder Routing.

(** ** Objectives *)

Record Objective := mkObjective {
  o_ID : Z;
  TargetTTFTMs : float64;
  TargetTPOTMs : float64;
  MaxCostPerHour : float64;
  WeightLoad : float64;
  WeightLatency : float64;
  WeightCost : float64;
  WeightAffinity : float64;
  EvalIntervalSec : Z
}.

Definition DefaultObjective : Objective :=
  mkObjective 0 (f_of_Z 800) (f_of_Z 50) f_zero (flit 5 10) (flit 2 10) (flit 2 10) (flit 1 10) 45.

Definition set_id (o : Objective) (n : Z) : Objective :=
  mkObjective n (TargetTTFTMs o) (TargetTPOTMs o) (MaxCostPerHour o) (WeightLoad o) (WeightLatency o)
    (WeightCost o) (WeightAffinity o) (EvalIntervalSec o).

(** The answer to [First]: the row, no row, or another error. *)
Inductive first_row : Type := Row (o : Objective) | NoRow | RowError (e : error).

(** [ObjectiveStore.Reload]: the store after it.  [db] is [None] without a
    database; [created] is the outcome of creating the default row, with the
    id the row takes. *)
Definition ReloadObjective (cur : Objective) (db : option first_row) (created : result error Z) : option error * Objective :=
  match db with
  | None => (None, cur)
  | Some (Row o) => (None, o)
  | Some NoRow => match created with Err e => (Some e, cur) | Ok n => (None, set_id DefaultObjective n) end
  | Some (RowError e) => (Some e, cur)
  end.

(** [NewObjectiveStore]: an error of the first load leaves the default. *)
Definition NewObjectiveStore (db : option first_row) (created : result error Z) : Objective :=
  (ReloadObjective DefaultObjective db created).2.

(** [ObjectiveStore.Upsert]: an objective without id takes that of the row in
    place, if there is one. *)
Definition UpsertObjective (cur : Objective) (o : Objective) (db : option first_row) (saved : option error)
    : option error * Objective :=
  match db with
  | None => (None, o)
  | Some row =>
      let o := if o_ID o =? 0 then match row with Row existing => set_id o (o_ID existing) | _ => o end else o in
      match saved with Some e => (Some e, cur) | None => (None, o) end
  end.

(** Eight bytes of the digest of the seven numbers. *)
Definition HashObjective (o : Objective) : string :=
  let raw := Sprintf_f 0 (TargetTTFTMs o) ++ "|" ++ Sprintf_f 0 (TargetTPOTMs o) ++ "|" ++ Sprintf_f 2 (MaxCostPerHour o) ++ "|" ++
             Sprintf_f 3 (WeightLoad o) ++ "|" ++ Sprintf_f 3 (WeightLatency o) ++ "|" ++ Sprintf_f 3 (WeightCost o) ++ "|" ++ Sprintf_f 3 (WeightAffinity o) in
  EncodeToString (take 8 (Sum256 raw)).

(** ** Policies *)

Record ModelPolicy := mkModelPolicy {
  Weights : gmap string float64;
  Affinity : string;
  ConcurrencyTarget : Z;
  MaxQueueDepth : Z
}.

Record PlannedPolicy := mkPlanned {
  Version : Z;
  GeneratedAt : Z;
  ObjectiveHash : string;
  pw_Load : float64;
  pw_Latency : float64;
  pw_Cost : float64;
  pw_Affinity : float64;
  Models : gmap string ModelPolicy;
  Reason : string
}.

Definition toRoutingPolicy (p : option PlannedPolicy) : option RoutingPolicy :=
  (fun p => mkPolicy (Version p) (pw_Load p) (pw_Latency p) (pw_Cost p) (pw_Affinity p) (Weights <$> Models p)) <$> p.

(** ** Scoring *)

(** [math.Min] and [math.Max]; on equal arguments the first. *)
Definition math_Min (x y : float64) : float64 :=
  if is_nan x || is_nan y then S754_nan else if fltb y x then y else x.
Definition math_Max (x y : float64) : float64 :=
  if is_nan x || is_nan y then S754_nan else if fltb x y then y else x.

Definition clamp01 (v : float64) : float64 := math_Max f_zero (math_Min f_one v).

Definition load_of (w : WorkerView) : float64 := f_of_Z (v_QueueDepth w + v_InFlight w).

Definition maxCost (ws : list WorkerView) : float64 :=
  foldl (fun m w => if fltb m (v_CostPerHour w) then v_CostPerHour w else m) f_zero ws.

Definition score_worker (obj : Objective) (max_cost : float64) (w : WorkerView) : float64 :=
  let loadScore := (f_one / (f_one + load_of w))%F in
  let costScore := if fltb f_zero max_cost then (f_one - (v_CostPerHour w / max_cost))%F else f_one in
  let latScore := f_one in
  let sc := (WeightLoad obj * loadScore + WeightCost obj * costScore + WeightLatency obj * latScore)%F in
  if fltb sc (flit 1 100) then flit 1 100 else sc.

(** The raw scores by worker id, and their sum in order. *)
Definition raw_scores (obj : Objective) (mc : float64) (ws : list WorkerView) : gmap string float64 * float64 :=
  foldl (fun acc w => let sc := score_worker obj mc w in (<[v_ID w := sc]> acc.1, (acc.2 + sc)%F)) (∅, f_zero) ws.

Definition scoreWorkers (obj : Objective) (ws : list WorkerView) : gmap string float64 :=
  let '(raw, sum) := raw_scores obj (maxCost ws) ws in
  if fleb sum f_zero then
    let eq := (f_one / f_of_Z (Z.of_nat (length ws)))%F in
    foldl (fun out w => <[v_ID w := eq]> out) ∅ ws
  else (fun sc => (sc / sum)%F) <$> raw.

(** ** Planning *)

Definition usable (obj : Objective) (w : WorkerView) : bool :=
  v_Healthy w && v_Ready w && negb (String.eqb (v_BaseModel w) "") &&
  negb (fltb f_zero (MaxCostPerHour obj) && fltb (MaxCostPerHour obj) (v_CostPerHour w)).

(** The usable workers by base model, in the order of the snapshot. *)
Definition group (obj : Objective) (ws : list WorkerView) : gmap string (list WorkerView) :=
  foldl (fun m w => if usable obj w then <[v_BaseModel w := (default [] (m !! v_BaseModel w) ++ [w])%list]> m else m)
    ∅ ws.

Section Plan.
(** Go's iteration over a map, in some order *)
Variable iter : forall A, gmap string A -> list A.

Definition scorer_weights (obj : Objective) : float64 * float64 * float64 * float64 :=
  let l := clamp01 (WeightLoad obj) in
  let t := clamp01 (WeightLatency obj) in
  let c := clamp01 (WeightCost obj) in
  let a := clamp01 (WeightAffinity obj) in
  if feqb (l + t + c + a)%F f_zero then (flit 5 10, flit 2 10, flit 2 10, flit 1 10) else (l, t, c, a).

Definition model_policy (obj : Objective) (ws : list WorkerView) : ModelPolicy :=
  mkModelPolicy (scoreWorkers obj ws) "prefix_hash" 4 16.

Definition no_workers_reason : string := "no workers; emit objective weights only".

Definition objective_reason (obj : Objective) (models : Z) : string :=
  "objective latency=" ++ Sprintf_f 2 (WeightLatency obj) ++ " cost=" ++ Sprintf_f 2 (WeightCost obj) ++ " load=" ++ Sprintf_f 2 (WeightLoad obj) ++
  " models=" ++ Itoa models.

Definition plan (obj : Objective) (snap : option RoutingSnapshot) : PlannedPolicy * float64 * string :=
  let '(l, t, c, a) := scorer_weights obj in
  let p := mkPlanned 0 0 "" l t c a in
  match snap with
  | None => (p ∅ "", f_zero, no_workers_reason)
  | Some s =>
      match Workers s with
      | [] => (p ∅ "", f_zero, no_workers_reason)
      | ws =>
          let models := model_policy obj <$> group obj ws in
          let totalScore := foldl (fun acc mp => foldl fadd acc (iter _ (Weights mp))) f_zero (iter _ models) in
          (p models "", totalScore, objective_reason obj (Z.of_nat (size models)))
      end
  end.

(** ** The service *)

(** What [PolicyStore.Publish] does outside: the row of the decision, the key
    in Redis, and the announcement of its version. *)
Inductive policy_write : Type :=
| Recorded (p : PlannedPolicy) (score : float64)
| WroteKey (p : PlannedPolicy)
| Announced (p : PlannedPolicy).

Record Service := mkService {
  objective : Objective;
  version : Z;
  interval : Z;
  policyOut : option (nat * RoutingPolicy);
  (** the policies whose [Publish] returned no error, oldest first *)
  published : list PlannedPolicy;
  (** all that was written outside, oldest first *)
  written : list policy_write
}.

Definition marshals (p : PlannedPolicy) : bool :=
  json_number (pw_Load p) && json_number (pw_Latency p) && json_number (pw_Cost p) && json_number (pw_Affinity p) &&
  forallb (fun mp => forallb json_number (map_to_list (Weights mp)).*2) (map_to_list (Models p)).*2 &&
  time_writable (GeneratedAt p).

(** The outcome of a call that writes: it succeeds, or it returns an error,
    and then it may nevertheless have taken effect. *)
Inductive outcome : Type :=
| Done
| Failed (e : error) (took_effect : bool).

Record store_in := mkStore { st_create : outcome; st_set : outcome; st_announce : outcome }.

(** One write; what follows it only when it returned no error. *)
Definition store_write (w : policy_write) (o : outcome) (rest : option error * list policy_write) : option error * list policy_write :=
  match o with
  | Done => (rest.1, w :: rest.2)
  | Failed e took_effect => (Some e, if took_effect then [w] else [])
  end.

(** [PolicyStore.Publish], with the database and Redis it is built with. *)
Definition Publish (p : PlannedPolicy) (score : float64) (st : store_in) : option error * list policy_write :=
  if marshals p then
    store_write (Recorded p score) (st_create st) (store_write (WroteKey p) (st_set st) (store_write (Announced p) (st_announce st) (None, [])))
  else (Some (ENew "json: unsupported value"), []).

(** What the world answers during a tick. *)
Record tick_in := mkTick { t_row : option first_row; t_created : result error Z; t_snap : option RoutingSnapshot;
                           t_now : Z; t_store : store_in }.

(** [tick] offers the new policy to the holder as goroutine [i]. *)
Definition tick (s : Service) (i : nat) (t : tick_in) : option error * Service :=
  let obj := (ReloadObjective (objective s) (t_row t) (t_created t)).2 in
  let interval := if 0 <? EvalIntervalSec obj then wrap_i64 (EvalIntervalSec obj * second) else interval s in
  let '(p, score, why) := plan obj (t_snap t) in
  let ver := wrap_u64 (version s + 1) in
  let policy := mkPlanned ver (t_now t) (HashObjective obj) (pw_Load p) (pw_Latency p) (pw_Cost p) (pw_Affinity p)
                  (Models p) why in
  let '(err, ws) := Publish policy score (t_store t) in
  match err with
  | Some e => (Some e, mkService obj ver interval (policyOut s) (published s) (written s ++ ws)%list)
  | None =>
      (None, mkService obj ver interval (StoreIfNewer p_Version (policyOut s) i (toRoutingPolicy (Some policy))).2
               (published s ++ [policy])%list (written s ++ ws)%list)
  end.

(** [Start]: resume from the policy in Redis, if it can be read. *)
Definition Start (s : Service) (i : nat) (live : result error (option PlannedPolicy)) : Service :=
  match live with
  | Ok (Some p) =>
      mkService (objective s) (Version p) (interval s)
        (StoreIfNewer p_Version (policyOut s) i (toRoutingPolicy (Some p))).2 (published s) (written s)
  | _ => s
  end.

Definition NewService (objectives : Objective) : Service := mkService objectives 0 (45 * second) None [] [].

Definition ticks (s : Service) (ts : list tick_in) : Service :=
  (foldl (fun acc t => ((tick acc.1 acc.2 t).2, S acc.2)) (s, O) ts).1.
End Plan.

(** ** Lemmas: what is planned *)

Definition ids (ws : list WorkerView) : gset string := list_to_set (v_ID <$> ws).

Lemma raw_scores_snoc obj mc ws w :
  raw_scores obj mc (ws ++ [w]) =
    (<[v_ID w := score_worker obj mc w]> (raw_scores obj mc ws).1,
     ((raw_scores obj mc ws).2 + score_worker obj mc w)%F).
Proof. unfold raw_scores. by rewrite foldl_app. Qed.

Lemma ids_snoc ws w : ids (ws ++ [w]) = {[v_ID w]} ∪ ids ws.
Proof. unfold ids. rewrite fmap_app, list_to_set_app_L. cbn. set_solver. Qed.

Lemma dom_raw_scores obj mc ws : dom (raw_scores obj mc ws).1 = ids ws.
Proof.
  induction ws as [|w ws IH] using rev_ind; [done|].
  rewrite raw_scores_snoc, ids_snoc. cbn [fst]. by rewrite dom_insert_L, IH.
Qed.

Lemma dom_scoreWorkers obj ws : dom (scoreWorkers obj ws) = ids ws.
Proof.
  unfold scoreWorkers. pose proof (dom_raw_scores obj (maxCost ws) ws) as Hd.
  destruct (raw_scores obj (maxCost ws) ws) as [raw sum]. cbn [fst] in Hd.
  destruct (fleb sum f_zero); [|by rewrite dom_fmap_L]. set (eq := fdiv _ _). clearbody eq. clear.
  induction ws as [|w ws IH] using rev_ind; [done|]. rewrite foldl_app, ids_snoc. cbn [foldl].
  by rewrite dom_insert_L, IH.
Qed.

(** The workers planned for a model. *)
Definition pool (obj : Objective) (ws : list WorkerView) (model : string) : list WorkerView :=
  List.filter (fun w => usable obj w && String.eqb (v_BaseModel w) model) ws.

Lemma group_lookup obj ws model :
  group obj ws !! model = match pool obj ws model with [] => None | l => Some l end.
Proof.
  unfold group, pool. induction ws as [|w ws IH] using rev_ind; [done|].
  rewrite foldl_app, List.filter_app. cbn [foldl List.filter]. destruct (usable obj w); cbn [andb].
  - destruct (String.eqb_spec (v_BaseModel w) model) as [->|Hne].
    + rewrite lookup_insert_eq, IH. by destruct (List.filter _ ws).
    + rewrite lookup_insert_ne by done. rewrite IH, app_nil_r. done.
  - rewrite IH, app_nil_r. done.
Qed.

Lemma elem_of_pool obj ws model w :
  w ∈ pool obj ws model <-> w ∈ ws /\ usable obj w = true /\ v_BaseModel w = model.
Proof.
  unfold pool. rewrite list_elem_of_In, filter_In, <- list_elem_of_In, andb_true_iff, String.eqb_eq. tauto.
Qed.

Lemma plan_models iter obj snap :
  Models (plan iter obj (Some snap)).1.1 = model_policy obj <$> group obj (Workers snap).
Proof.
  unfold plan. destruct (scorer_weights obj) as [[[l t] c] a]. destruct (Workers snap) as [|w ws]; [|done].
  cbn. by rewrite fmap_empty.
Qed.

(** ** Lemmas: scores *)

Definition objective_ok (o : Objective) : Prop :=
  frange 1 (WeightLoad o) /\ frange 1 (WeightCost o) /\ frange 1 (WeightLatency o).

Definition view_ok (w : WorkerView) : Prop :=
  0 <= v_QueueDepth w + v_InFlight w < 2 ^ 52 /\ frange (2 ^ 50) (v_CostPerHour w).

Lemma one_plus_load w : view_ok w ->
  num (f_one + load_of w)%F /\ fval (f_one + load_of w)%F = (1 + (v_QueueDepth w + v_InFlight w)) * one_val.
Proof.
  intros [Hl _]. unfold load_of. set (z := v_QueueDepth w + v_InFlight w) in *.
  assert (frange (2 ^ 52) (f_of_Z z)) as Hr by (apply frange_of_Z; lia).
  assert (frange (1 + 2 ^ 52) (f_one + f_of_Z z)%F) as Hs
    by (apply frange_add; [lia|lia|lia|apply frange_one|exact Hr]).
  split; [by apply frange_num in Hs|]. destruct Hr as (V & F & _). destruct one_finite as [V1 F1].
  rewrite (proj1 (fadd_spec f_one (f_of_Z z) V1 V F1 F)), fval_one, f_of_Z_exact by lia.
  rewrite <- (rndZ_int (1 + z)) by lia. f_equal. lia.
Qed.

Lemma load_score_range w : view_ok w -> frange 1 (f_one / (f_one + load_of w))%F.
Proof.
  intros Hw. destruct (one_plus_load w Hw) as [[V F] E]. destruct Hw as [Hl _]. pose proof one_val_pos.
  apply (frange_div 1 1); [lia|apply frange_one|done|done|nia|]. rewrite E, fval_one. nia.
Qed.

Lemma maxCost_spec ws :
  Forall view_ok ws -> frange (2 ^ 50) (maxCost ws) /\ Forall (fun w => fval (v_CostPerHour w) <= fval (maxCost ws)) ws.
Proof.
  unfold maxCost. induction ws as [|w ws IH] using rev_ind; intros Hv.
  { split; [apply frange_zero; lia|constructor]. }
  apply Forall_app in Hv as [Hv Hw]. inversion Hw as [|? ? [_ Hc] _]; subst. destruct (IH Hv) as [Hm Hall].
  rewrite foldl_app. cbn [foldl]. set (m := foldl _ f_zero ws) in *.
  rewrite fltb_val by (eapply frange_good; eassumption). destruct (Z.ltb_spec (fval m) (fval (v_CostPerHour w))).
  - split; [done|]. apply Forall_app. split; [|constructor; [lia|constructor]].
    eapply list.Forall_impl; [exact Hall|]. cbn. lia.
  - split; [done|]. apply Forall_app. split; [done|]. constructor; [lia|constructor].
Qed.

Lemma cost_score_range mc w :
  view_ok w -> frange (2 ^ 50) mc -> fval (v_CostPerHour w) <= fval mc ->
  frange 1 (if fltb f_zero mc then (f_one - (v_CostPerHour w / mc))%F else f_one).
Proof.
  intros [_ Hc] Hm Hle. destruct (fltb f_zero mc) eqn:E; [|apply frange_one]. apply frange_one_minus.
  rewrite fltb_val in E by (apply f_zero_good || (eapply frange_good; eassumption)). zbool.
  destruct Hm as (V & F & _). apply (frange_div 1 (2 ^ 50)); [lia|done|done|done|exact E|lia].
Qed.

Definition floor_score : float64 := flit 1 100.

Lemma floor_score_range : frange 1 floor_score /\ 0 < fval floor_score.
Proof. split; [apply (bool_decide_unpack _)|]; vm_compute; reflexivity. Qed.

Lemma score_worker_range obj mc w :
  objective_ok obj -> view_ok w -> frange (2 ^ 50) mc -> fval (v_CostPerHour w) <= fval mc ->
  frange 3 (score_worker obj mc w) /\ 0 < fval (score_worker obj mc w).
Proof.
  intros (HL & HC & HT) Hw Hm Hle. unfold score_worker. fold floor_score.
  pose proof (load_score_range w Hw) as Hl. pose proof (cost_score_range mc w Hw Hm Hle) as Hc.
  set (ls := (f_one / (f_one + load_of w))%F) in *. set (cs := if fltb f_zero mc then _ else f_one) in *. clearbody ls cs.
  assert (frange 3 (WeightLoad obj * ls + WeightCost obj * cs + WeightLatency obj * f_one)%F) as Hs.
  { apply (frange_add 2 1); [lia|lia|lia| |apply (frange_mul 1 1); [lia|lia|lia|done|apply frange_one]].
    apply (frange_add 1 1); [lia|lia|lia| |]; apply (frange_mul 1 1); done || lia. }
  destruct floor_score_range as [Hf Hp]. rewrite fltb_val by (eapply frange_good; eassumption).
  destruct (Z.ltb_spec (fval (WeightLoad obj * ls + WeightCost obj * cs + WeightLatency obj * f_one)%F) (fval floor_score)).
  - split; [|done]. by apply (frange_weaken 1).
  - split; [done|lia].
Qed.

Lemma fadd_above x y n m :
  0 <= n -> 0 <= m -> frange n x -> frange m y -> fval x <= fval (x + y)%F /\ fval y <= fval (x + y)%F.
Proof.
  intros Hn Hm (Vx & Fx & Hx) (Vy & Fy & Hy). rewrite (proj1 (fadd_spec x y Vx Vy Fx Fy)).
  rewrite <- (rndZ_fval x Vx Fx) at 1. rewrite <- (rndZ_fval y Vy Fy) at 2.
  split; apply rndZ_mono; rewrite ?rndZ_fval by done; lia.
Qed.

(** The raw scores are positive and each is at most the sum. *)
Lemma raw_scores_range obj mc ws :
  objective_ok obj -> Forall view_ok ws -> frange (2 ^ 50) mc ->
  Forall (fun w => fval (v_CostPerHour w) <= fval mc) ws -> Z.of_nat (length ws) <= 2 ^ 50 ->
  frange (3 * Z.of_nat (length ws)) (raw_scores obj mc ws).2 /\
  map_Forall (fun _ sc => frange 3 sc /\ 0 < fval sc <= fval (raw_scores obj mc ws).2) (raw_scores obj mc ws).1.
Proof.
  intros Ho. induction ws as [|w ws IH] using rev_ind; intros Hv Hm Hc Hlen.
  { split; [apply frange_zero; cbn; lia|apply map_Forall_empty]. }
  apply Forall_app in Hv as [Hv Hw], Hc as [Hc Hcw].
  inversion Hw as [|? ? Hw' _]; subst. inversion Hcw as [|? ? Hcw' _]; subst.
  rewrite length_app in Hlen |- *. cbn [length] in *.
  destruct (IH Hv Hm Hc) as [Hs Hall]; [lia|]. destruct (score_worker_range obj mc w Ho Hw' Hm Hcw') as [Hr Hp].
  rewrite raw_scores_snoc. cbn [fst snd]. set (sum := (raw_scores obj mc ws).2) in *.
  set (sc := score_worker obj mc w) in *.
  destruct (fadd_above sum sc (3 * Z.of_nat (length ws)) 3) as [Ha Hb]; [lia|lia|done|done|]. split.
  - replace (3 * Z.of_nat (length ws + 1)) with (3 * Z.of_nat (length ws) + 3) by lia.
    apply frange_add; [lia|lia|lia|done|done].
  - apply map_Forall_insert_2; [split; [done|lia]|].
    eapply map_Forall_impl; [exact Hall|]. cbn. intros _ x [? ?]. split; [done|lia].
Qed.

Lemma scoreWorkers_range obj ws :
  objective_ok obj -> Forall view_ok ws -> Z.of_nat (length ws) <= 2 ^ 50 -> ws <> [] ->
  let sum := (raw_scores obj (maxCost ws) ws).2 in
  num sum /\ 0 < fval sum /\
  scoreWorkers obj ws = (fun sc => (sc / sum)%F) <$> (raw_scores obj (maxCost ws) ws).1 /\
  map_Forall (fun _ x => frange 1 x) (scoreWorkers obj ws).
Proof.
  intros Ho Hv Hlen Hne. cbn zeta. destruct (maxCost_spec ws Hv) as [Hm Hc].
  destruct (raw_scores_range obj (maxCost ws) ws Ho Hv Hm Hc Hlen) as [Hs Hall].
  pose proof (dom_raw_scores obj (maxCost ws) ws) as Hd. unfold scoreWorkers.
  destruct (raw_scores obj (maxCost ws) ws) as [raw sum]. cbn [fst snd] in *.
  assert (0 < fval sum) as Hpos.
  { destruct ws as [|w ws]; [done|]. assert (is_Some (raw !! v_ID w)) as [sc Hsc].
    { apply elem_of_dom. rewrite Hd. unfold ids. cbn. set_solver. }
    destruct (Hall _ _ Hsc) as [_ ?]. lia. }
  assert (fleb sum f_zero = false) as ->.
  { rewrite fleb_val; [|eapply frange_good; eassumption|apply f_zero_good]. by apply Z.leb_gt. }
  split_and!; [by eapply frange_num|done|done|]. apply map_Forall_fmap.
  eapply map_Forall_impl; [exact Hall|]. intros _ x [Hx Hle]. destruct Hs as (V & F & _).
  apply (frange_div 1 3); [lia|done|done|done|done|lia].
Qed.

Lemma score_worker_mono obj mc w1 w2 :
  objective_ok obj -> view_ok w1 -> view_ok w2 -> frange (2 ^ 50) mc ->
  v_CostPerHour w1 = v_CostPerHour w2 -> fval (v_CostPerHour w1) <= fval mc ->
  v_QueueDepth w1 + v_InFlight w1 <= v_QueueDepth w2 + v_InFlight w2 ->
  fval (score_worker obj mc w2) <= fval (score_worker obj mc w1).
Proof.
  intros (HL & HC & HT) H1 H2 Hm Ec Hle Hq. unfold score_worker. fold floor_score. rewrite <- Ec.
  pose proof (load_score_range w1 H1) as Hl1. pose proof (load_score_range w2 H2) as Hl2.
  pose proof (cost_score_range mc w1 H1 Hm Hle) as Hc.
  assert (fval (f_one / (f_one + load_of w2))%F <= fval (f_one / (f_one + load_of w1))%F) as Hls.
  { destruct (one_plus_load w1 H1) as [N1 E1], (one_plus_load w2 H2) as [N2 E2].
    destruct H1 as [? _], H2 as [? _]. pose proof one_val_pos.
    apply fdiv_anti; [apply one_finite|done|done|rewrite fval_one; lia|rewrite E1; nia|rewrite E1, E2; nia]. }
  set (l1 := (f_one / (f_one + load_of w1))%F) in *. set (l2 := (f_one / (f_one + load_of w2))%F) in *.
  set (cs := if fltb f_zero mc then _ else f_one) in *. clearbody l1 l2 cs.
  assert (forall l, frange 1 l -> frange 1 (WeightLoad obj * l)%F /\
    frange 2 (WeightLoad obj * l + WeightCost obj * cs)%F /\
    frange 3 (WeightLoad obj * l + WeightCost obj * cs + WeightLatency obj * f_one)%F) as Hr.
  { intros l Hl. assert (frange 1 (WeightLoad obj * l)%F) by (apply (frange_mul 1 1); done || lia).
    assert (frange 2 (WeightLoad obj * l + WeightCost obj * cs)%F)
      by (apply (frange_add 1 1); [lia|lia|lia|done|apply (frange_mul 1 1); done || lia]).
    split_and!; [done|done|]. apply (frange_add 2 1); [lia|lia|lia|done|].
    apply (frange_mul 1 1); [lia|lia|lia|done|apply frange_one]. }
  destruct (Hr l1 Hl1) as (A1 & B1 & C1), (Hr l2 Hl2) as (A2 & B2 & C2).
  assert (num (WeightCost obj * cs)%F) as Nc by (apply (frange_num 1), (frange_mul 1 1); done || lia).
  assert (num (WeightLatency obj * f_one)%F) as Nt
    by (apply (frange_num 1), (frange_mul 1 1); [lia|lia|lia|done|apply frange_one]).
  assert (fval (WeightLoad obj * l2 + WeightCost obj * cs + WeightLatency obj * f_one)%F <=
          fval (WeightLoad obj * l1 + WeightCost obj * cs + WeightLatency obj * f_one)%F) as Hsc.
  { apply fadd_mono; eauto using frange_num; [|lia]. apply fadd_mono; eauto using frange_num; [|lia].
    apply fmul_mono; eauto using frange_num. apply HL. }
  destruct floor_score_range as [Hf _]. rewrite !fltb_val by (eapply frange_good; eassumption).
  repeat (case_if; zbool); lia.
Qed.

Lemma raw_scores_lookup obj mc ws w :
  NoDup (v_ID <$> ws) -> w ∈ ws -> (raw_scores obj mc ws).1 !! v_ID w = Some (score_worker obj mc w).
Proof.
  induction ws as [|v ws IH] using rev_ind; [set_solver|]. rewrite raw_scores_snoc, fmap_app. cbn [fst fmap list_fmap].
  intros (Hn & Hdis & _)%list.NoDup_app [Hw|Hw%list_elem_of_singleton]%elem_of_app.
  - rewrite lookup_insert_ne; [by apply IH|]. intros E. apply (Hdis (v_ID w)).
    + apply list_elem_of_fmap. by exists w.
    + rewrite <- E. set_solver.
  - subst w. apply lookup_insert_eq.
Qed.

(** ** Properties *)

(** C33: the planned shares of a model's workers are proper: every worker of
    the pool gets one and nobody else does, each is a number between zero and
    one, and of two workers that cost the same the one with fewer requests
    queued and in flight never gets the smaller share.  The objective's weights lie
    between zero and one, costs and queues are in range, ids are distinct. *)
Theorem planned_shares obj ws :
  objective_ok obj -> Forall view_ok ws -> Z.of_nat (length ws) <= 2 ^ 50 -> ws <> [] -> NoDup (v_ID <$> ws) ->
  dom (scoreWorkers obj ws) = ids ws /\ map_Forall (fun _ x => frange 1 x) (scoreWorkers obj ws) /\
  forall w1 w2, w1 ∈ ws -> w2 ∈ ws -> v_CostPerHour w1 = v_CostPerHour w2 ->
    v_QueueDepth w1 + v_InFlight w1 <= v_QueueDepth w2 + v_InFlight w2 ->
    exists s1 s2, scoreWorkers obj ws !! v_ID w1 = Some s1 /\ scoreWorkers obj ws !! v_ID w2 = Some s2 /\
      fleb s2 s1 = true.
Proof.
  intros Ho Hv Hlen Hne Hnd. destruct (scoreWorkers_range obj ws Ho Hv Hlen Hne) as (Ns & Ps & E & Hall).
  split; [apply dom_scoreWorkers|]. split; [done|]. intros w1 w2 H1 H2 Ec Hq.
  destruct (maxCost_spec ws Hv) as [Hm Hc]. rewrite list.Forall_forall in Hv, Hc.
  pose proof (raw_scores_lookup obj (maxCost ws) ws w1 Hnd H1) as L1.
  pose proof (raw_scores_lookup obj (maxCost ws) ws w2 Hnd H2) as L2.
  assert (forall w x, (raw_scores obj (maxCost ws) ws).1 !! v_ID w = Some x ->
    scoreWorkers obj ws !! v_ID w = Some (x / (raw_scores obj (maxCost ws) ws).2)%F) as Hl
    by (intros w x Hx; rewrite E, lookup_fmap, Hx; done).
  pose proof (Hl _ _ L1) as S1. pose proof (Hl _ _ L2) as S2. eexists _, _. split; [exact S1|]. split; [exact S2|].
  destruct (score_worker_range obj (maxCost ws) w1) as [R1 _]; auto.
  destruct (score_worker_range obj (maxCost ws) w2) as [R2 _]; auto.
  apply fleb_fval; [eapply frange_good, Hall, S2|eapply frange_good, Hall, S1|].
  apply fdiv_mono; eauto using frange_num. apply score_worker_mono; auto.
Qed.

(** The planner routes to usable workers only, and to all of them: a
    worker has a share of a model exactly when the snapshot has a view of it
    for that base model that is healthy, ready and, if the objective caps the
    hourly cost, within the cap. *)
Theorem plan_covers_usable iter obj snap model id :
  (exists mp, Models (plan iter obj (Some snap)).1.1 !! model = Some mp /\ id ∈ dom (Weights mp)) <->
  (exists w, w ∈ Workers snap /\ v_BaseModel w = model /\ v_ID w = id /\ usable obj w = true).
Proof.
  rewrite plan_models, lookup_fmap, group_lookup. split.
  - intros (mp & Hmp & Hid). destruct (pool obj (Workers snap) model) as [|w0 l] eqn:Ep; [done|].
    cbn in Hmp. injection Hmp as <-. cbn [model_policy Weights] in Hid. rewrite dom_scoreWorkers, <- Ep in Hid.
    apply elem_of_list_to_set, list_elem_of_fmap in Hid as (w & -> & Hw%elem_of_pool). exists w. tauto.
  - intros (w & Hw & Hb & Hi & Hu). assert (w ∈ pool obj (Workers snap) model) as Hp by (by apply elem_of_pool).
    destruct (pool obj (Workers snap) model) as [|w0 l] eqn:Ep; [by apply elem_of_nil in Hp|].
    eexists. split; [reflexivity|]. cbn [model_policy Weights]. rewrite dom_scoreWorkers.
    apply elem_of_list_to_set, list_elem_of_fmap. by exists w.
Qed.

(** ** Versions *)

Section Versions.
Variable iter : forall A, gmap string A -> list A.

Lemma ticks_snoc s ts t :
  ticks iter s (ts ++ [t]) =
    (tick iter (ticks iter s ts) (length ts) t).2.
Proof.
  unfold ticks. rewrite foldl_app. cbn [foldl fst].
  assert (forall acc, (foldl (fun acc t => ((tick iter acc.1 acc.2 t).2, S acc.2)) acc ts).2 =
    (acc.2 + length ts)%nat) as Hn.
  { induction ts as [|t' ts IH]; intros acc; cbn; [lia|]. rewrite IH. cbn. lia. }
  by rewrite Hn.
Qed.

(** The policies written to the key in Redis. *)
Definition keys_of (ws : list policy_write) : list PlannedPolicy :=
  omap (fun w => match w with WroteKey p => Some p | _ => None end) ws.

Lemma keys_of_app ws ws' : keys_of (ws ++ ws') = (keys_of ws ++ keys_of ws')%list.
Proof. apply omap_app. Qed.

(** What a call of [Publish] leaves: when it returns no error all three writes
    were made; otherwise the key may have been written or not. *)
Lemma Publish_effect p score st :
  match Publish p score st with
  | (None, ws) => ws = [Recorded p score; WroteKey p; Announced p] /\ marshals p = true
  | (Some _, ws) => (keys_of ws = [] \/ keys_of ws = [p] /\ marshals p = true)
  end.
Proof.
  unfold Publish. destruct (marshals p); [|by left]. destruct st as [[|e []] s2 s3]; cbn [store_write st_create st_set st_announce fst snd]; [|by left..].
  destruct s2 as [|e []]; cbn [store_write fst snd]; [|by right|by left]. by destruct s3 as [|e []]; cbn [store_write fst snd]; [|right|right].
Qed.

(** One tick: the version is spent whether or not the policy is published,
    and the key may be written even when it is not. *)
Lemma tick_effect s i t :
  let s' := (tick iter s i t).2 in
  version s' = wrap_u64 (version s + 1) /\
  exists p, Version p = wrap_u64 (version s + 1) /\
    ((published s' = published s /\ policyOut s' = policyOut s /\
      (keys_of (written s') = keys_of (written s) \/ keys_of (written s') = (keys_of (written s) ++ [p])%list)) \/
     (published s' = (published s ++ [p])%list /\ keys_of (written s') = (keys_of (written s) ++ [p])%list /\
      policyOut s' = (StoreIfNewer p_Version (policyOut s) i (toRoutingPolicy (Some p))).2)).
Proof.
  cbn zeta. unfold tick. destruct (plan iter _ (t_snap t)) as [[p score] why]. set (policy := mkPlanned _ _ _ _ _ _ _ _ _).
  pose proof (Publish_effect policy score (t_store t)) as He. destruct (Publish policy score (t_store t)) as [[e|] ws]; cbn [snd version published policyOut written].
  - split; [done|]. exists policy. split; [done|]. left. split_and!; [done|done|]. rewrite keys_of_app.
    destruct He as [->|[-> _]]; [left; by rewrite app_nil_r|by right].
  - split; [done|]. exists policy. split; [done|]. right. destruct He as [-> _]. by rewrite keys_of_app.
Qed.

(** What holds after [n] ticks of a service resumed at version [v0]. *)
Record resumed (v0 : Z) (h0 : option RoutingPolicy) (n : nat) (s : Service) : Prop := {
  r_version : version s = v0 + Z.of_nat n;
  r_bounds : Forall (fun p => v0 < Version p <= version s) (keys_of (written s));
  r_sorted : StronglySorted Z.lt (Version <$> keys_of (written s));
  r_published : sublist (published s) (keys_of (written s));
  r_out : Load (policyOut s) =
            match list.last (published s) with Some p => toRoutingPolicy (Some p) | None => h0 end;
  r_below : match Load (policyOut s) with Some p => p_Version p <= version s | None => True end
}.

Lemma StronglySorted_snoc l x :
  StronglySorted Z.lt l -> Forall (fun y => y < x) l -> StronglySorted Z.lt (l ++ [x]).
Proof.
  induction 1 as [|a l Hl IH Ha]; intros Hx; cbn; [constructor; constructor|].
  inversion Hx; subst. constructor; [auto|]. apply Forall_app. split; [done|]. by constructor.
Qed.

Lemma sorted_more l p v : StronglySorted Z.lt (Version <$> l) -> Forall (fun q => Version q <= v) l -> v < Version p ->
  StronglySorted Z.lt (Version <$> (l ++ [p])%list).
Proof.
  intros Hs Hb Hp. rewrite fmap_app. apply StronglySorted_snoc; [done|]. apply Forall_fmap. eapply list.Forall_impl; [exact Hb|]. cbn. lia.
Qed.

Lemma tick_resumed v0 h0 n s i t :
  resumed v0 h0 n s -> 0 <= v0 -> v0 + Z.of_nat (S n) < two64 ->
  resumed v0 h0 (S n) (tick iter s i t).2.
Proof.
  intros [Hv Hb Hs Hsub Ho Hl] H0 H1. destruct (tick_effect s i t) as (Ev & p & Vp & Hd). cbn zeta in *.
  set (s' := (tick iter s i t).2) in *.
  rewrite wrap_u64_id in Ev, Vp by (unfold in_u64; lia).
  assert (Forall (fun q => v0 < Version q <= version s') (keys_of (written s))) as Hb' by (eapply list.Forall_impl; [exact Hb|]; cbn; lia).
  assert (Forall (fun q => v0 < Version q <= version s') (keys_of (written s) ++ [p])%list) as Hbp by (apply Forall_app; split; [done|]; constructor; [lia|constructor]).
  assert (StronglySorted Z.lt (Version <$> (keys_of (written s) ++ [p])%list)) as Hsp.
  { apply (sorted_more _ _ (version s)); [done|eapply list.Forall_impl; [exact Hb|]; cbn; lia|lia]. }
  destruct Hd as [(Ep & Eo & Ew)|(Ep & Ew & Eo)].
  - assert (Forall (fun q => v0 < Version q <= version s') (keys_of (written s')) /\ StronglySorted Z.lt (Version <$> keys_of (written s')) /\
      sublist (published s) (keys_of (written s'))) as (? & ? & ?).
    { destruct Ew as [->| ->]; [done|]. split_and!; [done|done|]. by apply sublist_inserts_r. }
    split; rewrite ?Ep, ?Eo; try done; [lia|]. rewrite Ev. destruct (Load (policyOut s)); [lia|done].
  - assert (policyOut s' = Some (i, default (mkPolicy 0 f_zero f_zero f_zero f_zero ∅) (toRoutingPolicy (Some p)))) as Eo'.
    { rewrite Eo. cbn [toRoutingPolicy fmap option_fmap option_map StoreIfNewer default].
      destruct (policyOut s) as [[j q]|]; [|done]. cbn [Load fmap option_fmap option_map snd] in Hl.
      cbn [not_newer p_Version]. by rewrite (proj2 (Z.leb_gt _ _)) by lia. }
    split; rewrite ?Ep, ?Ew; try done.
    + lia.
    + by apply sublist_app.
    + by rewrite last_snoc, Eo'.
    + rewrite Eo'. cbn. lia.
Qed.

Lemma ticks_resumed v0 h0 s ts :
  resumed v0 h0 0 s -> 0 <= v0 -> v0 + Z.of_nat (length ts) < two64 ->
  resumed v0 h0 (length ts) (ticks iter s ts).
Proof.
  intros Hr H0. induction ts as [|t ts IH] using rev_ind; intros Hlt; [done|].
  rewrite length_app in Hlt |- *. cbn [length] in *. rewrite ticks_snoc, Nat.add_1_r.
  apply tick_resumed; [apply IH; lia|done|lia].
Qed.

Lemma sublist_forall {A} (P : A -> Prop) l l' : sublist l l' -> Forall P l' -> Forall P l.
Proof. intros Hs%sublist_subseteq. rewrite !list.Forall_forall. auto. Qed.

Lemma sublist_sorted l l' : sublist l l' -> StronglySorted Z.lt (Version <$> l') -> StronglySorted Z.lt (Version <$> l).
Proof.
  induction 1 as [|x l l' Hsub IH|x l l' Hsub IH]; [done| |]; rewrite ?fmap_cons; intros Hs; inversion Hs as [|? ? Hs' Hx]; subst; [|by apply IH].
  constructor; [by apply IH|]. rewrite Forall_fmap in Hx |- *. exact (sublist_forall _ _ _ Hsub Hx).
Qed.

Lemma start_service_resumed o live :
  resumed (Version live) (toRoutingPolicy (Some live)) 0 (Start (NewService o) 0 (Ok (Some live))).
Proof. split; cbn; [lia|apply list.Forall_nil_2|apply SSorted_nil|constructor|done|lia]. Qed.

(** A restarted planner takes up where the live policy left off: after
    [Start] has read the policy in Redis, every policy the planner publishes
    has a version above it and above all it published before, so no holder
    refuses one as stale, and the planner's own holder has the last policy
    published (the live one until then), whatever ticks fail. *)
Theorem planner_resumes_versions o live ts :
  0 <= Version live -> Version live + Z.of_nat (length ts) < two64 ->
  let s := ticks iter (Start (NewService o) 0 (Ok (Some live))) ts in
  StronglySorted Z.lt (Version <$> published s) /\
  Forall (fun p => Version live < Version p) (published s) /\
  Load (policyOut s) = toRoutingPolicy (Some (default live (list.last (published s)))).
Proof.
  intros H0 H1 s. destruct (ticks_resumed _ _ _ ts (start_service_resumed o live) H0 H1) as [_ Hb Hs Hsub Ho _]. fold s in Hb, Hs, Hsub, Ho.
  split_and!; [by eapply sublist_sorted| |].
  - eapply sublist_forall in Hb; [|exact Hsub]. eapply list.Forall_impl; [exact Hb|]. cbn. lia.
  - rewrite Ho. by destruct (list.last (published s)).
Qed.
End Versions.

(** *** Witnesses *)

Definition values (A : Type) (m : gmap string A) : list A := (map_to_list m).*2.

Definition view (id : string) (queue : Z) : WorkerView :=
  mkView id id "qwen" "" true true queue 0 8192 f_one "" "" f_zero "" ∅.

Definition two_views : list WorkerView := [view "a" 0; view "b" 7].

Lemma planned_shares_witness :
  exists s1 s2, scoreWorkers DefaultObjective two_views !! "a" = Some s1 /\
    scoreWorkers DefaultObjective two_views !! "b" = Some s2 /\ fleb s2 s1 = true.
Proof.
  destruct (planned_shares DefaultObjective two_views) as (_ & _ & Hm).
  - split; [|split]; apply (bool_decide_unpack _); vm_compute; exact I.
  - constructor; [|constructor; [|constructor]]; (split; [cbn; lia|]); apply (bool_decide_unpack _); vm_compute; exact I.
  - cbn. lia.
  - discriminate.
  - apply (bool_decide_unpack _). vm_compute. exact I.
  - refine (Hm (view "a" 0) (view "b" 7) _ _ eq_refl _).
    + apply elem_of_cons. left. reflexivity.
    + apply elem_of_cons. right. apply elem_of_cons. left. reflexivity.
    + cbn. lia.
Defined.

Definition live_policy : PlannedPolicy := mkPlanned 41 0 "" f_one f_one f_one f_one ∅ "".
Definition quiet_tick : tick_in := mkTick None (Ok 1) (Some (mkSnap 0 1 two_views)) 0 (mkStore Done Done Done).
Definition failed_tick : tick_in := mkTick None (Ok 1) None 0 (mkStore Done (Failed (ENew "redis down") false) Done).

Lemma planner_resumes_versions_witness :
  let s := ticks values (Start (NewService DefaultObjective) 0 (Ok (Some live_policy))) [quiet_tick; failed_tick; quiet_tick] in
  StronglySorted Z.lt (Version <$> published s) /\ Forall (fun p => 41 < Version p) (published s).
Proof.
  destruct (planner_resumes_versions values DefaultObjective live_policy [quiet_tick; failed_tick; quiet_tick])
    as (Hs & Hf & _).
  - cbn. lia.
  - vm_compute. reflexivity.
  - split; [exact Hs|exact Hf].
Defined.
