(* ===== verification/PolicyWire.v ===== *)
(** * Routing policies on the wire (planner/policy.go, routing/policy.go)

    The planner writes a policy to Redis as JSON and announces its version;
    the subscriber of every control plane reads the key again and offers what
    it decodes to its policy holder.  The file has the documents of both sides
    and the path between them, with its one gap. *)

From stdpp Require Import sorting.
From S2P Require Import Prelude Float64 Rounding FloatRange GoStrings GoFormat Json JsonDecode Strconv JsonFloat JsonMaps JsonTime Errors Holder Health Routing Planner.

Definition PolicyKey : string := "forge:policy:routing:v1".
Definition PolicyChannel : string := "forge:policy:updates".

Definition ModelPolicy_doc (mp : ModelPolicy) : doc :=
  DObj [("weights", DObj (map_members number_doc (Weights mp))); ("affinity", DStr (Affinity mp));
        ("concurrency_target", DInt (ConcurrencyTarget mp)); ("max_queue_depth", DInt (MaxQueueDepth mp))].

Definition PlannedPolicy_doc (p : PlannedPolicy) : doc :=
  DObj [("version", DInt (Version p)); ("generated_at", time_doc (GeneratedAt p)); ("objective_hash", DStr (ObjectiveHash p));
        ("weight_load", number_doc (pw_Load p)); ("weight_latency", number_doc (pw_Latency p));
        ("weight_cost", number_doc (pw_Cost p)); ("weight_affinity", number_doc (pw_Affinity p));
        ("models", DObj (map_members ModelPolicy_doc (Models p))); ("reason", DStr (Reason p))].

Definition marshal_policy (p : PlannedPolicy) : result error string :=
  if marshals p then Ok (print (PlannedPolicy_doc p)) else Err (ENew "json: unsupported value").

(** *** The subscriber's document *)

Definition dec_weights : decoder (gmap string float64) := dec_map_of f_zero dec_float64.

Definition wire_model_fields : fields (gmap string float64) := [("weights", dec_weights)].

Definition zero_wire : policy_wire := mkWire 0 f_zero f_zero f_zero f_zero ∅.

Definition wire_fields : fields policy_wire :=
  [("version", fun w d => option_map (fun x => mkWire x (wire_load w) (wire_latency w) (wire_cost w) (wire_affinity w) (wire_models w))
      (dec_uint64 (wire_version w) d));
   ("weight_load", fun w d => option_map (fun x => mkWire (wire_version w) x (wire_latency w) (wire_cost w) (wire_affinity w) (wire_models w))
      (dec_float64 (wire_load w) d));
   ("weight_latency", fun w d => option_map (fun x => mkWire (wire_version w) (wire_load w) x (wire_cost w) (wire_affinity w) (wire_models w))
      (dec_float64 (wire_latency w) d));
   ("weight_cost", fun w d => option_map (fun x => mkWire (wire_version w) (wire_load w) (wire_latency w) x (wire_affinity w) (wire_models w))
      (dec_float64 (wire_cost w) d));
   ("weight_affinity", fun w d => option_map (fun x => mkWire (wire_version w) (wire_load w) (wire_latency w) (wire_cost w) x (wire_models w))
      (dec_float64 (wire_affinity w) d));
   ("models", fun w d => option_map (mkWire (wire_version w) (wire_load w) (wire_latency w) (wire_cost w) (wire_affinity w))
      (dec_map_of ∅ (dec_struct wire_model_fields) (wire_models w) d))].

Definition decode_wire (raw : string) : option policy_wire := unmarshal_into zero_wire (dec_struct wire_fields) raw.

(** *** The planner's own document, read when it starts *)

Definition zero_model : ModelPolicy := mkModelPolicy ∅ "" 0 0.

Definition model_fields : fields ModelPolicy :=
  [("weights", fun p d => option_map (fun x => mkModelPolicy x (Affinity p) (ConcurrencyTarget p) (MaxQueueDepth p)) (dec_weights (Weights p) d));
   ("affinity", fun p d => option_map (fun x => mkModelPolicy (Weights p) x (ConcurrencyTarget p) (MaxQueueDepth p)) (dec_string (Affinity p) d));
   ("concurrency_target", fun p d => option_map (fun x => mkModelPolicy (Weights p) (Affinity p) x (MaxQueueDepth p)) (dec_int64 (ConcurrencyTarget p) d));
   ("max_queue_depth", fun p d => option_map (mkModelPolicy (Weights p) (Affinity p) (ConcurrencyTarget p)) (dec_int64 (MaxQueueDepth p) d))].

Definition zero_policy : PlannedPolicy := mkPlanned 0 0 "" f_zero f_zero f_zero f_zero ∅ "".

Definition policy_fields : fields PlannedPolicy :=
  [("version", fun p d => option_map (fun x => mkPlanned x (GeneratedAt p) (ObjectiveHash p) (pw_Load p) (pw_Latency p) (pw_Cost p) (pw_Affinity p) (Models p) (Reason p))
      (dec_uint64 (Version p) d));
   ("generated_at", fun p d => option_map (fun x => mkPlanned (Version p) x (ObjectiveHash p) (pw_Load p) (pw_Latency p) (pw_Cost p) (pw_Affinity p) (Models p) (Reason p))
      (dec_time (GeneratedAt p) d));
   ("objective_hash", fun p d => option_map (fun x => mkPlanned (Version p) (GeneratedAt p) x (pw_Load p) (pw_Latency p) (pw_Cost p) (pw_Affinity p) (Models p) (Reason p))
      (dec_string (ObjectiveHash p) d));
   ("weight_load", fun p d => option_map (fun x => mkPlanned (Version p) (GeneratedAt p) (ObjectiveHash p) x (pw_Latency p) (pw_Cost p) (pw_Affinity p) (Models p) (Reason p))
      (dec_float64 (pw_Load p) d));
   ("weight_latency", fun p d => option_map (fun x => mkPlanned (Version p) (GeneratedAt p) (ObjectiveHash p) (pw_Load p) x (pw_Cost p) (pw_Affinity p) (Models p) (Reason p))
      (dec_float64 (pw_Latency p) d));
   ("weight_cost", fun p d => option_map (fun x => mkPlanned (Version p) (GeneratedAt p) (ObjectiveHash p) (pw_Load p) (pw_Latency p) x (pw_Affinity p) (Models p) (Reason p))
      (dec_float64 (pw_Cost p) d));
   ("weight_affinity", fun p d => option_map (fun x => mkPlanned (Version p) (GeneratedAt p) (ObjectiveHash p) (pw_Load p) (pw_Latency p) (pw_Cost p) x (Models p) (Reason p))
      (dec_float64 (pw_Affinity p) d));
   ("models", fun p d => option_map (fun x => mkPlanned (Version p) (GeneratedAt p) (ObjectiveHash p) (pw_Load p) (pw_Latency p) (pw_Cost p) (pw_Affinity p) x (Reason p))
      (dec_map_of zero_model (dec_struct model_fields) (Models p) d));
   ("reason", fun p d => option_map (mkPlanned (Version p) (GeneratedAt p) (ObjectiveHash p) (pw_Load p) (pw_Latency p) (pw_Cost p) (pw_Affinity p) (Models p))
      (dec_string (Reason p) d))].

(** [LoadLive], given the reply to GET. *)
Definition LoadLive (reply : Health.reply) : result error (option PlannedPolicy) :=
  match reply with
  | RedisNil => Ok None
  | RedisErr e => Err e
  | Value raw =>
      match unmarshal_into zero_policy (dec_struct policy_fields) raw with
      | Some p => Ok (Some p)
      | None => Err (ENew "json: cannot unmarshal")
      end
  end.

(** ** Lemmas *)

(** A policy whose parts a JSON document carries unchanged. *)
Definition model_ok (mp : ModelPolicy) : Prop :=
  (forall w x, Weights mp !! w = Some x -> valid_utf8 w /\ num x) /\ valid_utf8 (Affinity mp) /\
  in_i64 (ConcurrencyTarget mp) /\ in_i64 (MaxQueueDepth mp).

Record policy_ok (p : PlannedPolicy) : Prop := {
  po_version : in_u64 (Version p);
  po_time : time_writable (GeneratedAt p) = true;
  po_hash : valid_utf8 (ObjectiveHash p);
  po_weights : num (pw_Load p) /\ num (pw_Latency p) /\ num (pw_Cost p) /\ num (pw_Affinity p);
  po_models : forall m mp, Models p !! m = Some mp -> valid_utf8 m /\ model_ok mp;
  po_reason : valid_utf8 (Reason p)
}.

Lemma dec_weights_doc m : (forall w x, m !! w = Some x -> valid_utf8 w /\ num x) ->
  dec_weights ∅ (DObj (map_members number_doc m)) = Some m.
Proof.
  intros Hm. unfold dec_weights. rewrite (dec_map_members _ id) by (intros k v Hv; apply dec_number; by eapply Hm). by rewrite map_fmap_id.
Qed.

Lemma weights_shape m : (forall w x, m !! w = Some x -> valid_utf8 w /\ num x) ->
  repaired (DObj (map_members number_doc m)) = DObj (map_members number_doc m) /\
  numbers_ok (DObj (map_members number_doc m)) /\ nesting (DObj (map_members number_doc m)) <= 1.
Proof.
  intros Hm. split_and!.
  - apply map_repaired. intros k v Hv. split; [by eapply Hm|done].
  - apply map_numbers. intros k v Hv. apply float_text_number. by eapply Hm.
  - apply (map_nesting number_doc 0); [done|]. by intros.
Qed.

Lemma model_shape mp : model_ok mp ->
  repaired (ModelPolicy_doc mp) = ModelPolicy_doc mp /\ numbers_ok (ModelPolicy_doc mp) /\ nesting (ModelPolicy_doc mp) <= 2.
Proof.
  intros (Hw & Ha & _). destruct (weights_shape _ Hw) as (R & N & D). unfold ModelPolicy_doc.
  remember (DObj (map_members number_doc (Weights mp))) as wd. split_and!.
  - cbn [repaired List.map fst snd]. rewrite R, (sanitize_id (Affinity mp)) by done. reflexivity.
  - cbn [numbers_ok foldr snd]. repeat split; try done; apply Itoa_num_ok.
  - cbn [nesting List.map foldr snd DInt]. lia.
Qed.

Lemma dec_model_doc mp : model_ok mp -> dec_struct model_fields zero_model (ModelPolicy_doc mp) = Some mp.
Proof.
  destruct mp as [ws a ct mq]. intros (Hw & Ha & Hc & Hq). cbn in Hw, Ha, Hc, Hq. unfold ModelPolicy_doc. cbn [dec_struct Weights Affinity ConcurrencyTarget MaxQueueDepth].
  pose proof (dec_weights_doc ws Hw) as Ew. remember (DObj (map_members number_doc ws)) as wd.
  read_member model_fields; [|cbn beta; cbn [Weights zero_model]; rewrite Ew; reflexivity].
  read_member model_fields; [|reflexivity].
  read_member model_fields; [|cbn beta; rewrite dec_int64_DInt by done; reflexivity].
  read_member model_fields; [|cbn beta; rewrite dec_int64_DInt by done; reflexivity].
  reflexivity.
Qed.

Lemma dec_wire_model_doc mp : model_ok mp -> dec_struct wire_model_fields ∅ (ModelPolicy_doc mp) = Some (Weights mp).
Proof.
  intros (Hw & _). unfold ModelPolicy_doc. cbn [dec_struct]. pose proof (dec_weights_doc _ Hw) as Ew.
  remember (DObj (map_members number_doc (Weights mp))) as wd.
  read_member wire_model_fields; [|cbn beta; exact Ew]. rewrite !dec_members_skip by reflexivity. reflexivity.
Qed.

Lemma policy_shape p : policy_ok p ->
  repaired (PlannedPolicy_doc p) = PlannedPolicy_doc p /\ numbers_ok (PlannedPolicy_doc p) /\
  nesting (PlannedPolicy_doc p) <= max_nesting.
Proof.
  intros [Hv Ht Hh (W1 & W2 & W3 & W4) Hm Hr]. unfold PlannedPolicy_doc.
  assert (repaired (DObj (map_members ModelPolicy_doc (Models p))) = DObj (map_members ModelPolicy_doc (Models p))) as R.
  { apply map_repaired. intros k v E. destruct (Hm k v E) as [Hk Hok]. split; [done|]. by apply model_shape. }
  assert (numbers_ok (DObj (map_members ModelPolicy_doc (Models p)))) as N.
  { apply map_numbers. intros k v E. destruct (Hm k v E) as [_ Hok]. by apply model_shape. }
  assert (nesting (DObj (map_members ModelPolicy_doc (Models p))) <= 3) as D.
  { apply (map_nesting ModelPolicy_doc 2); [done|]. intros k v E. destruct (Hm k v E) as [_ Hok]. by apply model_shape. }
  remember (DObj (map_members ModelPolicy_doc (Models p))) as md. split_and!.
  - unfold time_doc. cbn [repaired List.map fst snd]. rewrite R, (sanitize_id (time_text _)), (sanitize_id (ObjectiveHash p)), (sanitize_id (Reason p)) by
      (done || apply time_text_utf8). reflexivity.
  - cbn [numbers_ok foldr snd number_doc time_doc DInt]. repeat split; try done; first [apply Itoa_num_ok|by apply float_text_number].
  - cbn [nesting List.map foldr snd DInt number_doc time_doc]. unfold max_nesting. lia.
Qed.

Lemma marshal_policy_ok p : policy_ok p -> marshal_policy p = Ok (print (PlannedPolicy_doc p)).
Proof.
  intros [_ Ht _ (W1 & W2 & W3 & W4) Hm _]. unfold marshal_policy, marshals. rewrite Ht, !num_json by done. cbn [andb].
  assert (forallb (fun mp => forallb json_number (map_to_list (Weights mp)).*2) (map_to_list (Models p)).*2 = true) as ->; [|done].
  apply forallb_forall. intros mp Hmp. apply list_elem_of_In, list_elem_of_fmap in Hmp as ([m mp'] & -> & Hin).
  apply elem_of_map_to_list in Hin. destruct (Hm m mp' Hin) as [_ (Hw & _)]. cbn [snd].
  apply forallb_forall. intros x Hx. apply list_elem_of_In, list_elem_of_fmap in Hx as ([w x'] & -> & Hin').
  apply elem_of_map_to_list in Hin'. apply num_json. by eapply Hw.
Qed.

(** The subscriber decodes the policy the planner made for its own holder. *)
Lemma decode_wire_policy p : policy_ok p ->
  parsePolicyJSON (decode_wire (print (PlannedPolicy_doc p))) = toRoutingPolicy (Some p).
Proof.
  intros Hp. destruct (policy_shape p Hp) as (R & N & D). unfold decode_wire, unmarshal_into. rewrite parse_print, R by done.
  destruct Hp as [Hv Ht Hh (W1 & W2 & W3 & W4) Hm Hr]. unfold PlannedPolicy_doc. cbn [dec_struct].
  assert (dec_map_of ∅ (dec_struct wire_model_fields) ∅ (DObj (map_members ModelPolicy_doc (Models p))) = Some (Weights <$> Models p)) as Em.
  { apply dec_map_members. intros k v E. destruct (Hm k v E) as [_ Hok]. by apply dec_wire_model_doc. }
  remember (DObj (map_members ModelPolicy_doc (Models p))) as md.
  read_member wire_fields; [|cbn beta; rewrite dec_uint64_DInt by done; reflexivity].
  do 2 (rewrite dec_members_skip by reflexivity).
  do 4 (read_member wire_fields; [|cbn beta; rewrite dec_number by done; reflexivity]).
  read_member wire_fields; [|cbn beta; cbn [wire_models zero_wire]; rewrite Em; reflexivity].
  rewrite dec_members_skip by reflexivity. reflexivity.
Qed.

(** The struct after a field, with the other fields as they were. *)
Ltac settle := cbn [Version GeneratedAt ObjectiveHash pw_Load pw_Latency pw_Cost pw_Affinity Models Reason zero_policy].

(** The planner reads back the policy it wrote, the reason included. *)
Lemma LoadLive_policy p : policy_ok p -> LoadLive (Value (print (PlannedPolicy_doc p))) = Ok (Some p).
Proof.
  intros Hp. destruct (policy_shape p Hp) as (R & N & D). cbn [LoadLive]. unfold unmarshal_into. rewrite parse_print, R by done.
  destruct Hp as [Hv Ht Hh (W1 & W2 & W3 & W4) Hm Hr]. unfold PlannedPolicy_doc. cbn [dec_struct].
  assert (dec_map_of zero_model (dec_struct model_fields) ∅ (DObj (map_members ModelPolicy_doc (Models p))) = Some (Models p)) as Em.
  { rewrite (dec_map_members _ id) by (intros k v E; destruct (Hm k v E) as [_ Hok]; by apply dec_model_doc). by rewrite map_fmap_id. }
  remember (DObj (map_members ModelPolicy_doc (Models p))) as md.
  read_member policy_fields; [|cbn beta; rewrite dec_uint64_DInt by done; reflexivity]. settle.
  read_member policy_fields; [|cbn beta; cbn [dec_time time_doc]; rewrite time_text_read by done; reflexivity]. settle.
  read_member policy_fields; [|reflexivity]. settle.
  do 4 (read_member policy_fields; [|cbn beta; rewrite dec_number by done; reflexivity]; settle).
  read_member policy_fields; [|cbn beta; cbn [Models]; rewrite Em; reflexivity]. settle.
  read_member policy_fields; [|reflexivity]. by destruct p.
Qed.

(** ** The subscriber

    Redis keeps the last policy written and delivers an announcement to those
    subscribed by then.  Every step of the planner and of the subscriber that
    reaches Redis is a step of its own; a GET may fail, and a message may be
    lost with its connection. *)

Record subscriber := mkSubscriber {
  sb_key : option string;
  sb_subscribed : bool;
  sb_pending : nat;
  sb_holder : option (nat * RoutingPolicy)
}.

Inductive policy_act : Type :=
| SetKey (p : PlannedPolicy)           (* SET of [PolicyStore.Publish] *)
| Announce                             (* PUBLISH of [PolicyStore.Publish] *)
| FirstGet (failed : option error)     (* [RunPolicySubscriber] before it subscribes *)
| Subscribe
| Handle (failed : option error)       (* a message of the channel *)
| Lose.                                (* a message that never arrives *)

(** The reply to GET of the key, decoded. *)
Definition read_key (key : option string) (failed : option error) : result error (option policy_wire) :=
  match failed, key with
  | Some e, _ => Err e
  | None, Some raw => Ok (decode_wire raw)
  | None, None => Err (ENew "redis: nil")
  end.

Definition policy_step (s : subscriber) (i : nat) (a : policy_act) : subscriber :=
  match a with
  | SetKey p =>
      match marshal_policy p with
      | Ok raw => mkSubscriber (Some raw) (sb_subscribed s) (sb_pending s) (sb_holder s)
      | Err _ => s
      end
  | Announce => mkSubscriber (sb_key s) (sb_subscribed s) (if sb_subscribed s then S (sb_pending s) else sb_pending s) (sb_holder s)
  | FirstGet failed => mkSubscriber (sb_key s) (sb_subscribed s) (sb_pending s) (reloadPolicy (sb_holder s) i (read_key (sb_key s) failed))
  | Subscribe => mkSubscriber (sb_key s) true (sb_pending s) (sb_holder s)
  | Handle failed =>
      match sb_pending s with
      | O => s
      | S n => mkSubscriber (sb_key s) (sb_subscribed s) n (reloadPolicy (sb_holder s) i (read_key (sb_key s) failed))
      end
  | Lose => mkSubscriber (sb_key s) (sb_subscribed s) (Nat.pred (sb_pending s)) (sb_holder s)
  end.

Definition policy_run (s : subscriber) (acts : list policy_act) : subscriber :=
  (foldl (fun '(s, i) a => (policy_step s i a, S i)) (s, O) acts).1.

Definition new_subscriber : subscriber := mkSubscriber None false 0 None.

(** The policies written to the key, oldest first. *)
Definition sets (acts : list policy_act) : list PlannedPolicy := omap (fun a => match a with SetKey p => Some p | _ => None end) acts.

(** Whether a step reads the key, and is answered. *)
Definition reads (s : subscriber) (a : policy_act) : bool :=
  match a with
  | FirstGet None => true
  | Handle None => negb (Nat.eqb (sb_pending s) 0)
  | _ => false
  end.

(** Since the last policy was written: was the key read, and was an
    announcement sent to the subscriber? *)
Definition progress (s : subscriber) (n : bool * bool) (a : policy_act) : bool * bool :=
  match a with
  | SetKey _ => (false, false)
  | Announce => (n.1, n.2 || sb_subscribed s)
  | _ => (n.1 || reads s a, n.2)
  end.

Definition progress_of (acts : list policy_act) : bool * bool :=
  (foldl (fun '(s, i, n) a => (policy_step s i a, S i, progress s n a)) (new_subscriber, O, (false, false)) acts).2.

Definition caught_up (acts : list policy_act) : bool := (progress_of acts).1.
Definition told (acts : list policy_act) : bool := (progress_of acts).2.

(** No message is lost and every message finds Redis answering. *)
Definition attentive (acts : list policy_act) : Prop := Forall (fun a => match a with Handle (Some _) | Lose => False | _ => True end) acts.

(** After the policies [ps]: the key has the last one; what is held is one of
    them; and once the key was read, the last one is held. *)
Record follows_policies (ps : list PlannedPolicy) (caught : bool) (s : subscriber) : Prop := {
  fp_key : sb_key s = (fun p => print (PlannedPolicy_doc p)) <$> list.last ps;
  fp_held : forall r, Load (sb_holder s) = Some r -> exists p, p ∈ ps /\ toRoutingPolicy (Some p) = Some r;
  fp_caught : caught = true -> Load (sb_holder s) = p ← list.last ps; toRoutingPolicy (Some p)
}.

(** What an answered read does to the holder. *)
Lemma reload_holds ps h i :
  StronglySorted Z.lt (Version <$> ps) -> Forall policy_ok ps ->
  (forall r, Load h = Some r -> exists p, p ∈ ps /\ toRoutingPolicy (Some p) = Some r) ->
  Load (reloadPolicy h i (read_key ((fun p => print (PlannedPolicy_doc p)) <$> list.last ps) None)) =
    p ← list.last ps; toRoutingPolicy (Some p).
Proof.
  intros Hs Hok Hh. destruct (list.last ps) as [p|] eqn:El.
  2:{ apply list.last_None in El as ->. cbn. destruct (Load h) as [r|] eqn:Er; [|done]. destruct (Hh r eq_refl) as (p & Hp & _). by apply elem_of_nil in Hp. }
  apply list.last_Some in El as [l ->].
  apply Forall_app in Hok as [_ Hok]. apply list.Forall_cons in Hok as [Hok _]. cbn [read_key fmap option_fmap option_map reloadPolicy].
  rewrite (decode_wire_policy p Hok). cbn [toRoutingPolicy fmap option_fmap option_map StoreIfNewer snd mbind option_bind].
  unfold not_newer. destruct h as [[j r]|]; [|done]. cbn [p_Version].
  destruct (Z.leb_spec (Version p) (p_Version r)) as [Hle|]; [|done].
  destruct (Hh r eq_refl) as (q & Hq & [= <-]). cbn [p_Version] in Hle. apply elem_of_app in Hq as [Hq| ->%list_elem_of_singleton]; [|done].
  rewrite fmap_app in Hs. exfalso. assert (Version q < Version p); [|lia].
  eapply (StronglySorted_app_1_elem_of _ _ _ _ _ Hs); [by apply list_elem_of_fmap_2|by left].
Qed.

(** A read that fails leaves the holder alone. *)
Lemma failed_read h i key e : reloadPolicy h i (read_key key (Some e)) = h.
Proof. by destruct key. Qed.

Lemma policy_run_snoc s acts a : policy_run s (acts ++ [a]) = policy_step (policy_run s acts) (length acts) a.
Proof.
  unfold policy_run. rewrite foldl_app. cbn. assert (forall i s0, (foldl (fun '(s, i) a => (policy_step s i a, S i)) (s0, i) acts).2 = (i + length acts)%nat) as Hi.
  { induction acts as [|b acts IH]; intros i s0; cbn [foldl length snd]; [lia|]. rewrite IH. lia. }
  specialize (Hi O s). destruct (foldl _ _ _) as [s' i]. cbn in *. by rewrite Hi.
Qed.

Lemma progress_snoc acts a : progress_of (acts ++ [a]) = progress (policy_run new_subscriber acts) (progress_of acts) a.
Proof.
  unfold progress_of, policy_run. rewrite foldl_app. cbn [foldl].
  assert (forall s i n, (foldl (fun '(s, i, n) a => (policy_step s i a, S i, progress s n a)) (s, i, n) acts).1 =
    foldl (fun '(s, i) a => (policy_step s i a, S i)) (s, i) acts) as Hf.
  { induction acts as [|b acts IH]; intros s i n; [done|]. cbn [foldl]. apply IH. }
  specialize (Hf new_subscriber O (false, false)). destruct (foldl _ (new_subscriber, O, _) acts) as [[s i] n]. cbn [fst snd] in *. by rewrite <- Hf.
Qed.

Lemma sets_snoc acts a : sets (acts ++ [a]) = (sets acts ++ match a with SetKey p => [p] | _ => [] end)%list.
Proof. unfold sets. rewrite omap_app. by destruct a. Qed.

Lemma sorted_prefix acts a : StronglySorted Z.lt (Version <$> sets (acts ++ [a])) -> StronglySorted Z.lt (Version <$> sets acts).
Proof. rewrite sets_snoc, fmap_app. apply StronglySorted_app_1_l. Qed.

(** The holder after a read, answered or not. *)
Lemma follows_read ps caught s sub pend i failed :
  StronglySorted Z.lt (Version <$> ps) -> Forall policy_ok ps -> follows_policies ps caught s ->
  follows_policies ps (caught || match failed with None => true | Some _ => false end)
    (mkSubscriber (sb_key s) sub pend (reloadPolicy (sb_holder s) i (read_key (sb_key s) failed))).
Proof.
  intros Hs Hok [Hk Hh Hc]. destruct failed as [e|].
  - rewrite orb_false_r, failed_read. by split.
  - pose proof (reload_holds ps (sb_holder s) i Hs Hok Hh) as Hr. rewrite <- Hk in Hr. split; cbn [sb_key sb_holder]; [done| |by intros _].
    rewrite Hr. intros r Er. destruct (list.last ps) as [q|] eqn:El; [|done]. exists q. split; [|exact Er].
    apply list.last_Some in El as [l ->]. apply elem_of_app. right. by left.
Qed.

Lemma policies_followed acts :
  StronglySorted Z.lt (Version <$> sets acts) -> Forall policy_ok (sets acts) ->
  follows_policies (sets acts) (caught_up acts) (policy_run new_subscriber acts).
Proof.
  unfold caught_up. induction acts as [|a acts IH] using rev_ind; intros Hs Hok; [by repeat split|].
  assert (StronglySorted Z.lt (Version <$> sets acts)) as Hs0 by (by eapply sorted_prefix).
  assert (Forall policy_ok (sets acts)) as Hok0 by (rewrite sets_snoc in Hok; by apply Forall_app in Hok as [? _]).
  specialize (IH Hs0 Hok0). pose proof IH as [Hk Hh Hc]. rewrite policy_run_snoc, progress_snoc. set (s := policy_run new_subscriber acts) in *.
  rewrite sets_snoc in *. destruct a as [p| |failed| |failed|]; cbn [policy_step progress fst reads]; rewrite ?app_nil_r in *.
  - apply Forall_app in Hok as [_ Hp]. apply list.Forall_cons in Hp as [Hp _]. rewrite (marshal_policy_ok p Hp).
    split; cbn [sb_key sb_holder]; [by rewrite list.last_snoc| |done].
    intros r Er. destruct (Hh r Er) as (q & Hq & Eq). exists q. split; [apply elem_of_app; by left|done].
  - by split.
  - pose proof (follows_read _ _ _ (sb_subscribed s) (sb_pending s) (length acts) failed Hs0 Hok0 IH) as Hr. by destruct failed.
  - rewrite orb_false_r. by split.
  - destruct (sb_pending s) as [|n] eqn:Ep.
    + destruct failed; rewrite orb_false_r; exact IH.
    + pose proof (follows_read _ _ _ (sb_subscribed s) n (length acts) failed Hs0 Hok0 IH) as Hr. by destruct failed.
  - rewrite orb_false_r. by split.
Qed.

(** A subscriber that was told of a policy and has handled its messages has
    read the key since. *)
Lemma told_caught_up acts : attentive acts -> told acts = true -> sb_pending (policy_run new_subscriber acts) = 0%nat -> caught_up acts = true.
Proof.
  intros Ha Ht Hp. enough (told acts = true -> caught_up acts = true \/ sb_pending (policy_run new_subscriber acts) <> 0%nat) by naive_solver.
  clear Ht Hp. unfold told, caught_up. induction acts as [|a acts IH] using rev_ind; [done|].
  apply Forall_app in Ha as [Ha Hl]. apply list.Forall_cons in Hl as [Hl _]. specialize (IH Ha).
  rewrite policy_run_snoc, progress_snoc. set (s := policy_run new_subscriber acts) in *. destruct (progress_of acts) as [c t].
  destruct a as [p| |[e|]| |[e|]|]; cbn [progress policy_step reads fst snd sb_pending sb_subscribed] in *; rewrite ?orb_false_r; try done.
  - destruct (sb_subscribed s); [by right|]. by rewrite orb_false_r.
  - intros _. left. by rewrite orb_true_r.
  - intros Ht. destruct (IH Ht) as [->|Hne]; [by left|]. left. destruct (sb_pending s); [done|]. by rewrite orb_true_r.
Qed.

(** ** Properties *)

(** A policy on its way from the planner to the gateways: whatever policies
    are written to Redis, with growing versions, and in whatever order the
    subscriber of a control plane starts, subscribes and handles the
    announcements, whichever reads fail and whichever announcements are lost
    or never made, what it holds is a policy that was written, decoded to
    exactly the policy the planner makes for itself; once it has read the key
    since the last one was written it is the last one; and it has, when it was
    told of it and has handled its messages, unless one was lost or a read
    failed. *)
Lemma policies_reach_subscribers acts :
  StronglySorted Z.lt (Version <$> sets acts) -> Forall policy_ok (sets acts) ->
  let s := policy_run new_subscriber acts in
  (forall r, Load (sb_holder s) = Some r -> exists p, p ∈ sets acts /\ toRoutingPolicy (Some p) = Some r) /\
  (caught_up acts = true -> Load (sb_holder s) = p ← list.last (sets acts); toRoutingPolicy (Some p)) /\
  (attentive acts -> told acts = true -> sb_pending s = 0%nat -> caught_up acts = true).
Proof.
  intros Hs Hok. destruct (policies_followed acts Hs Hok) as [_ Hh Hc]. split_and!; [done|done|apply told_caught_up].
Qed.

(** A planner that restarts goes on from the version it last published, with
    the policy it last gave the gateways. *)
Theorem planner_resumes s i p :
  policy_ok p -> policyOut s = None ->
  exists raw, marshal_policy p = Ok raw /\
    version (Start s i (LoadLive (Value raw))) = Version p /\
    Load (policyOut (Start s i (LoadLive (Value raw)))) = toRoutingPolicy (Some p).
Proof.
  intros Hok Hn. exists (print (PlannedPolicy_doc p)). split; [by apply marshal_policy_ok|].
  rewrite (LoadLive_policy p Hok). cbn [Start version policyOut]. split; [done|]. by rewrite Hn.
Qed.

(** The subscriber reads the key before it subscribes: a policy published in
    between is in Redis, but neither held nor announced to it. *)
Theorem policy_missed_between p :
  policy_ok p ->
  let s := policy_run new_subscriber [FirstGet None; SetKey p; Announce; Subscribe] in
  sb_key s = Some (print (PlannedPolicy_doc p)) /\ sb_subscribed s = true /\ sb_pending s = 0%nat /\ Load (sb_holder s) = None.
Proof.
  intros Hok. cbn zeta. unfold policy_run. cbn [foldl policy_step new_subscriber sb_key sb_holder sb_pending sb_subscribed].
  rewrite (marshal_policy_ok p Hok). done.
Qed.

(** *** Witnesses *)

Definition halves : ModelPolicy := mkModelPolicy {["w1" := flit 5 10; "w2" := flit 5 10]} "prefix" 4 8.

Definition first_policy (v : Z) : PlannedPolicy := mkPlanned v 5 "0a1b" (flit 45 100) f_one f_zero (flit 1 10) {["m" := halves]} "demo".

Lemma first_policy_ok v : in_u64 v -> policy_ok (first_policy v).
Proof.
  intros Hv. split; cbn [first_policy Version GeneratedAt ObjectiveHash pw_Load pw_Latency pw_Cost pw_Affinity Models Reason].
  - done.
  - done.
  - by apply (bool_decide_unpack _).
  - split_and!; (split; [vm_compute; reflexivity|exact I]).
  - intros m mp [<- <-]%lookup_singleton_Some. split; [by apply (bool_decide_unpack _)|]. split_and!.
    + intros w x E. cbn [halves Weights] in E.
      apply lookup_insert_Some in E as [[<- <-]|[_ [<- <-]%lookup_singleton_Some]];
        (split; [by apply (bool_decide_unpack _)|split; [vm_compute; reflexivity|exact I]]).
    + by apply (bool_decide_unpack _).
    + by vm_compute.
    + by vm_compute.
  - by apply (bool_decide_unpack _).
Qed.

Lemma planner_resumes_witness :
  exists raw, marshal_policy (first_policy 7) = Ok raw /\
    version (Start (NewService DefaultObjective) 0 (LoadLive (Value raw))) = 7.
Proof.
  destruct (planner_resumes (NewService DefaultObjective) 0 (first_policy 7)) as (raw & Er & Ev & _).
  - apply first_policy_ok. by vm_compute.
  - reflexivity.
  - exists raw. split; [exact Er|exact Ev].
Defined.

Lemma policy_missed_between_witness :
  Load (sb_holder (policy_run new_subscriber [FirstGet None; SetKey (first_policy 1); Announce; Subscribe])) = None.
Proof.
  destruct (policy_missed_between (first_policy 1)) as (_ & _ & _ & E).
  - apply first_policy_ok. by vm_compute.
  - exact E.
Defined.
