(* ===== verification/PolicyFlow.v ===== *)
(** * From the planner to every gateway (services/planner/loop.go, policy.go;
      services/routing/policy.go)

    The planner's ticks (Planner.v) composed with the policies in Redis and
    the subscribers of the control planes (PolicyWire.v): every policy a tick
    publishes can be written and read back, so the gateways route with what
    the planner decided. *)

From S2P Require Import Prelude Float64 Rounding FloatRange GoStrings GoFormat Json Sha256 JsonDecode Strconv JsonFloat JsonTime Errors Holder Routing Planner PolicyWire.

(** ** Texts *)

Abbreviation ascii_text s := (str_forall (fun a => byte a <? 0x80) s = true).

Lemma pad_ascii w n : ascii_text (pad w n).
Proof.
  induction w as [|w IH]; [done|]. cbn [pad str_forall]. rewrite IH, andb_true_r. apply Z.ltb_lt.
  pose proof (Z.mod_pos_bound (n / 10 ^ Z.of_nat w) 10). rewrite byte_of_byte; lia.
Qed.

Lemma decimals_ascii s c p : ascii_text (decimals s c p).
Proof.
  unfold decimals, numeral. rewrite !str_forall_app, Itoa_ascii. cbn [exponent_text str_forall].
  rewrite andb_true_r. apply andb_true_iff. split; [by destruct s|]. cbn [andb].
  destruct (String.eqb _ _); [done|]. cbn [str_forall]. by rewrite pad_ascii.
Qed.

Lemma Sprintf_f_ascii p x : ascii_text (Sprintf_f p x).
Proof. destruct x as [s|[]| |s m e]; try apply decimals_ascii; reflexivity. Qed.

Lemma EncodeToString_ascii bs : Forall (fun b => 0 <= b < 256) bs -> ascii_text (EncodeToString bs).
Proof.
  assert (forall z, 0 <= z < 16 -> (byte (hex_digit z) <? 0x80) = true) as Hd.
  { intros z Hz. apply Z.ltb_lt. unfold hex_digit. rewrite byte_of_byte; case_match; lia. }
  unfold EncodeToString. induction 1 as [|b bs Hb Hbs IH]; [done|]. cbn [fmap list_fmap concat_str].
  rewrite str_forall_app, IH, andb_true_r. unfold hex_byte. cbn [str_forall]. rewrite !Hd; [done| |].
  - change 15 with (Z.ones 4). rewrite Z.land_ones by lia. by apply Z.mod_pos_bound.
  - rewrite Z.shiftr_div_pow2 by lia. split; [by apply Z.div_pos; lia|]. apply Z.div_lt_upper_bound; lia.
Qed.

Lemma HashObjective_utf8 o : valid_utf8 (HashObjective o).
Proof. apply ascii_utf8, EncodeToString_ascii, Forall_take, Sum256_bytes. Qed.

Lemma objective_reason_utf8 o n : valid_utf8 (objective_reason o n).
Proof. apply ascii_utf8. unfold objective_reason. rewrite !str_forall_app, !Sprintf_f_ascii, Itoa_ascii. reflexivity. Qed.

(** ** What the ticks publish *)

(** An objective with weights between zero and one, and a view of a worker
    whose names are text. *)
Definition objective_fit (o : Objective) : Prop := objective_ok o /\ num (WeightAffinity o).

Definition view_fit (w : WorkerView) : Prop := view_ok w /\ valid_utf8 (v_ID w) /\ valid_utf8 (v_BaseModel w).

Record tick_fit (t : tick_in) : Prop := {
  tf_row : forall o, t_row t = Some (Row o) -> objective_fit o;
  tf_snap : forall snap, t_snap t = Some snap -> Forall view_fit (Workers snap) /\ Z.of_nat (length (Workers snap)) <= 2 ^ 50;
  tf_now : time_writable (t_now t) = true
}.

Lemma DefaultObjective_fit : objective_fit DefaultObjective.
Proof. split; [split; [|split]; apply (bool_decide_unpack _); vm_compute; exact I|]. split; [vm_compute; reflexivity|exact I]. Qed.

Lemma ReloadObjective_fit cur t :
  objective_fit cur -> tick_fit t -> objective_fit (ReloadObjective cur (t_row t) (t_created t)).2.
Proof.
  intros Hc [Hr _ _]. unfold ReloadObjective. destruct (t_row t) as [[o| |e]|]; cbn [snd]; [by apply Hr| |done|done].
  destruct (t_created t); [apply DefaultObjective_fit|done].
Qed.

Lemma clamp01_num v : num v -> num (clamp01 v).
Proof.
  intros Hv. unfold clamp01, math_Max, math_Min.
  assert (num f_zero /\ num f_one) as [Hz Ho] by (split; (split; [vm_compute; reflexivity|exact I])).
  assert (forall x, num x -> is_nan x = false) as Hn by (intros [] [_ F]; done).
  rewrite (Hn f_one Ho), (Hn v Hv). cbn [orb]. destruct (fltb v f_one); rewrite (Hn f_zero Hz), Hn by done; cbn [orb]; by case_match.
Qed.

Lemma scorer_weights_num o : objective_fit o ->
  let '(l, t, c, a) := scorer_weights o in num l /\ num t /\ num c /\ num a.
Proof.
  intros [(Hl & Hc & Ht) Ha]. apply frange_num in Hl, Hc, Ht. unfold scorer_weights.
  destruct (feqb _ _); split_and!; try (by apply clamp01_num); (split; [vm_compute; reflexivity|exact I]).
Qed.

Lemma model_policy_ok o ws : objective_ok o -> Forall view_fit ws -> Z.of_nat (length ws) <= 2 ^ 50 -> ws <> [] -> model_ok (model_policy o ws).
Proof.
  intros Ho Hv Hl Hne. assert (Forall view_ok ws) as Hw by (eapply list.Forall_impl; [exact Hv|]; by intros w [? _]).
  destruct (scoreWorkers_range o ws Ho Hw Hl Hne) as (_ & _ & _ & Hall). split_and!.
  - cbn [model_policy Weights]. intros id x E. split; [|eapply frange_num, Hall, E].
    assert (id ∈ dom (scoreWorkers o ws)) as Hd by by eapply elem_of_dom_2. rewrite dom_scoreWorkers in Hd.
    unfold ids in Hd. apply elem_of_list_to_set, list_elem_of_fmap in Hd as (w & -> & Hin).
    rewrite list.Forall_forall in Hv. by destruct (Hv w Hin) as (_ & ? & _).
  - by apply (bool_decide_unpack _).
  - by vm_compute.
  - by vm_compute.
Qed.

Lemma pool_fit o ws model : Forall view_fit ws -> Z.of_nat (length ws) <= 2 ^ 50 ->
  Forall view_fit (pool o ws model) /\ Z.of_nat (length (pool o ws model)) <= 2 ^ 50 /\
  Forall (fun w => v_BaseModel w = model) (pool o ws model).
Proof.
  intros Hv Hl. rewrite list.Forall_forall in Hv. split_and!.
  - apply list.Forall_forall. intros w (Hw & _)%elem_of_pool. by apply Hv.
  - pose proof (List.filter_length_le (fun w => usable o w && String.eqb (v_BaseModel w) model) ws). unfold pool. lia.
  - apply list.Forall_forall. by intros w (_ & _ & ?)%elem_of_pool.
Qed.

Lemma planned_models_ok o snap m mp :
  objective_ok o -> Forall view_fit (Workers snap) -> Z.of_nat (length (Workers snap)) <= 2 ^ 50 ->
  (model_policy o <$> group o (Workers snap)) !! m = Some mp -> valid_utf8 m /\ model_ok mp.
Proof.
  intros Ho Hv Hl. rewrite lookup_fmap, group_lookup. destruct (pool_fit o (Workers snap) m Hv Hl) as (Hp & Hpl & Hm).
  destruct (pool o (Workers snap) m) as [|w ws] eqn:E; [done|]. cbn [fmap option_fmap option_map]. intros [= <-]. split.
  - apply list.Forall_cons in Hm as [<- _], Hp as [(_ & _ & Hb) _]. exact Hb.
  - by apply model_policy_ok.
Qed.

Section Flow.
Variable iter : forall A, gmap string A -> list A.

Lemma plan_fit o t v : objective_fit o -> tick_fit t ->
  let '(p, _, why) := plan iter o (t_snap t) in
  policy_ok (mkPlanned (wrap_u64 v) (t_now t) (HashObjective o) (pw_Load p) (pw_Latency p) (pw_Cost p) (pw_Affinity p) (Models p) why).
Proof.
  intros Ho [_ Hs Hn]. pose proof (scorer_weights_num o Ho) as Hw. unfold plan.
  destruct (scorer_weights o) as [[[l lt] c] a].
  assert (in_u64 (wrap_u64 v)) as Hv by apply wrap_u64_range.
  destruct (t_snap t) as [snap|]; [|split; cbn; try done; [apply HashObjective_utf8|by apply (bool_decide_unpack _)]].
  destruct (Hs snap eq_refl) as [Hf Hl]. pose proof (planned_models_ok o snap) as Hm.
  destruct (Workers snap) as [|w ws]; split; cbn [Version GeneratedAt ObjectiveHash pw_Load pw_Latency pw_Cost pw_Affinity Models Reason];
    try done; try apply HashObjective_utf8.
  - by apply (bool_decide_unpack _).
  - intros m mp E. destruct Ho as [Ho _]. by eapply Hm.
  - apply objective_reason_utf8.
Qed.

Lemma tick_fits s i t : objective_fit (objective s) -> tick_fit t -> Forall policy_ok (keys_of (written s)) ->
  objective_fit (objective (tick iter s i t).2) /\ Forall policy_ok (keys_of (written (tick iter s i t).2)).
Proof.
  intros Ho Ht Hp. pose proof (ReloadObjective_fit _ t Ho Ht) as Hr. unfold tick.
  pose proof (plan_fit _ t (version s + 1) Hr Ht) as Hok. destruct (plan iter _ (t_snap t)) as [[p score] why].
  set (policy := mkPlanned _ _ _ _ _ _ _ _ _). pose proof (Publish_effect policy score (t_store t)) as He.
  destruct (Publish policy score (t_store t)) as [[e|] ws]; cbn [snd objective written]; (split; [done|]); rewrite keys_of_app; apply Forall_app; (split; [done|]).
  - destruct He as [->|[-> _]]; [constructor|by apply list.Forall_singleton].
  - destruct He as [-> _]. by apply list.Forall_singleton.
Qed.

(** Every policy the planner writes survives the way through Redis. *)
Lemma ticks_fit s ts : objective_fit (objective s) -> Forall policy_ok (keys_of (written s)) -> Forall tick_fit ts ->
  Forall policy_ok (keys_of (written (ticks iter s ts))).
Proof.
  intros Ho Hp Hts. enough (objective_fit (objective (ticks iter s ts)) /\ Forall policy_ok (keys_of (written (ticks iter s ts)))) by tauto.
  induction ts as [|t ts IH] using rev_ind; [by split|]. apply Forall_app in Hts as [Hts Ht]. apply list.Forall_cons in Ht as [Ht _].
  rewrite ticks_snoc. destruct (IH Hts) as [H1 H2]. by apply tick_fits.
Qed.

(** The key in Redis when a planner starts: the policy of the one before it. *)
Definition key_before (live : option PlannedPolicy) : Health.reply :=
  match live with Some p => Health.Value (print (PlannedPolicy_doc p)) | None => Health.RedisNil end.

Lemma start_resumed o live : option_Forall (fun p => policy_ok p) live ->
  let s := Start (NewService o) 0 (LoadLive (key_before live)) in
  objective s = o /\ written s = [] /\ resumed (from_option Version 0 live) (live ≫= fun p => toRoutingPolicy (Some p)) 0 s.
Proof.
  intros Hl. destruct live as [p|]; cbn [key_before].
  - assert (policy_ok p) as Hp by by inversion Hl. rewrite (LoadLive_policy p Hp). split_and!; [done|done|]. apply start_service_resumed.
  - split_and!; [done|done|]. split; cbn; [lia|apply list.Forall_nil_2|apply SSorted_nil|constructor|done|done].
Qed.

(** The planner's writes to Redis, as steps on the wire, and the steps of the
    wire that are the planner's. *)
Definition wire_acts (ws : list policy_write) : list policy_act :=
  omap (fun w => match w with Recorded _ _ => None | WroteKey p => Some (SetKey p) | Announced _ => Some Announce end) ws.

Definition planner_acts (acts : list policy_act) : list policy_act :=
  List.filter (fun a => match a with SetKey _ | Announce => true | _ => false end) acts.

Lemma sets_planner_acts acts : sets (planner_acts acts) = sets acts.
Proof. unfold sets, planner_acts. induction acts as [|[] acts IH]; cbn; by rewrite ?IH. Qed.

Lemma sets_wire_acts ws : sets (wire_acts ws) = keys_of ws.
Proof. unfold sets, wire_acts, keys_of. induction ws as [|[] ws IH]; cbn; by rewrite ?IH. Qed.

Lemma sets_app acts acts' : sets (acts ++ acts') = (sets acts ++ sets acts')%list.
Proof. apply omap_app. Qed.

(** What a run over a planner's writes has written to the key. *)
Lemma sets_of_run live late ws acts :
  planner_acts acts = ((SetKey <$> option_list live) ++ replicate late Announce ++ wire_acts ws)%list ->
  sets acts = (option_list live ++ keys_of ws)%list.
Proof.
  intros E. rewrite <- sets_planner_acts, E, !sets_app, sets_wire_acts.
  assert (sets (replicate late Announce) = []) as -> by (clear E; induction late as [|late IH]; [done|exact IH]). by destruct live.
Qed.

(** The last policy written and the one the planner holds. *)
Lemma last_written_held v0 h0 n s q :
  resumed v0 h0 n s -> list.last (keys_of (written s)) = Some q -> (forall r, h0 = Some r -> p_Version r <= v0) ->
  Load (policyOut s) = toRoutingPolicy (Some q) \/
  q ∉ published s /\ forall r, Load (policyOut s) = Some r -> p_Version r < Version q.
Proof.
  intros [_ Hb Hs Hsub Ho _] El H0. apply list.last_Some in El as [l El]. rewrite El in *.
  assert (forall p, p ∈ l -> Version p < Version q) as Hl.
  { intros p Hp. rewrite fmap_app in Hs. eapply (StronglySorted_app_1_elem_of _ _ _ _ _ Hs); [by apply list_elem_of_fmap_2|by left]. }
  assert (v0 < Version q) as Hq by (apply Forall_app in Hb as [_ Hb]; apply list.Forall_cons in Hb as [Hb _]; lia).
  rewrite Ho. destruct (list.last (published s)) as [p|] eqn:Ep.
  - apply list.last_Some in Ep as [l' Ep]. assert (p ∈ l ++ [q])%list as Hp by (eapply sublist_subseteq; [exact Hsub|]; rewrite Ep; apply elem_of_app; right; by left).
    apply elem_of_app in Hp as [Hp| ->%list_elem_of_singleton]; [|by left]. right. split; [|intros r [= <-]; by apply Hl].
    intros Hin. pose proof (sublist_sorted _ _ Hsub Hs) as Hsp. rewrite Ep, fmap_app in Hsp. rewrite Ep in Hin.
    apply elem_of_app in Hin as [Hin| ->%list_elem_of_singleton]; [|specialize (Hl p Hp); lia].
    assert (Version q < Version p); [|specialize (Hl p Hp); lia].
    eapply (StronglySorted_app_1_elem_of _ _ _ _ _ Hsp); [by apply list_elem_of_fmap_2|by left].
  - apply list.last_None in Ep. right. rewrite Ep. split; [by intros ?%elem_of_nil|]. intros r Er. specialize (H0 r Er). lia.
Qed.

(** ** Properties *)

(** C34: the gateways route with what the planner decided.  A single planner
    starts with the policy its predecessor left in Redis, or none, and ticks
    any number of times, with objectives whose weights lie between zero and
    one, snapshots whose names are text and whose costs and queues are in
    range, and versions below 2^64; the insert of the decision, the SET of the policy and the PUBLISH of
    its version can each fail, before or after taking effect.  However a
    subscriber of some control plane interleaves its first read, its
    subscription and its announcements with these writes, and whichever of its
    reads fail and announcements are lost, what it holds is a policy that was
    written to Redis.  Once it has read the key since the last write, and it
    has when it was told of that policy and has handled its messages with no
    message lost and no read failed, it holds the policy written last.  That
    is the policy the planner holds itself, unless the last write was of a
    tick that then failed: the planner keeps an older policy than the gateways
    have. *)
Theorem planner_reaches_subscribers o live late ts acts :
  objective_fit o -> option_Forall (fun p => policy_ok p) live -> Forall tick_fit ts ->
  from_option Version 0 live + Z.of_nat (length ts) < two64 ->
  let planner := ticks iter (Start (NewService o) 0 (LoadLive (key_before live))) ts in
  let sub := policy_run new_subscriber acts in
  let keys := (option_list live ++ keys_of (written planner))%list in
  planner_acts acts = ((SetKey <$> option_list live) ++ replicate late Announce ++ wire_acts (written planner))%list ->
  (forall r, Load (sb_holder sub) = Some r -> exists p, p ∈ keys /\ toRoutingPolicy (Some p) = Some r) /\
  (attentive acts -> told acts = true -> sb_pending sub = 0%nat -> caught_up acts = true) /\
  (caught_up acts = true -> forall q, list.last keys = Some q ->
     Load (sb_holder sub) = toRoutingPolicy (Some q) /\
     (Load (policyOut planner) = Load (sb_holder sub) \/
      q ∉ published planner /\ forall r, Load (policyOut planner) = Some r -> p_Version r < Version q)).
Proof.
  intros Ho Hl Hts Hn planner sub keys Hacts. destruct (start_resumed o live Hl) as (Eo & Ep & Hi).
  assert (0 <= from_option Version 0 live) as H0.
  { destruct live as [p|]; [|done]. assert (policy_ok p) as [[? _] _ _ _ _ _] by by inversion Hl. done. }
  pose proof (ticks_resumed iter _ _ _ ts Hi H0 Hn) as Hres. fold planner in Hres. pose proof Hres as [_ Hb Hs _ Hout _].
  assert (Forall policy_ok (keys_of (written planner))) as Hok by (apply ticks_fit; [by rewrite Eo|by rewrite Ep|done]).
  apply sets_of_run in Hacts. fold keys in Hacts.
  destruct (policies_reach_subscribers acts) as (Hheld & Hlast & Htold).
  - rewrite Hacts. unfold keys. destruct live as [p|]; [|done]. cbn [option_list app fmap list_fmap]. constructor; [done|].
    apply Forall_fmap. eapply list.Forall_impl; [exact Hb|]. cbn. lia.
  - rewrite Hacts. apply Forall_app. split; [|done]. destruct Hl; constructor; [done|constructor].
  - rewrite Hacts in Hheld, Hlast. split_and!; [exact Hheld|exact Htold|]. intros Hc q Hq. specialize (Hlast Hc). rewrite Hq in Hlast.
    split; [exact Hlast|]. fold sub in Hlast. rewrite Hlast. destruct (list.last (keys_of (written planner))) as [q'|] eqn:Eq.
    + assert (q' = q) as ->. { pose proof Eq as [l El]%list.last_Some. unfold keys in Hq. rewrite El, app_assoc, list.last_snoc in Hq. congruence. }
      apply (last_written_held _ _ _ _ q Hres Eq). intros r Er. destruct live as [p|]; [|done]. by injection Er as <-.
    + apply list.last_None in Eq. left. unfold keys in Hq. rewrite Eq, app_nil_r in Hq. destruct live as [p|]; [|done]. injection Hq as ->.
      destruct Hres as [_ _ _ Hsub Ho' _]. rewrite Eq in Hsub. apply sublist_nil_r in Hsub. rewrite Ho', Hsub. done.
Qed.
End Flow.

(** *** Witnesses *)

Abbreviation restarted :=
  (ticks values (Start (NewService DefaultObjective) 0 (LoadLive (key_before (Some live_policy)))) [quiet_tick; failed_tick; quiet_tick]).

(** The announcement of the second policy fails. *)
Definition unannounced_tick : tick_in := mkTick None (Ok 1) (Some (mkSnap 0 1 two_views)) 0 (mkStore Done Done (Failed (ENew "redis down") false)).

Definition half_published : Service :=
  ticks values (Start (NewService DefaultObjective) 0 (LoadLive (key_before (Some live_policy)))) [quiet_tick; unannounced_tick].

Lemma tick_fit_plain t : (t_row t, t_snap t, t_now t) = (None, Some (mkSnap 0 1 two_views), 0) \/ (t_row t, t_snap t, t_now t) = (None, None, 0) -> tick_fit t.
Proof.
  intros [[= E1 E2 E3]|[= E1 E2 E3]]; split; rewrite ?E1, ?E2, ?E3; try done.
  intros snap [= <-]. split; [|cbn; lia].
  constructor; [|constructor; [|constructor]]; (split; [split; [cbn; lia|apply (bool_decide_unpack _); vm_compute; exact I]|]); split; by apply (bool_decide_unpack _).
Qed.

(** The subscriber reads the policy left behind, then the second of the two. *)
Definition joins : list policy_act :=
  [SetKey live_policy; FirstGet None; Subscribe] ++ wire_acts (written restarted) ++ [Handle None; Handle None].

Lemma planner_reaches_subscribers_witness :
  Load (sb_holder (policy_run new_subscriber joins)) = Load (policyOut restarted) /\
  p_Version <$> Load (policyOut restarted) = Some 44.
Proof.
  split; [|vm_compute; reflexivity].
  destruct (planner_reaches_subscribers values DefaultObjective (Some live_policy) 0 [quiet_tick; failed_tick; quiet_tick] joins) as (_ & Ht & Hl).
  - apply DefaultObjective_fit.
  - constructor. split; cbn; try done; by apply (bool_decide_unpack _).
  - constructor; [apply tick_fit_plain; by left|]. constructor; [apply tick_fit_plain; by right|]. constructor; [apply tick_fit_plain; by left|constructor].
  - vm_compute. reflexivity.
  - vm_compute. reflexivity.
  - destruct (list.last (option_list (Some live_policy) ++ keys_of (written restarted))%list) as [q|] eqn:Eq; [|exfalso; revert Eq; vm_compute; discriminate].
    assert (caught_up joins = true) as Hc by (apply Ht; [unfold attentive; vm_compute; repeat constructor|vm_compute; reflexivity|vm_compute; reflexivity]).
    destruct (Hl Hc q eq_refl) as [_ [He|[Hno _]]]; [symmetry; exact He|].
    exfalso. apply Hno. revert Eq. vm_compute. intros [= <-]. apply elem_of_cons. right. apply elem_of_cons. left. reflexivity.
Defined.

(** A policy that was written but whose announcement failed: a subscriber that
    reads it holds a newer policy than the planner that made it. *)
Theorem unannounced_policy_ahead :
  let acts := ([SetKey live_policy] ++ wire_acts (written half_published) ++ [FirstGet None])%list in
  p_Version <$> Load (sb_holder (policy_run new_subscriber acts)) = Some 43 /\
  p_Version <$> Load (policyOut half_published) = Some 42.
Proof. vm_compute. split; reflexivity. Qed.
