(* ===== verification/ProviderRegistry.v ===== *)
(** * External providers (services/provider: registry.go, ResolveAPIKey and
      ResolveModel of openai.go)

    Providers of the database become virtual workers of the routing snapshot:
    the reload, the two lookups the gateway dispatches with, and the views.
    The rows are inputs; environment variables and the formatting of the cost
    are parameters. *)

From Stdlib Require Import Ascii.
From S2P Require Import Prelude Float64 GoStrings Strconv Errors Routing.

Record Provider := mkProvider {
  pr_ID : string;
  pr_BaseURL : string;
  pr_APIKeyRef : string;
  pr_CostInPerMTok : float64;
  pr_CostOutPerMTok : float64;
  pr_CostPerHour : float64
}.

Record ModelMap := mkModelMap {
  mm_ProviderID : string;
  mm_BaseModel : string;
  mm_Adapter : string;
  mm_ProviderModel : string;
  mm_MaxContext : Z
}.

(** A backend: the configuration it was made with. *)
Record OpenAICompat := mkBackend { b_id : string; b_baseURL : string; b_apiKey : string; modelMap : gmap string string }.

Definition ResolveModel (b : OpenAICompat) (base : string) : string :=
  match modelMap b !! base with
  | Some m => if String.eqb m "" then base else m
  | None => base
  end.

Record VirtualWorker := mkVirtual {
  vw_ID : string;
  vw_ProviderID : string;
  vw_Endpoint : string;
  vw_BaseModel : string;
  vw_Adapter : string;
  vw_MaxContext : Z;
  vw_CostPerHour : float64;
  vw_CostInPerM : float64;
  vw_CostOutPerM : float64;
  vw_ProviderModel : string;
  vw_Backend : OpenAICompat
}.

Record Registry := mkRegistry { workers : list VirtualWorker; byID : gmap string OpenAICompat }.

Definition NewRegistry : Registry := mkRegistry [] ∅.

Section Registry.
Context `{UnicodeTables}.
Variable Getenv : string -> string.

Definition ResolveAPIKey (ref : string) : string :=
  if String.eqb ref "" then ""
  else if negb (String.eqb (Getenv ref) "") then Getenv ref
  else if HasPrefix ref "FORGE_" then Getenv ref
  else Getenv ("FORGE_" ++ ToUpper ref).

Definition NewOpenAICompat (id baseURL apiKey : string) (models : gmap string string) : OpenAICompat :=
  mkBackend id (TrimRight baseURL "/"%char) apiKey models.

Definition models_of (maps : list ModelMap) (pid : string) : list ModelMap :=
  List.filter (fun m => String.eqb (mm_ProviderID m) pid) maps.

Definition backend_of (p : Provider) (ms : list ModelMap) : OpenAICompat :=
  NewOpenAICompat (pr_ID p) (pr_BaseURL p) (ResolveAPIKey (pr_APIKeyRef p))
    (foldl (fun m x => <[mm_BaseModel x := mm_ProviderModel x]> m) ∅ ms).

Definition hourly_cost (p : Provider) : float64 :=
  if fleb (pr_CostPerHour p) f_zero then
    let c := ((pr_CostInPerMTok p + pr_CostOutPerMTok p) * f_of_Z 10)%F in
    if fleb c f_zero then f_one else c
  else pr_CostPerHour p.

Definition virtual_id (pid base adapter : string) : string :=
  "provider:" ++ pid ++ ":" ++ base ++ (if negb (String.eqb adapter "") then "#" ++ adapter else "").

Definition virtual_worker (p : Provider) (backend : OpenAICompat) (m : ModelMap) : VirtualWorker :=
  mkVirtual (virtual_id (pr_ID p) (mm_BaseModel m) (mm_Adapter m)) (pr_ID p) ("provider://" ++ pr_ID p)
    (mm_BaseModel m) (mm_Adapter m) (wrap_u32 (mm_MaxContext m)) (hourly_cost p)
    (pr_CostInPerMTok p) (pr_CostOutPerMTok p) (mm_ProviderModel m) backend.

Definition add_provider (maps : list ModelMap) (r : Registry) (p : Provider) : Registry :=
  let ms := models_of maps (pr_ID p) in
  let backend := backend_of p ms in
  mkRegistry (workers r ++ (virtual_worker p backend <$> ms)) (<[pr_ID p := backend]> (byID r)).

(** [Reload]: the enabled providers and the model map, as the database answers
    ([None] without one). *)
Definition Reload (r : Registry) (db : option (result error (list Provider) * result error (list ModelMap)))
    : option error * Registry :=
  match db with
  | None => (None, r)
  | Some (Err e, _) => (Some e, r)
  | Some (Ok _, Err e) => (Some e, r)
  | Some (Ok providers, Ok maps) => (None, foldl (add_provider maps) NewRegistry providers)
  end.

(** The worker's own backend; every virtual worker has one. *)
Definition Backend (r : Registry) (workerID : string) : option OpenAICompat :=
  vw_Backend <$> List.find (fun w => String.eqb (vw_ID w) workerID) (workers r).

Definition BackendByEndpoint (r : Registry) (endpoint : string) : option OpenAICompat :=
  if (str_len endpoint <? 11) || negb (String.eqb (str_take 11 endpoint) "provider://") then None
  else byID r !! str_drop 11 endpoint.

Definition view_of (w : VirtualWorker) : WorkerView :=
  mkView (vw_ID w) (vw_Endpoint w) (vw_BaseModel w) (vw_Adapter w) true true 0 0 (vw_MaxContext w) (vw_CostPerHour w)
    "paid" "provider" f_zero ""
    (list_to_map [("provider", "true"); ("no_local_kv", "true"); ("provider_id", vw_ProviderID w);
                  ("cost_class", "paid"); ("cost_per_hour", Sprintf_f 4 (vw_CostPerHour w))]).

Definition SnapshotViews (r : Registry) : list WorkerView := view_of <$> workers r.

(** ** Lemmas *)

Lemma add_providers_workers maps ps r :
  workers (foldl (add_provider maps) r ps) =
    (workers r ++ mjoin ((fun p => virtual_worker p (backend_of p (models_of maps (pr_ID p))) <$> models_of maps (pr_ID p)) <$> ps))%list.
Proof.
  revert r. induction ps as [|p ps IH]; intros r; cbn; [by rewrite app_nil_r|].
  rewrite IH. cbn [add_provider workers]. by rewrite app_assoc.
Qed.

Lemma add_providers_byID maps ps r p :
  NoDup (pr_ID <$> ps) -> p ∈ ps ->
  byID (foldl (add_provider maps) r ps) !! pr_ID p = Some (backend_of p (models_of maps (pr_ID p))).
Proof.
  induction ps as [|q ps IH] using rev_ind; [set_solver|]. rewrite foldl_app, fmap_app. cbn [foldl].
  intros (Hn & Hd & _)%list.NoDup_app [Hp|Hp%list_elem_of_singleton]%elem_of_app.
  - cbn [add_provider byID]. rewrite lookup_insert_ne; [by apply IH|]. intros E. apply (Hd (pr_ID p)).
    + apply list_elem_of_fmap. by exists p.
    + rewrite <- E. cbn. by apply list_elem_of_singleton.
  - subst q. cbn [add_provider byID]. apply lookup_insert_eq.
Qed.

Lemma elem_of_models_of maps pid m : m ∈ models_of maps pid <-> m ∈ maps /\ mm_ProviderID m = pid.
Proof. unfold models_of. rewrite list_elem_of_In, filter_In, <- list_elem_of_In, String.eqb_eq. done. Qed.

Lemma elem_of_workers maps ps w :
  w ∈ workers (foldl (add_provider maps) NewRegistry ps) <->
  exists p m, p ∈ ps /\ m ∈ maps /\ mm_ProviderID m = pr_ID p /\
    w = virtual_worker p (backend_of p (models_of maps (pr_ID p))) m.
Proof.
  rewrite add_providers_workers. cbn [NewRegistry workers app]. rewrite list_elem_of_join. split.
  - intros (l & Hw & (p & -> & Hp)%list_elem_of_fmap). apply list_elem_of_fmap in Hw as (m & -> & Hm%elem_of_models_of).
    exists p, m. tauto.
  - intros (p & m & Hp & Hm & Hpid & ->). eexists. split; [|apply list_elem_of_fmap; exists p; split; [reflexivity|done]].
    apply list_elem_of_fmap. exists m. split; [done|]. by apply elem_of_models_of.
Qed.

Lemma str_take_provider s : str_take 11 ("provider://" ++ s) = "provider://".
Proof. reflexivity. Qed.

Lemma str_drop_provider s : str_drop 11 ("provider://" ++ s) = s.
Proof. cbn. by destruct s. Qed.

Lemma str_len_app a b : str_len (a ++ b) = str_len a + str_len b.
Proof. unfold str_len. induction a as [|c a IH]; cbn in *; lia. Qed.

Lemma str_len_nonneg s : 0 <= str_len s.
Proof. unfold str_len. lia. Qed.

Lemma BackendByEndpoint_provider r pid : BackendByEndpoint r ("provider://" ++ pid) = byID r !! pid.
Proof.
  unfold BackendByEndpoint. rewrite str_len_app. pose proof (str_len_nonneg pid). change (str_len "provider://") with 11.
  rewrite (proj2 (Z.ltb_ge _ _)) by lia. by rewrite str_take_provider, str_drop_provider.
Qed.

Lemma find_virtual r w :
  NoDup (vw_ID <$> workers r) -> w ∈ workers r -> Backend r (vw_ID w) = Some (vw_Backend w).
Proof.
  unfold Backend. induction (workers r) as [|v l IH]; [set_solver|]. cbn. intros Hn [->|Hw]%elem_of_cons.
  - by rewrite String.eqb_refl.
  - inversion Hn as [|? ? Hx Hn']; subst. destruct (String.eqb_spec (vw_ID v) (vw_ID w)) as [E|]; [|by apply IH].
    exfalso. apply Hx. rewrite E. apply list_elem_of_fmap. by exists w.
Qed.

(** ** Properties *)

(** What the providers offer can be reached: after a reload every model
    mapped to an enabled provider is a healthy and ready view of the snapshot
    under [provider:<id>:<base>#<adapter>], and whatever view the gateway
    picks, both of its lookups, by worker id and by endpoint, find the backend
    of that very provider, which translates the base model to the one the map
    names.  Provider ids and virtual ids are distinct. *)
Theorem provider_views_dispatch r providers maps :
  NoDup (pr_ID <$> providers) -> NoDup (vw_ID <$> workers (foldl (add_provider maps) NewRegistry providers)) ->
  let r' := (Reload r (Some (Ok providers, Ok maps))).2 in
  (forall p m, p ∈ providers -> m ∈ maps -> mm_ProviderID m = pr_ID p ->
     exists v, v ∈ SnapshotViews r' /\ v_ID v = virtual_id (pr_ID p) (mm_BaseModel m) (mm_Adapter m) /\
       v_BaseModel v = mm_BaseModel m /\ v_Adapter v = mm_Adapter m /\ v_Healthy v = true /\ v_Ready v = true) /\
  (forall v, v ∈ SnapshotViews r' -> exists p, p ∈ providers /\
     let b := backend_of p (models_of maps (pr_ID p)) in
     Backend r' (v_ID v) = Some b /\ BackendByEndpoint r' (v_Endpoint v) = Some b /\ b_id b = pr_ID p /\
     modelMap b !! v_BaseModel v <> None).
Proof.
  intros Hn Hv. cbn [Reload snd]. set (r' := foldl (add_provider maps) NewRegistry providers) in *. split.
  - intros p m Hp Hm Hpid. exists (view_of (virtual_worker p (backend_of p (models_of maps (pr_ID p))) m)).
    split; [|done]. apply list_elem_of_fmap. eexists. split; [reflexivity|]. apply elem_of_workers. by exists p, m.
  - intros v (w & -> & Hw)%list_elem_of_fmap. pose proof (find_virtual r' w Hv Hw) as Hb.
    apply elem_of_workers in Hw as (p & m & Hp & Hm & Hpid & ->). exists p. split; [done|]. cbn zeta.
    split_and!; [exact Hb| |done|].
    + cbn [view_of v_Endpoint vw_Endpoint virtual_worker]. rewrite BackendByEndpoint_provider.
      by apply add_providers_byID.
    + cbn [view_of v_BaseModel vw_BaseModel virtual_worker backend_of NewOpenAICompat modelMap].
      assert (m ∈ models_of maps (pr_ID p)) as Hin by (by apply elem_of_models_of). revert Hin. clear.
      induction (models_of maps (pr_ID p)) as [|x l IH] using rev_ind; [set_solver|].
      rewrite foldl_app. cbn [foldl]. intros [Hin|Hin%list_elem_of_singleton]%elem_of_app.
      * destruct (decide (mm_BaseModel x = mm_BaseModel m)) as [->|Hne]; [by rewrite lookup_insert_eq|].
        rewrite lookup_insert_ne by done. by apply IH.
      * subst x. by rewrite lookup_insert_eq.
Qed.

(** A reload that fails keeps the registry: an error of either query
    changes neither the virtual workers nor the backends, and a reload that
    succeeds forgets every provider that is no longer enabled. *)
Theorem provider_reload_atomic r db e r' :
  Reload r db = (e, r') ->
  (e <> None -> r' = r) /\
  (forall providers maps w, db = Some (Ok providers, Ok maps) -> w ∈ workers r' ->
     vw_ProviderID w ∈ pr_ID <$> providers).
Proof.
  intros E. split.
  - destruct db as [[[ps|?] [ms|?]]|]; cbn in E; simplify_eq; done.
  - intros ps ms w -> Hw. cbn in E. simplify_eq. apply elem_of_workers in Hw as (p & m & Hp & _ & _ & ->).
    apply list_elem_of_fmap. by exists p.
Qed.
End Registry.

(** *** Witnesses *)

Definition acme : Provider := mkProvider "acme" "https://api.acme.test/v1/" "ACME_KEY" f_one f_one f_zero.
Definition acme_maps : list ModelMap := [mkModelMap "acme" "qwen" "" "qwen-max" 8192; mkModelMap "acme" "llama" "sql" "llama-sql" 4096].

Lemma provider_views_dispatch_witness :
  let r' := (@Reload ascii_tables (fun _ => "") NewRegistry (Some (Ok [acme], Ok acme_maps))).2 in
  exists v, v ∈ SnapshotViews r' /\ v_ID v = "provider:acme:llama#sql" /\ v_Healthy v = true.
Proof.
  destruct (@provider_views_dispatch ascii_tables (fun _ => "") NewRegistry [acme] acme_maps)
    as [Hv _].
  - apply (bool_decide_unpack _). vm_compute. exact I.
  - apply (bool_decide_unpack _). vm_compute. exact I.
  - destruct (Hv acme (mkModelMap "acme" "llama" "sql" "llama-sql" 4096)) as (v & H1 & H2 & _ & _ & H5 & _).
    + apply elem_of_cons. left. reflexivity.
    + apply elem_of_cons. right. apply elem_of_cons. left. reflexivity.
    + reflexivity.
    + exists v. split; [exact H1|]. split; [exact H2|exact H5].
Defined.

Lemma provider_reload_atomic_witness :
  mkRegistry [] ∅ = NewRegistry.
Proof.
  apply (@provider_reload_atomic ascii_tables (fun _ => "") NewRegistry (Some (Err (ENew "db down"), Ok [])) (Some (ENew "db down"))).
  - reflexivity.
  - discriminate.
Defined.
