(* ===== verification/CatalogStore.v ===== *)
(** * The catalog's tables (services/catalog/repository.go,
      ensureCatalogAssignment of services/fleet/lifecycle.go)

    Writing models and assignments, the seeding from the registered workers
    and the registration of a provisioned worker, over an interface that
    states what the queries rely on from PostgreSQL's INSERT ... ON CONFLICT,
    and how the rebuilt snapshot of GatewaySelect.v resolves what was
    written. *)

From S2P Require Import Prelude GoStrings Json Sha256 Errors GatewaySelect FleetScaling.

Abbreviation Model := GatewaySelect.ModelIdentity.

(** The two tables as the repository sees them.  The name of a model is
    unique, and so is the pair of an assignment. *)
Class CatalogTables (DB : Type) := {
  models_rows : DB -> list Model;
  assign_rows : DB -> list ModelAssignment;
  (** INSERT ... ON CONFLICT (name) DO UPDATE SET base_model, adapter *)
  insert_model : DB -> Model -> result error DB;
  (** INSERT ... ON CONFLICT (model_id, worker_id) DO NOTHING *)
  insert_assignment : DB -> ModelAssignment -> result error DB;
  models_unique : forall db, NoDup (mi_Name <$> models_rows db);
  insert_model_names : forall db m db', insert_model db m = Ok db' ->
    forall n, n ∈ mi_Name <$> models_rows db' <-> n = mi_Name m \/ n ∈ mi_Name <$> models_rows db;
  insert_model_new : forall db m db', insert_model db m = Ok db' ->
    mi_Name m ∉ mi_Name <$> models_rows db -> m ∈ models_rows db';
  insert_model_others : forall db m db' row, insert_model db m = Ok db' -> row ∈ models_rows db ->
    mi_Name row <> mi_Name m -> row ∈ models_rows db';
  insert_model_ids : forall db m db' row, insert_model db m = Ok db' -> row ∈ models_rows db ->
    exists row', row' ∈ models_rows db' /\ mi_Name row' = mi_Name row /\ mi_ID row' = mi_ID row;
  insert_model_rows : forall db m db' row, insert_model db m = Ok db' -> row ∈ models_rows db' ->
    (mi_Name row = mi_Name m /\ mi_BaseModel row = mi_BaseModel m /\ mi_Adapter row = mi_Adapter m) \/ row ∈ models_rows db;
  insert_model_assigns : forall db m db', insert_model db m = Ok db' -> assign_rows db' = assign_rows db;
  insert_assignment_rows : forall db a db', insert_assignment db a = Ok db' ->
    forall x, x ∈ assign_rows db' <-> x = a \/ x ∈ assign_rows db;
  insert_assignment_models : forall db a db', insert_assignment db a = Ok db' -> models_rows db' = models_rows db
}.

(** [newID]: [b] is what [rand.Read] put into the sixteen bytes. *)
Definition newID (b : list Z) : string := EncodeToString b.

Lemma hex_digit_inj x y : 0 <= x < 16 -> 0 <= y < 16 -> hex_digit x = hex_digit y -> x = y.
Proof.
  intros Hx Hy E. apply (f_equal byte) in E. unfold hex_digit in E.
  destruct (Z.ltb_spec x 10), (Z.ltb_spec y 10); rewrite !byte_of_byte in E by lia; lia.
Qed.

(** Every draw names its model: ids are not empty, and differ when the bytes
    do. *)
Lemma newID_inj b b' :
  Forall (fun x => 0 <= x < 256) b -> Forall (fun x => 0 <= x < 256) b' -> newID b = newID b' -> b = b'.
Proof.
  intros Hb. revert b'. induction Hb as [|x b Hx Hb IH]; intros b' Hb' E; destruct Hb' as [|y b' Hy Hb']; try done.
  unfold newID, EncodeToString in *. cbn [fmap list_fmap concat_str hex_byte String.append] in E. injection E as E1 E2 E3.
  f_equal; [|by apply IH]. assert (forall z, 0 <= z < 256 -> 0 <= Z.shiftr z 4 < 16 /\ 0 <= Z.land z 15 < 16 /\ z = 16 * Z.shiftr z 4 + Z.land z 15) as Hz.
  { intros z Hz. change 15 with (Z.ones 4). rewrite Z.land_ones, Z.shiftr_div_pow2 by lia.
    pose proof (Z.div_mod z (2 ^ 4)). pose proof (Z.mod_pos_bound z (2 ^ 4)). lia. }
  destruct (Hz x Hx) as (X1 & X2 & ->), (Hz y Hy) as (Y1 & Y2 & ->).
  apply hex_digit_inj in E1; [|done|done]. apply hex_digit_inj in E2; [|done|done]. lia.
Qed.

Lemma newID_nonempty b : length b = 16%nat -> newID b <> "".
Proof. intros Hb E. apply (f_equal String.length) in E. unfold newID in E. rewrite EncodeToString_length, Hb in E. done. Qed.

Section Catalog.
Context {DB : Type} `{CatalogTables DB}.

(** [UpsertModel] with the id [newID] would draw: the error or the tables, and
    the model with its id. *)
Definition UpsertModel (db : DB) (m : Model) (newID : string) : result error DB * Model :=
  let m := if String.eqb (mi_ID m) "" then mkIdentity newID (mi_Name m) (mi_BaseModel m) (mi_Adapter m) else m in
  (insert_model db m, m).

Definition UpsertAssignment (db : DB) (a : ModelAssignment) : result error DB := insert_assignment db a.

(** [First] of the models with a name. *)
Definition find_model (db : DB) (name : string) : option Model :=
  List.find (fun m => String.eqb (mi_Name m) name) (models_rows db).

(** A row of the servable models. *)
Record servable := mkServable { sr_WorkerID : string; sr_BaseModel : string; sr_Adapter : string }.

Definition model_name (base adapter : string) : string :=
  if negb (String.eqb adapter "") then base ++ "#" ++ adapter else base.

(** The loop of [SeedFromWorkers]: rows seeded, first error, tables.  The ids
    are those [newID] draws. *)
Fixpoint seed_rows (db : DB) (n : Z) (rows : list (servable * string)) : Z * option error * DB :=
  match rows with
  | [] => (n, None, db)
  | (rw, fresh) :: rest =>
      if String.eqb (sr_BaseModel rw) "" then seed_rows db n rest
      else
        let name := model_name (sr_BaseModel rw) (sr_Adapter rw) in
        let '(r, _) := UpsertModel db (mkIdentity fresh name (sr_BaseModel rw) (sr_Adapter rw)) fresh in
        match r with
        | Err e => (n, Some (EWrap e name), db)
        | Ok db =>
            match find_model db name with
            | None => (n, Some (ENew "record not found"), db)
            | Some stored =>
                match UpsertAssignment db (mkAssign (mi_ID stored) (sr_WorkerID rw)) with
                | Err e => (n, Some (EWrap e name), db)
                | Ok db => seed_rows db (n + 1) rest
                end
            end
        end
  end.

(** [SeedFromWorkers]: only an empty catalog is seeded.  [counted] is the
    outcome of the count. *)
Definition SeedFromWorkers (db : DB) (counted : option error) (rows : result error (list (servable * string)))
    : Z * option error * DB :=
  match counted with
  | Some e => (0, Some e, db)
  | None =>
      match models_rows db with
      | _ :: _ => (0, None, db)
      | [] => match rows with Err e => (0, Some e, db) | Ok rows => seed_rows db 0 rows end
      end
  end.

(** [ensureCatalogAssignment]; [listed] is the outcome of listing the models. *)
Definition ensureCatalogAssignment (db : DB) (listed : option error) (id : ModelIdentity) (workerID fresh : string)
    : result error DB :=
  if String.eqb workerID "" || String.eqb (BaseModel id) "" then Ok db
  else match listed with
  | Some e => Err e
  | None =>
    let name := Key id in
    match find_model db name with
    | Some m =>
        if String.eqb (mi_ID m) "" then
          let '(r, m') := UpsertModel db (mkIdentity "" name (BaseModel id) (Adapter id)) fresh in
          match r with Err e => Err e | Ok db => UpsertAssignment db (mkAssign (mi_ID m') workerID) end
        else UpsertAssignment db (mkAssign (mi_ID m) workerID)
    | None =>
        let '(r, m') := UpsertModel db (mkIdentity "" name (BaseModel id) (Adapter id)) fresh in
        match r with Err e => Err e | Ok db => UpsertAssignment db (mkAssign (mi_ID m') workerID) end
    end
  end.

(** The snapshot [Rebuild] stores, the seeding having run. *)
Definition rebuilt (db : DB) (now : Z) : option CatalogSnapshot :=
  (Rebuild None (Ok (models_rows db)) (Ok (assign_rows db)) now).2.

(** ** Lemmas *)

Lemma find_model_spec db name :
  match find_model db name with
  | Some m => m ∈ models_rows db /\ mi_Name m = name
  | None => name ∉ mi_Name <$> models_rows db
  end.
Proof.
  unfold find_model. destruct (List.find _ (models_rows db)) as [m|] eqn:E.
  - apply List.find_some in E as [E1 E2%String.eqb_eq]. by rewrite list_elem_of_In.
  - intros (m & -> & Hm)%list_elem_of_fmap. apply list_elem_of_In in Hm.
    pose proof (List.find_none _ _ E m Hm) as Hf. cbn in Hf. by rewrite String.eqb_refl in Hf.
Qed.

Lemma by_name_lookup (ms : list Model) m :
  NoDup (mi_Name <$> ms) -> m ∈ ms ->
  foldl (fun (acc : gmap string Model) x => <[mi_Name x := x]> acc) ∅ ms !! mi_Name m = Some m.
Proof.
  induction ms as [|x ms IH] using rev_ind; [set_solver|]. rewrite foldl_app, fmap_app. cbn [foldl].
  intros (Hn & Hd & _)%list.NoDup_app [Hm|Hm%list_elem_of_singleton]%elem_of_app.
  - rewrite lookup_insert_ne; [by apply IH|]. intros E. apply (Hd (mi_Name m)).
    + apply list_elem_of_fmap. by exists m.
    + rewrite <- E. cbn. by apply list_elem_of_singleton.
  - subst x. apply lookup_insert_eq.
Qed.

Lemma workers_by_model_lookup (xs : list ModelAssignment) mid w :
  w ∈ default [] (foldl (fun (m : gmap string (list string)) a =>
      <[a_ModelID a := (default [] (m !! a_ModelID a) ++ [a_WorkerID a])%list]> m) ∅ xs !! mid) <->
  mkAssign mid w ∈ xs.
Proof.
  induction xs as [|x xs IH] using rev_ind; [cbn; rewrite lookup_empty; set_solver|].
  rewrite foldl_app, elem_of_app, list_elem_of_singleton. cbn [foldl]. destruct x as [xm xw]. cbn [a_ModelID a_WorkerID].
  destruct (decide (xm = mid)) as [->|Hne].
  - rewrite lookup_insert_eq. cbn [default]. unfold Datatypes.id. rewrite elem_of_app, IH, list_elem_of_singleton.
    split; intros [?|?]; auto; right; congruence.
  - rewrite lookup_insert_ne by done. rewrite IH. split; [tauto|]. intros [?|[= ? ?]]; [done|congruence].
Qed.

(** Resolving a name in the rebuilt snapshot. *)
Lemma rebuilt_resolve db now m w :
  m ∈ models_rows db ->
  exists ws, Resolve (rebuilt db now) (mi_Name m) = Some (m, ws) /\ (w ∈ ws <-> mkAssign (mi_ID m) w ∈ assign_rows db).
Proof.
  intros Hm. eexists. unfold rebuilt, Rebuild, Resolve. cbn [snd ByName WorkersByModel].
  rewrite (by_name_lookup _ m (models_unique db) Hm). split; [reflexivity|]. apply workers_by_model_lookup.
Qed.

Lemma rebuilt_resolve_inv db now name m ws : Resolve (rebuilt db now) name = Some (m, ws) -> name ∈ mi_Name <$> models_rows db.
Proof.
  unfold rebuilt, Rebuild, Resolve. cbn [snd ByName]. destruct (_ !! name) as [x|] eqn:E; [|done]. intros _.
  revert E. induction (models_rows db) as [|y l IH] using rev_ind; [cbn; by rewrite lookup_empty|].
  rewrite foldl_app, fmap_app. cbn [foldl]. rewrite lookup_insert. case_decide as D; [|set_solver].
  intros _. apply elem_of_app. right. cbn. set_solver.
Qed.

(** A name resolves to some workers, one of them [w]. *)
Definition resolves (db : DB) (name w : string) : Prop :=
  exists m, m ∈ models_rows db /\ mi_Name m = name /\ mkAssign (mi_ID m) w ∈ assign_rows db.

Lemma resolves_rebuilt db now name w :
  resolves db name w -> exists m ws, Resolve (rebuilt db now) name = Some (m, ws) /\ w ∈ ws.
Proof.
  intros (m & Hm & <- & Ha). destruct (rebuilt_resolve db now m w Hm) as (ws & E & Hw). exists m, ws.
  split; [done|]. by apply Hw.
Qed.

Lemma resolves_insert_model db m db' name w :
  insert_model db m = Ok db' -> resolves db name w -> resolves db' name w.
Proof.
  intros E (x & Hx & <- & Ha). destruct (insert_model_ids db m db' x E Hx) as (x' & Hx' & Hn & Hi).
  exists x'. rewrite Hi, (insert_model_assigns db m db' E). done.
Qed.

Lemma resolves_insert_assignment db a db' name w :
  insert_assignment db a = Ok db' -> resolves db name w -> resolves db' name w.
Proof.
  intros E (x & Hx & <- & Ha). exists x. rewrite (insert_assignment_models db a db' E). split_and!; try done.
  apply (insert_assignment_rows db a db' E). by right.
Qed.

Lemma resolves_assigned db m w db' :
  m ∈ models_rows db -> insert_assignment db (mkAssign (mi_ID m) w) = Ok db' -> resolves db' (mi_Name m) w.
Proof.
  intros Hm E. exists m. rewrite (insert_assignment_models db _ db' E). split_and!; try done.
  apply (insert_assignment_rows db _ db' E). by left.
Qed.

(** One seeded row resolves, and seeding the others keeps it so. *)
Lemma seed_rows_spec rows db n n' db' :
  seed_rows db n rows = (n', None, db') ->
  n' = n + count (fun rw => negb (String.eqb (sr_BaseModel rw.1) "")) rows /\
  (forall name w, resolves db name w -> resolves db' name w) /\
  Forall (fun rw => sr_BaseModel rw.1 <> "" ->
    resolves db' (model_name (sr_BaseModel rw.1) (sr_Adapter rw.1)) (sr_WorkerID rw.1)) rows.
Proof.
  revert db n. induction rows as [|[rw fresh] rows IH]; intros db n; cbn [seed_rows].
  { intros [= <- <-]. split_and!; [unfold count; cbn; lia|done|constructor]. }
  rewrite count_cons. cbn [fst]. destruct (String.eqb_spec (sr_BaseModel rw) "") as [Eb|Eb]; cbn [negb b2z].
  { intros E. destruct (IH db n E) as (-> & Hk & Hf). split_and!; [lia|done|]. by constructor. }
  set (name := model_name _ _). unfold UpsertModel. set (m0 := if String.eqb _ "" then _ else _).
  destruct (insert_model db m0) as [db1|e] eqn:E1; [|by intros [=]].
  pose proof (find_model_spec db1 name) as Hf. destruct (find_model db1 name) as [stored|]; [|by intros [=]].
  destruct Hf as [Hst Hsn]. unfold UpsertAssignment.
  destruct (insert_assignment db1 (mkAssign (mi_ID stored) (sr_WorkerID rw))) as [db2|e] eqn:E2; [|by intros [=]].
  intros E. destruct (IH db2 (n + 1) E) as (-> & Hk & Hall). split_and!; [lia| |].
  - intros nm w Hr. eapply Hk, resolves_insert_assignment, resolves_insert_model; done.
  - constructor; [|done]. intros _. apply Hk. cbn [fst]. fold name. rewrite <- Hsn. by eapply resolves_assigned.
Qed.

(** The name of a model says its base and adapter. *)
Definition well_named (m : Model) : Prop := mi_Name m = model_name (mi_BaseModel m) (mi_Adapter m) /\ mi_BaseModel m <> "".

(** Seeding writes such names only. *)
Lemma seed_rows_named rows db n : Forall well_named (models_rows db) -> Forall well_named (models_rows (seed_rows db n rows).2).
Proof.
  revert db n. induction rows as [|[rw fresh] rows IH]; intros db n Hw; cbn [seed_rows]; [done|].
  destruct (String.eqb_spec (sr_BaseModel rw) "") as [Eb|Eb]; [by apply IH|].
  set (name := model_name _ _). unfold UpsertModel. set (m0 := if String.eqb _ "" then _ else _).
  destruct (insert_model db m0) as [db1|e] eqn:E1; [|done].
  assert (Forall well_named (models_rows db1)) as Hw1.
  { rewrite list.Forall_forall in Hw |- *. intros row Hr. destruct (insert_model_rows db m0 db1 row E1 Hr) as [(En & Ebs & Ea)|Hr']; [|by apply Hw].
    unfold well_named. rewrite En, Ebs, Ea. unfold m0. by case_if. }
  destruct (find_model db1 name) as [stored|]; [|done]. unfold UpsertAssignment.
  destruct (insert_assignment db1 (mkAssign (mi_ID stored) (sr_WorkerID rw))) as [db2|e] eqn:E2; [|done].
  apply IH. by rewrite (insert_assignment_models _ _ _ E2).
Qed.

Lemma Key_name id : Key id = model_name (BaseModel id) (Adapter id).
Proof. unfold Key, model_name. by destruct (String.eqb (Adapter id) ""). Qed.

Lemma ensureCatalogAssignment_resolves db id workerID fresh db' :
  workerID <> "" -> BaseModel id <> "" -> Forall (fun m => mi_ID m <> "") (models_rows db) ->
  ensureCatalogAssignment db None id workerID fresh = Ok db' ->
  resolves db' (Key id) workerID /\ forall name w, resolves db name w -> resolves db' name w.
Proof.
  intros Hw Hb Hids. unfold ensureCatalogAssignment.
  destruct (String.eqb_spec workerID ""); [done|]. destruct (String.eqb_spec (BaseModel id) ""); [done|]. cbn [orb].
  pose proof (find_model_spec db (Key id)) as Hfind. destruct (find_model db (Key id)) as [m|].
  - destruct Hfind as [Hm Hn]. rewrite list.Forall_forall in Hids.
    destruct (String.eqb_spec (mi_ID m) "") as [Ei|_]; [by destruct (Hids m Hm)|]. unfold UpsertAssignment. intros E. split.
    + rewrite <- Hn. by eapply resolves_assigned.
    + intros name w Hr. by eapply resolves_insert_assignment.
  - unfold UpsertModel. cbn [mi_ID mi_Name mi_BaseModel mi_Adapter String.eqb].
    set (m := mkIdentity fresh (Key id) (BaseModel id) (Adapter id)).
    destruct (insert_model db m) as [db1|e] eqn:E1; [|by intros [=]]. unfold UpsertAssignment. intros E2.
    assert (m ∈ models_rows db1) as Hm by (by apply (insert_model_new db m db1 E1)). split.
    + change (Key id) with (mi_Name m). by eapply resolves_assigned.
    + intros name w Hr. by eapply resolves_insert_assignment, resolves_insert_model.
Qed.

(** ** Properties *)

(** Seeding makes every registered worker routable: a successful seeding of an
    empty catalog counts the servable rows with a base model, and the snapshot
    rebuilt afterwards resolves the name of each of them to a set of workers
    that contains the worker of the row; a catalog with a model in it is left
    alone. *)
Theorem seed_makes_routable db rows n db' now :
  SeedFromWorkers db None (Ok rows) = (n, None, db') ->
  match models_rows db with
  | [] =>
      n = count (fun rw => negb (String.eqb (sr_BaseModel rw.1) "")) rows /\
      Forall (fun rw => sr_BaseModel rw.1 <> "" ->
        exists m ws, Resolve (rebuilt db' now) (model_name (sr_BaseModel rw.1) (sr_Adapter rw.1)) = Some (m, ws) /\
          sr_WorkerID rw.1 ∈ ws) rows
  | _ => n = 0 /\ db' = db
  end.
Proof.
  unfold SeedFromWorkers. destruct (models_rows db); [|by intros [= <- <-]].
  intros E. destruct (seed_rows_spec rows db 0 n db' E) as (-> & _ & Hall). split; [lia|].
  eapply list.Forall_impl; [exact Hall|]. cbn. intros rw Hr Hb. apply (resolves_rebuilt db' now). by apply Hr.
Qed.

(** A registered worker is resolved: when a ready worker has been assigned
    to its model, the snapshot rebuilt from the tables resolves the model's
    key to a set of workers that contains it, and every name that resolved to
    a worker before still does.  Model rows have ids. *)
Theorem registered_worker_resolves db id workerID fresh db' now :
  workerID <> "" -> BaseModel id <> "" -> Forall (fun m => mi_ID m <> "") (models_rows db) ->
  ensureCatalogAssignment db None id workerID fresh = Ok db' ->
  (exists m ws, Resolve (rebuilt db' now) (Key id) = Some (m, ws) /\ workerID ∈ ws) /\
  (forall name w, resolves db name w -> exists m ws, Resolve (rebuilt db' now) name = Some (m, ws) /\ w ∈ ws).
Proof.
  intros Hw Hb Hids E. destruct (ensureCatalogAssignment_resolves db id workerID fresh db' Hw Hb Hids E) as [Hr Hk].
  split; [by apply resolves_rebuilt|]. intros name w Hn. by apply resolves_rebuilt, Hk.
Qed.
End Catalog.

(** ** The interface is inhabited

    Models by name, with their id, base and adapter. *)

Record tables := mkTables { t_models : gmap string (string * string * string); t_assigns : list ModelAssignment }.

Definition row_of (kv : string * (string * string * string)) : Model :=
  mkIdentity kv.2.1.1 kv.1 kv.2.1.2 kv.2.2.

Definition t_insert_model (db : tables) (m : Model) : result error tables :=
  let mid := match t_models db !! mi_Name m with Some (i, _, _) => i | None => mi_ID m end in
  Ok (mkTables (<[mi_Name m := (mid, mi_BaseModel m, mi_Adapter m)]> (t_models db)) (t_assigns db)).

Definition t_insert_assignment (db : tables) (a : ModelAssignment) : result error tables :=
  Ok (mkTables (t_models db) (a :: t_assigns db)).

Definition t_rows (db : tables) : list Model := row_of <$> map_to_list (t_models db).

Lemma elem_of_t_rows db m :
  m ∈ t_rows db <-> t_models db !! mi_Name m = Some (mi_ID m, mi_BaseModel m, mi_Adapter m).
Proof.
  unfold t_rows. rewrite list_elem_of_fmap. split.
  - intros ([n [[i b] a]] & -> & E%elem_of_map_to_list). exact E.
  - intros E. eexists. split; [|apply elem_of_map_to_list; exact E]. by destruct m.
Qed.

Lemma t_names db : mi_Name <$> t_rows db = (map_to_list (t_models db)).*1.
Proof. unfold t_rows. rewrite <- list_fmap_compose. by apply list_fmap_ext. Qed.

Lemma elem_of_t_names db n : n ∈ mi_Name <$> t_rows db <-> is_Some (t_models db !! n).
Proof.
  rewrite t_names, list_elem_of_fmap. split.
  - intros ([k v] & -> & E%elem_of_map_to_list). by exists v.
  - intros [v E]. exists (n, v). split; [done|]. by apply elem_of_map_to_list.
Qed.

#[export] Instance tables_catalog : CatalogTables tables.
Proof.
  refine {| models_rows := t_rows; assign_rows := t_assigns; insert_model := t_insert_model;
            insert_assignment := t_insert_assignment |}.
  - intros db. rewrite t_names. apply NoDup_fst_map_to_list.
  - intros db m db' [= <-] n. rewrite !elem_of_t_names. cbn [t_models].
    destruct (decide (mi_Name m = n)) as [<-|Hne]; [rewrite lookup_insert_eq; split; [by left|by eexists]|].
    rewrite lookup_insert_ne by done. split; [by right|]. by intros [->|].
  - intros db m db' [= <-] Hn. rewrite elem_of_t_names in Hn. apply elem_of_t_rows. cbn [t_models].
    rewrite lookup_insert_eq. destruct (t_models db !! mi_Name m) as [[[i b] a]|]; [|done]. exfalso. apply Hn. by eexists.
  - intros db m db' row [= <-] Hr%elem_of_t_rows Hne. apply elem_of_t_rows. cbn. by rewrite lookup_insert_ne.
  - intros db m db' row [= <-] Hr%elem_of_t_rows. destruct (decide (mi_Name m = mi_Name row)) as [E|Hne].
    + exists (mkIdentity (mi_ID row) (mi_Name m) (mi_BaseModel m) (mi_Adapter m)). split; [|done].
      apply elem_of_t_rows. cbn. rewrite lookup_insert_eq, E, Hr. done.
    + exists row. split; [|done]. apply elem_of_t_rows. cbn. by rewrite lookup_insert_ne.
  - intros db m db' row [= <-] Hr%elem_of_t_rows. cbn [t_models] in Hr. apply lookup_insert_Some in Hr as [[E [= _ Eb Ea]]|[_ Hr]]; [left|right].
    + by rewrite E, Eb, Ea.
    + by apply elem_of_t_rows.
  - by intros db m db' [= <-].
  - intros db a db' [= <-] x. cbn. by rewrite elem_of_cons.
  - by intros db a db' [= <-].
Defined.

(** *** Witnesses *)

Definition no_tables : tables := mkTables ∅ [].

Definition servables : list (servable * string) :=
  [(mkServable "w1" "qwen" "", "id1"); (mkServable "w2" "" "", "id2"); (mkServable "w3" "qwen" "sql", "id3")].

Lemma seed_makes_routable_witness :
  2 = count (fun rw => negb (String.eqb (sr_BaseModel rw.1) "")) servables /\
  Forall (fun rw => sr_BaseModel rw.1 <> "" ->
    exists m ws, Resolve (rebuilt (SeedFromWorkers no_tables None (Ok servables)).2 0)
      (model_name (sr_BaseModel rw.1) (sr_Adapter rw.1)) = Some (m, ws) /\ sr_WorkerID rw.1 ∈ ws) servables.
Proof.
  refine (seed_makes_routable no_tables servables 2 (SeedFromWorkers no_tables None (Ok servables)).2 0 _).
  vm_compute. reflexivity.
Defined.

Definition after_register : tables :=
  match ensureCatalogAssignment no_tables None (mkModel "qwen" "") "local-1" "id9" with Ok db => db | Err _ => no_tables end.

Lemma registered_worker_resolves_witness :
  exists m ws, Resolve (rebuilt after_register 0) "qwen" = Some (m, ws) /\ "local-1" ∈ ws.
Proof.
  destruct (registered_worker_resolves no_tables (mkModel "qwen" "") "local-1" "id9" after_register 0) as [Hr _].
  - discriminate.
  - discriminate.
  - apply list.Forall_nil_2.
  - vm_compute. reflexivity.
  - exact Hr.
Defined.
