(* ===== verification/CatalogProgram.v ===== *)
(** * The catalog program (cmd/forge-catalog/main.go)

    The commands of forge-catalog over the tables of the catalog and of the
    providers: assigning a worker to a model, registering a provider with the
    models it serves, the scaling policy of a model, and the listing; and what
    the gateway's catalog snapshot and the provider registry make of them. *)

From Stdlib Require Import Ascii.
From S2P Require Import Prelude Float64 GoStrings Errors Routing GatewaySelect FleetScaling ProviderRegistry CatalogStore.

(** The tables of the providers, beside those of the catalog: rows are
    identified by the provider, and by provider, base and adapter. *)
Class ProviderTables (DB : Type) `{CatalogTables DB} := {
  (** the enabled providers *)
  provider_rows : DB -> list Provider;
  map_rows : DB -> list ModelMap;
  save_provider : DB -> Provider -> result error DB;
  save_map : DB -> ModelMap -> result error DB;
  providers_unique : forall db, NoDup (pr_ID <$> provider_rows db);
  save_provider_in : forall db p db', save_provider db p = Ok db' -> p ∈ provider_rows db';
  save_provider_maps : forall db p db', save_provider db p = Ok db' -> map_rows db' = map_rows db;
  save_provider_models : forall db p db', save_provider db p = Ok db' -> models_rows db' = models_rows db;
  save_provider_assigns : forall db p db', save_provider db p = Ok db' -> assign_rows db' = assign_rows db;
  save_map_in : forall db m db', save_map db m = Ok db' -> m ∈ map_rows db';
  save_map_kept : forall db m db' x, save_map db m = Ok db' -> x ∈ map_rows db ->
    (mm_ProviderID x, mm_BaseModel x, mm_Adapter x) <> (mm_ProviderID m, mm_BaseModel m, mm_Adapter m) -> x ∈ map_rows db';
  save_map_providers : forall db m db', save_map db m = Ok db' -> provider_rows db' = provider_rows db;
  save_map_models : forall db m db', save_map db m = Ok db' -> models_rows db' = models_rows db;
  save_map_assigns : forall db m db', save_map db m = Ok db' -> assign_rows db' = assign_rows db;
  insert_model_providers : forall db m db', insert_model db m = Ok db' -> provider_rows db' = provider_rows db /\ map_rows db' = map_rows db;
  insert_assignment_providers : forall db a db', insert_assignment db a = Ok db' ->
    provider_rows db' = provider_rows db /\ map_rows db' = map_rows db
}.

(** [indexByte] *)
Fixpoint indexByte (s : string) (b : ascii) (i : nat) : option nat :=
  match s with
  | "" => None
  | String c rest => if Ascii.eqb c b then Some i else indexByte rest b (S i)
  end.

(** fmt.Sscanf with %d on ASCII text: spaces, a sign, digits; the rest is not
    read.  [None] on an error, which leaves the variable alone. *)
Definition is_digit (c : ascii) : bool := (48 <=? Z.of_N (N_of_ascii c)) && (Z.of_N (N_of_ascii c) <=? 57).

Fixpoint digits (s : string) (v : Z) : Z :=
  match s with
  | String c rest => if is_digit c then digits rest (10 * v + (Z.of_N (N_of_ascii c) - 48)) else v
  | "" => v
  end.

(** tab, vertical tab, form feed, carriage return and space; a newline is an
    error *)
Definition is_space (c : ascii) : bool :=
  let n := Z.of_N (N_of_ascii c) in (n =? 9) || ((11 <=? n) && (n <=? 13)) || (n =? 32).

Fixpoint skip_spaces (s : string) : string :=
  match s with String c rest => if is_space c then skip_spaces rest else s | "" => "" end.

Definition Sscanf_d (s : string) : option Z :=
  let s := skip_spaces s in
  let '(sign, s) := match s with
                    | String c rest => if Ascii.eqb c "-" then (-1, rest) else if Ascii.eqb c "+" then (1, rest) else (1, s)
                    | "" => (1, "")
                    end in
  match s with
  | String c _ =>
      if is_digit c then
        let v := sign * digits s 0 in
        if (- 2 ^ 63 <=? v) && (v <? 2 ^ 63) then Some v else None
      else None
  | "" => None
  end.

Section Program.
Context {DB : Type} `{ProviderTables DB}.

(** [assign]: the error of [fatal] and the tables; [fresh] is the id [newID]
    draws. *)
Definition assign (db : DB) (listed : option error) (name workerID fresh : string) : option error * DB :=
  match listed with
  | Some e => (Some e, db)
  | None =>
      let existing := match find_model db name with Some m => mi_ID m | None => "" end in
      let '(r, modelID) :=
        if String.eqb existing "" then
          let '(r, m) := UpsertModel db (mkIdentity "" name name "") fresh in (r, mi_ID m)
        else (Ok db, existing) in
      match r with
      | Err e => (Some e, db)
      | Ok db =>
          match UpsertAssignment db (mkAssign modelID workerID) with
          | Err e => (Some e, db)
          | Ok db => (None, db)
          end
      end
  end.

(** An argument base=provider_model, or one name for both. *)
Definition map_arg (m : string) : string * string :=
  match indexByte m "=" 0 with Some i => (str_take i m, str_drop (S i) m) | None => (m, m) end.

Definition map_row (id : string) (arg : string) : ModelMap :=
  mkModelMap id (map_arg arg).1 "" (map_arg arg).2 128000.

(** The loop of [upsertProvider]; each model comes with the id it may draw. *)
Fixpoint upsert_maps (db : DB) (id : string) (maps : list (string * string)) : option error * DB :=
  match maps with
  | [] => (None, db)
  | (m, fresh) :: rest =>
      match save_map db (map_row id m) with
      | Err e => (Some e, db)
      | Ok db =>
          match assign db None (map_arg m).1 ("provider:" ++ id ++ ":" ++ (map_arg m).1) fresh with
          | (Some e, db) => (Some e, db)
          | (None, db) => upsert_maps db id rest
          end
      end
  end.

(** [upsertProvider]: the row has no costs. *)
Definition upsertProvider (db : DB) (id baseURL keyRef : string) (maps : list (string * string)) : option error * DB :=
  match save_provider db (mkProvider id baseURL keyRef f_zero f_zero f_zero) with
  | Err e => (Some e, db)
  | Ok db => upsert_maps db id maps
  end.

(** [upsertFleet]: the policy it writes. *)
Definition scan_or (o : option string) (v : Z) : Z :=
  match o with None => v | Some s => default v (Sscanf_d s) end.

Definition fleet_policy (base : string) (args : list string) : ScalingPolicy :=
  let p := DefaultPolicy (FleetScaling.mkModel base "") in
  mkPolicy (p_BaseModel p) (p_Adapter p) (scan_or (args !! 0%nat) 0) (scan_or (args !! 1%nat) 3) (scan_or (args !! 2%nat) 8)
    (ScaleUpUtilization p) (ScaleDownDelaySeconds p) (StabilizationWindowSeconds p).

(** [listModels]: a line per model, with the workers assigned to it. *)
Definition listModels (db : DB) : list (string * string * string * list string) :=
  let byModel := foldl (fun (m : gmap string (list string)) a =>
    <[a_ModelID a := (default [] (m !! a_ModelID a) ++ [a_WorkerID a])%list]> m) ∅ (assign_rows db) in
  (fun m => (mi_Name m, mi_BaseModel m, mi_Adapter m, default [] (byModel !! mi_ID m))) <$> models_rows db.

(** What the commands need besides the tables: the servable rows, the policy
    table and the ids [newID] draws. *)
Variable servable_rows : DB -> result error (list (servable * string)).
Variable store_policy : DB -> ScalingPolicy -> result error DB.
Variable fresh : nat -> string.

Definition exit_code (r : option error * DB) : Z * DB := (match r.1 with None => 0 | Some _ => 1 end, r.2).

(** [main] after its name, the database being reachable: the exit code and the
    tables. *)
Definition main (args : list string) (db : DB) : Z * DB :=
  match args with
  | [] => (2, db)
  | cmd :: args =>
      if String.eqb cmd "models" then (0, db)
      else if String.eqb cmd "assign" then
        match args with
        | name :: workerID :: _ => exit_code (assign db None name workerID (fresh 0))
        | _ => (1, db)
        end
      else if String.eqb cmd "seed" then
        let '(_, e, db) := SeedFromWorkers db None (servable_rows db) in exit_code (e, db)
      else if String.eqb cmd "provider-upsert" then
        match args with
        | id :: baseURL :: keyRef :: maps => exit_code (upsertProvider db id baseURL keyRef (zip maps (fresh <$> seq 0 (length maps))))
        | _ => (1, db)
        end
      else if String.eqb cmd "fleet-policy" then
        match args with
        | base :: rest => match store_policy db (fleet_policy base rest) with Err _ => (1, db) | Ok db => (0, db) end
        | [] => (1, db)
        end
      else if String.eqb cmd "workers" then (0, db)
      else (2, db)
  end.
End Program.

(** ** Lemmas *)

Section ProgramLemmas.
Context {DB : Type} `{ProviderTables DB}.

Lemma unique_row db x y : x ∈ models_rows db -> y ∈ models_rows db -> mi_Name x = mi_Name y -> x = y.
Proof.
  intros Hx Hy E. pose proof (by_name_lookup _ x (models_unique db) Hx) as Lx.
  pose proof (by_name_lookup _ y (models_unique db) Hy) as Ly. congruence.
Qed.

(** The rows after a model with a new name is inserted. *)
Lemma insert_model_inv db m db' x :
  insert_model db m = Ok db' -> mi_Name m ∉ mi_Name <$> models_rows db -> x ∈ models_rows db' -> x = m \/ x ∈ models_rows db.
Proof.
  intros E Hn Hx. destruct (decide (mi_Name x = mi_Name m)) as [Ex|Ex].
  - left. eapply unique_row; [exact Hx| |exact Ex]. by apply (insert_model_new db m db').
  - right. assert (mi_Name x ∈ mi_Name <$> models_rows db') as Hin by (apply list_elem_of_fmap; by exists x).
    apply (insert_model_names db m db' E) in Hin as [?|(y & Ey & Hy)%list_elem_of_fmap]; [done|].
    assert (x = y) as ->; [|done]. eapply unique_row; [exact Hx| |done]. apply (insert_model_others db m db'); congruence.
Qed.

(** Rows have ids, and the rows of a name are models of their own. *)
Definition has_ids (db : DB) : Prop := Forall (fun m => mi_ID m <> "") (models_rows db).

Definition own (db : DB) (name : string) : Prop :=
  forall row, row ∈ models_rows db -> mi_Name row = name -> mi_BaseModel row = name /\ mi_Adapter row = "".

Definition same_providers (db db' : DB) : Prop := provider_rows db' = provider_rows db /\ map_rows db' = map_rows db.

Lemma own_absent db name : name ∉ mi_Name <$> models_rows db -> own db name.
Proof. intros Hn row Hr E. exfalso. apply Hn, list_elem_of_fmap. by exists row. Qed.

Lemma assign_spec db name w fresh db' :
  fresh <> "" -> has_ids db -> assign db None name w fresh = (None, db') ->
  resolves db' name w /\ (forall n v, resolves db n v -> resolves db' n v) /\
  (forall n, own db n -> own db' n) /\ has_ids db' /\ same_providers db db'.
Proof.
  intros Hf Hids. unfold assign. pose proof (find_model_spec db name) as Hfind. unfold UpsertAssignment.
  destruct (find_model db name) as [m|].
  - destruct Hfind as [Hm Hn]. assert (mi_ID m <> "") as Hid by (unfold has_ids in Hids; rewrite list.Forall_forall in Hids; auto).
    destruct (String.eqb_spec (mi_ID m) "") as [?|_]; [done|].
    destruct (insert_assignment db (mkAssign (mi_ID m) w)) as [db1|] eqn:E; [|done]. intros [= <-].
    unfold own, has_ids. rewrite (insert_assignment_models _ _ _ E). split_and!; try done.
    + rewrite <- Hn. by eapply resolves_assigned.
    + intros n v. by apply (resolves_insert_assignment _ _ _ _ _ E).
    + apply (insert_assignment_providers _ _ _ E).
  - cbn [String.eqb]. unfold UpsertModel. cbn [mi_ID String.eqb mi_Name mi_BaseModel mi_Adapter].
    set (m := mkIdentity fresh name name "").
    destruct (insert_model db m) as [db1|] eqn:E1; [|done]. cbn [mi_ID m].
    destruct (insert_assignment db1 (mkAssign fresh w)) as [db2|] eqn:E2; [|done]. intros [= <-].
    assert (m ∈ models_rows db1) as Hm by (by apply (insert_model_new db m db1)).
    unfold own, has_ids. rewrite (insert_assignment_models _ _ _ E2). split_and!.
    + change name with (mi_Name m). by eapply resolves_assigned.
    + intros n v Hr. by eapply resolves_insert_assignment, resolves_insert_model.
    + intros n Ho row Hr En. destruct (insert_model_inv db m db1 row E1 Hfind Hr) as [->|Hr']; [|by apply Ho].
      cbn in En. by subst n.
    + apply list.Forall_forall. intros x Hx. unfold has_ids in Hids. rewrite list.Forall_forall in Hids.
      destruct (insert_model_inv db m db1 x E1 Hfind Hx) as [->|Hx']; [done|auto].
    + unfold same_providers. destruct (insert_assignment_providers _ _ _ E2) as [-> ->]. apply (insert_model_providers _ _ _ E1).
Qed.

(** A row of the model map with a key. *)
Definition mapped (db : DB) (pid base adapter : string) : Prop :=
  exists x, x ∈ map_rows db /\ mm_ProviderID x = pid /\ mm_BaseModel x = base /\ mm_Adapter x = adapter.

Lemma mapped_save db m db' pid base adapter :
  save_map db m = Ok db' -> mapped db pid base adapter -> mapped db' pid base adapter.
Proof.
  intros E (x & Hx & <- & <- & <-).
  destruct (decide ((mm_ProviderID x, mm_BaseModel x, mm_Adapter x) = (mm_ProviderID m, mm_BaseModel m, mm_Adapter m))) as [Ek|Ek].
  - injection Ek as -> -> ->. exists m. split_and!; try done. by apply (save_map_in db m db').
  - exists x. split_and!; try done. by apply (save_map_kept db m db').
Qed.

(** The tables the catalog reads are those of [db]. *)
Lemma same_catalog db db' :
  models_rows db' = models_rows db -> assign_rows db' = assign_rows db ->
  (forall n v, resolves db n v -> resolves db' n v) /\ (forall n, own db n -> own db' n) /\ (has_ids db -> has_ids db').
Proof. intros Em Ea. unfold resolves, own, has_ids. by rewrite Em, Ea. Qed.

Lemma upsert_maps_spec id maps db db' :
  Forall (fun mf => mf.2 <> "") maps -> has_ids db -> upsert_maps db id maps = (None, db') ->
  (forall n v, resolves db n v -> resolves db' n v) /\ (forall n, own db n -> own db' n) /\
  (forall p b a, mapped db p b a -> mapped db' p b a) /\ provider_rows db' = provider_rows db /\
  Forall (fun mf => resolves db' (map_arg mf.1).1 ("provider:" ++ id ++ ":" ++ (map_arg mf.1).1) /\
                    mapped db' id (map_arg mf.1).1 "") maps.
Proof.
  intros Hf. revert db. induction Hf as [|[m fresh] maps Hf0 _ IH]; intros db Hids; cbn [upsert_maps].
  { intros [= <-]. done. }
  destruct (save_map db (map_row id m)) as [db1|] eqn:E1; [|done].
  destruct (same_catalog db db1 (save_map_models _ _ _ E1) (save_map_assigns _ _ _ E1)) as (Hr1 & Ho1 & Hi1).
  destruct (assign db1 None _ _ fresh) as [[e|] db2] eqn:E2; [done|].
  destruct (assign_spec _ _ _ _ _ Hf0 (Hi1 Hids) E2) as (Hres & Hr2 & Ho2 & Hi2 & Hp2 & Hm2).
  intros E. destruct (IH db2 Hi2 E) as (Hr3 & Ho3 & Hm3 & Hp3 & Hall).
  assert (forall p b a, mapped db1 p b a -> mapped db' p b a) as Hm1.
  { intros p b a Hm. apply Hm3. unfold mapped. by rewrite Hm2. }
  split_and!; [auto|auto| | |].
  - intros p b a Hm. by apply Hm1, (mapped_save db (map_row id m)).
  - rewrite Hp3, Hp2. apply (save_map_providers _ _ _ E1).
  - constructor; [|done]. cbn [fst]. split; [by apply Hr3|]. apply Hm1. exists (map_row id m). split_and!; try done.
    by apply (save_map_in db).
Qed.
End ProgramLemmas.

(** ** Properties *)

Section ProgramProperties.
Context {DB : Type} `{ProviderTables DB} `{UnicodeTables}.
Variable Getenv : string -> string.

(** A provider registered with provider-upsert is served: when the command
    succeeds, each of its models is a name of the catalog that resolves to a
    set with the provider's virtual worker in it, as a base model of its own
    unless the name was taken, and the registry reloaded from the same tables
    shows that very worker healthy and ready for the base model, with a
    backend under its endpoint for the URL given (without trailing slashes).
    The rows of the catalog have ids. *)
Theorem upserted_provider_routable db id baseURL keyRef maps db' r0 now :
  Forall (fun mf => mf.2 <> "") maps -> has_ids db -> upsertProvider db id baseURL keyRef maps = (None, db') ->
  let reg := (Reload Getenv r0 (Some (Ok (provider_rows db'), Ok (map_rows db')))).2 in
  forall mf, mf ∈ maps ->
    let base := (map_arg mf.1).1 in
    (exists row ws, Resolve (rebuilt db' now) base = Some (row, ws) /\ virtual_id id base "" ∈ ws /\
       (base ∉ mi_Name <$> models_rows db -> mi_BaseModel row = base /\ mi_Adapter row = "")) /\
    (exists v, v ∈ SnapshotViews reg /\ v_ID v = virtual_id id base "" /\ v_BaseModel v = base /\
       v_Adapter v = "" /\ v_Healthy v = true /\ v_Ready v = true /\
       exists b, BackendByEndpoint reg (v_Endpoint v) = Some b /\ b_id b = id /\ b_baseURL b = TrimRight baseURL "/").
Proof.
  intros Hf Hids. unfold upsertProvider. set (p := mkProvider id baseURL keyRef f_zero f_zero f_zero).
  destruct (save_provider db p) as [db1|] eqn:E1; [|done]. intros E. cbn zeta. intros mf Hmf.
  destruct (same_catalog db db1 (save_provider_models _ _ _ E1) (save_provider_assigns _ _ _ E1)) as (Hr1 & Ho1 & Hi1).
  destruct (upsert_maps_spec id maps db1 db' Hf (Hi1 Hids) E) as (Hr & Ho & Hm & Hp & Hall).
  rewrite list.Forall_forall in Hall. destruct (Hall mf Hmf) as [Hres (x & Hx & Hxp & Hxb & Hxa)].
  set (base := (map_arg mf.1).1) in *. rewrite <- (str_app_nil_r base) in Hres at 2.
  split.
  - pose proof Hres as (row & Hrow & Hn & Ha). destruct (rebuilt_resolve db' now row (virtual_id id base "") Hrow) as (ws & Er & Hw).
    rewrite Hn in Er. exists row, ws. split_and!; [done|by apply Hw|]. intros Habs. apply Ho; [|done|done].
    apply Ho1. by apply own_absent.
  - assert (p ∈ provider_rows db') as Hin by (rewrite Hp; by apply (save_provider_in db)).
    cbn [Reload snd]. exists (view_of (virtual_worker p (backend_of Getenv p (models_of (map_rows db') (pr_ID p))) x)).
    split; [apply list_elem_of_fmap; eexists; split; [reflexivity|]; apply elem_of_workers; by exists p, x|].
    cbn [view_of virtual_worker v_ID v_BaseModel v_Adapter v_Healthy v_Ready v_Endpoint vw_ID vw_Endpoint vw_BaseModel vw_Adapter].
    rewrite Hxb, Hxa. split_and!; try done. exists (backend_of Getenv p (models_of (map_rows db') (pr_ID p))). split_and!; [|done|done].
    rewrite BackendByEndpoint_provider. apply add_providers_byID; [apply providers_unique|done].
Qed.

End ProgramProperties.

Section Routing.
Context {DB : Type} `{ProviderTables DB} `{UnicodeTables}.

(** A model assigned under a name with an adapter is not routed to its
    workers: a new name base#adapter becomes a model whose base is the whole
    name, so that the gateway, which without a catalog parses the name into
    base and adapter, looks for a base model no such worker serves. *)
Theorem assigned_adapter_misrouted db base adapter w fresh db' now s :
  base <> "" -> no_byte "#"%char base -> TrimSpace (base ++ "#" ++ adapter) = base ++ "#" ++ adapter ->
  fresh <> "" -> has_ids db -> base ++ "#" ++ adapter ∉ mi_Name <$> models_rows db ->
  assign db None (base ++ "#" ++ adapter) w fresh = (None, db') -> sel_catalog s = rebuilt db' now ->
  ParseModelID (base ++ "#" ++ adapter) = (base, adapter) /\
  exists allowed, resolveModel s (base ++ "#" ++ adapter) = Ok (base ++ "#" ++ adapter, "", Some allowed) /\
    base ++ "#" ++ adapter <> base.
Proof.
  intros Hb Hno Ht Hfr Hids Hnew E Hs. split; [by apply ParseModelID_pair|].
  destruct (assign_spec _ _ _ _ _ Hfr Hids E) as ((row & Hrow & Hn & Ha) & _ & Ho & _).
  destruct (rebuilt_resolve db' now row w Hrow) as (ws & Er & _).
  destruct (Ho (base ++ "#" ++ adapter)) with (row := row) as [Hbase Had]; [by apply own_absent|done|done|].
  exists (list_to_set ws). unfold resolveModel. rewrite ParseModelID_pair by done. rewrite Hs, <- Hn, Er.
  destruct (Empty (rebuilt db' now)) eqn:Ee; [by rewrite (Resolve_empty _ _ Ee) in Er|].
  rewrite Hbase, Had, Hn. split; [done|]. intros Eq. apply (f_equal String.length) in Eq.
  rewrite str_length_app in Eq. cbn in Eq. lia.
Qed.

(** Workers that register after the catalog was seeded stay unknown to it: a
    catalog with a model in it is not seeded again, however often it is
    rebuilt, so a model only later workers serve is answered as not found. *)
Theorem late_worker_not_found db rows name now s :
  models_rows db <> [] -> name ∉ mi_Name <$> models_rows db ->
  sel_catalog s = rebuilt (SeedFromWorkers db None (Ok rows)).2 now ->
  resolveModel s name = Err (EWrap ErrModelNotFound name).
Proof.
  intros Hne Hn Hs. assert ((SeedFromWorkers db None (Ok rows)).2 = db) as Es.
  { unfold SeedFromWorkers. by destruct (models_rows db). }
  rewrite Es in Hs. unfold resolveModel. destruct (ParseModelID name) as [b a]. rewrite Hs.
  destruct (models_rows db) as [|m ms] eqn:Em; [done|].
  assert (m ∈ models_rows db) as Hm by (rewrite Em; set_solver).
  destruct (Empty (rebuilt db now)) eqn:Ee.
  - destruct (rebuilt_resolve db now m "" Hm) as (ws & Er & _). by rewrite (Resolve_empty _ _ Ee) in Er.
  - destruct (Resolve (rebuilt db now) name) as [[i ws]|] eqn:Er; [|done]. exfalso. apply Hn.
    rewrite <- Em. apply (rebuilt_resolve_inv db now name i ws Er).
Qed.
End Routing.

(** ** The interface is inhabited

    The tables of CatalogStore.v with providers by id and model maps as a
    list without duplicate keys. *)

Record store := mkProgramTables { pt_cat : tables; pt_providers : gmap string Provider; pt_maps : list ModelMap }.

Definition with_cat (db : store) (r : result error tables) : result error store :=
  match r with Ok t => Ok (mkProgramTables t (pt_providers db) (pt_maps db)) | Err e => Err e end.

Lemma with_cat_inv db r db' : with_cat db r = Ok db' ->
  r = Ok (pt_cat db') /\ pt_providers db' = pt_providers db /\ pt_maps db' = pt_maps db.
Proof. destruct r; [|done]. by intros [= <-]. Qed.

#[export] Instance store_catalog : CatalogTables store.
Proof.
  refine {| models_rows db := models_rows (pt_cat db); assign_rows db := assign_rows (pt_cat db);
            insert_model db m := with_cat db (insert_model (pt_cat db) m);
            insert_assignment db a := with_cat db (insert_assignment (pt_cat db) a) |};
    intros db; [exact (models_unique (pt_cat db))|intros m db' ..].
  - intros (E & _)%with_cat_inv. exact (insert_model_names _ _ _ E).
  - intros (E & _)%with_cat_inv. exact (insert_model_new _ _ _ E).
  - intros row (E & _)%with_cat_inv. exact (insert_model_others _ _ _ row E).
  - intros row (E & _)%with_cat_inv. exact (insert_model_ids _ _ _ row E).
  - intros row (E & _)%with_cat_inv. exact (insert_model_rows _ _ _ row E).
  - intros (E & _)%with_cat_inv. exact (insert_model_assigns _ _ _ E).
  - intros (E & _)%with_cat_inv. exact (insert_assignment_rows _ _ _ E).
  - intros (E & _)%with_cat_inv. exact (insert_assignment_models _ _ _ E).
Defined.

(** Providers under their own id, as the interface promises distinct ones. *)
Definition named (kv : string * Provider) : Provider :=
  mkProvider kv.1 (pr_BaseURL kv.2) (pr_APIKeyRef kv.2) (pr_CostInPerMTok kv.2) (pr_CostOutPerMTok kv.2) (pr_CostPerHour kv.2).

#[export] Instance store_providers : ProviderTables store.
Proof.
  refine {| provider_rows db := named <$> map_to_list (pt_providers db); map_rows := pt_maps;
            save_provider db p := Ok (mkProgramTables (pt_cat db) (<[pr_ID p := p]> (pt_providers db)) (pt_maps db));
            save_map db m := Ok (mkProgramTables (pt_cat db) (pt_providers db) (m :: pt_maps db)) |}; intros db.
  - rewrite <- list_fmap_compose. erewrite list_fmap_ext; [apply (NoDup_fst_map_to_list (pt_providers db))|done].
  - intros p db' [= <-]. apply list_elem_of_fmap. exists (pr_ID p, p). split; [by destruct p|].
    apply elem_of_map_to_list, lookup_insert_eq.
  - by intros p db' [= <-].
  - by intros p db' [= <-].
  - by intros p db' [= <-].
  - intros m db' [= <-]. cbn. set_solver.
  - intros m db' x [= <-] Hx _. cbn. set_solver.
  - by intros m db' [= <-].
  - by intros m db' [= <-].
  - by intros m db' [= <-].
  - intros m db' (_ & Ep & Em)%with_cat_inv. by rewrite Ep, Em.
  - intros m db' (_ & Ep & Em)%with_cat_inv. by rewrite Ep, Em.
Defined.

(** *** Witnesses *)

Definition no_rows : store := mkProgramTables no_tables ∅ [].

Definition acme_args : list (string * string) := [("qwen=qwen-max", "id1"); ("llama", "id2")].

Definition with_acme : store := (upsertProvider no_rows "acme" "https://api.acme.test/v1/" "ACME_KEY" acme_args).2.

Lemma upserted_provider_routable_witness :
  exists row ws, Resolve (rebuilt with_acme 0) "qwen" = Some (row, ws) /\ "provider:acme:qwen" ∈ ws /\
    ("qwen" ∉ mi_Name <$> models_rows no_rows -> mi_BaseModel row = "qwen" /\ mi_Adapter row = "").
Proof.
  refine (proj1 (@upserted_provider_routable store store_catalog store_providers ascii_tables (fun _ => "")
    no_rows "acme" "https://api.acme.test/v1/" "ACME_KEY" acme_args with_acme NewRegistry 0 _ _ _ ("qwen=qwen-max", "id1") _)).
  - repeat constructor; discriminate.
  - apply list.Forall_nil_2.
  - vm_compute. reflexivity.
  - apply elem_of_cons. left. reflexivity.
Defined.

Definition after_assign : store := (assign no_rows None "qwen#sql" "w1" "id1").2.

Definition catalog_only (c : option CatalogSnapshot) : Selector :=
  mkSelector None c None None (sel_chain alias_selector).

Lemma assigned_adapter_misrouted_witness :
  exists allowed, @resolveModel ascii_tables (catalog_only (rebuilt after_assign 0)) "qwen#sql" = Ok ("qwen#sql", "", Some allowed) /\
    "qwen#sql" <> "qwen".
Proof.
  refine (proj2 (@assigned_adapter_misrouted store store_catalog store_providers ascii_tables no_rows "qwen" "sql" "w1" "id1"
    after_assign 0 (catalog_only (rebuilt after_assign 0)) _ _ _ _ _ _ _ _)).
  - discriminate.
  - apply IndexByte_None_inv. reflexivity.
  - vm_compute. reflexivity.
  - discriminate.
  - apply list.Forall_nil_2.
  - apply not_elem_of_nil.
  - vm_compute. reflexivity.
  - reflexivity.
Defined.

Definition reseeded : store := (SeedFromWorkers after_assign None (Ok [(mkServable "w2" "llama" "", "id2")])).2.

Lemma late_worker_not_found_witness :
  @resolveModel ascii_tables (catalog_only (rebuilt reseeded 0)) "llama" = Err (EWrap ErrModelNotFound "llama").
Proof.
  apply (@late_worker_not_found store store_catalog ascii_tables after_assign [(mkServable "w2" "llama" "", "id2")] "llama" 0
    (catalog_only (rebuilt reseeded 0))).
  - vm_compute. discriminate.
  - apply (bool_decide_unpack _). vm_compute. exact I.
  - reflexivity.
Defined.
