(* ===== verification/FleetLifecycle.v ===== *)
(** * The lifecycle of provisioned workers (services/fleet/lifecycle.go)

    Readiness checks, the wait for a worker to become ready, and its
    registration with the catalog and, for pods, with the providers.  The
    catalog is the interface of CatalogStore.v; the answers of HTTP and of the
    provider tables, the snapshot at each poll and the end of the context are
    inputs. *)

From Stdlib Require Import Ascii.
From S2P Require Import Prelude GoStrings Errors Routing GatewaySelect FleetScaling CatalogStore ProviderRegistry.

(** ** Readiness *)

(** [httpModelsOK]: the response is a failure or a status and, if it decodes,
    the ids of the listed models. *)
Definition httpModelsOK (resp : result error (Z * option (list string))) (wantModel : string) : result error bool :=
  match resp with
  | Err e => Err e
  | Ok (status, body) =>
      if negb (status =? 200) then Err (ENew "status")
      else match body with
      | None => Err (ENew "decode")
      | Some data =>
          let any := match data with [] => false | _ => true end in
          if String.eqb wantModel "" then Ok any
          else if existsb (fun m => String.eqb m wantModel || Contains m wantModel) data then Ok true
          else Ok any
      end
  end.

Definition is_pod (wid : string) : bool := HasPrefix wid "runpod-" && negb (HasPrefix wid "runpod-dryrun-").

Definition pod_proxy (wid : string) : string := "https://" ++ TrimPrefix wid "runpod-" ++ "-8000.proxy.runpod.net".

(** The snapshot shows the worker healthy and ready. *)
Definition heartbeats_ready (snap : option RoutingSnapshot) (wid : string) : bool :=
  match snap with
  | None => false
  | Some s => existsb (fun w => String.eqb (v_ID w) wid && v_Healthy w && v_Ready w) (Workers s)
  end.

(** [checkReady]: [holder] is [None] for a nil holder and otherwise what it
    holds. *)
Definition checkReady (wid : string) (id : ModelIdentity) (holder : option (option RoutingSnapshot))
    (resp : result error (Z * option (list string))) : bool * string * option error :=
  if is_pod wid then
    match httpModelsOK resp (BaseModel id) with
    | Err e => (false, pod_proxy wid, Some e)
    | Ok ok => (ok, pod_proxy wid, None)
    end
  else if match holder with None => false | Some snap => heartbeats_ready snap wid end then (true, "heartbeat", None)
  else if HasPrefix wid "runpod-dryrun-" || HasPrefix wid "local-" then
    match holder with
    | None => (true, "track-only", None)
    | Some snap =>
        if heartbeats_ready snap wid then (true, "heartbeat", None)
        else if HasPrefix wid "local-" then (false, "waiting-heartbeat", None)
        else (true, "dry-run", None)
    end
  else (false, "", None).

(** ** Registration *)

Definition provider_url (detail : string) : string :=
  if negb (HasSuffix detail "/v1") then TrimRight detail "/"%char ++ "/v1" else detail.

(** The id a worker is assigned under. *)
Definition assigned_id (wid : string) (id : ModelIdentity) : string :=
  if is_pod wid then "provider:runpod-" ++ TrimPrefix wid "runpod-" ++ ":" ++ BaseModel id else wid.

(** The provider and the row of the model map written for a pod. *)
Definition pod_provider (wid detail : string) : Provider :=
  mkProvider ("runpod-" ++ TrimPrefix wid "runpod-") (provider_url detail) "" Float64.f_zero Float64.f_zero (Float64.flit 39 100).

Definition pod_model (wid : string) (id : ModelIdentity) : ModelMap :=
  mkModelMap ("runpod-" ++ TrimPrefix wid "runpod-") (BaseModel id) (Adapter id) (BaseModel id) 8192.

Section Lifecycle.
Context {DB : Type} `{CatalogTables DB}.

(** What the provider tables and the catalog answer to one registration. *)
Record register_in := mkRegister { provider_stored : option error; model_stored : option error;
                                   models_listed : option error; drawn_id : string }.

(** [register]: [db] is [None] without a database. *)
Definition register (db : option DB) (wid : string) (id : ModelIdentity) (i : register_in) : result error (option DB) :=
  match db with
  | None => Ok None
  | Some db =>
      let assign := match ensureCatalogAssignment db (models_listed i) id (assigned_id wid id) (drawn_id i) with
                    | Err e => Err e
                    | Ok db => Ok (Some db)
                    end in
      if is_pod wid then
        match provider_stored i with
        | Some e => Err e
        | None => match model_stored i with Some e => Err e | None => assign end
        end
      else assign
  end.

(** One poll of [WaitReady]: whether the context has ended, what the check
    sees, what registration meets, and whether the context ends during the
    sleep.  The list of polls ends with the deadline. *)
Record ready_poll := mkPoll { p_done : option error; p_holder : option (option RoutingSnapshot);
                              p_resp : result error (Z * option (list string)); p_register : register_in;
                              p_slept : option error }.

Fixpoint WaitReady (db : option DB) (wid : string) (id : ModelIdentity) (ps : list ready_poll) : result error (option DB) :=
  match ps with
  | [] => Err (ENew ("fleet/lifecycle: timeout waiting for " ++ wid))
  | p :: rest =>
      match p_done p with
      | Some e => Err e
      | None =>
          let '(ready, detail, _) := checkReady wid id (p_holder p) (p_resp p) in
          if ready then register db wid id (p_register p)
          else match p_slept p with
               | Some e => Err e
               | None => WaitReady db wid id rest
               end
      end
  end.

(** ** The clock *)

Record LifecycleConfig := mkLifecycleConfig { ReadyTimeout : Z; PollInterval : Z }.

(** [NewLifecycle]: the defaults of the configuration. *)
Definition NewLifecycle (cfg : LifecycleConfig) : LifecycleConfig :=
  mkLifecycleConfig (if ReadyTimeout cfg <=? 0 then 600 * second else ReadyTimeout cfg)
    (if PollInterval cfg <=? 0 then 5 * second else PollInterval cfg).

(** [WaitReady] by the clock: [now k] is the reading before the k-th poll;
    [None] when the fuel runs out. *)
Fixpoint wait_ready (now : nat -> Z) (poll : nat -> ready_poll) (deadline : Z) (fuel k : nat)
    (db : option DB) (wid : string) (id : ModelIdentity) : option (result error (option DB)) :=
  match fuel with
  | O => None
  | S fuel =>
      if now k <? deadline then
        match p_done (poll k) with
        | Some e => Some (Err e)
        | None =>
            let '(ready, detail, _) := checkReady wid id (p_holder (poll k)) (p_resp (poll k)) in
            if ready then Some (register db wid id (p_register (poll k)))
            else match p_slept (poll k) with
                 | Some e => Some (Err e)
                 | None => wait_ready now poll deadline fuel (S k) db wid id
                 end
        end
      else Some (Err (ENew ("fleet/lifecycle: timeout waiting for " ++ wid)))
  end.

(** One poll for each interval that fits in the timeout. *)
Definition WaitReady_clocked (cfg : LifecycleConfig) (start : Z) (now : nat -> Z) (poll : nat -> ready_poll)
    (db : option DB) (wid : string) (id : ModelIdentity) : option (result error (option DB)) :=
  wait_ready now poll (start + ReadyTimeout cfg) (Z.to_nat (ReadyTimeout cfg / PollInterval cfg) + 2) 0 db wid id.

(** ** Lemmas *)

Lemma register_resolves db wid id i db' :
  wid <> "" -> BaseModel id <> "" -> Forall (fun m => mi_ID m <> "") (models_rows db) ->
  register (Some db) wid id i = Ok (Some db') -> resolves db' (Key id) (assigned_id wid id).
Proof.
  intros Hw Hb Hids. unfold register.
  assert (assigned_id wid id <> "") as Ha by (unfold assigned_id; by destruct (is_pod wid)).
  destruct (models_listed i) as [e|].
  { unfold ensureCatalogAssignment. destruct (String.eqb_spec (assigned_id wid id) ""); [done|].
    destruct (String.eqb_spec (BaseModel id) ""); [done|]. cbn [orb].
    repeat case_match; done. }
  destruct (ensureCatalogAssignment db None id (assigned_id wid id) (drawn_id i)) as [db1|e] eqn:E.
  - destruct (ensureCatalogAssignment_resolves db id _ _ db1 Ha Hb Hids E) as [Hr _].
    repeat case_match; try done; intros [= <-]; exact Hr.
  - repeat case_match; done.
Qed.

Lemma WaitReady_registers db wid id ps db' :
  WaitReady db wid id ps = Ok db' ->
  exists p, p ∈ ps /\ (checkReady wid id (p_holder p) (p_resp p)).1.1 = true /\ register db wid id (p_register p) = Ok db'.
Proof.
  induction ps as [|p ps IH]; [done|]. cbn [WaitReady]. destruct (p_done p); [done|].
  destruct (checkReady wid id (p_holder p) (p_resp p)) as [[[] detail] ce] eqn:E.
  - intros Hr. exists p. rewrite E. split_and!; [set_solver|done|done].
  - destruct (p_slept p); [done|]. intros Hr. destruct (IH Hr) as (q & ? & ?). exists q. split; [set_solver|done].
Qed.

(** Enough fuel, and the clocked loop is the loop over the polls it made. *)
Lemma wait_ready_spec now poll interval deadline fuel k db wid id :
  (forall j, now j + interval <= now (S j)) -> 0 <= interval ->
  deadline <= now k + interval * (Z.of_nat fuel - 1) -> (0 < fuel)%nat ->
  exists r n, wait_ready now poll deadline fuel k db wid id = Some r /\
    r = WaitReady db wid id (poll <$> seq k n) /\ (forall j, (k <= j < k + n)%nat -> now j < deadline).
Proof.
  intros Hp Hi. revert k. induction fuel as [|fuel IH]; intros k Hd Hf; [lia|]. cbn [wait_ready].
  destruct (Z.ltb_spec (now k) deadline) as [Hlt|Hge].
  2:{ exists (WaitReady db wid id []), 0%nat. split_and!; [done|done|lia]. }
  assert (forall j, (k <= j < k + 1)%nat -> now j < deadline) as H1.
  { intros j Hj. by replace j with k by lia. }
  destruct (p_done (poll k)) eqn:Ed.
  { eexists _, 1%nat. split_and!; [done| |done]. cbn. by rewrite Ed. }
  destruct (checkReady wid id (p_holder (poll k)) (p_resp (poll k))) as [[[] detail] ce] eqn:Ec.
  { eexists _, 1%nat. split_and!; [done| |done]. cbn. by rewrite Ed, Ec. }
  destruct (p_slept (poll k)) eqn:Es.
  { eexists _, 1%nat. split_and!; [done| |done]. cbn. by rewrite Ed, Ec, Es. }
  pose proof (Hp k) as Hk. destruct (IH (S k)) as (r & n & E & -> & Hall); [nia|destruct fuel; lia|].
  eexists _, (S n). split_and!; [exact E|cbn; by rewrite Ed, Ec, Es|].
  intros j Hj. destruct (decide (j = k)) as [->|]; [done|apply Hall; lia].
Qed.

(** ** Properties *)

(** C32: a worker the fleet manager hears is ready has been seen ready and is
    in the catalog: when the wait for a worker of some base model ends without
    error, over a catalog whose models have ids, some poll found the worker ready and it was registered with the catalog, whose rebuilt snapshot
    resolves the model to the id it was assigned under.  That id is the
    worker's own; for a pod it is the id of the virtual worker the provider
    registry makes of the rows written at the same time, as long as the model
    has no adapter (for a pod with an adapter the two ids differ).  A worker of
    neither RunPod nor the local provisioner is seen ready only by its
    heartbeat. *)
Theorem ready_worker_registered db wid id ps db' now :
  wid <> "" -> BaseModel id <> "" -> Forall (fun m => mi_ID m <> "") (models_rows db) ->
  WaitReady (Some db) wid id ps = Ok (Some db') ->
  (exists p, p ∈ ps /\ (checkReady wid id (p_holder p) (p_resp p)).1.1 = true /\
     (HasPrefix wid "runpod-" = false -> HasPrefix wid "local-" = false ->
      HasPrefix wid "runpod-dryrun-" = false -> exists snap, p_holder p = Some snap /\ heartbeats_ready snap wid = true)) /\
  (exists m ws, Resolve (rebuilt db' now) (Key id) = Some (m, ws) /\ assigned_id wid id ∈ ws) /\
  (is_pod wid = false -> assigned_id wid id = wid) /\
  (is_pod wid = true -> Adapter id = "" ->
   forall detail backend, assigned_id wid id = vw_ID (virtual_worker (pod_provider wid detail) backend (pod_model wid id))).
Proof.
  intros Hw Hb Hids E. destruct (WaitReady_registers _ _ _ _ _ E) as (p & Hp & Hc & Hr). split_and!.
  - exists p. split_and!; [done|done|]. intros H1 H2 H3. revert Hc. unfold checkReady, is_pod. rewrite H1, H2, H3. cbn [andb orb].
    destruct (p_holder p) as [snap|]; [|done]. destruct (heartbeats_ready snap wid) eqn:Eh; [|done]. by exists snap.
  - by eapply resolves_rebuilt, register_resolves.
  - intros Hpod. unfold assigned_id. by rewrite Hpod.
  - intros Hpod Ha detail backend. unfold assigned_id. rewrite Hpod.
    cbn [virtual_worker vw_ID pod_provider pod_model pr_ID mm_BaseModel mm_Adapter]. unfold virtual_id. rewrite Ha. cbn [String.eqb negb]. by rewrite str_app_nil_r.
Qed.

(** The readiness check of a pod does not look for the model: any listed
    model makes a pod ready for the model it was provisioned for. *)
Theorem pod_ready_with_any_model wid id holder data :
  is_pod wid = true ->
  (checkReady wid id holder (Ok (200, Some data))).1.1 = match data with [] => false | _ => true end.
Proof.
  intros Hp. unfold checkReady. rewrite Hp. cbn [httpModelsOK Z.eqb negb]. destruct data as [|m data]; cbn.
  - by destruct (String.eqb (BaseModel id) "").
  - by repeat case_if.
Qed.

Lemma str_app_nonempty_ne a b : b <> "" -> a ++ b <> a.
Proof.
  intros Hb. induction a as [|c a IH]; [done|]. intros [= E]. by apply IH.
Qed.

(** A pod for an adapter is not routable: the catalog assigns the model to
    the id [provider:<pod>:<base>], but the virtual worker the provider
    registry makes of the row written at the same time has the adapter in its
    id, so the assignment names no worker of the snapshot. *)
Theorem adapter_pod_unroutable wid id detail backend :
  is_pod wid = true -> Adapter id <> "" ->
  vw_Adapter (virtual_worker (pod_provider wid detail) backend (pod_model wid id)) = Adapter id /\
  vw_ID (virtual_worker (pod_provider wid detail) backend (pod_model wid id)) <> assigned_id wid id.
Proof.
  intros Hp Ha. split; [done|]. unfold assigned_id. rewrite Hp.
  cbn [virtual_worker vw_ID pod_provider pod_model pr_ID mm_BaseModel mm_Adapter]. unfold virtual_id.
  destruct (String.eqb_spec (Adapter id) ""); [done|]. cbn [negb].
  set (pod := TrimPrefix wid "runpod-"). intros E.
  assert (forall s, "provider:" ++ ("runpod-" ++ pod) ++ ":" ++ s = "provider:runpod-" ++ pod ++ ":" ++ s) as Eq
    by reflexivity.
  rewrite Eq in E. apply (str_app_nonempty_ne (("provider:runpod-" ++ pod ++ ":") ++ BaseModel id) ("#" ++ Adapter id)); [done|].
  rewrite !str_app_assoc. exact E.
Qed.
(** The wait for a worker ends: with the configuration [NewLifecycle] completes
    and a clock that advances by at least the interval from one poll to the
    next, [WaitReady] returns after at most one poll for each interval that
    fits in the timeout, plus one, with the result of the polls it made. *)
Theorem wait_ready_returns c start now poll db wid id :
  let cfg := NewLifecycle c in
  start <= now 0%nat -> (forall k, now k + PollInterval cfg <= now (S k)) ->
  exists n, WaitReady_clocked cfg start now poll db wid id = Some (WaitReady db wid id (poll <$> seq 0 n)) /\
    Z.of_nat n <= ReadyTimeout cfg / PollInterval cfg + 1.
Proof.
  intros cfg Hs Hp. assert (0 < PollInterval cfg /\ 0 < ReadyTimeout cfg) as [Hi Ht].
  { unfold cfg, NewLifecycle. cbn. split; case_match; unfold second, millisecond in *; lia. }
  unfold WaitReady_clocked. pose proof (Z.div_mod (ReadyTimeout cfg) (PollInterval cfg)) as Hdm.
  pose proof (Z.mod_pos_bound (ReadyTimeout cfg) (PollInterval cfg) Hi) as Hm.
  assert (0 <= ReadyTimeout cfg / PollInterval cfg) as Hq by (apply Z.div_pos; lia).
  destruct (wait_ready_spec now poll (PollInterval cfg) (start + ReadyTimeout cfg)
              (Z.to_nat (ReadyTimeout cfg / PollInterval cfg) + 2) 0 db wid id) as (r & n & E & -> & Hall);
    [done|lia|rewrite Nat2Z.inj_add, Z2Nat.id by done; nia|lia|].
  exists n. split; [exact E|]. destruct n as [|n]; [lia|].
  assert (forall j, now 0%nat + PollInterval cfg * Z.of_nat j <= now j) as Hmono.
  { intros j. induction j as [|j IH]; [lia|]. pose proof (Hp j). nia. }
  specialize (Hmono n). specialize (Hall n ltac:(lia)). nia.
Qed.
End Lifecycle.

(** *** Witnesses *)

Definition asks : register_in := mkRegister None None None "id7".

Definition seen : option RoutingSnapshot :=
  Some (mkSnap 0 1 [mkView "gpu-7" "g:1" "qwen" "" true true 0 0 8192 Float64.f_zero "" "" Float64.f_zero "" ∅]).

Definition two_polls : list ready_poll :=
  [mkPoll None (Some None) (Err (ENew "no route")) asks None; mkPoll None (Some seen) (Err (ENew "no route")) asks None].

Definition after_wait : tables :=
  match WaitReady (Some no_tables) "gpu-7" (mkModel "qwen" "") two_polls with Ok (Some db) => db | _ => no_tables end.

Lemma ready_worker_registered_witness :
  exists m ws, Resolve (rebuilt after_wait 0) "qwen" = Some (m, ws) /\ "gpu-7" ∈ ws.
Proof.
  destruct (ready_worker_registered no_tables "gpu-7" (mkModel "qwen" "") two_polls after_wait 0) as (_ & Hr & _).
  - discriminate.
  - discriminate.
  - apply list.Forall_nil_2.
  - vm_compute. reflexivity.
  - exact Hr.
Defined.

Lemma pod_ready_with_any_model_witness :
  (checkReady "runpod-x1" (mkModel "qwen" "") None (Ok (200, Some ["llama"]))).1.1 = true.
Proof. apply (pod_ready_with_any_model "runpod-x1" (mkModel "qwen" "") None ["llama"]). reflexivity. Defined.

Lemma adapter_pod_unroutable_witness :
  "provider:runpod-x1:qwen#sql" <> assigned_id "runpod-x1" (mkModel "qwen" "sql").
Proof.
  destruct (adapter_pod_unroutable "runpod-x1" (mkModel "qwen" "sql") "https://x1/v1" (mkBackend "" "" "" ∅)) as [_ Hne].
  - reflexivity.
  - discriminate.
  - exact Hne.
Defined.

Lemma wait_ready_returns_witness :
  exists n, WaitReady_clocked (NewLifecycle (mkLifecycleConfig 0 0)) 0 (fun k => 5 * second * Z.of_nat k)
      (fun k => mkPoll None (Some (if (k <? 3)%nat then None else seen)) (Err (ENew "no route")) asks None)
      (Some no_tables) "gpu-7" (mkModel "qwen" "") =
    Some (WaitReady (Some no_tables) "gpu-7" (mkModel "qwen" "")
      ((fun k => mkPoll None (Some (if (k <? 3)%nat then None else seen)) (Err (ENew "no route")) asks None) <$> seq 0 n)) /\
    Z.of_nat n <= 121.
Proof.
  apply (wait_ready_returns (mkLifecycleConfig 0 0)).
  - vm_compute. discriminate.
  - intros k. cbn. unfold second, millisecond. lia.
Defined.
