(* ===== verification/LocalProvisioner.v ===== *)
(** * Workers as local processes (services/fleet/local_process.go)

    The provisioner that starts workers as processes of the control plane's
    machine.  What the operating system answers (which ports are free, where
    the binary is, whether the process starts, whether it ends in time) is an
    input; what the provisioner does to processes and the callbacks it makes
    are logged as effects.  [Provision] has two critical sections, so it is
    two atomic steps: concurrent calls are schedules of them. *)

From Stdlib Require Import Ascii.
From S2P Require Import Prelude GoStrings GoFormat Errors FleetScaling.

(** [sanitizeID], of runpod_provisioner.go *)
Definition sanitizeID (s : string) : string :=
  let s := ReplaceAll s "/" "-" in
  let s := ReplaceAll s ":" "-" in
  let s := ReplaceAll s "#" "-" in
  if 40 <? str_len s then str_take 40 s else s.

(** ** State *)

Record LocalProcessConfig := mkLocalConfig {
  Binary : string;
  EnvFile : string;
  BaseGRPCPort : Z;
  ControlPlane : string;
  RedisURL : string;
  DBURL : string;
  OllamaURL : string;
  TrackOnly : bool
}.

(** [lp_cmd] is the process, [None] for a nil [cmd]; [cancel] is set exactly
    when the command is. *)
Record localProc := mkProc { lp_cmd : option Z; lp_model : ModelIdentity; lp_port : Z }.

(** Of the callbacks, only whether they are set. *)
Record LocalProcess := mkLocal {
  lcfg : LocalProcessConfig;
  next : Z;
  active : gmap string localProc;
  onReady : bool;
  onGone : bool
}.

(** The process of an effect is named by its worker. *)
Inductive effect : Type :=
| Started (wid : string) (pid : Z) (bin : string) (env : list string)
| CancelContext (wid : string)
| SendSIGTERM (wid : string)
| Kill (wid : string)
| Exited (wid : string)
| CallReady (wid : string) (id : ModelIdentity)
| CallGone (wid : string).

#[export] Instance effect_eq_dec : EqDecision effect.
Proof. solve_decision. Defined.

Definition NewLocalProcessWithConfig (getenv : string -> string) (stat : string -> bool)
    (cfg : LocalProcessConfig) : LocalProcess :=
  let port := if BaseGRPCPort cfg <=? 0 then 50100 else BaseGRPCPort cfg in
  let bin :=
    if String.eqb (Binary cfg) "" then
      let b := getenv "FORGE_WORKER_BINARY" in
      if negb (String.eqb b "") then b
      else if stat "bin/forge-worker" then "bin/forge-worker"
      else "forge-worker"
    else Binary cfg in
  let url := if String.eqb (OllamaURL cfg) "" then "http://127.0.0.1:11434" else OllamaURL cfg in
  mkLocal (mkLocalConfig bin (EnvFile cfg) port (ControlPlane cfg) (RedisURL cfg) (DBURL cfg) url (TrackOnly cfg))
          0 ∅ false false.

Definition NewLocalProcess (getenv : string -> string) (stat : string -> bool) : LocalProcess :=
  NewLocalProcessWithConfig getenv stat (mkLocalConfig "" "" 0 "" "" "" "" false).

Definition OnReady (p : LocalProcess) : LocalProcess := mkLocal (lcfg p) (next p) (active p) true (onGone p).
Definition OnGone (p : LocalProcess) : LocalProcess := mkLocal (lcfg p) (next p) (active p) (onReady p) true.

Definition set_active (p : LocalProcess) (a : gmap string localProc) : LocalProcess :=
  mkLocal (lcfg p) (next p) a (onReady p) (onGone p).

(** ** Operations *)

(** [freePortNear]: [listen] says on which ports a listener can be opened. *)
Fixpoint scan_ports (listen : Z -> bool) (n : nat) (p : Z) : option Z :=
  match n with
  | O => None
  | S n => if listen p then Some p else scan_ports listen n (p + 1)
  end.

Definition freePortNear (listen : Z -> bool) (start : Z) : result error Z :=
  match scan_ports listen 200 start with
  | Some p => Ok p
  | None => Err (ENew ("no free port near " ++ Itoa start))
  end.

(** What the operating system answers to one call of [Provision]. *)
Record host := mkHost {
  listen : Z -> bool;
  LookPath : string -> result error string;
  Abs : string -> result error string;
  Environ : list string;
  Start : result error Z
}.

Definition local_id (id : ModelIdentity) (n : Z) : string :=
  "local-" ++ sanitizeID (Key id) ++ "-" ++ Itoa n.

(** [if v != "" { env = append(env, k + v) }] *)
Definition optional_var (k v : string) : list string := if String.eqb v "" then [] else [k ++ v].

Definition worker_env (cfg : LocalProcessConfig) (wid : string) (id : ModelIdentity) (port : Z) : list string :=
  List.concat
    [["FORGE_WORKER_ID=" ++ wid;
      "FORGE_WORKER_ENDPOINT=127.0.0.1:" ++ Itoa port;
      "FORGE_WORKER_GRPC_ADDR=:" ++ Itoa port;
      "FORGE_METRICS_ADDR=:" ++ Itoa (port + 1000);
      "FORGE_WORKER_RUNTIME=RUNTIME_KIND_OLLAMA";
      "FORGE_WORKER_MODEL_BASE=" ++ BaseModel id;
      "FORGE_WORKER_MODEL_CONTEXT=32768";
      "FORGE_WORKER_COST_PER_HOUR=0";
      "FORGE_WORKER_COST_CLASS=free";
      "FORGE_OLLAMA_URL=" ++ OllamaURL cfg;
      "FORGE_OTLP_ENDPOINT="];
     optional_var "FORGE_CONTROLPLANE_GRPC=" (ControlPlane cfg);
     optional_var "FORGE_REDIS_URL=" (RedisURL cfg);
     optional_var "FORGE_DB_URL=" (DBURL cfg);
     optional_var "FORGE_ENV_FILE=" (EnvFile cfg)].

(** The first critical section of [Provision]. *)
Definition take_number (p : LocalProcess) : Z * LocalProcess :=
  let n := wrap_i64 (next p + 1) in (n, mkLocal (lcfg p) n (active p) (onReady p) (onGone p)).

(** [exec.LookPath], or the absolute path of the binary. *)
Definition worker_binary (h : host) (bin : string) : result error string :=
  match LookPath h bin with
  | Ok b => Ok b
  | Err e =>
      match Abs h bin with
      | Ok abs => Ok abs
      | Err _ => Err (EWrap e ("local provisioner: worker binary " ++ bin))
      end
  end.

Definition ready_call (p : LocalProcess) (wid : string) (id : ModelIdentity) : list effect :=
  if onReady p then [CallReady wid id] else [].

Definition gone_call (p : LocalProcess) (wid : string) : list effect :=
  if onGone p then [CallGone wid] else [].

(** [Provision] after it has its number [n]: the ports, the binary, the start
    of the process and the second critical section.  They are one step: until
    the section records the worker its id has been given to nobody, and the
    goroutine that waits for the process is started only after it, so no step
    of another call can refer to the process in between. *)
Definition finish (p : LocalProcess) (n : Z) (id : ModelIdentity) (h : host)
    : result error string * LocalProcess * list effect :=
  let wid := local_id id n in
  if TrackOnly (lcfg p) then
    (Ok wid, set_active p (<[wid := mkProc None id 0]> (active p)), ready_call p wid id)
  else
    match freePortNear (listen h) (BaseGRPCPort (lcfg p)) with
    | Err e => (Err e, p, [])
    | Ok port =>
        match worker_binary h (Binary (lcfg p)) with
        | Err e => (Err e, p, [])
        | Ok bin =>
            match Start h with
            | Err e => (Err (EWrap e "local provisioner start"), p, [])
            | Ok pid =>
                (Ok wid, set_active p (<[wid := mkProc (Some pid) id port]> (active p)),
                 Started wid pid bin (Environ h ++ worker_env (lcfg p) wid id port)%list :: ready_call p wid id)
            end
        end
    end.

Definition Provision (p : LocalProcess) (id : ModelIdentity) (h : host)
    : result error string * LocalProcess * list effect :=
  let '(n, p) := take_number p in finish p n id h.

(** The goroutine that waits for the process of [wid], when it ends. *)
Definition process_ended (p : LocalProcess) (wid : string) : LocalProcess * list effect :=
  (set_active p (delete wid (active p)), Exited wid :: gone_call p wid).

(** [Retire]; [in_time]: the process ends within the five seconds. *)
Definition Retire (p : LocalProcess) (w : string) (in_time : bool) : option error * LocalProcess * list effect :=
  match active p !! w with
  | None => (None, p, [])
  | Some proc =>
      (None, set_active p (delete w (active p)),
       match lp_cmd proc with
       | None => []
       | Some _ => [CancelContext w; SendSIGTERM w] ++ (if in_time then [] else [Kill w])
       end ++ gone_call p w)%list
  end.

Definition Active (p : LocalProcess) : gmap string ModelIdentity := lp_model <$> active p.

(** ** Concurrent use

    [calls] are the calls of [Provision] that have their number but have not
    ended, [waiters] the goroutines that wait for a process, [returned] the
    workers handed out. *)
Record world := mkWorld {
  lp : LocalProcess;
  calls : list (Z * ModelIdentity);
  waiters : list string;
  returned : list (string * ModelIdentity);
  effects : list effect
}.

Inductive action : Type :=
| BeginProvision (id : ModelIdentity)
| EndProvision (k : nat) (h : host)
| ProcessEnds (k : nat)
| RetireWorker (w : string) (in_time : bool).

Definition started_wids (es : list effect) : list string :=
  List.concat ((fun e => match e with Started wid _ _ _ => [wid] | _ => [] end) <$> es).

Definition act (w : world) (a : action) : world :=
  match a with
  | BeginProvision id =>
      let '(n, p) := take_number (lp w) in
      mkWorld p (calls w ++ [(n, id)])%list (waiters w) (returned w) (effects w)
  | EndProvision k h =>
      match calls w !! k with
      | None => w
      | Some (n, id) =>
          let '(r, p, es) := finish (lp w) n id h in
          mkWorld p (delete k (calls w)) (waiters w ++ started_wids es)%list
            (returned w ++ match r with Ok wid => [(wid, id)] | Err _ => [] end)%list (effects w ++ es)%list
      end
  | ProcessEnds k =>
      match waiters w !! k with
      | None => w
      | Some wid =>
          let '(p, es) := process_ended (lp w) wid in
          mkWorld p (calls w) (delete k (waiters w)) (returned w) (effects w ++ es)%list
      end
  | RetireWorker wid in_time =>
      let '(_, p, es) := Retire (lp w) wid in_time in
      mkWorld p (calls w) (waiters w) (returned w) (effects w ++ es)%list
  end.

Definition idle (p : LocalProcess) : world := mkWorld p [] [] [] [].

Definition run (p : LocalProcess) (acts : list action) : world := foldl act (idle p) acts.

(** ** Lemmas *)

Lemma local_id_inj id n id' n' : 0 <= n -> 0 <= n' -> local_id id n = local_id id' n' -> n = n'.
Proof.
  intros Hn Hn' E. unfold local_id in E.
  assert (forall s t, "local-" ++ s ++ "-" ++ t = ("local-" ++ s) ++ String "-" t) as Eq
    by (intros; by rewrite str_app_assoc).
  rewrite !Eq in E. apply split_at_last_byte in E as [_ E]; [|by apply Itoa_no_minus..]. by apply Itoa_inj.
Qed.

Lemma local_id_prefix id n : HasPrefix (local_id id n) "local-" = true.
Proof. apply HasPrefix_app. Qed.

(** The effects that end a process. *)
Definition ends (wid : string) (e : effect) : Prop := e = CancelContext wid \/ e = Exited wid.

Definition starts (wid : string) (e : effect) : Prop :=
  match e with Started w _ _ _ => w = wid | _ => False end.

(** [Provision] either changes nothing or records the worker it names, with a
    process exactly when it has started one. *)
Lemma finish_cases p n id h :
  (exists e, finish p n id h = (Err e, p, [])) \/
  exists pr es, finish p n id h = (Ok (local_id id n), set_active p (<[local_id id n := pr]> (active p)), es) /\
    lp_model pr = id /\ (forall wid e, e ∈ es -> ~ ends wid e) /\
    (forall wid e, e ∈ es -> starts wid e -> wid = local_id id n /\ is_Some (lp_cmd pr)) /\
    (forall wid, wid ∈ started_wids es -> wid = local_id id n).
Proof.
  assert (forall wid e, e ∈ ready_call p (local_id id n) id -> ~ ends wid e /\ ~ starts wid e) as Hr.
  { intros wid e. unfold ready_call. destruct (onReady p); [|by intros ?%elem_of_nil].
    intros ->%list_elem_of_singleton. split; [by intros [?|?]|by intros []]. }
  assert (started_wids (ready_call p (local_id id n) id) = []) as Hs
    by (unfold ready_call; by destruct (onReady p)).
  unfold finish. destruct (TrackOnly (lcfg p)).
  { right. eexists _, _. split; [reflexivity|]. split; [done|]. split; [by intros ? ? [? _]%(Hr wid)|].
    split; [by intros ? ? [_ ?]%(Hr wid) ?|]. rewrite Hs. by intros ? ?%elem_of_nil. }
  destruct (freePortNear _ _) as [port|e]; [|left; by eexists].
  destruct (worker_binary _ _) as [bin|e]; [|left; by eexists].
  destruct (Start h) as [pid|e]; [|left; by eexists].
  right. eexists _, _. split; [reflexivity|]. split; [done|]. split; [|split].
  - intros wid e [->|He]%elem_of_cons; [by intros [?|?]|]. by apply (Hr wid) in He as [? _].
  - intros wid e [->|He]%elem_of_cons; [by intros <-|]. by apply (Hr wid) in He as [_ ?].
  - intros wid. unfold started_wids. rewrite fmap_cons. cbn [List.concat app].
    fold (started_wids (ready_call p (local_id id n) id)). rewrite Hs. by intros ?%list_elem_of_singleton.
Qed.

(** ** The invariant of all schedules *)

(** [ns]: the numbers and models of the calls that handed out a worker. *)
Record inv (ns : list (Z * ModelIdentity)) (w : world) : Prop := {
  i_next : 0 <= next (lp w);
  i_returned : returned w = (fun c => (local_id c.2 c.1, c.2)) <$> ns;
  i_nodup : NoDup (ns ++ calls w)%list.*1;
  i_range : Forall (fun c => 1 <= c.1 <= next (lp w)) (ns ++ calls w)%list;
  i_active : forall wid pr, active (lp w) !! wid = Some pr -> (wid, lp_model pr) ∈ returned w;
  i_waiters : forall wid, wid ∈ waiters w -> wid ∈ (returned w).*1;
  i_running : forall wid, Exists (starts wid) (effects w) ->
    (exists pr, active (lp w) !! wid = Some pr /\ is_Some (lp_cmd pr)) \/ Exists (ends wid) (effects w);
  i_ended : forall wid, Exists (ends wid) (effects w) -> active (lp w) !! wid = None /\ wid ∈ (returned w).*1
}.

Lemma inv_idle p : active p = ∅ -> 0 <= next p -> inv [] (idle p).
Proof.
  intros Ha Hn. split; cbn.
  - done.
  - done.
  - constructor.
  - constructor.
  - intros wid pr. by rewrite Ha, lookup_empty.
  - by intros wid ?%elem_of_nil.
  - by intros wid ?%Exists_nil.
  - by intros wid ?%Exists_nil.
Qed.

Lemma inv_begin ns w id : inv ns w -> next (lp w) < two63 - 1 -> inv ns (act w (BeginProvision id)).
Proof.
  intros [Hn Hr Hnd Hrg Ha Hw Hrun He] Hb. cbn [act take_number].
  rewrite wrap_i64_id by (unfold in_i64; lia). split; cbn [lp next calls returned waiters effects active]; try done.
  - lia.
  - rewrite app_assoc, fmap_app. cbn. apply list.NoDup_app. split; [done|]. split; [|apply NoDup_singleton].
    intros x (c & -> & Hc)%list_elem_of_fmap Ex%list_elem_of_singleton.
    rewrite list.Forall_forall in Hrg. specialize (Hrg c Hc). destruct c; cbn in *. lia.
  - rewrite app_assoc. apply Forall_app. split; [|constructor; [cbn; lia|constructor]].
    eapply list.Forall_impl; [exact Hrg|]. cbn. lia.
Qed.

Lemma inv_ended_frame p es wid : (forall wid e, e ∈ es -> ~ ends wid e) -> Exists (ends wid) (p ++ es)%list -> Exists (ends wid) p.
Proof.
  intros He [H|(e & Hin & H)%list.Exists_exists]%Exists_app; [done|]. exfalso. exact (He wid e Hin H).
Qed.

Lemma inv_end ns w k h : inv ns w -> exists ns', inv ns' (act w (EndProvision k h)).
Proof.
  intros I. cbn [act]. destruct (calls w !! k) as [[n id]|] eqn:Ek; [|by exists ns].
  pose proof I as [Hn Hr Hnd Hrg Ha Hw Hrun He].
  assert (ns ++ calls w ≡ₚ (ns ++ [(n, id)]) ++ delete k (calls w))%list as Hp.
  { rewrite <- app_assoc. apply Permutation_app_head. by apply delete_Permutation. }
  destruct (finish_cases (lp w) n id h) as [(e & ->)|(pr & es & -> & Hm & Hes & Hst & Hsw)].
  - exists ns. split; cbn [lp calls returned waiters effects]; rewrite ?app_nil_r; try done.
    + eapply list.sublist_NoDup; [exact Hnd|]. apply fmap_sublist, sublist_app; [done|apply sublist_delete].
    + apply Forall_app in Hrg as [? Hc]. apply Forall_app. split; [done|]. by apply Forall_delete.
  - exists (ns ++ [(n, id)])%list.
    assert (NoDup (((ns ++ [(n, id)]) ++ delete k (calls w)).*1)%list) as Hnd' by (by rewrite <- Hp).
    assert (Forall (fun c => 1 <= c.1 <= next (lp w)) ((ns ++ [(n, id)]) ++ delete k (calls w))%list) as Hrg'
      by (by rewrite <- Hp).
    assert (local_id id n ∉ (returned w).*1) as Hfresh.
    { rewrite Hr, <- list_fmap_compose. intros Hx. apply list_elem_of_fmap in Hx as (c & Ex & Hc). cbn in Ex.
      rewrite !Forall_app in Hrg'. destruct Hrg' as [[Hrn Hrs] _]. rewrite list.Forall_forall in Hrn.
      specialize (Hrn c Hc). apply list.Forall_cons in Hrs as [Hrs _]. cbn in Hrs.
      apply local_id_inj in Ex; [|lia..]. rewrite fmap_app in Hnd'. apply list.NoDup_app in Hnd' as [Hnd' _].
      rewrite fmap_app in Hnd'. apply list.NoDup_app in Hnd' as (_ & Hdis & _). apply (Hdis c.1).
      - by apply list_elem_of_fmap_2.
      - apply list_elem_of_singleton. done. }
    split; cbn [lp calls returned waiters effects set_active next active]; try done.
    + rewrite fmap_app, Hr. done.
    + intros wid pr'. rewrite elem_of_app. destruct (decide (wid = local_id id n)) as [->|Hne].
      * rewrite lookup_insert_eq. intros [= <-]. right. apply list_elem_of_singleton. by rewrite Hm.
      * rewrite lookup_insert_ne by done. intros ?. left. by apply Ha.
    + intros wid. rewrite elem_of_app, fmap_app, elem_of_app. intros [?|Hin]; [left; by apply Hw|].
      right. rewrite (Hsw wid Hin). apply list_elem_of_singleton. done.
    + intros wid [H|(e & Hin & H)%list.Exists_exists]%Exists_app.
      * destruct (Hrun wid H) as [(pr' & Hl & Hc)|?]; [left|right; apply Exists_app; by left].
        exists pr'. rewrite lookup_insert_ne; [done|]. intros Eq. apply Hfresh. rewrite Eq.
        apply list_elem_of_fmap. exists (wid, lp_model pr'). split; [done|by apply Ha].
      * destruct (Hst wid e Hin H) as [-> Hc]. left. exists pr. by rewrite lookup_insert_eq.
    + intros wid H. apply inv_ended_frame in H; [|exact Hes]. destruct (He wid H) as [? Hin].
      rewrite lookup_insert_ne by (intros Eq; apply Hfresh; by rewrite Eq). split; [done|]. rewrite fmap_app. apply elem_of_app. by left.
Qed.

(** Both ways a worker leaves: [es] ends exactly that worker's process. *)
Lemma inv_leave ns w wid ws es :
  inv ns w -> wid ∈ (returned w).*1 -> (forall x, x ∈ ws -> x ∈ waiters w) ->
  (forall x e, e ∈ es -> ~ starts x e) -> (forall x, Exists (ends x) es -> x = wid) ->
  ((exists pr, active (lp w) !! wid = Some pr /\ is_Some (lp_cmd pr)) -> Exists (ends wid) es) ->
  inv ns (mkWorld (set_active (lp w) (delete wid (active (lp w)))) (calls w) ws (returned w) (effects w ++ es)%list).
Proof.
  intros [Hn Hr Hnd Hrg Ha Hw Hrun He] Hin Hws Hns Hen Hend.
  split; cbn [lp calls returned waiters effects set_active next active]; try done.
  - intros x pr [_ ?]%lookup_delete_Some. by apply Ha.
  - intros x ?%Hws. by apply Hw.
  - intros x [H|(e & Hi & H)%list.Exists_exists]%Exists_app; [|exfalso; exact (Hns x e Hi H)]. rewrite Exists_app.
    destruct (Hrun x H) as [(pr & Hl & Hc)|?]; [|right; by left]. destruct (decide (x = wid)) as [->|].
    + right; right. apply Hend. by exists pr.
    + left. exists pr. by rewrite lookup_delete_ne.
  - intros x [H|H]%Exists_app.
    + destruct (He x H). split; [|done]. destruct (decide (x = wid)) as [->|]; [apply lookup_delete_eq|].
      by rewrite lookup_delete_ne.
    + rewrite (Hen x H). split; [apply lookup_delete_eq|done].
Qed.

Lemma gone_call_quiet p wid x e : e ∈ gone_call p wid -> ~ ends x e /\ ~ starts x e.
Proof.
  unfold gone_call. destruct (onGone p); [|by intros ?%elem_of_nil].
  intros ->%list_elem_of_singleton. split; [by intros [?|?]|by intros []].
Qed.

Lemma inv_exit ns w k : inv ns w -> inv ns (act w (ProcessEnds k)).
Proof.
  intros I. cbn [act process_ended]. destruct (waiters w !! k) as [wid|] eqn:E; [|done].
  apply inv_leave; [done| | | | |].
  - eapply i_waiters; [exact I|]. by eapply list_elem_of_lookup_2.
  - intros x. apply list_elem_of_delete_inv.
  - intros x e [->|He]%elem_of_cons; [by intros []|]. by apply (gone_call_quiet (lp w) wid x).
  - intros x [[?|[= ?]]|(e & He & Hx)%list.Exists_exists]%Exists_cons; [done|done|].
    exfalso. by apply (gone_call_quiet (lp w) wid x) in He as [? _].
  - intros _. apply Exists_cons. left. by right.
Qed.

Lemma inv_retire ns w wid in_time : inv ns w -> inv ns (act w (RetireWorker wid in_time)).
Proof.
  intros I. cbn [act]. unfold Retire. destruct (active (lp w) !! wid) as [pr|] eqn:E; cbn beta iota.
  2: { destruct w; cbn. by rewrite app_nil_r. }
  apply inv_leave; [done| |done| | |].
  - apply list_elem_of_fmap. exists (wid, lp_model pr). split; [done|]. by eapply i_active.
  - intros x e [He|He]%elem_of_app; [|by apply (gone_call_quiet (lp w) wid x)].
    destruct (lp_cmd pr); [|by apply elem_of_nil in He].
    destruct in_time; cbn in He; rewrite !elem_of_cons, elem_of_nil in He; intros Hs; naive_solver.
  - intros x [(e & He & Hx)%list.Exists_exists|(e & He & Hx)%list.Exists_exists]%Exists_app.
    + destruct (lp_cmd pr); [|by apply elem_of_nil in He].
      destruct in_time, Hx as [-> | ->]; cbn in He; rewrite !elem_of_cons, elem_of_nil in He; naive_solver.
    + exfalso. by apply (gone_call_quiet (lp w) wid x) in He as [? _].
  - intros (pr' & Hl & [pid Hc]). rewrite Hl in E. injection E as ->. rewrite Hc.
    apply Exists_app. left. apply Exists_cons. left. by left.
Qed.

Lemma next_act w a : next (lp w) <= next (lp (act w a)) <= next (lp w) + 1 \/ two63 - 1 <= next (lp w) \/ next (lp w) < 0.
Proof.
  destruct a as [id|k h|k|wid t]; cbn [act].
  - cbn. destruct (decide (0 <= next (lp w) < two63 - 1)); [|lia]. rewrite wrap_i64_id by (unfold in_i64; lia). lia.
  - destruct (calls w !! k) as [[n id]|]; [|lia].
    destruct (finish_cases (lp w) n id h) as [(e & ->)|(pr & es & -> & _)]; cbn; lia.
  - destruct (waiters w !! k); cbn; lia.
  - unfold Retire. destruct (active (lp w) !! wid); cbn; lia.
Qed.

Lemma local_run_snoc p acts a : run p (acts ++ [a])%list = act (run p acts) a.
Proof. unfold run. by rewrite foldl_app. Qed.

Lemma local_run_inv p acts :
  active p = ∅ -> next p = 0 -> Z.of_nat (length acts) < two63 ->
  exists ns, inv ns (run p acts) /\ next (lp (run p acts)) <= Z.of_nat (length acts).
Proof.
  intros Ha Hn. induction acts as [|a acts IH] using rev_ind; intros Hl.
  - exists []. split; [apply inv_idle; [done|lia]|cbn; lia].
  - rewrite length_app in Hl. cbn [length] in Hl. destruct IH as (ns & I & Hb); [lia|]. rewrite local_run_snoc, length_app.
    pose proof (i_next _ _ I) as H0. pose proof (next_act (run p acts) a) as Hna. cbn [length].
    assert (exists ns', inv ns' (act (run p acts) a)) as [ns' I'].
    { destruct a as [id|k h|k|wid t].
      - exists ns. apply inv_begin; [done|lia].
      - by apply inv_end with ns.
      - exists ns. by apply inv_exit.
      - exists ns. by apply inv_retire. }
    exists ns'. split; [done|lia].
Qed.

(** ** Properties *)

(** C31: the local provisioner loses neither workers nor processes, however its
    calls interleave: concurrent [Provision] calls hand out different ids,
    every worker it tracks was handed out for that model, and a process it has
    started is tracked until it ends or is told to, and no longer: it is
    tracked exactly while neither has happened. *)
Theorem local_processes_accounted getenv stat cfg acts :
  let w := run (NewLocalProcessWithConfig getenv stat cfg) acts in
  Z.of_nat (length acts) < two63 ->
  NoDup (returned w).*1 /\
  (forall wid id, Active (lp w) !! wid = Some id -> (wid, id) ∈ returned w) /\
  (forall wid, Exists (starts wid) (effects w) ->
     (is_Some (Active (lp w) !! wid) <-> ~ Exists (ends wid) (effects w))).
Proof.
  cbn zeta. intros Hl. destruct (local_run_inv (NewLocalProcessWithConfig getenv stat cfg) acts) as (ns & I & _); [done..|].
  destruct I as [Hn Hr Hnd Hrg Ha Hw Hrun He]. set (w := run _ acts) in *. clearbody w. split; [|split].
  - rewrite Hr, <- list_fmap_compose. rewrite fmap_app in Hnd. apply list.NoDup_app in Hnd as [Hnd _].
    apply Forall_app in Hrg as [Hrg _]. clear -Hnd Hrg. induction ns as [|c ns IH]; [constructor|].
    rewrite fmap_cons in Hnd. apply list.NoDup_cons in Hnd as [Hc Hnd]. apply list.Forall_cons in Hrg as [Hcr Hrg].
    rewrite fmap_cons. apply list.NoDup_cons. split; [|by apply IH]. intros (d & Ed & Hd)%list_elem_of_fmap. cbn in Ed.
    apply Hc. rewrite list.Forall_forall in Hrg. specialize (Hrg d Hd). apply local_id_inj in Ed; [|lia..].
    rewrite Ed. by apply list_elem_of_fmap_2.
  - intros wid id. unfold Active. rewrite lookup_fmap_Some. intros (pr & <- & Hl'). by apply Ha.
  - intros wid Hs. unfold Active. rewrite lookup_fmap, fmap_is_Some. split.
    + intros [pr Hp] [Hnone _]%He. congruence.
    + intros Hne. destruct (Hrun wid Hs) as [(pr & Hp & _)|?]; [by exists pr|done].
Qed.

Lemma scan_ports_spec listen n start :
  match scan_ports listen n start with
  | Some p => start <= p < start + Z.of_nat n /\ listen p = true /\ (forall q, start <= q < p -> listen q = false)
  | None => forall q, start <= q < start + Z.of_nat n -> listen q = false
  end.
Proof.
  revert start. induction n as [|n IH]; intros start; cbn [scan_ports]; [lia|].
  destruct (listen start) eqn:E; [split; [lia|]; split; [done|lia]|]. specialize (IH (start + 1)).
  destruct (scan_ports listen n (start + 1)) as [p|].
  - destruct IH as (? & ? & Hq). split; [lia|]. split; [done|]. intros q ?.
    destruct (decide (q = start)) as [->|]; [done|]. apply Hq. lia.
  - intros q ?. destruct (decide (q = start)) as [->|]; [done|]. apply IH. lia.
Qed.

(** A port is found exactly when one of the two hundred is free, and it is the
    first. *)
Theorem free_port_is_first listen start p :
  freePortNear listen start = Ok p <->
  start <= p < start + 200 /\ listen p = true /\ (forall q, start <= q < p -> listen q = false).
Proof.
  unfold freePortNear. pose proof (scan_ports_spec listen 200 start) as Hs.
  destruct (scan_ports listen 200 start) as [p'|].
  - destruct Hs as (Hr & Hl & Hq). split; [by intros [= <-]|]. intros (Hr' & Hl' & Hq').
    f_equal. destruct (Z.lt_trichotomy p p') as [|[|]]; [|done|].
    + rewrite Hq in Hl' by lia. done.
    + rewrite Hq' in Hl by lia. done.
  - split; [done|]. intros (Hr & Hl & _). rewrite Hs in Hl by lia. done.
Qed.

(** The probing listener is closed before the worker opens its own, so a
    second worker that is started before the first one listens is given the
    same port. *)
Theorem workers_given_same_port p id1 id2 h1 h2 wid1 p1 es1 wid2 p2 es2 :
  TrackOnly (lcfg p) = false -> listen h1 = listen h2 ->
  Provision p id1 h1 = (Ok wid1, p1, es1) -> Provision p1 id2 h2 = (Ok wid2, p2, es2) ->
  exists a b, active p1 !! wid1 = Some a /\ active p2 !! wid2 = Some b /\ lp_port a = lp_port b.
Proof.
  intros Ht Hl. unfold Provision, finish. cbn [take_number lcfg]. rewrite Ht, Hl.
  destruct (freePortNear (listen h2) _) as [port|] eqn:Ep; [|done].
  destruct (worker_binary h1 _) as [bin|]; [|done]. destruct (Start h1) as [pid|]; [|done].
  intros [= <- <- <-]. cbn [set_active lcfg next active onReady onGone take_number]. rewrite Ht, Ep.
  destruct (worker_binary h2 _) as [bin2|]; [|done]. destruct (Start h2) as [pid2|]; [|done].
  intros [= <- <- <-]. eexists _, _. split; [apply lookup_insert_eq|]. split; [apply lookup_insert_eq|done].
Qed.

(** *** Witnesses *)

Definition box : host := mkHost (fun p => 50100 <? p) (fun b => Ok ("/usr/bin/" ++ b)) (fun b => Ok b) [] (Ok 4242).

Definition two_calls : list action :=
  [BeginProvision (mkModel "qwen" ""); BeginProvision (mkModel "qwen" "sql"); EndProvision 1 box; EndProvision 0 box;
   RetireWorker "local-qwen-1" false; ProcessEnds 1].

Lemma local_processes_accounted_witness :
  NoDup (returned (run (NewLocalProcess (fun _ => "") (fun _ => true)) two_calls)).*1 /\
  returned (run (NewLocalProcess (fun _ => "") (fun _ => true)) two_calls) =
    [("local-qwen-sql-2", mkModel "qwen" "sql"); ("local-qwen-1", mkModel "qwen" "")].
Proof.
  split; [|vm_compute; reflexivity].
  apply (local_processes_accounted (fun _ => "") (fun _ => true) (mkLocalConfig "" "" 0 "" "" "" "" false) two_calls).
  vm_compute. reflexivity.
Defined.

Lemma workers_given_same_port_witness :
  exists a b, lp_port a = 50101 /\ lp_port b = 50101 /\ lp_model a <> lp_model b.
Proof.
  destruct (workers_given_same_port (NewLocalProcess (fun _ => "") (fun _ => true)) (mkModel "qwen" "") (mkModel "llama" "") box box
    "local-qwen-1" _ _ "local-llama-2" _ _ eq_refl eq_refl eq_refl eq_refl) as (a & b & Ha & Hb & _).
  exists a, b. vm_compute in Ha, Hb. injection Ha as <-. injection Hb as <-. split; [reflexivity|]. split; [reflexivity|discriminate].
Defined.
