(* ===== verification/RunPod.v ===== *)
(** * Workers as RunPod pods (services/fleet/runpod_client.go, runpod_provisioner.go)

    The REST client and the provisioner that uses it.  The service behind the
    URL is not part of the program: it is the class [PodService], whose laws
    are what its documentation promises of creating and deleting pods.  The
    JSON decoder, the parser of URLs and the clock are inputs too. *)

From Stdlib Require Import Ascii.
From S2P Require Import Prelude GoStrings GoFormat Errors FleetScaling FleetLifecycle LocalProvisioner.

(** ** The client *)

Record RunPodClient := mkClient { apiKey : string; base : string }.

Definition runpodREST : string := "https://rest.runpod.io/v1".

Definition NewRunPodClient (getenv : string -> string) (key : string) : RunPodClient :=
  let key := if String.eqb key "" then getenv "FORGE_RUNPOD_API_KEY" else key in
  let key := if String.eqb key "" then getenv "RUNPOD_API_KEY" else key in
  mkClient key runpodREST.

Record runPodCreateRequest := mkCreate {
  cr_Name : string;
  cr_ImageName : string;
  cr_GpuTypeIds : list string;
  cr_GpuCount : Z;
  cr_CloudType : string;
  cr_ContainerDiskInGb : Z;
  cr_VolumeInGb : Z;
  cr_VolumeMountPath : string;
  cr_Ports : list string;
  cr_Env : gmap string string;
  cr_DockerStartCmd : list string;
  cr_DockerArgs : string;
  cr_SupportPublicIp : bool;
  cr_MinVcpuCount : Z;
  cr_MinMemoryInGb : Z
}.

Record RunPodPod := mkPod {
  pd_ID : string;
  pd_Name : string;
  pd_DesiredStatus : string;
  pd_ImageName : string;
  pd_MachineID : string;
  pd_PublicIP : string
}.

Definition set_pod_ID (id : string) : RunPodPod := mkPod id "" "" "" "" "".

Inductive method : Type := MethodGet | MethodPost | MethodDelete.

(** A request, with the Authorization header and the value that is marshalled
    into its body, and a response. *)
Record request := mkRequest { rq_method : method; rq_url : string; rq_auth : string; rq_body : option runPodCreateRequest }.
Record response := mkResponse { StatusCode : Z; Body : string }.

(** The decoder applied to a pod and to the struct that has the id alone. *)
Class PodJSON := {
  unmarshal_pod : string -> result error RunPodPod;
  unmarshal_id : string -> result error string;
  unmarshal_same_id : forall raw pod, unmarshal_pod raw = Ok pod -> unmarshal_id raw = Ok (pd_ID pod)
}.

(** The service: what it answers and the pods it runs.  A 2xx answer to a
    creation carries, within a megabyte, the id of a new pod and a 2xx answer to a deletion means
    the pod is gone; any other status means that nothing has happened.
    Nothing is promised of a request whose answer is lost. *)
Class PodService (C : Type) `{PodJSON} := {
  http_Do : C -> request -> result error response * C;
  running : C -> gset string;
  create_accepted : forall c url auth req resp c',
    http_Do c (mkRequest MethodPost url auth (Some req)) = (Ok resp, c') -> StatusCode resp < 300 ->
    str_len (Body resp) <= 2 ^ 20 /\
    exists id, unmarshal_id (Body resp) = Ok id /\ id <> "" /\ id ∉ running c /\ running c' = {[id]} ∪ running c;
  delete_accepted : forall c auth id resp c',
    http_Do c (mkRequest MethodDelete (runpodREST ++ "/pods/" ++ id) auth None) = (Ok resp, c') ->
    StatusCode resp < 300 -> running c' = running c ∖ {[id]};
  refused : forall c req resp c', http_Do c req = (Ok resp, c') -> 300 <= StatusCode resp -> running c' = running c
}.

(** [io.ReadAll(io.LimitReader(body, n))] *)
Definition read_limited (n : Z) (body : string) : string :=
  if str_len body <=? n then body else str_take (Z.to_nat n) body.

(** the UTF-8 encoding of the ellipsis *)
Definition ellipsis : string := String "226" (String "128" (String "166" "")).

Definition truncate (s : string) (n : Z) : string :=
  if str_len s <=? n then s else str_take (Z.to_nat n) s ++ ellipsis.

Section Client.
Context `{UnicodeTables} `{PodJSON} {C : Type} `{!PodService C}.
(** [http.NewRequestWithContext] refuses a URL that does not parse. *)
Variable bad_url : string -> option error.

Definition bearer (c : RunPodClient) : string := "Bearer " ++ apiKey c.

(** The defaults [CreatePod] fills in. *)
Definition create_defaults (req : runPodCreateRequest) : runPodCreateRequest :=
  mkCreate (cr_Name req) (cr_ImageName req) (cr_GpuTypeIds req)
    (if cr_GpuCount req <=? 0 then 1 else cr_GpuCount req) (cr_CloudType req)
    (if cr_ContainerDiskInGb req <=? 0 then 40 else cr_ContainerDiskInGb req)
    (if cr_VolumeInGb req <? 0 then 0 else cr_VolumeInGb req) (cr_VolumeMountPath req) (cr_Ports req)
    (cr_Env req) (cr_DockerStartCmd req) (cr_DockerArgs req) (cr_SupportPublicIp req)
    (cr_MinVcpuCount req) (cr_MinMemoryInGb req).

Definition status_error (what : string) (resp : response) (raw : string) : error :=
  ENew ("runpod " ++ what ++ " pod: status " ++ Itoa (StatusCode resp) ++ ": " ++ TrimSpace raw).

(** [CreatePod]; marshalling a request of strings and integers cannot fail. *)
Definition CreatePod (c : RunPodClient) (w : C) (req : runPodCreateRequest) : result error RunPodPod * C :=
  if String.eqb (apiKey c) "" then (Err (ENew "runpod: missing API key (FORGE_RUNPOD_API_KEY)"), w)
  else
    let req := create_defaults req in
    let url := base c ++ "/pods" in
    match bad_url url with
    | Some e => (Err e, w)
    | None =>
        match http_Do w (mkRequest MethodPost url (bearer c) (Some req)) with
        | (Err e, w) => (Err e, w)
        | (Ok resp, w) =>
            let raw := read_limited (2 ^ 20) (Body resp) in
            if 300 <=? StatusCode resp then (Err (status_error "create" resp raw), w)
            else
              match unmarshal_pod raw with
              | Ok pod =>
                  if String.eqb (pd_ID pod) "" then
                    (Err (ENew ("runpod create pod: empty id body=" ++ truncate raw 400)), w)
                  else (Ok pod, w)
              | Err e =>
                  let undecodable := Err (EWrap e ("runpod create pod: decode: body=" ++ truncate raw 400)) in
                  match unmarshal_id raw with
                  | Err _ => (undecodable, w)
                  | Ok id => if String.eqb id "" then (undecodable, w) else (Ok (set_pod_ID id), w)
                  end
              end
        end
    end.

Definition GetPod (c : RunPodClient) (w : C) (id : string) : result error RunPodPod * C :=
  let url := base c ++ "/pods/" ++ id in
  match bad_url url with
  | Some e => (Err e, w)
  | None =>
      match http_Do w (mkRequest MethodGet url (bearer c) None) with
      | (Err e, w) => (Err e, w)
      | (Ok resp, w) =>
          let raw := read_limited (2 ^ 20) (Body resp) in
          if 300 <=? StatusCode resp then (Err (status_error "get" resp raw), w)
          else (unmarshal_pod raw, w)
      end
  end.

Definition DeletePod (c : RunPodClient) (w : C) (id : string) : option error * C :=
  if String.eqb (apiKey c) "" then (Some (ENew "runpod: missing API key"), w)
  else
    let url := base c ++ "/pods/" ++ id in
    match bad_url url with
    | Some e => (Some e, w)
    | None =>
        match http_Do w (mkRequest MethodDelete url (bearer c) None) with
        | (Err e, w) => (Some e, w)
        | (Ok resp, w) =>
            if 300 <=? StatusCode resp then (Some (status_error "delete" resp (read_limited 4096 (Body resp))), w)
            else (None, w)
        end
    end.

Definition podAction (c : RunPodClient) (w : C) (id action : string) : option error * C :=
  let url := base c ++ "/pods/" ++ id ++ "/" ++ action in
  match bad_url url with
  | Some e => (Some e, w)
  | None =>
      match http_Do w (mkRequest MethodPost url (bearer c) None) with
      | (Err e, w) => (Some e, w)
      | (Ok resp, w) =>
          if 300 <=? StatusCode resp then (Some (status_error action resp (read_limited 4096 (Body resp))), w)
          else (None, w)
      end
  end.

Definition StopPod (c : RunPodClient) (w : C) (id : string) : option error * C := podAction c w id "stop".
End Client.

Definition ProxyURL (podID : string) (port : Z) : string :=
  "https://" ++ podID ++ "-" ++ Itoa port ++ ".proxy.runpod.net".

(** ** The provisioner *)

Record RunPodProvisionerConfig := mkRunPodConfig {
  Enabled : bool;
  DryRun : bool;
  APIKey : string;
  GPUTypeID : string;
  Image : string;
  CloudType : string;
  ContainerDisk : Z;
  VolumeDisk : Z;
  HFToken : string;
  VLLMModel : string;
  VLLMPort : Z;
  rp_ControlPlane : string;
  rp_RedisURL : string;
  WorkerBinaryHint : string
}.

Record runpodRecord := mkRecord { PodID : string; rec_Model : ModelIdentity; CreatedAt : Z; rec_ProxyURL : string }.

Record RunPodProvisioner := mkRunPod { rcfg : RunPodProvisionerConfig; client : RunPodClient; pods : gmap string runpodRecord }.

(** [if v == "" { v = d }] *)
Definition or_else (v d : string) : string := if String.eqb v "" then d else v.

Definition NewRunPodProvisioner (getenv : string -> string) (cfg : RunPodProvisionerConfig) : RunPodProvisioner :=
  let key := or_else (APIKey cfg) (or_else (getenv "FORGE_RUNPOD_API_KEY") (getenv "RUNPOD_API_KEY")) in
  let cfg := mkRunPodConfig (Enabled cfg) (DryRun cfg) key
    (or_else (GPUTypeID cfg) "NVIDIA GeForce RTX 4090") (or_else (Image cfg) "vllm/vllm-openai:latest")
    (or_else (CloudType cfg) "COMMUNITY") (if ContainerDisk cfg <=? 0 then 50 else ContainerDisk cfg)
    (VolumeDisk cfg) (or_else (HFToken cfg) (or_else (getenv "FORGE_HF_TOKEN") (getenv "HF_TOKEN")))
    (VLLMModel cfg) (if VLLMPort cfg <=? 0 then 8000 else VLLMPort cfg) (rp_ControlPlane cfg) (rp_RedisURL cfg)
    (WorkerBinaryHint cfg) in
  mkRunPod cfg (NewRunPodClient getenv (APIKey cfg)) ∅.

(** [strconv.Quote] (the verb %q) on ASCII: [c] unless it must be escaped. *)
Definition dquote : ascii := "034".
Definition backslash : ascii := "092".

Definition hex_digit (n : N) : ascii := if N.ltb n 10 then ascii_of_N (48 + n) else ascii_of_N (87 + n).

Definition quote_byte (a : ascii) : string :=
  let n := N_of_ascii a in
  if Ascii.eqb a dquote || Ascii.eqb a backslash then String backslash (String a "")
  else if N.leb 32 n && N.ltb n 127 then String a ""
  else
    let esc c := String backslash (String c "") in
    if N.eqb n 7 then esc "a"%char else if N.eqb n 8 then esc "b"%char else if N.eqb n 12 then esc "f"%char
    else if N.eqb n 10 then esc "n"%char else if N.eqb n 13 then esc "r"%char else if N.eqb n 9 then esc "t"%char
    else if N.eqb n 11 then esc "v"%char
    else String backslash (String "x" (String (hex_digit (n / 16)) (String (hex_digit (n mod 16)) ""))).

Fixpoint quote_ascii (s : string) : string :=
  match s with "" => "" | String a s => quote_byte a ++ quote_ascii s end.

(** Beyond ASCII the verb consults the Unicode tables. *)
Class QuoteTables := { unicode_quote : string -> string }.

Definition Quote `{QuoteTables} (s : string) : string :=
  if str_forall is_ascii s then String dquote (quote_ascii s ++ String dquote "") else unicode_quote s.

Definition newline : string := String "010" "".
Definition line_continues : string := " " ++ String backslash newline.

Definition start_script `{QuoteTables} (model : string) (port : Z) : string :=
  "set -euo pipefail" ++ newline ++
  "export HF_HOME=/workspace/hf" ++ newline ++
  "mkdir -p /workspace/hf" ++ newline ++
  "python3 -m vllm.entrypoints.openai.api_server" ++ line_continues ++
  "  --model " ++ Quote model ++ line_continues ++
  "  --host 0.0.0.0" ++ line_continues ++
  "  --port " ++ Itoa port ++ line_continues ++
  "  --max-model-len 8192" ++ line_continues ++
  "  --dtype auto" ++ newline.

(** The model a pod is told to serve. *)
Definition served_model (cfg : RunPodProvisionerConfig) (id : ModelIdentity) : string :=
  if negb (String.eqb (VLLMModel cfg) "") then VLLMModel cfg else BaseModel id.

(** The clock at one call: [time.Now()] in seconds and nanoseconds. *)
Record clock := mkClock { Unix : Z; UnixNano : Z; time_Now : Z }.

Definition pod_request `{QuoteTables} (cfg : RunPodProvisionerConfig) (id : ModelIdentity) (t : clock) : runPodCreateRequest :=
  let model := served_model cfg id in
  let port := VLLMPort cfg in
  mkCreate ("forge-" ++ sanitizeID (Key id) ++ "-" ++ Itoa (Z.rem (Unix t) 100000)) (Image cfg) [GPUTypeID cfg] 1
    (CloudType cfg) (ContainerDisk cfg) (VolumeDisk cfg) "/workspace" [Itoa port ++ "/http"; "22/tcp"]
    (list_to_map [("HF_TOKEN", HFToken cfg); ("HUGGING_FACE_HUB_TOKEN", HFToken cfg); ("FORGE_MODEL", model);
                  ("FORGE_VLLM_PORT", Itoa port); ("FORGE_CONTROLPLANE_GRPC", rp_ControlPlane cfg);
                  ("FORGE_REDIS_URL", rp_RedisURL cfg)])
    ["bash"; "-lc"; start_script model port] "" false 0 0.

Definition set_pods (p : RunPodProvisioner) (ps : gmap string runpodRecord) : RunPodProvisioner :=
  mkRunPod (rcfg p) (client p) ps.

Section Provisioner.
Context `{UnicodeTables} `{QuoteTables} `{PodJSON} {C : Type} `{!PodService C}.
Variable bad_url : string -> option error.

Definition Provision (p : RunPodProvisioner) (w : C) (id : ModelIdentity) (t : clock)
    : result error string * RunPodProvisioner * C :=
  let cfg := rcfg p in
  if negb (Enabled cfg) then (Err (ENew "runpod provisioner disabled (set FORGE_FLEET_RUNPOD_ENABLED=true)"), p, w)
  else if String.eqb (served_model cfg id) "" then (Err (ENew "runpod: empty model identity"), p, w)
  else if DryRun cfg then
    let wid := "runpod-dryrun-" ++ sanitizeID (Key id) ++ "-" ++ Itoa (UnixNano t) in
    (Ok wid, set_pods p (<[wid := mkRecord "dryrun" id (time_Now t) ""]> (pods p)), w)
  else
    match CreatePod bad_url (client p) w (pod_request cfg id t) with
    | (Err e, w) => (Err e, p, w)
    | (Ok pod, w) =>
        let wid := "runpod-" ++ pd_ID pod in
        let proxy := ProxyURL (pd_ID pod) (VLLMPort cfg) in
        (Ok wid, set_pods p (<[wid := mkRecord (pd_ID pod) id (time_Now t) proxy]> (pods p)), w)
    end.

Definition Retire (p : RunPodProvisioner) (w : C) (wid : string) : option error * RunPodProvisioner * C :=
  match pods p !! wid with
  | None =>
      if HasPrefix wid "runpod-" then
        let id := TrimPrefix wid "runpod-" in
        if negb (String.eqb id "") && negb (String.eqb id "dryrun") && negb (DryRun (rcfg p)) then
          let '(e, w) := DeletePod bad_url (client p) w id in (e, p, w)
        else (None, p, w)
      else (None, p, w)
  | Some r =>
      let p := set_pods p (delete wid (pods p)) in
      if String.eqb (PodID r) "" || String.eqb (PodID r) "dryrun" || DryRun (rcfg p) then (None, p, w)
      else let '(e, w) := DeletePod bad_url (client p) w (PodID r) in (e, p, w)
  end.

Definition Pod (p : RunPodProvisioner) (wid : string) : option runpodRecord := pods p !! wid.
End Provisioner.

(** ** Lemmas *)

Lemma sanitizeID_clean s c : c ∈ ["/"; ":"; "#"]%char -> no_byte c (sanitizeID s).
Proof.
  intros Hc. unfold sanitizeID.
  assert (no_byte c (ReplaceAll (ReplaceAll (ReplaceAll s "/" "-") ":" "-") "#" "-")) as Hn.
  { rewrite !elem_of_cons, elem_of_nil in Hc. destruct Hc as [->|[->|[->|[]]]].
    - do 2 (apply ReplaceAll_keeps; [done|]). by apply ReplaceAll_no_byte.
    - apply ReplaceAll_keeps; [done|]. by apply ReplaceAll_no_byte.
    - by apply ReplaceAll_no_byte. }
  destruct (40 <? _); [by apply str_take_no_byte|done].
Qed.

Lemma read_limited_small n s : str_len s <= n -> read_limited n s = s.
Proof. unfold read_limited. intros H. by rewrite (proj2 (Z.leb_le _ _)). Qed.

(** What the fleet knows of a pod it has asked for. *)
Definition wf_pods (p : RunPodProvisioner) : Prop :=
  forall wid r, pods p !! wid = Some r ->
    if DryRun (rcfg p) then PodID r = "dryrun" else wid = "runpod-" ++ PodID r /\ PodID r <> "".

Section Lemmas.
Context `{UnicodeTables} `{QuoteTables} `{PodJSON} {C : Type} `{!PodService C}.
Variable bad_url : string -> option error.

(** A creation that is answered returns the pod it has made. *)
Lemma CreatePod_ok c w req pod w' :
  CreatePod bad_url c w req = (Ok pod, w') ->
  pd_ID pod <> "" /\ pd_ID pod ∉ running w /\ running w' = {[pd_ID pod]} ∪ running w.
Proof.
  unfold CreatePod. destruct (String.eqb (apiKey c) ""); [done|]. destruct (bad_url _); [done|].
  destruct (http_Do w _) as [[resp|e] w1] eqn:E; [|done]. destruct (Z.leb_spec 300 (StatusCode resp)); [done|].
  destruct (create_accepted _ _ _ _ _ _ E) as (Hs & id & Hid & Hne & Hnew & Hrun); [lia|].
  rewrite (read_limited_small _ _ Hs). destruct (unmarshal_pod (Body resp)) as [pod'|e] eqn:Ep.
  - pose proof (unmarshal_same_id _ _ Ep) as Eq. rewrite Hid in Eq. injection Eq as ->.
    destruct (String.eqb_spec (pd_ID pod') ""); [done|]. by intros [= <- <-].
  - rewrite Hid. destruct (String.eqb_spec id ""); [done|]. by intros [= <- <-].
Qed.

(** With a key and URLs that parse, an accepted creation is not lost. *)
Lemma CreatePod_accepted c w req resp w' :
  apiKey c <> "" -> (forall u, bad_url u = None) ->
  http_Do w (mkRequest MethodPost (base c ++ "/pods") (bearer c) (Some (create_defaults req))) = (Ok resp, w') ->
  StatusCode resp < 300 -> exists pod, CreatePod bad_url c w req = (Ok pod, w').
Proof.
  intros Hk Hu E Hst. unfold CreatePod. destruct (String.eqb_spec (apiKey c) ""); [done|]. rewrite Hu, E.
  rewrite (proj2 (Z.leb_gt _ _)) by lia. destruct (create_accepted _ _ _ _ _ _ E Hst) as (Hs & id & Hid & Hne & _ & _).
  rewrite (read_limited_small _ _ Hs). destruct (unmarshal_pod (Body resp)) as [pod|e] eqn:Ep.
  - pose proof (unmarshal_same_id _ _ Ep) as Eq. rewrite Hid in Eq. injection Eq as ->.
    destruct (String.eqb_spec (pd_ID pod) ""); [done|]. by eexists.
  - rewrite Hid. destruct (String.eqb_spec id ""); [done|]. by eexists.
Qed.

Lemma DeletePod_ok c w id w' :
  base c = runpodREST -> DeletePod bad_url c w id = (None, w') -> running w' = running w ∖ {[id]}.
Proof.
  intros Hb. unfold DeletePod. destruct (String.eqb (apiKey c) ""); [done|]. rewrite Hb. destruct (bad_url _); [done|].
  destruct (http_Do w _) as [[resp|e] w1] eqn:E; [|done]. destruct (Z.leb_spec 300 (StatusCode resp)); [done|].
  intros [= <-]. eapply delete_accepted; [exact E|lia].
Qed.

Lemma DeletePod_refused c w id :
  (forall req, exists resp w', http_Do w req = (Ok resp, w') /\ 300 <= StatusCode resp) ->
  exists e w', DeletePod bad_url c w id = (Some e, w') /\ running w' = running w.
Proof.
  intros Href. unfold DeletePod. destruct (String.eqb (apiKey c) ""); [by eexists _, _|].
  destruct (bad_url _); [by eexists _, _|].
  destruct (Href (mkRequest MethodDelete (base c ++ "/pods/" ++ id) (bearer c) None)) as (resp & w' & E & Hst).
  rewrite E, (proj2 (Z.leb_le _ _)) by done. eexists _, _. split; [done|]. by eapply refused.
Qed.

Lemma Provision_frame p w id t r p' w' :
  Provision bad_url p w id t = (r, p', w') -> rcfg p' = rcfg p /\ client p' = client p.
Proof.
  unfold Provision. repeat case_if; try (by intros [= <- <- <-]).
  destruct (CreatePod _ _ _ _) as [[pod|e] w1]; by intros [= <- <- <-].
Qed.

Lemma Provision_wf p w id t r p' w' :
  wf_pods p -> Provision bad_url p w id t = (r, p', w') -> wf_pods p'.
Proof.
  intros Hwf E. pose proof (Provision_frame _ _ _ _ _ _ _ E) as [Hc _]. revert E. unfold Provision.
  destruct (negb (Enabled (rcfg p))); [by intros [= <- <- <-]|].
  destruct (String.eqb (served_model (rcfg p) id) ""); [by intros [= <- <- <-]|]. destruct (DryRun (rcfg p)) eqn:Ed.
  - intros [= <- <- <-] wid rec. cbn [set_pods rcfg pods]. rewrite Ed.
    intros [[_ <-]|[_ Hl]]%lookup_insert_Some; [done|]. specialize (Hwf _ _ Hl). by rewrite Ed in Hwf.
  - destruct (CreatePod _ _ _ _) as [[pod|e] w1] eqn:Ec; [|by intros [= <- <- <-]].
    intros [= <- <- <-] wid rec. cbn [set_pods rcfg pods]. rewrite Ed.
    intros [[<- <-]|[_ Hl]]%lookup_insert_Some.
    + split; [done|]. by apply CreatePod_ok in Ec as [? _].
    + specialize (Hwf _ _ Hl). by rewrite Ed in Hwf.
Qed.

(** [Retire] forgets the worker whatever the service answers. *)
Lemma Retire_forgets p w wid e p' w' :
  Retire bad_url p w wid = (e, p', w') -> p' = set_pods p (delete wid (pods p)).
Proof.
  unfold Retire. destruct (pods p !! wid) as [r|] eqn:El.
  - case_if; [by intros [= _ <- _]|]. destruct (DeletePod _ _ _ _). by intros [= _ <- _].
  - assert (p = set_pods p (delete wid (pods p))) as Ep by (rewrite delete_id by done; by destruct p).
    repeat case_if; try (by intros [= _ <- _]). destruct (DeletePod _ _ _ _). by intros [= _ <- _].
Qed.

(** [Retire] of a pod, whether the provisioner remembers it or not. *)
Lemma Retire_deletes p w pid p' w' :
  wf_pods p -> base (client p) = runpodREST -> DryRun (rcfg p) = false -> pid <> "" -> pid <> "dryrun" ->
  Retire bad_url p w ("runpod-" ++ pid) = (None, p', w') -> running w' = running w ∖ {[pid]}.
Proof.
  intros Hwf Hb Hd Hne Hdr. unfold Retire. destruct (pods p !! ("runpod-" ++ pid)) as [r|] eqn:El.
  - specialize (Hwf _ _ El). rewrite Hd in Hwf. destruct Hwf as [Eq _].
    assert (PodID r = pid) as ->.
    { apply (f_equal (fun s => TrimPrefix s "runpod-")) in Eq. by rewrite !TrimPrefix_app in Eq. }
    cbn [rcfg set_pods client]. rewrite Hd. destruct (String.eqb_spec pid ""), (String.eqb_spec pid "dryrun"); try done. cbn [orb].
    destruct (DeletePod _ _ _ _) as [e w1] eqn:E. intros [= -> <- <-]. by eapply DeletePod_ok.
  - rewrite HasPrefix_app, TrimPrefix_app, Hd. destruct (String.eqb_spec pid ""), (String.eqb_spec pid "dryrun"); try done.
    cbn [negb andb]. destruct (DeletePod _ _ _ _) as [e w1] eqn:E. intros [= -> <- <-]. by eapply DeletePod_ok.
Qed.
End Lemmas.

(** ** Properties *)

Section Properties.
Context `{UnicodeTables} `{QuoteTables} `{PodJSON} {C : Type} `{!PodService C}.
Variable bad_url : string -> option error.

(** A pod that is provisioned can be given back: [Provision] returns the
    name of exactly one new pod of the service and records it, and a [Retire]
    of that name that reports no error leaves the service and the records as
    they were, also when the provisioner has been restarted in between and no
    longer remembers the pod. *)
Theorem pod_roundtrip p w id t wid p1 w1 p2 w2 :
  wf_pods p -> base (client p) = runpodREST -> DryRun (rcfg p) = false -> wid <> "runpod-dryrun" ->
  Provision bad_url p w id t = (Ok wid, p1, w1) ->
  (exists pid, wid = "runpod-" ++ pid /\ pid ∉ running w /\ running w1 = {[pid]} ∪ running w /\
     Pod p1 wid = Some (mkRecord pid id (time_Now t) (ProxyURL pid (VLLMPort (rcfg p))))) /\
  (Retire bad_url p1 w1 wid = (None, p2, w2) -> running w2 = running w /\ pods p2 = delete wid (pods p)) /\
  (Retire bad_url (set_pods p1 ∅) w1 wid = (None, p2, w2) -> running w2 = running w).
Proof.
  intros Hwf Hb Hd Hw E. pose proof (Provision_wf _ _ _ _ _ _ _ _ Hwf E) as Hwf1.
  pose proof (Provision_frame _ _ _ _ _ _ _ _ E) as [Hc1 Hc2].
  unfold Provision in E. rewrite Hd in E. destruct (negb _); [done|]. destruct (String.eqb _ _); [done|].
  destruct (CreatePod _ _ _ _) as [[pod|e] w3] eqn:Ec; [|done]. injection E as <- <- <-.
  destruct (CreatePod_ok _ _ _ _ _ _ Ec) as (Hne & Hnew & Hrun). cbn [set_pods pods rcfg client] in *.
  assert (running w3 ∖ {[pd_ID pod]} = running w) as Hback by (rewrite Hrun; set_solver).
  split; [|split].
  - exists (pd_ID pod). split; [done|]. split; [done|]. split; [done|]. unfold Pod. cbn. by rewrite lookup_insert_eq.
  - intros Er. split.
    + rewrite (Retire_deletes _ _ _ _ _ _ Hwf1 Hb Hd Hne ltac:(intros Eq; apply Hw; by rewrite Eq) Er). exact Hback.
    + rewrite (Retire_forgets _ _ _ _ _ _ _ Er). cbn [set_pods pods]. by rewrite delete_insert_eq.
  - intros Er. eapply (Retire_deletes bad_url) in Er; [by rewrite Er|by intros ? ?|done..|].
    intros Eq. apply Hw. by rewrite Eq.
Qed.

(** The lifecycle polls port 8000 of a pod: the address the provisioner
    recorded for a pod is the one its readiness is checked at exactly when the
    port is not configured otherwise. *)
Theorem proxy_port_mismatch p w id t wid p1 w1 :
  DryRun (rcfg p) = false -> Provision bad_url p w id t = (Ok wid, p1, w1) ->
  exists r, Pod p1 wid = Some r /\ (rec_ProxyURL r = pod_proxy wid <-> VLLMPort (rcfg p) = 8000).
Proof.
  intros Hd E. unfold Provision in E. rewrite Hd in E. destruct (negb _); [done|]. destruct (String.eqb _ _); [done|].
  destruct (CreatePod _ _ _ _) as [[pod|e] w3] eqn:Ec; [|done]. injection E as <- <- <-.
  eexists. unfold Pod. cbn [set_pods pods]. rewrite lookup_insert_eq. split; [done|]. cbn [rec_ProxyURL].
  unfold ProxyURL, pod_proxy.
  match goal with |- context [TrimPrefix ?x "runpod-"] => change x with ("runpod-" ++ pd_ID pod) end.
  rewrite TrimPrefix_app. split; [|by intros ->].
  intros Eq. apply (f_equal (fun s => TrimPrefix s ("https://" ++ pd_ID pod ++ "-"))) in Eq. cbn beta in Eq.
  assert (forall t, "https://" ++ pd_ID pod ++ "-" ++ t = ("https://" ++ pd_ID pod ++ "-") ++ t) as A
    by (intros; by rewrite !str_app_assoc).
  rewrite A in Eq. change ("-8000.proxy.runpod.net") with ("-" ++ "8000.proxy.runpod.net") in Eq.
  rewrite A, !TrimPrefix_app in Eq. apply Itoa_inj.
  change "8000.proxy.runpod.net" with ("8000" ++ ".proxy.runpod.net") in Eq.
  apply str_app_inv_r in Eq. exact Eq.
Qed.

(** A pod whose deletion is refused is forgotten all the same: it keeps
    running and the provisioner no longer has a record of it. *)
Theorem refused_delete_leaks_pod p w wid r e p' w' :
  wf_pods p -> DryRun (rcfg p) = false -> pods p !! wid = Some r -> PodID r ∈ running w ->
  (forall req, exists resp c, http_Do w req = (Ok resp, c) /\ 300 <= StatusCode resp) ->
  Retire bad_url p w wid = (e, p', w') -> wid <> "runpod-dryrun" ->
  e <> None /\ PodID r ∈ running w' /\ pods p' !! wid = None.
Proof.
  intros Hwf Hd Hl Hin Href E Hw. pose proof (Retire_forgets _ _ _ _ _ _ _ E) as ->.
  specialize (Hwf _ _ Hl). rewrite Hd in Hwf. destruct Hwf as [-> Hne].
  revert E. unfold Retire. rewrite Hl. cbn [set_pods rcfg client]. rewrite Hd.
  destruct (String.eqb_spec (PodID r) ""), (String.eqb_spec (PodID r) "dryrun") as [Eq|]; try done; [by rewrite Eq in Hw|].
  cbn [orb]. destruct (DeletePod_refused bad_url (client p) w (PodID r) Href) as (e' & w1 & -> & Hr).
  intros [= <- <-]. split; [done|]. split; [by rewrite Hr|apply lookup_delete_eq].
Qed.

(** The name of the model is quoted for Go, not for the shell that runs the
    start script: any printable name without quotes and backslashes stands
    unchanged between double quotes, where the shell expands dollar signs and
    backticks. *)
Theorem start_script_not_shell_quoted cfg id t :
  str_forall (fun a => N.leb 32 (N_of_ascii a) && N.ltb (N_of_ascii a) 127
                       && negb (Ascii.eqb a dquote) && negb (Ascii.eqb a backslash)) (served_model cfg id) = true ->
  exists before after, cr_DockerStartCmd (pod_request cfg id t) =
    ["bash"; "-lc"; before ++ String dquote (served_model cfg id ++ String dquote after)].
Proof.
  intros Hp. cbn [pod_request cr_DockerStartCmd]. unfold start_script.
  assert (Quote (served_model cfg id) = String dquote (served_model cfg id ++ String dquote "")) as ->.
  { set (m := served_model cfg id) in *. clearbody m. unfold Quote.
    assert (str_forall is_ascii m = true /\ quote_ascii m = m) as [-> ->]; [|done].
    induction m as [|a m IH]; [done|]. cbn [str_forall] in Hp. apply andb_true_iff in Hp as [Ha Hm].
    destruct (IH Hm) as [Hs1 Hs2]. apply andb_true_iff in Ha as [Ha Hb]. apply andb_true_iff in Ha as [Ha Hq].
    apply negb_true_iff in Hb, Hq. split.
    - cbn [str_forall]. rewrite Hs1, andb_true_r. unfold is_ascii. apply andb_true_iff in Ha as [_ Ha].
      apply N.ltb_lt in Ha. apply N.ltb_lt. lia.
    - cbn [quote_ascii]. unfold quote_byte. rewrite Hq, Hb, Ha. cbn. by rewrite Hs2. }
  set (m := served_model cfg id). clearbody m.
  eexists ("set -euo pipefail" ++ newline ++ "export HF_HOME=/workspace/hf" ++ newline ++ "mkdir -p /workspace/hf" ++ newline ++
    "python3 -m vllm.entrypoints.openai.api_server" ++ line_continues ++ "  --model "), _.
  rewrite !str_app_assoc. cbn [String.append]. rewrite str_app_assoc. reflexivity.
Qed.
End Properties.

(** *** Witnesses *)

(** A service with one pod to give, named in the body of its answers; it
    refuses everything while it is closed. *)
Record one_pod := mkOnePod { open : bool; up : gset string }.

Definition plain_json : PodJSON.
Proof.
  refine {| unmarshal_pod raw := Ok (set_pod_ID raw); unmarshal_id raw := Ok raw |}.
  by intros raw pod [= <-].
Defined.

Definition one_pod_do (w : one_pod) (r : request) : result error response * one_pod :=
  if negb (open w) then (Ok (mkResponse 503 ""), w)
  else match rq_method r, rq_body r with
  | MethodPost, Some _ =>
      if bool_decide ("p7" ∈ up w) then (Ok (mkResponse 409 ""), w)
      else (Ok (mkResponse 201 "p7"), mkOnePod true ({["p7"]} ∪ up w))
  | MethodDelete, _ =>
      (Ok (mkResponse 200 ""), mkOnePod true (up w ∖ {[TrimPrefix (rq_url r) (runpodREST ++ "/pods/")]}))
  | _, _ => (Ok (mkResponse 404 ""), w)
  end.

Definition one_pod_service : @PodService one_pod plain_json.
Proof.
  refine (@Build_PodService one_pod plain_json one_pod_do up _ _ _).
  - intros w url auth req resp w'. unfold one_pod_do. cbn [rq_method rq_body]. destruct (negb (open w)).
    { intros [= <- <-]. cbn. lia. }
    case_bool_decide as Hin; intros [= <- <-]; cbn; [lia|]. intros _. split; [done|]. by exists "p7".
  - intros w auth id resp w'. unfold one_pod_do. cbn [rq_method rq_body rq_url]. destruct (negb (open w)).
    { intros [= <- <-]. cbn. lia. }
    intros [= <- <-] _. cbn [up].
    assert (TrimPrefix (runpodREST ++ "/pods/" ++ id) (runpodREST ++ "/pods/") = id) as E.
    { rewrite <- (TrimPrefix_app (runpodREST ++ "/pods/") id) at 2. by rewrite str_app_assoc. }
    change (up w ∖ {[TrimPrefix (runpodREST ++ "/pods/" ++ id) (runpodREST ++ "/pods/")]} = up w ∖ {[id]}). by rewrite E.
  - intros w r resp w'. unfold one_pod_do. destruct (negb (open w)); [by intros [= <- <-]|].
    destruct (rq_method r), (rq_body r); try (by intros [= <- <-]); try (intros [= <- <-]; cbn; lia).
    case_bool_decide; intros [= <- <-]; [done|cbn; lia].
Defined.

Definition no_quotes : QuoteTables := {| unicode_quote s := s |}.

Definition rp_test : RunPodProvisioner :=
  NewRunPodProvisioner (fun _ => "") (mkRunPodConfig true false "key" "" "" "" 0 0 "" "" 9000 "" "" "").

Definition all_urls (_ : string) : option error := None.

Definition tick0 : clock := mkClock 0 0 0.

Abbreviation provision_test :=
  (@Provision ascii_tables no_quotes plain_json one_pod one_pod_service all_urls rp_test (mkOnePod true ∅) (mkModel "qwen" "") tick0).
Abbreviation retire_test :=
  (@Retire ascii_tables plain_json one_pod one_pod_service all_urls provision_test.1.2 provision_test.2 "runpod-p7").

Lemma pod_roundtrip_witness :
  (exists pid, "runpod-p7" = "runpod-" ++ pid /\ pid ∉ (∅ : gset string)) /\
  up retire_test.2 = ∅ /\ pods retire_test.1.2 = ∅.
Proof.
  destruct (@pod_roundtrip ascii_tables no_quotes plain_json one_pod one_pod_service all_urls rp_test (mkOnePod true ∅)
    (mkModel "qwen" "") tick0 "runpod-p7" provision_test.1.2 provision_test.2 retire_test.1.2 retire_test.2)
    as ((pid & Hp & Hn & _) & Hr & _).
  - intros wid r. vm_compute. discriminate.
  - reflexivity.
  - reflexivity.
  - discriminate.
  - vm_compute. reflexivity.
  - split; [exists pid; split; [exact Hp|exact Hn]|]. apply Hr. vm_compute. reflexivity.
Defined.

Lemma proxy_port_mismatch_witness :
  exists r, Pod provision_test.1.2 "runpod-p7" = Some r /\ rec_ProxyURL r <> pod_proxy "runpod-p7".
Proof.
  destruct (@proxy_port_mismatch ascii_tables no_quotes plain_json one_pod one_pod_service all_urls rp_test (mkOnePod true ∅)
    (mkModel "qwen" "") tick0 "runpod-p7" provision_test.1.2 provision_test.2) as (r & Hr & Hiff).
  - reflexivity.
  - vm_compute. reflexivity.
  - exists r. split; [exact Hr|]. intros H. apply Hiff in H. discriminate H.
Defined.

Definition closed : one_pod := mkOnePod false {["p7"]}.
Abbreviation refused_test :=
  (@Retire ascii_tables plain_json one_pod one_pod_service all_urls provision_test.1.2 closed "runpod-p7").

Lemma refused_delete_leaks_pod_witness : "p7" ∈ up refused_test.2 /\ pods refused_test.1.2 !! "runpod-p7" = None.
Proof.
  destruct (@refused_delete_leaks_pod ascii_tables plain_json one_pod one_pod_service all_urls
    provision_test.1.2 closed "runpod-p7" (mkRecord "p7" (mkModel "qwen" "") 0 "https://p7-9000.proxy.runpod.net")
    refused_test.1.1 refused_test.1.2 refused_test.2) as (_ & Hup & Hgone).
  - eapply (@Provision_wf ascii_tables no_quotes plain_json one_pod one_pod_service all_urls rp_test (mkOnePod true ∅)
      (mkModel "qwen" "") tick0); [intros wid r; vm_compute; discriminate|vm_compute; reflexivity].
  - reflexivity.
  - vm_compute. reflexivity.
  - change ("p7" ∈ ({["p7"]} : gset string)). apply elem_of_singleton_2. reflexivity.
  - intros req. eexists _, _. split; [reflexivity|]. vm_compute. discriminate.
  - vm_compute. reflexivity.
  - discriminate.
  - split; [exact Hup|exact Hgone].
Defined.

Lemma start_script_not_shell_quoted_witness :
  exists before after, cr_DockerStartCmd (@pod_request no_quotes (rcfg rp_test) (mkModel "$(id)" "") tick0) =
    ["bash"; "-lc"; before ++ String dquote ("$(id)" ++ String dquote after)].
Proof. apply (@start_script_not_shell_quoted no_quotes (rcfg rp_test) (mkModel "$(id)" "") tick0). reflexivity. Defined.
