(* ===== verification/ProvisionedFleet.v ===== *)
(** * The fleet manager and its provisioners (services/fleet/provisioner.go)

    The interface [Provisioner] of the program, as a class with what the
    manager relies on, implemented by the local processes and by RunPod, and
    the manager composed with any implementation: the answers of the
    provisioner drive the manager, and the manager's calls of [Retire] reach
    the provisioner. *)

From S2P Require Import LocalProvisioner RunPod Prelude GoStrings GoFormat Errors Routing FleetScaling FleetManager FleetLifecycle.

(** ** The interface *)

(** [answers] is what the world answers to one call; [tracked] the workers
    the provisioner has handed out and not taken back. *)
Class Provisioner (P : Type) := {
  answers : Type;
  Kind : string;
  provision : P -> ModelIdentity -> answers -> result error string * P;
  retire : P -> string -> answers -> option error * P;
  tracked : P -> gmap string ModelIdentity;
  provision_ok : forall p id h wid p', provision p id h = (Ok wid, p') -> tracked p' = <[wid := id]> (tracked p);
  provision_err : forall p id h e p', provision p id h = (Err e, p') -> tracked p' = tracked p;
  provision_named : forall p id h wid p', provision p id h = (Ok wid, p') -> HasPrefix wid "provisioning-" = false;
  retire_untracks : forall p wid h, tracked (retire p wid h).2 = delete wid (tracked p)
}.

(** The methods of the lifecycle that pass a call on to the provisioner it
    wraps. *)
Section Wrapped.
Context {P : Type} `{Provisioner P}.

Definition LifecycleProvision (p : P) (id : ModelIdentity) (h : answers) : result error string * P :=
  match provision p id h with
  | (Err e, p) => (Err e, p)
  | (Ok wid, p) => (Ok wid, p)
  end.

Definition LifecycleRetire (p : P) (wid : string) (h : answers) : option error * P := retire p wid h.

Definition LifecycleKind : string := Kind.
End Wrapped.

(** ** Implementations *)

(** A call of the local provisioner; [retired_in_time] answers [Retire]. *)
Record local_answers := mkLocalAnswers { local_host : LocalProvisioner.host; retired_in_time : bool }.

Definition local_provision (p : LocalProvisioner.LocalProcess) (id : ModelIdentity) (h : local_answers) :
    result error string * LocalProvisioner.LocalProcess :=
  let '(r, p, _) := LocalProvisioner.Provision p id (local_host h) in (r, p).

Definition local_retire (p : LocalProvisioner.LocalProcess) (wid : string) (h : local_answers) :
    option error * LocalProvisioner.LocalProcess :=
  let '(r, p, _) := LocalProvisioner.Retire p wid (retired_in_time h) in (r, p).

Lemma local_provision_cases p id h :
  let n := wrap_i64 (LocalProvisioner.next p + 1) in
  (exists e p', local_provision p id h = (Err e, p') /\ LocalProvisioner.Active p' = LocalProvisioner.Active p) \/
  exists p', local_provision p id h = (Ok (LocalProvisioner.local_id id n), p') /\
    LocalProvisioner.Active p' = <[LocalProvisioner.local_id id n := id]> (LocalProvisioner.Active p).
Proof.
  cbn zeta. unfold local_provision, LocalProvisioner.Provision. cbn [LocalProvisioner.take_number].
  set (n := wrap_i64 _). set (p0 := LocalProvisioner.mkLocal _ n _ _ _).
  destruct (LocalProvisioner.finish_cases p0 n id (local_host h)) as [(e & ->)|(pr & es & -> & Hm & _)].
  - left. by eexists _, _.
  - right. eexists. split; [done|]. unfold LocalProvisioner.Active. cbn [LocalProvisioner.set_active LocalProvisioner.active].
    rewrite fmap_insert, Hm. done.
Qed.

#[export] Program Instance local_provisioner : Provisioner LocalProvisioner.LocalProcess := {|
  answers := local_answers;
  Kind := "local";
  provision := local_provision;
  retire := local_retire;
  tracked := LocalProvisioner.Active
|}.
Next Obligation.
  intros p id h wid p' E. destruct (local_provision_cases p id h) as [(e & p1 & E1 & _)|(p1 & E1 & Ha)]; congruence.
Qed.
Next Obligation.
  intros p id h e p' E. destruct (local_provision_cases p id h) as [(e1 & p1 & E1 & Ha)|(p1 & E1 & _)]; congruence.
Qed.
Next Obligation.
  intros p id h wid p' E. destruct (local_provision_cases p id h) as [(e1 & p1 & E1 & _)|(p1 & E1 & _)]; [congruence|].
  rewrite E1 in E. injection E as <- <-. reflexivity.
Qed.
Next Obligation.
  intros p wid h. unfold local_retire, LocalProvisioner.Retire, LocalProvisioner.Active.
  destruct (LocalProvisioner.active p !! wid) as [pr|] eqn:E; cbn.
  - by rewrite fmap_delete.
  - rewrite delete_id; [done|]. by rewrite lookup_fmap, E.
Qed.

(** RunPod: the provisioner together with the service it talks to. *)
Section RunPodInstance.
Context `{UnicodeTables} `{RunPod.QuoteTables} `{RunPod.PodJSON} {C : Type} `{!RunPod.PodService C}.
Variable bad_url : string -> option error.

Definition runpod_provision (p : RunPod.RunPodProvisioner * C) (id : ModelIdentity) (t : RunPod.clock) :
    result error string * (RunPod.RunPodProvisioner * C) :=
  let '(r, p', w) := RunPod.Provision bad_url p.1 p.2 id t in (r, (p', w)).

Definition runpod_retire (p : RunPod.RunPodProvisioner * C) (wid : string) (t : RunPod.clock) :
    option error * (RunPod.RunPodProvisioner * C) :=
  let '(e, p', w) := RunPod.Retire bad_url p.1 p.2 wid in (e, (p', w)).

Definition runpod_tracked (p : RunPod.RunPodProvisioner * C) : gmap string ModelIdentity :=
  RunPod.rec_Model <$> RunPod.pods p.1.

Lemma runpod_provision_cases p id t :
  (exists e p', runpod_provision p id t = (Err e, p') /\ runpod_tracked p' = runpod_tracked p) \/
  exists s p', runpod_provision p id t = (Ok ("runpod-" ++ s), p') /\
    runpod_tracked p' = <["runpod-" ++ s := id]> (runpod_tracked p).
Proof.
  unfold runpod_provision, RunPod.Provision, runpod_tracked. destruct p as [p w]. cbn [fst snd].
  destruct (negb _); [left; by eexists _, _|]. destruct (String.eqb _ _); [left; by eexists _, _|].
  destruct (RunPod.DryRun _).
  - right. exists ("dryrun-" ++ LocalProvisioner.sanitizeID (Key id) ++ "-" ++ Itoa (RunPod.UnixNano t)). eexists.
    split; [reflexivity|]. cbn [fst RunPod.set_pods RunPod.pods]. by rewrite fmap_insert.
  - destruct (RunPod.CreatePod _ _ _ _) as [[pod|e] w1]; [|left; by eexists _, _].
    right. exists (RunPod.pd_ID pod). eexists. split; [reflexivity|].
    cbn [fst RunPod.set_pods RunPod.pods]. by rewrite fmap_insert.
Qed.

#[export] Program Instance runpod_provisioner : Provisioner (RunPod.RunPodProvisioner * C) := {|
  answers := RunPod.clock;
  Kind := "runpod";
  provision := runpod_provision;
  retire := runpod_retire;
  tracked := runpod_tracked
|}.
Next Obligation.
  intros p id h wid p' E. destruct (runpod_provision_cases p id h) as [(e & p1 & E1 & _)|(s & p1 & E1 & Ha)]; congruence.
Qed.
Next Obligation.
  intros p id h e p' E. destruct (runpod_provision_cases p id h) as [(e1 & p1 & E1 & Ha)|(s & p1 & E1 & _)]; congruence.
Qed.
Next Obligation.
  intros p id h wid p' E. destruct (runpod_provision_cases p id h) as [(e1 & p1 & E1 & _)|(s & p1 & E1 & _)]; [congruence|].
  rewrite E1 in E. injection E as <- <-. reflexivity.
Qed.
Next Obligation.
  intros p wid h. unfold runpod_retire. destruct (RunPod.Retire bad_url p.1 p.2 wid) as [[e p'] w] eqn:E.
  apply RunPod.Retire_forgets in E as ->. unfold runpod_tracked. cbn. by rewrite fmap_delete.
Qed.
End RunPodInstance.

(** ** The composition *)

Section Fleet.
Context {P : Type} `{Provisioner P}.
Variable iter : gmap string trackedWorker -> list trackedWorker.

Record fleet := mkFleet { mgr : Manager; prov : P }.

(** The calls of [Retire] the manager has made since [m]. *)
Definition retire_new (m m' : Manager) (p : P) (h : answers) : P :=
  foldl (fun p wid => (retire p wid h).2) p (drop (length (retires m)) (retires m')).

(** Whether a reconciliation calls [Provision]. *)
Definition scales_up (snap : option RoutingSnapshot) (m : Manager) (id : ModelIdentity) (t : Z) : bool :=
  let policy := PolicyGet (policies m) id in
  let ready := readyCount m snap id in
  let want := clamp (rawDesired policy (sumActive snap id) ready) (MinReplicas policy) (MaxReplicas policy) in
  let '(want, h) := Apply (hyst m) (Key id) want ready policy t in
  ready + provisioningCount (set_desired (set_hyst m h) (Key id) want) id <? want.

(** One reconciliation of a model: the provisioner is asked only when the
    manager scales up. *)
Definition fleet_reconcile (lc : bool) (snap : option RoutingSnapshot) (f : fleet) (id : ModelIdentity) (t : Z)
    (ps : polls) (h : answers) : fleet :=
  let '(r, p) := if scales_up snap (mgr f) id t then provision (prov f) id h else (Err (ENew "not called"), prov f) in
  let m := (reconcile iter lc snap (mgr f) id (mkInputs t r ps)).2 in
  mkFleet m (retire_new (mgr f) m p h).

Definition fleet_activate (lc : bool) (snap : option RoutingSnapshot) (f : fleet) (baseModel : string) (h : answers) : fleet :=
  let '(r, p) := if 0 <? readyCount (mgr f) snap (mkModel baseModel "") then (Err (ENew "not called"), prov f)
                 else provision (prov f) (mkModel baseModel "") h in
  mkFleet (Activate lc (mgr f) snap baseModel r).2 p.

Definition fleet_ready (f : fleet) (wid : string) : fleet := mkFleet (lifecycle_ready (mgr f) wid) (prov f).

Definition fleet_failed (f : fleet) (wid : string) (h : answers) : fleet :=
  let m := lifecycle_failed (mgr f) wid in mkFleet m (retire_new (mgr f) m (prov f) h).

(** The steps of a running fleet.  Workers may end on their own, which only
    the provisioner notices; policies may be reloaded. *)
Inductive fleet_step : fleet -> fleet -> Prop :=
| step_reconcile lc snap f id t ps h : fleet_step f (fleet_reconcile lc snap f id t ps h)
| step_activate lc snap f base h : fleet_step f (fleet_activate lc snap f base h)
| step_ready f wid : fleet_step f (fleet_ready f wid)
| step_failed f wid h : fleet_step f (fleet_failed f wid h)
| step_inflight f wid n : fleet_step f (mkFleet (SetInFlight (mgr f) wid n) (prov f))
| step_policies f ps : fleet_step f
    (mkFleet (mkManager ps (hyst (mgr f)) (workers (mgr f)) (desired (mgr f)) (retires (mgr f))) (prov f))
| step_ended f p : tracked p ⊆ tracked (prov f) -> fleet_step f (mkFleet (mgr f) p).

Inductive fleet_reach (f0 : fleet) : fleet -> Prop :=
| reach_start : fleet_reach f0 f0
| reach_step f f' : fleet_reach f0 f -> fleet_step f f' -> fleet_reach f0 f'.

(** ** Lemmas *)

(** The manager knows every worker of the provisioner, under its model. *)
Definition covers (m : Manager) (t : gmap string ModelIdentity) : Prop :=
  forall wid id, t !! wid = Some id ->
    HasPrefix wid "provisioning-" = false /\
    exists w, workers m !! wid = Some w /\ tw_Model w = id /\ tw_State w <> StateRetired.

Lemma covers_set_state m t wid s : s <> StateRetired -> covers m t -> covers (set_state m wid s) t.
Proof.
  intros Hs Hc x id Hx. destruct (Hc x id Hx) as (Hp & w & Hw & Hm & Hst). split; [done|]. unfold set_state.
  destruct (workers m !! wid) as [w0|] eqn:E; [|by exists w]. cbn [set_workers workers].
  destruct (decide (x = wid)) as [->|Hne].
  - rewrite lookup_insert_eq. eexists. split; [done|]. rewrite Hw in E. injection E as <-. done.
  - rewrite lookup_insert_ne by done. by exists w.
Qed.

Lemma covers_inflight m t wid n : covers m t -> covers (SetInFlight m wid n) t.
Proof.
  intros Hc x id Hx. destruct (Hc x id Hx) as (Hp & w & Hw & Hm & Hst). split; [done|]. unfold SetInFlight.
  destruct (workers m !! wid) as [w0|] eqn:E; [|by exists w]. cbn [set_workers workers].
  destruct (decide (x = wid)) as [->|Hne].
  - rewrite lookup_insert_eq. eexists. split; [done|]. rewrite Hw in E. injection E as <-. done.
  - rewrite lookup_insert_ne by done. by exists w.
Qed.

Lemma covers_retired m t wid : covers m t -> covers (set_state m wid StateRetired) (delete wid t).
Proof.
  intros Hc x id [Hne Hx]%lookup_delete_Some. destruct (Hc x id Hx) as (Hp & w & Hw & Hms). split; [done|].
  unfold set_state. destruct (workers m !! wid); [|by exists w]. cbn [set_workers workers].
  rewrite lookup_insert_ne by done. by exists w.
Qed.

Lemma covers_wait ps m t wid : covers m t -> covers (wait_drained ps m wid).2 t.
Proof.
  revert m. induction ps as [|[upd c] ps IH]; intros m Hc; [done|]. cbn [wait_drained].
  set (m1 := match upd with None => m | Some n => SetInFlight m wid n end).
  assert (covers m1 t) by (destruct upd; [by apply covers_inflight|done]). repeat case_if; try done. by apply IH.
Qed.

Lemma retires_wait ps m wid : retires (wait_drained ps m wid).2 = retires m.
Proof.
  revert m. induction ps as [|[upd c] ps IH]; intros m; [done|]. cbn [wait_drained].
  set (m1 := match upd with None => m | Some n => SetInFlight m wid n end).
  assert (retires m1 = retires m) as <- by (destruct upd; [unfold m1, SetInFlight; by case_match|done]).
  repeat case_if; [done..|apply IH].
Qed.

Lemma retires_set_state m wid s : retires (set_state m wid s) = retires m.
Proof. unfold set_state. by case_match. Qed.

Lemma covers_scaleUp m t id r lc :
  covers m t ->
  match r with
  | Ok wid => HasPrefix wid "provisioning-" = false -> covers (scaleUp m id (Ok wid) lc).2 (<[wid := id]> t)
  | Err e => covers (scaleUp m id (Err e) lc).2 t
  end /\ retires (scaleUp m id r lc).2 = retires m.
Proof.
  intros Hc.
  assert (covers (set_workers m (delete (placeholder id)
    (<[placeholder id := mkTracked (placeholder id) id StateProvisioning 0]> (workers m)))) t) as Hc1.
  { intros x y Hx. destruct (Hc x y Hx) as (Hp & w & Hw & Hms). split; [done|]. exists w. split; [|done].
    cbn [set_workers workers]. assert (placeholder id <> x) by (intros <-; unfold placeholder in Hp; by rewrite HasPrefix_app in Hp).
    by rewrite lookup_delete_ne, lookup_insert_ne. }
  destruct r as [wid|e]; [|done]. split.
  - intros Hp. unfold scaleUp. cbn [set_workers workers policies hyst desired retires] in *.
    set (m1 := clear_pending _ id). assert (covers m1 (<[wid := id]> t)) as Hc2.
    { intros x y. rewrite lookup_insert_Some. intros [[<- <-]|[Hne Hx]].
      - split; [done|]. eexists. split; [apply lookup_insert_eq|done].
      - destruct (Hc1 x y Hx) as (Hpx & w & Hw & Hms). split; [done|]. exists w. split; [|done].
        cbn. rewrite lookup_insert_ne by done. exact Hw. }
    destruct lc; [done|]. by apply covers_set_state.
  - unfold scaleUp. destruct lc; cbn; [done|]. by rewrite retires_set_state.
Qed.

(** Draining either retires nobody or retires one worker. *)
Lemma covers_drain m t id ps :
  covers m t ->
  let m' := (drainOne iter m id ps).2 in
  (retires m' = retires m /\ covers m' t) \/
  exists wid, retires m' = (retires m ++ [wid])%list /\ covers m' (delete wid t).
Proof.
  intros Hc. cbn zeta. unfold drainOne. destruct (drain_pick _ id) as [pick|]; [|by left].
  set (m1 := set_state m (tw_ID pick) StateDraining).
  pose proof (covers_wait ps m1 t (tw_ID pick) (covers_set_state _ _ _ StateDraining ltac:(done) Hc)) as Hw.
  pose proof (retires_wait ps m1 (tw_ID pick)) as Hr. destruct (wait_drained ps m1 (tw_ID pick)) as [drained m2].
  unfold m1 in Hr. rewrite retires_set_state in Hr. cbn [snd] in *. destruct drained; [right|left]; cbn [negb snd].
  - exists (tw_ID pick). cbn. rewrite retires_set_state. cbn. split; [by rewrite Hr|].
    apply (covers_retired (log_retire m2 (tw_ID pick)) t (tw_ID pick)). exact Hw.
  - done.
Qed.

Lemma retire_new_same m m' p h : retires m' = retires m -> retire_new m m' p h = p.
Proof. intros E. unfold retire_new. by rewrite E, drop_all. Qed.

Lemma retire_new_one m m' p h wid :
  retires m' = (retires m ++ [wid])%list -> tracked (retire_new m m' p h) = delete wid (tracked p).
Proof. intros E. unfold retire_new. rewrite E, drop_app_length. apply retire_untracks. Qed.

Lemma scales_up_wish snap m id t r ps :
  hstep (hyst m) = 1 ->
  scales_up snap m id t = (readyCount m snap id + provisioningCount m id <? wish snap m id (mkInputs t r ps)).
Proof.
  intros Hs. unfold scales_up. set (want := clamp _ _ _).
  pose proof (Apply_decision (hyst m) (Key id) want (readyCount m snap id) (PolicyGet (policies m) id) t Hs) as Hd.
  destruct (Apply _ _ _ _ _ _) as [out h]. cbn [fst] in Hd. by subst out.
Qed.

Lemma covers_step f f' : covers (mgr f) (tracked (prov f)) -> fleet_step f f' -> covers (mgr f') (tracked (prov f')).
Proof.
  intros Hc. destruct 1 as [lc snap f id t ps h|lc snap f base h|f wid|f wid h|f wid n|f ps|f p Hsub]; cbn [mgr prov].
  - unfold fleet_reconcile, scales_up, reconcile. cbn [now provisioned drain_polls].
    destruct (Apply (hyst (mgr f)) (Key id) _ _ _ t) as [want hy].
    set (m1 := set_desired (set_hyst (mgr f) hy) (Key id) want). assert (covers m1 (tracked (prov f))) as Hc1 by exact Hc.
    destruct (_ <? want).
    + destruct (provision (prov f) id h) as [r p] eqn:E. cbn [mgr prov].
      destruct (covers_scaleUp m1 (tracked (prov f)) id r lc Hc1) as [Hs Hr].
      rewrite retire_new_same by exact Hr. destruct r as [wid|e].
      * rewrite (provision_ok _ _ _ _ _ E). apply Hs. by eapply provision_named.
      * by rewrite (provision_err _ _ _ _ _ E).
    + destruct (want <? _); cbn [mgr prov].
      * destruct (covers_drain m1 (tracked (prov f)) id ps Hc1) as [[Hr Hd]|(wid & Hr & Hd)].
        -- rewrite retire_new_same by exact Hr. exact Hd.
        -- rewrite (retire_new_one _ _ _ _ wid) by exact Hr. exact Hd.
      * rewrite retire_new_same by done. exact Hc1.
  - unfold fleet_activate, Activate. destruct (0 <? _); [exact Hc|].
    destruct (provision (prov f) _ h) as [r p] eqn:E. cbn [mgr prov].
    destruct (covers_scaleUp (mgr f) (tracked (prov f)) (mkModel base "") r lc Hc) as [Hs _]. destruct r as [wid|e].
    + rewrite (provision_ok _ _ _ _ _ E). apply Hs. by eapply provision_named.
    + by rewrite (provision_err _ _ _ _ _ E).
  - apply covers_set_state; [done|]. by apply covers_set_state.
  - unfold fleet_failed. cbn [mgr prov].
    rewrite (retire_new_one _ _ _ _ wid) by (unfold lifecycle_failed; by rewrite retires_set_state).
    by apply (covers_retired (log_retire (mgr f) wid)).
  - by apply covers_inflight.
  - exact Hc.
  - intros wid id Hw. apply Hc. by eapply lookup_weaken.
Qed.

(** ** Properties *)

(** C8: no worker escapes the manager: in every state a fleet can reach, with
    any provisioner that keeps the interface's promises, every worker the
    provisioner has handed out and not taken back is tracked by the manager
    under the model it was provisioned for and is not counted as retired,
    through failures, drains and workers that end on their own. *)
Theorem fleet_accounts_for_workers f0 f :
  tracked (prov f0) = ∅ -> fleet_reach f0 f ->
  forall wid id, tracked (prov f) !! wid = Some id ->
    exists w, workers (mgr f) !! wid = Some w /\ tw_Model w = id /\ tw_State w <> StateRetired.
Proof.
  intros H0 Hr. assert (covers (mgr f) (tracked (prov f))) as Hc.
  { induction Hr as [|f f' _ IH Hs]; [|by eapply covers_step]. intros wid id. by rewrite H0, lookup_empty. }
  intros wid id Hw. by destruct (Hc wid id Hw) as [_ ?].
Qed.

(** A worker that ends on its own is not replaced: the manager goes on
    counting it as ready, so a fleet at its goal provisions nobody. *)
Theorem ended_worker_not_replaced snap id ids f p t ps h lc :
  quiet snap id ids (mgr f) -> sane (PolicyGet (policies (mgr f)) id) ->
  readyCount (mgr f) snap id = goal snap (PolicyGet (policies (mgr f)) id) id ->
  tracked p = ∅ ->
  let f' := fleet_reconcile lc snap (mkFleet (mgr f) p) id t ps h in
  workers (mgr f') = workers (mgr f) /\ tracked (prov f') = ∅.
Proof.
  intros Hq Hs Hg Hp. cbn zeta.
  assert (forall r, readyCount (mgr f) snap id + provisioningCount (mgr f) id <? wish snap (mgr f) id (mkInputs t r ps) = false) as Hn.
  { intros r. rewrite (quiet_wish_goal _ _ _ _ _ Hq Hs Hg), (q_idle _ _ _ _ Hq), Z.add_0_r. apply Z.ltb_irrefl. }
  unfold fleet_reconcile. cbn [mgr prov].
  rewrite (scales_up_wish snap (mgr f) id t (Err (ENew "not called")) ps (q_step _ _ _ _ Hq)), Hn.
  cbn [mgr prov]. split; [by eapply quiet_stable|]. rewrite retire_new_same; [done|].
  destruct (reconcile_unfold iter lc snap (mgr f) id (mkInputs t (Err (ENew "not called")) ps) (q_step _ _ _ _ Hq)) as (hy & _ & ->).
  rewrite Hn, (quiet_wish_goal _ _ _ _ _ Hq Hs Hg), Z.ltb_irrefl. done.
Qed.
End Fleet.

(** *** The local provisioner under the manager *)

(** The operating system grants a new process all it asks for. *)
Definition grants (cfg : LocalProvisioner.LocalProcessConfig) (h : LocalProvisioner.host) : bool :=
  is_ok (LocalProvisioner.freePortNear (LocalProvisioner.listen h) (LocalProvisioner.BaseGRPCPort cfg))
  && is_ok (LocalProvisioner.worker_binary h (LocalProvisioner.Binary cfg)) && is_ok (LocalProvisioner.Start h).

Definition next_id (p : LocalProvisioner.LocalProcess) (id : ModelIdentity) : string :=
  LocalProvisioner.local_id id (wrap_i64 (LocalProvisioner.next p + 1)).

(** A round of the loop as the control plane runs it, with a lifecycle: the
    worker it starts is not ready yet. *)
Definition local_round (iter : gmap string trackedWorker -> list trackedWorker) (snap : option RoutingSnapshot)
    (id : ModelIdentity) (f : fleet) (i : Z * polls * local_answers) : fleet :=
  fleet_reconcile iter true snap f id i.1.1 i.1.2 i.2.

(** Some rounds, the first of which starts a worker, and then the lifecycle's
    report that this worker is ready. *)
Definition local_cycle (iter : gmap string trackedWorker -> list trackedWorker) (snap : option RoutingSnapshot)
    (id : ModelIdentity) (f : fleet) (c : (Z * polls * local_answers) * list (Z * polls * local_answers)) : fleet :=
  fleet_ready (foldl (local_round iter snap id) f (c.1 :: c.2)) (next_id (prov f) id).

(** A worker the provisioner has recorded for the model, with a process of its
    own. *)
Definition has_process (p : LocalProvisioner.LocalProcess) (id : ModelIdentity) (wid : string) : Prop :=
  exists pr, LocalProvisioner.active p !! wid = Some pr /\ LocalProvisioner.lp_model pr = id /\ is_Some (LocalProvisioner.lp_cmd pr).

Lemma local_provision_grants p id h :
  LocalProvisioner.TrackOnly (LocalProvisioner.lcfg p) = false -> grants (LocalProvisioner.lcfg p) (local_host h) = true ->
  exists p' pr, local_provision p id h = (Ok (next_id p id), p') /\
    LocalProvisioner.next p' = wrap_i64 (LocalProvisioner.next p + 1) /\ LocalProvisioner.lcfg p' = LocalProvisioner.lcfg p /\
    LocalProvisioner.active p' = <[next_id p id := pr]> (LocalProvisioner.active p) /\
    LocalProvisioner.lp_model pr = id /\ is_Some (LocalProvisioner.lp_cmd pr).
Proof.
  intros Ht Hg. unfold local_provision, LocalProvisioner.Provision, next_id. cbn [LocalProvisioner.take_number].
  set (n := wrap_i64 _). unfold LocalProvisioner.finish. cbn [LocalProvisioner.lcfg]. unfold grants in Hg. rewrite Ht.
  apply andb_true_iff in Hg as [[Hp Hb]%andb_true_iff Hs].
  destruct (LocalProvisioner.freePortNear _ _) as [port|]; [|done].
  destruct (LocalProvisioner.worker_binary _ _) as [bin|]; [|done].
  destruct (LocalProvisioner.Start _) as [pid|]; [|done].
  eexists _, _. split; [reflexivity|]. split; [done|]. split; [done|]. split; [done|]. by split.
Qed.

Lemma set_state_twice m wid s : set_state (set_state m wid s) wid s = set_state m wid s.
Proof.
  unfold set_state. destruct (workers m !! wid) as [w|] eqn:E; [|by rewrite E]. cbn [set_workers workers].
  rewrite lookup_insert_eq. cbn. by rewrite insert_insert_eq.
Qed.

(** A worker that the lifecycle finds ready ends up as one that was ready at
    once. *)
Lemma lifecycle_settles m id wid :
  lifecycle_ready (scaleUp m id (Ok wid) true).2 wid = (scaleUp m id (Ok wid) false).2.
Proof. unfold lifecycle_ready, scaleUp. cbn [snd]. apply set_state_twice. Qed.

(** The ids of the next [n] workers. *)
Fixpoint next_ids (k : Z) (n : nat) (id : ModelIdentity) : list string :=
  match n with O => [] | S n => LocalProvisioner.local_id id (k + 1) :: next_ids (k + 1) n id end.

Lemma elem_of_next_ids k n id x :
  x ∈ next_ids k n id -> exists j, k < j <= k + Z.of_nat n /\ x = LocalProvisioner.local_id id j.
Proof.
  revert k. induction n as [|n IH]; intros k; [by intros ?%elem_of_nil|]. cbn [next_ids].
  intros [->|(j & ? & ->)%IH]%elem_of_cons; [exists (k + 1); split; [lia|done]|exists j; split; [lia|done]].
Qed.

Lemma next_ids_nodup k n id : 0 <= k -> NoDup (next_ids k n id).
Proof.
  revert k. induction n as [|n IH]; intros k Hk; [constructor|]. cbn [next_ids]. apply list.NoDup_cons. split; [|apply IH; lia].
  intros (j & Hj & E)%elem_of_next_ids. apply LocalProvisioner.local_id_inj in E; lia.
Qed.

(** A worker has been started and is not ready: with it the fleet would be
    quiet, and has one worker more. *)
Record awaiting (snap : option RoutingSnapshot) (id : ModelIdentity) (wid : string) (ids : list string) (m : Manager) : Prop := {
  aw_quiet : quiet snap id ids (lifecycle_ready m wid);
  aw_ready : readyCount (lifecycle_ready m wid) snap id = readyCount m snap id + 1;
  aw_one : provisioningCount m id = 1;
  aw_calm : pending (default new_state (hby (hyst m) !! Key id)) = false;
  aw_step : hstep (hyst m) = 1
}.

Lemma set_state_hyst m wid s : hyst (set_state m wid s) = hyst m.
Proof. unfold set_state. by case_match. Qed.

Lemma lifecycle_ready_policies m wid : policies (lifecycle_ready m wid) = policies m.
Proof. unfold lifecycle_ready. by rewrite !(proj2 (wishes_set_state _ _ _)). Qed.

Lemma lifecycle_ready_workers m m' wid : workers m' = workers m -> workers (lifecycle_ready m' wid) = workers (lifecycle_ready m wid).
Proof.
  intros E. unfold lifecycle_ready. rewrite !set_state_twice. unfold set_state. rewrite E. by destruct (workers m !! wid).
Qed.

(** A round that finds a worker missing and none on its way starts one. *)
Lemma local_round_starts iter snap id ids f i :
  let p := prov f in let m := mgr f in
  quiet snap id (next_id p id :: ids) m -> sane (PolicyGet (policies m) id) ->
  readyCount m snap id < goal snap (PolicyGet (policies m) id) id ->
  LocalProvisioner.TrackOnly (LocalProvisioner.lcfg p) = false -> grants (LocalProvisioner.lcfg p) (local_host i.2) = true ->
  exists f' pr, local_round iter snap id f i = f' /\
  awaiting snap id (next_id p id) ids (mgr f') /\ readyCount (mgr f') snap id = readyCount m snap id /\ policies (mgr f') = policies m /\
  LocalProvisioner.next (prov f') = wrap_i64 (LocalProvisioner.next p + 1) /\
  LocalProvisioner.lcfg (prov f') = LocalProvisioner.lcfg p /\
  LocalProvisioner.active (prov f') = <[next_id p id := pr]> (LocalProvisioner.active p) /\
  LocalProvisioner.lp_model pr = id /\ is_Some (LocalProvisioner.lp_cmd pr).
Proof.
  destruct i as [[t ps] h]. cbn zeta. cbn [fst snd]. intros Hq Hs Hlt Ht Hg.
  destruct (local_provision_grants (prov f) id h Ht Hg) as (p' & pr & Ep & Hn & Hc & Ha & Hm & Hcmd). eexists _, pr. split; [reflexivity|].
  set (wid := next_id (prov f) id) in *. set (inp := mkInputs t (Ok wid) ps).
  assert (readyCount (mgr f) snap id + provisioningCount (mgr f) id <? wish snap (mgr f) id inp = true) as Hup.
  { rewrite (quiet_wish_up _ _ _ _ _ Hq Hs Hlt), (q_idle _ _ _ _ Hq). apply Z.ltb_lt. lia. }
  destruct (quiet_step iter snap id wid ids (mgr f) inp Hq eq_refl Hs Hlt) as (Hq' & Hr' & Hp').
  unfold local_round, fleet_reconcile. cbn [fst snd].
  rewrite (scales_up_wish snap (mgr f) id t (Ok wid) ps (q_step _ _ _ _ Hq)). fold inp. rewrite Hup.
  cbn [provision local_provisioner]. rewrite Ep. fold inp. cbn [mgr prov].
  assert (exists hy want, hstep hy = 1 /\ forall lc, (reconcile iter lc snap (mgr f) id inp).2 =
    (scaleUp (set_desired (set_hyst (mgr f) hy) (Key id) want) id (Ok wid) lc).2) as (hy & want & Hhy & Hrec).
  { pose proof (scales_up_wish snap (mgr f) id t (Ok wid) ps (q_step _ _ _ _ Hq)) as Hsc. fold inp in Hsc. rewrite Hup in Hsc.
    pose proof (fun w => Apply_step (hyst (mgr f)) (Key id) w (readyCount (mgr f) snap id) (PolicyGet (policies (mgr f)) id) t) as Hst.
    unfold reconcile, scales_up in *. cbn [now provisioned inp]. set (w0 := clamp _ _ _) in *. specialize (Hst w0).
    destruct (Apply _ _ _ _ _ t) as [want hy]. exists hy, want. cbn [snd] in Hst. split; [by rewrite Hst, (q_step _ _ _ _ Hq)|].
    intros lc. by rewrite Hsc. }
  rewrite (Hrec false) in Hq', Hr', Hp'. rewrite (Hrec true). set (m1 := set_desired (set_hyst (mgr f) hy) (Key id) want) in *.
  destruct (q_fresh _ _ _ _ Hq wid) as (Hnew & Hne & Hns); [set_solver|].
  assert (workers (scaleUp m1 id (Ok wid) true).2 = <[wid := mkTracked wid id StateProvisioning 0]> (workers (mgr f))) as Hws.
  { rewrite scaleUp_workers. cbn [m1 set_desired set_hyst workers]. by rewrite delete_id by apply (q_slot _ _ _ _ Hq). }
  assert (readyCount (scaleUp m1 id (Ok wid) true).2 snap id = readyCount (mgr f) snap id) as Hrc.
  { unfold readyCount. by rewrite (tracked_ready_provisioning (mgr f) id wid _ Hnew Hws). }
  split; [split|].
  - by rewrite lifecycle_settles.
  - by rewrite lifecycle_settles, Hr', Hrc.
  - change (tally (tracked_in StateProvisioning id) (workers (scaleUp m1 id (Ok wid) true).2) = 1). rewrite Hws, tally_fresh by done.
    change (tally (tracked_in StateProvisioning id) (workers (mgr f))) with (provisioningCount (mgr f) id). rewrite (q_idle _ _ _ _ Hq).
    unfold tracked_in. cbn [tw_State tw_Model]. by rewrite String.eqb_refl, bool_decide_eq_true_2.
  - rewrite scaleUp_hyst. apply ClearPending_pending.
  - rewrite scaleUp_hyst, ClearPending_step. exact Hhy.
  - split; [exact Hrc|]. rewrite retire_new_same by (unfold scaleUp; reflexivity). split_and!; try done.
Qed.

(** While a worker is on its way, a round changes no worker and starts none. *)
Lemma local_round_waits iter snap id wid ids f i :
  awaiting snap id wid ids (mgr f) -> sane (PolicyGet (policies (mgr f)) id) ->
  readyCount (mgr f) snap id < goal snap (PolicyGet (policies (mgr f)) id) id ->
  let f' := local_round iter snap id f i in
  awaiting snap id wid ids (mgr f') /\ readyCount (mgr f') snap id = readyCount (mgr f) snap id /\
  policies (mgr f') = policies (mgr f) /\ prov f' = prov f.
Proof.
  destruct i as [[t ps] h]. cbn zeta. intros [Hq Hr H1 Hc Hst] Hs Hlt.
  unfold local_round, fleet_reconcile. cbn [fst snd].
  assert (forall r, wish snap (mgr f) id (mkInputs t r ps) = readyCount (mgr f) snap id + 1) as Hw.
  { intros r. unfold wish, decision. cbn zeta. rewrite Hc, raw_towards_goal by (done || lia). by rewrite (proj2 (Z.ltb_lt _ _)) by lia. }
  rewrite (scales_up_wish snap (mgr f) id t (Err (ENew "not called")) ps Hst), Hw, H1, Z.ltb_irrefl. cbn [mgr prov].
  destruct (reconcile_unfold iter true snap (mgr f) id (mkInputs t (Err (ENew "not called")) ps) Hst) as (hy & Hhy & ->).
  rewrite Hw, H1, Z.ltb_irrefl, (proj2 (Z.ltb_ge _ _)) by lia. cbn [snd].
  set (m' := clear_pending _ id).
  assert (workers m' = workers (mgr f)) as Ew by done. pose proof (lifecycle_ready_workers _ _ wid Ew) as El.
  assert (readyCount (lifecycle_ready m' wid) snap id = readyCount (lifecycle_ready (mgr f) wid) snap id) as Er
    by (unfold readyCount, tracked_ready; by rewrite El).
  split; [|split_and!; [done|done|by rewrite retire_new_same]]. split.
  - destruct Hq as [Q1 Q2 Q3 Q4 Q5 Q6 Q7]. split; unfold wf, provisioningCount; rewrite ?El; try done.
    + unfold lifecycle_ready. rewrite !set_state_hyst. cbn [m' clear_pending set_hyst hyst]. by rewrite ClearPending_step.
    + unfold lifecycle_ready. rewrite !set_state_hyst. cbn [m' clear_pending set_hyst hyst]. apply ClearPending_pending.
  - by rewrite Er, Hr.
  - exact H1.
  - apply ClearPending_pending.
  - cbn. by rewrite ClearPending_step.
Qed.

Lemma local_rounds_wait iter snap id wid ids rs : forall f,
  awaiting snap id wid ids (mgr f) -> sane (PolicyGet (policies (mgr f)) id) ->
  readyCount (mgr f) snap id < goal snap (PolicyGet (policies (mgr f)) id) id ->
  let f' := foldl (local_round iter snap id) f rs in
  awaiting snap id wid ids (mgr f') /\ readyCount (mgr f') snap id = readyCount (mgr f) snap id /\
  policies (mgr f') = policies (mgr f) /\ prov f' = prov f.
Proof.
  induction rs as [|i rs IH]; intros f Ha Hs Hlt; [done|]. cbn [foldl].
  destruct (local_round_waits iter snap id wid ids f i Ha Hs Hlt) as (Ha1 & Hr1 & Hp1 & Hv1).
  specialize (IH (local_round iter snap id f i)). rewrite Hr1, Hp1, Hv1 in IH. by apply IH.
Qed.

Lemma local_cycle_step iter snap id ids f c :
  let p := prov f in let m := mgr f in
  quiet snap id (next_id p id :: ids) m -> sane (PolicyGet (policies m) id) ->
  readyCount m snap id < goal snap (PolicyGet (policies m) id) id ->
  LocalProvisioner.TrackOnly (LocalProvisioner.lcfg p) = false -> grants (LocalProvisioner.lcfg p) (local_host c.1.2) = true ->
  exists f' pr, local_cycle iter snap id f c = f' /\
  quiet snap id ids (mgr f') /\ readyCount (mgr f') snap id = readyCount m snap id + 1 /\ policies (mgr f') = policies m /\
  LocalProvisioner.next (prov f') = wrap_i64 (LocalProvisioner.next p + 1) /\
  LocalProvisioner.lcfg (prov f') = LocalProvisioner.lcfg p /\
  LocalProvisioner.active (prov f') = <[next_id p id := pr]> (LocalProvisioner.active p) /\
  LocalProvisioner.lp_model pr = id /\ is_Some (LocalProvisioner.lp_cmd pr).
Proof.
  destruct c as [i rs]. cbn zeta. cbn [fst snd]. intros Hq Hs Hlt Ht Hg.
  destruct (local_round_starts iter snap id ids f i Hq Hs Hlt Ht Hg) as (f1 & pr & E1 & Ha & Hr & Hp & Hrest).
  exists (local_cycle iter snap id f (i, rs)), pr. split; [reflexivity|]. unfold local_cycle. cbn [fst snd foldl]. rewrite E1.
  destruct (local_rounds_wait iter snap id _ ids rs f1 Ha) as (Ha2 & Hr2 & Hp2 & Hv2); [by rewrite Hp|by rewrite Hp, Hr|].
  cbn [fleet_ready mgr prov]. rewrite Hv2. split; [apply Ha2|]. split; [rewrite (aw_ready _ _ _ _ _ Ha2); lia|].
  split; [by rewrite lifecycle_ready_policies, Hp2|done].
Qed.

(** At the goal a round changes nothing but what it remembers. *)
Lemma local_round_stable iter snap id f i :
  quiet snap id [] (mgr f) -> sane (PolicyGet (policies (mgr f)) id) ->
  readyCount (mgr f) snap id = goal snap (PolicyGet (policies (mgr f)) id) id ->
  let f' := local_round iter snap id f i in
  quiet snap id [] (mgr f') /\ workers (mgr f') = workers (mgr f) /\ policies (mgr f') = policies (mgr f) /\ prov f' = prov f.
Proof.
  destruct i as [[t ps] h]. cbn zeta. intros Hq Hs Hg. pose proof (q_step _ _ _ _ Hq) as Hst.
  pose proof (fun r => quiet_wish_goal snap id [] (mgr f) (mkInputs t r ps) Hq Hs Hg) as Hw.
  unfold local_round, fleet_reconcile. cbn [fst snd].
  rewrite (scales_up_wish snap (mgr f) id t (Err (ENew "not called")) ps Hst), Hw, (q_idle _ _ _ _ Hq), Z.add_0_r, Z.ltb_irrefl. cbn [mgr prov].
  destruct (reconcile_unfold iter true snap (mgr f) id (mkInputs t (Err (ENew "not called")) ps) Hst) as (hy & Hhy & ->).
  rewrite Hw, (q_idle _ _ _ _ Hq), Z.add_0_r, Z.ltb_irrefl. cbn [snd].
  split; [|split_and!; [done|done|by rewrite retire_new_same]]. destruct Hq as [Q1 Q2 Q3 Q4 Q5 Q6 Q7]. split; try done.
  - cbn. by rewrite ClearPending_step.
  - apply ClearPending_pending.
Qed.

Lemma local_rounds_stable iter snap id rs : forall f,
  quiet snap id [] (mgr f) -> sane (PolicyGet (policies (mgr f)) id) ->
  readyCount (mgr f) snap id = goal snap (PolicyGet (policies (mgr f)) id) id ->
  let f' := foldl (local_round iter snap id) f rs in workers (mgr f') = workers (mgr f) /\ prov f' = prov f.
Proof.
  induction rs as [|i rs IH]; intros f Hq Hs Hg; [done|]. cbn [foldl].
  destruct (local_round_stable iter snap id f i Hq Hs Hg) as (Hq1 & Hw1 & Hp1 & Hv1).
  destruct (IH (local_round iter snap id f i)) as [Hw2 Hv2]; [done|by rewrite Hp1| |split; [by rewrite Hw2|by rewrite Hv2]].
  rewrite Hp1, <- Hg. unfold readyCount, tracked_ready. by rewrite Hw1.
Qed.

(** The cycles of the property. *)
Lemma local_cycles iter snap id cs : forall m p,
  quiet snap id (next_ids (LocalProvisioner.next p) (length cs) id) m -> sane (PolicyGet (policies m) id) ->
  LocalProvisioner.TrackOnly (LocalProvisioner.lcfg p) = false ->
  Forall (fun c => grants (LocalProvisioner.lcfg p) (local_host c.1.2) = true) cs ->
  0 <= LocalProvisioner.next p -> LocalProvisioner.next p + Z.of_nat (length cs) < two63 ->
  readyCount m snap id + Z.of_nat (length cs) = goal snap (PolicyGet (policies m) id) id ->
  let f := foldl (local_cycle iter snap id) (mkFleet m p) cs in
  let started := next_ids (LocalProvisioner.next p) (length cs) id in
  quiet snap id [] (mgr f) /\ readyCount (mgr f) snap id = goal snap (PolicyGet (policies m) id) id /\ policies (mgr f) = policies m /\
  Forall (has_process (prov f) id) started /\
  (forall wid, wid ∉ started -> LocalProvisioner.active (prov f) !! wid = LocalProvisioner.active p !! wid).
Proof.
  cbn zeta. induction cs as [|c cs IH]; intros m p Hq Hs Ht Hg H0 Hb Hr.
  - cbn in *. split_and!; [done|lia|done|constructor|done].
  - cbn [length next_ids] in *. apply list.Forall_cons in Hg as [Hgc Hg].
    assert (wrap_i64 (LocalProvisioner.next p + 1) = LocalProvisioner.next p + 1) as Hw
      by (apply wrap_i64_id; unfold in_i64; lia).
    destruct (local_cycle_step iter snap id (next_ids (LocalProvisioner.next p + 1) (length cs) id) (mkFleet m p) c)
      as ([m1 p1] & pr & E1 & Hq1 & Hr1 & Hp1 & Hn1 & Hc1 & Ha1 & Hm1 & Hcmd); cbn [mgr prov] in *; [by unfold next_id; rewrite Hw|done|lia|done|done|].
    cbn [foldl]. rewrite E1. rewrite Hw in Hn1. specialize (IH m1 p1). rewrite Hn1, Hp1, Hc1, Hr1 in IH.
    destruct IH as (IH1 & IH2 & IH3 & IH4 & IH5); [done|done|done|done|lia|lia|lia|]. unfold next_id in Ha1. rewrite Hw in Ha1.
    set (w := LocalProvisioner.local_id id (LocalProvisioner.next p + 1)) in *.
    assert (w ∉ next_ids (LocalProvisioner.next p + 1) (length cs) id) as Hnin.
    { intros (j & Hj & E)%elem_of_next_ids. apply LocalProvisioner.local_id_inj in E; lia. }
    split_and!; [done|done|done| |].
    + apply list.Forall_cons. split; [|done]. exists pr. by rewrite (IH5 w Hnin), Ha1, lookup_insert_eq.
    + intros x [Hx1 Hx2]%not_elem_of_cons. rewrite (IH5 x Hx2), Ha1. by rewrite lookup_insert_ne.
Qed.

(** C30: the control plane with local workers meets its demand: from a model
    with nothing under way and no local worker, with the load and a sane policy
    unchanged, on a machine that can start processes and a provisioner that is
    not set to track only and whose numbers do not reach 2^63, and as long as every worker that is started is in
    the end found ready, however many rounds of the loop pass until it is:
    rounds that find a worker on its way start no other; when as many workers
    as were missing have been started and found ready, the ready workers are
    the number the policy asks for, each of the missing ones has a process of
    its own, all under different names, and nothing else has been started; and
    any further rounds change neither the workers nor the processes. *)
Theorem local_fleet_converges iter snap id m p cs after :
  let n := length cs in let pol := PolicyGet (policies m) id in
  quiet snap id [] m -> sane pol ->
  (forall wid, HasPrefix wid "local-" = true -> workers m !! wid = None /\ wid ∉ snapshot_ready snap id) ->
  LocalProvisioner.TrackOnly (LocalProvisioner.lcfg p) = false ->
  Forall (fun c => grants (LocalProvisioner.lcfg p) (local_host c.1.2) = true) cs ->
  0 <= LocalProvisioner.next p -> LocalProvisioner.next p + Z.of_nat n < two63 ->
  readyCount m snap id + Z.of_nat n = goal snap pol id ->
  let f := foldl (local_cycle iter snap id) (mkFleet m p) cs in
  let started := next_ids (LocalProvisioner.next p) n id in
  readyCount (mgr f) snap id = goal snap pol id /\ NoDup started /\ Forall (has_process (prov f) id) started /\
  (forall wid, wid ∉ started -> LocalProvisioner.active (prov f) !! wid = LocalProvisioner.active p !! wid) /\
  let f' := foldl (local_round iter snap id) f after in
  workers (mgr f') = workers (mgr f) /\ prov f' = prov f.
Proof.
  cbn zeta. intros Hq Hs Hl Ht Hg H0 Hb Hr.
  assert (quiet snap id (next_ids (LocalProvisioner.next p) (length cs) id) m) as Hq'.
  { destruct Hq as [? ? ? ? ? ? _]. split; [done..|by apply next_ids_nodup|].
    intros x (j & _ & ->)%elem_of_next_ids. destruct (Hl (LocalProvisioner.local_id id j)) as [? ?].
    { apply LocalProvisioner.local_id_prefix. }
    split; [done|]. split; [|done]. intros E. apply (f_equal (fun s => HasPrefix s "local-")) in E.
    rewrite LocalProvisioner.local_id_prefix in E. discriminate E. }
  destruct (local_cycles iter snap id cs m p Hq' Hs Ht Hg H0 Hb Hr) as (Hqf & Hrf & Hpf & Hproc & Hact).
  split; [done|]. split; [by apply next_ids_nodup|]. split; [done|]. split; [done|].
  apply (local_rounds_stable iter snap id after); [done|by rewrite Hpf|by rewrite Hpf].
Qed.

(** *** Witnesses *)

Definition linux : LocalProvisioner.host :=
  LocalProvisioner.mkHost (fun p => 50100 <? p) (fun b => Ok ("/usr/bin/" ++ b)) (fun b => Err (ENew "no cwd")) [] (Ok 4242).

Definition local0 : LocalProvisioner.LocalProcess := LocalProvisioner.NewLocalProcess (fun _ => "") (fun _ => false).

Definition round_at (t : Z) : Z * polls * local_answers := (t, [], mkLocalAnswers linux true).

(** The first worker takes two more rounds to become ready. *)
Definition cycles2 := [(round_at 0, [round_at 1000; round_at 2000]); (round_at 3000, [])].

Definition wanting : Manager := NewManager (<["qwen" := wants_two]> ∅).

Definition fleet1 : fleet := fleet_reconcile values true loaded (mkFleet wanting local0) qwen 0 [] (mkLocalAnswers linux true).

Lemma fleet_accounts_for_workers_witness :
  exists w, workers (mgr fleet1) !! "local-qwen-1" = Some w /\ tw_Model w = qwen /\ tw_State w <> StateRetired.
Proof.
  apply (fleet_accounts_for_workers values (mkFleet wanting local0) fleet1).
  - vm_compute. reflexivity.
  - eapply reach_step; [apply reach_start|]. apply (step_reconcile values true loaded (mkFleet wanting local0)).
  - vm_compute. reflexivity.
Defined.

Lemma local_fleet_converges_witness :
  readyCount (mgr (foldl (local_cycle values loaded qwen) (mkFleet wanting local0) cycles2)) loaded qwen =
  goal loaded (PolicyGet (policies wanting) qwen) qwen.
Proof.
  apply (local_fleet_converges values loaded qwen wanting local0 cycles2 []).
  - split; try reflexivity.
    + intros k w. cbn. rewrite lookup_empty. discriminate.
    + constructor.
    + intros x Hx. apply elem_of_nil in Hx. destruct Hx.
  - left. vm_compute. discriminate.
  - intros wid Hw. split; [apply lookup_empty|].
    assert (snapshot_ready loaded qwen = {["w1"]}) as -> by (vm_compute; reflexivity).
    rewrite elem_of_singleton. intros ->. discriminate Hw.
  - reflexivity.
  - repeat constructor.
  - vm_compute. discriminate.
  - vm_compute. reflexivity.
  - vm_compute. reflexivity.
Defined.

Definition two_up : Manager := (foldl (local_cycle values loaded qwen) (mkFleet wanting local0) cycles2).(mgr).

(** The same fleet after both processes have died, and one more round. *)
Definition crashed : fleet := mkFleet two_up local0.
Definition after_crash : fleet := fleet_reconcile values true loaded (mkFleet (mgr crashed) local0) qwen 2000 [] (mkLocalAnswers linux true).

Lemma ended_worker_not_replaced_witness : tracked (prov after_crash) = ∅.
Proof.
  destruct (@ended_worker_not_replaced _ local_provisioner values loaded qwen [] crashed local0 2000 [] (mkLocalAnswers linux true) true)
    as [_ Hr].
  - split; try (vm_compute; reflexivity).
    + intros k w. change (workers (mgr crashed)) with (workers two_up).
      intros Hk. apply elem_of_map_to_list in Hk. vm_compute in Hk.
      repeat (apply elem_of_cons in Hk as [Hk|Hk]; [by injection Hk as -> ->|]). by apply elem_of_nil in Hk.
    + constructor.
    + intros x Hx. apply elem_of_nil in Hx. destruct Hx.
  - left. vm_compute. discriminate.
  - vm_compute. reflexivity.
  - vm_compute. reflexivity.
  - unfold after_crash. exact Hr.
Defined.
