(* ===== verification/WorkerProgram.v ===== *)
(** * The worker program (cmd/forge-worker/main.go)

    What the program does with its configuration: the adapter of its runtime,
    its registration, its heartbeats and the refreshing of their content.  The
    file ends with the path of a worker the local provisioner has started, from
    the environment of its process to the readiness the fleet manager waits
    for. *)

From Stdlib Require Import Ascii.
From S2P Require Import Prelude Float64 GoStrings GoFormat Json Strconv JsonFloat Errors Health HeartbeatWriter Routing WorkerRegistry Config.
From S2P Require Import FleetScaling FleetLifecycle LocalProvisioner.

(** ** The environment of a process *)

(** os/exec passes on the last of several entries with one name. *)
Fixpoint dedupEnv (env : list string) : list string :=
  match env with
  | [] => []
  | e :: rest =>
      if String.eqb e "" then dedupEnv rest
      else if existsb (fun e' => String.eqb (split_var e').1 (split_var e).1) rest then dedupEnv rest
      else e :: dedupEnv rest
  end.

Section Worker.
Context `{UnicodeTables} {K : Type} `{Koanf K}.

(** ** Adapters *)

Inductive RuntimeAdapter : Type :=
| VLLMAdapter (BaseURL ServedModel ForgeModel : string)
| OllamaAdapter (BaseURL KeepAlive : string).

Definition buildAdapter (cfg : K) : result error (RuntimeAdapter * string) :=
  let kind := ToUpper (k_String cfg "worker.runtime") in
  if Contains kind "VLLM" then
    let served := k_String cfg "vllm.served.model" in
    let served := if String.eqb served "" then k_String cfg "worker.model.base" else served in
    Ok (VLLMAdapter (k_String cfg "vllm.url") served (k_String cfg "worker.model.base"), "vllm")
  else if Contains kind "OLLAMA" || String.eqb kind "" || Contains kind "UNSPECIFIED" then
    Ok (OllamaAdapter (k_String cfg "ollama.url") (k_String cfg "ollama.keep.alive"), "ollama")
  else Err (ENew ("unsupported worker.runtime " ++ k_String cfg "worker.runtime")).

(** Whether the first heartbeat says ready: the adapter's answer, unless the
    environment overrides it. *)
Definition initial_ready (cfg : K) (getenv : string -> string) (probe : bool) : bool :=
  if negb (String.eqb (getenv "FORGE_WORKER_READY") "") then k_Bool cfg "worker.ready" else probe.

(** One tick of [refreshReady]. *)
Definition refreshReady (getenv : string -> string) (probe : bool) (hb : HeartbeatWriter) : HeartbeatWriter :=
  if negb (String.eqb (getenv "FORGE_WORKER_READY") "") then hb else SetReady hb probe.

(** ** Registration *)

(** [m[k] = v], if the key is absent *)
Definition set_missing (m : gmap string string) (k v : string) : gmap string string :=
  match m !! k with Some _ => m | None => <[k := v]> m end.

Definition worker_capabilities (cfg : K) : gmap string string :=
  let caps := k_StringMap cfg "worker.capabilities" in
  let costHr := k_Float64 cfg "worker.cost.per.hour" in
  let caps := <["cost_per_hour" := FormatFloat costHr]> caps in
  let class := k_String cfg "worker.cost.class" in
  let class := if String.eqb class "" then (if fltb f_zero costHr then "paid" else "free") else class in
  let caps := <["cost_class" := class]> caps in
  let caps := set_missing caps "runtime" (RuntimeLabel (k_String cfg "worker.runtime")) in
  set_missing caps "max_model_len" (Itoa (k_Int cfg "worker.model.context")).

Definition register_request (cfg : K) : RegisterRequest :=
  mkRegisterRequest (k_String cfg "worker.id") (k_String cfg "worker.endpoint")
    (RuntimeKind_value (k_String cfg "worker.runtime"))
    [Routing.mkModel (k_String cfg "worker.model.base") "" (wrap_u32 (k_Int cfg "worker.model.context"))]
    (worker_capabilities cfg).

(** ** Heartbeats *)

Definition heartbeat_config (cfg : K) (runtimeLabel : string) (ready : bool)
    : HeartbeatWriterConfig :=
  let a := k_String cfg "worker.model.adapter" in
  mkWriterConfig (k_String cfg "worker.id") (k_String cfg "worker.model.base")
    (if negb (String.eqb a "") then Some a else None) runtimeLabel (k_String cfg "worker.endpoint")
    (Duration cfg "heartbeat.ttl" (6 * second))
    (Duration cfg "heartbeat.interval" (2 * second)) ready.

(** ** Lemmas *)

Lemma last_value_cons kv kvs key :
  last_value (kv :: kvs) key =
  match last_value kvs key with Some v => Some v | None => if String.eqb kv.1 key then Some kv.2 else None end.
Proof. change (kv :: kvs) with ([kv] ++ kvs)%list. by rewrite last_value_app. Qed.

Lemma forge_vars_cons kv kvs :
  forge_vars (kv :: kvs) = if HasPrefix kv.1 "FORGE_" then (normalizeKey kv.1, kv.2) :: forge_vars kvs else forge_vars kvs.
Proof. unfold forge_vars. cbn. by destruct (HasPrefix kv.1 "FORGE_"). Qed.

(** A variable that occurs has a value. *)
Lemma last_value_occurs rest name :
  existsb (fun e' => String.eqb (split_var e').1 name) rest = true -> HasPrefix name "FORGE_" = true ->
  is_Some (last_value (forge_vars (split_var <$> rest)) (normalizeKey name)).
Proof.
  intros He Hp. induction rest as [|e rest IH]; [done|]. cbn [existsb] in He. rewrite fmap_cons, forge_vars_cons.
  apply orb_true_iff in He as [He|He].
  - apply String.eqb_eq in He. rewrite He, Hp, last_value_cons. cbn [fst]. rewrite String.eqb_refl.
    destruct (last_value _ _); by eexists.
  - destruct (HasPrefix (split_var e).1 "FORGE_"); [|by apply IH]. rewrite last_value_cons. destruct (IH He) as [x ->]. by eexists.
Qed.

(** Removing duplicates does not change what is read. *)
Lemma dedupEnv_value env key :
  last_value (forge_vars (split_var <$> dedupEnv env)) key = last_value (forge_vars (split_var <$> env)) key.
Proof.
  induction env as [|e env IH]; [done|]. cbn [dedupEnv]. destruct (String.eqb_spec e "") as [->|_]; [exact IH|].
  destruct (existsb _ env) eqn:Ex.
  - rewrite IH, fmap_cons, forge_vars_cons. destruct (HasPrefix (split_var e).1 "FORGE_") eqn:Hp; [|done].
    rewrite last_value_cons. cbn [fst]. destruct (String.eqb_spec (normalizeKey (split_var e).1) key) as [<-|].
    + by destruct (last_value_occurs env _ Ex Hp) as [x ->].
    + destruct (last_value (forge_vars (split_var <$> env)) key); reflexivity.
  - rewrite !fmap_cons, !forge_vars_cons. destruct (HasPrefix (split_var e).1 "FORGE_"); [|exact IH].
    by rewrite !last_value_cons, IH.
Qed.

Lemma dedupEnv_subset env : forall e, e ∈ dedupEnv env -> e ∈ env.
Proof.
  induction env as [|x env IH]; intros e; [done|]. cbn [dedupEnv].
  repeat case_if; intros He; apply elem_of_cons; try (right; by apply IH).
  apply elem_of_cons in He as [->|He]; [by left|right; by apply IH].
Qed.

(** The variables of a provisioned worker, by their keys. *)
Definition optional_key (k v : string) : list (string * string) := if String.eqb v "" then [] else [(k, v)].

Lemma optional_vars name key v :
  no_byte "=" name -> HasPrefix name "FORGE_" = true -> normalizeKey name = key ->
  forge_vars (split_var <$> optional_var (name ++ "=") v) = optional_key key v.
Proof.
  intros Hn Hp Hk. unfold optional_var, optional_key. destruct (String.eqb v ""); [done|].
  rewrite str_app_assoc. rewrite fmap_cons, forge_vars_cons. change ("=" ++ v) with (String "=" v). rewrite split_var_eq by done.
  cbn [fst snd]. by rewrite Hp, Hk.
Qed.

Lemma split_vars kvs :
  Forall (fun kv => no_byte "=" kv.1) kvs ->
  split_var <$> ((fun kv => kv.1 ++ String "=" kv.2) <$> kvs) = kvs.
Proof.
  induction 1 as [|[k v] kvs Hk _ IH]; [done|]. rewrite !fmap_cons, IH. cbn [fst snd] in *. by rewrite split_var_eq.
Qed.

Lemma worker_env_vars cfg wid id port :
  forge_vars (split_var <$> worker_env cfg wid id port) =
  List.concat
    [[("worker.id", wid); ("worker.endpoint", "127.0.0.1:" ++ Itoa port); ("worker.grpc.addr", ":" ++ Itoa port);
      ("metrics.addr", ":" ++ Itoa (port + 1000)); ("worker.runtime", "RUNTIME_KIND_OLLAMA");
      ("worker.model.base", BaseModel id); ("worker.model.context", "32768"); ("worker.cost.per.hour", "0");
      ("worker.cost.class", "free"); ("ollama.url", OllamaURL cfg); ("otlp.endpoint", "")];
     optional_key "controlplane.grpc" (ControlPlane cfg); optional_key "redis.url" (RedisURL cfg);
     optional_key "db.url" (DBURL cfg); optional_key "env.file" (EnvFile cfg)].
Proof.
  unfold worker_env. cbn [List.concat]. rewrite !fmap_app, !forge_vars_app. f_equal.
  { transitivity (forge_vars [("FORGE_WORKER_ID", wid); ("FORGE_WORKER_ENDPOINT", "127.0.0.1:" ++ Itoa port);
      ("FORGE_WORKER_GRPC_ADDR", ":" ++ Itoa port); ("FORGE_METRICS_ADDR", ":" ++ Itoa (port + 1000));
      ("FORGE_WORKER_RUNTIME", "RUNTIME_KIND_OLLAMA"); ("FORGE_WORKER_MODEL_BASE", BaseModel id);
      ("FORGE_WORKER_MODEL_CONTEXT", "32768"); ("FORGE_WORKER_COST_PER_HOUR", "0"); ("FORGE_WORKER_COST_CLASS", "free");
      ("FORGE_OLLAMA_URL", OllamaURL cfg); ("FORGE_OTLP_ENDPOINT", "")]); [|reflexivity].
    f_equal. match goal with |- _ = ?kvs => exact (split_vars kvs ltac:(repeat constructor)) end. }
  rewrite app_nil_r. f_equal; [by apply (optional_vars "FORGE_CONTROLPLANE_GRPC")|].
  f_equal; [by apply (optional_vars "FORGE_REDIS_URL")|]. f_equal; [by apply (optional_vars "FORGE_DB_URL")|].
  rewrite app_nil_r. by apply (optional_vars "FORGE_ENV_FILE").
Qed.

(** The environment says nothing of paths above or below a key. *)
Definition unclashed (environ : list string) (key : string) : Prop :=
  Forall (fun kv => clash key kv.1 = false) (forge_vars (split_var <$> environ)).

Definition own_keys : list string := ["worker.id"; "worker.endpoint"; "worker.runtime"; "worker.model.base"].

Lemma elem_of_forge_vars env x :
  x ∈ forge_vars (split_var <$> env) <->
  exists e, e ∈ env /\ HasPrefix (split_var e).1 "FORGE_" = true /\ x = (normalizeKey (split_var e).1, (split_var e).2).
Proof.
  unfold forge_vars. rewrite list_elem_of_fmap. split.
  - intros (kv & -> & Hin). apply list_elem_of_In, filter_In in Hin as [Hin Hp].
    apply list_elem_of_In, list_elem_of_fmap in Hin as (e & -> & He). by exists e.
  - intros (e & He & Hp & ->). exists (split_var e). split; [done|]. apply list_elem_of_In, filter_In. split; [|done].
    apply list_elem_of_In, list_elem_of_fmap. by exists e.
Qed.

Lemma worker_env_unclashed cfg wid id port key :
  key ∈ own_keys -> Forall (fun kv => clash key kv.1 = false) (forge_vars (split_var <$> worker_env cfg wid id port)).
Proof.
  intros Hk. rewrite worker_env_vars. cbn [List.concat]. unfold own_keys in Hk. rewrite !elem_of_cons, elem_of_nil in Hk.
  assert (forall k v, clash key k = false -> Forall (fun kv => clash key kv.1 = false) (optional_key k v)) as Ho.
  { intros k v Hc. unfold optional_key. destruct (String.eqb v ""); [constructor|]. by constructor. }
  rewrite !Forall_app. destruct Hk as [->|[->|[->|[->|[]]]]];
    (split; [repeat constructor|]; repeat (split; [by apply Ho|]); constructor).
Qed.

Lemma provisioned_unclashed environ cfg wid id port key :
  unclashed environ key -> key ∈ own_keys ->
  Forall (fun kv => clash key kv.1 = false) (forge_vars (split_var <$> dedupEnv (environ ++ worker_env cfg wid id port)%list)).
Proof.
  intros Hu Hk. apply list.Forall_forall. intros x (e & He & Hp & ->)%elem_of_forge_vars. apply dedupEnv_subset in He.
  apply elem_of_app in He as [He|He].
  - unfold unclashed in Hu. rewrite list.Forall_forall in Hu. apply (Hu (_, _)). apply elem_of_forge_vars. by exists e.
  - pose proof (worker_env_unclashed cfg wid id port key Hk) as Hw. rewrite list.Forall_forall in Hw. apply (Hw (_, _)).
    apply elem_of_forge_vars. by exists e.
Qed.

(** A worker reads its identity from the environment it was started with,
    whatever it inherits and whatever file it loads. *)
Lemma provisioned_config defaults file environ cfg wid id port :
  (forall key, key ∈ own_keys -> unclashed environ key) ->
  let k := Load defaults file (dedupEnv (environ ++ worker_env cfg wid id port)%list) in
  k_String k "worker.id" = wid /\ k_String k "worker.endpoint" = "127.0.0.1:" ++ Itoa port /\
  k_String k "worker.runtime" = "RUNTIME_KIND_OLLAMA" /\ k_String k "worker.model.base" = BaseModel id.
Proof.
  intros Hu. cbn zeta.
  assert (forall key v, key ∈ own_keys ->
    last_value (forge_vars (split_var <$> worker_env cfg wid id port)) key = Some v ->
    k_String (Load defaults file (dedupEnv (environ ++ worker_env cfg wid id port)%list)) key = v) as Hr.
  { intros key v Hk Hv. apply Load_env; [by apply provisioned_unclashed; [apply Hu|]|].
    by rewrite dedupEnv_value, fmap_app, forge_vars_app, last_value_app, Hv. }
  assert (forall key, key ∈ own_keys ->
    last_value (forge_vars (split_var <$> worker_env cfg wid id port)) key =
    last_value [("worker.id", wid); ("worker.endpoint", "127.0.0.1:" ++ Itoa port); ("worker.runtime", "RUNTIME_KIND_OLLAMA");
                ("worker.model.base", BaseModel id)] key) as Hl.
  { intros key Hk. rewrite worker_env_vars. cbn [List.concat]. rewrite !last_value_app.
    unfold own_keys in Hk. rewrite !elem_of_cons, elem_of_nil in Hk. unfold optional_key.
    destruct Hk as [->|[->|[->|[->|[]]]]];
      destruct (String.eqb (ControlPlane cfg) ""), (String.eqb (RedisURL cfg) ""), (String.eqb (DBURL cfg) ""),
        (String.eqb (EnvFile cfg) ""); reflexivity. }
  split; [|split; [|split]]; (apply Hr; [set_solver|]; rewrite Hl; [reflexivity|set_solver]).
Qed.
End Worker.

(** What a process was started with. *)
Lemma started_env p id h wid p' es pid bin env :
  Provision p id h = (Ok wid, p', es) -> Started wid pid bin env ∈ es ->
  exists port, freePortNear (listen h) (BaseGRPCPort (lcfg p)) = Ok port /\
    env = (Environ h ++ worker_env (lcfg p) wid id port)%list /\ HasPrefix wid "local-" = true.
Proof.
  unfold Provision, finish. cbn [take_number lcfg].
  assert (forall q w, Started wid pid bin env ∉ ready_call q w id) as Hn.
  { intros q w. unfold ready_call. destruct (onReady q); [|apply not_elem_of_nil]. by intros ?%list_elem_of_singleton. }
  destruct (TrackOnly (lcfg p)); [intros [= <- <- <-] Hs; by apply Hn in Hs|].
  destruct (freePortNear _ _) as [port|]; [|done]. destruct (worker_binary _ _) as [b|]; [|done].
  destruct (Start h) as [pd|]; [|done]. intros [= <- <- <-] [Hs|Hs]%elem_of_cons; [|by apply Hn in Hs].
  injection Hs as -> -> ->. exists port. split; [done|]. split; [done|]. apply local_id_prefix.
Qed.

Lemma keyed_applySet rget s id : keyed s -> keyed (applySet unmarshal rget s id).
Proof.
  intros Hs. unfold applySet. destruct (rget (Health.Key id)); [|by apply map_Forall_delete|done].
  destruct (unmarshal v) as [hb|]; [|done]. by apply keyed_insert.
Qed.

(** ** Properties *)

Section Path.
Context `{UnicodeTables} {K : Type} `{Koanf K} {DB : Type} `{WorkerTables DB}.
Context {R : Type} `{RedisTTL R}.

(** C7: a worker the local provisioner starts is found ready by the fleet: its
    program reads the id, address, runtime and model it was started for from
    its environment, whatever file it loads and whatever it inherits, unless a
    FORGE_ variable it inherits is named like a part of one of these keys or
    goes on below one (FORGE_WORKER_MODEL, FORGE_WORKER_ID_X); once it has
    registered and a heartbeat saying ready has been written, with UTF-8
    names and a time to live of whole milliseconds, the snapshot the publisher
    builds from the registry and the heartbeats, until the heartbeat expires,
    has a healthy and ready view of that id, model and port, and the
    lifecycle's check of the worker answers that it is ready. *)
Theorem local_worker_found_ready p id h wid p' es pid bin env file db t0 resp db' r t r' t' s all epoch virtual snap epoch' http :
  LocalProvisioner.Provision p id h = (Ok wid, p', es) -> Started wid pid bin env ∈ es ->
  (forall key, key ∈ own_keys -> unclashed (Environ h) key) ->
  let k := Load WorkerDefaults file (dedupEnv env) in
  let hb := NewHeartbeatWriter (heartbeat_config k "ollama" true) in
  Register db (register_request k) t0 = (Ok resp, db') ->
  utf8_heartbeat (snapshot hb t) -> in_i64 (UnixMilli t) -> (millisecond | hw_ttl hb) ->
  BeatOnce hb r t = (None, r') -> t <= t' < t + hw_ttl hb ->
  keyed s -> all ≡ₚ All (applySet unmarshal (db_get (keys_at r' t')) s wid) ->
  buildSnapshot epoch t' (Ok (ListWorkers db')) all virtual = (Ok snap, epoch') ->
  checkReady wid id (Some (Some snap)) http = (true, "heartbeat", None) /\
  exists v port, v ∈ Workers snap /\ v_ID v = wid /\ v_BaseModel v = FleetScaling.BaseModel id /\
    v_Endpoint v = "127.0.0.1:" ++ Itoa port /\ v_Healthy v = true /\ v_Ready v = true /\
    freePortNear (listen h) (BaseGRPCPort (lcfg p)) = Ok port.
Proof.
  intros Hp Hs Hu k hb Hreg Ha Hts Hd Hb Ht Hk Hall Hbuild.
  destruct (started_env _ _ _ _ _ _ _ _ _ Hp Hs) as (port & Hport & Henv & Hloc).
  destruct (provisioned_config WorkerDefaults file (Environ h) (lcfg p) wid id port Hu) as (Eid & Eend & Ert & Ebase).
  rewrite <- Henv in Eid, Eend, Ert, Ebase. fold k in Eid, Eend, Ert, Ebase.
  assert (wid <> "") as Hne by (intros ->; done).
  assert (hw_id hb = wid) as Ehw by exact Eid.
  assert (0 < hw_ttl hb) as Httl by (unfold hb, NewHeartbeatWriter; cbn [hw_ttl]; case_if; zbool; [done|lia]).
  assert (applySet unmarshal (db_get (keys_at r' t')) s wid !! wid = Some (snapshot hb t)) as Hlive.
  { rewrite <- Ehw at 1 2. rewrite (applySet_after_beat hb r t r' t' s); try done.
    - rewrite (proj2 (Z.ltb_lt _ _)) by lia. done.
    - by rewrite Ehw.
    - lia. }
  set (live := applySet unmarshal (db_get (keys_at r' t')) s wid) in *.
  assert (heartbeats all = live) as Ehb by (apply heartbeats_spec; [by apply keyed_applySet|done]).
  destruct (Register_lists _ _ _ _ _ Hreg) as (caps & _ & Hlist).
  cbn [register_request rr_WorkerId rr_Endpoint rr_RuntimeKind rr_Models] in Hlist.
  match type of Hlist with context [_ = mkReg ?a ?b ?c caps ?d] => set (reg := mkReg a b c caps d) in Hlist end.
  assert (reg ∈ ListWorkers db') as Hreg' by (apply Hlist; by left).
  assert (exists v, v ∈ worker_views live reg /\ v_ID v = wid /\ v_BaseModel v = FleetScaling.BaseModel id /\
    v_Endpoint v = "127.0.0.1:" ++ Itoa port /\ v_Healthy v = true /\ v_Ready v = true) as (v & Hv & Hvid & Hvb & Hve & Hvh & Hvr).
  { unfold worker_views. cbn [r_ID reg r_Models register_request rr_Models]. rewrite Eid, Hlive.
    eexists. split; [apply list_elem_of_singleton; reflexivity|]. cbn. rewrite Ebase. split; [done|]. split; [done|].
    rewrite Eend. done. }
  assert (v ∈ Workers snap) as Hin.
  { unfold buildSnapshot in Hbuild. injection Hbuild as <- _. cbn [Workers]. apply elem_of_app. left. rewrite Ehb.
    apply list_elem_of_In, in_concat. exists (worker_views live reg). split; [|by apply list_elem_of_In].
    apply list_elem_of_In, list_elem_of_fmap. by exists reg. }
  split; [|by exists v, port].
  unfold checkReady. assert (is_pod wid = false) as ->.
  { unfold is_pod. apply HasPrefix_spec in Hloc as [rest ->]. reflexivity. }
  assert (heartbeats_ready (Some snap) wid = true) as ->; [|done].
  cbn [heartbeats_ready]. apply existsb_exists. exists v. split; [by apply list_elem_of_In|].
  by rewrite Hvid, String.eqb_refl, Hvh, Hvr.
Qed.
End Path.

Section Findings.
Context `{UnicodeTables} {K : Type} `{Koanf K}.

(** The default capabilities name a runtime, so a worker configured for
    another one still announces that runtime, and the publisher prefers it to
    the runtime kind of the registration. *)
Theorem vllm_worker_announced_as_ollama cfg raw :
  k_StringMap cfg "worker.capabilities" = list_to_map default_capabilities ->
  k_String cfg "worker.runtime" = "RUNTIME_KIND_VLLM" ->
  raw <> "" -> unmarshal_map raw = Some (worker_capabilities cfg) ->
  rr_RuntimeKind (register_request cfg) = RUNTIME_KIND_VLLM /\
  c_Runtime (ParseCapabilities raw (RuntimeKind_name RUNTIME_KIND_VLLM)) = "ollama".
Proof.
  intros Hc Hr Hne Hu. split; [cbn; by rewrite Hr|]. unfold ParseCapabilities.
  destruct (String.eqb_spec raw ""); [done|]. rewrite Hu. cbn [c_Runtime].
  assert (at_key (worker_capabilities cfg) "runtime" = "ollama") as ->; [|reflexivity].
  unfold at_key, worker_capabilities. rewrite Hc. unfold set_missing.
  set (m0 := <["cost_class" := _]> (<["cost_per_hour" := _]> _)).
  assert (m0 !! "runtime" = Some "ollama") as E by (unfold m0; rewrite !lookup_insert_ne by done; reflexivity).
  rewrite E. destruct (m0 !! "max_model_len"); [by rewrite E|]. rewrite lookup_insert_ne by done. by rewrite E.
Qed.

(** A worker that serves an adapter says so in its heartbeats but not in its
    registration, so no view of it in a routing snapshot has the adapter. *)
Theorem adapter_not_registered cfg label ready hbs caps v :
  k_String cfg "worker.model.adapter" <> "" ->
  hc_Adapter (heartbeat_config cfg label ready) = Some (k_String cfg "worker.model.adapter") /\
  (v ∈ worker_views hbs (mkReg (k_String cfg "worker.id") (k_String cfg "worker.endpoint")
     (RuntimeKind_name (rr_RuntimeKind (register_request cfg))) caps (rr_Models (register_request cfg))) ->
   v_Adapter v = "").
Proof.
  intros Ha. split.
  - cbn. by destruct (String.eqb_spec (k_String cfg "worker.model.adapter") "").
  - unfold worker_views. cbn [r_Models register_request rr_Models]. by intros ->%list_elem_of_singleton.
Qed.
End Findings.

(** *** Witnesses *)

(** A store of the pairs loaded, in order. *)
Definition pairs_config : Koanf (list (string * string)).
Proof.
  refine {| k_New := []; k_Load k kvs := (k ++ kvs)%list; k_String k key := default "" (last_value k key);
            k_Bool k key := String.eqb (default "" (last_value k key)) "true"; k_Int _ _ := 32768;
            k_Float64 k key := default f_zero (ParseFloat (default "" (last_value k key)));
            k_StringMap _ _ := list_to_map default_capabilities |}.
  - done.
  - intros k kvs key _. rewrite last_value_app. by destruct (last_value kvs key).
Defined.

Definition boxed : host := mkHost (fun p => 50100 <? p) (fun b => Ok b) (fun b => Ok b) ["PATH=/bin"; "FORGE_WORKER_ID=inherited"] (Ok 4242).

Definition qwen_model : ModelIdentity := FleetScaling.mkModel "qwen" "".

Definition provisioned1 := Provision (NewLocalProcess (fun _ => "") (fun _ => true)) qwen_model boxed.

Definition env1 : list string := (Environ boxed ++ worker_env (lcfg (NewLocalProcess (fun _ => "") (fun _ => true))) "local-qwen-1" qwen_model 50101)%list.

Definition cfg1 : list (string * string) := @Load ascii_tables _ pairs_config WorkerDefaults None (dedupEnv env1).

Definition reg1 : result error RegisterResponse * mem_tables :=
  @Register mem_tables mem_worker_tables (mkMem ∅ []) (@register_request ascii_tables _ pairs_config cfg1) 5.

Definition writer1 : HeartbeatWriter := NewHeartbeatWriter (@heartbeat_config _ pairs_config cfg1 "ollama" true).

Definition redis1 : timed := (@BeatOnce timed timed_redis writer1 ∅ 100).2.

Definition live1 : Snapshot := applySet unmarshal (db_get (@keys_at timed timed_redis redis1 200)) ∅ "local-qwen-1".

Definition snap1 : RoutingSnapshot :=
  match (@buildSnapshot ascii_tables 0 200 (Ok (ListWorkers reg1.2)) (All live1) []).1 with
  | Ok snap => snap
  | Err _ => mkSnap 0 0 []
  end.

Lemma local_worker_found_ready_witness :
  checkReady "local-qwen-1" qwen_model (Some (Some snap1)) (Err (ENew "not asked")) = (true, "heartbeat", None).
Proof.
  destruct (@local_worker_found_ready ascii_tables (list (string * string)) pairs_config mem_tables mem_worker_tables
    timed timed_redis
    (NewLocalProcess (fun _ => "") (fun _ => true)) qwen_model boxed "local-qwen-1" provisioned1.1.2 provisioned1.2 4242
    "bin/forge-worker" env1 None (mkMem ∅ []) 5 (mkRegisterResponse "local-qwen-1" 5) reg1.2 ∅ 100 redis1 200 ∅ (All live1) 0 []
    snap1 1 (Err (ENew "not asked"))) as [Hr _].
  - vm_compute. reflexivity.
  - apply list_elem_of_singleton. vm_compute. reflexivity.
  - intros key Hk. unfold own_keys in Hk. rewrite !elem_of_cons, elem_of_nil in Hk.
    destruct Hk as [->|[->|[->|[->|[]]]]]; vm_compute; repeat constructor.
  - vm_compute. reflexivity.
  - apply (bool_decide_unpack _). vm_compute. exact I.
  - vm_compute. split; [discriminate|reflexivity].
  - exists 6000. vm_compute. reflexivity.
  - unfold redis1. reflexivity.
  - vm_compute. split; [discriminate|reflexivity].
  - apply map_Forall_empty.
  - unfold live1. apply Permutation_refl.
  - vm_compute. reflexivity.
  - exact Hr.
Defined.

Definition vllm_cfg : list (string * string) := [("worker.runtime", "RUNTIME_KIND_VLLM"); ("worker.model.adapter", "sql")].

Definition vllm_caps : gmap string string := @worker_capabilities ascii_tables _ pairs_config vllm_cfg.

Lemma vllm_worker_announced_as_ollama_witness :
  c_Runtime (@ParseCapabilities ascii_tables (print (map_doc vllm_caps))
    (RuntimeKind_name RUNTIME_KIND_VLLM)) = "ollama".
Proof.
  destruct (@vllm_worker_announced_as_ollama ascii_tables _ pairs_config vllm_cfg (print (map_doc vllm_caps))) as [_ Hr].
  - reflexivity.
  - reflexivity.
  - discriminate.
  - reflexivity.
  - exact Hr.
Defined.

Lemma adapter_not_registered_witness :
  hc_Adapter (@heartbeat_config _ pairs_config vllm_cfg "vllm" true) = Some "sql".
Proof.
  destruct (@adapter_not_registered ascii_tables _ pairs_config vllm_cfg "vllm" true ∅ ""
    (mkView "" "" "" "" false false 0 0 0 f_zero "" "" f_zero "" ∅)) as [Hr _].
  - discriminate.
  - exact Hr.
Defined.
