(* ===== verification/WorkerAdapters.v ===== *)
(** * Runtime adapters and the worker's gRPC server
      (worker/adapters/vllm, worker/adapters/ollama, services/provider/openai.go,
       worker/grpc/server.go, the option table of services/gateway/provider_dial.go)

    How a worker turns the line-oriented stream of its runtime into token
    chunks.  The HTTP exchange (the status, the lines, the errors of the
    scanner and of the context) is an input, as is the sink that receives the
    chunks; decoding a JSON payload is a parameter.  Lines that exceed the
    scanner's buffer end the scan with an error. *)

From Stdlib Require Import Ascii.
From S2P Require Import Prelude Float64 GoStrings Errors GatewaySelect GatewayDispatch.

(** ** Requests *)

(** The dynamic type of an option's value matters: a type assertion on
    another type fails. *)
Inductive option_value : Type :=
| VFloat64 (f : float64)
| VFloat32 (f : float32)
| VInt (z : Z)
| VInt32 (z : Z)
| VBool (b : bool).

Abbreviation Options := (gmap string option_value).

Record AdapterRequest := mkAdapterReq { ar_Model : string; ar_Prompt : string; ar_Options : option Options; ar_KeepAlive : string }.

Record AdapterChunk := mkAChunk {
  ac_Text : string;
  ac_Done : bool;
  ac_FinishReason : string;
  ac_PromptTokens : Z;
  ac_EvalTokens : Z;
  ac_TotalDurNs : Z
}.

Definition text_chunk (text : string) : AdapterChunk := mkAChunk text false "" 0 0 0.
Definition done_chunk (text finish : string) (pt et : Z) : AdapterChunk := mkAChunk text true finish pt et 0.

Definition set_if (b : bool) (k : string) (v : option_value) (m : Options) : Options :=
  if b then <[k := v]> m else m.

(** The options the worker's server hands to its adapter: values as the
    protocol buffer has them. *)
Definition server_options (sp : option SamplingParams) (topK : Z) : Options :=
  match sp with
  | None => ∅
  | Some s =>
      set_if (0 <? MaxTokens s) "num_predict" (VInt32 (MaxTokens s))
        (set_if (fltb f_zero (TopP s)) "top_p" (VFloat32 (TopP s))
           (set_if (0 <? topK) "top_k" (VInt32 topK)
              (set_if (fltb f_zero (Temperature s)) "temperature" (VFloat32 (Temperature s)) ∅)))
  end.

(** The options the gateway hands to an external provider: converted. *)
Definition provider_options (sp : option SamplingParams) : Options :=
  match sp with
  | None => ∅
  | Some s =>
      set_if (0 <? MaxTokens s) "num_predict" (VInt (MaxTokens s))
        (set_if (negb (feqb (TopP s) f_zero)) "top_p" (VFloat64 (widen (TopP s)))
           (set_if (negb (feqb (Temperature s) f_zero)) "temperature" (VFloat64 (widen (Temperature s))) ∅))
  end.

Definition float64_at (o : option Options) (k : string) : option float64 :=
  match o with None => None | Some m => match m !! k with Some (VFloat64 f) => Some f | _ => None end end.

Definition posint_at (o : option Options) (k : string) : option Z :=
  match o with
  | None => None
  | Some m => match m !! k with Some (VInt z) => if 0 <? z then Some z else None | _ => None end
  end.

(** The sampling fields of the body sent to an OpenAI-style runtime. *)
Record sampling_body := mkBody { body_Temperature : option float64; body_TopP : option float64; body_MaxTokens : option Z }.

Definition openai_body (o : option Options) : sampling_body :=
  mkBody (float64_at o "temperature") (float64_at o "top_p") (posint_at o "num_predict").

Definition vllm_body (o : option Options) : sampling_body :=
  mkBody (float64_at o "temperature") (float64_at o "top_p")
    (match posint_at o "max_tokens" with Some n => Some n | None => posint_at o "num_predict" end).

(** ** Server-sent events of an OpenAI-style runtime *)

Record sseChunk := mkSSE { Choices : list (string * option string); sse_Usage : option (Z * Z); sse_Error : option string }.

(** The body of a response: its lines, each with what [ctx.Err()] says when
    the loop meets it, and the errors of the scanner and the context at the
    end. *)
Record scan := mkScan { s_lines : list (string * option error); s_err : option error; s_ctx : option error }.

(** The POST: a failure (with [ctx.Err()]) or a status, a message and a
    body. *)
Abbreviation exchange := (result (error * option error) (Z * string * scan)).

Section Adapters.
Context `{UnicodeTables}.
Variable decode : string -> option sseChunk.
(** the n-th call of the sink *)
Variable sink : nat -> AdapterChunk -> option error.

(** The payload of an event line; [None] for a line to skip. *)
Definition payload_of (raw : string) : option string :=
  let line := TrimSpace raw in
  if String.eqb line "" || negb (HasPrefix line "data:") then None
  else Some (TrimSpace (TrimPrefix line "data:")).

Definition vllm_missing (msg : string) : bool :=
  Contains (ToLower msg) "not found" || Contains (ToLower msg) "does not exist".

(** The first choice of a chunk: its text and finish reason. *)
Definition first_choice (c : sseChunk) : string * string :=
  match Choices c with
  | [] => ("", "")
  | (content, finish) :: _ => (content, default "" finish)
  end.

Definition token_counts (c : sseChunk) (pt et : Z) : Z * Z := default (pt, et) (sse_Usage c).

(** What a decoded chunk makes the loop send, if anything. *)
Definition chunk_out (text finish : string) (pt et : Z) : AdapterChunk :=
  if negb (String.eqb finish "") then done_chunk text finish pt et else text_chunk text.

(** What one line makes the loop do: nothing, return an error, or send. *)
Inductive line_act : Type := Skip | Fail (e : error) | Emit (c : AdapterChunk).

Definition after_decode (chunk : sseChunk) (pt et : Z) : line_act * Z * Z :=
  let '(pt, et) := token_counts chunk pt et in
  let '(text, finish) := first_choice chunk in
  if String.eqb text "" && String.eqb finish "" then (Skip, pt, et) else (Emit (chunk_out text finish pt et), pt, et).

(** A line of the vLLM adapter's loop. *)
Definition vllm_line (model raw : string) (pt et : Z) : line_act * Z * Z :=
  match payload_of raw with
  | None => (Skip, pt, et)
  | Some payload =>
      if String.eqb payload "[DONE]" then (Emit (done_chunk "" "stop" pt et), pt, et)
      else match decode payload with
      | None => (Fail (ENew "vllm sse"), pt, et)
      | Some chunk =>
          let msg := default "" (sse_Error chunk) in
          if negb (String.eqb msg "") then
            (Fail (if vllm_missing msg then EModelNotFoundError model else ENew ("vllm generate: " ++ msg)), pt, et)
          else after_decode chunk pt et
      end
  end.

(** A line of the provider backend's loop: an undecodable payload and an error
    event are skipped. *)
Definition openai_line (raw : string) (pt et : Z) : line_act * Z * Z :=
  match payload_of raw with
  | None => (Skip, pt, et)
  | Some payload =>
      if String.eqb payload "[DONE]" then (Emit (done_chunk "" "stop" pt et), pt, et)
      else match decode payload with
      | None => (Skip, pt, et)
      | Some chunk => after_decode chunk pt et
      end
  end.

(** The loop both share: the error returned and the chunks given to the
    sink; [finish] is what follows the last line. *)
Fixpoint sse_loop (step : string -> Z -> Z -> line_act * Z * Z)
    (finish : Z -> Z -> nat -> option error * list AdapterChunk)
    (ls : list (string * option error)) (pt et : Z) (n : nat) : option error * list AdapterChunk :=
  match ls with
  | [] => finish pt et n
  | (raw, ctx) :: rest =>
      match ctx with
      | Some e => (Some e, [])
      | None =>
          match step raw pt et with
          | (Skip, pt, et) => sse_loop step finish rest pt et n
          | (Fail e, _, _) => (Some e, [])
          | (Emit c, pt, et) =>
              match sink n c with
              | Some e => (Some e, [c])
              | None =>
                  if ac_Done c then (None, [c])
                  else let '(r, out) := sse_loop step finish rest pt et (S n) in (r, c :: out)
              end
          end
      end
  end.

Definition send_stop (pt et : Z) (n : nat) : option error * list AdapterChunk :=
  let c := done_chunk "" "stop" pt et in (sink n c, [c]).

Definition vllm_end (s : scan) (pt et : Z) (n : nat) : option error * list AdapterChunk :=
  match s_err s with
  | Some e => (Some (match s_ctx s with Some c => c | None => EWrap e "vllm stream" end), [])
  | None => send_stop pt et n
  end.

(** *** The vLLM adapter *)

Record vllm := mkVllm { servedModel : string; forgeModel : string }.

Definition resolveServed (a : vllm) (model : string) : string :=
  if negb (String.eqb (servedModel a) "") &&
     (String.eqb model "" || String.eqb model (forgeModel a) || String.eqb model (servedModel a)) then servedModel a
  else if negb (String.eqb model "") then model
  else if negb (String.eqb (forgeModel a) "") then forgeModel a
  else servedModel a.

Definition toForge (a : vllm) (served : string) : string :=
  if negb (String.eqb (forgeModel a) "") &&
     (String.eqb served (servedModel a) || String.eqb served (forgeModel a) || String.eqb (servedModel a) "")
  then forgeModel a else served.

(** [Generate] of the vLLM adapter. *)
Definition vllm_Generate (a : vllm) (req : AdapterRequest) (post : exchange) : option error * list AdapterChunk :=
  if String.eqb (ar_Model req) "" && String.eqb (forgeModel a) "" && String.eqb (servedModel a) ""
  then (Some (EModelNotFoundError ""), [])
  else if String.eqb (ar_Prompt req) "" then (Some (ENew "prompt is required"), [])
  else match post with
  | Err (e, ctx) => (Some (match ctx with Some c => c | None => EWrap e "vllm generate" end), [])
  | Ok (status, msg, body) =>
      if status =? 404 then (Some (EModelNotFoundError (ar_Model req)), [])
      else if negb (status =? 200) then
        (Some (if vllm_missing msg then EModelNotFoundError (ar_Model req) else ENew "vllm generate: status"), [])
      else sse_loop (vllm_line (ar_Model req)) (vllm_end body) (s_lines body) 0 0 0
  end.

(** *** The provider backend *)

(** [Generate] of [OpenAICompat]; [model] is the resolved model. *)
Definition openai_Generate (model : string) (req : AdapterRequest) (post : exchange)
    : option error * list AdapterChunk :=
  if String.eqb model "" then (Some (EModelNotFoundError (ar_Model req)), [])
  else match post with
  | Err (e, ctx) => (Some (match ctx with Some c => c | None => EWrap e "provider" end), [])
  | Ok (status, msg, body) =>
      if status =? 404 then (Some (EModelNotFoundError (ar_Model req)), [])
      else if (status =? 401) || (status =? 403) then (Some (ENew "provider: auth failed"), [])
      else if negb (status =? 200) then (Some (ENew "provider: status"), [])
      else sse_loop openai_line send_stop (s_lines body) 0 0 0
  end.

(** *** The Ollama adapter *)

Record streamLine := mkLine { l_Response : string; l_Done : bool; l_DoneReason : string; l_PromptEval : Z; l_Eval : Z;
                              l_Total : Z; l_Error : string }.

Variable decode_line : string -> option streamLine.

Definition ollama_missing (msg : string) : bool :=
  Contains (ToLower msg) "not found" || Contains (ToLower msg) "pull".

Definition ollama_chunk (l : streamLine) : AdapterChunk :=
  if l_Done l then
    mkAChunk (l_Response l) true (if String.eqb (l_DoneReason l) "" then "stop" else l_DoneReason l)
      (l_PromptEval l) (l_Eval l) (l_Total l)
  else text_chunk (l_Response l).

Fixpoint ollama_lines (model : string) (body : scan) (ls : list (string * option error)) (n : nat)
    : option error * list AdapterChunk :=
  match ls with
  | [] =>
      (match s_err body with
       | Some e => Some (match s_ctx body with Some c => c | None => EWrap e "ollama stream" end)
       | None => None
       end, [])
  | (raw, ctx) :: rest =>
      match ctx with
      | Some e => (Some e, [])
      | None =>
          if String.eqb raw "" then ollama_lines model body rest n
          else match decode_line raw with
          | None => (Some (ENew "ollama ndjson"), [])
          | Some l =>
              if negb (String.eqb (l_Error l) "") then
                (Some (if ollama_missing (l_Error l) then EModelNotFoundError model else ENew ("ollama generate: " ++ l_Error l)), [])
              else
                let c := ollama_chunk l in
                match sink n c with
                | Some e => (Some e, [c])
                | None => let '(r, out) := ollama_lines model body rest (S n) in (r, c :: out)
                end
          end
      end
  end.

(** [error_of] is the error field of the message, if it decodes. *)
Definition ollama_Generate (error_of : string -> option string) (req : AdapterRequest) (post : exchange)
    : option error * list AdapterChunk :=
  if String.eqb (ar_Model req) "" then (Some (EModelNotFoundError ""), [])
  else if String.eqb (ar_Prompt req) "" then (Some (ENew "prompt is required"), [])
  else match post with
  | Err (e, ctx) => (Some (match ctx with Some c => c | None => EWrap e "ollama generate" end), [])
  | Ok (status, msg, body) =>
      if status =? 404 then (Some (EModelNotFoundError (ar_Model req)), [])
      else if negb (status =? 200) then
        let field := default "" (error_of msg) in
        (Some (if negb (String.eqb field "") then
                 if ollama_missing field then EModelNotFoundError (ar_Model req) else ENew ("ollama generate: " ++ field)
               else ENew "ollama generate: status"), [])
      else ollama_lines (ar_Model req) body (s_lines body) 0
  end.
End Adapters.

(** ** The worker's server *)

(** The chunk as the gateway receives it. *)
Definition token_chunk (c : AdapterChunk) : TokenChunk :=
  if ac_Done c then mkChunk (ac_Text c) true (ac_FinishReason c) (Some (mkUsage (ac_PromptTokens c) (ac_EvalTokens c)))
  else mkChunk (ac_Text c) false "" None.

Fixpoint as_model_not_found (e : error) : option string :=
  match e with EModelNotFoundError m => Some m | EWrap inner _ => as_model_not_found inner | _ => None end.

Definition mapError `{GrpcStatus} (err : option error) : option error :=
  match err with
  | None => None
  | Some e =>
      if errors_Is e ErrCtxCanceled then Some (EStatus Canceled "client canceled")
      else if errors_Is e ErrCtxDeadlineExceeded then Some (EStatus DeadlineExceeded "deadline exceeded")
      else match as_model_not_found e with
      | Some m => Some (EStatus NotFound m)
      | None =>
          match FromError e with
          | Some OK => None
          | Some c => Some (EStatus c "")
          | None => Some (EStatus Internal "generate")
          end
      end
  end.

(** [Server.Generate], with the adapter as a function of the request: the
    status returned and the messages sent. *)
Definition server_Generate `{GrpcStatus} (adapter : AdapterRequest -> option error * list AdapterChunk)
    (keepAlive : string) (req : GenerateRequest) (topK : Z) : option error * list TokenChunk :=
  if String.eqb (g_Prompt req) "" then (Some (EStatus InvalidArgument "prompt is required"), [])
  else if String.eqb (g_BaseModel req) "" then (Some (EStatus InvalidArgument "model.base_model is required"), [])
  else
    let genReq := mkAdapterReq (g_BaseModel req) (g_Prompt req) (Some (server_options (g_Sampling req) topK)) keepAlive in
    let '(err, out) := adapter genReq in
    (mapError err, token_chunk <$> out).

(** The stream the gateway sees of it. *)
Definition as_stream (r : option error * list TokenChunk) : stream :=
  ((Ok <$> r.2) ++ match r.1 with Some e => [Err e] | None => [] end)%list.

(** ** Lemmas *)

(** A complete generation: texts, then one final chunk. *)
Definition complete (out : list AdapterChunk) : Prop :=
  exists pre final, out = (pre ++ [final])%list /\ ac_Done final = true /\ Forall (fun c => ac_Done c = false) pre.

Lemma complete_cons c out : ac_Done c = false -> complete out -> complete (c :: out).
Proof. intros Hc (pre & final & -> & Hd & Hp). exists (c :: pre), final. split_and!; [done|done|by constructor]. Qed.

Lemma complete_one c : ac_Done c = true -> complete [c].
Proof. intros Hc. exists [], c. split_and!; [done|done|constructor]. Qed.

(** The shared loop, for a sink that accepts everything. *)
Lemma sse_loop_complete sink step finish ls pt et n :
  (forall n c, sink n c = None) ->
  (forall pt et n, (finish pt et n).1 = None -> complete (finish pt et n).2) ->
  (sse_loop sink step finish ls pt et n).1 = None -> complete (sse_loop sink step finish ls pt et n).2.
Proof.
  intros Hs Hf. revert pt et n. induction ls as [|[raw ctx] ls IH]; intros pt et n; cbn [sse_loop]; [apply Hf|].
  destruct ctx; [done|]. destruct (step raw pt et) as [[[|e|c] pt'] et']; [apply IH|done|].
  rewrite Hs. destruct (ac_Done c) eqn:Ed; [intros _; by apply complete_one|].
  specialize (IH pt' et' (S n)). destruct (sse_loop sink step finish ls pt' et' (S n)) as [r out]. cbn [fst snd] in *.
  intros Hr. by apply complete_cons, IH.
Qed.

Lemma send_stop_complete sink pt et n : (send_stop sink pt et n).1 = None -> complete (send_stop sink pt et n).2.
Proof. intros _. by apply complete_one. Qed.

Lemma vllm_end_complete sink body pt et n :
  (vllm_end sink body pt et n).1 = None -> complete (vllm_end sink body pt et n).2.
Proof. unfold vllm_end. destruct (s_err body); [done|]. apply send_stop_complete. Qed.

Section Streams.
Context `{UnicodeTables} (decode : string -> option sseChunk) (sink : nat -> AdapterChunk -> option error).

(** A line a well-behaved runtime sends: nothing, the end, or a chunk that
    decodes and reports no error. *)
Definition clean_line (l : string * option error) : Prop :=
  l.2 = None /\
  match payload_of l.1 with
  | None => True
  | Some p => p = "[DONE]" \/ exists c, decode p = Some c /\ default "" (sse_Error c) = ""
  end.

Lemma clean_line_same model l pt et : clean_line l -> vllm_line decode model l.1 pt et = openai_line decode l.1 pt et.
Proof.
  intros [_ Hl]. unfold vllm_line, openai_line. destruct (payload_of l.1) as [p|]; [|done].
  destruct (String.eqb_spec p "[DONE]"); [done|]. destruct Hl as [->|(c & -> & He)]; [done|]. by rewrite He.
Qed.

Lemma sse_loop_ext step step' finish finish' ls pt et n :
  Forall (fun l => forall pt et, step l.1 pt et = step' l.1 pt et) ls ->
  (forall pt et n, finish pt et n = finish' pt et n) ->
  sse_loop sink step finish ls pt et n = sse_loop sink step' finish' ls pt et n.
Proof.
  intros Hl Hf. revert pt et n. induction Hl as [|[raw ctx] ls Hx Hl IH]; intros pt et n; cbn [sse_loop]; [apply Hf|].
  cbn [fst] in Hx. rewrite Hx. destruct ctx; [done|]. destruct (step' raw pt et) as [[[|e|c] pt'] et']; [apply IH|done|].
  by rewrite IH.
Qed.

(** A line that does not end the stream. *)
Definition open_line (l : string * option error) : Prop :=
  clean_line l /\ forall pt et, match (openai_line decode l.1 pt et).1.1 with Emit c => ac_Done c = false | _ => True end.

Lemma sse_loop_open finish ls pt et n :
  (forall n c, sink n c = None) -> Forall open_line ls ->
  exists out pt' et' n', Forall (fun c => ac_Done c = false) out /\
    sse_loop sink (openai_line decode) finish ls pt et n =
      ((finish pt' et' n').1, out ++ (finish pt' et' n').2)%list /\
    forall finish', sse_loop sink (openai_line decode) finish' ls pt et n =
      ((finish' pt' et' n').1, out ++ (finish' pt' et' n').2)%list.
Proof.
  intros Hs Hl. revert pt et n. induction Hl as [|[raw ctx] ls [[Hc Hp] Ho] Hl IH]; intros pt et n.
  { exists [], pt, et, n. cbn [sse_loop app]. split_and!; [constructor|by destruct (finish pt et n)|].
    intros finish'. by destruct (finish' pt et n). }
  cbn [fst snd] in *. subst ctx. specialize (Ho pt et). cbn [sse_loop].
  destruct (openai_line decode raw pt et) as [[[|e|c] pt1] et1] eqn:El; cbn [fst] in Ho.
  - apply IH.
  - exfalso. revert El Hp. unfold openai_line. destruct (payload_of raw) as [p|]; [|done].
    destruct (String.eqb p "[DONE]"); [done|]. destruct (decode p) as [ch|]; [|done].
    unfold after_decode. destruct (token_counts ch pt et), (first_choice ch). by case_if.
  - rewrite Hs, Ho. destruct (IH pt1 et1 (S n)) as (out & pt' & et' & n' & Hout & E & Hall).
    exists (c :: out), pt', et', n'. split_and!; [by constructor|by rewrite E|]. intros finish'. by rewrite Hall.
Qed.
End Streams.

(** *** Collecting what a worker sends *)

Lemma collect_texts pre rest b u finish :
  Forall (fun c => ac_Done c = false) pre ->
  collect_loop ((Ok <$> (token_chunk <$> pre)) ++ rest)%list b u finish =
    collect_loop rest (b ++ concat_str (ac_Text <$> pre)) u finish.
Proof.
  intros Hp. revert b. induction Hp as [|c pre Hc Hp IH]; intros b; [cbn; by rewrite str_app_nil_r|].
  assert (token_chunk c = mkChunk (ac_Text c) false "" None) as Et by (unfold token_chunk; by rewrite Hc).
  rewrite !fmap_cons, Et. cbn [app collect_loop concat_str Done Text]. by rewrite <- str_app_assoc, <- IH.
Qed.

Lemma collect_complete out :
  complete out ->
  exists final, list.last out = Some final /\ ac_Done final = true /\
    collect (Ok (as_stream (None, token_chunk <$> out))) =
      Ok (concat_str (ac_Text <$> out), Some (usage_of (mkUsage (ac_PromptTokens final) (ac_EvalTokens final))),
          ac_FinishReason final).
Proof.
  intros (pre & final & -> & Hd & Hp). exists final. rewrite last_snoc. split_and!; [done|done|].
  unfold collect, as_stream. cbn [fst snd]. rewrite app_nil_r, !fmap_app, collect_texts by done.
  cbn [fmap list_fmap]. unfold token_chunk. rewrite Hd. cbn. by rewrite concat_str_app; cbn; rewrite str_app_nil_r.
Qed.

Lemma lookup_set_if b k v m k' : set_if b k v m !! k' = if b && String.eqb k k' then Some v else m !! k'.
Proof.
  unfold set_if. destruct b; [|done]. cbn [andb]. destruct (String.eqb_spec k k') as [->|Hne].
  - apply lookup_insert_eq.
  - by rewrite lookup_insert_ne.
Qed.

(** ** Properties *)

Section AdapterProperties.
Context `{UnicodeTables} (decode : string -> option sseChunk) (sink : nat -> AdapterChunk -> option error).
Hypothesis sink_accepts : forall n c, sink n c = None.

(** A generation that succeeds is complete, and the gateway reads it back:
    when the vLLM adapter returns without error, it has sent texts followed by
    exactly one final chunk, and the answer the gateway collects from the
    worker's stream is the concatenation of the texts with the finish reason
    and the token counts of that chunk. *)
Theorem vllm_answer_collected `{GrpcStatus} a keepAlive req topK post out :
  g_Prompt req <> "" -> g_BaseModel req <> "" ->
  vllm_Generate decode sink a (mkAdapterReq (g_BaseModel req) (g_Prompt req)
    (Some (server_options (g_Sampling req) topK)) keepAlive) post = (None, out) ->
  complete out /\
  exists final, list.last out = Some final /\
    collect (Ok (as_stream (server_Generate (fun r => vllm_Generate decode sink a r post) keepAlive req topK))) =
      Ok (concat_str (ac_Text <$> out), Some (usage_of (mkUsage (ac_PromptTokens final) (ac_EvalTokens final))),
          ac_FinishReason final).
Proof.
  intros Hp Hb E. unfold server_Generate.
  destruct (String.eqb_spec (g_Prompt req) ""); [done|]. destruct (String.eqb_spec (g_BaseModel req) ""); [done|].
  set (r := mkAdapterReq _ _ _ _) in *. rewrite E. cbn [mapError].
  assert (complete out) as Hc.
  { assert ((vllm_Generate decode sink a r post).1 = None -> complete (vllm_Generate decode sink a r post).2) as Hc;
      [|rewrite E in Hc; by apply Hc].
    unfold vllm_Generate. case_if; [done|]. case_if; [done|].
    destruct post as [[[status msg] body]|[e ctx]]; [|done]. case_if; [done|]. case_if; [done|].
    apply sse_loop_complete; [done|]. intros. by apply vllm_end_complete. }
  split; [done|]. destruct (collect_complete out Hc) as (final & Hl & _ & Ec). by exists final.
Qed.

(** The provider backend and the vLLM adapter read a runtime's events
    alike: on a stream whose payloads all decode and report no error, and that
    ends without a scanner error, they send the same chunks and return the
    same result. *)
Theorem adapters_agree_on_clean_streams a model req msg body :
  model <> "" -> ar_Model req <> "" -> ar_Prompt req <> "" ->
  s_err body = None -> Forall (clean_line decode) (s_lines body) ->
  vllm_Generate decode sink a req (Ok (200, msg, body)) = openai_Generate decode sink model req (Ok (200, msg, body)).
Proof.
  intros Hm Hr Hp He Hl. unfold vllm_Generate, openai_Generate.
  destruct (String.eqb_spec (ar_Model req) ""); [done|]. destruct (String.eqb_spec (ar_Prompt req) ""); [done|].
  destruct (String.eqb_spec model ""); [done|]. cbn [andb orb Z.eqb negb Pos.eqb].
  apply sse_loop_ext.
  - eapply list.Forall_impl; [exact Hl|]. intros l Hc pt et. by apply (clean_line_same decode (ar_Model req) l).
  - intros. unfold vllm_end. by rewrite He.
Qed.

(** The provider backend reports a broken stream as complete: when the
    connection fails after some text, before the end of the stream, the vLLM
    adapter returns an error after the texts, while the provider backend,
    which does not ask the scanner for its error, sends a final chunk with
    finish reason stop and returns success. *)
Theorem truncated_stream_reported_complete a model req msg ls e ctx :
  model <> "" -> ar_Model req <> "" -> ar_Prompt req <> "" -> Forall (open_line decode) ls ->
  let post := Ok (200, msg, mkScan ls (Some e) ctx) in
  exists texts pt et,
    vllm_Generate decode sink a req post = (Some (match ctx with Some c => c | None => EWrap e "vllm stream" end), texts) /\
    openai_Generate decode sink model req post = (None, texts ++ [done_chunk "" "stop" pt et])%list /\
    Forall (fun c => ac_Done c = false) texts.
Proof.
  intros Hm Hr Hp Hl post. unfold vllm_Generate, openai_Generate, post.
  destruct (String.eqb_spec (ar_Model req) ""); [done|]. destruct (String.eqb_spec (ar_Prompt req) ""); [done|].
  destruct (String.eqb_spec model ""); [done|]. cbn [andb orb Z.eqb negb Pos.eqb s_lines].
  destruct (sse_loop_open decode sink (send_stop sink) ls 0 0 0 sink_accepts Hl)
    as (out & pt & et & n' & Hout & E & Hall).
  exists out, pt, et. rewrite E. cbn [send_stop fst snd]. rewrite sink_accepts. split_and!; [|done|done].
  rewrite (sse_loop_ext sink _ (openai_line decode) _ (vllm_end sink (mkScan ls (Some e) ctx))).
  - rewrite (Hall (vllm_end sink (mkScan ls (Some e) ctx))). cbn. by rewrite app_nil_r.
  - eapply list.Forall_impl; [exact Hl|]. intros l [Hc _] pt1 et1. by apply (clean_line_same decode (ar_Model req) l).
  - done.
Qed.

(** Sampling parameters do not reach vLLM: whatever temperature, top-p or
    token limit a request carries, the body the vLLM adapter posts has none of
    them, because the worker's server stores them with types the adapter does
    not look for; the provider path converts them and sends what is set. *)
Theorem sampling_dropped_by_vllm sp topK s :
  vllm_body (Some (server_options sp topK)) = mkBody None None None /\
  (feqb (Temperature s) f_zero = false -> feqb (TopP s) f_zero = false -> 0 < MaxTokens s ->
   openai_body (Some (provider_options (Some s))) =
     mkBody (Some (widen (Temperature s))) (Some (widen (TopP s))) (Some (MaxTokens s))).
Proof.
  split.
  - unfold vllm_body, float64_at, posint_at, server_options. destruct sp as [p|]; [|by rewrite !lookup_empty].
    rewrite !lookup_set_if, !lookup_empty. cbn [String.eqb Ascii.eqb Bool.eqb]. rewrite !andb_false_r, !andb_true_r.
    f_equal; by repeat case_if.
  - intros Ht Hp Hn. unfold openai_body, float64_at, posint_at, provider_options. rewrite !lookup_set_if, Ht, Hp.
    rewrite (proj2 (Z.ltb_lt _ _) Hn). cbn. by rewrite (proj2 (Z.ltb_lt _ _) Hn).
Qed.
End AdapterProperties.

(** C40: the status of a worker's failure reaches the client: the gRPC status
    the worker's server returns for an adapter's error is mapped by the
    gateway to 404 for a model the runtime does not have, 408 and 504 for a
    cancelled or expired context, and 500 for any other error, as long as the
    error is one of the program's and the runtime's own texts that carries no
    gRPC status itself (an error of a library may carry one). *)
Theorem worker_error_to_http `{GrpcStatus} e :
  statusless e = true ->
  exists e', mapError (Some e) = Some e' /\
    http_status (mapGRPCError e') =
      (if errors_Is e ErrCtxCanceled then 408
       else if errors_Is e ErrCtxDeadlineExceeded then 504
       else match as_model_not_found e with Some _ => 404 | None => 500 end).
Proof.
  intros Hs. unfold mapError. rewrite (FromError_none e Hs).
  destruct (errors_Is e ErrCtxCanceled); [eexists; split; [done|]; unfold mapGRPCError; by rewrite FromError_status|].
  destruct (errors_Is e ErrCtxDeadlineExceeded); [eexists; split; [done|]; unfold mapGRPCError; by rewrite FromError_status|].
  destruct (as_model_not_found e); eexists; (split; [done|]); unfold mapGRPCError; by rewrite FromError_status.
Qed.

(** *** Witnesses *)

Definition accepts (n : nat) (c : AdapterChunk) : option error := None.

(** A decoder for two payloads. *)
Definition toy_decode (p : string) : option sseChunk :=
  if String.eqb p "hel" then Some (mkSSE [("hel", None)] None None)
  else if String.eqb p "lo" then Some (mkSSE [("lo", Some "stop")] (Some (3, 2)) None)
  else None.

Definition hi_req : GenerateRequest := mkGenerate "qwen" None "hi" None.

Definition hello_post : exchange := Ok (200, "", mkScan [("data: hel", None); ("", None); ("data: lo", None)] None None).

Lemma vllm_answer_collected_witness :
  exists final, list.last [text_chunk "hel"; done_chunk "lo" "stop" 3 2] = Some final /\
    collect (Ok (as_stream (@server_Generate plain_grpc
      (fun r => @vllm_Generate ascii_tables toy_decode accepts (mkVllm "" "") r hello_post) "" hi_req 0))) =
    Ok ("hello", Some (usage_of (mkUsage (ac_PromptTokens final) (ac_EvalTokens final))), ac_FinishReason final).
Proof.
  destruct (@vllm_answer_collected ascii_tables toy_decode accepts (fun _ _ => eq_refl) plain_grpc (mkVllm "" "") ""
    hi_req 0 hello_post [text_chunk "hel"; done_chunk "lo" "stop" 3 2]) as [_ Hc].
  - discriminate.
  - discriminate.
  - vm_compute. reflexivity.
  - exact Hc.
Defined.

Definition hi_adapter : AdapterRequest := mkAdapterReq "qwen" "hi" None "".

Lemma hel_open : Forall (@open_line ascii_tables toy_decode) [("data: hel", None)].
Proof.
  constructor; [|constructor]. split.
  - split; [reflexivity|]. vm_compute. right. eexists. split; reflexivity.
  - intros pt et. vm_compute. reflexivity.
Qed.

Lemma adapters_agree_on_clean_streams_witness :
  @vllm_Generate ascii_tables toy_decode accepts (mkVllm "" "") hi_adapter (Ok (200, "", mkScan [("data: hel", None)] None None)) =
  @openai_Generate ascii_tables toy_decode accepts "qwen" hi_adapter (Ok (200, "", mkScan [("data: hel", None)] None None)).
Proof.
  apply (@adapters_agree_on_clean_streams ascii_tables toy_decode accepts (mkVllm "" "") "qwen" hi_adapter "").
  - discriminate.
  - discriminate.
  - discriminate.
  - reflexivity.
  - eapply list.Forall_impl; [exact hel_open|]. intros l [Hc _]. exact Hc.
Defined.

Lemma truncated_stream_reported_complete_witness :
  exists texts pt et,
    @vllm_Generate ascii_tables toy_decode accepts (mkVllm "" "") hi_adapter
      (Ok (200, "", mkScan [("data: hel", None)] (Some ErrUnexpectedEOF) None)) = (Some (EWrap ErrUnexpectedEOF "vllm stream"), texts) /\
    @openai_Generate ascii_tables toy_decode accepts "qwen" hi_adapter
      (Ok (200, "", mkScan [("data: hel", None)] (Some ErrUnexpectedEOF) None)) = (None, texts ++ [done_chunk "" "stop" pt et])%list /\
    Forall (fun c => ac_Done c = false) texts.
Proof.
  apply (@truncated_stream_reported_complete ascii_tables toy_decode accepts (fun _ _ => eq_refl) (mkVllm "" "") "qwen"
    hi_adapter "" [("data: hel", None)] ErrUnexpectedEOF None).
  - discriminate.
  - discriminate.
  - discriminate.
  - exact hel_open.
Defined.

Lemma sampling_dropped_by_vllm_witness :
  openai_body (Some (provider_options (Some (mkSampling f_one f_one 64)))) = mkBody (Some f_one) (Some f_one) (Some 64).
Proof.
  destruct (sampling_dropped_by_vllm None 0 (mkSampling f_one f_one 64)) as [_ Hs].
  apply Hs; vm_compute; reflexivity.
Defined.

Lemma worker_error_to_http_witness :
  exists e', @mapError plain_grpc (Some (EWrap (EModelNotFoundError "qwen") "worker")) = Some e' /\
    http_status (@mapGRPCError plain_grpc e') = 404.
Proof. apply (@worker_error_to_http plain_grpc (EWrap (EModelNotFoundError "qwen") "worker")). reflexivity. Defined.
