(* ===== verification/WorkerLoad.v ===== *)
(** * What a worker knows of its runtime (worker/adapters, cmd/forge-worker)

    The probes of the adapters (Ready, Capabilities, HasModel), the reading of
    vLLM's metrics and the loop that puts them into the heartbeats.  HTTP
    answers and the parser of numbers are inputs. *)

From Stdlib Require Import Ascii Floats.SpecFloat.
From S2P Require Import Prelude Float64 Rounding FloatRange GoStrings GoFormat Strconv Errors Routing Health HeartbeatWriter WorkerAdapters.

(** ** Splitting *)

(** [strings.Split(s, sep)] at a byte *)
Fixpoint Split (s : string) (sep : ascii) : list string :=
  match s with
  | "" => [""]
  | String a s' =>
      if Ascii.eqb a sep then "" :: Split s' sep
      else match Split s' sep with
           | [] => [String a ""]
           | h :: t => String a h :: t
           end
  end.

(** [strings.Fields]: the runs of bytes that are not space; beyond ASCII the
    Unicode tables decide what is space. *)
Fixpoint ascii_fields (cur : string) (s : string) : list string :=
  match s with
  | "" => if String.eqb cur "" then [] else [cur]
  | String a s' =>
      if is_space a then (if String.eqb cur "" then [] else [cur]) ++ ascii_fields "" s'
      else ascii_fields (cur ++ String a "") s'
  end%list.

Class UnicodeFields := { unicode_fields : string -> list string }.

Definition Fields `{UnicodeFields} (s : string) : list string :=
  if str_forall is_ascii s then ascii_fields "" s else unicode_fields s.

(** ** Metrics of vLLM *)

Record LoadSnapshot := mkLoad { Running : float64; Waiting : float64; l_KVCacheUsage : float64; l_GPUCacheUsage : float64; UpdatedAt : Z }.

Section Metrics.
Context `{UnicodeTables} `{UnicodeFields}.

(** [name], [value] of a line, unless it has no value *)
Definition splitMetric (line : string) : option (string * float64) :=
  match Fields line with
  | (first :: _ :: _) as fields =>
      let name := match IndexByte first "{" with Some i => str_take i first | None => first end in
      match ParseFloat (default "" (list.last fields)) with
      | None => None
      | Some v => Some (name, v)
      end
  | _ => None
  end.

Definition named (name metric : string) : bool := HasPrefix name ("vllm:" ++ metric) || HasPrefix name ("vllm_" ++ metric).

(** One line of the loop of [parsePrometheus]. *)
Definition metric_line (snap : LoadSnapshot) (line : string) : LoadSnapshot :=
  let line := TrimSpace line in
  if String.eqb line "" || HasPrefix line "#" then snap
  else match splitMetric line with
  | None => snap
  | Some (name, v) =>
      if named name "num_requests_running" then mkLoad v (Waiting snap) (l_KVCacheUsage snap) (l_GPUCacheUsage snap) (UpdatedAt snap)
      else if named name "num_requests_waiting" then mkLoad (Running snap) v (l_KVCacheUsage snap) (l_GPUCacheUsage snap) (UpdatedAt snap)
      else if named name "kv_cache_usage_perc" then mkLoad (Running snap) (Waiting snap) v (l_GPUCacheUsage snap) (UpdatedAt snap)
      else if named name "gpu_cache_usage_perc" then mkLoad (Running snap) (Waiting snap) (l_KVCacheUsage snap) v (UpdatedAt snap)
      else snap
  end.

Definition no_load : LoadSnapshot := mkLoad f_zero f_zero f_zero f_zero 0.

Definition newline_byte : ascii := "010".

Definition parsePrometheus (body : string) : LoadSnapshot := foldl metric_line no_load (Split body newline_byte).

(** [ScrapeMetrics]: [load] is the snapshot the adapter keeps. *)
Definition ScrapeMetrics (load : LoadSnapshot) (resp : result error (Z * string)) (now : Z) : result error LoadSnapshot * LoadSnapshot :=
  match resp with
  | Err e => (Err e, load)
  | Ok (status, body) =>
      if 399 <? status then (Err (ENew ("vllm metrics: status " ++ Itoa status)), load)
      else
        let snap := parsePrometheus body in
        let snap := mkLoad (Running snap) (Waiting snap) (l_KVCacheUsage snap) (l_GPUCacheUsage snap) now in
        (Ok snap, snap)
  end.
End Metrics.

(** [LastLoad] *)
Definition LastLoad (load : LoadSnapshot) : LoadSnapshot := load.

(** [int64(x)] with the result out of range left open *)
Definition to_int64 (oob : float64 -> Z) (x : float64) : Z :=
  match x with
  | S754_zero _ => 0
  | S754_finite _ _ _ => if (- two63 <=? trunc x) && (trunc x <? two63) then trunc x else wrap_i64 (oob x)
  | _ => wrap_i64 (oob x)
  end.

(** One tick of [scrapeVLLMLoad]. *)
Definition scrape_tick (oob : float64 -> Z) (scraped : result error LoadSnapshot) (hb : HeartbeatWriter) : HeartbeatWriter :=
  match scraped with
  | Err _ => hb
  | Ok snap =>
      let hb := SetLoad hb (to_int64 oob (Running snap)) (to_int64 oob (Waiting snap)) in
      SetCacheUsage oob hb (l_KVCacheUsage snap) (l_GPUCacheUsage snap)
  end.

(** ** Probes *)

(** The answer of a GET: a failure, or the status. *)
Definition vllm_Ready (resp : result error Z) : bool := match resp with Err _ => false | Ok status => status =? 200 end.
Definition ollama_Ready (resp : result error Z) : bool := match resp with Err _ => false | Ok status => status =? 200 end.
Definition openai_Ready (apiKey : string) (resp : result error Z) : bool :=
  match resp with Err _ => negb (String.eqb apiKey "") | Ok status => status <? 500 end.

Record Capabilities := mkCapabilities { cap_Runtime : string; cap_Models : list string }.

(** The body is decoded when the status is a success: the names listed. *)
Definition vllm_Capabilities (a : vllm) (resp : result error (Z * list string)) : result error Capabilities :=
  match resp with
  | Err e => Err (EWrap e "vllm models")
  | Ok (status, data) =>
      if 399 <? status then Err (ENew ("vllm models: status " ++ Itoa status))
      else
        let models := toForge a <$> data in
        let models := match models with
                      | [] => if negb (String.eqb (forgeModel a) "") then [forgeModel a] else []
                      | _ => models
                      end in
        Ok (mkCapabilities "vllm" models)
  end.

Definition ollama_Capabilities (resp : result error (Z * list string)) : result error Capabilities :=
  match resp with
  | Err e => Err (EWrap e "ollama tags")
  | Ok (status, names) =>
      if 399 <? status then Err (ENew ("ollama tags: status " ++ Itoa status)) else Ok (mkCapabilities "ollama" names)
  end.

Definition HasModel (resp : result error (Z * list string)) (model : string) : result error bool :=
  match ollama_Capabilities resp with
  | Err e => Err e
  | Ok caps => Ok (existsb (fun m => String.eqb m model || HasPrefix m (model ++ ":")) (cap_Models caps))
  end.

(** ** Lemmas *)

Lemma Split_no_sep s sep : no_byte sep s -> Split s sep = [s].
Proof.
  induction s as [|a s IH]; [done|]. intros [Ha Hs]%no_byte_cons. cbn [Split].
  destruct (Ascii.eqb_spec a sep); [done|]. by rewrite IH.
Qed.

Lemma Split_app s sep t : no_byte sep s -> Split (s ++ String sep t) sep = s :: Split t sep.
Proof.
  induction s as [|a s IH]; cbn [String.append Split].
  - intros _. by rewrite Ascii.eqb_refl.
  - intros [Ha Hs]%no_byte_cons. destruct (Ascii.eqb_spec a sep); [done|]. by rewrite IH.
Qed.

(** The lines of a body that ends with a newline. *)
Definition lines_of (ls : list string) : string := foldr (fun l rest => l ++ String newline_byte rest) "" ls.

Lemma Split_lines ls : Forall (no_byte newline_byte) ls -> Split (lines_of ls) newline_byte = (ls ++ [""])%list.
Proof.
  induction 1 as [|l ls Hl _ IH]; [done|]. cbn [lines_of foldr]. fold (lines_of ls). by rewrite Split_app, IH.
Qed.

(** A word: bytes that are neither space nor beyond ASCII. *)
Definition word (s : string) : Prop := str_forall (fun a => is_ascii a && negb (is_space a)) s = true.

Lemma word_cons a s : word (String a s) <-> is_ascii a = true /\ is_space a = false /\ word s.
Proof. unfold word. cbn. rewrite !andb_true_iff, negb_true_iff. tauto. Qed.

Lemma word_ascii s : word s -> str_forall is_ascii s = true.
Proof. induction s as [|a s IH]; [done|]. intros (Ha & _ & Hs)%word_cons. cbn. by rewrite Ha, IH. Qed.

Lemma ascii_fields_word cur s : word s -> cur ++ s <> "" -> ascii_fields cur s = [cur ++ s].
Proof.
  revert cur. induction s as [|a s IH]; intros cur; cbn [ascii_fields].
  - rewrite str_app_nil_r. intros _ Hne. by destruct (String.eqb_spec cur "").
  - intros (_ & Ha & Hs)%word_cons Hne. rewrite Ha. rewrite IH; [by rewrite str_app_assoc|done|].
    rewrite str_app_assoc. exact Hne.
Qed.

Lemma ascii_fields_space cur s t : word s -> cur ++ s <> "" ->
  ascii_fields cur (s ++ String " " t) = (cur ++ s) :: ascii_fields "" t.
Proof.
  revert cur. induction s as [|a s IH]; intros cur; cbn [String.append ascii_fields].
  - rewrite str_app_nil_r. intros _ Hne. cbn. by destruct (String.eqb_spec cur "").
  - intros (_ & Ha & Hs)%word_cons Hne. rewrite Ha. rewrite IH; [by rewrite str_app_assoc|done|].
    rewrite str_app_assoc. exact Hne.
Qed.

Lemma Fields_two `{UnicodeFields} s t : word s -> word t -> s <> "" -> t <> "" -> Fields (s ++ " " ++ t) = [s; t].
Proof.
  intros Hs Ht Ns Nt. unfold Fields. rewrite str_forall_app, (word_ascii s Hs). cbn [String.append str_forall].
  rewrite (word_ascii t Ht). cbn. rewrite ascii_fields_space by done. f_equal. by rewrite ascii_fields_word.
Qed.

Lemma trim_left_word s t : word s -> s <> "" -> trim_left (s ++ t) = s ++ t.
Proof.
  destruct s as [|a s]; [done|]. intros (_ & Ha & _)%word_cons _. cbn [String.append trim_left]. by rewrite Ha.
Qed.

Lemma trim_right_word s t : word t -> t <> "" -> trim_right (s ++ t) = s ++ t.
Proof.
  intros Ht Hne. assert (trim_right t = t) as Et.
  { clear s. induction t as [|a t IH]; [done|]. apply word_cons in Ht as (_ & Ha & Ht). cbn [trim_right].
    destruct t as [|b t]; [cbn; by rewrite Ha|]. by rewrite IH. }
  induction s as [|a s IH]; [done|]. cbn [String.append trim_right]. rewrite IH.
  destruct (s ++ t) as [|b u] eqn:E; [|done]. destruct s; [by cbn in E; subst|done].
Qed.

Lemma TrimSpace_two `{UnicodeTables} s t : word s -> word t -> s <> "" -> t <> "" -> TrimSpace (s ++ " " ++ t) = s ++ " " ++ t.
Proof.
  intros Hs Ht Ns Nt. unfold TrimSpace. rewrite str_forall_app, (word_ascii s Hs). cbn [String.append str_forall].
  rewrite (word_ascii t Ht). cbn. rewrite trim_left_word by done.
  change (String " " t) with (" " ++ t). rewrite <- str_app_assoc. by apply trim_right_word.
Qed.

Lemma splitMetric_line `{UnicodeFields} name labels num v :
  word (name ++ labels) -> no_byte "{" name -> name <> "" -> (labels = "" \/ HasPrefix labels "{" = true) ->
  word num -> num <> "" -> ParseFloat num = Some v ->
  splitMetric ((name ++ labels) ++ " " ++ num) = Some (name, v).
Proof.
  intros Hw Hn Hne Hl Hnum Hnn Hv. unfold splitMetric. rewrite Fields_two; [|done|done|by destruct name|done].
  change (default "" (list.last [name ++ labels; num])) with num. rewrite Hv. destruct Hl as [-> | [rest ->]%HasPrefix_spec].
  - by rewrite str_app_nil_r, IndexByte_None.
  - change ("{" ++ rest) with (String "{" rest). by rewrite (IndexByte_app name "{" rest Hn), str_take_app.
Qed.

(** ** Properties *)

(** *** A page of metrics, as the exposition format writes it *)

Inductive gauge : Type := GRunning | GWaiting | GKV | GGPU.

#[export] Instance gauge_eq_dec : EqDecision gauge.
Proof. solve_decision. Defined.

Definition read (g : gauge) (s : LoadSnapshot) : float64 :=
  match g with GRunning => Running s | GWaiting => Waiting s | GKV => l_KVCacheUsage s | GGPU => l_GPUCacheUsage s end.

(** The names vLLM gives the gauges. *)
Definition gauge_names (g : gauge) : list string :=
  match g with
  | GRunning => ["vllm:num_requests_running"; "vllm_num_requests_running"]
  | GWaiting => ["vllm:num_requests_waiting"; "vllm_num_requests_waiting"]
  | GKV => ["vllm:kv_cache_usage_perc"; "vllm_kv_cache_usage_perc"]
  | GGPU => ["vllm:gpu_cache_usage_perc"; "vllm_gpu_cache_usage_perc"]
  end.

Inductive page_line : Type :=
| Blank
| Comment (text : string)
| Sample (name labels num : string).

Definition line_text (l : page_line) : string :=
  match l with
  | Blank => ""
  | Comment text => "#" ++ text
  | Sample name labels num => (name ++ labels) ++ " " ++ num
  end.

(** The lines the theorem is about: comments in ASCII; samples of a name, the
    labels in braces if there are any, one space and a number, without other
    spaces, and without a timestamp; and a name is a gauge's or does not begin
    with one. *)
Definition line_ok (l : page_line) : Prop :=
  match l with
  | Blank => True
  | Comment text => str_forall is_ascii text = true /\ no_byte newline_byte text
  | Sample name labels num =>
      word (name ++ labels) /\ no_byte "{" name /\ name <> "" /\ HasPrefix name "#" = false /\
      (labels = "" \/ HasPrefix labels "{" = true) /\ word num /\ num <> "" /\
      ((exists g, name ∈ gauge_names g) \/ forall g n, n ∈ gauge_names g -> HasPrefix name n = false)
  end.

(** What a line says of a gauge. *)
Definition value_in (g : gauge) (l : page_line) : option float64 :=
  match l with
  | Sample name _ num => if bool_decide (name ∈ gauge_names g) then ParseFloat num else None
  | _ => None
  end.

Section Spec.
Context `{UnicodeTables} `{UnicodeFields}.

Lemma word_no_newline s : word s -> no_byte newline_byte s.
Proof.
  induction s as [|a s IH]; [done|]. intros (_ & Ha & Hs)%word_cons. apply no_byte_cons. split; [|by apply IH].
  intros ->. by vm_compute in Ha.
Qed.

Lemma line_no_newline l : line_ok l -> no_byte newline_byte (line_text l).
Proof.
  destruct l as [|text|name labels num]; cbn [line_ok line_text]; [done| |].
  - intros [_ Ht]. apply no_byte_cons. split; [by vm_compute|done].
  - intros (Hw & _ & _ & _ & _ & Hn & _). apply no_byte_app. split; [by apply word_no_newline|]. apply no_byte_cons. split; [by vm_compute|by apply word_no_newline].
Qed.

Lemma trim_right_hash text : exists rest, trim_right (String "#" text) = String "#" rest.
Proof. cbn [trim_right]. destruct (trim_right text); [by exists ""|by eexists]. Qed.

Lemma comment_skipped snap text : str_forall is_ascii text = true -> metric_line snap ("#" ++ text) = snap.
Proof.
  intros Ha. unfold metric_line. assert (exists rest, TrimSpace ("#" ++ text) = String "#" rest) as [rest ->].
  2:{ change (String "#" rest) with ("#" ++ rest). by rewrite HasPrefix_app, orb_true_r. }
  unfold TrimSpace. cbn [String.append str_forall]. rewrite Ha. exact (trim_right_hash text).
Qed.

(** A sample sets the gauge it is named after, and no other. *)
Lemma sample_read snap name labels num g :
  line_ok (Sample name labels num) ->
  read g (metric_line snap (line_text (Sample name labels num))) = default (read g snap) (value_in g (Sample name labels num)).
Proof.
  intros (Hw & Hb & Hne & Hh & Hl & Hn & Hnn & Hg). cbn [line_text value_in]. unfold metric_line.
  rewrite TrimSpace_two; [|done|done|by destruct name|done].
  assert (String.eqb ((name ++ labels) ++ " " ++ num) "" = false) as -> by by destruct name.
  assert (HasPrefix ((name ++ labels) ++ " " ++ num) "#" = false) as ->.
  { rewrite str_app_assoc. apply HasPrefix_false_app; [done|]. destruct name; [done|cbn; lia]. }
  cbn [orb]. destruct (ParseFloat num) as [v|] eqn:Ev.
  2:{ unfold splitMetric. rewrite Fields_two; [|done|done|by destruct name|done].
      change (default "" (list.last [name ++ labels; num])) with num. rewrite Ev. by destruct (bool_decide _). }
  rewrite (splitMetric_line name labels num v) by done. unfold named. destruct Hg as [[g0 Hg]|Hg].
  - destruct g0; cbn [gauge_names] in Hg; rewrite !elem_of_cons, elem_of_nil in Hg; destruct Hg as [->|[->|[]]]; destruct g; reflexivity.
  - assert (forall m g1, ("vllm:" ++ m) ∈ gauge_names g1 -> ("vllm_" ++ m) ∈ gauge_names g1 ->
      HasPrefix name ("vllm:" ++ m) || HasPrefix name ("vllm_" ++ m) = false) as Hno by (intros m g1 H1 H2; by rewrite (Hg g1 _ H1), (Hg g1 _ H2)).
    rewrite (Hno "num_requests_running" GRunning), (Hno "num_requests_waiting" GWaiting), (Hno "kv_cache_usage_perc" GKV),
      (Hno "gpu_cache_usage_perc" GGPU) by (apply (bool_decide_unpack _); vm_compute; exact I).
    rewrite bool_decide_eq_false_2; [done|]. intros Hin. specialize (Hg g name Hin).
    pose proof (HasPrefix_app name "") as Hp. rewrite str_app_nil_r in Hp. congruence.
Qed.

Lemma line_read snap l g : line_ok l -> read g (metric_line snap (line_text l)) = default (read g snap) (value_in g l).
Proof.
  intros Hl. destruct l as [|text|name labels num]; [done| |by apply sample_read].
  cbn [line_text]. destruct Hl as [Ha _]. by rewrite comment_skipped.
Qed.

Lemma lines_read g ls : Forall line_ok ls -> forall snap,
  read g (foldl metric_line snap (line_text <$> ls)) = default (read g snap) (list.last (omap (value_in g) ls)).
Proof.
  induction ls as [|l ls IH] using rev_ind; intros Hls snap; [done|]. apply Forall_app in Hls as [Hls Hl]. apply list.Forall_cons in Hl as [Hl _].
  rewrite fmap_app, foldl_app, omap_app. cbn [fmap list_fmap foldl]. rewrite line_read, IH by done. cbn [omap list_omap].
  destruct (value_in g l) as [v|]; [by rewrite last_snoc|by rewrite app_nil_r].
Qed.

(** C37: the load read from vLLM.  From an answer below 400 whose page is
    written in ASCII with blank lines, comments, and samples of the form
    name, labels in braces if any, one space, number, with no other space (so
    none in the value of a label) and no timestamp, the snapshot kept has for
    each of the four gauges the number of the last sample that has the gauge's
    name, with the colon or the underscore, whatever its labels and whatever
    the other samples, and zero when there is none; a sample whose number does
    not parse counts as none.  The names of the other metrics must not begin
    with a gauge's name, since only the beginning is compared. *)
Theorem scraped_gauges load status ls now :
  Forall line_ok ls -> status <= 399 ->
  exists snap, ScrapeMetrics load (Ok (status, lines_of (line_text <$> ls))) now = (Ok snap, snap) /\ UpdatedAt snap = now /\
    forall g, read g snap = default f_zero (list.last (omap (value_in g) ls)).
Proof.
  intros Hls Hst. unfold ScrapeMetrics. rewrite (proj2 (Z.ltb_ge _ _)) by lia. eexists. split; [reflexivity|]. split; [done|].
  intros g. assert (read g (parsePrometheus (lines_of (line_text <$> ls))) = default f_zero (list.last (omap (value_in g) ls))) as <-; [|by destruct g].
  unfold parsePrometheus. rewrite Split_lines, foldl_app.
  - cbn [foldl]. rewrite (line_read _ Blank) by done. rewrite lines_read by done. by destruct g.
  - apply Forall_fmap. eapply list.Forall_impl; [exact Hls|]. intros l. apply line_no_newline.
Qed.

(** The exposition format allows a timestamp after the value, which is then
    read as the value. *)
Theorem timestamp_read_as_value name num ts v w :
  word name -> name <> "" -> no_byte "{" name -> word num -> num <> "" -> word ts -> ts <> "" ->
  ParseFloat num = Some v -> ParseFloat ts = Some w ->
  splitMetric (name ++ " " ++ num ++ " " ++ ts) = Some (name, w).
Proof.
  intros Hn Nn Hb Hv Nv Ht Nt _ Hw. unfold splitMetric.
  assert (Fields (name ++ " " ++ num ++ " " ++ ts) = [name; num; ts]) as ->.
  { unfold Fields. rewrite str_forall_app, (word_ascii name Hn). cbn [String.append str_forall].
    rewrite str_forall_app, (word_ascii num Hv). cbn [String.append str_forall]. rewrite (word_ascii ts Ht). cbn.
    rewrite ascii_fields_space by done. f_equal. rewrite ascii_fields_space by done. f_equal. by rewrite ascii_fields_word. }
  change (default "" (list.last [name; num; ts])) with ts. by rewrite Hw, IndexByte_None.
Qed.
End Spec.

(** The load of the runtime in the heartbeat: the counts without their
    fraction, the usage in millionths. *)
Lemma to_int64_count n oob x : 0 <= n < 2 ^ 53 -> frange n x -> to_int64 oob x = trunc x.
Proof.
  intros Hn Hx. pose proof (trunc_range n x ltac:(lia) Hx) as Ht. destruct Hx as (_ & F & _).
  destruct x as [s| | |s m e]; try done. unfold to_int64. rewrite (proj2 (Z.leb_le _ _)) by (unfold two63; lia).
  by rewrite (proj2 (Z.ltb_lt _ _)) by (unfold two63; lia).
Qed.

(** A failed scrape leaves the heartbeat as it is; a successful one puts the
    counts the page reported into it, cut to integers, and nothing else of the
    worker changes. *)
Theorem scraped_load_in_heartbeat oob n snap hb t :
  0 <= n < 2 ^ 53 -> frange n (Running snap) -> frange n (Waiting snap) ->
  let shown := HeartbeatWriter.snapshot (scrape_tick oob (Ok snap) hb) t in
  Health.Inflight shown = trunc (Running snap) /\ Health.QueueDepth shown = trunc (Waiting snap) /\
  Health.ID shown = hw_id hb /\ Health.Ready shown = hw_ready hb /\
  (forall e, scrape_tick oob (Err e) hb = hb).
Proof.
  intros Hn Hr Hw. cbn. by rewrite (to_int64_count n oob _ Hn Hr), (to_int64_count n oob _ Hn Hw).
Qed.

(** *** Witnesses *)

Definition plain_fields : UnicodeFields := {| unicode_fields s := [s] |}.

Definition page : list page_line :=
  [Comment " HELP vllm:num_requests_running Number of requests"; Sample "vllm:num_requests_running" "{engine=0}" "3.0";
   Sample "vllm:kv_cache_usage_perc" "" "0.25"; Sample "process_cpu_seconds_total" "" "12.5"].

Lemma page_ok : Forall line_ok page.
Proof.
  assert (forall g n, n ∈ gauge_names g -> HasPrefix "process_cpu_seconds_total" n = false) as Hother.
  { intros [] n Hn; cbn in Hn; rewrite !elem_of_cons, elem_of_nil in Hn; by destruct Hn as [->|[->|[]]]. }
  constructor; [by split|]. constructor; [split_and!; try done; [by right|left; exists GRunning; by left]|].
  constructor; [split_and!; try done; [by left|left; exists GKV; by left]|]. constructor; [|constructor]. split_and!; try done; [by left|by right].
Qed.

Lemma scraped_gauges_witness :
  exists snap, (@ScrapeMetrics ascii_tables plain_fields no_load (Ok (200, lines_of (line_text <$> page))) 7).1 = Ok snap /\
    Running snap = f_of_Z 3 /\ l_KVCacheUsage snap = flit 1 4 /\ Waiting snap = f_zero.
Proof.
  destruct (@scraped_gauges ascii_tables plain_fields no_load 200 page 7) as (snap & E & _ & Hg).
  - exact page_ok.
  - lia.
  - exists snap. split; [rewrite E; reflexivity|]. split; [etransitivity; [exact (Hg GRunning)|vm_compute; reflexivity]|].
    split; [etransitivity; [exact (Hg GKV)|vm_compute; reflexivity]|etransitivity; [exact (Hg GWaiting)|vm_compute; reflexivity]].
Defined.

Lemma timestamp_read_as_value_witness :
  @splitMetric plain_fields "vllm:num_requests_running 3.0 1700000000" = Some ("vllm:num_requests_running", f_of_Z 1700000000).
Proof.
  apply (@timestamp_read_as_value plain_fields "vllm:num_requests_running" "3.0" "1700000000" (f_of_Z 3) (f_of_Z 1700000000));
    try reflexivity; discriminate.
Defined.

Lemma scraped_load_in_heartbeat_witness :
  Health.Inflight (HeartbeatWriter.snapshot (scrape_tick (fun _ => 0) (Ok (mkLoad (flit 7 2) f_zero f_zero f_zero 0)) beating) 0) = 3.
Proof.
  destruct (scraped_load_in_heartbeat (fun _ => 0) 10 (mkLoad (flit 7 2) f_zero f_zero f_zero 0) beating 0) as [Hi _].
  - lia.
  - apply (bool_decide_unpack _). vm_compute. exact I.
  - apply (bool_decide_unpack _). vm_compute. exact I.
  - exact Hi.
Defined.
