(* ===== verification/GatewayOpen.v ===== *)
(** * Opening a generation, activation and the streaming path
      (services/gateway: openGenerate of dispatch.go, provider_dial.go,
      activator.go; SetActivator, SetProviders, observeLatency, tryActivate of
      handler.go)

    What GatewayDispatch.v and GatewayHandler.v take as inputs: a stream is
    opened on a worker over gRPC, or on the backend of a provider, whose
    generation runs in a goroutine that feeds a channel; and a model without
    capacity is activated by the fleet manager and waited for.  The dialled
    workers, the provider's HTTP answers and the clock stay parameters. *)

From S2P Require Import Prelude Float64 GoStrings GoFormat Errors Failover Inflight Routing Rendezvous Candidates Scorers Chain GatewaySelect GatewayDispatch GatewayHandler FleetScaling FleetManager ProviderRegistry WorkerAdapters.

(** ** Provider streams *)

(** [chunkStream]: what is left in the channel, which the generation closes,
    and the error it stored before. *)
Record chunkStream := mkChunkStream { cs_ch : list TokenChunk; cs_err : option error }.

Definition Recv (s : chunkStream) : result error TokenChunk * chunkStream :=
  match cs_ch s with
  | c :: rest => (Ok c, mkChunkStream rest (cs_err s))
  | [] => (Err (default ErrEOF (cs_err s)), s)
  end.

Definition isProviderEndpoint (endpoint : string) : bool := HasPrefix endpoint "provider://".

(** The message the sink of [openProviderStream] makes of a chunk. *)
Definition provider_chunk (c : AdapterChunk) : TokenChunk :=
  mkChunk (ac_Text c) (ac_Done c) (ac_FinishReason c)
    (if ac_Done c then Some (mkUsage (ac_PromptTokens c) (ac_EvalTokens c)) else None).

(** The sink waits for the channel or for the end of the context; the n-th
    call fails with the error of the context.  The chunks that got through: *)
Fixpoint delivered (sink : nat -> AdapterChunk -> option error) (n : nat) (out : list AdapterChunk) : list AdapterChunk :=
  match out with
  | [] => []
  | c :: rest => match sink n c with None => c :: delivered sink (S n) rest | Some _ => delivered sink (S n) rest end
  end.

(** The answers of a [chunkStream], call after call, up to its first error. *)
Definition recv_all (s : chunkStream) : stream :=
  ((Ok <$> cs_ch s) ++ match cs_err s with Some e => [Err e] | None => [] end)%list.

Section Open.
Context `{UnicodeTables}.
Variable decode : string -> option sseChunk.
(** the provider's answer to the body a backend posts *)
Variable post : OpenAICompat -> string -> string -> sampling_body -> exchange.
Variable sink : nat -> AdapterChunk -> option error.

(** [OpenAICompat.Generate]: the model is resolved, the body built and the
    events of the answer read. *)
Definition backend_Generate (b : OpenAICompat) (req : AdapterRequest) : option error * list AdapterChunk :=
  let model := ResolveModel b (ar_Model req) in
  openai_Generate decode sink model req (post b model (ar_Prompt req) (openai_body (ar_Options req))).

(** [openProviderStream] *)
Definition openProviderStream (providers : option Registry) (worker : SelectedWorker) (genReq : GenerateRequest)
    : result error chunkStream :=
  match providers with
  | None => Err ErrUnexpectedEOF
  | Some r =>
      match (match Backend r (sw_ID worker) with
             | Some b => Some b
             | None => BackendByEndpoint r (sw_Endpoint worker)
             end) with
      | None => Err ErrUnexpectedEOF
      | Some backend =>
          let req := mkAdapterReq (g_BaseModel genReq) (g_Prompt genReq) (Some (provider_options (g_Sampling genReq))) "" in
          let '(err, out) := backend_Generate backend req in
          Ok (mkChunkStream (provider_chunk <$> delivered sink 0 out) err)
      end
  end.

(** The client of a worker: [dial] an endpoint, then call its Generate. *)
Variable dial : string -> result error (GenerateRequest -> result error stream).

(** [openGenerate] *)
Definition openGenerate (providers : option Registry) (worker : SelectedWorker) (genReq : GenerateRequest)
    : result error stream :=
  if isProviderEndpoint (sw_Endpoint worker) then
    match openProviderStream providers worker genReq with
    | Err e => Err e
    | Ok s => Ok (recv_all s)
    end
  else match dial (sw_Endpoint worker) with
       | Err _ => Err (EStatus Unavailable "dial worker")
       | Ok generate => generate genReq
       end.
End Open.

(** ** Activation *)

(** The interface [Activator], and [noopActivator]. *)
Record Activator := mkActivator { act_NeedsActivation : string -> bool; act_Activate : string -> option error }.

Definition noopActivator : Activator := mkActivator (fun _ => false) (fun _ => None).

Definition poll_interval : Z := 200 * millisecond.

Section Wait.
(** the readings of the clock, the k-th selection, and [ctx.Err()] if the
    context ends before the k-th pause does *)
Variable now : nat -> Z.
Variable select : nat -> go (result error SelectedWorker).
Variable ended : nat -> option error.

(** The loop of [waitForCapacity]; [None] when the fuel runs out. *)
Fixpoint wait_loop (deadline : Z) (fuel k : nat) (last : option error) : option (go (result error SelectedWorker)) :=
  match fuel with
  | O => None
  | S fuel =>
      if now k <? deadline then
        match select k with
        | Panics => Some Panics
        | Returns (Ok w) => Some (Returns (Ok w))
        | Returns (Err e) =>
            match ended k with
            | Some c => Some (Returns (Err c))
            | None => wait_loop deadline fuel (S k) (Some e)
            end
        end
      else Some (Returns (Err (default (ENew "no capacity after activate") last)))
  end.

(** One iteration for each pause that fits in the timeout. *)
Definition waitForCapacity (start timeout : Z) : option (go (result error SelectedWorker)) :=
  wait_loop (start + timeout) (Z.to_nat (timeout / poll_interval) + 2) 0 None.
End Wait.

(** The fields of the handler beyond those of GatewayHandler.v. *)
Record Wiring := mkWiring { activator : Activator; providers : option Registry; latency : option LatencyStore }.

Definition SetActivator (h : Wiring) (a : option Activator) : Wiring :=
  match a with Some a => mkWiring a (providers h) (latency h) | None => h end.

Definition SetProviders (h : Wiring) (p : option Registry) : Wiring := mkWiring (activator h) p (latency h).

Definition observeLatency `{GoMath} (h : Wiring) (workerID : string) (started now : Z) : Wiring :=
  match latency h with
  | None => h
  | Some l =>
      if String.eqb workerID "" then h
      else mkWiring (activator h) (providers h)
             (Some (Observe l workerID (f_of_Z (Z.quot (time_sub now started) millisecond)) now))
  end.

(** [tryActivate]: [select k] is the k-th [SelectWorker] for the model with an
    empty prompt. *)
Definition tryActivate (a : Activator) (now : nat -> Z) (select : nat -> go (result error SelectedWorker))
    (ended : nat -> option error) (start : Z) (model : string) : option (go bool) :=
  if negb (act_NeedsActivation a model) then Some (Returns false)
  else match act_Activate a model with
  | Some _ => Some (Returns false)
  | None =>
      match waitForCapacity now select ended start (5 * second) with
      | None => None
      | Some Panics => Some Panics
      | Some (Returns (Ok _)) => Some (Returns true)
      | Some (Returns (Err _)) => Some (Returns false)
      end
  end.

(** The fleet manager as the gateway's activator. *)
Definition fleet_activator (m : Manager) (snap : option RoutingSnapshot) (provisioned : result error string) : Activator :=
  mkActivator (NeedsActivation m snap) (fun model => (Activate true m snap model provisioned).1).

(** ** Lemmas *)

(** The first error of a stream is its last answer. *)
Lemma recv_all_ended s : ended_by_error (recv_all s).
Proof.
  intros pre e rest E. unfold recv_all in E. destruct s as [ch err]. cbn in E. revert pre E.
  induction ch as [|c ch IH]; intros [|x pre] E; destruct err as [e'|]; cbn in E; simplify_eq; try done.
  - by destruct pre.
  - by eapply IH.
  - by eapply IH.
Qed.

(** [recv_all] is what calling [Recv] returns, one after the other. *)
Lemma recv_all_unfold s :
  recv_all s = match Recv s with
               | (Ok c, s') => Ok c :: recv_all s'
               | (Err e, _) => if bool_decide (cs_err s = None) then [] else [Err e]
               end.
Proof. destruct s as [[|c ch] [e|]]; done. Qed.

Lemma delivered_all sink n out : (forall n c, sink n c = None) -> delivered sink n out = out.
Proof. intros Hs. revert n. induction out as [|c out IH]; intros n; [done|]. cbn. by rewrite Hs, IH. Qed.

(** Chunks that are not final carry neither finish reason nor counts. *)
Definition plain (c : AdapterChunk) : Prop := ac_Done c = false -> ac_FinishReason c = "".

Lemma provider_chunk_plain c : plain c -> provider_chunk c = token_chunk c.
Proof.
  unfold plain, provider_chunk, token_chunk. destruct (ac_Done c); intros H; [done|]. by rewrite H.
Qed.

Section Plain.
Context `{UnicodeTables} (decode : string -> option sseChunk) (sink : nat -> AdapterChunk -> option error).

Lemma openai_line_plain raw pt et c pt' et' : openai_line decode raw pt et = (Emit c, pt', et') -> plain c.
Proof.
  unfold openai_line. destruct (payload_of raw) as [p|]; [|done]. case_if; [by intros [= <- _ _]|].
  destruct (decode p) as [ch|]; [|done]. unfold after_decode.
  destruct (token_counts ch pt et) as [a b], (first_choice ch) as [text finish]. case_if; [done|].
  intros [= <- _ _]. unfold chunk_out, plain. by case_if.
Qed.

Lemma openai_loop_plain ls pt et n : Forall plain (sse_loop sink (openai_line decode) (send_stop sink) ls pt et n).2.
Proof.
  revert pt et n. induction ls as [|[raw ctx] ls IH]; intros pt et n; cbn [sse_loop].
  - cbn. by constructor.
  - destruct ctx; [constructor|]. destruct (openai_line decode raw pt et) as [[[|e|c] pt1] et1] eqn:El; [done|constructor|].
    apply openai_line_plain in El. destruct (sink n c); [by repeat constructor|].
    destruct (ac_Done c); [by repeat constructor|]. specialize (IH pt1 et1 (S n)).
    destruct (sse_loop _ _ _ ls pt1 et1 (S n)). by constructor.
Qed.

Lemma openai_Generate_plain model req p : Forall plain (openai_Generate decode sink model req p).2.
Proof.
  unfold openai_Generate. case_if; [constructor|]. destruct p as [[[st msg] body]|[e ctx]]; [|constructor].
  repeat (case_if; [constructor|]). apply openai_loop_plain.
Qed.

Lemma openai_Generate_complete model req p :
  (forall n c, sink n c = None) ->
  (openai_Generate decode sink model req p).1 = None -> complete (openai_Generate decode sink model req p).2.
Proof.
  intros Hs. unfold openai_Generate. case_if; [done|]. destruct p as [[[st msg] body]|[e ctx]]; [|done].
  repeat (case_if; [done|]). apply sse_loop_complete; [done|]. intros. by apply send_stop_complete.
Qed.
End Plain.

Lemma provider_chunks_plain out : Forall plain out -> provider_chunk <$> out = token_chunk <$> out.
Proof. induction 1 as [|c out Hc _ IH]; [done|]. rewrite !fmap_cons, IH. by rewrite provider_chunk_plain. Qed.

(** A stream that ends in an error that is not the end of the stream. *)
Lemma collect_failed cs e b u f :
  errors_Is e ErrEOF = false -> collect_loop ((Ok <$> cs) ++ [Err e])%list b u f = Err e.
Proof.
  intros He. revert b u f. induction cs as [|c cs IH]; intros b u f; cbn; [by rewrite He|]. by case_if.
Qed.

(** What [streamFirstToken] hands on: a ranked worker, a stream opened on it
    and the first answer of that stream. *)
Lemma first_loop_source `{GrpcStatus} clock open n i ws last w s sw first w' :
  first_loop clock open n i ws last w = (GotStream s sw first, w') ->
  sw ∈ ws /\ exists k s0, open k sw = Ok s0 /\ s = tail s0 /\
    handed_over s0 first.
Proof.
  revert i last w. induction ws as [|v ws IH]; intros i last w; cbn [first_loop]; [done|].
  assert (forall j l w0, first_loop clock open n j ws l w0 = (GotStream s sw first, w') ->
    sw ∈ v :: ws /\ exists k s0, open k sw = Ok s0 /\ s = tail s0 /\ handed_over s0 first) as Hnext.
  { intros j l w0 E. destruct (IH _ _ _ E) as [Hin Hs]. split; [set_solver|done]. }
  clear IH. case_if; [done|]. destruct (breaker_allow clock w (sw_ID v)) as [e wa]. case_if; [apply Hnext|].
  destruct (open (length (calls wa)) v) as [s0|eo] eqn:Eo.
  - destruct s0 as [|[c|er] rest]; cbn [tail].
    + assert (errors_Is ErrEOF ErrEOF = true) as -> by (cbn; by rewrite bool_decide_eq_true_2).
      intros [= <- <- <- _]. split; [set_solver|]. exists (length (calls wa)), []. split_and!; [done|done|by left].
    + intros [= <- <- <- _]. split; [set_solver|]. eexists _, _. split_and!; [exact Eo|done|by eexists].
    + destruct (errors_Is er ErrEOF) eqn:Ee.
      * intros [= <- <- <- _]. split; [set_solver|]. eexists _, _. split_and!; [exact Eo|done|]. right. by eexists _, _.
      * case_if; [done|]. apply Hnext.
  - case_if; [done|]. apply Hnext.
Qed.

(** ** Properties *)

Section StreamEndToEnd.
Context `{UnicodeTables} `{GrpcStatus} `{Hash64}.
Variable clock : nat -> Z.
Variable open : GenerateRequest -> nat -> SelectedWorker -> result error stream.

(** The answer of [rankWorkers], after an activation if that is needed. *)
Definition chat_ranked (h : Handler) (req : ChatRequest) (affinity : string) : result error (list SelectedWorker) :=
  match be_rank (gateway_backend clock open h None) false (cr_Model req) (chat_route req affinity) with
  | Ok ws => Ok ws
  | Err e =>
      if be_activate (gateway_backend clock open h None) (cr_Model req)
      then be_rank (gateway_backend clock open h None) true (cr_Model req) (chat_route req affinity) else Err e
  end.

(** Where the events of a streamed answer come from. *)
Lemma streamed_answer h req affinity out d :
  (forall g k sw s, open g k sw = Ok s -> ended_by_error s) -> cr_Stream req = true ->
  chatCompletions (h_retryAfterSec h) (gateway_backend clock open h None) (Some req) affinity = Returns (RStream out, d) ->
  exists ws sw, chat_ranked h req affinity = Ok ws /\ sw ∈ ws /\ d = Some (mkRecorded 200 (sw_ID sw) None) /\
    exists k opened events, open (chat_genReq req) k sw = Ok opened /\ sent out = SRole :: events /\
      mirrors (cr_IncludeUsage req) opened events.
Proof.
  intros streams_end Hst. unfold chatCompletions.
  destruct (String.eqb (cr_Model req) ""); [by intros [=]|].
  destruct (cr_Messages req) as [|m ms] eqn:Em; [by intros [=]|]. rewrite <- Em. cbn zeta.
  change (if negb (String.eqb affinity "") then affinity else messagesToPrompt (cr_Messages req))
    with (chat_route req affinity).
  assert (match be_rank (gateway_backend clock open h None) false (cr_Model req) (chat_route req affinity) with
    | Ok _ => be_rank (gateway_backend clock open h None) false (cr_Model req) (chat_route req affinity)
    | Err _ => if be_activate (gateway_backend clock open h None) (cr_Model req)
        then be_rank (gateway_backend clock open h None) true (cr_Model req) (chat_route req affinity)
        else be_rank (gateway_backend clock open h None) false (cr_Model req) (chat_route req affinity)
    end = chat_ranked h req affinity) as ->.
  { unfold chat_ranked. by destruct (be_rank (gateway_backend clock open h None) false _ _). }
  destruct (chat_ranked h req affinity) as [ws|e].
  2:{ unfold select_failed. destruct (errors_Is e ErrAdmissionRejected); by intros [=]. }
  cbn [gateway_backend be_admit]. pose proof (admit_loop_spec (tryAdmit h) [] ws) as Ha.
  unfold admitFromRanked. destruct (admit_loop (tryAdmit h) [] ws) as [adm|]; [|by intros [=]].
  rewrite Hst. unfold serve_stream. cbn [be_first be_left gateway_backend]. fold (chat_genReq req).
  destruct (streamFirstToken clock (open (chat_genReq req)) adm (failover_world h)) as [ft w'] eqn:Eft. cbn [fst].
  destruct ft as [st sw first|[e|]]; [|by intros [=]|by intros [=]].
  apply first_loop_source in Eft as (Hin & k & s0 & Ho & -> & Hfirst).
  destruct (handed_over_mirrors true (cr_IncludeUsage req) s0 sw first (streams_end _ _ _ _ Ho) Hfirst) as (evs & E & Hm).
  rewrite E. intros [= <- <-]. exists ws, sw. split_and!; [done| |done|by exists k, s0, evs].
  destruct Ha as (w1 & skipped & rest & -> & _ & _ & ->). set_solver.
Qed.

(** C3: the streaming path of the assembled gateway, end to end: a chat
    request answered with an event stream, to a client that stays connected,
    is served by a worker that some snapshot the selector held shows healthy,
    ready, serving the model the request resolves to, assigned to it and below
    the admission limit, one of those ranked for the request; the events are the role and then one for each
    non-empty text of a stream opened on that worker for this very request, in
    order, whether the stream ends or fails; a stream that ends is closed with
    stop, usage if asked for and [DONE], so that the events add up to what
    collecting that stream would have answered, and one that fails with its
    error; and the audit names the worker.  The scheduler has the standard
    filters, and a stream has no more answers after an error. *)
Theorem chat_stream_from_eligible_worker h admission req affinity out d :
  (forall g k sw s, open g k sw = Ok s -> ended_by_error s) ->
  (forall s, s = h_selector h \/ s = h_activated h -> Filters (sel_chain s) = standard_filters admission) ->
  cr_Stream req = true ->
  chatCompletions (h_retryAfterSec h) (gateway_backend clock open h None) (Some req) affinity = Returns (RStream out, d) ->
  exists s, (s = h_selector h \/ s = h_activated h) /\
    exists sw, schedulable s admission (cr_Model req) (chat_route req affinity) sw /\
      (exists ws, chat_ranked h req affinity = Ok ws /\ sw ∈ ws) /\
      d = Some (mkRecorded 200 (sw_ID sw) None) /\
      exists k opened events, open (chat_genReq req) k sw = Ok opened /\ sent out = SRole :: events /\
        mirrors (cr_IncludeUsage req) opened events.
Proof.
  intros Hends Hf Hst E. destruct (streamed_answer h req affinity out d Hends Hst E) as (ws & sw & Er & Hin & Hd & Hs).
  destruct (ranked_schedulable clock open h None admission req (chat_route req affinity) ws Hf) as (s & Hs' & Hall).
  { unfold chat_ranked in Er. by destruct (be_rank (gateway_backend clock open h None) false _ _). }
  exists s. split; [done|]. exists sw. split_and!; [|by exists ws|done|done]. rewrite list.Forall_forall in Hall. by apply Hall.
Qed.
End StreamEndToEnd.

Section ProviderAnswers.
Context `{UnicodeTables}.
Variable Getenv : string -> string.
Variable decode : string -> option sseChunk.
Variable post : OpenAICompat -> string -> string -> sampling_body -> exchange.
Variable sink : nat -> AdapterChunk -> option error.
Hypothesis sink_accepts : forall n c, sink n c = None.
Variable dial : string -> result error (GenerateRequest -> result error stream).

(** The worker the selector hands over for a virtual worker. *)
Definition selected_virtual (w : VirtualWorker) (models : list string) : SelectedWorker :=
  mkSelected (vw_ID w) (vw_Endpoint w) models.

Definition provider_request (genReq : GenerateRequest) : AdapterRequest :=
  mkAdapterReq (g_BaseModel genReq) (g_Prompt genReq) (Some (provider_options (g_Sampling genReq))) "".

Lemma open_virtual r0 ps maps w models genReq :
  let r := (Reload Getenv r0 (Some (Ok ps, Ok maps))).2 in
  NoDup (vw_ID <$> workers r) -> w ∈ workers r ->
  openGenerate decode post sink dial (Some r) (selected_virtual w models) genReq =
    let '(err, out) := backend_Generate decode post sink (vw_Backend w) (provider_request genReq) in
    Ok (as_stream (err, token_chunk <$> out)).
Proof.
  cbn [Reload snd]. intros Hn Hw. pose proof (find_virtual _ w Hn Hw) as Hb.
  apply elem_of_workers in Hw as (p & m & _ & _ & _ & ->).
  unfold openGenerate, openProviderStream. cbn [selected_virtual sw_ID sw_Endpoint]. rewrite Hb.
  assert (isProviderEndpoint (vw_Endpoint (virtual_worker p (backend_of Getenv p (models_of maps (pr_ID p))) m)) = true) as ->
    by apply HasPrefix_app.
  cbn [virtual_worker vw_Backend]. fold (provider_request genReq).
  set (b := backend_of Getenv p (models_of maps (pr_ID p))).
  pose proof (openai_Generate_plain decode sink (ResolveModel b (ar_Model (provider_request genReq))) (provider_request genReq)
    (post b (ResolveModel b (ar_Model (provider_request genReq))) (ar_Prompt (provider_request genReq))
      (openai_body (ar_Options (provider_request genReq))))) as Hp.
  fold (backend_Generate decode post sink b (provider_request genReq)) in Hp.
  destruct (backend_Generate decode post sink b (provider_request genReq)) as [err out]. cbn [snd] in Hp.
  rewrite delivered_all, provider_chunks_plain by done. done.
Qed.

(** A provider is dispatched like a worker: for every virtual worker of
    the reloaded registry, the stream the gateway opens carries the generation
    of that worker's own backend for the request's base model, prompt and
    sampling options; a generation that succeeds is collected to its texts
    with the finish reason and the counts of its final chunk, and one that
    fails, with anything but an end of file, fails the attempt with that
    error.  The request is not cancelled meanwhile. *)
Theorem provider_answer_collected r0 ps maps w models genReq err out :
  let r := (Reload Getenv r0 (Some (Ok ps, Ok maps))).2 in
  NoDup (vw_ID <$> workers r) -> w ∈ workers r ->
  backend_Generate decode post sink (vw_Backend w) (provider_request genReq) = (err, out) ->
  let answer := collect (openGenerate decode post sink dial (Some r) (selected_virtual w models) genReq) in
  match err with
  | None => exists final, list.last out = Some final /\ ac_Done final = true /\
      answer = Ok (concat_str (ac_Text <$> out), Some (usage_of (mkUsage (ac_PromptTokens final) (ac_EvalTokens final))),
                   ac_FinishReason final)
  | Some e => errors_Is e ErrEOF = false -> answer = Err e
  end.
Proof.
  cbn zeta. intros Hn Hw E. rewrite open_virtual by done. rewrite E. destruct err as [e|].
  - intros He. apply collect_failed, He.
  - apply collect_complete. rewrite <- (f_equal snd E : _ = out). unfold backend_Generate.
    apply openai_Generate_complete; [done|]. exact (f_equal fst E).
Qed.

(** A provider that closes the connection before it answers is taken for one
    that generated nothing: the error of the request wraps io.EOF, the
    backend wraps it once more, and the gateway, which looks for io.EOF
    anywhere in the chain, ends the stream there and answers an empty
    completion without error. *)
Theorem provider_eof_answered_empty r0 ps maps w models genReq e :
  let r := (Reload Getenv r0 (Some (Ok ps, Ok maps))).2 in
  NoDup (vw_ID <$> workers r) -> w ∈ workers r ->
  ResolveModel (vw_Backend w) (g_BaseModel genReq) <> "" ->
  (forall b model prompt body, post b model prompt body = Err (e, None)) -> errors_Is e ErrEOF = true ->
  backend_Generate decode post sink (vw_Backend w) (provider_request genReq) = (Some (EWrap e "provider"), []) /\
  collect (openGenerate decode post sink dial (Some r) (selected_virtual w models) genReq) = Ok ("", None, "").
Proof.
  cbn zeta. intros Hn Hw Hm Hp He.
  assert (backend_Generate decode post sink (vw_Backend w) (provider_request genReq) = (Some (EWrap e "provider"), [])) as E.
  { unfold backend_Generate, openai_Generate. cbn [provider_request ar_Model].
    destruct (String.eqb_spec (ResolveModel (vw_Backend w) (g_BaseModel genReq)) ""); [done|]. by rewrite Hp. }
  split; [done|]. rewrite open_virtual by done. rewrite E. cbn. rewrite He. by rewrite orb_true_r.
Qed.

(** A provider serves one model per base: the map of a backend is keyed by the
    base model alone, so of several rows for one base, with and without an
    adapter, the last one decides what every request for that base is sent
    as, whichever virtual worker was picked. *)
Theorem provider_model_ignores_adapter p ms m genReq :
  mm_ProviderModel m <> "" -> g_BaseModel genReq = mm_BaseModel m ->
  let b := backend_of Getenv p (ms ++ [m]) in
  backend_Generate decode post sink b (provider_request genReq) =
    openai_Generate decode sink (mm_ProviderModel m) (provider_request genReq)
      (post b (mm_ProviderModel m) (g_Prompt genReq) (openai_body (Some (provider_options (g_Sampling genReq))))).
Proof.
  intros Hne Hg. cbn zeta. unfold backend_Generate.
  assert (ResolveModel (backend_of Getenv p (ms ++ [m])) (ar_Model (provider_request genReq)) = mm_ProviderModel m) as ->; [|done].
  unfold ResolveModel, backend_of, NewOpenAICompat. cbn [modelMap provider_request ar_Model]. rewrite Hg, foldl_app. cbn [foldl].
  rewrite lookup_insert_eq. by destruct (String.eqb_spec (mm_ProviderModel m) "").
Qed.
End ProviderAnswers.

Section Waiting.
Variable now : nat -> Z.
Variable select : nat -> go (result error SelectedWorker).
Variable ended : nat -> option error.
Hypothesis pauses : forall k, now k + poll_interval <= now (S k).

Definition waits_at (deadline : Z) (j : nat) : Prop :=
  now j < deadline /\ ended j = None /\ exists e, select j = Returns (Err e).

(** What ends the loop at iteration [k]. *)
Definition wait_outcome (deadline : Z) (k : nat) (last : option error) (r : go (result error SelectedWorker)) : Prop :=
  match r with
  | Panics => now k < deadline /\ select k = Panics
  | Returns (Ok w) => now k < deadline /\ select k = Returns (Ok w)
  | Returns (Err e) =>
      (now k < deadline /\ ended k = Some e /\ exists e0, select k = Returns (Err e0)) \/
      (deadline <= now k /\ match k with O => e = default (ENew "no capacity after activate") last
                                       | S j => select j = Returns (Err e) end)
  end.

Lemma wait_loop_spec deadline fuel k last :
  deadline <= now k + poll_interval * (Z.of_nat fuel - 1) -> (0 < fuel)%nat ->
  (forall j, k = S j -> exists e, last = Some e /\ select j = Returns (Err e)) ->
  exists r n, wait_loop now select ended deadline fuel k last = Some r /\ (k <= n)%nat /\
    (forall j, (k <= j < n)%nat -> waits_at deadline j) /\ wait_outcome deadline n (if (n =? k)%nat then last else None) r.
Proof.
  revert k last. induction fuel as [|fuel IH]; intros k last Hd Hpos Hlast; [lia|]. cbn [wait_loop].
  assert (forall j, (k <= j < k)%nat -> waits_at deadline j) as Hnone by lia.
  destruct (Z.ltb_spec (now k) deadline) as [Hlt|Hge].
  2:{ eexists _, k. split; [done|]. split_and!; [lia|done|]. rewrite Nat.eqb_refl. right. split; [done|].
      destruct k as [|j]; [done|]. by destruct (Hlast j eq_refl) as (e & -> & ?). }
  destruct (select k) as [[w|e]|] eqn:Es.
  1,3: eexists _, k; split; [done|]; split_and!; [lia|done|split; done].
  destruct (ended k) as [c|] eqn:Ec.
  - eexists _, k. split; [done|]. split_and!; [lia|done|]. left. split_and!; [done|done|by exists e].
  - pose proof (pauses k). destruct (IH (S k) (Some e)) as (r & n & Er & Hn & Hall & Ho); [lia| |intros j [= <-]; by exists e|].
    { destruct fuel; [|lia]. unfold poll_interval, millisecond in *. lia. }
    exists r, n. split_and!; [done|lia| |].
    + intros j Hj. destruct (decide (j = k)) as [->|]; [|apply Hall; lia]. split_and!; [done|done|by exists e].
    + destruct n as [|n]; [lia|]. assert ((S n =? k)%nat = false) as -> by (apply Nat.eqb_neq; lia). revert Ho. clear.
      destruct r as [[w|er]|]; done.
Qed.

(** Waiting for capacity ends: with pauses of at least 200ms between the
    readings of the clock, [waitForCapacity] returns after at most one
    selection per pause that fits in its timeout, with the worker of the first
    selection that succeeds; it gives up early only when the context ends, and
    otherwise with the error of the last selection before the deadline. *)
Theorem wait_for_capacity_returns start timeout :
  start <= now 0%nat -> 0 <= timeout ->
  exists r n, waitForCapacity now select ended start timeout = Some r /\
    Z.of_nat n <= timeout / poll_interval + 1 /\
    (forall j, (j < n)%nat -> waits_at (start + timeout) j) /\ wait_outcome (start + timeout) n None r.
Proof.
  intros Hs Ht. unfold waitForCapacity. pose proof (Z.div_pos timeout poll_interval Ht eq_refl) as Hq.
  assert (timeout < poll_interval * (timeout / poll_interval + 1)) as Hd.
  { pose proof (Z.mod_pos_bound timeout poll_interval eq_refl). pose proof (Z.div_mod timeout poll_interval). lia. }
  destruct (wait_loop_spec (start + timeout) (Z.to_nat (timeout / poll_interval) + 2) 0 None) as (r & n & Er & _ & Hall & Ho).
  - replace (Z.of_nat (Z.to_nat (timeout / poll_interval) + 2) - 1) with (timeout / poll_interval + 1) by lia. lia.
  - lia.
  - done.
  - exists r, n. split_and!; [done| |intros j Hj; apply Hall; lia|by destruct n].
    assert (forall j, now 0%nat + poll_interval * Z.of_nat j <= now j) as Hm.
    { intros j. induction j as [|j IH]; [lia|]. pose proof (pauses j). lia. }
    destruct n as [|n]; [lia|]. destruct (Hall n) as [Hlt _]; [lia|]. specialize (Hm n).
    unfold poll_interval in *. nia.
Qed.
End Waiting.

(** A model with an adapter is activated under the wrong identity: the handler
    passes the name of the request, base and adapter together, where the
    manager expects a base model, so a manager with no ready worker for the
    pair provisions one whose base model is the whole name and whose adapter
    is empty; without a catalog no request is routed to such a model. *)
Theorem adapter_activates_unroutable `{UnicodeTables} m snap base adapter wid :
  let key := base ++ "#" ++ adapter in
  MinReplicas (PolicyGet (policies m) (mkModel key "")) <= 0 -> readyCount m snap (mkModel key "") = 0 ->
  act_NeedsActivation (fleet_activator m snap (Ok wid)) key = true /\
  (exists m', Activate true m snap key (Ok wid) = (None, m') /\
     FleetManager.workers m' !! wid = Some (mkTracked wid (mkModel key "") StateProvisioning 0)) /\
  (forall s model, sel_catalog s = None -> (routed_as s model).1 <> key).
Proof.
  cbn zeta. intros Hmin Hr. cbn [fleet_activator act_NeedsActivation]. unfold NeedsActivation, Activate. rewrite Hr.
  rewrite (proj2 (Z.ltb_ge _ _)) by done. split_and!; [done| |].
  - eexists. split; [reflexivity|]. cbn [FleetManager.workers clear_pending set_workers]. apply lookup_insert_eq.
  - intros s model Hc. unfold routed_as. rewrite Hc. cbn [Resolve]. intros E.
    pose proof (ParseModelID_base model) as Hn. rewrite E in Hn.
    apply no_byte_app in Hn as [_ Hn]. by apply no_byte_cons in Hn as [? _].
Qed.

(** *** Witnesses *)

Definition hello_stream_chat : ChatRequest := mkChat "m#a" [mkMessage "user" "hi"] true true None None None None.

Definition hello_open (g : GenerateRequest) (k : nat) (sw : SelectedWorker) : result error stream := Ok hello.

Lemma hello_ended g k sw s : hello_open g k sw = Ok s -> ended_by_error s.
Proof. intros [= <-] [|? [|? [|? ?]]] e rest E; discriminate. Qed.

Lemma chat_stream_from_eligible_worker_witness :
  exists out d,
    @chatCompletions ascii_tables plain_grpc (h_retryAfterSec demo_handler)
      (@gateway_backend ascii_tables plain_grpc sum_bytes at_101s hello_open demo_handler None)
      (Some hello_stream_chat) "" = Returns (RStream out, d) /\
    sent out = [SRole; SContent "hel"; SContent "lo"; SStop "stop"; SUsage (mkUsageObj 3 2 5); SDone] /\
    exists s, (s = h_selector demo_handler \/ s = h_activated demo_handler) /\
      exists sw, @schedulable ascii_tables s 4 "m#a" (chat_route hello_stream_chat "") sw /\
        (exists ws, @chat_ranked ascii_tables plain_grpc sum_bytes at_101s hello_open demo_handler hello_stream_chat "" = Ok ws /\ sw ∈ ws) /\
        d = Some (mkRecorded 200 (sw_ID sw) None) /\
        exists k opened events, hello_open (@chat_genReq ascii_tables hello_stream_chat) k sw = Ok opened /\
          sent out = SRole :: events /\ mirrors true opened events.
Proof.
  eexists _, _. split; [vm_compute; reflexivity|]. split; [reflexivity|].
  apply (@chat_stream_from_eligible_worker ascii_tables plain_grpc sum_bytes at_101s hello_open
    demo_handler 4 hello_stream_chat "").
  - exact hello_ended.
  - intros s [-> | ->]; reflexivity.
  - reflexivity.
  - vm_compute. reflexivity.
Defined.

Definition acme_registry : Registry := (@Reload ascii_tables (fun _ => "") NewRegistry (Some (Ok [acme], Ok acme_maps))).2.

Definition acme_qwen : VirtualWorker :=
  virtual_worker acme (@backend_of ascii_tables (fun _ => "") acme acme_maps) (mkModelMap "acme" "qwen" "" "qwen-max" 8192).

Lemma acme_nodup : NoDup (vw_ID <$> workers acme_registry).
Proof. apply (bool_decide_unpack _). vm_compute. exact I. Qed.

Lemma acme_qwen_in : acme_qwen ∈ workers acme_registry.
Proof. unfold acme_registry. cbn [Reload snd]. apply elem_of_workers. exists acme, (mkModelMap "acme" "qwen" "" "qwen-max" 8192).
  split_and!; [set_solver|set_solver|done|done]. Qed.

Definition no_dial (endpoint : string) : result error (GenerateRequest -> result error stream) := Err ErrUnexpectedEOF.

Lemma provider_answer_collected_witness :
  exists final, list.last [text_chunk "hel"; done_chunk "lo" "stop" 3 2] = Some final /\ ac_Done final = true /\
    collect (@openGenerate ascii_tables toy_decode (fun _ _ _ _ => hello_post) accepts no_dial (Some acme_registry)
      (selected_virtual acme_qwen ["qwen"]) hi_req) =
    Ok ("hello", Some (usage_of (mkUsage (ac_PromptTokens final) (ac_EvalTokens final))), ac_FinishReason final).
Proof.
  apply (@provider_answer_collected ascii_tables (fun _ => "") toy_decode (fun _ _ _ _ => hello_post) accepts
    (fun _ _ => eq_refl) no_dial NewRegistry [acme] acme_maps acme_qwen ["qwen"] hi_req None
    [text_chunk "hel"; done_chunk "lo" "stop" 3 2]).
  - exact acme_nodup.
  - exact acme_qwen_in.
  - vm_compute. reflexivity.
Defined.

Lemma provider_eof_answered_empty_witness :
  collect (@openGenerate ascii_tables toy_decode (fun _ _ _ _ => Err (EWrap ErrEOF "Post", None)) accepts no_dial
    (Some acme_registry) (selected_virtual acme_qwen ["qwen"]) hi_req) = Ok ("", None, "").
Proof.
  apply (@provider_eof_answered_empty ascii_tables (fun _ => "") toy_decode (fun _ _ _ _ => Err (EWrap ErrEOF "Post", None))
    accepts (fun _ _ => eq_refl) no_dial NewRegistry [acme] acme_maps acme_qwen ["qwen"] hi_req (EWrap ErrEOF "Post")).
  - exact acme_nodup.
  - exact acme_qwen_in.
  - vm_compute. discriminate.
  - reflexivity.
  - reflexivity.
Defined.

Lemma provider_model_ignores_adapter_witness :
  let b := @backend_of ascii_tables (fun _ => "") acme [mkModelMap "acme" "qwen" "" "qwen-max" 8192; mkModelMap "acme" "qwen" "sql" "qwen-sql" 8192] in
  @backend_Generate ascii_tables toy_decode (fun _ _ _ _ => hello_post) accepts b (provider_request hi_req) =
    @openai_Generate ascii_tables toy_decode accepts "qwen-sql" (provider_request hi_req) hello_post.
Proof.
  apply (@provider_model_ignores_adapter ascii_tables (fun _ => "") toy_decode (fun _ _ _ _ => hello_post) accepts acme
    [mkModelMap "acme" "qwen" "" "qwen-max" 8192] (mkModelMap "acme" "qwen" "sql" "qwen-sql" 8192) hi_req).
  - discriminate.
  - reflexivity.
Defined.

(** Two refused selections, then a worker. *)
Definition third_time (k : nat) : go (result error SelectedWorker) :=
  if (k <? 2)%nat then Returns (Err ErrNoCapacity) else Returns (Ok sA).

Definition steady (k : nat) : Z := Z.of_nat k * poll_interval.

Lemma wait_for_capacity_returns_witness :
  waitForCapacity steady third_time (fun _ => None) 0 (5 * second) = Some (Returns (Ok sA)) /\
  exists r n, waitForCapacity steady third_time (fun _ => None) 0 (5 * second) = Some r /\
    Z.of_nat n <= 5 * second / poll_interval + 1 /\
    (forall j, (j < n)%nat -> waits_at steady third_time (fun _ => None) (0 + 5 * second) j) /\
    wait_outcome steady third_time (fun _ => None) (0 + 5 * second) n None r.
Proof.
  split; [reflexivity|].
  apply (wait_for_capacity_returns steady third_time (fun _ => None)).
  - intros k. unfold steady. lia.
  - unfold steady. lia.
  - unfold second. lia.
Defined.

Lemma adapter_activates_unroutable_witness :
  act_NeedsActivation (fleet_activator fresh_manager None (Ok "w2")) "qwen#sql" = true.
Proof.
  apply (@adapter_activates_unroutable ascii_tables fresh_manager None "qwen" "sql" "w2").
  - vm_compute. discriminate.
  - vm_compute. reflexivity.
Defined.
