(* ===== verification/Relay.v ===== *)
(** * Reading the events of a gateway
      (the decoding in services/provider/openai.go and worker/adapters/vllm,
       against the stream of services/gateway/handler.go)

    The provider backend and the vLLM adapter speak the protocol the gateway
    serves, so one gateway can be the provider, or the runtime, of another.
    The file gives the two readers their decoders and the bytes of the body
    (bufio.Scanner by lines, at most a megabyte each) and shows what survives
    of an answer that is relayed: the texts and the finish reason, on the
    level of bytes. *)

From Stdlib Require Import Ascii.
From S2P Require Import Prelude Float64 Rounding FloatRange GoStrings GoFormat Json JsonDecode Strconv JsonFloat Errors Failover Routing Rendezvous Candidates Chain GatewaySelect GatewayDispatch GatewayHandler GatewayWire WorkerAdapters GatewayOpen.

(** ** The lines of a body *)

Definition nl : ascii := "010".
Definition cr : ascii := "013".

Fixpoint segments (s : string) : list string :=
  match s with
  | "" => [""]
  | String a s' =>
      if Ascii.eqb a nl then "" :: segments s'
      else match segments s' with seg :: rest => String a seg :: rest | [] => [] end
  end.

(** What [ScanLines] is given: an empty segment at the end is no line. *)
Definition raw_lines (s : string) : list string :=
  let segs := segments s in
  match list.last segs with Some "" => removelast segs | _ => segs end.

Definition drop_cr (line : string) : string :=
  match HasSuffix line (String cr "") with
  | true => str_take (String.length line - 1) line
  | false => line
  end.

Definition max_token : Z := 1024 * 1024.

Definition ErrTooLong : error := ENew "bufio.Scanner: token too long".

(** The lines a scanner with a buffer of [max_token] bytes returns. *)
Fixpoint scan_lines (ls : list string) : list string * option error :=
  match ls with
  | [] => ([], None)
  | l :: rest =>
      if str_len l <? max_token then let '(out, e) := scan_lines rest in (drop_cr l :: out, e)
      else ([], Some ErrTooLong)
  end.

(** A body that arrives whole, while the request is not cancelled. *)
Definition scan_body (body : string) : scan :=
  let '(ls, e) := scan_lines (raw_lines body) in mkScan ((fun l => (l, None)) <$> ls) e None.

(** ** The decoders *)

Abbreviation choice := (string * option string)%type.

Definition delta_fields : fields string := [("content", dec_string)].

(** [sseChoice] *)
Definition choice_fields : fields choice :=
  [("delta", fun c d => option_map (fun s => (s, c.2)) (dec_struct delta_fields c.1 d));
   ("finish_reason", fun c d => option_map (fun f => (c.1, f)) (dec_ptr "" dec_string c.2 d))].

Definition sse_usage_fields : fields (Z * Z) :=
  [("prompt_tokens", fun u d => option_map (fun x => (x, u.2)) (dec_int32 u.1 d));
   ("completion_tokens", fun u d => option_map (fun x => (u.1, x)) (dec_int32 u.2 d))].

Record chunk_state := mkChunkState { cs_choices : slice choice; cs_usage : option (Z * Z); cs_error : option string }.

(** The struct of the provider backend. *)
Definition openai_fields : fields chunk_state :=
  [("choices", fun c d => option_map (fun x => mkChunkState x (cs_usage c) (cs_error c))
      (dec_slice ("", None) (dec_struct choice_fields) (cs_choices c) d));
   ("usage", fun c d => option_map (fun x => mkChunkState (cs_choices c) x (cs_error c))
      (dec_ptr (0, 0) (dec_struct sse_usage_fields) (cs_usage c) d))].

Definition error_fields : fields string := [("message", dec_string)].

(** [sseChunk] of the vLLM adapter has the error as well. *)
Definition vllm_fields : fields chunk_state :=
  (openai_fields ++
   [("error", fun c d => option_map (mkChunkState (cs_choices c) (cs_usage c))
       (dec_ptr "" (dec_struct error_fields) (cs_error c) d))])%list.

Definition decode_chunk (fs : fields chunk_state) (payload : string) : option sseChunk :=
  option_map (fun c => mkSSE (contents (cs_choices c)) (cs_usage c) (cs_error c))
    (unmarshal_into (mkChunkState nil_slice None None) (dec_struct fs) payload).

Definition decode_openai : string -> option sseChunk := decode_chunk openai_fields.
Definition decode_vllm : string -> option sseChunk := decode_chunk vllm_fields.

(** ** The requests *)

Definition option_member {A} (k : string) (enc : A -> doc) (v : option A) : list (string * doc) :=
  match v with Some a => [(k, enc a)] | None => [] end.

(** The body the provider backend posts: maps, so the keys are sorted. *)
Definition openai_body_doc (model prompt : string) (b : sampling_body) : doc :=
  DObj (option_member "max_tokens" DInt (body_MaxTokens b) ++
        [("messages", DArr [DObj [("content", DStr prompt); ("role", DStr "user")]]); ("model", DStr model);
         ("stream", DBool true)] ++
        option_member "temperature" number_doc (body_Temperature b) ++ option_member "top_p" number_doc (body_TopP b)).

(** [chatBody], the body the vLLM adapter posts. *)
Definition chatBody_doc (model prompt : string) (b : sampling_body) : doc :=
  DObj ([("model", DStr model); ("messages", DArr [chatMessage_doc (mkMessage "user" prompt)]); ("stream", DBool true)] ++
        option_member "temperature" number_doc (body_Temperature b) ++ option_member "top_p" number_doc (body_TopP b) ++
        option_member "max_tokens" DInt (body_MaxTokens b)).

(** ** Lemmas: lines *)

Lemma segments_line l t : no_byte nl l -> segments (l ++ String nl t) = l :: segments t.
Proof.
  induction l as [|a l IH]; intros Hl; cbn [String.append segments].
  - done.
  - apply no_byte_cons in Hl as [Ha Hl]. destruct (Ascii.eqb_spec a nl); [done|]. by rewrite IH.
Qed.

Lemma segments_nonempty s : segments s <> [].
Proof.
  induction s as [|a s IH]; [done|]. cbn. destruct (Ascii.eqb a nl); [done|]. by destruct (segments s).
Qed.

(** The lines of a sequence of events. *)
Definition event_lines (payload : string) : list string := ["data: " ++ payload; ""].

Lemma raw_lines_events payloads : Forall (no_byte nl) payloads ->
  raw_lines (concat_str (sse_line <$> payloads)) = concat (event_lines <$> payloads).
Proof.
  intros Hp.
  assert (segments (concat_str (sse_line <$> payloads)) =
    (concat (event_lines <$> payloads) ++ [""])%list) as E.
  { induction Hp as [|p ps Hp _ IH]; [done|]. cbn [fmap list_fmap concat_str concat app]. unfold sse_line at 1.
    change newline with (String nl ""). rewrite !str_app_assoc.
    change (String nl "" ++ String nl "" ++ concat_str (sse_line <$> ps)) with (String nl (String nl (concat_str (sse_line <$> ps)))).
    change ("data: " ++ p ++ String nl (String nl (concat_str (sse_line <$> ps))))
      with ("data: " ++ (p ++ String nl (String nl (concat_str (sse_line <$> ps))))).
    rewrite <- str_app_assoc, segments_line.
    - cbn [segments]. change (Ascii.eqb nl nl) with true. cbn iota. by rewrite IH.
    - apply no_byte_app. by split. }
  unfold raw_lines. rewrite E, last_snoc. apply removelast_last.
Qed.

Lemma printable_no c s : byte c < 0x20 -> printable s = true -> no_byte c s.
Proof.
  intros Hc. apply str_forall_impl. intros a Ha%Z.leb_le. destruct (Ascii.eqb_spec a c); [subst; lia|done].
Qed.

Lemma HasSuffix_no_byte c s : no_byte c s -> HasSuffix s (String c "") = false.
Proof.
  intros Hs. unfold HasSuffix. destruct (Nat.leb_spec (String.length (String c "")) (String.length s)); [|done].
  cbn [andb]. apply String.eqb_neq. intros E.
  rewrite <- (str_take_drop (String.length s - String.length (String c "")) s), E in Hs.
  apply no_byte_app in Hs as [_ [Hs _]%no_byte_cons]. done.
Qed.

Lemma drop_cr_id s : no_byte cr s -> drop_cr s = s.
Proof. intros Hs. unfold drop_cr. by rewrite HasSuffix_no_byte. Qed.

Lemma scan_lines_fit ls : Forall (fun l => str_len l < max_token) ls -> Forall (no_byte cr) ls -> scan_lines ls = (ls, None).
Proof.
  intros Hf Hc. induction Hf as [|l ls Hl _ IH]; [done|]. inversion Hc; subst. cbn [scan_lines].
  rewrite (proj2 (Z.ltb_lt _ _)) by done. by rewrite IH, drop_cr_id.
Qed.

(** ** Lemmas: payloads *)

(** A string whose first and last bytes are visible. *)
Definition solid (s : string) : Prop :=
  exists a t b, s = String a (t ++ String b "") /\ is_space a = false /\ is_ascii a = true /\ is_space b = false /\ is_ascii b = true.

(** strings.TrimSpace on strings with other than ASCII bytes removes leading
    spaces and stops at visible bytes. *)
Class TrimTables := {
  #[global] trim_tables :: UnicodeTables;
  unicode_trim_solid : forall s, solid s -> unicode_trim s = s;
  unicode_trim_space : forall s, solid s -> unicode_trim (String " " s) = s
}.

Lemma trim_right_snoc t b : is_space b = false -> trim_right (t ++ String b "") = t ++ String b "".
Proof.
  intros Hb. induction t as [|a t IH]; cbn [String.append trim_right]; [by rewrite Hb|].
  rewrite IH. by destruct t.
Qed.

Lemma trim_right_solid s : solid s -> trim_right s = s.
Proof.
  intros (a & t & b & -> & _ & _ & Hb & _). change (String a (t ++ String b "")) with (String a t ++ String b "").
  by apply trim_right_snoc.
Qed.

Section Trim.
Context `{TrimTables}.

Lemma TrimSpace_solid s : solid s -> TrimSpace s = s.
Proof.
  intros Hs. unfold TrimSpace. case_if; [|by apply unicode_trim_solid].
  assert (trim_left s = s) as ->; [|by apply trim_right_solid].
  destruct Hs as (a & t & b & -> & Ha & _). cbn. by rewrite Ha.
Qed.

Lemma TrimSpace_space s : solid s -> TrimSpace (String " " s) = s.
Proof.
  intros Hs. unfold TrimSpace. case_if; [|by apply unicode_trim_space].
  assert (trim_left (String " " s) = s) as ->; [|by apply trim_right_solid].
  destruct Hs as (a & t & b & -> & Ha & _). cbn. by rewrite Ha.
Qed.

Lemma payload_of_data p : solid p -> payload_of ("data: " ++ p) = Some p.
Proof.
  intros Hp. unfold payload_of.
  assert (solid ("data: " ++ p)) as Hd.
  { destruct Hp as (a & t & b & -> & _ & _ & Hb & Hb'). exists "d"%char, ("ata: " ++ String a t), b.
    split_and!; [cbn; by rewrite ?str_app_assoc|done..]. }
  rewrite TrimSpace_solid by done. change ("data: " ++ p) with ("data:" ++ String " " p).
  rewrite HasPrefix_app, TrimPrefix_app, TrimSpace_space by done. done.
Qed.

Lemma payload_of_empty : payload_of "" = None.
Proof. done. Qed.
End Trim.

Lemma object_solid l : solid (print (DObj l)).
Proof. cbn [print]. by exists "{"%char, (comma_separated (List.map (fun kv => quote kv.1 ++ String ":" (print kv.2)) l)), "}"%char. Qed.

(** ** Lemmas: chunks *)

Definition chunk_members (env : envelope) (choices : doc) : list (string * doc) :=
  [("id", DStr (sanitize (env_id env))); ("object", DStr "chat.completion.chunk"); ("created", DInt (env_created env));
   ("model", DStr (sanitize (env_model env))); ("choices", choices)].

(** Either reader skips what it has no field for. *)
Lemma dec_chunk fs env choices ds :
  fs = openai_fields \/ fs = vllm_fields -> dec_slice ("", None) (dec_struct choice_fields) nil_slice choices = Some ds ->
  dec_struct fs (mkChunkState nil_slice None None) (DObj (chunk_members env choices)) = Some (mkChunkState ds None None).
Proof.
  intros Hfs Hc. unfold chunk_members. cbn [dec_struct].
  rewrite !dec_members_skip by (destruct Hfs as [-> | ->]; reflexivity).
  erewrite dec_members_field; [done| |].
  - destruct Hfs as [-> | ->]; reflexivity.
  - cbn beta. cbn [cs_choices cs_usage cs_error]. by rewrite Hc.
Qed.

(** What a choice is read as. *)
Lemma dec_chunk_choice role text finish :
  dec_struct choice_fields ("", None) (repaired (chatChunkChoice_doc (mkChunkChoice 0 (mkDelta role text) finish))) =
    Some (sanitize text, sanitize <$> finish).
Proof.
  cbn [chatChunkChoice_doc repaired List.map dec_struct cc_Index cc_Delta cc_FinishReason fst snd].
  rewrite dec_members_skip by reflexivity.
  erewrite (dec_members_field _ _ _ _ _ _ (sanitize text, None)); [|reflexivity|].
  - erewrite dec_members_field; [done|reflexivity|]. destruct finish; reflexivity.
  - cbn beta. unfold chatDelta_doc, omit_empty. cbn [dl_Role dl_Content].
    destruct (String.eqb_spec role ""), (String.eqb_spec text "") as [->|]; reflexivity.
Qed.

Lemma chunk_numbers_ok env role text finish :
  numbers_ok (chatCompletionChunk_doc (chat_chunk env [mkChunkChoice 0 (mkDelta role text) finish] None)).
Proof.
  cbn -[Itoa]. split_and!; try done; try apply Itoa_num_ok.
  - unfold chatDelta_doc, omit_empty. cbn [dl_Role dl_Content]. by repeat case_if.
  - by destruct finish.
Qed.

Lemma decode_choice fs env role text finish :
  fs = openai_fields \/ fs = vllm_fields ->
  decode_chunk fs (print (chatCompletionChunk_doc (chat_chunk env [mkChunkChoice 0 (mkDelta role text) finish] None))) =
    Some (mkSSE [(sanitize text, sanitize <$> finish)] None None).
Proof.
  intros Hfs. unfold decode_chunk, unmarshal_into. rewrite parse_print; [|apply chunk_numbers_ok|].
  - change (repaired _) with (DObj (chunk_members env (repaired (DArr [chatChunkChoice_doc (mkChunkChoice 0 (mkDelta role text) finish)])))).
    rewrite (dec_chunk fs env _ (mkSlice [(sanitize text, sanitize <$> finish)] 1)); [done|done|].
    cbn [repaired List.map dec_slice dec_elements nil_slice backing head tail default]. by rewrite dec_chunk_choice.
  - cbn. unfold chatDelta_doc, omit_empty. cbn [dl_Role dl_Content]. destruct finish; repeat case_if; done.
Qed.

(** ** Lemmas: the two readers *)

Definition chat_payload (env : envelope) (message : error -> string) (ev : sse) : string :=
  match chat_doc env message ev with Some d => print d | None => "[DONE]" end.

Lemma chat_event_line env message ev : chat_event env message ev = sse_line (chat_payload env message ev).
Proof. unfold chat_event, chat_payload. by destruct (chat_doc env message ev). Qed.

Lemma chat_doc_ok env message ev d : chat_doc env message ev = Some d -> numbers_ok d.
Proof.
  destruct ev as [|t|f|u|e|]; intros [= <-]; try apply chunk_numbers_ok; [|done].
  cbn -[Itoa]. split_and!; try done; first [apply Itoa_num_ok | by apply float_text_number].
Qed.

Lemma chat_payload_printable env message ev : printable (chat_payload env message ev) = true.
Proof.
  unfold chat_payload. destruct (chat_doc env message ev) as [d|] eqn:E; [|done]. by eapply print_printable, chat_doc_ok.
Qed.

(** The lines the readers see of a response to a chat request. *)
Definition event_scan (env : envelope) (message : error -> string) (events : list sse) : list (string * option error) :=
  (fun l => (l, None)) <$> concat (event_lines <$> (chat_payload env message <$> events)).

Lemma scan_events env message events :
  let body := concat_str (chat_event env message <$> events) in
  Forall (fun l => str_len l < max_token) (raw_lines body) ->
  scan_body body = mkScan (event_scan env message events) None None.
Proof.
  cbn zeta. intros Hf.
  assert (raw_lines (concat_str (chat_event env message <$> events)) = concat (event_lines <$> (chat_payload env message <$> events))) as E.
  { rewrite <- raw_lines_events.
    - rewrite <- list_fmap_compose. do 2 f_equal. apply list_fmap_ext. intros. apply chat_event_line.
    - rewrite list.Forall_fmap. apply list.Forall_true. intros ev. apply printable_no; [done|]. apply chat_payload_printable. }
  unfold scan_body. rewrite E in *. rewrite scan_lines_fit; [done|done|].
  apply List.Forall_concat. rewrite !list.Forall_fmap. apply list.Forall_true. intros ev. cbn.
  repeat constructor. apply no_byte_app. split; [done|]. apply printable_no; [done|]. apply chat_payload_printable.
Qed.

Section Readers.
Context `{TrimTables} (env : envelope) (message : error -> string).
Variable sink : nat -> AdapterChunk -> option error.
Hypothesis sink_accepts : forall n c, sink n c = None.
Variable step : string -> Z -> Z -> line_act * Z * Z.

(** What both readers make of the chunks of the gateway. *)
Record reads_chunks : Prop := {
  reads_blank : forall pt et, step "" pt et = (Skip, pt, et);
  reads_choice : forall role text finish pt et,
    step ("data: " ++ print (chatCompletionChunk_doc (chat_chunk env [mkChunkChoice 0 (mkDelta role text) finish] None))) pt et =
      after_decode (mkSSE [(sanitize text, sanitize <$> finish)] None None) pt et
}.

Hypothesis Hstep : reads_chunks.

Lemma read_role finish rest pt et n :
  sse_loop sink step finish (event_scan env message [SRole] ++ rest) pt et n = sse_loop sink step finish rest pt et n.
Proof.
  cbn [event_scan fmap list_fmap concat app event_lines sse_loop]. unfold chat_payload. cbn [chat_doc].
  rewrite (reads_choice Hstep). cbn. by rewrite (reads_blank Hstep).
Qed.

Lemma read_contents finish contents rest pt et n :
  Forall (fun t => valid_utf8 t /\ t <> "") contents ->
  sse_loop sink step finish (event_scan env message (SContent <$> contents) ++ rest) pt et n =
    let '(r, out) := sse_loop sink step finish rest pt et (n + length contents) in
    (r, (text_chunk <$> contents) ++ out)%list.
Proof.
  intros Hc. revert n. induction Hc as [|t contents [Hv Hne] _ IH]; intros n.
  { cbn. rewrite Nat.add_0_r. by destruct (sse_loop sink step finish rest pt et n). }
  cbn [event_scan fmap list_fmap concat app event_lines sse_loop]. unfold chat_payload at 1. cbn [chat_doc].
  rewrite (reads_choice Hstep). unfold after_decode. cbn [token_counts sse_Usage default first_choice Choices fmap option_fmap option_map].
  rewrite sanitize_id by done. destruct (String.eqb_spec t ""); [done|]. cbn [andb chunk_out String.eqb negb].
  rewrite sink_accepts. cbn [text_chunk ac_Done]. rewrite (reads_blank Hstep).
  change ((fun l : string => (l, @None error)) <$> concat (event_lines <$> (chat_payload env message <$> (SContent <$> contents))))
    with (event_scan env message (SContent <$> contents)).
  rewrite IH. cbn [length]. replace (S n + length contents)%nat with (n + S (length contents))%nat by lia.
  by destruct (sse_loop sink step finish rest pt et (n + S (length contents))).
Qed.

Lemma read_stop finish fr rest pt et n :
  valid_utf8 fr -> fr <> "" ->
  sse_loop sink step finish (event_scan env message [SStop fr] ++ rest) pt et n = (None, [done_chunk "" fr pt et]).
Proof.
  intros Hv Hne. cbn [event_scan fmap list_fmap concat app event_lines sse_loop]. unfold chat_payload. cbn [chat_doc].
  rewrite (reads_choice Hstep). unfold after_decode. cbn [token_counts sse_Usage default first_choice Choices fmap option_fmap option_map].
  rewrite (sanitize_id fr) by done. change (sanitize "") with "". cbn [default].
  unfold chunk_out. cbn [andb String.eqb]. change (id fr) with fr. destruct (String.eqb_spec fr ""); [done|]. cbn [negb].
  by rewrite sink_accepts.
Qed.

Lemma event_scan_app l l' : event_scan env message (l ++ l') = (event_scan env message l ++ event_scan env message l')%list.
Proof. unfold event_scan. by rewrite !fmap_app, concat_app, fmap_app. Qed.

(** An answered stream, read to its stop event. *)
Lemma read_answer finish contents fr rest :
  Forall (fun t => valid_utf8 t /\ t <> "") contents -> valid_utf8 fr -> fr <> "" ->
  sse_loop sink step finish (event_scan env message (SRole :: (SContent <$> contents) ++ SStop fr :: rest)) 0 0 0 =
    (None, (text_chunk <$> contents) ++ [done_chunk "" fr 0 0])%list.
Proof.
  intros Hc Hv Hne. change (SRole :: (SContent <$> contents) ++ SStop fr :: rest)%list
    with ([SRole] ++ ((SContent <$> contents) ++ ([SStop fr] ++ rest)))%list.
  rewrite !event_scan_app, read_role, read_contents, read_stop by done. done.
Qed.
End Readers.

Section ReaderInstances.
Context `{TrimTables}.

Lemma payload_done env role text finish :
  String.eqb (print (chatCompletionChunk_doc (chat_chunk env [mkChunkChoice 0 (mkDelta role text) finish] None))) "[DONE]" = false.
Proof. reflexivity. Qed.

Lemma openai_reads env : reads_chunks env (openai_line decode_openai).
Proof.
  split; [done|]. intros role text finish pt et. unfold openai_line. rewrite payload_of_data by apply object_solid.
  rewrite payload_done. unfold decode_openai. by rewrite decode_choice by by left.
Qed.

Lemma vllm_reads env model : reads_chunks env (vllm_line decode_vllm model).
Proof.
  split; [done|]. intros role text finish pt et. unfold vllm_line. rewrite payload_of_data by apply object_solid.
  rewrite payload_done. unfold decode_vllm. by rewrite decode_choice by by right.
Qed.
End ReaderInstances.

(** ** Lemmas: requests *)

(** What a [float32] field holds once it has read the text of a [float64]. *)
Definition as_float32 (x : float64) : option spec_float := parse_float 24 128 (float_text x).

Definition float32_ok (f : option float64) : Prop :=
  match f with Some x => num x /\ is_Some (as_float32 x) | None => True end.

(** Storing the optional members of a request. *)
Lemma bind_temperature r t ms : q_Temperature r = None -> float32_ok t ->
  dec_members chat_fields r (option_member "temperature" number_doc t ++ ms)%list =
    dec_members chat_fields (mkChatReq (q_Model r) (q_Messages r) (q_Stream r) (q_StreamOptions r) (t ≫= as_float32) (q_TopP r)
      (q_MaxTokens r) (q_MaxCompletionTokens r)) ms.
Proof.
  intros Hr Ht. destruct t as [f|]; cbn [option_member app].
  - destruct Ht as (_ & y & Ht). erewrite dec_members_field; [reflexivity|reflexivity|]. cbn beta.
    cbn [number_doc dec_ptr dec_float32 mbind option_bind]. unfold as_float32 in *. by rewrite Ht.
  - destruct r. cbn in *. by subst.
Qed.

Lemma bind_top_p r t ms : q_TopP r = None -> float32_ok t ->
  dec_members chat_fields r (option_member "top_p" number_doc t ++ ms)%list =
    dec_members chat_fields (mkChatReq (q_Model r) (q_Messages r) (q_Stream r) (q_StreamOptions r) (q_Temperature r) (t ≫= as_float32)
      (q_MaxTokens r) (q_MaxCompletionTokens r)) ms.
Proof.
  intros Hr Ht. destruct t as [f|]; cbn [option_member app].
  - destruct Ht as (_ & y & Ht). erewrite dec_members_field; [reflexivity|reflexivity|]. cbn beta.
    cbn [number_doc dec_ptr dec_float32 mbind option_bind]. unfold as_float32 in *. by rewrite Ht.
  - destruct r. cbn in *. by subst.
Qed.

Definition int32_option (z : option Z) : Prop := match z with Some n => - 2 ^ 31 <= n <= 2 ^ 31 - 1 | None => True end.

Lemma bind_max_tokens r t ms : q_MaxTokens r = None -> int32_option t ->
  dec_members chat_fields r (option_member "max_tokens" DInt t ++ ms)%list =
    dec_members chat_fields (mkChatReq (q_Model r) (q_Messages r) (q_Stream r) (q_StreamOptions r) (q_Temperature r)
      (q_TopP r) t (q_MaxCompletionTokens r)) ms.
Proof.
  intros Hr Ht. destruct t as [n|]; cbn [option_member app].
  - erewrite dec_members_field; [reflexivity|reflexivity|]. cbn beta. rewrite Hr.
    change (dec_ptr 0 dec_int32 None (DInt n)) with (option_map Some (dec_int (- 2 ^ 31) (2 ^ 31 - 1) 0 (DInt n))).
    by rewrite dec_int_DInt.
  - destruct r. cbn in *. by subst.
Qed.

Lemma repaired_openai_body model prompt b :
  repaired (openai_body_doc model prompt b) = openai_body_doc (sanitize model) (sanitize prompt) b.
Proof. destruct b as [[] [] []]; reflexivity. Qed.

Lemma repaired_chatBody model prompt b :
  repaired (chatBody_doc model prompt b) = chatBody_doc (sanitize model) (sanitize prompt) b.
Proof. destruct b as [[] [] []]; reflexivity. Qed.

Definition body_ok (b : sampling_body) : Prop :=
  float32_ok (body_Temperature b) /\ float32_ok (body_TopP b) /\ int32_option (body_MaxTokens b).

Lemma openai_body_numbers model prompt b : body_ok b -> numbers_ok (openai_body_doc model prompt b).
Proof.
  intros (Ht & Hp & _). destruct b as [[] [] []]; cbn -[Itoa float_text as_float32] in *;
    repeat match goal with H : _ /\ _ |- _ => destruct H end; split_and!; try done; first [apply Itoa_num_ok | by apply float_text_number].
Qed.

Lemma chatBody_numbers model prompt b : body_ok b -> numbers_ok (chatBody_doc model prompt b).
Proof.
  intros (Ht & Hp & _). destruct b as [[] [] []]; cbn -[Itoa float_text as_float32] in *;
    repeat match goal with H : _ /\ _ |- _ => destruct H end; split_and!; try done; first [apply Itoa_num_ok | by apply float_text_number].
Qed.

(** The chat request a relayed request is bound to. *)
Definition relayed_request (model prompt : string) (b : sampling_body) : ChatRequest :=
  mkChat (sanitize model) [mkMessage "user" (sanitize prompt)] true false (body_Temperature b ≫= as_float32) (body_TopP b ≫= as_float32) (body_MaxTokens b) None.

(** The members both bodies share, once the optional ones are stored. *)
Lemma bind_openai_body model prompt b : body_ok b ->
  bind_chat (print (openai_body_doc model prompt b)) = Some (relayed_request model prompt b).
Proof.
  intros Hb. pose proof Hb as (Ht & Hp & Hm). unfold bind_chat.
  rewrite first_value_print; [|by apply openai_body_numbers|by destruct b as [[] [] []]].
  rewrite repaired_openai_body. unfold openai_body_doc. cbn [dec_struct].
  rewrite bind_max_tokens by done. cbn [app].
  erewrite (dec_members_field chat_fields); [|reflexivity|reflexivity].
  erewrite (dec_members_field chat_fields); [|reflexivity|reflexivity].
  erewrite (dec_members_field chat_fields); [|reflexivity|reflexivity].
  rewrite bind_temperature by done. rewrite <- (app_nil_r (option_member "top_p" _ _)).
  rewrite bind_top_p by done. reflexivity.
Qed.

Lemma bind_chatBody model prompt b : body_ok b ->
  bind_chat (print (chatBody_doc model prompt b)) = Some (relayed_request model prompt b).
Proof.
  intros Hb. pose proof Hb as (Ht & Hp & Hm). unfold bind_chat.
  rewrite first_value_print; [|by apply chatBody_numbers|by destruct b as [[] [] []]].
  rewrite repaired_chatBody. unfold chatBody_doc. cbn [dec_struct app].
  erewrite (dec_members_field chat_fields); [|reflexivity|reflexivity].
  erewrite (dec_members_field chat_fields); [|reflexivity|reflexivity].
  erewrite (dec_members_field chat_fields); [|reflexivity|reflexivity].
  rewrite bind_temperature, bind_top_p by done. rewrite <- (app_nil_r (option_member "max_tokens" _ _)).
  rewrite bind_max_tokens by done. reflexivity.
Qed.

(** ** Properties *)

(** The texts of an event are UTF-8. *)
Definition utf8_event (ev : sse) : Prop :=
  match ev with SContent t => valid_utf8 t | SStop f => valid_utf8 f | _ => True end.

Definition body_fits (body : string) : Prop := Forall (fun l => str_len l < max_token) (raw_lines body).

#[export] Instance utf8_event_dec ev : Decision (utf8_event ev).
Proof. destruct ev; cbn; apply _. Defined.

#[export] Instance body_fits_dec body : Decision (body_fits body).
Proof. unfold body_fits. apply _. Defined.

Lemma stop_of_nonempty finish : stop_of finish <> "".
Proof. unfold stop_of. by destruct (String.eqb_spec finish ""). Qed.

Lemma texts_nonempty s : Forall (fun t => t <> "") (texts s).
Proof. induction s as [|[c|e] s IH]; cbn [texts]; [constructor| |constructor]. destruct (String.eqb_spec (Text c) ""); [done|by constructor]. Qed.

Lemma utf8_contents s rest :
  Forall utf8_event ((SContent <$> texts s) ++ rest) -> Forall (fun t => valid_utf8 t /\ t <> "") (texts s).
Proof.
  intros [Hu _]%list.Forall_app. rewrite list.Forall_fmap in Hu. apply list.Forall_and. split; [done|apply texts_nonempty].
Qed.

(** Collecting what a reader passed on. *)
Lemma collect_read contents fr :
  collect (Ok (as_stream (None, token_chunk <$> ((text_chunk <$> contents) ++ [done_chunk "" fr 0 0])%list))) =
    Ok (concat_str contents, Some (mkUsageObj 0 0 0), fr).
Proof.
  destruct (collect_complete ((text_chunk <$> contents) ++ [done_chunk "" fr 0 0])%list) as (final & Hl & _ & E).
  { exists (text_chunk <$> contents), (done_chunk "" fr 0 0). split_and!; [done|done|].
    rewrite list.Forall_fmap. by apply list.Forall_true. }
  rewrite last_snoc in Hl. injection Hl as <-. rewrite E. do 3 f_equal.
  rewrite fmap_app, concat_str_app, <- list_fmap_compose. change (ac_Text ∘ text_chunk) with (@id string).
  rewrite list_fmap_id. apply str_app_nil_r.
Qed.

Section RelayProperties.
Context `{TrimTables} (env : envelope) (message : error -> string).
Variable sink : nat -> AdapterChunk -> option error.
Hypothesis sink_accepts : forall n c, sink n c = None.

Lemma relayed_events a model req s events incl text u finish :
  collect (Ok s) = Ok (text, u, finish) -> mirrors incl s events -> Forall utf8_event events ->
  let body := concat_str (chat_event env message <$> SRole :: events) in
  body_fits body -> model <> "" ->
  exists out, openai_Generate decode_openai sink model req (Ok (200, "", scan_body body)) = (None, out) /\
    (ar_Model req <> "" -> ar_Prompt req <> "" ->
     vllm_Generate decode_vllm sink a req (Ok (200, "", scan_body body)) = (None, out)) /\
    collect (Ok (as_stream (None, token_chunk <$> out))) = Ok (text, Some (mkUsageObj 0 0 0), stop_of finish).
Proof.
  intros Hcol. unfold mirrors. rewrite Hcol. intros [-> ->] Hu. cbn zeta. intros Hf Hm.
  pose proof (utf8_contents s _ Hu) as Hc. remember (texts s) as contents. clear Heqcontents.
  assert (valid_utf8 (stop_of finish)) as Hs.
  { apply list.Forall_app in Hu as [_ Hu]. by inversion Hu. }
  rewrite scan_events by done. exists ((text_chunk <$> contents) ++ [done_chunk "" (stop_of finish) 0 0])%list.
  unfold closing. cbn [app].
  split_and!.
  - unfold openai_Generate. destruct (String.eqb_spec model ""); [done|]. cbn [Z.eqb Pos.eqb orb negb s_lines].
    apply read_answer; auto using openai_reads, stop_of_nonempty.
  - intros Ha Hp. unfold vllm_Generate.
    destruct (String.eqb_spec (ar_Model req) ""); [done|]. destruct (String.eqb_spec (ar_Prompt req) ""); [done|].
    cbn [andb Z.eqb Pos.eqb negb s_lines]. apply read_answer; auto using vllm_reads, stop_of_nonempty.
  - apply collect_read.
Qed.

(** The error event is skipped by the provider backend, whose struct has no
    field for it, and reported by the vLLM adapter. *)
Lemma decode_error msg :
  decode_openai (print (stream_error_doc msg)) = Some (mkSSE [] None None) /\
  decode_vllm (print (stream_error_doc msg)) = Some (mkSSE [] None (Some (sanitize msg))).
Proof. unfold decode_openai, decode_vllm, decode_chunk, unmarshal_into. by rewrite parse_print. Qed.

Lemma read_error_openai e pt et n :
  sse_loop sink (openai_line decode_openai) (send_stop sink) (event_scan env message [SError e]) pt et n =
    (None, [done_chunk "" "stop" pt et]).
Proof.
  cbn [event_scan fmap list_fmap concat app event_lines sse_loop]. unfold chat_payload. cbn [chat_doc].
  unfold openai_line. rewrite payload_of_data by apply object_solid.
  change (String.eqb (print (stream_error_doc (message e))) "[DONE]") with false. cbn iota.
  rewrite (proj1 (decode_error _)). cbn. unfold send_stop. by rewrite sink_accepts.
Qed.

Lemma read_error_vllm model finish e pt et n :
  sanitize (message e) <> "" ->
  sse_loop sink (vllm_line decode_vllm model) finish (event_scan env message [SError e]) pt et n =
    (Some (if vllm_missing (sanitize (message e)) then EModelNotFoundError model
           else ENew ("vllm generate: " ++ sanitize (message e))), []).
Proof.
  intros Hm. cbn [event_scan fmap list_fmap concat app event_lines sse_loop]. unfold chat_payload. cbn [chat_doc].
  unfold vllm_line. rewrite payload_of_data by apply object_solid.
  change (String.eqb (print (stream_error_doc (message e))) "[DONE]") with false. cbn iota.
  rewrite (proj2 (decode_error _)). cbn [sse_Error default]. change (id ?x) with x.
  destruct (String.eqb_spec (sanitize (message e)) ""); done.
Qed.

Lemma relayed_failure a model req s events incl e :
  collect (Ok s) = Err e -> mirrors incl s events -> Forall utf8_event events ->
  let body := concat_str (chat_event env message <$> SRole :: events) in
  body_fits body -> model <> "" ->
  (exists out, openai_Generate decode_openai sink model req (Ok (200, "", scan_body body)) = (None, out) /\
    collect (Ok (as_stream (None, token_chunk <$> out))) = Ok (concat_str (texts s), Some (mkUsageObj 0 0 0), "stop")) /\
  (ar_Model req <> "" -> ar_Prompt req <> "" -> sanitize (message e) <> "" ->
   exists err out, vllm_Generate decode_vllm sink a req (Ok (200, "", scan_body body)) = (Some err, out)).
Proof.
  intros Hcol. unfold mirrors. rewrite Hcol. intros -> Hu. cbn zeta. intros Hf Hm.
  pose proof (utf8_contents s _ Hu) as Hc. remember (texts s) as contents. clear Heqcontents. rewrite scan_events by done.
  change (SRole :: (SContent <$> contents) ++ [SError e])%list with ([SRole] ++ ((SContent <$> contents) ++ [SError e]))%list.
  rewrite !event_scan_app. split.
  - exists ((text_chunk <$> contents) ++ [done_chunk "" "stop" 0 0])%list. split; [|apply collect_read].
    unfold openai_Generate. destruct (String.eqb_spec model ""); [done|]. cbn [Z.eqb Pos.eqb orb negb s_lines].
    rewrite read_role, read_contents, read_error_openai by auto using openai_reads. done.
  - intros Ha Hp He. unfold vllm_Generate. destruct (String.eqb_spec (ar_Model req) ""); [done|]. destruct (String.eqb_spec (ar_Prompt req) ""); [done|].
    cbn [andb Z.eqb Pos.eqb negb s_lines]. rewrite read_role, read_contents, read_error_vllm by auto using vllm_reads. by eexists _, _.
Qed.
(** A generation that fails half way is passed on as a complete one: when the
    stream a gateway answers with ends in its error event, the provider
    backend that reads it returns success, and what is collected is the text
    so far with finish reason stop.  The vLLM adapter reports the error. *)
Theorem relayed_error_reported_complete a model req s events incl e :
  collect (Ok s) = Err e -> mirrors incl s events -> Forall utf8_event events ->
  let body := concat_str (chat_event env message <$> SRole :: events) in
  body_fits body -> model <> "" -> ar_Model req <> "" -> ar_Prompt req <> "" -> sanitize (message e) <> "" ->
  (exists out, openai_Generate decode_openai sink model req (Ok (200, "", scan_body body)) = (None, out) /\
    collect (Ok (as_stream (None, token_chunk <$> out))) = Ok (concat_str (texts s), Some (mkUsageObj 0 0 0), "stop")) /\
  exists err out, vllm_Generate decode_vllm sink a req (Ok (200, "", scan_body body)) = (Some err, out).
Proof.
  intros Hc Hm Hu. cbn zeta. intros Hf Hn Ha Hp He. destruct (relayed_failure a model req s events incl e Hc Hm Hu Hf Hn) as [H1 H2]. auto.
Qed.
End RelayProperties.

Section GatewayBehindGateway.
Context `{TrimTables} `{GrpcStatus} `{Hash64}.
Variable clock : nat -> Z.
Variable open : GenerateRequest -> nat -> SelectedWorker -> result error stream.
Variable sink : nat -> AdapterChunk -> option error.
Hypothesis sink_accepts : forall n c, sink n c = None.

(** C5: a gateway as the provider of another, byte for byte: the request the
    provider backend posts is bound to a chat request for the same model,
    prompt and sampling options; and when that request is answered with an
    event stream of UTF-8 texts, with no line of a megabyte or more, what the
    backend reads from the bytes comes from a stream that was opened for the
    request on a ranked worker: of a stream that collecting reads to its end,
    the text and the finish reason are passed on, and of one that fails
    midway, the texts before the error, as a complete answer with finish
    reason stop: the error event is not read.  The token counts are lost: the
    backend neither asks for them nor reads on after the finish reason. *)
Theorem gateway_behind_gateway h env message model prompt b req out d :
  (forall g k sw s, open g k sw = Ok s -> ended_by_error s) -> body_ok b ->
  let request := bind_chat (print (openai_body_doc model prompt b)) in
  let answer := rp_Body (chat_reply env message "" (RStream out)) in
  request = Some (relayed_request model prompt b) /\
  (chatCompletions (h_retryAfterSec h) (gateway_backend clock open h None) request "" = Returns (RStream out, d) ->
   Forall utf8_event (sent out) -> body_fits answer -> model <> "" ->
   exists ws sw k opened, chat_ranked clock open h (relayed_request model prompt b) "" = Ok ws /\ sw ∈ ws /\
     open (chat_genReq (relayed_request model prompt b)) k sw = Ok opened /\
     exists chunks, openai_Generate decode_openai sink model req (Ok (200, "", scan_body answer)) = (None, chunks) /\
       collect (Ok (as_stream (None, token_chunk <$> chunks))) =
         match collect (Ok opened) with
         | Ok (text, _, finish) => Ok (text, Some (mkUsageObj 0 0 0), stop_of finish)
         | Err _ => Ok (concat_str (texts opened), Some (mkUsageObj 0 0 0), "stop")
         end).
Proof.
  cbn zeta. intros Hends Hb. rewrite bind_openai_body by done. split; [done|]. intros E Hu Hf Hm.
  destruct (streamed_answer clock open h (relayed_request model prompt b) "" out d Hends eq_refl E) as (ws & sw & Hr & Hin & _ & k & opened & events & Ho & Hs & Hmir).
  exists ws, sw, k, opened. split_and!; [done..|]. cbn [chat_reply rp_Body] in *. rewrite Hs in *.
  assert (Forall utf8_event events) as Hue by by inversion Hu.
  destruct (collect (Ok opened)) as [[[text u] finish]|e] eqn:Hcol.
  - destruct (relayed_events env message sink sink_accepts (mkVllm "" "") model req opened events _ text u finish Hcol Hmir Hue Hf Hm)
      as (chunks & E1 & _ & E2). by exists chunks.
  - destruct (relayed_failure env message sink sink_accepts (mkVllm "" "") model req opened events _ e Hcol Hmir Hue Hf Hm) as [Hx _]. exact Hx.
Qed.
End GatewayBehindGateway.

(** *** Witnesses *)

#[export] Instance byte_tables : TrimTables.
Proof.
  refine {| trim_tables := {| unicode_lower s := s; unicode_upper s := s; unicode_trim s := trim_right (trim_left s) |} |}.
  - intros s Hs. cbn [unicode_trim]. assert (trim_left s = s) as ->; [|by apply trim_right_solid].
    destruct Hs as (a & t & b & -> & Ha & _). cbn. by rewrite Ha.
  - intros s Hs. cbn [unicode_trim]. assert (trim_left (String " " s) = s) as ->; [|by apply trim_right_solid].
    destruct Hs as (a & t & b & -> & Ha & _). cbn. by rewrite Ha.
Defined.

Definition half : float64 := flit 1 2.

Lemma half_ok : float32_ok (Some half).
Proof. split; [by vm_compute|]. vm_compute. by eexists. Qed.

Definition relay_sampling : sampling_body := mkBody (Some half) None (Some 16).
Definition relay_env : envelope := mkEnv "chatcmpl-0a1b2c3d4e5f" 1700000000 "m#a".
Definition no_message (e : error) : string := "".
Definition relay_provider_request : AdapterRequest := mkAdapterReq "m#a" "hi" None "".
Definition hello_out : writer :=
  mkWriter [SRole; SContent "hel"; SContent "lo"; SStop "stop"; SDone] None.

Lemma gateway_behind_gateway_witness :
  let answer := rp_Body (chat_reply relay_env no_message "" (RStream hello_out)) in
  exists d,
    @chatCompletions trim_tables plain_grpc (h_retryAfterSec demo_handler)
      (@gateway_backend trim_tables plain_grpc sum_bytes at_101s hello_open demo_handler None)
      (bind_chat (print (openai_body_doc "m#a" "hi" relay_sampling))) "" = Returns (RStream hello_out, d) /\
    exists chunks, openai_Generate decode_openai (fun _ _ => None) "m#a" relay_provider_request
        (Ok (200, "", scan_body answer)) = (None, chunks) /\
      collect (Ok (as_stream (None, token_chunk <$> chunks))) = Ok ("hello", Some (mkUsageObj 0 0 0), "stop").
Proof.
  cbn zeta. eexists. split; [vm_compute; reflexivity|].
  destruct (@gateway_behind_gateway byte_tables plain_grpc sum_bytes at_101s hello_open (fun _ _ => None)
    ltac:(reflexivity) demo_handler relay_env no_message "m#a" "hi" relay_sampling relay_provider_request hello_out
    (Some (mkRecorded 200 "w1" None))) as [_ Hr].
  - exact hello_ended.
  - split_and!; [apply half_ok|exact I|cbn; lia].
  - destruct Hr as (ws & sw & k & opened & _ & _ & Ho & Hc).
    + vm_compute. reflexivity.
    + apply (bool_decide_unpack _). vm_compute. exact I.
    + apply (bool_decide_unpack _). vm_compute. exact I.
    + discriminate.
    + injection Ho as <-. destruct Hc as (chunks & E1 & E2).
      exists chunks. split; [vm_compute in E1; vm_compute; exact E1|exact E2].
Defined.
