(* ===== verification/OllamaWire.v ===== *)
(** * The Ollama adapter on the wire (worker/adapters/ollama/ollama.go,
      New of worker/adapters/vllm/vllm.go)

    What the adapter posts, and the newline-delimited JSON it reads, as bytes:
    the file gives the adapter of WorkerAdapters.v its decoders and shows that
    an answer of the runtime, whatever other members its documents have,
    reaches the gateway. *)

From Stdlib Require Import Ascii.
From S2P Require Import Prelude Float64 GoStrings GoFormat Json JsonDecode Strconv JsonFloat JsonMaps Errors GatewaySelect GatewayDispatch WorkerAdapters Relay.

(** ** The adapters' configuration *)

Record AdapterConfig := mkAdapterConfig { ac_BaseURL : string; ac_KeepAlive : string; ac_Timeout : Z }.

(** [ollama.New]: the address, the default keep-alive, and the timeout of the
    client, if it has one. *)
Definition ollama_New (cfg : AdapterConfig) : string * string * option Z :=
  let url := if String.eqb (ac_BaseURL cfg) "" then "http://127.0.0.1:11434" else ac_BaseURL cfg in
  (TrimRight url "/"%char, if String.eqb (ac_KeepAlive cfg) "" then "5m" else ac_KeepAlive cfg,
   if 0 <? ac_Timeout cfg then Some (ac_Timeout cfg) else None).

(** [vllm.New] *)
Definition vllm_New (baseURL : string) (timeout : Z) : string * option Z :=
  let url := if String.eqb baseURL "" then "http://127.0.0.1:8000" else baseURL in
  (TrimRight url "/"%char, if 0 <? timeout then Some timeout else None).

(** ** The request *)

Definition option_doc (v : option_value) : doc :=
  match v with
  | VFloat64 f => DNum (float_text f)
  | VFloat32 f => DNum (float32_text f)
  | VInt z | VInt32 z => DInt z
  | VBool b => DBool b
  end.

Record generateBody := mkGenBody { gb_Model : string; gb_Prompt : string; gb_KeepAlive : string; gb_Think : bool; gb_Options : Options }.

(** A think option goes into the body instead of the options. *)
Definition generate_body (defaultKeepAlive : string) (req : AdapterRequest) : generateBody :=
  let keepAlive := if String.eqb (ar_KeepAlive req) "" then defaultKeepAlive else ar_KeepAlive req in
  let '(think, options) :=
    match ar_Options req with
    | None => (false, ∅)
    | Some o => match o !! "think" with Some (VBool b) => (b, delete "think" o) | _ => (false, o) end
    end in
  mkGenBody (ar_Model req) (ar_Prompt req) keepAlive think options.

Definition generateBody_doc (b : generateBody) : doc :=
  DObj ([("model", DStr (gb_Model b)); ("prompt", DStr (gb_Prompt b)); ("stream", DBool true)] ++
        omit (String.eqb (gb_KeepAlive b) "") "keep_alive" (DStr (gb_KeepAlive b)) ++
        [("think", DBool (gb_Think b))] ++
        omit (bool_decide (gb_Options b = ∅)) "options" (DObj (map_members option_doc (gb_Options b)))).

(** ** The answer *)

Definition zero_line : streamLine := mkLine "" false "" 0 0 0 "".

(** [streamLine], whose model is read and not looked at. *)
Definition line_fields : fields streamLine :=
  [("model", fun l d => option_map (fun _ => l) (dec_string "" d));
   ("response", fun l d => option_map (fun x => mkLine x (l_Done l) (l_DoneReason l) (l_PromptEval l) (l_Eval l) (l_Total l) (l_Error l))
      (dec_string (l_Response l) d));
   ("done", fun l d => option_map (fun x => mkLine (l_Response l) x (l_DoneReason l) (l_PromptEval l) (l_Eval l) (l_Total l) (l_Error l))
      (dec_bool (l_Done l) d));
   ("done_reason", fun l d => option_map (fun x => mkLine (l_Response l) (l_Done l) x (l_PromptEval l) (l_Eval l) (l_Total l) (l_Error l))
      (dec_string (l_DoneReason l) d));
   ("prompt_eval_count", fun l d => option_map (fun x => mkLine (l_Response l) (l_Done l) (l_DoneReason l) x (l_Eval l) (l_Total l) (l_Error l))
      (dec_int32 (l_PromptEval l) d));
   ("eval_count", fun l d => option_map (fun x => mkLine (l_Response l) (l_Done l) (l_DoneReason l) (l_PromptEval l) x (l_Total l) (l_Error l))
      (dec_int32 (l_Eval l) d));
   ("total_duration", fun l d => option_map (fun x => mkLine (l_Response l) (l_Done l) (l_DoneReason l) (l_PromptEval l) (l_Eval l) x (l_Error l))
      (dec_int64 (l_Total l) d));
   ("error", fun l d => option_map (mkLine (l_Response l) (l_Done l) (l_DoneReason l) (l_PromptEval l) (l_Eval l) (l_Total l))
      (dec_string (l_Error l) d))].

Definition decode_ollama (raw : string) : option streamLine := unmarshal_into zero_line (dec_struct line_fields) raw.

(** [errorBody] *)
Definition error_of (msg : string) : option string := unmarshal_into "" (dec_struct [("error", dec_string)]) msg.

(** The adapter with its decoders, on a body that arrives whole. *)
Definition ollama `{UnicodeTables} (sink : nat -> AdapterChunk -> option error) (msg body : string) (req : AdapterRequest) : option error * list AdapterChunk :=
  ollama_Generate sink decode_ollama error_of req (Ok (200, msg, scan_body body)).

(** ** Lemmas *)

(** Newline-delimited documents. *)
Definition ndjson (ds : list doc) : string := concat_str ((fun d => print d ++ String nl "") <$> ds).

Lemma ndjson_lines ds : Forall numbers_ok ds -> raw_lines (ndjson ds) = print <$> ds.
Proof.
  intros Hd. assert (segments (ndjson ds) = ((print <$> ds) ++ [""])%list) as E.
  { induction Hd as [|d ds Hd _ IH]; [done|]. unfold ndjson. cbn [fmap list_fmap concat_str app].
    rewrite str_app_assoc. change (String nl "" ++ ?t) with (String nl t). rewrite segments_line.
    - f_equal. exact IH.
    - apply printable_no; [done|]. by apply print_printable. }
  unfold raw_lines. rewrite E, last_snoc. apply removelast_last.
Qed.

Lemma print_nonempty d : numbers_ok d -> print d <> "".
Proof. intros Hd E. destruct (print_start d Hd) as (a & s & Es & _). by rewrite E in Es. Qed.

(** ** What the runtime writes

    A generation as the API of Ollama documents it: some documents with a text
    each, and a last one that may have a text too, with the reason it ended
    for and its counts, each of which may be missing. *)
Record generation := mkGeneration {
  gn_model : string;
  gn_texts : list string;
  gn_last : string;
  gn_reason : option string;
  gn_total : option Z;
  gn_prompt : option Z;
  gn_eval : option Z
}.

Definition text_members (model t : string) : list (string * doc) :=
  [("model", DStr model); ("response", DStr t); ("done", DBool false)].

Definition given {A} (k : string) (enc : A -> doc) (x : option A) : list (string * doc) :=
  match x with Some x => [(k, enc x)] | None => [] end.

Definition final_members (g : generation) : list (string * doc) :=
  ([("model", DStr (gn_model g)); ("response", DStr (gn_last g)); ("done", DBool true)] ++
   given "done_reason" DStr (gn_reason g) ++ given "total_duration" DInt (gn_total g) ++
   given "prompt_eval_count" DInt (gn_prompt g) ++ given "eval_count" DInt (gn_eval g))%list.

(** Any other member is free to be there, unless its name is one of these up
    to case (or an error). *)
Definition answer_names : list string :=
  ["model"; "response"; "done"; "done_reason"; "total_duration"; "prompt_eval_count"; "eval_count"; "error"].

Definition answer_member (kv : string * doc) : bool :=
  existsb (fun n => String.eqb (fold_name kv.1) (fold_name n)) answer_names.

Definition says (members : list (string * doc)) (d : doc) : Prop :=
  plain max_nesting d /\ exists ms, d = DObj ms /\ List.filter answer_member ms = members.

Record ollama_writes (g : generation) (docs : list doc) : Prop := {
  ow_docs : exists parts final, docs = (parts ++ [final])%list /\
    Forall2 (fun t => says (text_members (gn_model g) t)) (gn_texts g) parts /\ says (final_members g) final;
  ow_prompt : - 2 ^ 31 <= default 0 (gn_prompt g) < 2 ^ 31;
  ow_eval : - 2 ^ 31 <= default 0 (gn_eval g) < 2 ^ 31;
  ow_total : in_i64 (default 0 (gn_total g))
}.

(** What is collected of it. *)
Definition generated (g : generation) : string * option usage * string :=
  (concat_str (gn_texts g) ++ gn_last g,
   Some (usage_of (mkUsage (default 0 (gn_prompt g)) (default 0 (gn_eval g)))),
   match gn_reason g with None | Some "" => "stop" | Some r => r end).

(** A document that reads as the line [l]. *)
Definition reads_as (d : doc) (l : streamLine) : Prop := plain max_nesting d /\ dec_struct line_fields zero_line d = Some l.

Lemma find_field_none {A} (fs : fields A) k : Forall (fun f => field_is f.1 k = false) fs -> find_field fs k = None.
Proof. induction 1 as [|[n dec] fs Hf _ IH]; [done|]. cbn [find_field]. cbn [fst] in Hf. by rewrite Hf. Qed.

(** Members the struct has no field for are skipped. *)
Lemma dec_answer_members l ms : dec_members line_fields l ms = dec_members line_fields l (List.filter answer_member ms).
Proof.
  revert l. induction ms as [|[k d] ms IH]; intros l; [done|]. cbn [List.filter]. destruct (answer_member (k, d)) eqn:E.
  - cbn [dec_members]. destruct (dec_member line_fields l (k, d)); [apply IH|done].
  - rewrite dec_members_skip; [apply IH|]. apply find_field_none.
    assert (Forall (fun n => n ∈ answer_names) line_fields.*1) as Hn by by apply (bool_decide_unpack _).
    apply list.Forall_fmap in Hn. eapply list.Forall_impl; [exact Hn|]. intros [n dec] Hin. cbn [compose fst] in Hin |- *.
    unfold field_is. destruct (String.eqb_spec (fold_name k) (fold_name n)) as [Ef|Hf]; [|destruct (String.eqb_spec k n); [congruence|done]].
    exfalso. apply not_true_iff_false in E. apply E. apply existsb_exists. exists n. split; [by apply list_elem_of_In|]. by apply String.eqb_eq.
Qed.

Definition text_line (t : string) : streamLine := mkLine t false "" 0 0 0 "".

Definition final_line (g : generation) : streamLine :=
  mkLine (gn_last g) true (default "" (gn_reason g)) (default 0 (gn_prompt g)) (default 0 (gn_eval g)) (default 0 (gn_total g)) "".

Lemma dec_int32_DInt old z : - 2 ^ 31 <= z < 2 ^ 31 -> dec_int32 old (DInt z) = Some z.
Proof. intros Hz. unfold dec_int32. by rewrite dec_int_DInt by lia. Qed.

(** A member that may be missing. *)
Lemma dec_members_given {A B} (fs : fields A) old k (enc : B -> doc) x ms dec a :
  find_field fs k = Some dec -> match x with Some x => dec old (enc x) = Some a | None => a = old end ->
  dec_members fs old (given k enc x ++ ms)%list = dec_members fs a ms.
Proof. intros E Ha. destruct x; cbn [given app]; [by eapply dec_members_field|by subst]. Qed.

Lemma dec_final_members g :
  - 2 ^ 31 <= default 0 (gn_prompt g) < 2 ^ 31 -> - 2 ^ 31 <= default 0 (gn_eval g) < 2 ^ 31 -> in_i64 (default 0 (gn_total g)) ->
  dec_members line_fields zero_line (final_members g) = Some (final_line g).
Proof.
  intros Hp He Ht. unfold final_members. cbn [app].
  do 3 (read_member line_fields; [|reflexivity]).
  erewrite (dec_members_given line_fields) with (a := mkLine (gn_last g) true (default "" (gn_reason g)) 0 0 0 ""); [|reflexivity|by destruct (gn_reason g)].
  erewrite (dec_members_given line_fields) with (a := mkLine (gn_last g) true (default "" (gn_reason g)) 0 0 (default 0 (gn_total g)) ""); [|reflexivity|].
  2:{ destruct (gn_total g); [|done]. by rewrite dec_int64_DInt. }
  erewrite (dec_members_given line_fields) with (a := mkLine (gn_last g) true (default "" (gn_reason g)) (default 0 (gn_prompt g)) 0 (default 0 (gn_total g)) ""); [|reflexivity|].
  2:{ destruct (gn_prompt g); [|done]. by rewrite dec_int32_DInt. }
  rewrite <- (app_nil_r (given "eval_count" DInt (gn_eval g))).
  erewrite (dec_members_given line_fields) with (a := final_line g); [done|reflexivity|].
  unfold final_line. destruct (gn_eval g) as [z|]; [|done]. by rewrite dec_int32_DInt.
Qed.

Lemma ollama_writes_reads g docs : ollama_writes g docs ->
  Forall2 reads_as docs ((text_line <$> gn_texts g) ++ [final_line g])%list.
Proof.
  intros [(parts & final & -> & Hp & [Hpl (ms & -> & Ef)]) H1 H2 H3]. apply Forall2_app.
  - clear -Hp. induction Hp as [|t d ts ds [Hd (ms & -> & E)] _ IH]; constructor; [|exact IH].
    split; [done|]. cbn [dec_struct]. by rewrite dec_answer_members, E.
  - constructor; [|constructor]. split; [done|]. cbn [dec_struct]. rewrite dec_answer_members, Ef. by apply dec_final_members.
Qed.

Section Answer.
Context `{UnicodeTables} (sink : nat -> AdapterChunk -> option error).
Hypothesis sink_accepts : forall n c, sink n c = None.

Lemma ollama_lines_read model body ds ls n :
  Forall2 reads_as ds ls -> Forall (fun l => l_Error l = "") ls -> s_err body = None ->
  ollama_lines sink decode_ollama model body ((fun d => (print d, None)) <$> ds) n = (None, ollama_chunk <$> ls).
Proof.
  intros H2 He Hb. revert n. induction H2 as [|d l ds ls [Hp Hd] _ IH]; intros n; cbn [fmap list_fmap ollama_lines]; [by rewrite Hb|].
  apply list.Forall_cons in He as [He Hes]. destruct (String.eqb_spec (print d) "") as [E|_]; [by apply print_nonempty in E; [|apply Hp]|].
  unfold decode_ollama at 1, unmarshal_into. rewrite (plain_parse d Hp), Hd, He. cbn [String.eqb negb]. rewrite sink_accepts, IH by done. done.
Qed.

Lemma ollama_complete pre final : Forall (fun l => l_Done l = false) pre -> l_Done final = true ->
  complete (ollama_chunk <$> (pre ++ [final])%list).
Proof.
  intros Hp Hf. exists (ollama_chunk <$> pre), (ollama_chunk final). rewrite fmap_app. split_and!; [done| |].
  - unfold ollama_chunk. by rewrite Hf.
  - apply Forall_fmap. eapply Forall_impl; [|exact Hp]. intros l Hl. unfold compose, ollama_chunk. by rewrite Hl.
Qed.

Lemma chunk_text l : ac_Text (ollama_chunk l) = l_Response l.
Proof. unfold ollama_chunk. by destruct (l_Done l). Qed.

(** The stream the worker's server makes of the runtime's answer. *)
Lemma ollama_served `{GrpcStatus} keepAlive req topK msg docs ls :
  g_Prompt req <> "" -> g_BaseModel req <> "" -> Forall2 reads_as docs ls -> Forall (fun l => l_Error l = "") ls -> body_fits (ndjson docs) ->
  server_Generate (ollama sink msg (ndjson docs)) keepAlive req topK = (None, token_chunk <$> (ollama_chunk <$> ls)).
Proof.
  intros Hp Hb H2 He Hfit. unfold server_Generate.
  destruct (String.eqb_spec (g_Prompt req) ""); [done|]. destruct (String.eqb_spec (g_BaseModel req) ""); [done|].
  assert (Forall numbers_ok docs) as Hn.
  { clear -H2. induction H2 as [|d l ds ls [[_ [Hd _]] _] _ IH]; by constructor. }
  assert (scan_body (ndjson docs) = mkScan ((fun d => (print d, None)) <$> docs) None None) as Escan.
  { unfold scan_body. unfold body_fits in Hfit. rewrite ndjson_lines in Hfit |- * by done. rewrite scan_lines_fit.
    - by rewrite <- list_fmap_compose.
    - done.
    - apply Forall_fmap. eapply Forall_impl; [|exact Hn]. intros d Hd. apply printable_no; [done|]. by apply print_printable. }
  match goal with |- context [ollama sink msg (ndjson docs) ?r] => assert (ollama sink msg (ndjson docs) r = (None, ollama_chunk <$> ls)) as -> end; [|done].
  unfold ollama, ollama_Generate. cbn [ar_Model ar_Prompt]. destruct (String.eqb_spec (g_BaseModel req) ""); [done|].
  destruct (String.eqb_spec (g_Prompt req) ""); [done|]. cbn [Z.eqb Pos.eqb negb]. rewrite Escan. cbn [s_lines]. by apply ollama_lines_read.
Qed.

Lemma collect_ollama pre final : Forall (fun l => l_Done l = false) pre -> l_Done final = true ->
  collect (Ok (as_stream (None, token_chunk <$> (ollama_chunk <$> (pre ++ [final])%list)))) =
    Ok (concat_str (l_Response <$> (pre ++ [final])%list), Some (usage_of (mkUsage (l_PromptEval final) (l_Eval final))),
        if String.eqb (l_DoneReason final) "" then "stop" else l_DoneReason final).
Proof.
  intros Hpre Hf. destruct (collect_complete _ (ollama_complete pre final Hpre Hf)) as (fin & El & _ & Ec).
  assert (fin = ollama_chunk final) as ->.
  { rewrite fmap_app in El. cbn [fmap list_fmap] in El. rewrite list.last_snoc in El. by injection El. }
  rewrite Ec. clear Ec El. rewrite <- list_fmap_compose. f_equal. f_equal.
  - f_equal.
    + f_equal. apply list_fmap_ext. intros i l _. apply chunk_text.
    + unfold ollama_chunk. by rewrite Hf.
  - unfold ollama_chunk. by rewrite Hf.
Qed.

Lemma ollama_written `{GrpcStatus} keepAlive req topK msg docs g :
  g_Prompt req <> "" -> g_BaseModel req <> "" -> ollama_writes g docs -> body_fits (ndjson docs) ->
  server_Generate (ollama sink msg (ndjson docs)) keepAlive req topK =
    (None, token_chunk <$> (ollama_chunk <$> ((text_line <$> gn_texts g) ++ [final_line g])%list)).
Proof.
  intros Hp Hb Hw Hfit. apply ollama_served; [done..|by apply ollama_writes_reads| |done].
  apply Forall_app. split; [|by repeat constructor]. apply Forall_fmap. by apply list.Forall_true.
Qed.

Lemma collect_generated g :
  collect (Ok (as_stream (None, token_chunk <$> (ollama_chunk <$> ((text_line <$> gn_texts g) ++ [final_line g])%list)))) =
    Ok (generated g).
Proof.
  rewrite collect_ollama; [|apply Forall_fmap; by apply list.Forall_true|done]. unfold generated. cbn [final_line l_PromptEval l_Eval l_DoneReason].
  rewrite fmap_app, concat_str_app, <- list_fmap_compose. change (l_Response ∘ text_line) with (@id string). rewrite list_fmap_id.
  cbn [fmap list_fmap concat_str final_line l_Response]. rewrite str_app_nil_r. by destruct (gn_reason g) as [[]|].
Qed.
End Answer.

(** ** Properties *)

(** C28: an answer of Ollama reaches the client's gateway: when the runtime
    answers with the newline-delimited documents its API describes (texts with
    done false, and a last one with done true, a reason and counts, the
    members under the names and in the order of the API, those of the last
    document possibly missing, and any other members among them), valid UTF-8,
    counts of 32 bits and lines below a megabyte, then the adapter and the
    worker's server pass it on so that the gateway that collects the stream
    has the texts in order, the reason of the last document (stop, when there
    is none) and its token counts. *)
Theorem ollama_answer_collected `{UnicodeTables} `{GrpcStatus} sink keepAlive req topK msg docs g :
  (forall n c, sink n c = None) -> g_Prompt req <> "" -> g_BaseModel req <> "" ->
  ollama_writes g docs -> body_fits (ndjson docs) ->
  collect (Ok (as_stream (server_Generate (ollama sink msg (ndjson docs)) keepAlive req topK))) =
    Ok (concat_str (gn_texts g) ++ gn_last g,
        Some (usage_of (mkUsage (default 0 (gn_prompt g)) (default 0 (gn_eval g)))),
        match gn_reason g with None | Some "" => "stop" | Some r => r end).
Proof. intros Hs Hp Hb Hw Hfit. rewrite (ollama_written sink Hs keepAlive req topK msg docs g) by done. by rewrite collect_generated. Qed.

(** Unlike vLLM, Ollama gets the sampling parameters of a request: the options
    of its body are those the worker's server made of them. *)
Theorem sampling_sent_to_ollama sp topK model prompt keepAlive default_ :
  gb_Options (generate_body default_ (mkAdapterReq model prompt (Some (server_options sp topK)) keepAlive)) = server_options sp topK.
Proof.
  unfold generate_body. cbn [ar_Options]. assert (server_options sp topK !! "think" = None) as ->; [|done].
  unfold server_options. destruct sp as [s|]; [|apply lookup_empty]. rewrite !lookup_set_if, lookup_empty. cbn [String.eqb Ascii.eqb Bool.eqb]. by rewrite !andb_false_r.
Qed.

(** *** Witnesses *)

Definition hello_docs : list doc :=
  [DObj [("model", DStr "qwen"); ("created_at", DStr "2026-01-01T12:00:00Z"); ("response", DStr "Hel"); ("done", DBool false)];
   DObj [("model", DStr "qwen"); ("response", DStr "lo"); ("done", DBool true); ("done_reason", DStr "length"); ("context", DArr [DInt 1; DInt 2]);
         ("total_duration", DInt 5000); ("prompt_eval_count", DInt 7); ("eval_count", DInt 2)]].

Definition hello_generation : generation :=
  mkGeneration "qwen" ["Hel"] "lo" (Some "length") (Some 5000) (Some 7) (Some 2).

Definition ask_qwen : GenerateRequest := mkGenerate "qwen" None "hi" None.

Lemma hello_written : ollama_writes hello_generation hello_docs.
Proof.
  assert (forall k d, str_forall (fun a => byte a <? 0x80) k = true -> plain 1 d -> valid_utf8 k /\ plain 1 d) as Hk by (intros k d Hk Hd; split; [by apply ascii_utf8|done]).
  assert (forall s, str_forall (fun a => byte a <? 0x80) s = true -> plain 1 (DStr s)) as Hs.
  { intros s Hs. apply (plain_mono 0); [|done]. by apply plain_str, ascii_utf8. }
  assert (forall b, plain 1 (DBool b)) as Hb by (intros b; apply (plain_mono 0); [apply plain_bool|done]).
  assert (forall z, plain 1 (DInt z)) as Hz by (intros z; apply (plain_mono 0); [apply plain_int|done]).
  split; [|cbn; unfold in_i64, two63; lia..]. eexists [_], _. split; [reflexivity|]. split; [constructor; [|constructor]|];
    (split; [eapply (plain_mono 2); [|done]; apply (plain_obj 1); [done|]|by eexists]);
    repeat (apply list.Forall_cons; split; [apply Hk; [reflexivity|cbn [snd]]|]); try done;
    try (by apply Hs); try apply Hb; try apply Hz.
  apply (plain_arr 0); [done|]. repeat (apply list.Forall_cons; split; [apply plain_int|]). done.
Qed.

Lemma ollama_answer_collected_witness :
  collect (Ok (as_stream (@server_Generate plain_grpc (@ollama ascii_tables (fun _ _ => None) "" (ndjson hello_docs)) "5m" ask_qwen 0))) =
    Ok ("Hello", Some (usage_of (mkUsage 7 2)), "length").
Proof.
  apply (@ollama_answer_collected ascii_tables plain_grpc (fun _ _ => None) "5m" ask_qwen 0 "" hello_docs hello_generation).
  - reflexivity.
  - discriminate.
  - discriminate.
  - apply hello_written.
  - apply (bool_decide_unpack _). vm_compute. exact I.
Defined.
