(* ===== verification/ControlPlane.v ===== *)
(** * The control plane program (cmd/forge-controlplane/main.go)

    How the components are put together from the configuration: the
    constructors main registers, the key store, the limits and the routes of
    serveHTTP, and the choice of the provisioner.  What the components do is
    in their own files; here the pieces that one setting reaches twice are
    shown to fit. *)

From S2P Require Import Prelude Float64 GoStrings Errors FleetScaling LocalProvisioner RunPod Breaker Budget Failover Inflight Routing Config Rendezvous Candidates Scorers Chain GatewaySelect GatewayAuth GatewayDispatch GatewayHandler.

(** [firstNonEmpty] *)
Fixpoint firstNonEmpty (vals : list string) : string :=
  match vals with [] => "" | v :: rest => if negb (String.eqb v "") then v else firstNonEmpty rest end.

Section Provide.
Context {K : Type} `{Koanf K}.
(** [os.Getenv] and [os.Stat] *)
Variable getenv : string -> string.
Variable stat : string -> bool.

Definition provide_latency (k : K) : LatencyStore :=
  NewLatencyStore (Duration k "scheduler.ewma.tau" (10 * second)).

(** [policy] and [cache] are what the holders of the two scorers hold. *)
Definition provide_chain (k : K) (policy : option RoutingPolicy) (cache : option (gmap string (gmap Z float64))) : Chain :=
  NewConfiguredChain
    (mkConfig (k_Float64 k "scheduler.weight.load") (k_Float64 k "scheduler.weight.latency")
       (k_Float64 k "scheduler.weight.affinity") (k_Float64 k "scheduler.weight.cost") (flit 15 100)
       (k_Float64 k "scheduler.latency.ref.ms") (k_Int k "admission.per.worker.limit")
       (k_Int k "affinity.prefix.window") (k_Int k "affinity.block.bytes") (Some policy) (Some cache) (flit 15 100)).

(** The selector over what the holders hold; it reads the tracker and the
    latency store of the handler. *)
Definition provide_selector (chain : Chain) (snap : option RoutingSnapshot) (catalog : option CatalogSnapshot)
    (t : counters) (latency : LatencyStore) : Selector :=
  mkSelector snap catalog (Some (Inflight.Get t)) (Some (LatencyGet latency)) chain.

Definition provide_breakers (k : K) : BreakerMap :=
  NewBreakerMap
    {| MinRequests := wrap_u32 (k_Int k "reliability.breaker.min.requests");
       FailureRatio := k_Float64 k "reliability.breaker.failure.ratio";
       Timeout := Duration k "reliability.breaker.timeout" (5 * second);
       MaxHalfOpen := 2 |} true.

Definition provide_budget (k : K) : RetryBudget :=
  NewRetryBudget (k_Float64 k "reliability.retry.budget.tokens") (k_Float64 k "reliability.retry.budget.ratio").

Definition provide_failover (k : K) : world * Z :=
  (mkWorld (Some (provide_breakers k)) (Some (provide_budget k)) (Some []) 0 [],
   NewFailover_Max (k_Int k "reliability.max.attempts")).

Definition provide_handler (k : K) (selector : Selector) (t : counters) : Handler :=
  NewHandler selector (Some t) (Some (provide_failover k)) (k_Int k "admission.per.worker.limit")
    (k_Int k "admission.retry.after.seconds") (k_Int k "reliability.max.attempts").

Definition provide_provisioner (k : K) : RunPodProvisioner + LocalProcess :=
  if k_Bool k "fleet.runpod.enabled" then
    inl (NewRunPodProvisioner getenv
      (mkRunPodConfig true (k_Bool k "fleet.runpod.dry.run")
         (firstNonEmpty [k_String k "runpod.api.key"; getenv "FORGE_RUNPOD_API_KEY"; getenv "RUNPOD_API_KEY"])
         (k_String k "fleet.runpod.gpu.type") (k_String k "fleet.runpod.image") (k_String k "fleet.runpod.cloud.type")
         (k_Int k "fleet.runpod.container.disk.gb") (k_Int k "fleet.runpod.volume.disk.gb")
         (firstNonEmpty [k_String k "hf.token"; getenv "FORGE_HF_TOKEN"; getenv "HF_TOKEN"])
         (k_String k "fleet.runpod.vllm.model") (k_Int k "fleet.runpod.vllm.port")
         (k_String k "fleet.runpod.controlplane.grpc") (k_String k "redis.url") ""))
  else
    inr (NewLocalProcessWithConfig getenv stat
      (mkLocalConfig (k_String k "fleet.local.worker.binary") (getenv "FORGE_ENV_FILE") (k_Int k "fleet.local.base.grpc.port")
         (firstNonEmpty [k_String k "grpc.public.addr"; "127.0.0.1:8081"]) (k_String k "redis.url") (k_String k "db.url")
         (k_String k "fleet.local.ollama.url") false)).

(** ** serveHTTP *)

(** The keys at the start; [rows] is the answer of the database. *)
Definition provide_keys `{UnicodeTables} (k : K) (rows : option (result error (list GatewayAuth.APIKey))) : KeyStore :=
  (GatewayAuth.Reload (LoadFromEnv NewKeyStore (k_String k "gateway.api.keys") (k_String k "gateway.api.key")) rows).2.

Definition request_timeout (k : K) : Z := Duration k "gateway.request.timeout" (300 * second).

Definition max_body (k : K) : Z :=
  let maxBody := k_Int k "gateway.max.body.bytes" in if maxBody <=? 0 then 2 ^ 20 else maxBody.
End Provide.

Inductive endpoint : Type := Healthz | CacheEvents | ChatCompletions | Completions | Models.

(** The routes of [serveHTTP] and of [Handler.Register]. *)
Definition route (method path : string) : option endpoint :=
  if String.eqb method "GET" && String.eqb path "/healthz" then Some Healthz
  else if String.eqb method "POST" && String.eqb path "/internal/cache/events" then Some CacheEvents
  else if String.eqb method "POST" && String.eqb path "/v1/chat/completions" then Some ChatCompletions
  else if String.eqb method "POST" && String.eqb path "/v1/completions" then Some Completions
  else if String.eqb method "GET" && String.eqb path "/v1/models" then Some Models
  else None.

Inductive reply : Type := Refused (status : Z) | Reached (e : endpoint) (client : option ClientIdentity).

(** The middleware runs before the route is looked up, also when there is
    none. *)
Definition serveHTTP (keys : KeyStore) (acquired : ClientIdentity -> bool) (method : string) (r : HttpRequest) : reply :=
  let reach client := match route method (path r) with Some e => Reached e client | None => Refused 404 end in
  match Middleware (Some keys) acquired r with
  | Unauthorized => Refused 401
  | Saturated _ => Refused 429
  | Skipped => reach None
  | Served client => reach client
  end.

(** ** Properties *)

(** The loads a snapshot reports are counts, and the sums stay in range. *)
Definition counts_in_range (snap : RoutingSnapshot) (t : counters) : Prop :=
  Forall (fun v => 0 <= v_QueueDepth v /\ 0 <= v_InFlight v /\ 0 <= Inflight.Get t (v_ID v) /\
                   v_QueueDepth v + v_InFlight v + Inflight.Get t (v_ID v) < 2 ^ 63) (Workers snap).

(** The queue depth of a candidate counts the requests this gateway has in
    flight at the worker. *)
Lemma candidate_depth_local snap t latency c :
  counts_in_range snap t -> c ∈ CandidatesFromSnapshot (Some snap) (Some (Inflight.Get t)) latency ->
  Inflight.Get t (WorkerID c) <= QueueDepth c.
Proof.
  intros Hr (v & vs & Ev & ->)%candidates_spec.
  destruct (merged_candidate_ok (Some (Inflight.Get t)) latency (v_ID v) v vs) as [Hok Hid].
  { rewrite <- Ev. apply views_of_all. }
  rewrite Hid. etransitivity; [|exact (List.Forall_inv (mo_depth_max _ _ _ Hok))].
  assert (v ∈ Workers snap) as Hv.
  { assert (v ∈ views_of (v_ID v) (Workers snap)) as Hin by (rewrite Ev; set_solver).
    unfold views_of in Hin. by apply list_elem_of_filter in Hin as [_ ?]. }
  unfold counts_in_range in Hr. rewrite list.Forall_forall in Hr. destruct (Hr v Hv) as (? & ? & ? & ?).
  unfold depth_of. rewrite (wrap_i64_id (v_QueueDepth v + v_InFlight v)), wrap_i64_id; unfold in_i64, two63 in *; lia.
Qed.

Section Admission.
Context {K : Type} `{Koanf K} `{UnicodeTables} `{Hash64}.

(** C10: the admission limit of the configuration reaches the scheduler and the
    handler alike, so ranking and admission agree: in the control plane put
    together from a configuration with a positive limit, and with loads that fit
    their integers, whatever list of workers the selector ranks for a request is admitted as it is, the
    best-ranked worker first, as long as the tracker has not moved since; a
    request is answered 429 for a saturated fleet only by the scheduler or
    when another request took the last slot meanwhile. *)
Theorem ranked_workers_admitted (k : K) policy cache snap catalog t latency model prompt ws :
  let h := provide_handler k (provide_selector (provide_chain k policy cache) (Some snap) catalog t latency) t in
  0 < k_Int k "admission.per.worker.limit" -> counts_in_range snap t ->
  rankWorkers (h_selector h) (h_maxAttempts h) model prompt = Ok ws ->
  admitFromRanked (tryAdmit h) ws = Some ws /\ ws <> [] /\
  Forall (fun w => Inflight.Get t (sw_ID w) < h_admissionLimit h) ws.
Proof.
  cbn zeta. intros Hpos Hrange. set (limit := k_Int k "admission.per.worker.limit") in *.
  set (s := provide_selector (provide_chain k policy cache) (Some snap) catalog t latency).
  cbn [provide_handler NewHandler h_selector h_maxAttempts h_admissionLimit]. fold limit.
  rewrite (proj2 (Z.leb_gt limit 0)) by done.
  unfold rankWorkers. intros Er.
  pose proof (SelectWorkers_sound s limit model prompt (if k_Int k "reliability.max.attempts" <=? 0 then 3 else k_Int k "reliability.max.attempts") eq_refl) as Hs.
  rewrite Er in Hs. destruct Hs as (snap' & [= <-] & Hne & _ & Hall).
  assert (Forall (fun w => Inflight.Get t (sw_ID w) < limit) ws) as Hbelow.
  { apply list.Forall_forall. intros w Hw. destruct (Hall w Hw) as (c & Hc & -> & _ & _ & Ha).
    pose proof (candidate_depth_local snap t _ c Hrange Hc). unfold Chain.admits in Ha. zbool. lia. }
  split; [|by split]. destruct ws as [|w ws]; [done|]. apply list.Forall_cons in Hbelow as [Hw _].
  unfold admitFromRanked. cbn [admit_loop]. unfold tryAdmit. cbn [provide_handler NewHandler h_inflight h_admissionLimit]. fold limit.
  rewrite (proj2 (Z.leb_gt limit 0)) by done. by rewrite (proj2 (Z.ltb_lt (Inflight.Get t (sw_ID w)) limit) Hw), orb_true_r.
Qed.
End Admission.

(** Which endpoints are reached without a key: while a key is configured, the
    completion and model endpoints are reached only with a stored key whose
    client got a slot, and the health check and the cache events always;
    without keys every endpoint is reached by anybody. *)
Theorem endpoints_behind_keys keys acquired method r e client :
  serveHTTP keys acquired method r = Reached e client ->
  match e with
  | Healthz | CacheEvents => client = None
  | _ => if Required keys
         then exists id, client = Some id /\ Lookup keys (extractAPIKey r) = Some id /\ acquired id = true
         else client = None
  end.
Proof.
  unfold serveHTTP, Middleware.
  destruct (String.eqb_spec (path r) "/healthz") as [E1|E1]; [|destruct (String.eqb_spec (path r) "/internal/cache/events") as [E2|E2]];
    cbn [orb].
  - rewrite E1. unfold route. cbn. rewrite !andb_false_r, andb_true_r. case_ifs; by intros [= <- <-].
  - rewrite E2. unfold route. cbn. rewrite !andb_false_r, andb_true_r. case_ifs; by intros [= <- <-].
  - assert (route method (path r) <> Some Healthz /\ route method (path r) <> Some CacheEvents) as [Hh Hc].
    { unfold route. rewrite (proj2 (String.eqb_neq _ _) E1), (proj2 (String.eqb_neq _ _) E2), !andb_false_r. by case_ifs. }
    destruct (Required keys).
    + destruct (Lookup keys (extractAPIKey r)) as [id|]; [|done]. destruct (acquired id) eqn:Ea; [|done].
      destruct (route method (path r)) as [e'|]; [|done]. intros [= <- <-]. destruct e'; try done; by exists id.
    + destruct (route method (path r)) as [e'|]; [|done]. intros [= <- <-]. by destruct e'.
Qed.

(** *** Witnesses *)

(** A store of the pairs loaded; every number reads as four. *)
Definition fours : Koanf (list (string * string)).
Proof.
  refine {| k_New := []; k_Load k kvs := (k ++ kvs)%list; k_String k key := default "" (last_value k key);
            k_Bool _ _ := false; k_Int _ _ := 4; k_Float64 _ _ := f_of_Z 4; k_StringMap _ _ := ∅ |}.
  - done.
  - intros k kvs key _. rewrite last_value_app. by destruct (last_value kvs key).
Defined.

Definition demo_gateway : Handler :=
  @provide_handler _ fours ControlPlaneDefaults
    (provide_selector (@provide_chain _ fours ControlPlaneDefaults None None) (Some demo_snapshot) None ∅ (NewLatencyStore 0)) ∅.

Lemma ranked_workers_admitted_witness :
  exists ws, @rankWorkers ascii_tables sum_bytes (h_selector demo_gateway) (h_maxAttempts demo_gateway) "m#a" "hi" = Ok ws /\
    admitFromRanked (tryAdmit demo_gateway) ws = Some ws /\ ws <> [] /\
    Forall (fun w => Inflight.Get ∅ (sw_ID w) < h_admissionLimit demo_gateway) ws.
Proof.
  eexists. split; [vm_compute; reflexivity|].
  apply (@ranked_workers_admitted _ fours ascii_tables sum_bytes ControlPlaneDefaults None None demo_snapshot None ∅
    (NewLatencyStore 0) "m#a" "hi").
  - reflexivity.
  - repeat constructor; vm_compute; discriminate.
  - vm_compute. reflexivity.
Defined.

Lemma endpoints_behind_keys_witness :
  exists id, Some (mkClient "acme" 2 "db-1") = Some id /\ Lookup demo_store "k1" = Some id /\ true = true.
Proof.
  apply (endpoints_behind_keys demo_store (fun _ => true) "GET" (mkHttpRequest "/v1/models" "Bearer k1" "") Models).
  vm_compute. reflexivity.
Defined.
