(* ===== verification/RankingBounds.v ===== *)
(** * What the scheduler compares (services/scheduler, as
      cmd/forge-controlplane/main.go puts it together)

    The bounds of Scorers.v for the chain of the control plane: the shares of
    the policy are those of the planner, the weights of cached blocks those of
    the cache registry, and the candidates those of a routing snapshot, so the
    scores that a ranking compares are numbers within a fixed range. *)

From S2P Require Import Prelude Float64 Rounding FloatRange GoStrings SortSlice Errors Inflight Routing Config Rendezvous Candidates CacheRegistry Scorers Chain Planner WorkerProgram ControlPlane.

(** ** The parts *)

(** Every weight of the index is that of a tier. *)
Definition index_ok (idx : Index) : Prop := map_Forall (fun _ have => weights_ok have) (byWorker idx).

Lemma tier_weight_range tier : frange 1 (tier_weight tier).
Proof. unfold tier_weight. case_if; [apply (bool_decide_unpack _); vm_compute; exact I|apply frange_one]. Qed.

Lemma store_hash_ok key w tier idx h : index_ok idx -> index_ok (store_hash key w tier idx h).
Proof.
  intros Hi. unfold index_ok, store_hash. cbn [byWorker]. apply map_Forall_insert_2; [|done].
  apply map_Forall_insert_2; [apply tier_weight_range|]. destruct (byWorker idx !! w) as [m|] eqn:E; [exact (Hi w m E)|apply map_Forall_empty].
Qed.

Lemma remove_hash_ok w idx h : index_ok idx -> index_ok (remove_hash w idx h).
Proof.
  intros Hi w' m. cbn [remove_hash byWorker]. destruct (decide (w = w')) as [<-|Hne].
  - rewrite lookup_alter. destruct (decide (w = w)); [|done]. destruct (byWorker idx !! w) as [m0|] eqn:E; [|done].
    intros [= <-]. apply map_Forall_delete. exact (Hi w m0 E).
  - rewrite lookup_alter_ne by done. apply Hi.
Qed.

Lemma foldl_ok {A} (f : Index -> A -> Index) l idx : (forall i a, index_ok i -> index_ok (f i a)) -> index_ok idx -> index_ok (foldl f idx l).
Proof. intros Hf. revert idx. induction l as [|a l IH]; intros idx Hi; [done|]. apply IH. by apply Hf. Qed.

Lemma apply_index_ok idx ev : index_ok idx -> index_ok (apply_index idx ev).
Proof.
  intros Hi. unfold apply_index. repeat case_if; [|..|done].
  - unfold Store. case_if; [done|]. apply foldl_ok; [|done]. intros. by apply store_hash_ok.
  - apply foldl_ok; [|done]. intros. by apply remove_hash_ok.
  - intros w m. cbn [ClearWorker byWorker]. intros [_ E]%lookup_delete_Some. by apply (Hi w).
Qed.

(** What the cache registry has published after some events. *)
Definition cache_after (evs : list Event) : gmap string (gmap Z float64) := CacheRegistry.holder (foldl CacheRegistry.Apply CacheRegistry.NewService evs).

Lemma cache_after_ok evs : scorer_ok (OverlapScorer (Some (cache_after evs))).
Proof.
  assert (index_ok (index (foldl CacheRegistry.Apply CacheRegistry.NewService evs)) /\
    cache_after evs = byWorker (index (foldl CacheRegistry.Apply CacheRegistry.NewService evs))) as [Hi E].
  { unfold cache_after. induction evs as [|ev evs [IH _]] using rev_ind; [by split; [apply map_Forall_empty|]|].
    rewrite foldl_app. cbn [foldl]. split; [|done]. by apply apply_index_ok. }
  cbn [scorer_ok]. rewrite E. exact Hi.
Qed.

(** A policy whose shares the planner computed from an objective with weights
    between zero and one and views in range. *)
Definition planned_policy (policy : option RoutingPolicy) : Prop :=
  match policy with
  | None => True
  | Some p => exists iter o snap, objective_ok o /\ Forall view_ok (Workers snap) /\ Z.of_nat (length (Workers snap)) <= 2 ^ 50 /\
      p_WorkerWeights p = Planner.Weights <$> Planner.Models (plan iter o (Some snap)).1.1
  end.

Lemma planned_policy_ok policy : planned_policy policy -> scorer_ok (PolicyScorer policy).
Proof.
  destruct policy as [p|]; [|done]. intros (iter & o & snap & Ho & Hv & Hl & E). cbn [scorer_ok]. rewrite E, plan_models.
  intros m ws Em. rewrite !lookup_fmap, group_lookup in Em. destruct (pool o (Workers snap) m) as [|w l] eqn:Ep; [done|].
  cbn in Em. injection Em as <-.
  assert (forall x, x ∈ w :: l -> x ∈ Workers snap) as Hin by (intros x Hx; rewrite <- Ep in Hx; by apply elem_of_pool in Hx as [? _]).
  destruct (scoreWorkers_range o (w :: l) Ho) as (_ & _ & _ & Hall); [| |done|exact Hall].
  - apply list.Forall_forall. intros x Hx. rewrite list.Forall_forall in Hv. by apply Hv, Hin.
  - rewrite <- Ep. unfold pool. pose proof (List.filter_length_le (fun w => usable o w && String.eqb (v_BaseModel w) m) (Workers snap)). lia.
Qed.

(** The configuration: weights between zero and one, and a latency reference
    of at least a millisecond unless the default is meant. *)
Definition ranking_config {K : Type} `{Koanf K} (k : K) : Prop :=
  frange 1 (k_Float64 k "scheduler.weight.load") /\ frange 1 (k_Float64 k "scheduler.weight.latency") /\
  frange 1 (k_Float64 k "scheduler.weight.affinity") /\ frange 1 (k_Float64 k "scheduler.weight.cost") /\
  (fleb (k_Float64 k "scheduler.latency.ref.ms") f_zero = true \/
   num (k_Float64 k "scheduler.latency.ref.ms") /\ one_val <= fval (k_Float64 k "scheduler.latency.ref.ms")).

Lemma literal_range a b : bool_decide (frange 1 (flit a b)) = true -> frange 1 (flit a b).
Proof. apply bool_decide_eq_true. Qed.

Lemma chain_scorers_ok {K : Type} `{Koanf K} (k : K) policy cache :
  ranking_config k -> planned_policy policy -> scorer_ok (OverlapScorer cache) ->
  Forall ws_ok (Scorers (provide_chain k policy cache)) /\ (length (Scorers (provide_chain k policy cache)) <= 6)%nat.
Proof.
  intros (Hl & Ht & Ha & Hc & Hr) Hp Ho. apply planned_policy_ok in Hp. unfold provide_chain, NewConfiguredChain.
  cbn [Chain.WeightLoad Chain.WeightLatency Chain.WeightAffinity Chain.WeightCost WeightPolicy LatencyRefMs AdmissionLimit AffinityWindow AffinityBlock
       Policy Overlap WeightOverlap NewChain Scorers].
  set (none := _ && _). clearbody none.
  assert (forall b n d w, frange 1 w -> bool_decide (frange 1 (flit n d)) = true -> frange 1 (if b : bool then flit n d else w)) as Hif
    by (intros [] n d w ? ?; [by apply literal_range|done]).
  assert (scorer_ok (NewLatencyScorer (k_Float64 k "scheduler.latency.ref.ms"))) as Hlat.
  { unfold NewLatencyScorer. cbn [scorer_ok]. destruct Hr as [->|[Hn Hv]]; [split; [split; [vm_compute; reflexivity|exact I]|vm_compute; discriminate]|].
    destruct (fleb _ _); [split; [split; [vm_compute; reflexivity|exact I]|vm_compute; discriminate]|done]. }
  split.
  - repeat (apply Forall_app; split); repeat case_match; repeat (apply list.Forall_cons; split); try apply list.Forall_nil_2;
      (split; cbn [ws_Scorer ws_Weight]; [first [exact I|exact Hlat|exact Hp|exact Ho|apply zero_num]|]);
      first [apply Hif; [assumption|vm_compute; reflexivity]|apply literal_range; vm_compute; reflexivity|assumption|idtac].
  - rewrite !length_app. repeat case_match; cbn; lia.
Qed.

(** The views of a snapshot with what the gateway itself has in flight. *)
Definition views_in_range (snap : RoutingSnapshot) (t : counters) : Prop :=
  Forall (fun v => 0 <= v_QueueDepth v /\ 0 <= v_InFlight v /\ 0 <= Inflight.Get t (v_ID v) /\
                   v_QueueDepth v + v_InFlight v + Inflight.Get t (v_ID v) < 2 ^ 53 - 1 /\ num (v_CostPerHour v)) (Workers snap).

Lemma candidates_in_range snap t latency c :
  views_in_range snap t -> (forall w, frange (2 ^ 52 - 1) (LatencyGet latency w)) ->
  c ∈ CandidatesFromSnapshot (Some snap) (Some (Inflight.Get t)) (Some (LatencyGet latency)) -> candidate_ok c.
Proof.
  intros Hr Hlat (v & vs & Ev & ->)%candidates_spec.
  assert (forall x, x ∈ v :: vs -> 0 <= depth_of (Some (Inflight.Get t)) x < 2 ^ 53 - 1 /\ num (v_CostPerHour x)) as Hx.
  { intros x Hx. rewrite <- Ev in Hx. apply list_elem_of_filter in Hx as [_ Hx]. unfold views_in_range in Hr. rewrite list.Forall_forall in Hr.
    destruct (Hr x Hx) as (? & ? & ? & ? & ?). split; [|done]. unfold depth_of.
    rewrite (wrap_i64_id (v_QueueDepth x + v_InFlight x)), wrap_i64_id; unfold in_i64, two63; lia. }
  assert (forall c w, candidate_ok c -> candidate_ok (add_model c w)) as Ha.
  { intros c w [? ? ?]. unfold add_model. repeat case_if; by split. }
  clear Ev. induction vs as [|w vs IH] using rev_ind; unfold merged_candidate; rewrite ?foldl_app; cbn [foldl].
  - destruct (Hx v ltac:(by left)). apply Ha. split; cbn; [done|apply Hlat|done].
  - destruct IH as [H1 H2 H3]; [intros x Hin; apply Hx; set_solver|]. destruct (Hx w ltac:(set_solver)).
    unfold merged_candidate in *. apply Ha. split; cbn [merge_view QueueDepth EwmaLatencyMs CostPerHour]; [by case_if|done|by case_if].
Qed.

(** ** Property *)

(** C26: what a ranking of the control plane compares is a number between zero
    and six, one at most for each of its scorers: no overflow and no NaN.  The
    policy is none or one whose shares the planner computed, the cached
    blocks are those the cache registry has after any events, and the
    candidates those of a snapshot whose costs are finite and whose queues
    with the requests in flight add up to less than 2^53-1, without negative
    counts (a worker that registers an infinite cost is excluded); the latency averages are below 2^52 milliseconds, the weights of
    the configuration lie between zero and one, its latency reference is at
    least a millisecond or left to the default, and the prompt has fewer than
    2^40 blocks. *)
Theorem ranking_bounded {K : Type} `{Koanf K} `{Hash64} (k : K) policy evs snap t latency req out :
  ranking_config k -> planned_policy policy -> views_in_range snap t ->
  (forall w, frange (2 ^ 52 - 1) (LatencyGet latency w)) -> prompt_ok req ->
  let cands := CandidatesFromSnapshot (Some snap) (Some (Inflight.Get t)) (Some (LatencyGet latency)) in
  (Rank (provide_chain k policy (Some (cache_after evs))) req cands).1.1 = Ok out ->
  Forall (fun p => frange 6 (pr_Score p)) out.
Proof.
  intros Hk Hp Hv Hlat Hq cands. set (ch := provide_chain k policy (Some (cache_after evs))).
  destruct (chain_scorers_ok k policy (Some (cache_after evs)) Hk Hp (cache_after_ok evs)) as [Hw Hlen]. fold ch in Hw, Hlen.
  rewrite Rank_unfold. pose proof (runFilters_perm (Filters ch) req cands cands (Permutation_refl _)) as Hf.
  destruct (runFilters (Filters ch) req cands) as [s|]; [|done]. intros [= <-]. destruct Hf as [_ Hin].
  assert (Forall candidate_ok s) as Hs.
  { apply list.Forall_forall. intros c Hc. by eapply candidates_in_range, Hin. }
  rewrite list.Forall_fmap, sort_slice_perm. unfold rank_results. destruct (prepareAll_ok (Scorers ch) req s Hs Hw Hq) as (I1 & I2 & I3).
  destruct (prepareAll (Scorers ch) req s) as [ss r]. cbn [fst snd] in *. rewrite list.Forall_fmap.
  eapply list.Forall_impl; [exact Hs|]. intros c Hc. cbn.
  apply (frange_weaken (Z.of_nat (length ss))); [lia|]. apply weighted_total_range; [done..|lia].
Qed.

(** *** Witnesses *)

Definition ranked_views : RoutingSnapshot := mkSnap 0 1 two_views.

Definition ask : Request := mkRequest "qwen" "" "hi" "" "" 0.

Definition planned_half : RoutingPolicy := mkPolicy 1 f_one f_one f_one f_one (Planner.Weights <$> Planner.Models (plan values DefaultObjective (Some ranked_views)).1.1).

Lemma ranking_bounded_witness :
  exists out, (@Rank sum_bytes (@provide_chain _ pairs_config ControlPlaneDefaults (Some planned_half) (Some (cache_after []))) (Some ask)
    (CandidatesFromSnapshot (Some ranked_views) (Some (Inflight.Get ∅)) (Some (LatencyGet (@provide_latency _ pairs_config ControlPlaneDefaults))))).1.1 = Ok out /\
    length out = 2%nat /\ Forall (fun p => frange 6 (pr_Score p)) out.
Proof.
  eexists. split; [vm_compute; reflexivity|]. split; [reflexivity|].
  apply (@ranking_bounded _ pairs_config sum_bytes ControlPlaneDefaults (Some planned_half) [] ranked_views ∅
    (@provide_latency _ pairs_config ControlPlaneDefaults) (Some ask)).
  - unfold ranking_config. split_and!; try (apply (bool_decide_unpack _); vm_compute; exact I).
  - exists values, DefaultObjective, ranked_views. split_and!; [split; [|split]; apply (bool_decide_unpack _); vm_compute; exact I| |cbn; lia|reflexivity].
    constructor; [|constructor; [|constructor]]; (split; [cbn; lia|]); apply (bool_decide_unpack _); vm_compute; exact I.
  - constructor; [|constructor; [|constructor]]; split_and!; cbn; try lia; try done; (split; [vm_compute; reflexivity|exact I]).
  - intros w. unfold LatencyGet. cbn. rewrite lookup_empty. apply (bool_decide_unpack _). vm_compute. exact I.
  - vm_compute. reflexivity.
  - vm_compute. reflexivity.
Defined.
