(* ===== verification/Services.v ===== *)
(** * The services of the control plane together (services/catalog/snapshot.go:
      Rebuild, Start, subscribe, ModelNames, PublishChanged;
      services/provider/registry.go: Start)

    The background loops that carry what is written to the tables into what
    the gateway reads, and what they achieve together: a provider registered
    with forge-catalog is picked for its models after one round of them. *)

From S2P Require Import Prelude Float64 GoStrings Errors Inflight Health Routing Rendezvous Candidates Scorers Chain GatewaySelect FleetScaling ProviderRegistry CatalogStore CatalogProgram.

(** ** The catalog service *)

Definition Channel : string := "forge:models:changed".

Section CatalogService.
Context {DB : Type} `{CatalogTables DB}.

(** [Rebuild] with its seeding, whose error is logged: [counted] and [rows]
    are the answers of the seeding's queries, [failed] the error of one of the
    two listings. *)
Definition service_Rebuild (db : DB) (holder : option CatalogSnapshot) (counted : option error)
    (rows : result error (list (servable * string))) (failed : option error) (now : Z)
    : option error * DB * option CatalogSnapshot :=
  let db := (SeedFromWorkers db counted rows).2 in
  match failed with
  | Some e => (Some e, db, holder)
  | None => let '(e, holder) := Rebuild holder (Ok (models_rows db)) (Ok (assign_rows db)) now in (e, db, holder)
  end.

(** What makes [Start] and [subscribe] rebuild: the start, the ticker, a
    message on the channel; and the tables written meanwhile by others. *)
Inductive catalog_event : Type :=
| CWrote (db : DB)
| CRebuild (counted : option error) (rows : result error (list (servable * string))) (failed : option error) (now : Z).

Definition catalog_step (st : DB * option CatalogSnapshot) (ev : catalog_event) : DB * option CatalogSnapshot :=
  match ev with
  | CWrote db => (db, st.2)
  | CRebuild counted rows failed now =>
      let '(_, db, holder) := service_Rebuild st.1 st.2 counted rows failed now in (db, holder)
  end.

Definition catalog_run (db : DB) (evs : list catalog_event) : DB * option CatalogSnapshot := foldl catalog_step (db, None) evs.

(** [ModelNames] *)
Definition ModelNames (s : option CatalogSnapshot) : list Model :=
  match s with None => [] | Some c => (map_to_list (ByName c)).*2 end.

(** The rebuilding of a catalog that has models. *)
Lemma service_Rebuild_kept db holder counted rows now :
  models_rows db <> [] -> service_Rebuild db holder counted rows None now = (None, db, rebuilt db now).
Proof.
  intros Hne. unfold service_Rebuild, SeedFromWorkers. destruct counted; cbn [snd]; [done|]. by destruct (models_rows db).
Qed.

(** A rebuild shows the tables of its moment: whatever was written before and
    whichever rebuilds failed, after one that succeeds on a catalog with
    models the snapshot is that of the tables, until the next success. *)
Lemma catalog_run_current db evs db' counted rows now later :
  models_rows db' <> [] ->
  Forall (fun ev => match ev with CRebuild _ _ (Some _) _ => True | _ => False end) later ->
  catalog_run db (evs ++ [CWrote db'; CRebuild counted rows None now] ++ later)%list = (db', rebuilt db' now).
Proof.
  intros Hne Hl. unfold catalog_run. rewrite !foldl_app. cbn [foldl catalog_step fst snd].
  rewrite service_Rebuild_kept by done. induction Hl as [|ev later Hev _ IH]; [done|].
  destruct ev as [|c r [e|] n]; [done| |done]. cbn [foldl catalog_step service_Rebuild fst snd].
  assert ((SeedFromWorkers db' c r).2 = db') as ->; [|done].
  unfold SeedFromWorkers. destruct c; [done|]. by destruct (models_rows db').
Qed.
End CatalogService.

(** ** A registered provider is picked *)

Section Served.
Context {DB : Type} `{ProviderTables DB} `{UnicodeTables} `{Hash64}.
Variable Getenv : string -> string.

(** The candidate of a worker whose every view reports the same load. *)
Lemma uniform_candidate snap get latency v :
  v ∈ Workers snap ->
  (forall x, x ∈ Workers snap -> v_ID x = v_ID v -> v_QueueDepth x = v_QueueDepth v /\ v_InFlight x = v_InFlight v) ->
  exists c, c ∈ CandidatesFromSnapshot (Some snap) (Some get) latency /\ WorkerID c = v_ID v /\
    (v_Healthy v = true -> Healthy c = true) /\ (v_Ready v = true -> Ready c = true) /\
    (v_BaseModel v <> "" -> ModelID v ∈ Models c) /\ QueueDepth c = depth_of (Some get) v.
Proof.
  intros Hv Hload. assert (v ∈ views_of (v_ID v) (Workers snap)) as Hvs by (apply list_elem_of_filter; by split).
  destruct (views_of (v_ID v) (Workers snap)) as [|v0 vs] eqn:Ev; [by apply elem_of_nil in Hvs|].
  assert (Forall (fun x => v_ID x = v_ID v) (v0 :: vs)) as Hall by (rewrite <- Ev; apply views_of_all).
  destruct (merged_candidate_ok (Some get) latency (v_ID v) v0 vs Hall) as [Hok Hid].
  exists (Candidates.merged_candidate (Some get) latency v0 vs). split_and!.
  - apply candidates_spec. exists v0, vs. by rewrite (List.Forall_inv Hall), Ev.
  - done.
  - intros Hh. rewrite (mo_healthy _ _ _ Hok). apply existsb_exists. exists v. by rewrite <- list_elem_of_In.
  - intros Hr. rewrite (mo_ready _ _ _ Hok). apply existsb_exists. exists v. by rewrite <- list_elem_of_In.
  - intros Hb. apply (mo_models _ _ _ Hok). by exists v.
  - pose proof (mo_depth_in _ _ _ Hok) as (x & -> & Hx)%list_elem_of_fmap. rewrite <- Ev in Hx.
    apply list_elem_of_filter in Hx as [Ex Hx]. destruct (Hload x Hx Ex) as [Eq Ei].
    unfold depth_of. by rewrite Ex, Eq, Ei.
Qed.

(** A request that resolves to the model of a healthy and ready candidate
    below the limit is given workers. *)
Lemma eligible_served s admission snap t c model base adapter prompt limit :
  Filters (sel_chain s) = standard_filters admission -> sel_holder s = Some snap -> sel_inflight s = Some (Inflight.Get t) ->
  c ∈ CandidatesFromSnapshot (Some snap) (Some (Inflight.Get t)) (sel_latency s) ->
  Healthy c = true -> Ready c = true -> want_of base adapter ∈ Models c -> base <> "" -> QueueDepth c < admission ->
  routed_as s model = (base, adapter) -> allowed_by s model (WorkerID c) ->
  exists ws, (SelectWorkers s model prompt limit).1 = Ok ws /\ ws <> [] /\ Forall (fun w => allowed_by s model (sw_ID w)) ws.
Proof.
  intros Hch Hh Hi Hcand Hhe Hre Hm Hb Hd Hrt Hal.
  assert (eligible s model prompt c) as Hel.
  { split; [|done]. unfold suitable, routed_request. rewrite Hrt. cbn [fst snd q_BaseModel q_Adapter].
    rewrite Hhe, Hre. destruct (String.eqb_spec base ""); [done|]. cbn [negb andb].
    assert (servesModel (Models c) (want_of base adapter) base adapter = true) as ->; [|done].
    apply serves_model_spec. exists (want_of base adapter). split; [done|]. right. by left. }
  assert (admits admission c = true) as Had by (unfold admits; apply orb_true_iff; right; by apply Z.ltb_lt).
  pose proof (SelectWorkers_sound s admission model prompt limit Hch) as Hs. unfold selection_sound in Hs. cbn zeta in Hs.
  destruct ((SelectWorkers s model prompt limit).1) as [ws|e].
  - destruct Hs as (snap' & _ & Hws & _ & Hall). exists ws. split_and!; [done|done|]. apply list.Forall_forall.
    intros w Hw'. destruct (Hall w Hw') as (c' & _ & -> & _ & [_ Hal'] & _). done.
  - exfalso. rewrite Hh, Hi in Hs.
    destruct Hs as [[_ Hs]|[(_ & Hne & Hs)|(snap' & [= <-] & [[_ Hs]|[[_ Hs]|(_ & _ & Hs)]])]].
    + done.
    + unfold allowed_by in Hal. rewrite Hs in Hal. congruence.
    + by apply (Hs c Hcand), Hel.
    + by apply (Hs c Hcand).
    + by rewrite (Hs c Hcand Hel) in Had.
Qed.

(** C6: what forge-catalog writes, the gateway serves: once provider-upsert has
    registered a provider with a model new to the catalog, one rebuild of the
    catalog, one reload of the provider registry and one snapshot of the
    publisher later, whatever the earlier catalog snapshot and the other
    workers are, a request for that model is given workers, whatever its
    prompt, provided the gateway has fewer requests in flight at the virtual
    worker than the admission limit and no registered worker uses its id. *)
Theorem upserted_provider_served db id baseURL keyRef maps db' mf r0 holder counted rows now epoch regs live snap epoch' s t admission prompt limit :
  let base := (map_arg mf.1).1 in
  let wid := virtual_id id base "" in
  Forall (fun x => x.2 <> "") maps -> has_ids db -> upsertProvider db id baseURL keyRef maps = (None, db') ->
  mf ∈ maps -> base <> "" -> base ∉ mi_Name <$> models_rows db ->
  let reg := (Reload Getenv r0 (Some (Ok (provider_rows db'), Ok (map_rows db')))).2 in
  buildSnapshot epoch now (Ok regs) live (SnapshotViews reg) = (Ok snap, epoch') ->
  (forall w, w ∈ regs -> r_ID w <> wid) ->
  sel_holder s = Some snap -> sel_catalog s = (service_Rebuild db' holder counted rows None now).2 ->
  sel_inflight s = Some (Inflight.Get t) -> Filters (sel_chain s) = standard_filters admission ->
  0 <= Inflight.Get t wid < admission -> admission < 2 ^ 63 ->
  exists ws, (SelectWorkers s base prompt limit).1 = Ok ws /\ ws <> [] /\
    Forall (fun w => allowed_by s base (sw_ID w)) ws.
Proof.
  cbn zeta. intros Hf Hids Hup Hmf Hbase Hnew Hsnap Hregs Hh Hc Hi Hch Ht Hadm.
  set (base := (map_arg mf.1).1) in *. set (wid := virtual_id id base "") in *.
  set (reg := (Reload Getenv r0 (Some (Ok (provider_rows db'), Ok (map_rows db')))).2) in *.
  destruct (upserted_provider_routable Getenv db id baseURL keyRef maps db' r0 now Hf Hids Hup mf Hmf)
    as [(row & allowed & Er & Hw & Hrow) (v & Hv & Hvid & Hvb & Hva & Hvh & Hvr & _)].
  fold base in Er, Hw, Hrow, Hvid, Hvb. fold wid in Hw, Hvid. fold reg in Hv. destruct (Hrow Hnew) as [Hrb Hra].
  assert (models_rows db' <> []) as Hne.
  { intros E. apply rebuilt_resolve_inv in Er. rewrite E in Er. by apply elem_of_nil in Er. }
  rewrite service_Rebuild_kept in Hc by done. cbn [snd] in Hc.
  injection Hsnap as Hsnap _. assert (v ∈ Workers snap) as Hin by (rewrite <- Hsnap; cbn [Workers]; set_solver).
  assert (v_QueueDepth v = 0 /\ v_InFlight v = 0) as [Eq Ei].
  { unfold SnapshotViews in Hv. by apply list_elem_of_fmap in Hv as (y & -> & _). }
  destruct (uniform_candidate snap (Inflight.Get t) (sel_latency s) v Hin) as (c & Hcand & Hcid & Hch' & Hcr & Hcm & Hcd).
  { intros x Hx Ex. rewrite <- Hsnap in Hx. cbn [Workers] in Hx. apply elem_of_app in Hx as [Hx|Hx].
    - apply list_elem_of_In, List.in_concat in Hx as (l & Hl & Hx). apply list_elem_of_In in Hl, Hx.
      apply list_elem_of_fmap in Hl as (w & -> & Hw'). apply worker_views_spec in Hx as [Hx _]. exfalso. apply (Hregs w Hw'). congruence.
    - rewrite Eq, Ei. unfold SnapshotViews in Hx. apply list_elem_of_fmap in Hx as (y & -> & _). done. }
  assert (ModelID v = base) as Em by (unfold ModelID; by rewrite Hva, Hvb).
  eapply (eligible_served s admission snap t c base base ""); try done.
  - by apply Hch'.
  - by apply Hcr.
  - change (want_of base "") with base. rewrite <- Em. apply Hcm. by rewrite Hvb.
  - rewrite Hcd. unfold depth_of. rewrite Eq, Ei, Hvid. cbn [Z.add]. change (wrap_i64 0) with 0. rewrite Z.add_0_l, wrap_i64_id; [lia|unfold in_i64, two63; lia].
  - unfold routed_as. rewrite Hc, Er. cbn. by rewrite Hrb, Hra.
  - unfold allowed_by. by rewrite Hc, Er, Hcid, Hvid.
Qed.
End Served.

(** *** Witnesses *)

Definition acme_reg : Registry :=
  (@Reload ascii_tables (fun _ => "") NewRegistry (Some (Ok (provider_rows with_acme), Ok (map_rows with_acme)))).2.

Definition acme_snap : RoutingSnapshot := mkSnap 7 1 (SnapshotViews acme_reg).

Definition acme_selector : Selector :=
  mkSelector (Some acme_snap) (service_Rebuild with_acme None None (Ok []) None 7).2 (Some (Inflight.Get ∅)) None DefaultChain.

Lemma upserted_provider_served_witness :
  exists ws, (@SelectWorkers ascii_tables sum_bytes acme_selector "qwen" "hi" 3).1 = Ok ws /\ ws <> [] /\
    Forall (fun w => allowed_by acme_selector "qwen" (sw_ID w)) ws.
Proof.
  apply (@upserted_provider_served store store_catalog store_providers ascii_tables sum_bytes (fun _ => "")
    no_rows "acme" "https://api.acme.test/v1/" "ACME_KEY" acme_args with_acme ("qwen=qwen-max", "id1") NewRegistry None None (Ok [])
    7 0 [] [] acme_snap 1 acme_selector ∅ 4 "hi" 3).
  - repeat constructor; discriminate.
  - apply list.Forall_nil_2.
  - vm_compute. reflexivity.
  - apply elem_of_cons. left. reflexivity.
  - discriminate.
  - apply not_elem_of_nil.
  - reflexivity.
  - intros w Hw. apply elem_of_nil in Hw. destruct Hw.
  - reflexivity.
  - reflexivity.
  - reflexivity.
  - reflexivity.
  - vm_compute. split; [discriminate|reflexivity].
  - reflexivity.
Defined.
