(* ===== verification/Startup.v ===== *)
(** * The control plane from start to end (cmd/forge-controlplane/main.go: run,
      serveHTTP, serveMetrics, serveGRPC; internal/redisx, internal/observability/tracing.go;
      the Start and loop methods of the services)

    [run] builds the tracer, starts the services one after the other, each with
    a first round of its work, and serves until a signal or the end of a
    server.  The file has the loops around the rounds the other files model,
    the start as one function of what Redis and the database answer, and shows
    that the first request finds the registered workers. *)

From S2P Require Import Prelude Float64 GoStrings GoFormat Json JsonDecode Strconv JsonFloat JsonTime Errors Inflight Holder Health HeartbeatWriter Routing SnapshotWire Metrics HealthService Rendezvous Candidates Scorers Chain GatewaySelect GatewayAuth FleetScaling FleetManager Planner PolicyWire ProviderRegistry CatalogStore CatalogProgram Services.

(** ** Ticker loops *)

(** [for { select { case <-ctx.Done(): return; case <-t.C: body } }]: what the
    loop is woken by, [None] for the end of the context; a tick has the
    answers its round gets. *)
Fixpoint ticker_loop {S I} (body : S -> I -> S) (s : S) (wakes : list (option I)) : S :=
  match wakes with
  | [] | None :: _ => s
  | Some i :: rest => ticker_loop body (body s i) rest
  end.

(** The ticks before the context ends. *)
Fixpoint ticks_before {I} (wakes : list (option I)) : list I :=
  match wakes with [] | None :: _ => [] | Some i :: rest => i :: ticks_before rest end.

Section Loops.
Context `{UnicodeTables}.

(** [Publisher.Start] *)
Definition publisher_Start (first : tick_input) (wakes : list (option tick_input)) : pub_state :=
  ticker_loop pub_tick (pub_tick (0, 0%nat, None) first) wakes.

Definition NewPublisher_interval (interval : Z) : Z := if interval <=? 0 then 500 * millisecond else interval.

(** [Manager.loop]: a round is what [ReconcileAll] is answered; [order] is the
    order in which the map of workers is ranged over. *)
Definition manager_round (order : gmap string trackedWorker -> list trackedWorker) (lifecycle : bool) (m : Manager)
    (r : option RoutingSnapshot * option (result error (list ScalingPolicy)) * (ModelIdentity -> inputs)) : Manager :=
  ReconcileAll order lifecycle r.1.1 m r.1.2 r.2.

Definition manager_loop order (lifecycle : bool) (m : Manager) first wakes : Manager :=
  ticker_loop (manager_round order lifecycle) (manager_round order lifecycle m first) wakes.

(** [Manager.Desired] *)
Definition Desired (m : Manager) (id : ModelIdentity) : Z := default 0 (desired m !! Key id).

(** [Registry.Start] of the providers, and the reloading of the keys, whose
    loop has no context. *)
Definition providers_Start (Getenv : string -> string) first wakes : Registry :=
  ticker_loop (fun r db => (ProviderRegistry.Reload Getenv r db).2) (ProviderRegistry.Reload Getenv NewRegistry first).2 wakes.

Definition keys_reloaded (s : KeyStore) (rounds : list (option (result error (list GatewayAuth.APIKey)))) : KeyStore :=
  foldl (fun s rows => (GatewayAuth.Reload s rows).2) s rounds.
End Loops.

(** [Service.loop] of the planner: the ticker is made once, after the first
    tick. *)
Definition planner_loop (order : forall A, gmap string A -> list A) (s : Planner.Service) (first : tick_in) (wakes : list (option tick_in))
    : Planner.Service * Z :=
  let s := (Planner.tick order s 0 first).2 in
  ((ticker_loop (fun '(s, i) t => ((Planner.tick order s i t).2, S i)) (s, 1%nat) wakes).1, Planner.interval s).

(** ** The tracer *)

Record TraceConfig := mkTraceConfig { ServiceName : string; OTLPEndpoint : string; SampleRatio : float64 }.

(** [ratio] is that of the sampler, when spans are exported. *)
Record Tracer := mkTracer { tracer_name : string; exported_to : option (string * float64) }.

(** [exporter] and [resource] are the errors of the two constructors. *)
Definition NewTracer (cfg : TraceConfig) (exporter resource : option error) : result error Tracer :=
  let name := if String.eqb (ServiceName cfg) "" then "forge" else ServiceName cfg in
  if String.eqb (OTLPEndpoint cfg) "" then Ok (mkTracer name None)
  else
    let ratio := if fleb (SampleRatio cfg) f_zero then f_one else SampleRatio cfg in
    let ratio := if fltb f_one ratio then f_one else ratio in
    match exporter with
    | Some e => Err (EWrap e "otlp exporter: ")
    | None =>
        match resource with
        | Some e => Err (EWrap e "resource: ")
        | None => Ok (mkTracer name (Some (OTLPEndpoint cfg, ratio)))
        end
    end.

(** ** Redis *)

(** [redisx.NewClient]: the client, and whether one was made and closed again. *)
Definition redisx_NewClient {O} (ParseURL : string -> result error O) (Ping : O -> option error) (url : string) : result error O * bool :=
  match ParseURL url with
  | Err e => (Err (EWrap e "parse redis url: "), false)
  | Ok opts => match Ping opts with Some e => (Err (EWrap e "redis ping: "), true) | None => (Ok opts, false) end
  end.

(** ** The start *)

Section Run.
Context {V : Type -> Type} `{Prometheus V}.
Context {DB : Type} `{CatalogTables DB} `{UnicodeTables}.
Variable Getenv : string -> string.

(** What the outside answers while the services start. *)
Record boot := mkBoot {
  bo_tracer : result error Tracer;
  (** SCAN and GET of the heartbeats, and the order of the map they fill *)
  bo_redis : redis_view;
  bo_all : Snapshot -> list Heartbeat;
  bo_nowMs : Z;
  (** the seeding and the listings of the catalog *)
  bo_counted : option error;
  bo_rows : result error (list (servable * string));
  bo_listed : option error;
  (** the objective's row, or the id of the one created; GET of the policy *)
  bo_objective : first_row;
  bo_created : result error Z;
  bo_policy : Health.reply;
  bo_providers : option (result error (list Provider) * result error (list ModelMap));
  (** the registry, and PUBLISH *)
  bo_workers : result error (list RegWorker);
  bo_publish : option error;
  bo_now : Z
}.

(** The goroutines of the services and the servers. *)
Inductive goroutine : Type :=
| HealthListener | HealthLoop | CatalogSubscriber | CatalogLoop | PlannerLoop | FleetLoop | ProvidersLoop
| CacheSubscriber | CacheLoop | SnapshotSubscriber | PolicySubscriber | PublisherLoop
| MetricsServer | RegistryServer | GatewayServer.

(** In the order in which [run] starts them.  Starting the fleet manager and
    the cache registry does nothing else. *)
Definition spawned : list goroutine :=
  [HealthListener; HealthLoop; CatalogSubscriber; CatalogLoop; PlannerLoop; FleetLoop; ProvidersLoop; CacheSubscriber; CacheLoop;
   SnapshotSubscriber; PolicySubscriber; PublisherLoop; MetricsServer; RegistryServer; GatewayServer].

Record control_plane := mkControlPlane {
  cp_db : DB;
  cp_health : @health_Service V;
  cp_catalog : option CatalogSnapshot;
  cp_planner : Planner.Service;
  cp_providers : Registry;
  cp_epoch : Z;
  cp_holder : option (nat * RoutingSnapshot);
  cp_fleet : Manager;
  cp_cache : CacheRegistry.Service;
  cp_goroutines : list goroutine
}.

(** [run] up to its wait for the end: every service logs the errors of its
    first round and goes on; the goroutines it starts have not run yet.
    [None] when the SCAN has no end within [fuel] pages. *)
Definition run_start (db : DB) (svc : @health_Service V) (fleet : Manager) (cache : CacheRegistry.Service) (fuel : nat) (b : boot)
    : option (go (result error control_plane)) :=
  match bo_tracer b with
  | Err e => Some (Returns (Err e))
  | Ok _ =>
      match reconcileOnce unmarshal (rv_scan (bo_redis b)) (rv_get (bo_redis b)) fuel (hs_snapshot svc) with
      | None => None
      | Some Panics => Some Panics
      | Some (Returns r) =>
          let s := match r with Ok s => s | Err _ => hs_snapshot svc end in
          Some (let! svc := publish_snapshot svc s (bo_nowMs b) (bo_all b s) in
                let '(_, db, catalog) := service_Rebuild db None (bo_counted b) (bo_rows b) (bo_listed b) (bo_now b) in
                let planner := Planner.Start (Planner.NewService (NewObjectiveStore (Some (bo_objective b)) (bo_created b))) 0 (LoadLive (bo_policy b)) in
                let providers := (ProviderRegistry.Reload Getenv NewRegistry (bo_providers b)).2 in
                let '(sent, epoch) := send 0 (Routing.mkTick (bo_now b) (bo_workers b) (bo_all b s) (SnapshotViews providers) (bo_publish b)) in
                let holder := match sent with Ok (snap, _) => (StoreIfNewer Epoch None 1 (Some snap)).2 | Err _ => None end in
                Returns (Ok (mkControlPlane db svc catalog planner providers epoch holder fleet cache spawned)))
      end
  end.

(** ** The end *)

Inductive ending : Type := Signalled | HTTPEnded (e : error) | MetricsEnded (e : error) | GRPCEnded (e : error).

(** The status of the process, and whether the deferred functions ran: the
    servers beside the gateway end it with log.Fatalf. *)
Definition run_end (e : ending) : Z * bool :=
  match e with
  | Signalled => (0, true)
  | HTTPEnded _ => (1, true)
  | MetricsEnded _ | GRPCEnded _ => (1, false)
  end.

(** ** Lemmas *)

Lemma ticker_loop_foldl {S I} (body : S -> I -> S) s wakes : ticker_loop body s wakes = foldl body s (ticks_before wakes).
Proof. revert s. induction wakes as [|[i|] wakes IH]; intros s; cbn; [done|apply IH|done]. Qed.

(** The views the first snapshot has of a worker that is live and ready. *)
Lemma first_views s regs virtual now wid hb w base adapter ctx :
  s !! wid = Some hb -> w ∈ regs -> r_ID w = wid -> Routing.mkModel base adapter ctx ∈ r_Models w -> Health.Ready hb = true ->
  (forall v, v ∈ virtual -> v_ID v <> wid) ->
  let snap := mkSnap now 1 (concat (worker_views s <$> regs) ++ virtual)%list in
  exists v, v ∈ Workers snap /\ v_ID v = wid /\ v_BaseModel v = base /\ v_Adapter v = adapter /\ v_Healthy v = true /\ v_Ready v = true /\
    v_QueueDepth v = Health.QueueDepth hb /\ v_InFlight v = Health.Inflight hb /\
    forall x, x ∈ Workers snap -> v_ID x = wid -> v_QueueDepth x = Health.QueueDepth hb /\ v_InFlight x = Health.Inflight hb.
Proof.
  intros Hhb Hw Hid Hm Hr Hvirt snap.
  assert (exists v, v ∈ worker_views s w /\ v_ID v = wid /\ v_BaseModel v = base /\ v_Adapter v = adapter /\ v_Healthy v = true /\ v_Ready v = true /\
    v_QueueDepth v = Health.QueueDepth hb /\ v_InFlight v = Health.Inflight hb) as (v & Hv & Hvs).
  { unfold worker_views. destruct (r_Models w) as [|m0 ms] eqn:Em; [by apply elem_of_nil in Hm|]. rewrite Hid, Hhb.
    eexists. split; [apply list_elem_of_fmap; eexists; split; [reflexivity|exact Hm]|]. by cbn. }
  exists v. split; [|destruct Hvs as (? & ? & ? & ? & ? & ? & ?); split_and!; try done].
  - cbn [Workers snap]. apply elem_of_app. left. apply list_elem_of_In, in_concat. exists (worker_views s w).
    split; [|by apply list_elem_of_In]. apply list_elem_of_In, list_elem_of_fmap. by exists w.
  - intros x Hx Ex. cbn [Workers snap] in Hx. apply elem_of_app in Hx as [Hx|Hx]; [|by destruct (Hvirt x Hx)].
    apply list_elem_of_In, in_concat in Hx as (l & Hl & Hx). apply list_elem_of_In in Hl, Hx. apply list_elem_of_fmap in Hl as (w' & -> & Hw').
    unfold worker_views in Hx. destruct (r_Models w') as [|m0 ms].
    + apply list_elem_of_singleton in Hx as ->. cbn in Ex. cbn. by rewrite Ex, Hhb.
    + apply list_elem_of_fmap in Hx as (m' & -> & _). cbn in Ex. cbn. by rewrite Ex, Hhb.
Qed.

Lemma keyed_reconcileOnce scan rget fuel s s' : reconcileOnce unmarshal scan rget fuel s = Some (Returns (Ok s')) -> keyed s'.
Proof.
  unfold reconcileOnce. destruct (reconcileScan unmarshal scan rget fuel 0 ∅) as [[[live|]|]|] eqn:E; try done. intros [= <-].
  eapply keyed_reconcileScan; [|exact E]. apply map_Forall_empty.
Qed.

(** What Redis has to answer: pages that list the keys of the heartbeats of a
    state [rdb], and their values. *)
Record answers (v : redis_view) (rdb : gmap string string) (fuel : nat) : Prop := {
  an_ok : db_ok unmarshal rdb;
  an_get : rv_get v = db_get rdb;
  an_pages : exists ps, serves (rv_scan v) 0 ps /\ (length ps <= fuel)%nat /\ Forall (fun k => exists id, k = Health.Key id) (concat ps) /\
    (forall id, is_Some (rdb !! Health.Key id) -> Health.Key id ∈ concat ps);
  an_utf8 : utf8_view v
}.

Lemma health_started (svc : @health_Service V) v rdb fuel nowMs all :
  answers v rdb fuel -> vec_Labels (hm_healthy (hs_metrics svc)) = 2%nat -> vec_Labels (hm_age (hs_metrics svc)) = 3%nat ->
  (forall s, all s ≡ₚ All s) ->
  (forall s, reconcileOnce unmarshal (rv_scan v) (rv_get v) fuel (hs_snapshot svc) = Some (Returns (Ok s)) -> Z.of_nat (size s) < 2 ^ 53) ->
  exists s svc', reconcileOnce unmarshal (rv_scan v) (rv_get v) fuel (hs_snapshot svc) = Some (Returns (Ok s)) /\
    publish_snapshot svc s nowMs (all s) = Returns svc' /\ keyed s /\ forall id, id <> "" -> s !! id = Health.view unmarshal rdb id.
Proof.
  intros [Hok Hg (ps & Hs & Hf & Hk & Hc) Hu] L1 L2 Hall Hsz.
  destruct (reconcile_exact unmarshal rdb (rv_scan v) ps fuel (hs_snapshot svc) Hok Hs Hf Hk Hc) as (s & E & Hview). rewrite <- Hg in E.
  destruct (publish_returns svc s nowMs (all s) L1 L2) as (svc' & Ep & _); [by eapply labelled_reconcileOnce|by apply Hsz|done|].
  exists s, svc'. split_and!; try done. by eapply keyed_reconcileOnce.
Qed.

(** The seeded catalog resolves the name of a servable row to the worker. *)
Lemma seeded_catalog db rows n db' now wid base adapter fresh :
  models_rows db = [] -> SeedFromWorkers db None (Ok rows) = (n, None, db') -> (mkServable wid base adapter, fresh) ∈ rows -> base <> "" ->
  exists row ws, Resolve (rebuilt db' now) (model_name base adapter) = Some (row, ws) /\ wid ∈ ws /\
    model_name (mi_BaseModel row) (mi_Adapter row) = model_name base adapter /\ mi_BaseModel row <> "".
Proof.
  unfold SeedFromWorkers. intros Em E Hin Hb. rewrite Em in E. destruct (seed_rows_spec rows db 0 n db' E) as (_ & _ & Hall).
  rewrite list.Forall_forall in Hall. destruct (Hall _ Hin Hb) as (row & Hrow & Hn & Ha). cbn [fst sr_BaseModel sr_Adapter sr_WorkerID] in *.
  destruct (rebuilt_resolve db' now row wid Hrow) as (ws & Er & Hws). rewrite Hn in Er. exists row, ws. split; [done|]. split; [by apply Hws|].
  pose proof (seed_rows_named rows db 0) as Hnm. rewrite Em, E in Hnm. specialize (Hnm ltac:(done)). rewrite list.Forall_forall in Hnm.
  destruct (Hnm row Hrow) as [En Hne]. split; [congruence|done].
Qed.
End Run.

(** ** Properties *)

(** A request is served from the start: on an empty catalog, with Redis and
    the database answering, the start of the control plane goes through with a
    snapshot of the registry and the heartbeats, and the gateway that then
    begins to serve gives workers to a request for any model that a registered
    worker with a live and ready heartbeat serves, as long as the worker's load
    is below the admission limit; no later round of any service is needed. *)
Lemma start_serves {V : Type -> Type} `{Prometheus V} {DB : Type} `{CatalogTables DB} `{UnicodeTables} `{Hash64}
    Getenv db svc fleet cache fuel b rdb tr rows n db' regs wid base adapter ctx fresh w hb t admission :
  bo_tracer b = Ok tr -> answers (bo_redis b) rdb fuel ->
  vec_Labels (hm_healthy (hs_metrics svc)) = 2%nat -> vec_Labels (hm_age (hs_metrics svc)) = 3%nat ->
  (forall x, bo_all b x ≡ₚ All x) ->
  (forall x, reconcileOnce unmarshal (rv_scan (bo_redis b)) (rv_get (bo_redis b)) fuel (hs_snapshot svc) = Some (Returns (Ok x)) -> Z.of_nat (size x) < 2 ^ 53) ->
  models_rows db = [] -> bo_counted b = None -> bo_rows b = Ok rows -> bo_listed b = None -> SeedFromWorkers db None (Ok rows) = (n, None, db') ->
  (mkServable wid base adapter, fresh) ∈ rows -> base <> "" -> wid <> "" ->
  let virtual := SnapshotViews (ProviderRegistry.Reload Getenv NewRegistry (bo_providers b)).2 in
  bo_workers b = Ok regs -> w ∈ regs -> r_ID w = wid -> Routing.mkModel base adapter ctx ∈ r_Models w -> (forall v, v ∈ virtual -> v_ID v <> wid) ->
  (forall x, forallb view_marshals (concat (worker_views x <$> regs) ++ virtual)%list = true) -> time_writable (bo_now b) = true -> bo_publish b = None ->
  Health.view unmarshal rdb wid = Some hb -> Health.Ready hb = true -> 0 <= Health.QueueDepth hb -> 0 <= Health.Inflight hb -> 0 <= Inflight.Get t wid ->
  Health.QueueDepth hb + Health.Inflight hb + Inflight.Get t wid < admission -> admission < 2 ^ 63 ->
  exists cp hs, run_start Getenv db svc fleet cache fuel b = Some (Returns (Ok cp)) /\
    Load (cp_holder cp) = Some (mkSnap (bo_now b) 1 (concat (worker_views hs <$> regs) ++ virtual)) /\
    (forall id, id <> "" -> hs !! id = Health.view unmarshal rdb id) /\
    (forall s prompt limit, Filters (sel_chain s) = standard_filters admission ->
     sel_holder s = Load (cp_holder cp) -> sel_catalog s = cp_catalog cp -> sel_inflight s = Some (Inflight.Get t) ->
     exists ws, (SelectWorkers s (model_name base adapter) prompt limit).1 = Ok ws /\ ws <> [] /\
       Forall (fun x => allowed_by s (model_name base adapter) (sw_ID x)) ws).
Proof.
  intros Htr Han L1 L2 Hall Hsz Hm Hc Hrows Hl Hseed Hin Hb Hwid virtual Hregs Hw Hid Hmod Hvirt Hmar Htime Hpub Hview Hready Hq0 Hi0 Hg0 Hload Hadm.
  destruct (health_started svc (bo_redis b) rdb fuel (bo_nowMs b) (bo_all b) Han L1 L2 Hall Hsz) as (hs & svc' & Er & Ep & Hk & Hlook).
  unfold run_start. rewrite Htr, Er. cbn zeta. rewrite Ep. cbn iota beta.
  unfold service_Rebuild. rewrite Hc, Hrows, Hl, Hseed. cbn [snd]. unfold send, buildSnapshot. cbn [ti_now ti_workers ti_all ti_virtual ti_publish].
  rewrite Hregs, (heartbeats_spec hs (bo_all b hs) Hk (Hall hs)). fold virtual. unfold marshal_snapshot. cbn [BuiltAt Workers]. rewrite Htime, Hmar, Hpub.
  eexists _, hs. split; [reflexivity|]. split; [reflexivity|]. split; [exact Hlook|]. cbn [cp_holder cp_catalog StoreIfNewer not_newer snd Load fmap option_fmap option_map]. intros s prompt limit Hf Hsel Hcat Hinf.
  assert (sel_catalog s = rebuilt db' (bo_now b)) as Hcat' by exact Hcat. clear Hcat.
  set (snap := mkSnap (bo_now b) (wrap_u64 (0 + 1)) _) in Hsel.
  destruct (first_views hs regs virtual (bo_now b) wid hb w base adapter ctx) as (v & Hv & Evid & Evb & Eva & Evh & Evr & Evq & Evi & Hsame); try done; [by rewrite Hlook|].
  change (mkSnap (bo_now b) 1 _) with snap in Hv, Hsame.
  destruct (uniform_candidate snap (Inflight.Get t) (sel_latency s) v Hv) as (c & Hcand & Hcid & Hch & Hcr & Hcm & Hcd).
  { intros x Hx Ex. rewrite Evq, Evi. apply Hsame; congruence. }
  destruct (seeded_catalog db rows n db' (bo_now b) wid base adapter fresh Hm Hseed Hin Hb) as (row & ws0 & Eres & Hws & Hname & Hrb).
  assert (ModelID v = model_name base adapter) as Emod.
  { unfold ModelID, model_name. rewrite Eva, Evb. by destruct (String.eqb adapter ""). }
  eapply (eligible_served s admission snap t c _ (mi_BaseModel row) (mi_Adapter row)); try done.
  - by apply Hch.
  - by apply Hcr.
  - change (want_of (mi_BaseModel row) (mi_Adapter row)) with (model_name (mi_BaseModel row) (mi_Adapter row)). rewrite Hname, <- Emod.
    apply Hcm. by rewrite Evb.
  - rewrite Hcd. unfold depth_of. rewrite Evq, Evi, Evid. rewrite (wrap_i64_id (Health.QueueDepth hb + Health.Inflight hb)) by (unfold in_i64, two63; lia).
    rewrite wrap_i64_id by (unfold in_i64, two63; lia). lia.
  - unfold routed_as. rewrite Hcat'. by rewrite Eres.
  - unfold allowed_by. rewrite Hcat'. by rewrite Eres, Hcid, Evid.
Qed.

(** The share of traces that are sampled is above zero and at most one,
    whatever the configuration says; zero and below mean all of them. *)
Theorem sampled_share cfg tr endpoint ratio :
  NewTracer cfg None None = Ok tr -> exported_to tr = Some (endpoint, ratio) -> is_nan (SampleRatio cfg) = false ->
  fltb f_zero ratio = true /\ fleb ratio f_one = true /\ endpoint = OTLPEndpoint cfg /\ (fleb (SampleRatio cfg) f_zero = true -> ratio = f_one).
Proof.
  unfold NewTracer. destruct (String.eqb (OTLPEndpoint cfg) ""); [by intros [= <-]|]. intros [= <-]. cbn [exported_to]. intros [= <- <-] Hn.
  destruct (fleb (SampleRatio cfg) f_zero) eqn:E0; [by vm_compute|].
  destruct (fltb f_one (SampleRatio cfg)) eqn:E1; [by vm_compute|]. split_and!; [| |done|done].
  - apply fltb_spec. split_and!; [done|done|]. destruct (decide (key_lt (fkey f_zero) (fkey (SampleRatio cfg)))) as [|Hk]; [done|].
    exfalso. assert (fleb (SampleRatio cfg) f_zero = true); [|congruence]. by apply fleb_spec.
  - apply fleb_spec. split_and!; [done|done|]. intros Hk. assert (fltb f_one (SampleRatio cfg) = true); [|congruence]. by apply fltb_spec.
Qed.

(** The publisher's loop is the run of its ticks up to the end of the context. *)
Theorem publisher_loop_runs `{UnicodeTables} first wakes :
  publisher_Start first wakes = pub_run (first :: ticks_before wakes).
Proof. unfold publisher_Start, pub_run. by rewrite ticker_loop_foldl. Qed.

(** The interval an operator writes into the objective later on is read by the
    planner and kept, but its ticker goes on as it was made after the first
    tick. *)
Definition faster : Objective :=
  mkObjective 1 f_zero f_zero f_zero f_one f_zero f_zero f_zero 5.

Theorem planner_interval_ignored :
  let '(s, period) := planner_loop (fun A m => (map_to_list m).*2) (Planner.NewService DefaultObjective)
    (Planner.mkTick None (Ok 1) None 0 (mkStore Planner.Done Planner.Done Planner.Done)) [Some (Planner.mkTick (Some (Row faster)) (Ok 1) None 1 (mkStore Planner.Done Planner.Done Planner.Done))] in
  Planner.interval s = 5 * second /\ period = 45 * second.
Proof. vm_compute. by split. Qed.

(** *** Witnesses *)

Definition qwen_servable : list (servable * string) := [(mkServable "w1" "m" "", "id1")].

Definition redis_w1 : gmap string string := {[Health.Key "w1" := w1_heartbeat]}.

Definition boot1 : boot :=
  mkBoot (Ok (mkTracer "forge-controlplane" None)) (HealthService.mkView (fun _ => Ok ([Health.Key "w1"], 0)) (db_get redis_w1)) All 1005
    None (Ok qwen_servable) None NoRow (Ok 1) RedisNil None (Ok [demo_reg]) None 7.

Definition svc1 : health_Service series := health_NewService fresh_gauges 0.

Definition selector1 (cp : @control_plane series store) : Selector :=
  mkSelector (Load (cp_holder cp)) (cp_catalog cp) (Some (Inflight.Get ∅)) None DefaultChain.

Definition seeded1 : store := (SeedFromWorkers no_rows None (Ok qwen_servable)).2.

Lemma redis_w1_answers : answers (bo_redis boot1) redis_w1 1.
Proof.
  split.
  - apply map_Forall_singleton. intros id E%Key_inj. exists w1_beat. split; [vm_compute; reflexivity|]. by right.
  - done.
  - exists [[Health.Key "w1"]]. split_and!; [done|done| |].
    + cbn. apply list.Forall_singleton. by exists "w1".
    + intros id [x E]. unfold redis_w1 in E. apply lookup_singleton_Some in E as [E _]. cbn [concat app]. rewrite E. by left.
  - intros cursor keys next [= <- _]. apply list.Forall_singleton. intros id E. apply Key_inj in E as <-. apply (bool_decide_unpack _). vm_compute. exact I.
Qed.

Lemma sampled_share_witness : fleb (flit 1 10) f_one = true.
Proof.
  apply (sampled_share (mkTraceConfig "forge" "localhost:4317" (flit 1 10)) (mkTracer "forge" (Some ("localhost:4317", flit 1 10))) "localhost:4317" (flit 1 10)).
  - vm_compute. reflexivity.
  - reflexivity.
  - vm_compute. reflexivity.
Defined.
