(* ===== verification/WorkerMain.v ===== *)
(** * The worker process from start to end (cmd/forge-worker/main.go: main,
      registerWithControlPlane, refreshReady, scrapeVLLMLoad)

    [main] builds the adapter, registers, opens Redis and the tracer, each with
    an exit of its own, and then leaves the heartbeat to three goroutines.  The
    file has the start as one function of what the outside answers, the
    goroutines as threads whose steps interleave, and what the control plane
    can see of the process at each point. *)

From Stdlib Require Import Floats.SpecFloat.
From S2P Require Import Prelude Float64 Rounding FloatRange GoStrings GoFormat Json JsonDecode Strconv JsonMaps Errors Health HeartbeatWriter Routing WorkerRegistry Config FleetScaling LocalProvisioner WorkerProgram WorkerAdapters WorkerLoad Startup.

(** ** Registration *)

(** The attempts of [registerWithControlPlane]: an attempt that does not
    arrive has an error, one that does the time of the control plane. *)
Fixpoint register_attempts {DB : Type} (call : Z -> DB -> result error RegisterResponse * DB) (db : DB)
    (attempts : list (result error Z)) (lastErr : option error) : result error RegisterResponse * DB :=
  match attempts with
  | [] => (Err (match lastErr with Some e => EWrap e "register failed after retries: " | None => ENew "register failed after retries" end), db)
  | Err e :: rest => register_attempts call db rest (Some e)
  | Ok now :: rest =>
      match call now db with
      | (Ok resp, db) => (Ok resp, db)
      | (Err e, db) => register_attempts call db rest (Some e)
      end
  end.

Definition registerWithControlPlane {DB : Type} (NewClient : option error) (call : Z -> DB -> result error RegisterResponse * DB)
    (db : DB) (attempts : list (result error Z)) : result error RegisterResponse * DB :=
  match NewClient with
  | Some e => (Err (EWrap e "grpc client: "), db)
  | None => register_attempts call db (take 15 attempts) None
  end.

(** ** The start *)

(** What the outside answers while the process starts. *)
Record worker_host (O : Type) := mkWorkerHost {
  wh_getenv : string -> string;
  (** the adapter's probe *)
  wh_probe : bool;
  wh_NewClient : option error;
  wh_attempts : list (result error Z);
  wh_ParseURL : string -> result error O;
  wh_Ping : O -> option error;
  wh_exporter : option error;
  wh_resource : option error
}.
Arguments wh_getenv {O}.
Arguments wh_probe {O}.
Arguments wh_NewClient {O}.
Arguments wh_attempts {O}.
Arguments wh_ParseURL {O}.
Arguments wh_Ping {O}.
Arguments wh_exporter {O}.
Arguments wh_resource {O}.

(** What the process goes on with. *)
Record worker_process := mkProcess {
  wp_adapter : RuntimeAdapter;
  wp_label : string;
  wp_writer : HeartbeatWriter;
  wp_tracer : Tracer
}.

(** The calls of log.Fatalf in [main]. *)
Inductive fatal : Type := AdapterFatal (e : error) | RegisterFatal (e : error) | RedisFatal (e : error) | TracerFatal (e : error).

Section Start.
Context `{UnicodeTables} {K : Type} `{Koanf K} {DB : Type} `{WorkerTables DB}.

(** [main] up to the goroutines. *)
Definition worker_start {O : Type} (cfg : K) (h : worker_host O) (db : DB) : result fatal worker_process * DB :=
  match buildAdapter cfg with
  | Err e => (Err (AdapterFatal e), db)
  | Ok (adapter, runtimeLabel) =>
      let ready := initial_ready cfg (wh_getenv h) (wh_probe h) in
      match registerWithControlPlane (wh_NewClient h) (fun now db => Register db (register_request cfg) now) db (wh_attempts h) with
      | (Err e, db) => (Err (RegisterFatal e), db)
      | (Ok _, db) =>
          match (redisx_NewClient (wh_ParseURL h) (wh_Ping h) (k_String cfg "redis.url")).1 with
          | Err e => (Err (RedisFatal e), db)
          | Ok _ =>
              let hb := NewHeartbeatWriter (heartbeat_config cfg runtimeLabel ready) in
              match NewTracer (mkTraceConfig "forge-worker" (k_String cfg "otlp.endpoint") (k_Float64 cfg "trace.sample.ratio"))
                      (wh_exporter h) (wh_resource h) with
              | Err e => (Err (TracerFatal e), db)
              | Ok tr => (Ok (mkProcess adapter runtimeLabel hb tr), db)
              end
          end
      end
  end.
End Start.

(** ** The goroutines *)

(** [hb.Run]: a beat at once and one per tick. *)
Definition beat_thread (times : list Z) : list wevent := WBeat <$> times.

(** [refreshReady]: nothing at all when the environment says what is ready. *)
Definition ready_thread (getenv : string -> string) (probes : list bool) : list wevent :=
  if negb (String.eqb (getenv "FORGE_WORKER_READY") "") then [] else WReady <$> probes.

(** The stores of one tick of [scrapeVLLMLoad], one atomic after the other. *)
Definition scrape_stores (oob : float64 -> Z) (scraped : result error LoadSnapshot) : list wevent :=
  match scraped with
  | Err _ => []
  | Ok snap =>
      [WInflight (to_int64 oob (Running snap)); WQueue (to_int64 oob (Waiting snap));
       WKV (floatBits oob (l_KVCacheUsage snap)); WGPU (floatBits oob (l_GPUCacheUsage snap))]
  end.

(** Only a vLLM worker is scraped. *)
Definition scrape_thread (oob : float64 -> Z) (adapter : RuntimeAdapter) (scrapes : list (result error LoadSnapshot)) : list wevent :=
  match adapter with VLLMAdapter _ _ _ => concat (scrape_stores oob <$> scrapes) | OllamaAdapter _ _ => [] end.

Definition worker_threads (getenv : string -> string) (oob : float64 -> Z) (p : worker_process) (times : list Z) (probes : list bool)
    (scrapes : list (result error LoadSnapshot)) : list (list wevent) :=
  [beat_thread times; ready_thread getenv probes; scrape_thread oob (wp_adapter p) scrapes].

(** An order in which the steps of the threads can happen, perhaps not all of
    them. *)
Inductive interleaving {A : Type} : list (list A) -> list A -> Prop :=
| interleaving_stop ts : interleaving ts []
| interleaving_step ts i x rest out : ts !! i = Some (x :: rest) -> interleaving (<[i := rest]> ts) out -> interleaving ts (x :: out).

(** ** Lemmas *)

Lemma interleaving_elem {A} (ts : list (list A)) out x : interleaving ts out -> x ∈ out -> exists l, l ∈ ts /\ x ∈ l.
Proof.
  induction 1 as [ts|ts i y rest out Hi _ IH]; [by intros ?%elem_of_nil|]. pose proof (list_elem_of_lookup_2 _ _ _ Hi) as Hin.
  intros [->|Hx]%elem_of_cons; [exists (y :: rest); split; [done|by left]|].
  destruct (IH Hx) as (l & Hl & Hxl). apply list_elem_of_lookup in Hl as [j Hj].
  destruct (decide (i = j)) as [<-|Hne].
  - rewrite list_lookup_insert_eq in Hj by (by eapply lookup_lt_Some). injection Hj as <-. exists (y :: rest). split; [done|by right].
  - rewrite list_lookup_insert_ne in Hj by done. exists l. split; [by eapply list_elem_of_lookup_2|done].
Qed.

(** The tick of the scraper is the sequence of its stores. *)
Lemma scrape_tick_stores {R : Type} `{RedisTTL R} oob scraped hb (r : R) :
  Run (hb, r) (scrape_stores oob scraped) = (scrape_tick oob scraped hb, r).
Proof. by destruct scraped. Qed.

Lemma to_int64_i64 oob x : in_i64 (to_int64 oob x).
Proof.
  unfold to_int64. destruct x as [| | |s m e]; [done|apply wrap_i64_range..|].
  destruct (Z.leb_spec (- two63) (trunc (S754_finite s m e))), (Z.ltb_spec (trunc (S754_finite s m e)) two63); cbn [andb]; first [by split|apply wrap_i64_range].
Qed.

Lemma floatBits_u64 oob x : in_u64 (floatBits oob x).
Proof.
  unfold floatBits, to_uint64. destruct (fmul x million) as [| | |s m e]; [done|apply wrap_u64_range..|].
  destruct (Z.leb_spec 0 (trunc (S754_finite s m e))), (Z.ltb_spec (trunc (S754_finite s m e)) two64); cbn [andb]; first [by split|apply wrap_u64_range].
Qed.

Lemma scrape_stores_ok oob scraped : Forall stores_or_beats (scrape_stores oob scraped).
Proof.
  destruct scraped as [snap|]; [|constructor]. cbn [scrape_stores].
  repeat (constructor; [cbn; first [apply to_int64_i64|apply floatBits_u64]|]). constructor.
Qed.

Definition is_ollama (a : RuntimeAdapter) : Prop := match a with OllamaAdapter _ _ => True | VLLMAdapter _ _ _ => False end.

(** Which thread a step is of. *)
Lemma threads_step getenv oob p times probes scrapes es e :
  interleaving (worker_threads getenv oob p times probes scrapes) es -> e ∈ es ->
  (exists t, e = WBeat t) \/
  (exists b, e = WReady b /\ getenv "FORGE_WORKER_READY" = "" /\ b ∈ probes) \/
  (exists snap, Ok snap ∈ scrapes /\ e ∈ scrape_stores oob (Ok snap) /\ ~ is_ollama (wp_adapter p)).
Proof.
  intros Hi He. destruct (interleaving_elem _ _ _ Hi He) as (l & Hl & Hel). unfold worker_threads in Hl.
  rewrite !elem_of_cons, elem_of_nil in Hl. destruct Hl as [->|[->|[->|[]]]].
  - left. unfold beat_thread in Hel. apply list_elem_of_fmap in Hel as (t & -> & _). by exists t.
  - right. left. unfold ready_thread in Hel. destruct (String.eqb_spec (getenv "FORGE_WORKER_READY") ""); cbn [negb] in Hel; [|by apply elem_of_nil in Hel].
    apply list_elem_of_fmap in Hel as (b & -> & ?). by exists b.
  - right. right. unfold scrape_thread in Hel. destruct (wp_adapter p); [|by apply elem_of_nil in Hel].
    apply list_elem_of_In, in_concat in Hel as (l & Hl & Hel). apply list_elem_of_In in Hl, Hel.
    apply list_elem_of_fmap in Hl as ([snap|] & -> & Hsc); [|by apply elem_of_nil in Hel]. exists snap. split_and!; [done|done|cbn; tauto].
Qed.

(** Every step stores a machine word or beats. *)
Lemma threads_ok getenv oob p times probes scrapes es :
  interleaving (worker_threads getenv oob p times probes scrapes) es -> Forall stores_or_beats es.
Proof.
  intros Hi. apply list.Forall_forall. intros e He.
  destruct (threads_step _ _ _ _ _ _ _ _ Hi He) as [(t & ->)|[(b & -> & _)|(snap & _ & Hs & _)]]; [done|done|].
  pose proof (scrape_stores_ok oob (Ok snap)) as Hok. rewrite list.Forall_forall in Hok. by apply Hok.
Qed.

(** A writer whose load nobody stores reports what it started with. *)
Lemma Run_load {R : Type} `{RedisTTL R} w r es :
  (forall e, e ∈ es -> match e with WReady _ | WBeat _ => True | _ => False end) ->
  hw_inflight (Run (w, r) es).1 = hw_inflight w /\ hw_queue (Run (w, r) es).1 = hw_queue w.
Proof.
  intros Hes. revert w r. induction es as [|e es IH]; intros w r; [done|].
  assert (forall e', e' ∈ es -> match e' with WReady _ | WBeat _ => True | _ => False end) as Hes' by (intros e' He'; apply Hes; by right).
  pose proof (Hes e ltac:(by left)) as He. unfold Run in *. cbn [foldl]. destruct e; try done; cbn [wact]; by rewrite !(proj1 (IH Hes' _ _)), (proj2 (IH Hes' _ _)).
Qed.

Lemma last_ready_kept b es : (forall x, WReady x ∉ es) -> last_ready b es = b.
Proof.
  intros Hn. unfold last_ready. revert b. induction es as [|e es IH]; intros b; [done|]. cbn [foldl].
  assert (forall x, WReady x ∉ es) by (intros x Hx; apply (Hn x); by right).
  destruct e; try (by apply IH). exfalso. apply (Hn ready). by left.
Qed.

Section Attempts.
Context {DB : Type} `{WorkerTables DB}.

Lemma Register_err db req now e db' : Register db req now = (Err e, db') -> db' = db.
Proof. unfold Register. repeat case_match; by intros [= _ <-]. Qed.

Lemma register_attempts_spec req db attempts lastErr :
  match register_attempts (fun now db => Register db req now) db attempts lastErr with
  | (Ok resp, db') => exists now, Ok now ∈ attempts /\ Register db req now = (Ok resp, db')
  | (Err _, db') => db' = db /\ forall now, Ok now ∈ attempts -> exists e, Register db req now = (Err e, db)
  end.
Proof.
  revert lastErr. induction attempts as [|[now|e] rest IH]; intros lastErr; cbn [register_attempts].
  - split; [done|]. by intros now ?%elem_of_nil.
  - destruct (Register db req now) as [[resp|e] db1] eqn:E; [exists now; split; [by left|done]|].
    apply Register_err in E as Edb. subst db1. specialize (IH (Some e)). destruct (register_attempts _ db rest (Some e)) as [[resp|e'] db2].
    + destruct IH as (now' & Hin & En). exists now'. split; [by right|done].
    + destruct IH as [-> Hall]. split; [done|]. intros now' [[= ->]|Hin]%elem_of_cons; [by exists e|by apply Hall].
  - specialize (IH (Some e)). destruct (register_attempts _ db rest (Some e)) as [[resp|e'] db2].
    + destruct IH as (now' & Hin & En). exists now'. split; [by right|done].
    + destruct IH as [-> Hall]. split; [done|]. intros now' [[=]|Hin]%elem_of_cons. by apply Hall.
Qed.
End Attempts.

Section MainLemmas.
Context `{UnicodeTables} {K : Type} `{Koanf K} {DB : Type} `{WorkerTables DB}.

(** The row a worker has in the registry once it has registered. *)
Definition registered_row (cfg : K) : RegWorker :=
  mkReg (k_String cfg "worker.id") (k_String cfg "worker.endpoint") (RuntimeKind_name (RuntimeKind_value (k_String cfg "worker.runtime")))
    (print (map_doc (worker_capabilities cfg)))
    [Routing.mkModel (k_String cfg "worker.model.base") "" (wrap_u32 (k_Int cfg "worker.model.context"))].

(** The listing of the registry has the worker and, of the others, what it
    had. *)
Definition now_registered (cfg : K) (db db' : DB) : Prop :=
  forall r, r ∈ ListWorkers db' <-> r = registered_row cfg \/ (r ∈ ListWorkers db /\ r_ID r <> k_String cfg "worker.id").

Lemma worker_start_inv {O : Type} cfg (h : worker_host O) db p db' :
  worker_start cfg h db = (Ok p, db') ->
  k_String cfg "worker.id" <> "" /\ k_String cfg "worker.endpoint" <> "" /\ now_registered cfg db db' /\
  buildAdapter cfg = Ok (wp_adapter p, wp_label p) /\
  wp_writer p = NewHeartbeatWriter (heartbeat_config cfg (wp_label p) (initial_ready cfg (wh_getenv h) (wh_probe h))).
Proof.
  unfold worker_start, registerWithControlPlane. destruct (buildAdapter cfg) as [[a l]|]; [|done]. destruct (wh_NewClient h); [done|].
  pose proof (register_attempts_spec (register_request cfg) db (take 15 (wh_attempts h)) None) as Hs.
  destruct (register_attempts _ _ _ _) as [[resp|] db1]; [|done]. destruct Hs as (now & _ & Hr).
  destruct (redisx_NewClient _ _ _).1; [|done]. destruct (NewTracer _ _ _); [|done]. intros [= <- <-].
  destruct (Register_ok _ _ _ _ _ Hr) as (Hid & Hep & _). destruct (Register_lists _ _ _ _ _ Hr) as (caps & [= <-] & Hl).
  split_and!; [exact Hid|exact Hep|exact Hl|done|done].
Qed.
End MainLemmas.

Lemma set_missing_ne m k k' v : k <> k' -> set_missing m k v !! k' = m !! k'.
Proof. intros Hne. unfold set_missing. destruct (m !! k); [done|]. by rewrite lookup_insert_ne. Qed.

Lemma FormatFloat_nonempty x : valid x -> FormatFloat x <> "".
Proof. intros V E. pose proof (ParseFloat_FormatFloat x V) as Hp. by rewrite E in Hp. Qed.

(** ** Properties *)

Section Process.
Context `{UnicodeTables} {K : Type} `{Koanf K} {DB : Type} `{WorkerTables DB}.

(** How a start can fail: an unsupported runtime or a registration refused or
    not arriving in fifteen attempts leaves the registry as it was; Redis and
    the tracer are opened only after the registration, so a worker that fails
    there stays registered, exactly as one that starts. *)
Theorem worker_start_outcomes {O : Type} cfg (h : worker_host O) db :
  let '(r, db') := worker_start cfg h db in
  match r with
  | Err (AdapterFatal _) => db' = db /\ is_ok (buildAdapter cfg) = false
  | Err (RegisterFatal _) =>
      db' = db /\ (is_Some (wh_NewClient h) \/
                   forall now, Ok now ∈ take 15 (wh_attempts h) -> exists e, Register db (register_request cfg) now = (Err e, db))
  | Err (RedisFatal _) | Err (TracerFatal _) | Ok _ => now_registered cfg db db'
  end.
Proof.
  unfold worker_start, registerWithControlPlane. destruct (buildAdapter cfg) as [[a l]|]; [|done].
  destruct (wh_NewClient h) as [e|]; [split; [done|left; by eexists]|].
  pose proof (register_attempts_spec (register_request cfg) db (take 15 (wh_attempts h)) None) as Hs.
  destruct (register_attempts _ _ _ _) as [[resp|] db1]; [|destruct Hs as [-> Hall]; split; [done|by right]].
  destruct Hs as (now & _ & Hr). destruct (Register_lists _ _ _ _ _ Hr) as (caps & [= <-] & Hl).
  destruct (redisx_NewClient _ _ _).1; [|exact Hl]. destruct (NewTracer _ _ _); exact Hl.
Qed.

(** The cost of the row, through the JSON of its capabilities. *)
Lemma row_cost cfg hbs v :
  utf8_map (worker_capabilities cfg) -> valid (k_Float64 cfg "worker.cost.per.hour") -> v ∈ worker_views hbs (registered_row cfg) ->
  v_CostPerHour v = k_Float64 cfg "worker.cost.per.hour" /\
  (k_String cfg "worker.cost.class" = "" ->
   v_CostClass v = ToLower (if fltb f_zero (k_Float64 cfg "worker.cost.per.hour") then "paid" else "free")).
Proof.
  intros Hu Hv Hin. unfold worker_views in Hin. cbn [registered_row r_Models] in Hin. apply list_elem_of_singleton in Hin as ->.
  cbn [v_CostPerHour v_CostClass r_Capabilities r_RuntimeKind registered_row]. unfold ParseCapabilities.
  rewrite unmarshal_marshal by done. set (x := k_Float64 cfg "worker.cost.per.hour") in *.
  assert (worker_capabilities cfg !! "cost_per_hour" = Some (FormatFloat x)) as Ecost.
  { unfold worker_capabilities. rewrite !set_missing_ne by done. by rewrite lookup_insert_ne, lookup_insert_eq by done. }
  destruct (String.eqb_spec (print (map_doc (worker_capabilities cfg))) "") as [E|_].
  { exfalso. pose proof (unmarshal_marshal _ Hu) as Hm. by rewrite E in Hm. }
  cbn [c_Cost PerHourUSD Class_]. unfold float_at, at_key. rewrite Ecost. change (default "" (Some (FormatFloat x))) with (FormatFloat x).
  destruct (String.eqb_spec (FormatFloat x) "") as [E|_]; [by apply (FormatFloat_nonempty x Hv) in E|].
  rewrite ParseFloat_FormatFloat by done. split; [done|]. intros Hc.
  assert (worker_capabilities cfg !! "cost_class" = Some (if fltb f_zero x then "paid" else "free")) as ->.
  { unfold worker_capabilities. rewrite !set_missing_ne by done. by rewrite lookup_insert_eq, Hc. }
  by destruct (fltb f_zero x).
Qed.

(** C22: what a configured cost becomes.  Once a worker has started, and with
    it registered, over whatever the registry held, the registry lists one row
    with its id; the publisher makes exactly one view of it, of the configured
    base model, and its cost per hour, which the scheduler weighs, is the very
    float of the configuration, through its text, the registration, the JSON of
    the registry and the publisher's parser.  Where no class of cost is
    configured it is "paid" for a positive cost and "free" otherwise.  The
    texts of the configured capabilities have to be UTF-8, since JSON replaces
    what is not. *)
Theorem configured_cost_in_snapshot {O : Type} cfg (h : worker_host O) db p db' hbs :
  worker_start cfg h db = (Ok p, db') ->
  utf8_map (worker_capabilities cfg) -> valid (k_Float64 cfg "worker.cost.per.hour") ->
  exists w v, (forall r, r ∈ ListWorkers db' /\ r_ID r = k_String cfg "worker.id" <-> r = w) /\ worker_views hbs w = [v] /\
    v_ID v = k_String cfg "worker.id" /\ v_BaseModel v = k_String cfg "worker.model.base" /\
    v_CostPerHour v = k_Float64 cfg "worker.cost.per.hour" /\
    (k_String cfg "worker.cost.class" = "" ->
     v_CostClass v = ToLower (if fltb f_zero (k_Float64 cfg "worker.cost.per.hour") then "paid" else "free")).
Proof.
  intros Hstart Hu Hv. destruct (worker_start_inv _ _ _ _ _ Hstart) as (_ & _ & Hreg & _).
  exists (registered_row cfg). eexists. split; [|split; [reflexivity|]].
  - intros r. rewrite (Hreg r). split; [by intros [[->|[_ Hne]] Hid]|intros ->; split; [by left|done]].
  - split; [done|]. split; [done|]. apply (row_cost cfg hbs); [done|done|]. by apply list_elem_of_singleton.
Qed.
End Process.

(** What the writer of a started process holds after some of the steps. *)
Section Held.
Context {K : Type} `{Koanf K} {R : Type} `{RedisTTL R} {O : Type}.
Context (cfg : K) (h : worker_host O) (p : worker_process) (oob : float64 -> Z).

Lemma process_load times probes scrapes es rest (r : R) :
  wp_writer p = NewHeartbeatWriter (heartbeat_config cfg (wp_label p) (initial_ready cfg (wh_getenv h) (wh_probe h))) ->
  interleaving (worker_threads (wh_getenv h) oob p times probes scrapes) (es ++ rest) -> is_ollama (wp_adapter p) ->
  hw_inflight (Run (wp_writer p, r) es).1 = 0 /\ hw_queue (Run (wp_writer p, r) es).1 = 0.
Proof.
  intros Ew Hi Ha. destruct (Run_load (wp_writer p) r es) as [-> ->]; [|by rewrite Ew]. intros e He.
  destruct (threads_step _ _ _ _ _ _ _ e Hi) as [(x & ->)|[(x & -> & _)|(sn & _ & _ & Hn)]]; [apply elem_of_app; by left|done..].
Qed.

Lemma process_ready times probes scrapes es rest (r : R) :
  wp_writer p = NewHeartbeatWriter (heartbeat_config cfg (wp_label p) (initial_ready cfg (wh_getenv h) (wh_probe h))) ->
  interleaving (worker_threads (wh_getenv h) oob p times probes scrapes) (es ++ rest) -> Forall stores_or_beats es ->
  hw_ready (Run (wp_writer p, r) es).1 =
    if negb (String.eqb (wh_getenv h "FORGE_WORKER_READY") "") then k_Bool cfg "worker.ready" else last_ready (wh_probe h) es.
Proof.
  intros Ew Hi Hes. assert (words_ok (wp_writer p)) as Hw by (rewrite Ew; by vm_compute).
  rewrite (proj2 (Run_same (wp_writer p) r es Hes Hw)), Ew. cbn [NewHeartbeatWriter hw_ready heartbeat_config hc_Ready]. unfold initial_ready.
  destruct (String.eqb_spec (wh_getenv h "FORGE_WORKER_READY") "") as [|Hne]; cbn [negb]; [done|].
  apply last_ready_kept. intros x Hx. destruct (threads_step _ _ _ _ _ _ _ (WReady x) Hi) as [(y & [=])|[(y & _ & He & _)|(sn & _ & Hs & _)]].
  - apply elem_of_app. by left.
  - done.
  - cbn [scrape_stores] in Hs. rewrite !elem_of_cons, elem_of_nil in Hs. naive_solver.
Qed.
End Held.

(** C21: the worker process as the control plane sees it: however the steps of its
    goroutines interleave, once a beat has succeeded and until another, the
    health snapshot that reads the key has the id, model and address of the
    configuration and the readiness last probed before that beat, or that of
    the configuration whenever the environment fixes it; an Ollama worker
    reports an empty queue and nothing in flight, whatever it does; and when
    the time to live has passed, the worker is gone. *)
Theorem worker_process_seen `{UnicodeTables} {K : Type} `{Koanf K} {DB : Type} `{WorkerTables DB} {R : Type} `{RedisTTL R} {O : Type}
    cfg (h : worker_host O) db p db' oob times probes scrapes es t es' r t' s :
  worker_start cfg h db = (Ok p, db') ->
  interleaving (worker_threads (wh_getenv h) oob p times probes scrapes) (es ++ WBeat t :: es') ->
  Forall (fun e => match e with WBeat _ => False | _ => True end) es' ->
  let w := wp_writer p in
  let st := Run (w, r) es in
  utf8_heartbeat (snapshot w t) -> in_i64 (UnixMilli t) -> (millisecond | hw_ttl w) -> (BeatOnce st.1 st.2 t).1 = None -> t <= t' ->
  let id := k_String cfg "worker.id" in
  let seen := applySet unmarshal (db_get (keys_at (Run st (WBeat t :: es')).2 t')) s id !! id in
  if t' <? t + hw_ttl w then
    exists hb, seen = Some hb /\ Health.ID hb = id /\ Health.BaseModel hb = k_String cfg "worker.model.base" /\
      Health.Addr hb = k_String cfg "worker.endpoint" /\
      Health.Ready hb = (if negb (String.eqb (wh_getenv h "FORGE_WORKER_READY") "") then k_Bool cfg "worker.ready" else last_ready (wh_probe h) es) /\
      (is_ollama (wp_adapter p) -> Health.Inflight hb = 0 /\ Health.QueueDepth hb = 0)
  else seen = None.
Proof.
  intros Hstart Hi Hq. cbn zeta. intros Hu Hts Hd Hb Hle.
  destruct (worker_start_inv _ _ _ _ _ Hstart) as (Hid & _ & _ & _ & Ew).
  pose proof (threads_ok _ _ _ _ _ _ _ Hi) as Hok. apply Forall_app in Hok as [Hes Hok]. apply list.Forall_cons in Hok as [_ Hes'].
  assert (Forall stores es') as Hst.
  { rewrite list.Forall_forall in Hq, Hes' |- *. intros e He. specialize (Hq e He). specialize (Hes' e He). by destruct e. }
  assert (words_ok (wp_writer p)) as Hw by (rewrite Ew; by vm_compute).
  assert (0 < hw_ttl (wp_writer p)) as Httl by (rewrite Ew; cbn [NewHeartbeatWriter hw_ttl]; case_if; zbool; [done|lia]).
  assert (hw_id (wp_writer p) = k_String cfg "worker.id") as Eid by by rewrite Ew.
  destruct (Run_same (wp_writer p) r es Hes Hw) as [[Ei Eb Ead Er Eaddr Ettl Hw'] Hready].
  pose proof (process_load cfg h p oob _ _ _ _ _ r Ew Hi) as Hload. pose proof (process_ready cfg h p oob _ _ _ _ _ r Ew Hi Hes) as Hrd.
  change (Run (Run (wp_writer p, r) es) (WBeat t :: es')) with (Run (wact (Run (wp_writer p, r) es) (WBeat t)) es').
  rewrite Run_quiet by done. destruct (Run (wp_writer p, r) es) as [w1 r1]. cbn [fst snd wact] in *.
  destruct (BeatOnce w1 r1 t) as [e r2] eqn:E. cbn [fst snd] in *. subst e. rewrite <- Eid, <- Ei, <- Ettl.
  rewrite (applySet_after_beat w1 r1 t r2 t' s); try done; try congruence.
  - destruct (t' <? _); [|done]. exists (snapshot w1 t). cbn [snapshot Health.ID Health.BaseModel Health.Addr Health.Ready Health.Inflight Health.QueueDepth].
    rewrite Eb, Eaddr, Ew. split_and!; try done.
  - unfold utf8_heartbeat in *. cbn in *. by rewrite Ei, Eb, Ead, Er, Eaddr.
Qed.

(** *** Witnesses *)

Definition reachable_host : worker_host string :=
  mkWorkerHost string (fun _ => "") true None [Err (EStatus Unavailable "connection refused"); Ok 5] Ok (fun _ => None) None None.

Definition process1 : worker_process :=
  mkProcess (OllamaAdapter "http://127.0.0.1:11434" "5m") "ollama" writer1 (mkTracer "forge-worker" None).

Definition steps1 : list wevent := [WBeat 100; WReady false; WReady true].

Lemma steps1_interleaved :
  interleaving (worker_threads (fun _ => "") (fun _ => 0) process1 [100; 200] [false; true; false] []) (steps1 ++ WBeat 200 :: [WReady false]).
Proof.
  apply (interleaving_step _ 0 _ [WBeat 200]); [reflexivity|]. apply (interleaving_step _ 1 _ [WReady true; WReady false]); [reflexivity|].
  apply (interleaving_step _ 1 _ [WReady false]); [reflexivity|]. apply (interleaving_step _ 0 _ []); [reflexivity|].
  apply (interleaving_step _ 1 _ []); [reflexivity|]. constructor.
Qed.

Lemma worker_process_seen_witness :
  exists hb, applySet unmarshal (db_get (keys_at (Run (Run (writer1, ∅ : timed) steps1) [WBeat 200; WReady false]).2 300)) ∅ "local-qwen-1" !! "local-qwen-1"
    = Some hb /\ Health.Ready hb = true /\ Health.Inflight hb = 0.
Proof.
  pose proof (@worker_process_seen ascii_tables _ pairs_config mem_tables mem_worker_tables timed timed_redis string cfg1 reachable_host (mkMem ∅ [])
    process1 reg1.2 (fun _ => 0) [100; 200] [false; true; false] [] steps1 200 [WReady false] ∅ 300 ∅) as Hw.
  destruct Hw as (hb & Es & _ & _ & _ & Er & Hl).
  - vm_compute. reflexivity.
  - apply steps1_interleaved.
  - repeat constructor.
  - apply (bool_decide_unpack _). vm_compute. exact I.
  - vm_compute. split; [discriminate|reflexivity].
  - exists 6000. vm_compute. reflexivity.
  - vm_compute. reflexivity.
  - lia.
  - exists hb. split; [exact Es|]. split; [rewrite Er; reflexivity|]. apply Hl. exact I.
Defined.

Definition priced : list (string * string) :=
  [("worker.id", "gpu-1"); ("worker.endpoint", "10.0.0.7:50051"); ("worker.runtime", "RUNTIME_KIND_VLLM"); ("worker.model.base", "qwen");
   ("worker.cost.per.hour", "0.79")].

Definition priced_start := @worker_start ascii_tables _ pairs_config mem_tables mem_worker_tables string priced reachable_host (mkMem ∅ []).

Lemma configured_cost_in_snapshot_witness :
  exists w v, w ∈ @ListWorkers mem_tables mem_worker_tables priced_start.2 /\ @worker_views ascii_tables ∅ w = [v] /\ v_CostPerHour v = flit 79 100 /\ v_CostClass v = "paid".
Proof.
  destruct priced_start as [[p|e] db'] eqn:E; [|exfalso; revert E; vm_compute; discriminate].
  destruct (@configured_cost_in_snapshot ascii_tables _ pairs_config mem_tables mem_worker_tables string priced reachable_host (mkMem ∅ []) p db' ∅ E)
    as (w & v & Hw & Hv & _ & _ & Hc & Hp).
  - apply (bool_decide_unpack _). vm_compute. exact I.
  - vm_compute. reflexivity.
  - exists w, v. split; [exact (proj1 (proj2 (Hw w) eq_refl))|]. split; [exact Hv|]. split; [rewrite Hc; vm_compute; reflexivity|].
    rewrite Hp by reflexivity. vm_compute. reflexivity.
Defined.
