(* ===== verification/Wiring.v ===== *)
(** * The container of the control plane (cmd/forge-controlplane/main.go: main,
      must)

    [main] gives a dependency container thirty-six constructors and asks it to
    call [run].  The container builds a component when it is first needed and
    hands the same one to everybody, which is how the publisher, the scheduler
    and the gateway come to share holders, trackers and stores.  The file has
    the constructors in the order of the source, what [dig] is relied on for,
    and what follows for the start. *)

From S2P Require Import Prelude Errors Metrics.

(** A constructor: the type of its result, those of its parameters, and the
    metrics it registers. *)
Record constructor := mkConstructor { gives : string; needs : list string; registers : list string }.

(** No constructor needs itself, however far around. *)
Definition acyclic (cs : list constructor) : Prop :=
  exists rank : string -> nat, forall x, x ∈ cs -> forall t, t ∈ needs x -> (rank t < rank (gives x))%nat.

(** Everything wanted or needed has a constructor. *)
Definition complete_for (cs : list constructor) (want : list string) : Prop :=
  forall t, t ∈ want \/ (exists x, x ∈ cs /\ t ∈ needs x) -> t ∈ gives <$> cs.

(** Every constructor called has found its parameters built. *)
Definition in_order (cs : list constructor) (called : list string) : Prop :=
  forall before t after x, called = (before ++ t :: after)%list -> x ∈ cs -> gives x = t -> forall n, n ∈ needs x -> n ∈ before.

(** go.uber.org/dig: [Provide] accepts a constructor of a new type that closes
    no cycle; [Invoke] calls constructors, each at most once and after those
    it needs, until what is wanted is built or one returns an error.  [fails]
    are the errors the constructors return. *)
Class Dig (C : Type) := {
  dig_New : C;
  known : C -> list constructor;
  Provide : C -> constructor -> option error * C;
  Invoke : C -> (string -> option error) -> list string -> option error * list string;
  known_New : known dig_New = [];
  Provide_new : forall c x, gives x ∉ gives <$> known c -> acyclic (known c ++ [x])%list ->
    exists c', Provide c x = (None, c') /\ known c' = (known c ++ [x])%list;
  Invoke_builds : forall c fails want, NoDup (gives <$> known c) -> acyclic (known c) -> complete_for (known c) want ->
    let '(e, called) := Invoke c fails want in
    NoDup called /\ (forall t, t ∈ called -> t ∈ gives <$> known c) /\ in_order (known c) called /\
    match e with
    | None => (forall t, t ∈ want -> t ∈ called) /\ Forall (fun t => fails t = None) called
    | Some _ => exists before t, called = (before ++ [t])%list /\ is_Some (fails t) /\ Forall (fun t => fails t = None) before
    end
}.

(** ** The constructors of main *)

Definition storage_constructors : list constructor :=
  [mkConstructor "*koanf.Koanf" [] [];
   mkConstructor "*gorm.DB" ["*koanf.Koanf"] [];
   mkConstructor "*redis.Client" ["*koanf.Koanf"] [];
   mkConstructor "registry.WorkerRepository" ["*gorm.DB"] [];
   mkConstructor "registry.RegistryService" ["registry.WorkerRepository"] [];
   mkConstructor "catalog.Repository" ["*gorm.DB"] [];
   mkConstructor "*catalog.SnapshotHolder" [] [];
   mkConstructor "*catalog.Service" ["catalog.Repository"; "*catalog.SnapshotHolder"; "*redis.Client"] []].

Definition routing_constructors : list constructor :=
  [mkConstructor "*observability.Registry" [] [];
   mkConstructor "*health.Metrics" ["*observability.Registry"] health_names;
   mkConstructor "*health.Service" ["*redis.Client"; "*health.Metrics"; "*koanf.Koanf"] [];
   mkConstructor "*routing.SnapshotHolder" [] [];
   mkConstructor "*routing.PolicyHolder" [] [];
   mkConstructor "*routing.InflightTracker" [] [];
   mkConstructor "*routing.Metrics" ["*observability.Registry"; "*routing.SnapshotHolder"] routing_names;
   mkConstructor "*routing.Publisher"
     ["*redis.Client"; "registry.WorkerRepository"; "*health.Service"; "*routing.SnapshotHolder"; "*routing.Metrics"; "*koanf.Koanf"] [];
   mkConstructor "*planner.ObjectiveStore" ["*gorm.DB"] [];
   mkConstructor "*planner.PolicyStore" ["*gorm.DB"; "*redis.Client"] [];
   mkConstructor "*planner.Service"
     ["*planner.ObjectiveStore"; "*planner.PolicyStore"; "*routing.SnapshotHolder"; "*routing.PolicyHolder"] []].

Definition scheduler_constructors : list constructor :=
  [mkConstructor "*scheduler.Metrics" ["*observability.Registry"] scheduler_names;
   mkConstructor "*scheduler.LatencyStore" ["*scheduler.Metrics"; "*koanf.Koanf"] [];
   mkConstructor "*scheduler.Chain" ["*scheduler.Metrics"; "*routing.PolicyHolder"; "*cacheregistry.Service"; "*koanf.Koanf"] [];
   mkConstructor "*gateway.Metrics" ["*observability.Registry"] gateway_names;
   mkConstructor "gateway.WorkerSelector"
     ["*routing.SnapshotHolder"; "*catalog.SnapshotHolder"; "*routing.InflightTracker"; "*scheduler.LatencyStore"; "*scheduler.Chain";
      "*scheduler.Metrics"; "*koanf.Koanf"] []].

Definition gateway_constructors : list constructor :=
  [mkConstructor "*reliability.Metrics" ["*observability.Registry"] reliability_names;
   mkConstructor "*reliability.BreakerMap" ["*reliability.Metrics"; "*koanf.Koanf"] [];
   mkConstructor "*reliability.RetryBudget" ["*koanf.Koanf"] [];
   mkConstructor "*reliability.Failover"
     ["*reliability.RetryBudget"; "*reliability.BreakerMap"; "*reliability.Metrics"; "*koanf.Koanf"] [];
   mkConstructor "*gateway.Handler"
     ["gateway.WorkerSelector"; "*routing.InflightTracker"; "*scheduler.LatencyStore"; "*gateway.Metrics"; "*reliability.Failover";
      "*koanf.Koanf"] []].

Definition fleet_constructors : list constructor :=
  [mkConstructor "*fleet.PolicyCache" ["*gorm.DB"] [];
   mkConstructor "fleet.Provisioner" ["*koanf.Koanf"] [];
   mkConstructor "*fleet.Metrics" ["*observability.Registry"] fleet_names;
   mkConstructor "*fleet.Manager"
     ["*fleet.PolicyCache"; "fleet.Provisioner"; "*routing.SnapshotHolder"; "*redis.Client"; "*fleet.Metrics"; "*gorm.DB"] [];
   mkConstructor "gateway.Activator" ["*fleet.Manager"] [];
   mkConstructor "*provider.Registry" ["*gorm.DB"] [];
   mkConstructor "*cacheregistry.Service" ["*redis.Client"; "*observability.Registry"] ["forge_cache_events_total"]].

Definition constructors : list constructor :=
  (storage_constructors ++ routing_constructors ++ scheduler_constructors ++ gateway_constructors ++ fleet_constructors)%list.

(** The parameters of [run]. *)
Definition run_needs : list string :=
  ["*koanf.Koanf"; "*observability.Registry"; "registry.RegistryService"; "*health.Service"; "*redis.Client"; "*gorm.DB";
   "*routing.SnapshotHolder"; "*routing.Metrics"; "*routing.Publisher"; "*catalog.Service"; "*planner.Service"; "*routing.PolicyHolder";
   "*fleet.Manager"; "gateway.Activator"; "*provider.Registry"; "*cacheregistry.Service"; "*gateway.Handler"].

(** Only the database and Redis can refuse. *)
Definition refusals (gormErr redisErr : option error) (t : string) : option error :=
  if String.eqb t "*gorm.DB" then gormErr else if String.eqb t "*redis.Client" then redisErr else None.

(** How [main] ends before or reaches [run], with the constructors called:
    [must] ends the process on any error. *)
Inductive main_end : Type := ProvideFatal (e : error) | InvokeFatal (e : error) (called : list string) | RunCalled (called : list string).

Section Main.
Context {C : Type} `{Dig C}.

Fixpoint provide_all (c : C) (cs : list constructor) : result error C :=
  match cs with
  | [] => Ok c
  | x :: rest => match Provide c x with (Some e, _) => Err e | (None, c) => provide_all c rest end
  end.

Definition controlplane_main (gormErr redisErr : option error) : main_end :=
  match provide_all dig_New constructors with
  | Err e => ProvideFatal e
  | Ok c =>
      match Invoke c (refusals gormErr redisErr) run_needs with
      | (Some e, called) => InvokeFatal e called
      | (None, called) => RunCalled called
      end
  end.
End Main.

(** The metrics a sequence of constructors registers. *)
Definition registered_by (called : list string) : list string :=
  concat ((fun t => default [] (registers <$> List.find (fun x => String.eqb (gives x) t) constructors)) <$> called).

(** ** Lemmas *)

Lemma acyclic_app_l cs cs' : acyclic (cs ++ cs')%list -> acyclic cs.
Proof. intros [rank Hr]. exists rank. intros x Hx. apply Hr. apply elem_of_app. by left. Qed.

Lemma provide_all_ok {C : Type} `{Dig C} (c : C) cs :
  NoDup (gives <$> (known c ++ cs)%list) -> acyclic (known c ++ cs)%list ->
  exists c', provide_all c cs = Ok c' /\ known c' = (known c ++ cs)%list.
Proof.
  revert c. induction cs as [|x cs IH]; intros c Hn Ha; [exists c; by rewrite app_nil_r|]. cbn [provide_all].
  assert ((known c ++ x :: cs)%list = ((known c ++ [x]) ++ cs)%list) as E by by rewrite <- app_assoc.
  destruct (Provide_new c x) as (c' & -> & Ek).
  - rewrite fmap_app, fmap_cons in Hn. apply list.NoDup_app in Hn as (_ & Hd & _). intros Hin. apply (Hd _ Hin). by left.
  - rewrite E in Ha. by apply acyclic_app_l in Ha.
  - rewrite E in Hn, Ha |- *. rewrite <- Ek in *. by apply IH.
Qed.

(** A builder: the first constructor not yet called whose needs are built. *)
Definition next (cs : list constructor) (built : list string) : option constructor :=
  List.find (fun x => negb (bool_decide (gives x ∈ built)) && forallb (fun t => bool_decide (t ∈ built)) (needs x)) cs.

Fixpoint build (n : nat) (cs : list constructor) (fails : string -> option error) (built : list string) : option error * list string :=
  match n with
  | O => (None, built)
  | S n =>
      match next cs built with
      | None => (None, built)
      | Some x =>
          match fails (gives x) with
          | Some e => (Some e, (built ++ [gives x])%list)
          | None => build n cs fails (built ++ [gives x])%list
          end
      end
  end.

(** An order in which everything can be built, and the place in it. *)
Definition build_order : list string := (build 36 constructors (fun _ => None) []).2.

Definition place (t : string) : nat := match list_find (eq t) build_order with Some (i, _) => i | None => 0%nat end.

Lemma constructors_acyclic : acyclic constructors.
Proof.
  exists place. assert (forallb (fun x => forallb (fun t => Nat.ltb (place t) (place (gives x))) (needs x)) constructors = true) as Hc by (vm_compute; reflexivity).
  intros x Hx t Ht. rewrite forallb_forall in Hc. specialize (Hc x ltac:(by apply list_elem_of_In)). rewrite forallb_forall in Hc.
  apply Nat.ltb_lt, Hc. by apply list_elem_of_In.
Qed.

Lemma constructors_unique : NoDup (gives <$> constructors).
Proof. apply (bool_decide_unpack _). vm_compute. exact I. Qed.

Lemma constructors_complete : complete_for constructors run_needs.
Proof.
  assert (forallb (fun t => bool_decide (t ∈ gives <$> constructors)) (run_needs ++ concat (needs <$> constructors)) = true) as Hc by (vm_compute; reflexivity).
  intros t Ht. rewrite forallb_forall in Hc. specialize (Hc t). rewrite bool_decide_eq_true in Hc. apply Hc. apply list_elem_of_In, elem_of_app.
  destruct Ht as [Ht|(x & Hx & Ht)]; [by left|right]. apply list_elem_of_In, in_concat. exists (needs x).
  split; apply list_elem_of_In; [apply list_elem_of_fmap; by exists x|done].
Qed.

(** Different constructors register different metrics. *)
Lemma registered_once called : NoDup called -> (forall t, t ∈ called -> t ∈ gives <$> constructors) ->
  NoDup (registered_by called ++ ["forge_controlplane_build_info"])%list.
Proof.
  intros Hn Hin. assert (called ⊆+ gives <$> constructors) as [rest Hp]%submseteq_Permutation by by apply NoDup_submseteq.
  assert (NoDup (registered_by (gives <$> constructors) ++ ["forge_controlplane_build_info"])%list) as Hall
    by (apply (bool_decide_unpack _); vm_compute; exact I).
  assert (registered_by (gives <$> constructors) ≡ₚ (registered_by called ++ registered_by rest)%list) as Hr.
  { unfold registered_by. rewrite <- concat_app, <- fmap_app. apply concat_perm. by rewrite Hp. }
  rewrite Hr, <- app_assoc, (Permutation_app_comm (registered_by rest)), app_assoc in Hall. by apply list.NoDup_app in Hall as [Hall _].
Qed.

(** ** Properties *)

(** C23: the control plane comes up unless the database or Redis refuse: the
    container accepts all constructors, has one for everything [run] and they
    need, and no cycle, so that [run] is called whenever both can be opened;
    by then every component was built at most once, after those it needs, and
    registering the metrics of all of them and of [run] does not panic.  When
    [run] is not called, the last constructor called is that of the database
    or of Redis, and it returned an error. *)
Theorem controlplane_wired {C : Type} `{Dig C} gormErr redisErr :
  match controlplane_main gormErr redisErr with
  | ProvideFatal _ => False
  | InvokeFatal _ called =>
      exists before t, called = (before ++ [t])%list /\
        (t = "*gorm.DB" /\ is_Some gormErr \/ t = "*redis.Client" /\ is_Some redisErr)
  | RunCalled called =>
      gormErr = None /\ redisErr = None /\ (forall t, t ∈ run_needs -> t ∈ called) /\ NoDup called /\ in_order constructors called /\
      forall (R : Type) (HR : Registrar R), exists reg,
        register_all (R := R) reg_New (registered_by called ++ ["forge_controlplane_build_info"])%list = Returns reg
  end.
Proof.
  unfold controlplane_main. destruct (provide_all_ok dig_New constructors) as (c & -> & Ek); rewrite known_New in *; cbn [app] in *.
  { apply constructors_unique. }
  { apply constructors_acyclic. }
  pose proof (Invoke_builds c (refusals gormErr redisErr) run_needs) as Hi. rewrite Ek in Hi.
  specialize (Hi constructors_unique constructors_acyclic constructors_complete).
  destruct (Invoke c (refusals gormErr redisErr) run_needs) as [[e|] called]; destruct Hi as (Hn & Hin & Ho & Hr).
  - destruct Hr as (before & t & -> & Hf & _). exists before, t. split; [done|]. unfold refusals in Hf.
    destruct (String.eqb_spec t "*gorm.DB"); [by left|]. destruct (String.eqb_spec t "*redis.Client"); [by right|by destruct Hf].
  - destruct Hr as [Hw Hf]. rewrite list.Forall_forall in Hf.
    assert ("*gorm.DB" ∈ called /\ "*redis.Client" ∈ called) as [Hg Hc] by (split; apply Hw; set_solver).
    split_and!; [apply (Hf _ Hg)|apply (Hf _ Hc)|done|done|done|]. intros R HR.
    destruct (register_all_returns (R := R) (registered_by called ++ ["forge_controlplane_build_info"])%list reg_New) as (reg & E & _); [by apply registered_once| |by exists reg].
    intros n _. rewrite reg_New_Names. apply not_elem_of_nil.
Qed.

(** *** Witnesses *)

Lemma next_some cs built x : next cs built = Some x ->
  x ∈ cs /\ gives x ∉ built /\ forall t, t ∈ needs x -> t ∈ built.
Proof.
  unfold next. intros E. apply find_some in E as [Hx [Hg Hn]%andb_true_iff]. rewrite forallb_forall in Hn. split_and!.
  - by apply list_elem_of_In.
  - by apply negb_true_iff, bool_decide_eq_false in Hg.
  - intros t Ht. apply (bool_decide_eq_true (t ∈ built)), Hn. by apply list_elem_of_In.
Qed.

(** While something is not built, something can be. *)
Lemma next_none cs built : acyclic cs -> complete_for cs [] -> next cs built = None -> forall x, x ∈ cs -> gives x ∈ built.
Proof.
  intros [rank Hr] Hc E. assert (forall n x, x ∈ cs -> (rank (gives x) <= n)%nat -> gives x ∈ built) as Hall; [|intros x Hx; by eapply Hall].
  induction n as [|n IH]; intros x Hx Hle; destruct (decide (gives x ∈ built)) as [|Hn]; try done; exfalso;
    assert (forall t, t ∈ needs x -> t ∈ built) as Hb.
  1: { intros t Ht. specialize (Hr x Hx t Ht). lia. }
  2: { intros t Ht. pose proof (Hr x Hx t Ht). assert (t ∈ gives <$> cs) as Hg by (apply Hc; right; by exists x).
       apply list_elem_of_fmap in Hg as (y & -> & Hy). apply IH; [done|lia]. }
  all: unfold next in E; assert (x ∈ cs) as Hx' by done; apply list_elem_of_In in Hx'; pose proof (find_none _ _ E x Hx') as Hf;
    cbn beta in Hf; rewrite bool_decide_eq_false_2 in Hf by done; cbn [negb andb] in Hf;
    assert (forallb (fun t => bool_decide (t ∈ built)) (needs x) = true) as Ht by
      (apply forallb_forall; intros t Ht; apply bool_decide_eq_true, Hb; by apply list_elem_of_In); congruence.
Qed.

Lemma in_order_snoc cs called t : in_order cs called -> (forall x, x ∈ cs -> gives x = t -> forall n, n ∈ needs x -> n ∈ called) ->
  in_order cs (called ++ [t]).
Proof.
  intros Ho Ht before t' after x E Hx Hg n Hn. destruct after as [|a after _] using rev_ind.
  - apply app_inj_2 in E as [-> [= <-]]; [|done]. by eapply Ht.
  - rewrite app_comm_cons, app_assoc in E. apply app_inj_2 in E as [-> _]; [|done]. by eapply Ho.
Qed.

Lemma gives_unique cs x y : NoDup (gives <$> cs) -> x ∈ cs -> y ∈ cs -> gives x = gives y -> x = y.
Proof.
  intros Hu [i Hi]%list_elem_of_lookup [j Hj]%list_elem_of_lookup E.
  assert (i = j) as ->; [|congruence]. eapply (list.NoDup_lookup (gives <$> cs)); [done| |]; rewrite list_lookup_fmap; [by rewrite Hi|rewrite Hj; cbn; by f_equal].
Qed.

Lemma build_spec n cs fails built :
  NoDup (gives <$> cs) -> acyclic cs -> complete_for cs [] ->
  NoDup built -> (forall t, t ∈ built -> t ∈ gives <$> cs) -> in_order cs built -> Forall (fun t => fails t = None) built ->
  (length cs <= length built + n)%nat ->
  let '(e, called) := build n cs fails built in
  NoDup called /\ (forall t, t ∈ called -> t ∈ gives <$> cs) /\ in_order cs called /\
  match e with
  | None => (forall x, x ∈ cs -> gives x ∈ called) /\ Forall (fun t => fails t = None) called
  | Some _ => exists before t, called = (before ++ [t])%list /\ is_Some (fails t) /\ Forall (fun t => fails t = None) before
  end.
Proof.
  intros Hu Ha Hc. revert built. induction n as [|n IH]; intros built Hn Hin Ho Hf Hlen; cbn [build].
  - split_and!; try done. intros x Hx. assert (built ≡ₚ gives <$> cs) as ->; [|by apply list_elem_of_fmap_2].
    apply submseteq_length_Permutation; [by apply NoDup_submseteq|]. rewrite length_fmap. lia.
  - destruct (next cs built) as [x|] eqn:E; [|split_and!; try done; by eapply next_none].
    destruct (next_some _ _ _ E) as (Hx & Hg & Hb).
    assert (NoDup (built ++ [gives x])) as Hn'.
    { apply list.NoDup_app. split_and!; [done| |apply list.NoDup_cons; split; [apply not_elem_of_nil|constructor]]. by intros t Ht ->%list_elem_of_singleton. }
    assert (forall t, t ∈ (built ++ [gives x])%list -> t ∈ gives <$> cs) as Hin'.
    { intros t [Ht| ->%list_elem_of_singleton]%elem_of_app; [by apply Hin|by apply list_elem_of_fmap_2]. }
    assert (in_order cs (built ++ [gives x])) as Ho'.
    { apply in_order_snoc; [done|]. intros y Hy Ey. assert (y = x) as ->; [|done]. by eapply gives_unique. }
    destruct (fails (gives x)) as [e|] eqn:Ef.
    + split_and!; try done. exists built, (gives x). split_and!; [done|by rewrite Ef|done].
    + apply IH; try done; [by apply Forall_app; split; [|repeat constructor]|]. rewrite length_app. cbn. lia.
Qed.

(** A container that builds everything it knows. *)
#[export] Instance eager_container : Dig (list constructor).
Proof.
  refine {| dig_New := []; known c := c; Provide c x := (None, (c ++ [x])%list);
            Invoke c fails _ := build (length c) c fails [] |}.
  - done.
  - intros c x _ _. by eexists.
  - intros c fails want Hn Ha Hc. assert (complete_for c []) as Hc'.
    { intros t [[]%elem_of_nil|Ht]. apply Hc. by right. }
    pose proof (build_spec (length c) c fails [] Hn Ha Hc') as Hb. destruct (build _ _ _ _) as [e called].
    destruct Hb as (H1 & H2 & H3 & H4); [constructor|by intros t ?%elem_of_nil|by intros [|]|constructor|cbn; lia|].
    split_and!; try done. destruct e; [done|]. destruct H4 as [H4 H5]. split; [|done]. intros t Ht.
    assert (t ∈ gives <$> c) as (x & -> & Hx)%list_elem_of_fmap by (apply Hc; by left). by apply H4.
Defined.

Lemma controlplane_wired_witness :
  exists called, controlplane_main (C := list constructor) None None = RunCalled called /\ NoDup called /\ "*gateway.Handler" ∈ called.
Proof.
  pose proof (controlplane_wired (C := list constructor) None None) as Hw.
  destruct (controlplane_main None None) as [e|e called|called] eqn:E; [vm_compute in E; discriminate E..|].
  exists called. destruct Hw as (_ & _ & Hn & Hd & _). split_and!; [reflexivity|exact Hd|]. apply Hn, (bool_decide_unpack _). vm_compute. exact I.
Defined.
