(* ===== verification/EndToEnd.v ===== *)
(** * A chat request through the whole system

    The parts of the other files put together: a worker process that starts,
    registers and writes its first heartbeat; a control plane that starts over
    the tables and the Redis it left; the gateway of that control plane with
    the scheduler, admission and failover its configuration gives it; and the
    worker's server in front of Ollama.  A request for the worker's model is
    answered with what the runtime wrote. *)

From S2P Require Import Prelude Float64 GoStrings GoFormat Json JsonDecode JsonTime Errors Breaker Failover Inflight Holder Health HeartbeatWriter Routing SnapshotWire Metrics HealthService WorkerRegistry Config Rendezvous Candidates Scorers Chain GatewaySelect GatewayDispatch GatewayHandler FleetScaling ProviderRegistry CatalogStore CatalogProgram WorkerProgram WorkerAdapters WorkerLoad GatewayOpen Relay OllamaWire ControlPlane Services Startup WorkerMain.

(** ** What the outside does *)

(** The worker: its process has started and found its runtime ready, Redis had
    no heartbeats, and the first beat, of time [t], is seen at [t']. *)
Record worker_up `{UnicodeTables} {K : Type} `{Koanf K} {WDB : Type} `{WorkerTables WDB} {R : Type} `{RedisTTL R} {O : Type}
    (cfg : K) (h : worker_host O) (wdb : WDB) (p : worker_process) (wdb' : WDB) (r : R) (t : Z) (r' : R) (t' : Z) : Prop := {
  wu_start : worker_start cfg h wdb = (Ok p, wdb');
  wu_ready : initial_ready cfg (wh_getenv h) (wh_probe h) = true;
  wu_ids : forall w, w ∈ ListWorkers wdb -> r_ID w <> "";
  wu_empty : keys_at r t' = ∅;
  wu_utf8 : utf8_heartbeat (snapshot (wp_writer p) t);
  wu_time : in_i64 (UnixMilli t);
  wu_ttl : (millisecond | hw_ttl (wp_writer p));
  wu_beat : BeatOnce (wp_writer p) r t = (None, r');
  wu_seen : t <= t' < t + hw_ttl (wp_writer p)
}.

(** The control plane's database and Redis answer: an empty catalog that is
    seeded from the rows of the registry, no providers. *)
Record plane_answers {V : Type -> Type} `{Prometheus V} {DB : Type} `{CatalogTables DB} `{UnicodeTables}
    (Getenv : string -> string) (db : DB) (svc : @health_Service V) (fuel : nat) (b : boot) (rdb : gmap string string) (regs : list RegWorker)
    (seed : servable) : Prop := {
  pa_tracer : exists tr, bo_tracer b = Ok tr;
  pa_redis : answers (bo_redis b) rdb fuel;
  pa_labels : vec_Labels (hm_healthy (hs_metrics svc)) = 2%nat /\ vec_Labels (hm_age (hs_metrics svc)) = 3%nat;
  pa_all : forall x, bo_all b x ≡ₚ All x;
  pa_size : forall x, reconcileOnce unmarshal (rv_scan (bo_redis b)) (rv_get (bo_redis b)) fuel (hs_snapshot svc) = Some (Returns (Ok x)) ->
    Z.of_nat (size x) < 2 ^ 53;
  pa_models : models_rows db = [];
  pa_counted : bo_counted b = None;
  pa_seed : exists rows n db' fresh, bo_rows b = Ok rows /\ SeedFromWorkers db None (Ok rows) = (n, None, db') /\ (seed, fresh) ∈ rows;
  pa_listed : bo_listed b = None;
  pa_virtual : SnapshotViews (ProviderRegistry.Reload Getenv NewRegistry (bo_providers b)).2 = [];
  pa_workers : bo_workers b = Ok regs;
  pa_marshals : forall x, forallb view_marshals (concat (worker_views x <$> regs)) = true;
  pa_now : time_writable (bo_now b) = true;
  pa_publish : bo_publish b = None
}.

(** ** Lemmas *)

Lemma merged_endpoint load latency v vs E :
  E <> "" -> Forall (fun x => v_Endpoint x = E) (v :: vs) -> Endpoint (Candidates.merged_candidate load latency v vs) = E.
Proof.
  intros HE Hall. assert (forall c w, Endpoint (add_model c w) = Endpoint c) as Ha by (intros c w; unfold add_model; by case_ifs).
  apply list.Forall_cons in Hall as [Hv Hvs]. unfold Candidates.merged_candidate.
  assert (Endpoint (add_model (new_candidate load latency v) v) = E) as Hc by by rewrite Ha.
  revert Hc. generalize (add_model (new_candidate load latency v) v). induction Hvs as [|w vs Hw _ IH]; intros c Hc; [done|].
  cbn [foldl]. apply IH. rewrite Ha. cbn [merge_view Endpoint]. rewrite Hw. by destruct (String.eqb_spec E "").
Qed.

(** The views of a worker whose heartbeat has an address. *)
Lemma view_endpoint `{UnicodeTables} hs w v hb :
  v ∈ worker_views hs w -> hs !! r_ID w = Some hb -> Health.Addr hb <> "" -> v_Endpoint v = Health.Addr hb.
Proof.
  intros Hv Hhb Ha. unfold worker_views in Hv. rewrite Hhb in Hv. destruct (String.eqb_spec (Health.Addr hb) ""); [done|].
  destruct (r_Models w) as [|m ms]; [by apply list_elem_of_singleton in Hv as ->|]. by apply list_elem_of_fmap in Hv as (m' & -> & _).
Qed.

(** Where only one worker has a heartbeat, it is the only healthy candidate. *)
Lemma only_live_candidate `{UnicodeTables} hs regs now get latency wid hb c :
  (forall w, w ∈ regs -> is_Some (hs !! r_ID w) -> r_ID w = wid) -> hs !! wid = Some hb -> Health.Addr hb <> "" ->
  c ∈ CandidatesFromSnapshot (Some (mkSnap now 1 (concat (worker_views hs <$> regs)))) get latency -> Healthy c = true ->
  WorkerID c = wid /\ Endpoint c = Health.Addr hb.
Proof.
  intros Hlive Hhb Ha (v & vs & Ev & ->)%candidates_spec Hh. cbn [Workers] in Ev.
  assert (forall x, x ∈ v :: vs -> v_ID x = v_ID v /\ exists w, w ∈ regs /\ x ∈ worker_views hs w) as Hx.
  { intros x Hx. rewrite <- Ev in Hx. apply list_elem_of_filter in Hx as [Eid Hx]. split; [done|].
    apply list_elem_of_In, in_concat in Hx as (l & Hl & Hx). apply list_elem_of_In in Hl, Hx. apply list_elem_of_fmap in Hl as (w & -> & Hw). by exists w. }
  destruct (merged_candidate_ok get latency (v_ID v) v vs) as [Hok Hid].
  { apply list.Forall_forall. intros x Hin. by apply Hx. }
  rewrite (mo_healthy _ _ _ Hok) in Hh. apply existsb_exists in Hh as (y & Hy & Hyh). apply list_elem_of_In in Hy.
  destruct (Hx y Hy) as [Ey (wy & Hwy & Hvy)]. destruct (worker_views_spec _ _ _ Hvy) as (Ei & Eh & _). rewrite Eh in Hyh. unfold live_in in Hyh.
  assert (r_ID wy = wid) as Ewid by (apply Hlive; [done|]; by destruct (hs !! r_ID wy)).
  assert (v_ID v = wid) as Evid by congruence. split; [congruence|].
  apply merged_endpoint; [done|]. apply list.Forall_forall. intros x Hin. destruct (Hx x Hin) as [Ex (w & Hw & Hvw)].
  destruct (worker_views_spec _ _ _ Hvw) as (Exi & _). eapply view_endpoint; [exact Hvw| |done]. by rewrite <- Exi, Ex, Evid.
Qed.

(** Redis after the first beat. *)
Lemma first_beat {R : Type} `{RedisTTL R} w r t r' t' :
  keys_at r t' = ∅ -> utf8_heartbeat (snapshot w t) -> words_ok w -> in_i64 (UnixMilli t) -> 0 < hw_ttl w -> (millisecond | hw_ttl w) ->
  BeatOnce w r t = (None, r') -> t <= t' < t + hw_ttl w ->
  exists doc, keys_at r' t' = {[Health.Key (hw_id w) := doc]} /\ unmarshal doc = Some (snapshot w t).
Proof.
  intros He Hu (Hk & Hg & Hi & Hq) Hts Ht Hd E Hle. unfold BeatOnce in E.
  destruct (marshal_ok (snapshot w t) Hu (bitsFloat_plain _ Hk) (bitsFloat_plain _ Hg) Hi Hq Hts) as (doc & Em & Eu). rewrite Em in E.
  exists doc. split; [|done]. rewrite (Set_ok _ _ _ _ _ _ E Ht Hd t') by lia. rewrite (proj2 (Z.ltb_lt _ _)) by lia. by rewrite He.
Qed.

Lemma view_of_beat w t doc id : hw_id w <> "" -> unmarshal doc = Some (snapshot w t) ->
  Health.view unmarshal {[Health.Key (hw_id w) := doc]} id = if decide (id = hw_id w) then Some (snapshot w t) else None.
Proof.
  intros Hne Hu. unfold Health.view. case_decide as D.
  - subst id. rewrite lookup_singleton_eq, Hu. cbn [snapshot Health.ID]. by destruct (String.eqb_spec (hw_id w) "").
  - rewrite lookup_singleton_ne; [done|]. intros Ek%Key_inj. congruence.
Qed.

(** So it is the only one selected. *)
Lemma selected_only_live `{UnicodeTables} `{Hash64} s admission model prompt limit hs regs now wid hb ws :
  Filters (sel_chain s) = standard_filters admission -> sel_holder s = Some (mkSnap now 1 (concat (worker_views hs <$> regs))) ->
  (forall w, w ∈ regs -> is_Some (hs !! r_ID w) -> r_ID w = wid) -> hs !! wid = Some hb -> Health.Addr hb <> "" ->
  (SelectWorkers s model prompt limit).1 = Ok ws -> forall sw, sw ∈ ws -> sw_ID sw = wid /\ sw_Endpoint sw = Health.Addr hb.
Proof.
  intros Hf Hh Hlive Hhb Ha Er sw Hin. pose proof (SelectWorkers_sound s admission model prompt limit Hf) as Hs.
  rewrite Er in Hs. destruct Hs as (snap & Hsnap & _ & _ & Hc). destruct (Hc sw Hin) as (c & Hcand & -> & -> & [Hsuit _] & _).
  rewrite Hh in Hsnap. injection Hsnap as <-. eapply (only_live_candidate hs regs); try done.
  unfold suitable in Hsuit. by destruct (Healthy c).
Qed.

(** The server of a worker process in front of its runtime, whose answer is
    [body] ([serveWorkerGRPC]). *)
Definition worker_Generate `{UnicodeTables} `{GrpcStatus} {K : Type} `{Koanf K} (cfg : K) (p : worker_process) (msg body : string) (topK : Z) (g : GenerateRequest)
    : option error * list TokenChunk :=
  let sink (_ : nat) (_ : AdapterChunk) : option error := None in
  let adapter :=
    match wp_adapter p with
    | OllamaAdapter _ _ => ollama sink msg body
    | VLLMAdapter _ served forge => fun r => vllm_Generate decode_vllm sink (mkVllm served forge) r (Ok (200, msg, scan_body body))
    end in
  server_Generate adapter (k_String cfg "ollama.keep.alive") g topK.

(** The stream the gateway opens on it, collected. *)
Lemma worker_answers `{UnicodeTables} `{GrpcStatus} {K : Type} `{Koanf K} (cfg : K) p decode post sink dial providers sw g topK msg docs gen :
  is_ollama (wp_adapter p) -> isProviderEndpoint (sw_Endpoint sw) = false ->
  dial (sw_Endpoint sw) = Ok (fun g => Ok (as_stream (worker_Generate cfg p msg (ndjson docs) topK g))) ->
  ollama_writes gen docs -> body_fits (ndjson docs) -> g_Prompt g <> "" -> g_BaseModel g <> "" ->
  collect (openGenerate decode post sink dial providers sw g) = Ok (generated gen).
Proof.
  intros Ho Hp Hd Hw Hfit Hg Hb. unfold openGenerate. rewrite Hp, Hd. unfold worker_Generate. destruct (wp_adapter p); [done|].
  rewrite (ollama_written _ (fun _ _ => eq_refl) _ g topK msg docs gen) by done. apply collect_generated.
Qed.

Lemma prompt_nonempty `{UnicodeTables} req : g_Prompt (chat_genReq req) <> "".
Proof.
  unfold chat_genReq, toWorkerRequest. destruct (ParseModelID (cr_Model req)) as [base adapter]. cbn [g_Prompt]. unfold messagesToPrompt.
  destruct (message_lines (cr_Messages req)); discriminate.
Qed.

(** What the writer of a worker that found its runtime ready starts with. *)
Lemma worker_writer {K : Type} `{Koanf K} (cfg : K) p :
  wp_writer p = NewHeartbeatWriter (heartbeat_config cfg (wp_label p) true) ->
  hw_id (wp_writer p) = k_String cfg "worker.id" /\ hw_addr (wp_writer p) = k_String cfg "worker.endpoint" /\ hw_ready (wp_writer p) = true /\
  words_ok (wp_writer p) /\ 0 < hw_ttl (wp_writer p).
Proof.
  intros ->. split_and!; try done. cbn [NewHeartbeatWriter hw_ttl]. case_if; zbool; [done|lia].
Qed.

(** A gateway that has just started, with a ranking whose workers would all
    answer alike. *)
Lemma fresh_gateway_answers {K : Type} `{Koanf K} `{UnicodeTables} `{GrpcStatus} `{Hash64} (k : K) clock open s left req affinity ws text u finish :
  let h := provide_handler k s ∅ in
  0 < k_Int k "admission.per.worker.limit" -> cr_Model req <> "" -> cr_Messages req <> [] -> cr_Stream req = false ->
  rankWorkers s (h_maxAttempts h) (cr_Model req) (chat_route req affinity) = Ok ws -> ws <> [] ->
  (forall n sw, sw ∈ ws -> collect (open (chat_genReq req) n sw) = Ok (text, u, finish)) ->
  exists sw, sw ∈ ws /\
    chatCompletions (h_retryAfterSec h) (gateway_backend clock open h left) (Some req) affinity =
      Returns (RCompletion text (stop_of finish) (usageOrZero u), Some (mkRecorded 200 (sw_ID sw) None)).
Proof.
  cbn zeta. intros Hlim Hm Hms Hst Hr Hne Ho. unfold chatCompletions.
  destruct (String.eqb_spec (cr_Model req) ""); [done|]. destruct (cr_Messages req) as [|m ms] eqn:Em; [done|]. rewrite <- Em. cbn zeta.
  change (if negb (String.eqb affinity "") then affinity else messagesToPrompt (cr_Messages req)) with (chat_route req affinity).
  assert (be_rank (gateway_backend clock open (provide_handler k s ∅) left) false (cr_Model req) (chat_route req affinity) = Ok ws) as -> by exact Hr.
  destruct ws as [|w0 ws]; [done|]. cbn [gateway_backend be_admit be_collect]. unfold admitFromRanked. cbn [admit_loop].
  assert (tryAdmit (provide_handler k s ∅) (sw_ID w0) = true) as Ha.
  { unfold tryAdmit. cbn [provide_handler NewHandler h_inflight h_admissionLimit]. rewrite (proj2 (Z.leb_gt _ _) Hlim).
    unfold Inflight.Get. rewrite lookup_empty. cbn [default]. apply orb_true_iff. right. by apply Z.ltb_lt. }
  rewrite Ha, Hst. unfold serve_collect. cbn [be_collect gateway_backend app]. fold (chat_genReq req).
  cbn [h_failover provide_handler NewHandler].
  destruct (collectWithFailover_answers clock (open (chat_genReq req)) (provide_breakers k) (provide_failover k).1 (provide_failover k).2 (w0 :: ws) text u finish)
    as (sw & Hin & E).
  - exists (provide_breakers k). done.
  - apply list.Forall_true. intros sw. unfold peek. cbn [provide_breakers NewBreakerMap breakers]. by rewrite lookup_empty.
  - cbn. unfold NewFailover_Max. case_if; zbool; lia.
  - done.
  - done.
  - exists sw. split; [done|]. rewrite <- surjective_pairing in E. rewrite E. done.
Qed.

(** The control plane over what the worker left: it starts, and whatever is
    selected for the worker's model is the worker. *)
Lemma started_with_worker {V : Type -> Type} `{Prometheus V} {DB : Type} `{CatalogTables DB} {WDB : Type} `{WorkerTables WDB}
    {R : Type} `{RedisTTL R} `{UnicodeTables} `{Hash64} {K : Type} `{Koanf K} {O : Type}
    (cfg : K) (h : worker_host O) (wdb : WDB) p wdb' (r : R) t r' t' Getenv (db : DB) (svc : @health_Service V) fleet cache_svc fuel b admission :
  let wid := k_String cfg "worker.id" in
  let model := k_String cfg "worker.model.base" in
  worker_up cfg h wdb p wdb' r t r' t' ->
  plane_answers Getenv db svc fuel b (keys_at r' t') (ListWorkers wdb') (mkServable wid model "") -> model <> "" -> 0 < admission < 2 ^ 63 ->
  exists cp, run_start Getenv db svc fleet cache_svc fuel b = Some (Returns (Ok cp)) /\
    forall s prompt limit, Filters (sel_chain s) = standard_filters admission ->
      sel_holder s = Holder.Load (cp_holder cp) -> sel_catalog s = cp_catalog cp -> sel_inflight s = Some (Inflight.Get ∅) ->
      exists ws, (SelectWorkers s model prompt limit).1 = Ok ws /\ ws <> [] /\
        forall sw, sw ∈ ws -> sw_ID sw = wid /\ sw_Endpoint sw = k_String cfg "worker.endpoint".
Proof.
  cbn zeta. intros [Hstart Hready Hids Hempty Hutf Htime Httl Hbeat Hseen] Hpa Hmne Hlim.
  destruct Hpa as [[tr Htr] Hred [L1 L2] Hall Hsz Hmod Hcnt (rows & n & db' & fresh & Hrows & Hseed & Hin) Hlist Hvirt Hregs Hmar Hnow Hpub].
  destruct (worker_start_inv _ _ _ _ _ Hstart) as (Hwid & Hene & Hreg & _ & Ew). rewrite Hready in Ew.
  destruct (worker_writer cfg p Ew) as (Eid & Eaddr & Erd & Hw & Httl0).
  destruct (first_beat _ _ _ _ _ Hempty Hutf Hw Htime Httl0 Httl Hbeat Hseen) as (doc & Ekeys & Edoc).
  assert (forall id, Health.view unmarshal (keys_at r' t') id = if decide (id = k_String cfg "worker.id") then Some (snapshot (wp_writer p) t) else None) as Hview.
  { intros id. rewrite Ekeys. rewrite <- Eid. apply view_of_beat; [congruence|done]. }
  destruct (start_serves Getenv db svc fleet cache_svc fuel b (keys_at r' t') tr rows n db' (ListWorkers wdb') (k_String cfg "worker.id") (k_String cfg "worker.model.base") ""
    (wrap_u32 (k_Int cfg "worker.model.context")) fresh (registered_row cfg) (snapshot (wp_writer p) t) ∅ admission)
    as (cp & hs & Erun & Esnap & Hlook & Hsel); try done.
  - apply Hreg. by left.
  - by left.
  - rewrite Hvirt. by intros v ?%elem_of_nil.
  - intros x. by rewrite Hvirt, app_nil_r.
  - rewrite Hview. by rewrite decide_True.
  - rewrite Ew. done.
  - rewrite Ew. done.
  - rewrite Ew. unfold Inflight.Get. rewrite lookup_empty. cbn. lia.
  - lia.
  - exists cp. split; [done|]. intros s prompt limit Hf Hh Hc Hi. destruct (Hsel s prompt limit Hf Hh Hc Hi) as (ws & Ews & Hwne & _).
    exists ws. split; [exact Ews|]. split; [done|]. rewrite Hvirt, app_nil_r in Esnap. rewrite <- Eaddr.
    change (hw_addr (wp_writer p)) with (Health.Addr (snapshot (wp_writer p) t)).
    assert (forall id, id <> "" -> hs !! id = if decide (id = k_String cfg "worker.id") then Some (snapshot (wp_writer p) t) else None) as Hhs
      by (intros id Hid; by rewrite Hlook, Hview).
    eapply (selected_only_live s admission); [done|by rewrite Hh| | | |exact Ews].
    + intros w [->|[Hw' _]]%Hreg Hs; [done|]. rewrite Hhs in Hs by by apply Hids. case_decide; [done|by destruct Hs].
    + rewrite Hhs by done. by rewrite decide_True.
    + cbn. by rewrite Eaddr.
Qed.

(** ** Property *)


(** *** Witnesses *)

(** The worker of [WorkerProgram] at its first beat, seen 100 ns later. *)
Definition redis_up : timed := (BeatOnce writer1 (∅ : timed) 100).2.

Definition boot_up : boot :=
  mkBoot (Ok (mkTracer "forge-controlplane" None))
    (HealthService.mkView (fun _ => Ok ([Health.Key "local-qwen-1"], 0)) (db_get (keys_at redis_up 200))) All 1005
    None (Ok [(mkServable "local-qwen-1" "qwen" "", "id1")]) None Planner.NoRow (Ok 1) RedisNil None (Ok (ListWorkers reg1.2)) None 7.

Lemma worker_up1 : @worker_up ascii_tables _ pairs_config mem_tables mem_worker_tables timed timed_redis string
  cfg1 reachable_host (mkMem ∅ []) process1 reg1.2 ∅ 100 redis_up 200.
Proof.
  split.
  - vm_compute. reflexivity.
  - reflexivity.
  - intros w Hw. by apply elem_of_nil in Hw.
  - reflexivity.
  - apply (bool_decide_unpack _). vm_compute. exact I.
  - vm_compute. split; [discriminate|reflexivity].
  - exists 6000. vm_compute. reflexivity.
  - vm_compute. reflexivity.
  - vm_compute. split; [discriminate|reflexivity].
Qed.

Lemma plane_answers1 : @plane_answers series _ store store_catalog ascii_tables (fun _ => "") no_rows svc1 1 boot_up (keys_at redis_up 200)
  (ListWorkers reg1.2) (mkServable "local-qwen-1" "qwen" "").
Proof.
  assert (exists doc, keys_at redis_up 200 = {[Health.Key "local-qwen-1" := doc]} /\ unmarshal doc = Some (snapshot writer1 100)) as (doc & Ek & Ed).
  { destruct worker_up1 as [_ _ _ He Hu Hts Hd Hb Hs]. apply (first_beat writer1 ∅ 100 redis_up 200 He Hu); [vm_compute; by split_and!|exact Hts|vm_compute; reflexivity|exact Hd|exact Hb|exact Hs]. }
  split.
  - by eexists.
  - split.
    + rewrite Ek. apply map_Forall_singleton. intros id E%Key_inj. exists (snapshot writer1 100). split; [exact Ed|]. right. rewrite <- E. vm_compute. reflexivity.
    + reflexivity.
    + exists [[Health.Key "local-qwen-1"]]. split_and!; [by split|cbn; lia| |].
      * cbn. apply list.Forall_singleton. by exists "local-qwen-1".
      * intros id [x E]. rewrite Ek in E. apply lookup_singleton_Some in E as [E _]. cbn [concat app]. rewrite E. by left.
    + intros cursor keys next [= <- _]. apply list.Forall_singleton. intros id E. apply Key_inj in E as <-. apply (bool_decide_unpack _). vm_compute. exact I.
  - by split.
  - intros x. apply Permutation_refl.
  - intros x E.
    assert (reconcileOnce unmarshal (rv_scan (bo_redis boot_up)) (rv_get (bo_redis boot_up)) 1 (hs_snapshot svc1) =
      Some (Returns (Ok {["local-qwen-1" := snapshot writer1 100]}))) as E' by (vm_compute; reflexivity).
    rewrite E' in E. injection E as <-. by rewrite map_size_singleton.
  - reflexivity.
  - reflexivity.
  - eexists _, _, _, _. split_and!; [reflexivity|vm_compute; reflexivity|by left].
  - reflexivity.
  - reflexivity.
  - reflexivity.
  - intros x. assert (ListWorkers reg1.2 = [@registered_row ascii_tables _ pairs_config cfg1]) as -> by (vm_compute; reflexivity).
    cbn [fmap list_fmap concat app]. unfold worker_views. cbn [registered_row r_ID r_Models].
    destruct (x !! _); vm_compute; reflexivity.
  - reflexivity.
  - reflexivity.
Qed.

Definition hello_qwen : ChatRequest := mkChat "qwen" [mkMessage "user" "hi"] false false None None None None.

Definition dial_qwen (endpoint : string) : result error (GenerateRequest -> result error stream) :=
  if String.eqb endpoint "127.0.0.1:50101"
  then Ok (fun g => Ok (as_stream (@worker_Generate ascii_tables plain_grpc _ pairs_config cfg1 process1 "" (ndjson hello_docs) 0 g)))
  else Err (EStatus Unavailable "no such host").

